(* ===== verification/_CoqProject ===== *)
-Q . S2P
Prelude.v
Words.v
Trb.v
Ring.v
UsbDesc.v
PortRec.v
Msc.v
Bulk.v
Input.v
Hid.v
Bitmap.v
PageAlloc.v
Dma.v
Machine.v
Board.v
PageTable.v
Process.v
Ipc.v
Sched.v
Lifecycle.v
Vfs.v
Procfs.v
Block.v
UsbBlock.v
Console.v
Ps2.v
Platform.v
XhcState.v
XhcTransfer.v
XhcPorts.v
XhcQuiet.v
XhcOwn.v
XhcDevice.v
XhcSound.v
XhcPoll.v
Pcie.v
XhcInit.v
XhcBoot.v
XhcWorld.v
XhcKernel.v
Xhci.v
SelfTest.v
Partition.v
Builder.v
Qemu.v
Fat.v
Syscall.v
Interrupt.v
Ahci.v
AhciDisk.v
Nvme.v
NvmeDisk.v
Rtl8139.v
Devfs.v
DevfsNames.v
RootFs.v
App.v
Rt.v
Ping.v
Netdump.v
Init.v
Upppd.v
Demo.v
Imgview.v
