(* ===== verification/Prelude.v ===== *)
(** * DoglinkOS-2nd: a verification library

    DoglinkOS-2nd is a small x86-64 kernel in Rust with its user programs.  This
    library models the parts of the kernel that carry its own logic as shallowly
    embedded Rocq functions and proves what makes each part correct.  It reads
    next to the sources: every modelled definition is preceded by a comment
    [@ file:first-last symbol], the lines it translates (paths relative to
    [kernel/src]); names are those of the source.

    ** The parts of the program and the files that model them

    Foundations
    - [Prelude]: outcomes ([Done]/[Panic]/[OutOfFuel]), Rust's [Result] and [?],
      the loop combinators, the state monad with early return, tactics, hint
      databases and list lemmas.
    - [Words]: unsigned and signed machine integers as [Z], with unchecked
      operators that panic on overflow, and the wrapping, checked and saturating
      families; little- and big-endian encodings.

    Memory
    - [Bitmap] ([mm/bitmap.rs]): one free bit and one reference count per page.
    - [PageAlloc] ([mm/page_alloc.rs]): construction of the allocator from the
      boot memory map, single and aligned contiguous allocation and release.
    - [Dma] ([mm/dma.rs]): DMA buffers through the direct map, MMIO mapping.
    - [Machine]: what a driver sees of the hardware - device registers and DMA
      memory - as an interface with its laws, which hold at register addresses and
      inside live buffers only; [Board]: an implementation of it by the page
      allocator, [Dma] and any hardware whatsoever.
    - [PageTable] ([task/process.rs]: [r_copy], [r_free] and callers): address
      spaces as a memory of frames, copy-on-write sharing, release.

    Tasks
    - [Process] (data of [task/process.rs] and [task/ipc/mod.rs]): contexts,
      processes, handles.  An [Arc] is an index into a store of shared objects,
      so aliasing is visible.
    - [Ipc] ([task/ipc/mod.rs]): channels, listeners, reference-counted handles
      and every IPC system call.
    - [Sched] ([task/sched.rs]): time slices, wake-ups, selection, the context
      switch and the timer interrupt.
    - [Lifecycle] ([task/process.rs], fault handlers of [mm/page_alloc.rs]):
      fork, exec, exit, demand paging and copy-on-write faults; it composes
      [PageTable], [Ipc] and [Sched] the way the source does.
    - [Syscall] ([task/syscall.rs]): the dispatch table and all its handlers.
    - [Interrupt] ([int.rs], [apic/io.rs], entry of [task/syscall.rs]): the stubs
      that save and restore the registers, the interrupt table, the routes of the
      I/O APIC.

    Files and disks
    - [Vfs] ([vfs/mod.rs]): the traits as type classes, [read_exact],
      [write_all], directory snapshots, the mount table.
    - [Procfs] ([vfs/procfs/filesystem.rs]): the process file system.
    - [Block] ([blockdev/ramdisk.rs] and the [fatfs] traits), [UsbBlock]
      ([blockdev/usb.rs]), [Partition] ([blockdev/partition/mod.rs]):
      byte-addressed devices over memory, USB sectors and GPT partitions.
    - [Ahci] ([blockdev/ahci/], [partition/ahci.rs]): registers, command structures,
      bring-up, commands and the byte device of an AHCI disk; [AhciDisk]: the laws of
      a port and what the driver achieves on it.
    - [Nvme] ([blockdev/nvme.rs], [partition/nvme.rs]): the allocator lent to the
      [nvme] crate, discovery, the byte device and the block interface; [NvmeDisk]:
      the laws of the heap and of a queue, and what reads achieve on them.
    - [Fat] ([vfs/fat.rs]): the adapter of the [fatfs] crate to the traits.
    - [Devfs] ([vfs/devfs/]): every device behind its name, over the state of all the
      drivers; [DevfsNames]: listing and opening agree.
    - [RootFs] ([vfs/mod.rs], [vfs/fat.rs], [task/process.rs]): the mount table at
      boot, the first process and its streams, the head of the task queue.

    USB
    - [Trb] ([xhci/trb.rs], [xhci/regs.rs]), [Ring] ([xhci/ring.rs]): transfer
      request blocks, register layout, producer and event rings.
    - [UsbDesc], [PortRec] ([xhci/usb.rs]): descriptor parsing; the root-port
      records with their generations, states and retry back-off.
    - [Msc] ([xhci/msc.rs]), [Bulk] ([xhci/bulk.rs]), [Hid] ([xhci/hid.rs]):
      the Bulk-Only Transport driver, bulk completions, boot keyboards and mice.
    - [Input] ([inputdev.rs]): the mouse events, and the sink the USB drivers see.

    Console
    - [Console] ([console/mod.rs], [console/serial.rs], [stdio.rs]): the terminal
      and its queues, the serial port, the standard streams.
    - [Ps2] ([inputdev.rs]): key codes and mouse events to the terminal, the PS/2
      mouse decoder and the bring-up of the controller; it implements the sink of
      [Input] for the USB drivers.
    - [Platform] ([sound/pcspk.rs], [power.rs], [rtc.rs], [apic/local.rs],
      [console/framebuffer.rs]): the speaker, power-off and reset, the update flag
      of the clock, the calibration of the local timer, pixels.
    - [Rtl8139] ([net/]): the network card and the poll of its receive ring.

    The xHCI controller ([xhci/controller.rs]) and PCIe ([pcie/enumrate.rs])
    - [XhcState], [XhcTransfer], [XhcPorts]: the controller object; events,
      commands, control and bulk transfers, device set-up; root ports, one poll and
      a block read.  [Pcie]: configuration space, capabilities, enumeration.
      [XhcInit]: BAR sizing, reset, construction, start, interrupts, the slots of
      the kernel and its entry points.
    - [XhcQuiet], [XhcOwn], [XhcDevice], [XhcSound], [XhcPoll], [XhcBoot],
      [XhcWorld], [XhcKernel]: how the invariant is kept, in layers - waiting for
      the hardware changes nothing but counters and records; who owns each DMA
      buffer; bringing up and releasing a device; the invariant between two polls;
      each branch of a poll; the boot; all controllers together.
    - [Xhci]: the theorems.
    - [SelfTest] ([self_test] of [xhci/] and its siblings, [inputdev.rs],
      [pcie/], [mm/]): the tests the kernel runs on itself at boot, over the models
      of the parts they test.

    The host
    - [Builder] ([builder/src/lib.rs], [build_img]): the FAT volumes and the GPT disk
      with the kernel and the programs.  [Qemu] ([builder/src/main.rs]): the options
      of the builder and the command line of the emulator.

    User programs
    - [App]: a program is a sequence of system calls answered by an environment that
      may be any function of the calls before - the kernel, the devices and the other
      processes; polling, line input, directory entries as programs read them.
    - [Rt] ([app-rt/src/lib.rs]): every wrapper's [asm!] block over the dispatcher of
      [Syscall], and the registers both sides agree on.
    - [Init], [Netdump], [Ping] ([apps/init]): the shell's commands, the packet dump,
      the ping responder.
    - [Upppd] ([apps/upppd]): the PPP service and its clients.
    - [Demo] ([apps/ipc-demo]), [Imgview] ([apps/imgview]): the channel
      demonstration and the image viewer.

    ** How the parts meet

    Interfaces are type classes: [Machine] (registers and DMA memory), [InputSink]
    (where reports go), [Ports] and [Terminal] (I/O ports, the terminal crate), [BotTransport] (what a controller promises the
    mass-storage driver), [UsbReader] and [ByteDevice] (a disk promises sectors
    to the byte layer, and bytes to the partition layer), [VfsFile],
    [VfsDirHandle] and [VfsDirectory] (the traits), [PageTableEntry],
    [Mapper] and [UserMapper] for the [x86_64] crate, [ElfParser]
    for [goblin], [BitField] for [bit_field], [Gpt] for [gpt_disk_io], [NvmeCrate]
    for [nvme] (with [Allocator] what the kernel gives it, [GlobalAlloc] the heap and
    [Translator] the page table), [FatCrate] for [fatfs], [Firmware] and [LocalApic]
    for [acpi], [aml] and [x2apic], [WidePorts] for ports of 16 and 32 bits, [FatVolume] and
    [GptWriter] for the crates of the builder, [IoApic] for the I/O APIC
    of [x2apic], [PPPoS]
    for [ppproto], [Decoders] for the [zune] decoders.  [Devfs] is an instance of
    [VfsFile] and [VfsDirectory] put together from the instances of the drivers.  Programs meet the kernel through
    the environment class [Env]; what they rely on ([KernelAnswers], [receives_fit])
    is what [Rt.kernel_recv_fits] and the handle limit of [Ipc] give.  Code that
    is not part of the repository appears only as such an interface; its laws
    are documented behaviour, and a concrete instance shows they can hold.

    ** What the theorems show

    - Memory: over any sequence of allocations and releases no page is handed out
      twice and every run held can be given back; the contiguous search is first fit and returns
      an aligned run of free pages; the boot construction marks exactly the
      usable pages; a DMA buffer or a fork followed by an exit restores the
      allocator; fork maps in the child what the parent maps through tables below
      4 GiB, removing the write permission from what they share; a write fault gives
      the writer a private copy, or panics when no page is free.
    - Tasks: handle reference counts are exact in every reachable IPC state;
      messages come out in the order they went in, each once; every runnable
      task runs within a bounded number of slices; a switch saves and restores
      the context it interrupts; a waiter wakes exactly when its PID dies; no
      system call raises the privilege of a process other than PID 0; the stubs give
      an interrupted program back every register, and the handler of a system call
      the registers the program set.
    - Files and disks: reads of a USB disk, of an AHCI disk, of an NVMe disk, of the
      RAM disk and of a partition are reads of the disk's image, confined to the
      device; every name a procfs directory or [/dev] lists can be opened, and in
      [/dev] it opens the device it was listed for when the devices work
      ([devices_work]: the laws of the AHCI ports and of the [nvme] crate); the tree mounted at boot reaches
      both through its mount table, and gives the first process its streams; what the
      NVMe driver leaves behind in the heap and among the pages when commands fail or
      buffers are large.
    - USB: the event ring refines a bounded queue, the producer ring keeps its
      TRBs in order with the right cycle; the descriptor parsers never panic and
      select exactly the endpoint the specification describes; a read of any length
      from a disk that decodes the bytes of its commands as the SCSI and mass-storage
      specifications do returns the sectors asked for; a command ends after a bounded number of
      transport calls whatever the device answers; a replugged device is never
      taken for the one before; keyboard make and break codes balance.
    - xHCI: in every state reached from the boot by polls, block reads,
      interrupts and arbitrary actions of the hardware, as long as the 64-bit counters
      last, the next entry point returns and every access stays inside a live
      buffer or the BAR; while all controllers are healthy, every live buffer has an
      owner and the registered disks are the attached ones (an unhealthy controller
      may have leaked buffers and lost disks).  Discovery returns and either adds one
      controller or gives everything back, for BARs in the direct map whose
      capability registers point inside them ([in_spec]: the driver adds the offsets
      it reads to its base unchecked); the walk over a capability list ends even when
      the list is cyclic, and the enumeration visits the functions that are there,
      each at its own addresses.
    - Console: what the terminal makes of a key code, and what it answers to the
      echo if its answers end, is what standard input reads;
      the PS/2 decoder never panics and the bring-up of its controller returns; a
      pixel of the screen is one word inside the frame buffer.
    - Network: one poll of the card prints exactly the frame at its index, acknowledges
      the status and moves on, or panics when the ring wraps short of sixteen bytes.
    - Programs: the runtime declares every register the kernel changes, but for four
      calls the theorem names; the PPP service runs forever, asks each client once a
      round, answers every request that is not empty and loses no handle; what
      it reports is what the shell prints; a ping is answered with valid checksums; the
      shell prints files and directories whole; the demonstration closes every handle it
      opens; the viewer draws inside the frame buffer.
    - Host: the disk the builder makes is one the kernel's partition layer opens, with
      exactly the files of the builder's lists on it, or the builder stops because a
      volume is full; the emulator's devices refer to what its command line defines.
    - Boot: the kernel heap is the first free run outside the allocator's tables;
      every self-test the kernel runs passes, for the models of the parts it
      tests.
    - Defects of the source that the model exposes are theorems too (the
      [_panics] theorems, [event_publish_stale_cycle_sticks],
      [replug_skips_removal], [bar0_rejects_32bit]).

    ** Fuel and bounds

    Recursion that is not structural carries fuel, and running out of fuel is
    the outcome [OutOfFuel], which no correctness statement accepts:
    - [close_handle_ref] recurses through the queue of a closed listener; a queue
      holds channel ends only, so two levels ([CLOSE_FUEL]) are enough and
      [ipc_refcounts_exact] includes that it returns;
    - descriptor iterators have as much fuel as bytes in the configuration, and
      every descriptor consumes at least two ([descriptor_parsers_total]);
    - [read_exact], [write_all], [getdents] and [read_sectors] have one unit per
      byte or entry left, and every round makes progress;
    - [decimal], [utf8_valid] and [chunks] have as much fuel as digits, bytes or
      elements.
    - the loops of the programs that wait for the environment take their fuel as an
      argument; the theorems say how much is enough ([ROUND_FUEL] for a round of the PPP
      service, one unit per entry or piece for listings and files), or hold for any.
    - the walk over a capability list visits each of the 48 possible offsets at
      most once ([CAP_FUEL]).
    The page-table walk is structural in the level of the table.  The bounded waits
    of the xHCI driver are loops of the source ([POLL_LIMIT] and its siblings), and
    the constants ending in [_EVENTS] bound the events one operation may take: they
    keep the 64-bit event counter, whose overflow would panic, from overflowing.

    ** What is not modelled

    Locks are not modelled: interrupts are disabled around the critical sections
    and the operations are atomic steps.  Parsing the ACPI tables and the CPU
    identification are calls of third-party crates with no logic of their own; the
    boot path ([kmain]) is the order in which the parts above are initialised.  Of the
    xHCI driver its logging and the dump of its state are left out, of the console the
    choice of the streams at boot, of the user runtime the formatting macros and the
    panic handler, of the builder its messages. *)

From stdpp Require Export base tactics option list numbers strings gmap.
From Stdlib Require Export ZArith Lia.

#[global] Open Scope Z_scope.

(** ** Outcomes

    A Rust expression either yields a value, panics (an out-of-range index, a
    failed [unwrap] or [assert!], an arithmetic overflow), or, in a model that
    carries fuel, runs out of fuel.  Running out of fuel is a value of its own
    so that no theorem can mistake it for a panic or a result. *)
Inductive outcome (A : Type) : Type :=
  | Done (a : A)
  | Panic
  | OutOfFuel.
Arguments Done {A} a.
Arguments Panic {A}.
Arguments OutOfFuel {A}.

(** [core::result::Result]. *)
Inductive result (T E : Type) : Type :=
  | Ok (t : T)
  | Err (e : E).
Arguments Ok {T E} t.
Arguments Err {T E} e.

#[global] Instance outcome_ret : MRet outcome := @Done.
#[global] Instance outcome_bind : MBind outcome := fun A B k m =>
  match m with
  | Done a => k a
  | Panic => Panic
  | OutOfFuel => OutOfFuel
  end.

(** Sequencing of an outcome that holds a [Result]: Rust's [?] operator. *)
Definition try_bind {A B E} (m : outcome (result A E))
    (k : A -> outcome (result B E)) : outcome (result B E) :=
  match m with
  | Done (Ok a) => k a
  | Done (Err e) => Done (Err e)
  | Panic => Panic
  | OutOfFuel => OutOfFuel
  end.

(** [Result::map_err] and [Option::ok_or]. *)
Definition map_err {T E F} (f : E -> F) (r : result T E) : result T F :=
  match r with Ok t => Ok t | Err e => Err (f e) end.
Definition ok_or {T E} (o : option T) (e : E) : result T E :=
  match o with Some t => Ok t | None => Err e end.
(** [Result::ok]. *)
Definition result_ok {T E} (r : result T E) : option T :=
  match r with Ok t => Some t | Err _ => None end.
Definition is_ok {T E} (r : result T E) : bool :=
  match r with Ok _ => true | Err _ => false end.
(** [Option::unwrap] / [Option::expect]: a panic on [None]. *)
Definition unwrap {T} (o : option T) : outcome T :=
  match o with Some t => Done t | None => Panic end.
(** [Result::unwrap] and [Result::unwrap_err]. *)
Definition unwrap_ok {T E} (r : result T E) : outcome T := match r with Ok t => Done t | Err _ => Panic end.
Definition unwrap_err {T E} (r : result T E) : outcome E := match r with Ok _ => Panic | Err e => Done e end.
#[global] Instance result_eq_dec {T E} `{EqDecision T, EqDecision E} : EqDecision (result T E).
Proof. solve_decision. Defined.
Definition unwrap_or {T} (d : T) (o : option T) : T :=
  match o with Some t => t | None => d end.

Declare Scope rust_scope.
Delimit Scope rust_scope with rust.
Notation "x '←?' e ; k" := (try_bind e (fun x => k))
  (at level 100, e at level 90, k at level 200, right associativity) : rust_scope.
Notation "'assert!' b ; k" := (if b then k else Panic)
  (at level 100, b at level 90, k at level 200, right associativity) : rust_scope.
#[global] Open Scope rust_scope.

(** An outcome that is a value: what "does not panic and terminates" means. *)
Definition returns {A} (m : outcome A) : Prop := exists a, m = Done a.
(** A safe outcome: it may be out of fuel but has not panicked. *)
Definition no_panic {A} (m : outcome A) : Prop := m <> Panic.

(** ** Record updates

    [r <| f := v |>] is [r] with its field [f] replaced, for a record whose
    [Fields] instance rebuilds it from its projections. *)
Class Fields (R : Type) := rebuild : R -> R.
Class Setter {R T : Type} (f : R -> T) := update : (T -> T) -> R -> R.
Arguments update {R T} f {_} _ _ /.
Ltac field_setter R f :=
  let r := eval red in (_ : Fields R) in
  lazymatch (eval pattern f in r) with
  | ?build _ =>
      let upd := eval cbv beta in (fun u => build (fun x => u (f x))) in
      exact upd
  end.
#[global] Hint Extern 0 (@Setter ?R ?T ?f) => field_setter R f : typeclass_instances.
Notation "r '<|' f ':=' v '|>'" := (update f (fun _ => v) r)
  (at level 1, left associativity, f at level 0, v at level 200, format "r <| f  :=  v |>") : rust_scope.

(** ** Programs

    Code that reads and writes a state [S] and may fail: a function from the
    state to a panic, or to the next state and a [Result]. *)
Definition prog (S E A : Type) : Type := S -> outcome (S * result A E).

Definition p_ret {S E A} (a : A) : prog S E A := fun s => Done (s, Ok a).
Definition p_err {S E A} (e : E) : prog S E A := fun s => Done (s, Err e).
Definition p_panic {S E A} : prog S E A := fun _ => Panic.
Definition p_get {S E} : prog S E S := fun s => Done (s, Ok s).
Definition p_put {S E} (s : S) : prog S E unit := fun _ => Done (s, Ok tt).
Definition p_modify {S E} (f : S -> S) : prog S E unit := fun s => Done (f s, Ok tt).
(** A computation without effects that may panic, and one that may fail. *)
Definition p_lift {S E A} (m : outcome A) : prog S E A := fun s => a ← m; Done (s, Ok a).
Definition p_result {S E A} (r : result A E) : prog S E A := fun s => Done (s, r).
Definition p_bind {S E A B} (m : prog S E A) (k : A -> prog S E B) : prog S E B :=
  fun s => '(s, r) ← m s; match r with Ok a => k a s | Err e => Done (s, Err e) end.
(** The result as a value: [match m { Ok(..) => .., Err(..) => .. }]. *)
Definition p_try {S E F A} (m : prog S E A) : prog S F (result A E) :=
  fun s => '(s, r) ← m s; Done (s, Ok r).
Notation "x '←!' e ; k" := (p_bind e (fun x => k))
  (at level 100, e at level 90, k at level 200, right associativity) : rust_scope.
Notation "' x '←!' e ; k" := (p_bind e (fun x => k))
  (at level 20, x pattern, e at level 100, k at level 200, only parsing) : rust_scope.
Notation "e ';!' k" := (p_bind e (fun _ => k))
  (at level 100, k at level 200, right associativity) : rust_scope.

Lemma p_bind_Ok {S E A B} (m : prog S E A) (k : A -> prog S E B) s s' a :
  m s = Done (s', Ok a) -> p_bind m k s = k a s'.
Proof. intros Hm. unfold p_bind. by rewrite Hm. Qed.
Lemma p_try_Done {S E F A} (m : prog S E A) s s' r : m s = Done (s', r) -> p_try (F := F) m s = Done (s', Ok r).
Proof. intros Hm. unfold p_try. by rewrite Hm. Qed.

(** A program that always comes back with a value or an error. *)
Definition total {S E A} (m : prog S E A) : Prop := forall s, returns (m s).

Create HintDb total.
Section Total.
Context {S E : Type}.

Lemma total_ret {A} (a : A) : total (p_ret (S := S) (E := E) a).
Proof. intros s. by eexists. Qed.
Lemma total_err {A} (e : E) : total (p_err (S := S) (A := A) e).
Proof. intros s. by eexists. Qed.
Lemma total_result {A} (r : result A E) : total (p_result (S := S) r).
Proof. intros s. by eexists. Qed.
Lemma total_get : total (p_get (S := S) (E := E)).
Proof. intros s. by eexists. Qed.
Lemma total_put s0 : total (p_put (S := S) (E := E) s0).
Proof. intros s. by eexists. Qed.
Lemma total_modify f : total (p_modify (S := S) (E := E) f).
Proof. intros s. by eexists. Qed.
Lemma total_bind {A B} (m : prog S E A) (k : A -> prog S E B) :
  total m -> (forall a, total (k a)) -> total (p_bind m k).
Proof.
  intros Hm Hk s. destruct (Hm s) as [[s' [a|e]] H]; unfold p_bind; rewrite H; cbn; [apply Hk|by eexists].
Qed.
Lemma total_try {F A} (m : prog S F A) : total m -> total (p_try (F := E) m).
Proof. intros Hm s. destruct (Hm s) as [[s' r] H]. unfold p_try. rewrite H. by eexists. Qed.
Lemma total_if {A} (b : bool) (m n : prog S E A) : total m -> total n -> total (if b then m else n).
Proof. by destruct b. Qed.
Lemma total_lift {A} (m : outcome A) : returns m -> total (p_lift (S := S) (E := E) m).
Proof. intros [a ->] s. by eexists. Qed.
End Total.
#[export] Hint Resolve total_ret total_err total_result total_get total_put total_modify
  total_bind total_try total_if total_lift : total.

(** ** Loops

    [for_range p body s] runs [body] at most [p] times, stopping at the first
    [inr].  The recursion follows the binary digits of [p], so the bounds of
    the drivers (100_000 and 100_000_000 polls) stay executable: the loop costs
    as many steps as it takes to stop. *)
Fixpoint for_range {S R} (p : positive) (body : S -> S + R) (s : S) : S + R :=
  match p with
  | xH => body s
  | xO q =>
      match for_range q body s with
      | inl s' => for_range q body s'
      | inr r => inr r
      end
  | xI q =>
      match body s with
      | inl s' =>
          match for_range q body s' with
          | inl s'' => for_range q body s''
          | inr r => inr r
          end
      | inr r => inr r
      end
  end.

Section ForRange.
Context {St R : Type} (body : St -> St + R).

(** The loop rule: an invariant kept by every iteration that continues, and
    a postcondition established by the iteration that stops. *)
Lemma for_range_ind (I : St -> Prop) (Q : R -> Prop) p s :
  (forall s, I s -> match body s with inl s' => I s' | inr r => Q r end) ->
  I s ->
  match for_range p body s with inl s' => I s' | inr r => Q r end.
Proof.
  intros Hstep. revert s.
  induction p as [q IH|q IH|]; intros s HI; simpl.
  - specialize (Hstep s HI). destruct (body s) as [s'|r]; [|exact Hstep].
    generalize (IH s' Hstep).
    destruct (for_range q body s') as [s''|r]; [apply IH|auto].
  - generalize (IH s HI).
    destruct (for_range q body s) as [s''|r]; [apply IH|auto].
  - by apply Hstep.
Qed.

(** The same loop counted in unary: what [for _ in 0..n] means. *)
Fixpoint nat_range (n : nat) (s : St) : St + R :=
  match n with
  | O => inl s
  | S n => match body s with inl s' => nat_range n s' | inr r => inr r end
  end.

Lemma nat_range_add n m s :
  nat_range (n + m) s =
    match nat_range n s with inl s' => nat_range m s' | inr r => inr r end.
Proof.
  revert s. induction n as [|n IH]; intros s; simpl; [done|].
  destruct (body s); [apply IH|done].
Qed.

Lemma for_range_nat p s : for_range p body s = nat_range (Pos.to_nat p) s.
Proof.
  revert s. induction p as [q IH|q IH|]; intros s; cbn [for_range].
  - rewrite Pos2Nat.inj_xI. simpl. destruct (body s) as [s'|r]; [|done].
    rewrite Nat.add_0_r, nat_range_add, IH.
    destruct (nat_range (Pos.to_nat q) s'); auto.
  - rewrite Pos2Nat.inj_xO. simpl. rewrite Nat.add_0_r, nat_range_add, IH.
    destruct (nat_range (Pos.to_nat q) s); auto.
  - simpl. by destruct (body s).
Qed.

(** A loop whose body never stops returns its final state. *)
Lemma for_range_never p s :
  (forall s, exists s', body s = inl s') -> exists s', for_range p body s = inl s'.
Proof.
  intros H. revert s. induction p as [q IH|q IH|]; intros s; simpl.
  - destruct (H s) as [s1 ->]. destruct (IH s1) as [s2 ->]. apply IH.
  - destruct (IH s) as [s2 ->]. apply IH.
  - apply H.
Qed.
End ForRange.

(** A counted loop over a program: [Some r] from the body leaves the loop with
    [r], and [after] is what follows the last iteration. *)
Definition p_for {S E R} (p : positive) (body : prog S E (option R)) (after : prog S E R) : prog S E R :=
  fun s =>
    match for_range p (fun s =>
        match body s with
        | Done (s', Ok None) => inl s'
        | Done (s', Ok (Some r)) => inr (Done (s', Ok r))
        | Done (s', Err e) => inr (Done (s', Err e))
        | Panic => inr Panic
        | OutOfFuel => inr OutOfFuel
        end) s with
    | inl s' => after s'
    | inr r => r
    end.

Lemma total_for {S E R} p (body : prog S E (option R)) after :
  total body -> total after -> total (p_for p body after).
Proof.
  intros Hb Ha s. unfold p_for.
  match goal with |- context [for_range p ?f s] =>
    pose proof (for_range_ind f (fun _ => True) returns p s) as Hr end.
  match type of Hr with ?P -> _ => assert P as Hp end.
  { intros s0 _. destruct (Hb s0) as [[s' [[r|]|e]] ->]; [by eexists|done|by eexists]. }
  specialize (Hr Hp I). destruct (for_range p _ s); [apply Ha|done].
Qed.
#[export] Hint Resolve total_for : total.

(** The same loop with its index: [for i in 0..p]. *)
Definition with_index {S E R} (body : Z -> prog S E (option R)) : prog (Z * S) E (option R) :=
  fun '(i, s) => '(s', r) ← body i s; Done ((i + 1, s'), r).
Definition p_for_ix {S E R} (p : positive) (body : Z -> prog S E (option R)) (after : prog S E R) : prog S E R :=
  fun s =>
    '(st, r) ← p_for p (with_index body) (fun '(i, s) => '(s', r) ← after s; Done ((i, s'), r)) (0, s);
    Done (snd st, r).

(** [for x in l { body }] where only an error leaves the loop. *)
Fixpoint p_each {S E A} (l : list A) (body : A -> prog S E unit) : prog S E unit :=
  match l with
  | [] => p_ret tt
  | x :: l => body x ;! p_each l body
  end.
Definition p_when {S E} (b : bool) (m : prog S E unit) : prog S E unit := if b then m else p_ret tt.

(** ** Weakest preconditions

    [wp m s Q]: from [s] the program comes back, without a panic, in a state and
    with a result that satisfy [Q]. *)
Definition wp {S E A} (m : prog S E A) (s : S) (Q : S -> result A E -> Prop) : Prop :=
  exists s' r, m s = Done (s', r) /\ Q s' r.

Section Wp.
Context {St E : Type}.
Implicit Types (s : St).

Lemma wp_ret {A} (a : A) s (Q : St -> result A E -> Prop) : Q s (Ok a) -> wp (p_ret a) s Q.
Proof. intros HQ. by exists s, (Ok a). Qed.
Lemma wp_err {A} (e : E) s (Q : St -> result A E -> Prop) : Q s (Err e) -> wp (p_err e) s Q.
Proof. intros HQ. by exists s, (Err e). Qed.
Lemma wp_result {A} (r : result A E) s (Q : St -> result A E -> Prop) : Q s r -> wp (p_result r) s Q.
Proof. intros HQ. by exists s, r. Qed.
Lemma wp_get s (Q : St -> result St E -> Prop) : Q s (Ok s) -> wp p_get s Q.
Proof. intros HQ. by exists s, (Ok s). Qed.
Lemma wp_put s0 s (Q : St -> result unit E -> Prop) : Q s0 (Ok tt) -> wp (p_put s0) s Q.
Proof. intros HQ. by exists s0, (Ok tt). Qed.
Lemma wp_modify f s (Q : St -> result unit E -> Prop) : Q (f s) (Ok tt) -> wp (p_modify f) s Q.
Proof. intros HQ. by exists (f s), (Ok tt). Qed.
Lemma wp_lift {A} (m : outcome A) a s (Q : St -> result A E -> Prop) :
  m = Done a -> Q s (Ok a) -> wp (p_lift m) s Q.
Proof. intros Hm HQ. exists s, (Ok a). unfold p_lift. by rewrite Hm. Qed.

Lemma wp_mono {A} (m : prog St E A) s (P Q : St -> result A E -> Prop) :
  wp m s P -> (forall s' r, P s' r -> Q s' r) -> wp m s Q.
Proof. intros (s' & r & Hm & HP) HPQ. exists s', r. auto. Qed.

Lemma wp_bind {A B} (m : prog St E A) (k : A -> prog St E B) s Q :
  wp m s (fun s' r => match r with Ok a => wp (k a) s' Q | Err e => Q s' (Err e) end) ->
  wp (p_bind m k) s Q.
Proof.
  intros (s' & r & Hm & Hk). unfold wp, p_bind. rewrite Hm. cbn.
  destruct r as [a|e]; [exact Hk|]. by exists s', (Err e).
Qed.

Lemma wp_try {F A} (m : prog St F A) s (Q : St -> result (result A F) E -> Prop) :
  wp m s (fun s' r => Q s' (Ok r)) -> wp (p_try m) s Q.
Proof. intros (s' & r & Hm & HQ). exists s', (Ok r). unfold p_try. by rewrite Hm. Qed.

Lemma wp_each {A} (l : list A) (body : A -> prog St E unit) (I : list A -> St -> Prop) s (Q : St -> result unit E -> Prop) :
  I l s ->
  (forall x l s, I (x :: l) s -> wp (body x) s (fun s' r => match r with Ok _ => I l s' | Err e => Q s' (Err e) end)) ->
  (forall s, I [] s -> Q s (Ok tt)) ->
  wp (p_each l body) s Q.
Proof.
  intros HI HS HQ. revert s HI. induction l as [|x l IH]; intros s HI; cbn [p_each].
  - apply wp_ret. auto.
  - apply wp_bind. eapply wp_mono; [by apply HS|]. intros s' [[]|e]; auto.
Qed.

(** The counted loop: [I n] holds after [n] iterations that continued. *)
Lemma wp_for {A} p (body : prog St E (option A)) after (I : nat -> St -> Prop) s Q :
  I 0%nat s ->
  (forall n s, (n < Pos.to_nat p)%nat -> I n s ->
    wp body s (fun s' r => match r with
      | Ok None => I (S n) s' | Ok (Some a) => Q s' (Ok a) | Err e => Q s' (Err e) end)) ->
  (forall s, I (Pos.to_nat p) s -> wp after s Q) ->
  wp (p_for p body after) s Q.
Proof.
  intros H0 HS HA. unfold wp, p_for. rewrite for_range_nat.
  match goal with |- context [nat_range ?g _ _] => set (f := g) end.
  assert (forall n k s, (k + n = Pos.to_nat p)%nat -> I k s ->
    match nat_range f n s with
    | inl s' => I (Pos.to_nat p) s'
    | inr r => exists s' r', r = Done (s', r') /\ Q s' r'
    end) as Hloop.
  { intros n. induction n as [|n IH]; intros k s0 Hk HI; cbn [nat_range].
    - by replace (Pos.to_nat p) with k by lia.
    - destruct (HS k s0) as (s1 & r & Hb & Hr); [lia|done|]. unfold f at 1. rewrite Hb.
      destruct r as [[a|]|e]; [by exists s1, (Ok a)| |by exists s1, (Err e)].
      apply (IH (S k)); [lia|done]. }
  specialize (Hloop (Pos.to_nat p) 0%nat s eq_refl H0).
  destruct (nat_range f (Pos.to_nat p) s); [by apply HA|exact Hloop].
Qed.

Lemma wp_when (b : bool) (m : prog St E unit) s (Q : St -> result unit E -> Prop) :
  (b = true -> wp m s Q) -> (b = false -> Q s (Ok tt)) -> wp (p_when b m) s Q.
Proof. destruct b; intros H1 H2; [auto|apply wp_ret; auto]. Qed.
End Wp.

Lemma wp_for_ix {St E A} p (body : Z -> prog St E (option A)) after (I : nat -> St -> Prop) (s : St) (Q : St -> result A E -> Prop) :
  I 0%nat s ->
  (forall n s, (n < Pos.to_nat p)%nat -> I n s ->
    wp (body (Z.of_nat n)) s (fun s' r => match r with
      | Ok None => I (S n) s' | Ok (Some a) => Q s' (Ok a) | Err e => Q s' (Err e) end)) ->
  (forall s, I (Pos.to_nat p) s -> wp after s Q) ->
  wp (p_for_ix p body after) s Q.
Proof.
  intros H0 HS HA.
  destruct (wp_for p (with_index body) (fun '(i, s) => '(s', r) ← after s; Done ((i, s'), r))
    (fun n st => st.1 = Z.of_nat n /\ I n st.2) (0, s) (fun st r => Q st.2 r)) as ([i s'] & r & He & HQ).
  - done.
  - intros n [i s0] Hn [Hi HI]. cbn in Hi, HI. subst i. destruct (HS n s0 Hn HI) as (s1 & r & Hb & Hr).
    exists (Z.of_nat n + 1, s1), r. unfold with_index. cbn [fst]. rewrite Hb. split; [done|].
    destruct r as [[a|]|e]; cbn; [done| |done]. split; [lia|done].
  - intros [i s0] [_ HI]. destruct (HA s0 HI) as (s1 & r & Hb & Hr).
    exists (i, s1), r. by rewrite Hb.
  - exists s', r. unfold p_for_ix. by rewrite He.
Qed.

(** One symbolic step at the head of a program; primitive operations are solved by
    the lemmas of the hint database [wp]. *)
Create HintDb wp.
Ltac wp_pure :=
  match goal with
  | |- wp (p_bind _ _) _ _ => apply wp_bind
  | |- wp (p_ret _) _ _ => apply wp_ret
  | |- wp (p_err _) _ _ => apply wp_err
  | |- wp (p_result _) _ _ => apply wp_result
  | |- wp p_get _ _ => apply wp_get
  | |- wp (p_put _) _ _ => apply wp_put
  | |- wp (p_modify _) _ _ => apply wp_modify
  | |- wp (p_try _) _ _ => apply wp_try
  | |- wp (p_when _ _) _ _ => apply wp_when; intros ?
  end.

(** ** Lists as Rust slices, indexed by [usize] values kept as [Z] *)

Definition llen {A} (l : list A) : Z := Z.of_nat (length l).

(** [l[i]]: panics out of range. *)
Definition idx {A} (l : list A) (i : Z) : outcome A :=
  if bool_decide (0 <= i) then unwrap (l !! Z.to_nat i) else Panic.

(** [l.get(i)]. *)
Definition zget {A} (l : list A) (i : Z) : option A :=
  if bool_decide (0 <= i) then l !! Z.to_nat i else None.

(** [l[i] = x]: panics out of range. *)
Definition set_idx {A} (l : list A) (i : Z) (x : A) : outcome (list A) :=
  if bool_decide (0 <= i < llen l) then Done (<[Z.to_nat i := x]> l) else Panic.

(** [&l[a..b]]: panics unless [a <= b <= l.len()]. *)
Definition slice {A} (l : list A) (a b : Z) : outcome (list A) :=
  if bool_decide (0 <= a /\ a <= b /\ b <= llen l)
  then Done (take (Z.to_nat (b - a)) (drop (Z.to_nat a) l)) else Panic.

(** The effect of [l[a..a + src.len()].copy_from_slice(src)]. *)
Definition splice {A} (l : list A) (a : Z) (src : list A) : outcome (list A) :=
  if bool_decide (0 <= a /\ a + llen src <= llen l)
  then Done (take (Z.to_nat a) l ++ src ++ drop (Z.to_nat a + length src) l)
  else Panic.

Section Slices.
Context {A : Type}.
Implicit Types (l : list A) (i a b : Z).

Lemma llen_nonneg l : 0 <= llen l.
Proof. unfold llen. lia. Qed.

Lemma llen_app l k : llen (l ++ k) = llen l + llen k.
Proof. unfold llen. rewrite length_app. lia. Qed.

Lemma llen_cons x l : llen (x :: l) = 1 + llen l.
Proof. unfold llen. simpl. lia. Qed.

Lemma llen_insert l k x : llen (<[k := x]> l) = llen l.
Proof. unfold llen. by rewrite length_insert. Qed.

Lemma llen_replicate n (x : A) : llen (replicate n x) = Z.of_nat n.
Proof. unfold llen. by rewrite length_replicate. Qed.

Lemma idx_in_range l i : 0 <= i < llen l -> exists x, idx l i = Done x /\ l !! Z.to_nat i = Some x.
Proof.
  intros H. unfold idx, llen in *. rewrite bool_decide_true by lia.
  destruct (lookup_lt_is_Some_2 l (Z.to_nat i)) as [x Hx]; [lia|].
  exists x. by rewrite Hx.
Qed.

Lemma idx_Done l i x : idx l i = Done x <-> 0 <= i /\ l !! Z.to_nat i = Some x.
Proof.
  unfold idx. case_bool_decide as Hi; [|naive_solver].
  destruct (l !! Z.to_nat i); simpl; naive_solver.
Qed.

Lemma idx_range l i x : idx l i = Done x -> 0 <= i < llen l.
Proof.
  intros [Hi Hl]%idx_Done. apply lookup_lt_Some in Hl. unfold llen. lia.
Qed.

Lemma slice_in_range l a b :
  0 <= a -> a <= b -> b <= llen l ->
  slice l a b = Done (take (Z.to_nat (b - a)) (drop (Z.to_nat a) l)).
Proof. intros. unfold slice. case_bool_decide; [done|lia]. Qed.

Lemma slice_len l a b s : slice l a b = Done s -> llen s = b - a /\ 0 <= a /\ b <= llen l.
Proof.
  unfold slice. case_bool_decide as H; [|done]. intros [= <-].
  unfold llen in *. rewrite length_take, length_drop. lia.
Qed.

Lemma set_idx_in_range l i x :
  0 <= i < llen l -> set_idx l i x = Done (<[Z.to_nat i := x]> l).
Proof. intros. unfold set_idx. case_bool_decide; [done|lia]. Qed.

Lemma splice_in_range l a src :
  0 <= a -> a + llen src <= llen l ->
  splice l a src = Done (take (Z.to_nat a) l ++ src ++ drop (Z.to_nat a + length src) l).
Proof. intros. unfold splice. case_bool_decide; [done|lia]. Qed.

Lemma splice_len l a src l' : splice l a src = Done l' -> llen l' = llen l.
Proof.
  unfold splice. case_bool_decide as H; [|done]. intros [= <-].
  unfold llen in *. rewrite !length_app, length_take, length_drop. lia.
Qed.

(** A list given by its parts. *)
Lemma idx_at l x k n : n = llen l -> idx (l ++ x :: k) n = Done x.
Proof. intros ->. apply idx_Done. unfold llen. rewrite Nat2Z.id. split; [lia|by apply list_lookup_middle]. Qed.

Lemma slice_at l m k a b : a = llen l -> b = llen l + llen m -> slice (l ++ m ++ k) a b = Done m.
Proof.
  intros -> ->. pose proof (llen_nonneg m). pose proof (llen_nonneg k). rewrite slice_in_range by (rewrite ?llen_app; unfold llen in *; lia).
  rewrite drop_app_length' by (unfold llen; lia). rewrite take_app_length' by (unfold llen; lia). done.
Qed.

Lemma splice_at l m m' k a : a = llen l -> llen m' = llen m -> splice (l ++ m ++ k) a m' = Done (l ++ m' ++ k).
Proof.
  intros -> Hm. pose proof (llen_nonneg l). pose proof (llen_nonneg k). rewrite splice_in_range by (rewrite ?llen_app; lia).
  unfold llen in *. rewrite take_app_length' by lia. rewrite (app_assoc l m k). rewrite drop_app_length' by (rewrite length_app; lia). done.
Qed.

Lemma set_idx_at l x y k n : n = llen l -> set_idx (l ++ x :: k) n y = Done (l ++ y :: k).
Proof.
  intros ->. rewrite set_idx_in_range by (rewrite llen_app, llen_cons; unfold llen; lia).
  unfold llen. rewrite Nat2Z.id, insert_app_r_alt by lia. by rewrite Nat.sub_diag.
Qed.
End Slices.

Create Rewrite HintDb slices.
Create HintDb slices.
#[export] Hint Rewrite @llen_app @llen_cons @llen_insert @llen_replicate : slices.
#[export] Hint Resolve llen_nonneg : slices.

(** [Vec::swap_remove(i)]: the last element takes the place of the removed one. *)
Definition swap_remove {A} (l : list A) (i : nat) : list A :=
  match last l with
  | Some x => take (length l - 1) (<[i := x]> l)
  | None => []
  end.

Lemma swap_remove_perm {A} (l : list A) i x : l !! i = Some x -> x :: swap_remove l i ≡ₚ l.
Proof.
  intros Hi. unfold swap_remove. destruct l as [|y l _] using rev_ind; [done|].
  rewrite last_snoc, length_app. cbn [length]. rewrite Nat.add_sub.
  destruct (decide (i < length l)%nat) as [Hlt|Hge].
  - rewrite lookup_app_l in Hi by done. rewrite insert_app_l by done.
    rewrite take_app_length' by (by rewrite length_insert).
    rewrite insert_take_drop by done. rewrite <- (take_drop_middle l i x Hi) at 3.
    rewrite <- Permutation_middle, <- app_assoc. cbn [app]. rewrite <- Permutation_middle.
    apply Permutation_skip. rewrite app_assoc. apply Permutation_cons_append.
  - pose proof (lookup_lt_Some _ _ _ Hi) as Hl. rewrite length_app in Hl. cbn in Hl.
    assert (i = length l) as -> by lia. rewrite list_lookup_middle in Hi by done. injection Hi as ->.
    replace (<[length l := x]> (l ++ [x])) with (l ++ [x])
      by (rewrite insert_app_r_alt by lia; by rewrite Nat.sub_diag).
    rewrite take_app_length. by rewrite Permutation_cons_append.
Qed.

(** [iter().position(Option::is_none)]: the first free slot of a table, and all
    free slots in order. *)
Fixpoint none_positions {A} (l : list (option A)) (i : nat) : list nat :=
  match l with
  | [] => []
  | None :: l => i :: none_positions l (S i)
  | Some _ :: l => none_positions l (S i)
  end.

Lemma none_positions_lookup {A} (l : list (option A)) i k :
  k ∈ none_positions l i -> (i <= k)%nat /\ l !! (k - i)%nat = Some None.
Proof.
  revert i. induction l as [|[x|] l IH]; intros i; cbn [none_positions].
  - intros Hk. by apply elem_of_nil in Hk.
  - intros [Hi Hl]%IH. split; [lia|]. by replace (k - i)%nat with (S (k - S i)) by lia.
  - intros [->|[Hi Hl]%IH]%elem_of_cons; [by rewrite Nat.sub_diag|].
    split; [lia|]. by replace (k - i)%nat with (S (k - S i)) by lia.
Qed.

Lemma none_positions_NoDup {A} (l : list (option A)) i : NoDup (none_positions l i).
Proof.
  revert i. induction l as [|[x|] l IH]; intros i; cbn [none_positions]; [constructor|apply IH|].
  constructor; [|apply IH]. intros [Hi _]%none_positions_lookup. lia.
Qed.

(** A [for] loop without early exit over a list of values. *)
Fixpoint fold_outcome {A B} (f : B -> A -> outcome B) (l : list A) (b : B) : outcome B :=
  match l with
  | [] => Done b
  | x :: l => b ← f b x; fold_outcome f l b
  end.

(** The loop rule: an invariant over the elements done so far. *)
Lemma fold_outcome_ind {A B} (f : B -> A -> outcome B) (P : list A -> B -> Prop) l b :
  P [] b ->
  (forall done x b, (exists todo, l = done ++ x :: todo) -> P done b -> exists b', f b x = Done b' /\ P (done ++ [x]) b') ->
  exists b', fold_outcome f l b = Done b' /\ P l b'.
Proof.
  intros H0 HS.
  assert (forall todo done b, l = done ++ todo -> P done b ->
    exists b', fold_outcome f todo b = Done b' /\ P l b') as Hgen; [|by eapply (Hgen l [])].
  intros todo. induction todo as [|x todo IH]; intros dn b0 Hl HP; cbn [fold_outcome].
  - rewrite app_nil_r in Hl. subst. by eexists.
  - destruct (HS dn x b0) as (b1 & -> & HP1); [by eexists|done|]. cbn.
    apply (IH (dn ++ [x])); [|done]. by rewrite <- app_assoc.
Qed.

Lemma fold_outcome_app {A B} (f : B -> A -> outcome B) l1 l2 b :
  fold_outcome f (l1 ++ l2) b = (b' ← fold_outcome f l1 b; fold_outcome f l2 b').
Proof. revert b. induction l1 as [|x l1 IH]; intros b; cbn; [done|]. destruct (f b x); cbn; [apply IH|done|done]. Qed.

(** The invariant of a loop that is known to have come to its end. *)
Lemma fold_outcome_inv {A B} (f : B -> A -> outcome B) (P : list A -> B -> Prop) l b b' :
  fold_outcome f l b = Done b' ->
  P [] b ->
  (forall done x b b', (exists todo, l = done ++ x :: todo) -> P done b -> f b x = Done b' -> P (done ++ [x]) b') ->
  P l b'.
Proof.
  intros Hf H0 HS.
  assert (forall todo done b, l = done ++ todo -> P done b -> fold_outcome f todo b = Done b' -> P l b') as Hgen;
    [|by eapply (Hgen l [])].
  intros todo. clear Hf H0. induction todo as [|x todo IH]; intros dn b0 Hl HP Hf; cbn [fold_outcome] in Hf.
  - rewrite app_nil_r in Hl. subst. by injection Hf as <-.
  - destruct (f b0 x) as [b1| |] eqn:E; cbn in Hf; [|done|done].
    eapply (IH (dn ++ [x])); [by rewrite <- app_assoc| |exact Hf]. eapply HS; [by eexists|exact HP|exact E].
Qed.

Lemma Forall2_flat_map {A B C} (R : B -> C -> Prop) (f : A -> list B) (g : A -> list C) l :
  (forall x, x ∈ l -> Forall2 R (f x) (g x)) -> Forall2 R (flat_map f l) (flat_map g l).
Proof.
  induction l as [|x l IH]; intros Hl; cbn [flat_map]; [constructor|].
  apply Forall2_app; [apply Hl; left|]. apply IH. intros y Hy. apply Hl. by right.
Qed.

(** [l.chunks(n)]: pieces of [n] elements, the last one shorter. *)
Fixpoint chunks_fuel {A} (fuel n : nat) (l : list A) : list (list A) :=
  match fuel, l with
  | O, _ | _, [] => []
  | S fuel, _ => take n l :: chunks_fuel fuel n (drop n l)
  end.
Definition chunks {A} (n : nat) (l : list A) : list (list A) := chunks_fuel (length l) n l.

Section Chunks.
Context {A : Type} (n : nat).
Implicit Types (l : list A).

Lemma chunks_fuel_irrel f g l :
  (0 < n)%nat -> (length l <= f)%nat -> (length l <= g)%nat -> chunks_fuel f n l = chunks_fuel g n l.
Proof.
  intros Hn. revert g l. induction f as [|f IH]; intros g l Hf Hg.
  - destruct l; [by destruct g|simpl in Hf; lia].
  - destruct l as [|x l]; [by destruct g|]. destruct g as [|g]; [simpl in Hg; lia|].
    cbn [chunks_fuel]. f_equal. apply IH; rewrite length_drop; simpl length in *; lia.
Qed.

Lemma chunks_nil : chunks n (@nil A) = [].
Proof. done. Qed.

Lemma chunks_unfold l :
  (0 < n)%nat -> l <> [] -> chunks n l = take n l :: chunks n (drop n l).
Proof.
  intros Hn Hl. destruct l as [|x l]; [done|]. unfold chunks at 1. cbn [length chunks_fuel].
  f_equal. apply chunks_fuel_irrel; [done| |done]. rewrite length_drop. simpl length. lia.
Qed.

(** Induction over the pieces. *)
Lemma chunks_ind (P : list A -> Prop) :
  (0 < n)%nat -> P [] -> (forall l, l <> [] -> P (drop n l) -> P l) -> forall l, P l.
Proof.
  intros Hn H0 HS l. remember (length l) as k eqn:Hk. revert l Hk.
  induction k as [k IH] using lt_wf_ind. intros l ->. destruct l as [|x l]; [done|].
  apply HS; [done|]. eapply IH; [|reflexivity]. rewrite length_drop. simpl length. lia.
Qed.

Lemma concat_chunks l : (0 < n)%nat -> concat (chunks n l) = l.
Proof.
  intros Hn. revert l. apply chunks_ind; [done|done|]. intros l Hl IH.
  rewrite chunks_unfold by done. simpl. by rewrite IH, take_drop.
Qed.

Lemma chunks_count l k : (0 < n)%nat -> length l = (k * n)%nat -> length (chunks n l) = k.
Proof.
  intros Hn. revert l. induction k as [|k IH]; intros l Hl; [by destruct l|].
  rewrite chunks_unfold; [|done|by intros ->; cbn in Hl; lia]. cbn [length]. f_equal.
  apply IH. rewrite length_drop, Hl. cbn. lia.
Qed.
End Chunks.

(** ** Permutations by counting *)

Section Count.
Context {A : Type} `{EqDecision A}.
Implicit Types (x y : A) (l k : list A).
Definition occ x l : nat := count_occ (fun a b => decide (a = b)) l x.
Definition occ1 x y : nat := if decide (y = x) then 1%nat else 0%nat.
Lemma occ_nil x : occ x [] = 0%nat.
Proof. done. Qed.
Lemma occ_cons x y l : occ x (y :: l) = (occ1 x y + occ x l)%nat.
Proof. unfold occ, occ1. cbn [count_occ]. by destruct (decide (y = x)). Qed.
Lemma occ_app x l k : occ x (l ++ k) = (occ x l + occ x k)%nat.
Proof. apply count_occ_app. Qed.
Lemma occ_perm l k : l ≡ₚ k <-> forall x, occ x l = occ x k.
Proof. apply (Permutation_count_occ (fun a b => decide (a = b))). Qed.
End Count.

(** Permutations that follow from permutations by rearranging. *)
Ltac perms :=
  repeat match goal with H : _ ≡ₚ _ |- _ => rewrite occ_perm in H end;
  rewrite occ_perm; let x := fresh "x" in intros x;
  repeat match goal with H : forall y, occ y _ = occ y _ |- _ => specialize (H x) end;
  rewrite ?occ_app, ?occ_cons, ?occ_nil in *; cbn [app] in *;
  rewrite ?occ_app, ?occ_cons, ?occ_nil in *; lia.

(** ** Automation *)

(** Case analysis on the binds of a computation in a hypothesis or the goal. *)
Ltac outcome_step :=
  match goal with
  | H : mbind _ ?m = _ |- _ =>
      let E := fresh "E" in destruct m eqn:E; simpl in H; try discriminate H
  | H : try_bind ?m _ = _ |- _ =>
      let E := fresh "E" in
      destruct m as [[?|?]| |] eqn:E; simpl in H; try discriminate H
  end.

(** Turn the boolean tests of the code into propositions. *)
Ltac reflect_bools :=
  repeat match goal with
  | H : bool_decide _ = true |- _ => apply bool_decide_eq_true_1 in H
  | H : bool_decide _ = false |- _ => apply bool_decide_eq_false_1 in H
  | H : andb _ _ = true |- _ => apply andb_true_iff in H as [? ?]
  | H : orb _ _ = false |- _ => apply orb_false_iff in H as [? ?]
  | H : negb _ = true |- _ => apply negb_true_iff in H
  | H : negb _ = false |- _ => apply negb_false_iff in H
  | H : (_ =? _) = true |- _ => apply Z.eqb_eq in H
  | H : (_ =? _) = false |- _ => apply Z.eqb_neq in H
  | H : (_ <? _) = true |- _ => apply Z.ltb_lt in H
  | H : (_ <? _) = false |- _ => apply Z.ltb_ge in H
  | H : (_ <=? _) = true |- _ => apply Z.leb_le in H
  | H : (_ <=? _) = false |- _ => apply Z.leb_gt in H
  end.
