(* ===== verification/Words.v ===== *)
(** * Machine integers and byte encodings

    A [uN] value is a [Z] with its range as a hypothesis ([fits N z]); a signed
    [isize]/[i64] is a [Z] in the signed range.  Casts, wrapping, checked and
    saturating operations are written out.  The unchecked [+], [-] and [*] of
    Rust panic on overflow when the kernel is built with overflow checks and
    wrap otherwise; [add_ovf] and friends panic, and the theorems that show the
    absence of a panic therefore hold for both builds. *)

From S2P Require Import Prelude.

Definition fits (w z : Z) : Prop := 0 <= z < 2 ^ w.
#[global] Instance fits_dec w z : Decision (fits w z).
Proof. unfold fits. apply _. Defined.

(** [z as uN]. *)
Definition wrap (w z : Z) : Z := z mod 2 ^ w.
(** [z as iN] from the unsigned [N]-bit pattern. *)
Definition sext (w z : Z) : Z := if z mod 2 ^ w <? 2 ^ (w - 1) then z mod 2 ^ w else z mod 2 ^ w - 2 ^ w.

Definition U8_MAX : Z := 255.
Definition U16_MAX : Z := 65535.
Definition U32_MAX : Z := 4294967295.
Definition U64_MAX : Z := 18446744073709551615.
Definition I64_MAX : Z := 9223372036854775807.
Definition I64_MIN : Z := -9223372036854775808.

Definition checked_add (w a b : Z) : option Z := if a + b <? 2 ^ w then Some (a + b) else None.
Definition checked_mul (w a b : Z) : option Z := if a * b <? 2 ^ w then Some (a * b) else None.
Definition wrapping_add (w a b : Z) : Z := wrap w (a + b).
Definition saturating_add (w a b : Z) : Z := Z.min (a + b) (2 ^ w - 1).
Definition saturating_sub (a b : Z) : Z := Z.max (a - b) 0.
Definition saturating_mul (w a b : Z) : Z := Z.min (a * b) (2 ^ w - 1).
(** [usize::saturating_add_signed]. *)
Definition saturating_add_signed (w a b : Z) : Z := Z.max 0 (Z.min (a + b) (2 ^ w - 1)).
(** [i64::saturating_add]. *)
Definition i64_saturating_add (a b : Z) : Z := Z.max I64_MIN (Z.min (a + b) I64_MAX).

(** The unchecked operators of Rust. *)
Definition add_ovf (w a b : Z) : outcome Z := if a + b <? 2 ^ w then Done (a + b) else Panic.
Definition sub_ovf (a b : Z) : outcome Z := if b <=? a then Done (a - b) else Panic.
(** Signed 64-bit addition. *)
Definition i64_add (a b : Z) : outcome Z :=
  if (I64_MIN <=? a + b) && (a + b <=? I64_MAX) then Done (a + b) else Panic.
Definition mul_ovf (w a b : Z) : outcome Z := if a * b <? 2 ^ w then Done (a * b) else Panic.

Definition b2z (b : bool) : Z := if b then 1 else 0.

(** [x & !m] on [w]-bit words. *)
Definition clear_bits (x m : Z) : Z := Z.ldiff x m.

(** [usize::is_power_of_two], [is_multiple_of], [div_ceil]. *)
Definition is_power_of_two (z : Z) : bool := (0 <? z) && (Z.land z (z - 1) =? 0).
Definition is_multiple_of (a b : Z) : bool := if b =? 0 then a =? 0 else a mod b =? 0.
Definition div_ceil (a b : Z) : Z := (a + b - 1) / b.

Section Bits.
Lemma fits_wrap w z : 0 <= w -> fits w (wrap w z).
Proof. intros. apply Z.mod_pos_bound, Z.pow_pos_nonneg; lia. Qed.

Lemma wrap_small w z : fits w z -> wrap w z = z.
Proof. apply Z.mod_small. Qed.

Lemma fits_testbit_high w z i : fits w z -> 0 <= w <= i -> Z.testbit z i = false.
Proof.
  intros [H1 H2] Hi. destruct (Z.eq_dec z 0) as [->|]; [apply Z.testbit_0_l|].
  apply Z.bits_above_log2; [done|]. apply Z.log2_lt_pow2; [lia|].
  eapply Z.lt_le_trans; [exact H2|]. apply Z.pow_le_mono_r; lia.
Qed.

Lemma fits_of_bits w z :
  0 <= w -> 0 <= z -> (forall i, w <= i -> Z.testbit z i = false) -> fits w z.
Proof.
  intros Hw Hz Hb. split; [done|].
  destruct (Z.eq_dec z 0) as [->|]; [lia|].
  destruct (Z.lt_ge_cases (Z.log2 z) w) as [H|H].
  - apply Z.log2_lt_pow2; lia.
  - specialize (Hb (Z.log2 z) H). rewrite Z.bit_log2 in Hb by lia. done.
Qed.

Lemma fits_lor w a b : 0 <= w -> fits w a -> fits w b -> fits w (Z.lor a b).
Proof.
  intros Hw Ha Hb. apply fits_of_bits; [done| |].
  - apply Z.lor_nonneg. unfold fits in *. lia.
  - intros i Hi. rewrite Z.lor_spec, (fits_testbit_high w a), (fits_testbit_high w b); auto; lia.
Qed.

Lemma fits_land_l w a b : 0 <= w -> 0 <= b -> fits w a -> fits w (Z.land a b).
Proof.
  intros Hw Hb Ha. apply fits_of_bits; [done| |].
  - apply Z.land_nonneg. unfold fits in *. lia.
  - intros i Hi. rewrite Z.land_spec, (fits_testbit_high w a); auto; lia.
Qed.

Lemma fits_land_r w a b : 0 <= w -> 0 <= a -> fits w b -> fits w (Z.land a b).
Proof. intros. rewrite Z.land_comm. by apply fits_land_l. Qed.

Lemma fits_ldiff w a b : 0 <= w -> fits w a -> fits w (clear_bits a b).
Proof.
  intros Hw Ha. apply fits_of_bits; [done| |].
  - apply Z.ldiff_nonneg. unfold fits in *. lia.
  - intros i Hi. unfold clear_bits. rewrite Z.ldiff_spec, (fits_testbit_high w a); auto; lia.
Qed.

Lemma b2z_testbit b i : Z.testbit (b2z b) i = b && (i =? 0).
Proof.
  destruct b; simpl; [|apply Z.testbit_0_l].
  destruct (Z.eqb_spec i 0) as [->|]; [done|].
  destruct (Z.lt_ge_cases i 0); [by apply Z.testbit_neg_r|].
  apply Z.bits_above_log2; [lia|]. change (Z.log2 1) with 0. lia.
Qed.

(** [x & 1 != 0] is bit 0. *)
Lemma land_1_testbit x : negb (Z.land x 1 =? 0) = Z.testbit x 0.
Proof.
  rewrite Z.bit0_odd. change 1 with (Z.ones 1). rewrite Z.land_ones by lia.
  change (2 ^ 1) with 2. rewrite Zmod_odd. by destruct (Z.odd x).
Qed.

(** [x & (1 << k) != 0] is bit [k]. *)
Lemma land_pow2_testbit x k : 0 <= k -> negb (Z.land x (2 ^ k) =? 0) = Z.testbit x k.
Proof.
  intros Hk. destruct (Z.testbit x k) eqn:E.
  - apply negb_true_iff, Z.eqb_neq. intros H.
    apply (f_equal (fun z => Z.testbit z k)) in H.
    rewrite Z.land_spec, E, Z.pow2_bits_true, Z.testbit_0_l in H by lia. done.
  - apply negb_false_iff, Z.eqb_eq. apply Z.bits_inj'. intros i Hi.
    rewrite Z.land_spec, Z.testbit_0_l. destruct (Z.eq_dec i k) as [->|].
    + by rewrite E.
    + rewrite (Z.pow2_bits_false k i) by lia. apply andb_false_r.
Qed.
End Bits.

Create HintDb words.
#[export] Hint Resolve fits_wrap fits_lor fits_land_l fits_land_r fits_ldiff : words.

(** ** Bytes *)

Definition is_byte (z : Z) : Prop := 0 <= z < 256.
Definition bytes (l : list Z) : Prop := Forall is_byte l.

(** [uN::from_le_bytes] and [to_le_bytes]; the big-endian forms reverse. *)
Fixpoint from_le (l : list Z) : Z :=
  match l with [] => 0 | b :: l => b + 256 * from_le l end.
Fixpoint to_le (n : nat) (z : Z) : list Z :=
  match n with O => [] | S n => z mod 256 :: to_le n (z / 256) end.
Definition from_be (l : list Z) : Z := from_le (reverse l).
Definition to_be (n : nat) (z : Z) : list Z := reverse (to_le n z).

Section Bytes.
Lemma length_to_le n z : length (to_le n z) = n.
Proof. revert z. induction n; intros; simpl; auto. Qed.

Lemma length_to_be n z : length (to_be n z) = n.
Proof. unfold to_be. by rewrite length_reverse, length_to_le. Qed.

Lemma bytes_to_le n z : bytes (to_le n z).
Proof.
  revert z. induction n; intros; simpl; constructor; [|apply IHn].
  unfold is_byte. apply Z.mod_pos_bound. lia.
Qed.

Lemma bytes_to_be n z : bytes (to_be n z).
Proof. unfold to_be, bytes. apply Forall_reverse, bytes_to_le. Qed.

Lemma from_to_le n z : from_le (to_le n z) = z mod 256 ^ Z.of_nat n.
Proof.
  revert z. induction n as [|n IH]; intros z.
  - simpl. by rewrite Z.mod_1_r.
  - cbn [to_le from_le]. rewrite IH, Nat2Z.inj_succ, Z.pow_succ_r by lia.
    rewrite Z.rem_mul_r; lia.
Qed.

Lemma from_le_app l k : from_le (l ++ k) = from_le l + 256 ^ llen l * from_le k.
Proof.
  induction l as [|b l IH]; cbn [app from_le]; [unfold llen; cbn; lia|].
  rewrite IH, llen_cons, Z.pow_add_r by (unfold llen; lia). lia.
Qed.

Lemma from_to_be n z : from_be (to_be n z) = z mod 256 ^ Z.of_nat n.
Proof. unfold from_be, to_be. by rewrite reverse_involutive, from_to_le. Qed.

Lemma from_le_bound l : bytes l -> 0 <= from_le l < 256 ^ llen l.
Proof.
  unfold llen. induction 1 as [|b l Hb Hl IH]; simpl from_le; [simpl; lia|].
  simpl length. rewrite Nat2Z.inj_succ, Z.pow_succ_r by lia. unfold is_byte in Hb. lia.
Qed.

Lemma to_from_le l : bytes l -> to_le (length l) (from_le l) = l.
Proof.
  induction 1 as [|b l Hb Hl IH]; [done|]. cbn [length to_le from_le]. unfold is_byte in Hb.
  rewrite (Z.mul_comm 256), Z.mod_add, Z.mod_small by lia.
  rewrite Z.div_add, Z.div_small by lia. by rewrite Z.add_0_l, IH.
Qed.
End Bytes.

#[export] Hint Resolve bytes_to_le bytes_to_be : words.
#[export] Hint Rewrite length_to_le length_to_be : slices.
