(* ===== verification/Trb.v ===== *)
(** * xHCI registers and TRBs: [xhci/regs.rs], [xhci/trb.rs]

    Register offsets and bit masks, the transfer request block, its completion
    codes and the decoding of port-status-change events. *)

From S2P Require Import Prelude Words.

(** ** Registers *)

(** @ xhci/regs.rs:43-43 CAPLENGTH *)
Definition CAPLENGTH : Z := 0x00.
(** @ xhci/regs.rs:44-44 HCIVERSION *)
Definition HCIVERSION : Z := 0x02.
(** @ xhci/regs.rs:45-45 HCSPARAMS1 *)
Definition HCSPARAMS1 : Z := 0x04.
(** @ xhci/regs.rs:46-46 HCCPARAMS1 *)
Definition HCCPARAMS1 : Z := 0x10.
(** @ xhci/regs.rs:47-47 DBOFF *)
Definition DBOFF : Z := 0x14.
(** @ xhci/regs.rs:48-48 RTSOFF *)
Definition RTSOFF : Z := 0x18.
(** @ xhci/regs.rs:49-49 USBCMD *)
Definition USBCMD : Z := 0x00.
(** @ xhci/regs.rs:50-50 USBSTS *)
Definition USBSTS : Z := 0x04.
(** @ xhci/regs.rs:51-51 CONFIG *)
Definition CONFIG : Z := 0x38.
(** @ xhci/regs.rs:52-52 DCBAAP *)
Definition DCBAAP : Z := 0x30.
(** @ xhci/regs.rs:53-53 CRCR *)
Definition CRCR : Z := 0x18.
(** @ xhci/regs.rs:54-54 PORTSC *)
Definition PORTSC : Z := 0x400.
(** @ xhci/regs.rs:55-55 PORTSC_CCS *)
Definition PORTSC_CCS : Z := Z.shiftl 1 0.
(** @ xhci/regs.rs:56-56 PORTSC_PED *)
Definition PORTSC_PED : Z := Z.shiftl 1 1.
(** @ xhci/regs.rs:57-57 PORTSC_PR *)
Definition PORTSC_PR : Z := Z.shiftl 1 4.
(** @ xhci/regs.rs:58-58 PORTSC_PP *)
Definition PORTSC_PP : Z := Z.shiftl 1 9.
(** @ xhci/regs.rs:59-59 PORTSC_CSC *)
Definition PORTSC_CSC : Z := Z.shiftl 1 17.
(** @ xhci/regs.rs:60-60 PORTSC_PEC *)
Definition PORTSC_PEC : Z := Z.shiftl 1 18.
(** @ xhci/regs.rs:61-61 PORTSC_WRC *)
Definition PORTSC_WRC : Z := Z.shiftl 1 19.
(** @ xhci/regs.rs:62-62 PORTSC_OCC *)
Definition PORTSC_OCC : Z := Z.shiftl 1 20.
(** @ xhci/regs.rs:63-63 PORTSC_PRC *)
Definition PORTSC_PRC : Z := Z.shiftl 1 21.
(** @ xhci/regs.rs:64-64 PORTSC_PLC *)
Definition PORTSC_PLC : Z := Z.shiftl 1 22.
(** @ xhci/regs.rs:65-65 PORTSC_CEC *)
Definition PORTSC_CEC : Z := Z.shiftl 1 23.
(** @ xhci/regs.rs:66-67 PORTSC_CHANGE_MASK *)
Definition PORTSC_CHANGE_MASK : Z := Z.lor (Z.lor (Z.lor (Z.lor (Z.lor (Z.lor PORTSC_CSC PORTSC_PEC) (PORTSC_WRC)) (PORTSC_OCC)) (PORTSC_PRC)) (PORTSC_PLC)) (PORTSC_CEC).
(** @ xhci/regs.rs:68-68 DB_TARGET *)
Definition DB_TARGET : Z := 0.
(** @ xhci/regs.rs:69-69 RT_INTR0 *)
Definition RT_INTR0 : Z := 0x20.
(** @ xhci/regs.rs:70-70 IMAN *)
Definition IMAN : Z := 0x00.
(** @ xhci/regs.rs:71-71 ERSTSZ *)
Definition ERSTSZ : Z := 0x08.
(** @ xhci/regs.rs:72-72 ERSTBA *)
Definition ERSTBA : Z := 0x10.
(** @ xhci/regs.rs:73-73 ERDP *)
Definition ERDP : Z := 0x18.
(** @ xhci/regs.rs:74-74 ERDP_EHB *)
Definition ERDP_EHB : Z := Z.shiftl 1 3.
(** @ xhci/regs.rs:75-75 USBSTS_EINT *)
Definition USBSTS_EINT : Z := Z.shiftl 1 3.
(** @ xhci/regs.rs:76-76 IMAN_IP *)
Definition IMAN_IP : Z := 1.
(** @ xhci/regs.rs:77-77 IMAN_IE *)
Definition IMAN_IE : Z := Z.shiftl 1 1.
(** @ xhci/regs.rs:78-78 TRB_TYPE_NOOP_COMMAND *)
Definition TRB_TYPE_NOOP_COMMAND : Z := Z.shiftl 23 10.
(** @ xhci/regs.rs:79-79 TRB_TYPE_ENABLE_SLOT *)
Definition TRB_TYPE_ENABLE_SLOT : Z := Z.shiftl 9 10.
(** @ xhci/regs.rs:80-80 TRB_TYPE_DISABLE_SLOT *)
Definition TRB_TYPE_DISABLE_SLOT : Z := Z.shiftl 10 10.
(** @ xhci/regs.rs:81-81 TRB_TYPE_ADDRESS_DEVICE *)
Definition TRB_TYPE_ADDRESS_DEVICE : Z := Z.shiftl 11 10.
(** @ xhci/regs.rs:82-82 TRB_TYPE_CONFIGURE_ENDPOINT *)
Definition TRB_TYPE_CONFIGURE_ENDPOINT : Z := Z.shiftl 12 10.
(** @ xhci/regs.rs:84-84 USBCMD_RUN *)
Definition USBCMD_RUN : Z := 1.
(** @ xhci/regs.rs:85-85 USBCMD_HCRST *)
Definition USBCMD_HCRST : Z := Z.shiftl 1 1.
(** @ xhci/regs.rs:86-86 USBCMD_INTE *)
Definition USBCMD_INTE : Z := Z.shiftl 1 2.
(** @ xhci/regs.rs:87-87 USBSTS_HCHALTED *)
Definition USBSTS_HCHALTED : Z := 1.
(** @ xhci/regs.rs:88-88 USBSTS_CNR *)
Definition USBSTS_CNR : Z := Z.shiftl 1 11.
(** @ xhci/regs.rs:90-90 HCCPARAMS1_XECP_MASK *)
Definition HCCPARAMS1_XECP_MASK : Z := 0xffff0000.
(** @ xhci/regs.rs:91-91 HCCPARAMS1_XECP_SHIFT *)
Definition HCCPARAMS1_XECP_SHIFT : Z := 16.
(** @ xhci/regs.rs:93-93 XECAP_ID_MASK *)
Definition XECAP_ID_MASK : Z := 0xff.
(** @ xhci/regs.rs:94-94 XECAP_NEXT_MASK *)
Definition XECAP_NEXT_MASK : Z := Z.shiftl 0xffff 8.
(** @ xhci/regs.rs:95-95 XECAP_NEXT_SHIFT *)
Definition XECAP_NEXT_SHIFT : Z := 8.
(** @ xhci/regs.rs:96-96 XECAP_USB_LEGACY_SUPPORT *)
Definition XECAP_USB_LEGACY_SUPPORT : Z := 1.
(** @ xhci/regs.rs:97-97 USBLEGSUP_BIOS_OWNED *)
Definition USBLEGSUP_BIOS_OWNED : Z := Z.shiftl 1 16.
(** @ xhci/regs.rs:98-98 USBLEGSUP_OS_OWNED *)
Definition USBLEGSUP_OS_OWNED : Z := Z.shiftl 1 24.

(** ** TRBs *)

(** @ xhci/trb.rs:11-11 TRB_CYCLE *)
Definition TRB_CYCLE : Z := 1.
(** @ xhci/trb.rs:12-12 TRB_TC *)
Definition TRB_TC : Z := Z.shiftl 1 1.
(** @ xhci/trb.rs:13-13 TRB_CHAIN *)
Definition TRB_CHAIN : Z := Z.shiftl 1 4.
(** @ xhci/trb.rs:14-14 TRB_TYPE_SHIFT *)
Definition TRB_TYPE_SHIFT : Z := 10.
(** @ xhci/trb.rs:15-15 TRB_TYPE_MASK *)
Definition TRB_TYPE_MASK : Z := Z.shiftl 0x3f TRB_TYPE_SHIFT.
(** @ xhci/trb.rs:16-16 TRB_TYPE_LINK *)
Definition TRB_TYPE_LINK : Z := Z.shiftl 6 TRB_TYPE_SHIFT.
(** @ xhci/trb.rs:17-17 TRB_TYPE_EVENT_DATA *)
Definition TRB_TYPE_EVENT_DATA : Z := Z.shiftl 7 TRB_TYPE_SHIFT.
(** @ xhci/trb.rs:18-18 TRB_TYPE_COMMAND_COMPLETION *)
Definition TRB_TYPE_COMMAND_COMPLETION : Z := Z.shiftl 33 TRB_TYPE_SHIFT.
(** @ xhci/trb.rs:19-19 TRB_TYPE_TRANSFER_EVENT *)
Definition TRB_TYPE_TRANSFER_EVENT : Z := Z.shiftl 32 TRB_TYPE_SHIFT.
(** @ xhci/trb.rs:20-20 TRB_TYPE_PORT_STATUS_CHANGE *)
Definition TRB_TYPE_PORT_STATUS_CHANGE : Z := Z.shiftl 34 TRB_TYPE_SHIFT.
(** @ xhci/trb.rs:21-21 TRB_TYPE_SETUP_STAGE *)
Definition TRB_TYPE_SETUP_STAGE : Z := Z.shiftl 2 TRB_TYPE_SHIFT.
(** @ xhci/trb.rs:22-22 TRB_TYPE_NORMAL *)
Definition TRB_TYPE_NORMAL : Z := Z.shiftl 1 TRB_TYPE_SHIFT.
(** @ xhci/trb.rs:23-23 TRB_TYPE_DATA_STAGE *)
Definition TRB_TYPE_DATA_STAGE : Z := Z.shiftl 3 TRB_TYPE_SHIFT.
(** @ xhci/trb.rs:24-24 TRB_TYPE_STATUS_STAGE *)
Definition TRB_TYPE_STATUS_STAGE : Z := Z.shiftl 4 TRB_TYPE_SHIFT.

(** @ xhci/trb.rs:3-9 Trb *)
Record Trb := mk_Trb {
  parameter : Z;  (* u64 *)
  status : Z;     (* u32 *)
  control : Z;    (* u32 *)
}.
Definition Trb_default : Trb := mk_Trb 0 0 0.
#[global] Instance Trb_eq_dec : EqDecision Trb.
Proof. solve_decision. Defined.

(** @ xhci/trb.rs:26-43 CompletionCode *)
Inductive CompletionCode :=
  | Invalid | Success | DataBufferError | TrbError | StallError | ShortPacket
  | RingUnderrun | RingOverrun | EventRingFull | CommandAborted | Stop
  | ContextStateError | NoSlotsAvailable | Unknown.
#[global] Instance CompletionCode_eq_dec : EqDecision CompletionCode.
Proof. solve_decision. Defined.

(** The discriminants of the enum (its [repr(u8)] values). *)
(** @ xhci/trb.rs:28-42 CompletionCode *)
Definition completion_discriminant (c : CompletionCode) : Z :=
  match c with
  | Invalid => 0 | Success => 1 | DataBufferError => 2 | TrbError => 5
  | StallError => 6 | ShortPacket => 13 | RingUnderrun => 14 | RingOverrun => 15
  | EventRingFull => 21 | CommandAborted => 25 | Stop => 26
  | ContextStateError => 19 | NoSlotsAvailable => 9 | Unknown => 255
  end.

(** @ xhci/trb.rs:60-77 CompletionCode::from_status *)
Definition from_status (st : Z) : CompletionCode :=
  match wrap 8 (Z.land (Z.shiftr st 24) 0xff) with
  | 0 => Invalid
  | 1 => Success
  | 2 => DataBufferError
  | 5 => TrbError
  | 6 => StallError
  | 9 => NoSlotsAvailable
  | 13 => ShortPacket
  | 14 => RingUnderrun
  | 15 => RingOverrun
  | 19 => ContextStateError
  | 21 => EventRingFull
  | 25 => CommandAborted
  | 26 => Stop
  | _ => Unknown
  end.

(** [PortStatusChangeEvent] is its one field, the port id. *)
(** @ xhci/trb.rs:51-57 port_status_change_event *)
Definition port_status_change_event (event : Trb) : option Z :=
  if negb (Z.land (control event) TRB_TYPE_MASK =? TRB_TYPE_PORT_STATUS_CHANGE) then None
  else
    let port_id := wrap 8 (Z.land (parameter event) 0xff) in
    if negb (port_id =? 0) then Some port_id else None.

(** @ xhci/trb.rs:80-86 link_trb *)
Definition link_trb (next : Z) (cycle : bool) : Trb :=
  mk_Trb next 0 (Z.lor (Z.lor TRB_TYPE_LINK TRB_TC) (b2z cycle * TRB_CYCLE)).

(** ** Facts shared by the ring and controller models *)

(** The cycle bit of a TRB, as every consumer tests it. *)
Definition trb_cycle (t : Trb) : bool := negb (Z.land (control t) TRB_CYCLE =? 0).

Definition trb_wf (t : Trb) : Prop :=
  fits 64 (parameter t) /\ fits 32 (status t) /\ fits 32 (control t).

(** Setting the cycle bit the way every producer does:
    [(control & !TRB_CYCLE) | cycle as u32]. *)
Definition with_cycle (t : Trb) (c : bool) : Trb :=
  mk_Trb (parameter t) (status t) (Z.lor (clear_bits (control t) TRB_CYCLE) (b2z c)).

Lemma trb_cycle_bit t : trb_cycle t = Z.testbit (control t) 0.
Proof. apply land_1_testbit. Qed.

Lemma trb_cycle_with_cycle t c : trb_cycle (with_cycle t c) = c.
Proof.
  rewrite trb_cycle_bit. unfold with_cycle, clear_bits. cbn [control].
  rewrite Z.lor_spec, Z.ldiff_spec, b2z_testbit.
  change (Z.testbit TRB_CYCLE 0) with true. change (0 =? 0) with true. cbn [negb].
  rewrite andb_false_r, andb_true_r. done.
Qed.

(** The cycle bit is the only bit [with_cycle] touches. *)
Lemma with_cycle_testbit t c i :
  i <> 0 -> Z.testbit (control (with_cycle t c)) i = Z.testbit (control t) i.
Proof.
  intros Hi. unfold with_cycle, clear_bits. cbn [control]. rewrite Z.lor_spec, Z.ldiff_spec, b2z_testbit.
  rewrite (proj2 (Z.eqb_neq i 0) Hi), andb_false_r, orb_false_r.
  destruct (Z.lt_ge_cases i 0); [by rewrite (Z.testbit_neg_r (control t))|].
  change TRB_CYCLE with (2 ^ 0). rewrite Z.pow2_bits_false by lia.
  by rewrite andb_true_r.
Qed.

Lemma with_cycle_wf t c : trb_wf t -> trb_wf (with_cycle t c).
Proof.
  intros (Hp & Hs & Hc). split_and!; [done|done|].
  apply fits_lor; [lia|apply fits_ldiff; [lia|done]|].
  unfold fits. destruct c; simpl; lia.
Qed.

(** The type field: what [control & TRB_TYPE_MASK] selects. *)
Definition trb_type (t : Trb) : Z := Z.land (control t) TRB_TYPE_MASK.

Lemma trb_type_with_cycle t c : trb_type (with_cycle t c) = trb_type t.
Proof.
  unfold trb_type. apply Z.bits_inj'. intros i Hi. rewrite !Z.land_spec.
  destruct (Z.eq_dec i 0) as [->|]; [by rewrite !andb_false_r|].
  by rewrite with_cycle_testbit.
Qed.

Lemma link_trb_cycle next c : trb_cycle (link_trb next c) = c.
Proof. rewrite trb_cycle_bit. by destruct c. Qed.

Lemma link_trb_type next c : trb_type (link_trb next c) = TRB_TYPE_LINK.
Proof. by destruct c. Qed.
