(* ===== verification/Ring.v ===== *)
(** * Producer and event rings: [xhci/ring.rs]

    [ProducerRing] is the software-owned ring with a trailing link TRB;
    [EventRing] is the ring whose entries carry an explicit cycle bit.  The
    event ring is shown to refine a bounded FIFO queue. *)

From S2P Require Import Prelude Words Trb.

#[local] Open Scope nat_scope.

(** @ xhci/ring.rs:7-11 RingError *)
Inductive RingError := Full | Empty.

(** ** The producer ring *)

(** @ xhci/ring.rs:13-18 ProducerRing *)
Record ProducerRing := mk_ProducerRing {
  pr_entries : list Trb;
  pr_index : nat;
  pr_cycle : bool;
  pr_len : nat;
}.

(** @ xhci/ring.rs:21-31 ProducerRing::new *)
Definition producer_new (usable_entries : nat) : outcome ProducerRing :=
  assert! bool_decide (2 <= usable_entries);
  let entries := replicate (usable_entries + 1) Trb_default in
  Done (mk_ProducerRing (<[usable_entries := link_trb 0 true]> entries) 0 true 0).

(** @ xhci/ring.rs:33-35 ProducerRing::capacity *)
Definition capacity (r : ProducerRing) : nat := length (pr_entries r) - 1.

(** @ xhci/ring.rs:37-53 ProducerRing::push *)
Definition push (r : ProducerRing) (trb : Trb) : ProducerRing * result nat RingError :=
  if bool_decide (pr_len r = capacity r) then (r, Err Full)
  else
    let trb := mk_Trb (parameter trb) (status trb)
                 (Z.lor (clear_bits (control trb) TRB_CYCLE) (b2z (pr_cycle r))) in
    let at_ := pr_index r in
    let entries := <[at_ := trb]> (pr_entries r) in
    let next := (pr_index r + 1) mod capacity r in
    let cycle := if bool_decide (next = 0) then negb (pr_cycle r) else pr_cycle r in
    let entries := <[capacity r := link_trb 0 cycle]> entries in
    (mk_ProducerRing entries next cycle (pr_len r + 1), Ok at_).

(** @ xhci/ring.rs:55-57 ProducerRing::get *)
Definition producer_get (r : ProducerRing) (index : nat) : option Trb := pr_entries r !! index.

(** Pushing a batch, collecting the answers. *)
Fixpoint push_all (r : ProducerRing) (ts : list Trb) : ProducerRing * list (result nat RingError) :=
  match ts with
  | [] => (r, [])
  | t :: ts =>
      let '(r, x) := push r t in
      let '(r, xs) := push_all r ts in (r, x :: xs)
  end.

(** ** The event ring *)

(** @ xhci/ring.rs:64-71 EventRing *)
Record EventRing := mk_EventRing {
  er_entries : list Trb;
  consumer : nat;
  consumer_cycle : bool;
  producer : nat;
  producer_cycle : bool;
  used : nat;
}.

(** @ xhci/ring.rs:74-84 EventRing::new *)
Definition event_new (entries : nat) : outcome EventRing :=
  assert! bool_decide (0 < entries);
  Done (mk_EventRing (replicate entries Trb_default) 0 true 0 true 0).

(** @ xhci/ring.rs:86-100 EventRing::publish *)
Definition publish (r : EventRing) (trb : Trb) : EventRing * result unit RingError :=
  if bool_decide (used r = length (er_entries r)) then (r, Err Full)
  else
    let stored := mk_Trb (parameter trb) (status trb)
                    (Z.lor (control trb) (b2z (producer_cycle r))) in
    let entries := <[producer r := stored]> (er_entries r) in
    let prod := (producer r + 1) mod length (er_entries r) in
    let pcycle := if bool_decide (prod = 0) then negb (producer_cycle r) else producer_cycle r in
    (mk_EventRing entries (consumer r) (consumer_cycle r) prod pcycle (used r + 1), Ok tt).

(** @ xhci/ring.rs:102-118 EventRing::pop *)
Definition pop (r : EventRing) : outcome (EventRing * result Trb RingError) :=
  if bool_decide (used r = 0) then Done (r, Err Empty)
  else
    trb ← unwrap (er_entries r !! consumer r);
    if negb (eqb (negb (Z.land (control trb) TRB_CYCLE =? 0)%Z) (consumer_cycle r))
    then Done (r, Err Empty)
    else
      let entries := <[consumer r := Trb_default]> (er_entries r) in
      let c := consumer r + 1 in
      let '(c, cc) := if bool_decide (c = length entries) then (0, negb (consumer_cycle r))
                      else (c, consumer_cycle r) in
      Done (mk_EventRing entries c cc (producer r) (producer_cycle r) (used r - 1), Ok trb).

(** @ xhci/ring.rs:120-122 EventRing::consumer_index *)
Definition consumer_index (r : EventRing) : nat := consumer r.

(** ** Properties of the producer ring *)

Section ProducerFacts.
(** The ring after [pr_len] pushes: every pushed entry is in order below the
    write index, nothing has been overwritten, and the link TRB carries the
    producer's current cycle. *)
Record producer_inv (r : ProducerRing) (pushed : list Trb) : Prop := {
  pi_cap : 2 <= capacity r;
  pi_len : pr_len r = length pushed;
  pi_bound : pr_len r <= capacity r;
  pi_index : pr_index r = pr_len r mod capacity r;
  pi_cycle : pr_cycle r = bool_decide (pr_len r < capacity r);
  pi_entries : forall i t, pushed !! i = Some t ->
                 pr_entries r !! i = Some (with_cycle t true);
  pi_link : pr_entries r !! capacity r = Some (link_trb 0 (pr_cycle r));
}.

Lemma producer_new_inv n : 2 <= n ->
  exists r, producer_new n = Done r /\ capacity r = n /\ producer_inv r [].
Proof.
  intros Hn. unfold producer_new. rewrite bool_decide_true by done. eexists. split; [done|].
  assert (capacity (mk_ProducerRing (<[n:=link_trb 0 true]> (replicate (n + 1) Trb_default)) 0 true 0) = n) as Hc.
  { unfold capacity. cbn [pr_entries]. rewrite length_insert, length_replicate. lia. }
  split; [exact Hc|].
  constructor; rewrite ?Hc; cbn [pr_entries pr_index pr_len pr_cycle length]; try done; try lia.
  - rewrite Nat.Div0.mod_0_l. done.
  - by rewrite bool_decide_true by lia.
  - rewrite list_lookup_insert_eq; [done|]. rewrite length_replicate. lia.
Qed.

Lemma push_capacity r t : capacity (push r t).1 = capacity r.
Proof.
  unfold push. case_bool_decide; [done|]. unfold capacity at 1. cbn [fst pr_entries].
  by rewrite !length_insert.
Qed.

Lemma push_inv r pushed t :
  producer_inv r pushed -> length pushed < capacity r ->
  (push r t).2 = Ok (length pushed) /\ producer_inv (push r t).1 (pushed ++ [t]).
Proof.
  intros [Hcap Hlen Hb Hidx Hcyc Hent Hlink] Hlt.
  assert (pr_index r = length pushed) as Hi by (rewrite Hidx, Hlen; by apply Nat.mod_small).
  assert (pr_cycle r = true) as Hct by (rewrite Hcyc, Hlen; by apply bool_decide_true).
  pose proof (push_capacity r t) as Hpc. revert Hpc.
  unfold push. rewrite bool_decide_false by lia. rewrite Hct.
  set (nx := (pr_index r + 1) mod capacity r).
  assert (nx = (pr_len r + 1) mod capacity r) as Hnx by (unfold nx; f_equal; lia).
  assert (bool_decide (nx = 0) = bool_decide (pr_len r + 1 = capacity r)) as Hz.
  { apply bool_decide_ext. rewrite Hnx. destruct (decide (pr_len r + 1 = capacity r)) as [->|].
    - rewrite Nat.Div0.mod_same. done.
    - rewrite Nat.mod_small by lia. lia. }
  assert (length (pr_entries r) = capacity r + 1) as Hle by (unfold capacity in *; lia).
  cbn [fst snd]. intros Hpc. split; [by rewrite Hi|].
  constructor; rewrite ?Hpc; cbn [pr_entries pr_index pr_len pr_cycle];
    rewrite ?length_app; cbn [length]; try lia.
  - rewrite Hz. repeat case_bool_decide; simpl; try done; lia.
  - intros i u Hu. assert (i < length (pushed ++ [t])) as Hil by (by eapply lookup_lt_Some).
    rewrite length_app in Hil. cbn [length] in Hil. rewrite list_lookup_insert_ne by lia.
    apply lookup_app_Some in Hu as [Hu|(Hge & Hu)].
    + rewrite list_lookup_insert_ne by (apply lookup_lt_Some in Hu; lia). by apply Hent.
    + apply list_lookup_singleton_Some in Hu as [Hu <-].
      replace i with (pr_index r) by lia.
      rewrite list_lookup_insert_eq by lia. done.
  - rewrite list_lookup_insert_eq; [done|]. rewrite length_insert. lia.
Qed.

Lemma push_all_inv r pushed ts :
  producer_inv r pushed -> length pushed + length ts <= capacity r ->
  (push_all r ts).2 = Ok <$> seq (length pushed) (length ts) /\
  producer_inv (push_all r ts).1 (pushed ++ ts) /\
  capacity (push_all r ts).1 = capacity r.
Proof.
  revert r pushed. induction ts as [|t ts IH]; intros r pushed Hinv Hle.
  - simpl. by rewrite app_nil_r.
  - cbn [push_all length] in *.
    destruct (push_inv r pushed t Hinv) as [H1 H2]; [lia|].
    pose proof (push_capacity r t) as Hc.
    destruct (push r t) as [r' x]. cbn [fst snd] in *. subst x.
    destruct (IH r' (pushed ++ [t]) H2) as (H3 & H4 & H5).
    { rewrite length_app. simpl. lia. }
    destruct (push_all r' ts) as [r'' xs]. cbn [fst snd] in *.
    rewrite length_app in H3. simpl in H3. rewrite Nat.add_1_r in H3.
    rewrite <- app_assoc in H4. simpl. split_and!; [by rewrite H3|done|lia].
Qed.
End ProducerFacts.

(** ** Properties of the event ring *)

(** The abstract specification: a FIFO queue of at most [n] events, each kept
    without its cycle bit. *)
Inductive ring_op := Publish (t : Trb) | Pop.
Inductive ring_answer := APublish (r : result unit RingError) | APop (r : result Trb RingError).

Definition fifo_step (n : nat) (q : list Trb) (o : ring_op) : list Trb * ring_answer :=
  match o with
  | Publish t => if bool_decide (length q = n) then (q, APublish (Err Full))
                 else (q ++ [t], APublish (Ok tt))
  | Pop => match q with
           | [] => ([], APop (Err Empty))
           | t :: q => (q, APop (Ok t))
           end
  end.
Fixpoint fifo_run (n : nat) (q : list Trb) (os : list ring_op) : list ring_answer :=
  match os with
  | [] => []
  | o :: os => let '(q, a) := fifo_step n q o in a :: fifo_run n q os
  end.

Definition ring_step (r : EventRing) (o : ring_op) : outcome (EventRing * ring_answer) :=
  match o with
  | Publish t => let '(r, a) := publish r t in Done (r, APublish a)
  | Pop => '(r, a) ← pop r; Done (r, APop a)
  end.
Fixpoint ring_run (r : EventRing) (os : list ring_op) : outcome (list ring_answer) :=
  match os with
  | [] => Done []
  | o :: os =>
      '(r, a) ← ring_step r o;
      l ← ring_run r os; Done (a :: l)
  end.

(** An answer with the cycle bit of a popped event masked out. *)
Definition strip (t : Trb) : Trb := with_cycle t false.
Definition strip_answer (a : ring_answer) : ring_answer :=
  match a with APop (Ok t) => APop (Ok (strip t)) | a => a end.

Section EventFacts.
(** Lap parity: an entry [k] places after the consumer is on the consumer's
    lap until the index wraps past the end. *)
Definition lap (r : EventRing) (k : nat) : bool :=
  xorb (consumer_cycle r) (bool_decide (length (er_entries r) <= consumer r + k)).

Record event_inv (r : EventRing) (q : list Trb) : Prop := {
  ei_size : 0 < length (er_entries r);
  ei_used : used r = length q;
  ei_bound : used r <= length (er_entries r);
  ei_cons : consumer r < length (er_entries r);
  ei_prod : producer r = (consumer r + used r) mod length (er_entries r);
  ei_pcycle : producer_cycle r = lap r (used r);
  ei_entries : forall k t, q !! k = Some t ->
    er_entries r !! ((consumer r + k) mod length (er_entries r)) = Some (with_cycle t (lap r k));
  ei_clear : Forall (fun t => trb_cycle t = false) q;
}.

Lemma or_cycle_with_cycle t c : trb_cycle t = false ->
  mk_Trb (parameter t) (status t) (Z.lor (control t) (b2z c)) = with_cycle t c.
Proof.
  intros H. rewrite trb_cycle_bit in H. unfold with_cycle. do 2 f_equal.
  apply Z.bits_inj'. intros i Hi. unfold clear_bits. rewrite Z.ldiff_spec.
  destruct (Z.eq_dec i 0) as [->|]; [by rewrite H|].
  change TRB_CYCLE with (2 ^ 0)%Z. rewrite Z.pow2_bits_false by lia. by rewrite andb_true_r.
Qed.

Lemma strip_with_cycle t c : trb_cycle t = false -> strip (with_cycle t c) = t.
Proof.
  intros H. rewrite trb_cycle_bit in H. unfold strip, with_cycle. cbn [parameter status control].
  destruct t as [p s ctl]; f_equal. cbn [control parameter status] in *.
  apply Z.bits_inj'. intros i Hi. unfold clear_bits.
  rewrite Z.lor_spec, Z.ldiff_spec, Z.lor_spec, Z.ldiff_spec, Z.testbit_0_l, orb_false_r.
  destruct (Z.eq_dec i 0) as [->|].
  - rewrite H. simpl. by rewrite andb_false_r.
  - rewrite b2z_testbit, (proj2 (Z.eqb_neq i 0)), andb_false_r, orb_false_r by done.
    change TRB_CYCLE with (2 ^ 0)%Z. rewrite Z.pow2_bits_false by lia. by rewrite !andb_true_r.
Qed.

Lemma mod_small_or n c k : c < n -> k <= n ->
  (c + k) mod n = if bool_decide (n <= c + k) then c + k - n else c + k.
Proof.
  intros Hc Hk. case_bool_decide.
  - symmetry. apply (Nat.mod_unique _ _ 1); lia.
  - apply Nat.mod_small. lia.
Qed.

Lemma mod_inj n c i j : c < n -> i < n -> j < n -> (c + i) mod n = (c + j) mod n -> i = j.
Proof.
  intros Hc Hi Hj. rewrite !mod_small_or by lia. repeat case_bool_decide; lia.
Qed.

Lemma event_new_inv n : 0 < n -> exists r, event_new n = Done r /\
  length (er_entries r) = n /\ event_inv r [].
Proof.
  intros Hn. unfold event_new. rewrite bool_decide_true by done.
  eexists; split; [done|]. cbn [er_entries]. split; [apply length_replicate|].
  constructor; unfold lap; cbn [er_entries consumer consumer_cycle producer producer_cycle used];
    rewrite ?length_replicate; try done; try lia.
  - by rewrite Nat.Div0.mod_0_l.
  - by rewrite bool_decide_false by lia.
Qed.

Lemma publish_full r q t : event_inv r q -> length q = length (er_entries r) ->
  publish r t = (r, Err Full).
Proof.
  intros H Hl. unfold publish. rewrite bool_decide_true; [done|].
  rewrite (ei_used _ _ H). lia.
Qed.

Lemma publish_inv r q t : event_inv r q -> length q <> length (er_entries r) ->
  trb_cycle t = false ->
  (publish r t).2 = Ok tt /\ event_inv (publish r t).1 (q ++ [t]) /\
  length (er_entries (publish r t).1) = length (er_entries r).
Proof.
  intros [Hsz Hu Hb Hc Hp Hpc He Hcl] Hne Ht. unfold publish.
  rewrite bool_decide_false by lia. cbn [fst snd er_entries].
  rewrite or_cycle_with_cycle by done.
  set (n := length (er_entries r)) in *. split; [done|]. split; [|apply length_insert].
  assert (producer r < n) as Hpn by (rewrite Hp; apply Nat.mod_upper_bound; lia).
  assert ((producer r + 1) mod n = (consumer r + (used r + 1)) mod n) as Hp'.
  { rewrite Hp, Nat.Div0.add_mod_idemp_l. f_equal. lia. }
  constructor; unfold lap; cbn [er_entries consumer consumer_cycle producer producer_cycle used];
    rewrite ?length_insert, ?length_app; fold n; cbn [length]; try done; try lia.
  - rewrite Hp', Hpc. unfold lap. fold n. rewrite mod_small_or by lia.
    destruct (consumer_cycle r); repeat case_bool_decide; simpl; try done; lia.
  - intros k u [Hk|(Hge & Hk)]%lookup_app_Some.
    + rewrite list_lookup_insert_ne; [by apply He|]. rewrite Hp. intros Heq.
      apply lookup_lt_Some in Hk. apply mod_inj in Heq; lia.
    + apply list_lookup_singleton_Some in Hk as [Hk <-].
      replace k with (used r) by lia. rewrite <- Hp.
      rewrite list_lookup_insert_eq by done. by rewrite Hpc.
  - apply Forall_app. split; [done|]. by constructor.
Qed.

Lemma pop_empty r : event_inv r [] -> pop r = Done (r, Err Empty).
Proof. intros H. unfold pop. by rewrite bool_decide_true by (rewrite (ei_used _ _ H); done). Qed.

Lemma pop_inv r t q : event_inv r (t :: q) ->
  exists r' t', pop r = Done (r', Ok t') /\ strip t' = t /\ event_inv r' q /\
    length (er_entries r') = length (er_entries r).
Proof.
  intros [Hsz Hu Hb Hc Hp Hpc He Hcl]. simpl in Hu.
  assert (er_entries r !! consumer r = Some (with_cycle t (consumer_cycle r))) as H0.
  { specialize (He 0 t eq_refl). rewrite Nat.add_0_r, Nat.mod_small in He by done.
    rewrite He. unfold lap. rewrite bool_decide_false by lia. by rewrite xorb_false_r. }
  apply Forall_cons in Hcl as [Ht Hcl].
  unfold pop. rewrite bool_decide_false by lia. rewrite H0. cbn [unwrap mbind outcome_bind].
  fold (trb_cycle (with_cycle t (consumer_cycle r))).
  rewrite trb_cycle_with_cycle, eqb_reflx. cbn [negb]. rewrite length_insert.
  set (n := length (er_entries r)) in *.
  set (cc := if bool_decide (consumer r + 1 = n) then (0, negb (consumer_cycle r))
             else (consumer r + 1, consumer_cycle r)).
  assert (cc.1 = (consumer r + 1) mod n) as Hc1.
  { unfold cc. case_bool_decide as Hw; [rewrite Hw, Nat.Div0.mod_same; done|].
    rewrite Nat.mod_small by lia. done. }
  assert (forall k, k < n -> xorb cc.2 (bool_decide (n <= cc.1 + k)) = lap r (S k)) as Hlap.
  { intros k Hk. unfold lap, cc. fold n. destruct (consumer_cycle r);
      repeat case_bool_decide; simpl in *; try done; lia. }
  destruct cc as [c' cc'] eqn:Ecc. cbn [fst snd] in *.
  eexists _, _. split; [done|]. split; [by apply strip_with_cycle|].
  cbn [er_entries]. split; [|apply length_insert].
  assert (c' < n) as Hc'n by (subst c'; apply Nat.mod_upper_bound; lia).
  assert (forall k, (c' + k) mod n = (consumer r + S k) mod n) as Hmod.
  { intros k. rewrite Hc1, Nat.Div0.add_mod_idemp_l. f_equal. lia. }
  constructor; unfold lap; cbn [er_entries consumer consumer_cycle producer producer_cycle used];
    rewrite ?length_insert; fold n; try done; try lia.
  - rewrite Hp, Hmod. do 2 f_equal. lia.
  - rewrite Hpc, Hlap by lia. f_equal. lia.
  - intros k u Hk. rewrite Hmod. rewrite Hlap by (apply lookup_lt_Some in Hk; lia).
    rewrite list_lookup_insert_ne; [by apply (He (S k))|].
    intros Heq. rewrite <- (Nat.mod_small (consumer r) n Hc) in Heq at 1.
    rewrite <- (Nat.add_0_r (consumer r)) in Heq at 1.
    apply lookup_lt_Some in Hk. apply mod_inj in Heq; lia.
Qed.

Lemma ring_refines_fifo r q os :
  event_inv r q ->
  Forall (fun o => match o with Publish t => trb_cycle t = false | Pop => True end) os ->
  exists l, ring_run r os = Done l /\ strip_answer <$> l = fifo_run (length (er_entries r)) q os.
Proof.
  revert r q. induction os as [|o os IH]; intros r q Hinv Hos; [by exists []|].
  apply Forall_cons in Hos as [Ho Hos]. destruct o as [t|]; cbn [ring_run ring_step fifo_run fifo_step].
  - case_bool_decide as Hf.
    + rewrite (publish_full r q t) by done.
      destruct (IH r q Hinv Hos) as (l & Hl & Heq). simpl. rewrite Hl. simpl.
      eexists; split; [done|]. by rewrite fmap_cons, Heq.
    + destruct (publish_inv r q t) as (H1 & H2 & H3); [done..|].
      destruct (publish r t) as [r' a]. cbn [fst snd] in *. subst a.
      destruct (IH r' _ H2 Hos) as (l & Hl & Heq). simpl. rewrite Hl. simpl.
      eexists; split; [done|]. by rewrite fmap_cons, Heq, H3.
  - destruct q as [|t q].
    + rewrite pop_empty by done. destruct (IH r [] Hinv Hos) as (l & Hl & Heq).
      simpl. rewrite Hl. simpl. eexists; split; [done|]. by rewrite fmap_cons, Heq.
    + destruct (pop_inv r t q Hinv) as (r' & t' & Hpop & Hs & H2 & H3). rewrite Hpop.
      destruct (IH r' q H2 Hos) as (l & Hl & Heq). simpl. rewrite Hl. simpl.
      eexists; split; [done|]. rewrite fmap_cons, Heq, H3. cbn [strip_answer]. by rewrite Hs.
Qed.
End EventFacts.

(** C19: the producer ring fills exactly once and in order.  From a fresh ring of
    [n >= 2] usable entries, pushing at most [n] TRBs answers the indices
    0, 1, 2, ... in order, and afterwards slot [i] holds the [i]-th pushed TRB
    with its cycle bit set and every other bit unchanged, while the link TRB
    in the last slot carries the producer's current cycle; a ring that has taken
    [n] TRBs answers [Full] to every further push and is unchanged. *)
Theorem producer_ring_in_order (n : nat) (ts : list Trb) (t : Trb) (r0 : ProducerRing)
    (Hn : 2 <= n) (Hnew : producer_new n = Done r0) (Hts : length ts <= n) :
  let r := (push_all r0 ts).1 in
  (push_all r0 ts).2 = Ok <$> seq 0 (length ts) /\
  (forall i u, ts !! i = Some u -> producer_get r i = Some (with_cycle u true)) /\
  producer_get r n = Some (link_trb 0 (pr_cycle r)) /\
  (length ts = n -> pr_cycle r = false /\ push r t = (r, Err Full)).
Proof.
  destruct (producer_new_inv n Hn) as (r1 & H1 & Hc & Hinv). rewrite H1 in Hnew.
  injection Hnew as <-. destruct (push_all_inv r1 [] ts Hinv) as (Ha & Hi & Hcap); [simpl; lia|].
  simpl in Hi. intros r. unfold producer_get. split_and!; [done|apply (pi_entries _ _ Hi)| |].
  - pose proof (pi_link _ _ Hi) as Hl. by rewrite Hcap, Hc in Hl.
  - intros Hfull. pose proof (pi_len _ _ Hi) as Hl. split.
    + unfold r. rewrite (pi_cycle _ _ Hi). apply bool_decide_false. lia.
    + unfold push. fold r in Hl, Hcap. rewrite bool_decide_true by lia. done.
Qed.

Example producer_ring_in_order_witness :
  (2 <= 3)%nat /\ (push_all (mk_ProducerRing (<[3 := link_trb 0 true]> (replicate 4 Trb_default)) 0 true 0)
     [Trb_default; Trb_default]).2 = Ok <$> seq 0 2.
Proof.
  split; [lia|].
  apply (producer_ring_in_order 3 [Trb_default; Trb_default] Trb_default); [lia|reflexivity|simpl; lia].
Defined.

(** C10: the event ring is a FIFO queue.  For every capacity [n > 0] and every
    sequence of publications (of events whose cycle bit is clear) and pops, a
    fresh [EventRing] gives, up to the cycle bit of the popped events, exactly
    the answers of a FIFO queue bounded by [n]: it never panics, never loses,
    duplicates or reorders an event, and answers [Full] and [Empty] exactly when
    the queue is full or empty, across any number of wrap-arounds. *)
Theorem event_ring_refines_fifo (n : nat) (r : EventRing) (os : list ring_op)
    (Hn : 0 < n) (Hnew : event_new n = Done r)
    (Hos : Forall (fun o => match o with Publish t => trb_cycle t = false | Pop => True end) os) :
  exists answers, ring_run r os = Done answers /\ strip_answer <$> answers = fifo_run n [] os.
Proof.
  destruct (event_new_inv n Hn) as (r1 & H1 & Hl & Hinv). rewrite H1 in Hnew.
  injection Hnew as <-. destruct (ring_refines_fifo r1 [] os Hinv Hos) as (l & Hr & Heq).
  exists l. by rewrite <- Hl.
Qed.

Definition sample_event (p : Z) : Trb := mk_Trb p 0 TRB_TYPE_TRANSFER_EVENT.

Example event_ring_refines_fifo_witness :
  exists answers,
    ring_run (mk_EventRing (replicate 2 Trb_default) 0 true 0 true 0)
      [Pop; Publish (sample_event 1); Publish (sample_event 2); Publish (sample_event 3); Pop;
       Publish (sample_event 4); Pop; Pop; Pop] = Done answers /\
    strip_answer <$> answers =
      fifo_run 2 [] [Pop; Publish (sample_event 1); Publish (sample_event 2);
        Publish (sample_event 3); Pop; Publish (sample_event 4); Pop; Pop; Pop].
Proof.
  apply (event_ring_refines_fifo 2); [lia|reflexivity|repeat constructor].
Defined.

(** [EventRing::publish] ORs the producer's cycle into the TRB instead of
    replacing the bit.  On the second lap an event that arrives with its own
    cycle bit set is stored with a cycle that can never match the consumer's, so
    the ring is stuck: it holds an event and every [pop] answers [Empty]. *)
Theorem event_publish_stale_cycle_sticks (t : Trb) (r : EventRing)
    (Hnew : event_new 1 = Done r) (Hc : trb_cycle t = true) :
  exists r1 r2, ring_step r (Publish Trb_default) = Done (r1, APublish (Ok tt)) /\
    (exists e, ring_step r1 Pop = Done (r2, APop (Ok e))) /\
    (exists r3, ring_step r2 (Publish t) = Done (r3, APublish (Ok tt)) /\
      used r3 = 1 /\ ring_step r3 Pop = Done (r3, APop (Err Empty))).
Proof.
  injection Hnew as <-.
  exists (mk_EventRing [mk_Trb 0 0 1] 0 true 0 false 1), (mk_EventRing [Trb_default] 0 false 0 false 0).
  split; [reflexivity|]. split; [eexists; reflexivity|].
  set (stored := mk_Trb (parameter t) (status t) (Z.lor (control t) 0)).
  exists (mk_EventRing [stored] 0 false 0 true 1). split; [reflexivity|]. split; [reflexivity|].
  assert (negb (Z.land (control stored) TRB_CYCLE =? 0)%Z = true) as Hs.
  { unfold stored. cbn [control]. rewrite Z.lor_0_r. exact Hc. }
  unfold ring_step, pop. cbn [used er_entries consumer consumer_cycle].
  change ([stored] !! 0) with (Some stored). cbn [unwrap mbind outcome_bind].
  by rewrite Hs.
Qed.

Example event_publish_stale_cycle_sticks_witness :
  exists r1 r2, ring_step (mk_EventRing [Trb_default] 0 true 0 true 0) (Publish Trb_default)
      = Done (r1, APublish (Ok tt)) /\
    (exists e, ring_step r1 Pop = Done (r2, APop (Ok e))) /\
    (exists r3, ring_step r2 (Publish (mk_Trb 0 0 1)) = Done (r3, APublish (Ok tt)) /\
      used r3 = 1 /\ ring_step r3 Pop = Done (r3, APop (Err Empty))).
Proof. apply event_publish_stale_cycle_sticks; reflexivity. Defined.
