(* ===== verification/UsbDesc.v ===== *)
(** * USB configuration descriptors: [xhci/usb.rs], parsing half

    A checked iterator over the descriptors of one configuration and the two
    selectors built on it: the HID Boot endpoint and the mass-storage interface.
    Every index of the source is an [idx] that panics out of range, so the
    absence of panics is a theorem and not an assumption. *)

From S2P Require Import Prelude Words.

(** @ xhci/usb.rs:105-112 DescriptorError *)
Inductive DescriptorError :=
  | Truncated | ZeroLength | InvalidLength | MissingDevice | MissingConfiguration | Unsupported.

(** @ xhci/usb.rs:115-122 HidBootEndpoint *)
Record HidBootEndpoint := mk_HidBootEndpoint {
  hid_configuration_value : Z;
  hid_interface_number : Z;
  hid_endpoint_address : Z;
  hid_max_packet_size : Z;
  hid_interval : Z;
  hid_protocol : Z;
}.

(** @ xhci/usb.rs:125-131 InterfaceDescriptor *)
Record InterfaceDescriptor := mk_InterfaceDescriptor {
  if_number : Z;
  if_alternate_setting : Z;
  if_class : Z;
  if_subclass : Z;
  if_protocol : Z;
}.

(** @ xhci/usb.rs:134-139 EndpointDescriptor *)
Record EndpointDescriptor := mk_EndpointDescriptor {
  ep_address : Z;
  ep_attributes : Z;
  ep_max_packet_size : Z;
  ep_interval : Z;
}.

(** @ xhci/usb.rs:142-147 MscBotInterface *)
Record MscBotInterface := mk_MscBotInterface {
  msc_configuration_value : Z;
  msc_interface_number : Z;
  msc_bulk_in : EndpointDescriptor;
  msc_bulk_out : EndpointDescriptor;
}.

(** @ xhci/usb.rs:151-154 ConfigurationDescriptor *)
Record ConfigurationDescriptor := mk_ConfigurationDescriptor {
  cd_bytes : list Z;
  cd_value : Z;
}.

(** @ xhci/usb.rs:195-198 DescriptorIter *)
Record DescriptorIter := mk_DescriptorIter {
  di_bytes : list Z;
  di_offset : Z;
}.

Abbreviation parser A := (outcome (result A DescriptorError)).

(** @ xhci/usb.rs:157-185 ConfigurationDescriptor::parse *)
Definition parse (data : list Z) : parser ConfigurationDescriptor :=
  if llen data <? 2 then Done (Err Truncated) else
  d0 ← idx data 0;
  if d0 =? 0 then Done (Err ZeroLength) else
  d1 ← idx data 1;
  if negb (d1 =? 2) then Done (Err MissingConfiguration) else
  if negb (d0 =? 9) then Done (Err InvalidLength) else
  if llen data <? 9 then Done (Err Truncated) else
  d2 ← idx data 2;
  d3 ← idx data 3;
  let total := from_le [d2; d3] in
  if (total <? 9) || (llen data <? total) then Done (Err Truncated) else
  d5 ← idx data 5;
  if d5 =? 0 then Done (Err MissingConfiguration) else
  bytes ← slice data 0 total;
  Done (Ok (mk_ConfigurationDescriptor bytes d5)).

(** @ xhci/usb.rs:187-192 ConfigurationDescriptor::descriptors *)
Definition descriptors (c : ConfigurationDescriptor) : DescriptorIter :=
  mk_DescriptorIter (cd_bytes c) 9.

(** @ xhci/usb.rs:201-225 DescriptorIter::next_raw *)
Definition next_raw (it : DescriptorIter) : parser (DescriptorIter * option (list Z)) :=
  if di_offset it =? llen (di_bytes it) then Done (Ok (it, None)) else
  rest ← sub_ovf (llen (di_bytes it)) (di_offset it);
  if rest <? 2 then Done (Err Truncated) else
  length ← idx (di_bytes it) (di_offset it);
  if length =? 0 then Done (Err ZeroLength) else
  if length <? 2 then Done (Err InvalidLength) else
  match checked_add 64 (di_offset it) length with
  | None => Done (Err Truncated)
  | Some end_ =>
      if llen (di_bytes it) <? end_ then Done (Err Truncated) else
      descriptor ← slice (di_bytes it) (di_offset it) end_;
      Done (Ok (mk_DescriptorIter (di_bytes it) end_, Some descriptor))
  end.

(** The interface descriptor read from a raw descriptor of type 4. *)
(** @ xhci/usb.rs:229-240 DescriptorIter::next_interface -- the body of the [raw[1] == 4] branch *)
Definition read_interface (raw : list Z) : parser InterfaceDescriptor :=
  if llen raw <? 9 then Done (Err InvalidLength) else
  r2 ← idx raw 2; r3 ← idx raw 3; r5 ← idx raw 5; r6 ← idx raw 6; r7 ← idx raw 7;
  Done (Ok (mk_InterfaceDescriptor r2 r3 r5 r6 r7)).

(** The loop of [next_interface]; each iteration consumes a descriptor, so the
    number of bytes bounds the number of iterations. *)
Fixpoint next_interface_loop (fuel : nat) (it : DescriptorIter)
    : parser (DescriptorIter * option InterfaceDescriptor) :=
  match fuel with
  | O => OutOfFuel
  | S fuel =>
      p ←? next_raw it;
      match p with
      | (it, None) => Done (Ok (it, None))
      | (it, Some raw) =>
          kind ← idx raw 1;
          if kind =? 4 then
            d ←? read_interface raw; Done (Ok (it, Some d))
          else next_interface_loop fuel it
      end
  end.

(** @ xhci/usb.rs:227-243 DescriptorIter::next_interface *)
Definition next_interface (it : DescriptorIter) :=
  next_interface_loop (S (length (di_bytes it))) it.

(** @ xhci/usb.rs:257-267 DescriptorIter::next_endpoint -- the body of the [raw[1] == 5] branch *)
Definition read_endpoint (raw : list Z) : parser EndpointDescriptor :=
  if llen raw <? 7 then Done (Err InvalidLength) else
  r2 ← idx raw 2; r3 ← idx raw 3; r4 ← idx raw 4; r5 ← idx raw 5; r6 ← idx raw 6;
  Done (Ok (mk_EndpointDescriptor r2 (Z.land r3 0x03) (Z.land (from_le [r4; r5]) 0x07ff) r6)).

Fixpoint next_endpoint_loop (fuel : nat) (it : DescriptorIter)
    : parser (DescriptorIter * option EndpointDescriptor) :=
  match fuel with
  | O => OutOfFuel
  | S fuel =>
      if negb (di_offset it <? llen (di_bytes it)) then Done (Ok (it, None)) else
      let start := di_offset it in
      p ←? next_raw it;
      match p with
      | (it, None) => Done (Ok (it, None))
      | (it, Some raw) =>
          kind ← idx raw 1;
          if kind =? 4 then Done (Ok (mk_DescriptorIter (di_bytes it) start, None)) else
          kind ← idx raw 1;
          if kind =? 5 then
            d ←? read_endpoint raw; Done (Ok (it, Some d))
          else next_endpoint_loop fuel it
      end
  end.

(** @ xhci/usb.rs:245-270 DescriptorIter::next_endpoint *)
Definition next_endpoint (it : DescriptorIter) :=
  next_endpoint_loop (S (length (di_bytes it))) it.

(** ** The HID Boot selector *)

(** @ xhci/usb.rs:279-282 parse_hid_boot_endpoint -- the [hid_boot] flag *)
Definition hid_boot (i : InterfaceDescriptor) : bool :=
  (if_alternate_setting i =? 0) && (if_class i =? 0x03) && (if_subclass i =? 0x01)
  && ((if_protocol i =? 1) || (if_protocol i =? 2)).

(** @ xhci/usb.rs:284-289 parse_hid_boot_endpoint -- the endpoint test *)
Definition hid_endpoint_ok (i : InterfaceDescriptor) (e : EndpointDescriptor) : bool :=
  hid_boot i && negb (Z.land (ep_address e) 0x80 =? 0) && (ep_attributes e =? 0x03)
  && negb (ep_max_packet_size e =? 0) && negb (ep_interval e =? 0).

(** @ xhci/usb.rs:293-300 parse_hid_boot_endpoint -- the selected endpoint *)
Definition hid_endpoint_of (c : ConfigurationDescriptor) (i : InterfaceDescriptor)
    (e : EndpointDescriptor) : HidBootEndpoint :=
  mk_HidBootEndpoint (cd_value c) (if_number i) (ep_address e) (ep_max_packet_size e)
    (ep_interval e) (if_protocol i).

Fixpoint hid_endpoints_loop (fuel : nat) (c : ConfigurationDescriptor) (i : InterfaceDescriptor)
    (it : DescriptorIter) (selected : option HidBootEndpoint)
    : parser (DescriptorIter * option HidBootEndpoint) :=
  match fuel with
  | O => OutOfFuel
  | S fuel =>
      p ←? next_endpoint it;
      match p with
      | (it, None) => Done (Ok (it, selected))
      | (it, Some e) =>
          if hid_endpoint_ok i e then
            match selected with
            | Some _ => Done (Err Unsupported)
            | None => hid_endpoints_loop fuel c i it (Some (hid_endpoint_of c i e))
            end
          else hid_endpoints_loop fuel c i it selected
      end
  end.

Fixpoint hid_interfaces_loop (fuel : nat) (c : ConfigurationDescriptor)
    (it : DescriptorIter) (selected : option HidBootEndpoint)
    : parser (option HidBootEndpoint) :=
  match fuel with
  | O => OutOfFuel
  | S fuel =>
      p ←? next_interface it;
      match p with
      | (it, None) => Done (Ok selected)
      | (it, Some i) =>
          q ←? hid_endpoints_loop (S (length (di_bytes it))) c i it selected;
          hid_interfaces_loop fuel c q.1 q.2
      end
  end.

(** @ xhci/usb.rs:274-305 parse_hid_boot_endpoint *)
Definition parse_hid_boot_endpoint (data : list Z) : parser HidBootEndpoint :=
  configuration ←? parse data;
  selected ←? hid_interfaces_loop (S (length (cd_bytes configuration))) configuration
                (descriptors configuration) None;
  Done (ok_or selected Unsupported).

(** @ xhci/usb.rs:346-348 parse_configuration *)
Definition parse_configuration (data : list Z) : parser HidBootEndpoint :=
  parse_hid_boot_endpoint data.

(** ** The mass-storage selector *)

(** @ xhci/usb.rs:313-316 parse_msc_bot_interface -- the [bot] flag *)
Definition bot_interface (i : InterfaceDescriptor) : bool :=
  (if_alternate_setting i =? 0) && (if_class i =? 0x08) && (if_subclass i =? 0x06)
  && (if_protocol i =? 0x50).

(** @ xhci/usb.rs:318-328 parse_msc_bot_interface -- one endpoint of the inner loop *)
Definition msc_endpoint_step (i : InterfaceDescriptor) (e : EndpointDescriptor)
    (pair : option EndpointDescriptor * option EndpointDescriptor)
    : result (option EndpointDescriptor * option EndpointDescriptor) DescriptorError :=
  let '(bulk_in, bulk_out) := pair in
  if bot_interface i && (ep_attributes e =? 0x02) && negb (ep_max_packet_size e =? 0) then
    if negb (Z.land (ep_address e) 0x80 =? 0) then
      match bulk_in with Some _ => Err Unsupported | None => Ok (Some e, bulk_out) end
    else
      match bulk_out with Some _ => Err Unsupported | None => Ok (bulk_in, Some e) end
  else Ok pair.

Fixpoint msc_endpoints_loop (fuel : nat) (i : InterfaceDescriptor) (it : DescriptorIter)
    (pair : option EndpointDescriptor * option EndpointDescriptor)
    : parser (DescriptorIter * (option EndpointDescriptor * option EndpointDescriptor)) :=
  match fuel with
  | O => OutOfFuel
  | S fuel =>
      p ←? next_endpoint it;
      match p with
      | (it, None) => Done (Ok (it, pair))
      | (it, Some e) =>
          pair ←? Done (msc_endpoint_step i e pair);
          msc_endpoints_loop fuel i it pair
      end
  end.

Fixpoint msc_interfaces_loop (fuel : nat) (c : ConfigurationDescriptor)
    (it : DescriptorIter) (selected : option MscBotInterface)
    : parser (option MscBotInterface) :=
  match fuel with
  | O => OutOfFuel
  | S fuel =>
      p ←? next_interface it;
      match p with
      | (it, None) => Done (Ok selected)
      | (it, Some i) =>
          q ←? msc_endpoints_loop (S (length (di_bytes it))) i it (None, None);
          match bot_interface i, q.2 with
          | true, (Some bulk_in, Some bulk_out) =>
              match selected with
              | Some _ => Done (Err Unsupported)
              | None => msc_interfaces_loop fuel c q.1
                  (Some (mk_MscBotInterface (cd_value c) (if_number i) bulk_in bulk_out))
              end
          | _, _ => msc_interfaces_loop fuel c q.1 selected
          end
      end
  end.

(** @ xhci/usb.rs:308-343 parse_msc_bot_interface *)
Definition parse_msc_bot_interface (data : list Z) : parser MscBotInterface :=
  configuration ←? parse data;
  selected ←? msc_interfaces_loop (S (length (cd_bytes configuration))) configuration
                (descriptors configuration) None;
  Done (ok_or selected Unsupported).

(** ** The reference: descriptors as a token stream

    [lex] cuts a byte string into length-prefixed descriptors and says how the
    cutting ended.  The selectors are then folds over the tokens. *)

Fixpoint lex_fuel (fuel : nat) (l : list Z) : list (list Z) * option DescriptorError :=
  match fuel with
  | O => ([], None)
  | S fuel =>
      match l with
      | [] => ([], None)
      | [_] => ([], Some Truncated)
      | b :: _ =>
          if b =? 0 then ([], Some ZeroLength)
          else if b <? 2 then ([], Some InvalidLength)
          else if llen l <? b then ([], Some Truncated)
          else let '(toks, err) := lex_fuel fuel (drop (Z.to_nat b) l) in
               (take (Z.to_nat b) l :: toks, err)
      end
  end.
Definition lex (l : list Z) := lex_fuel (length l) l.

Definition token_kind (t : list Z) : Z := t !!! 1%nat.
Definition interface_of_token (t : list Z) : InterfaceDescriptor :=
  mk_InterfaceDescriptor (t !!! 2%nat) (t !!! 3%nat) (t !!! 5%nat) (t !!! 6%nat) (t !!! 7%nat).
Definition endpoint_of_token (t : list Z) : EndpointDescriptor :=
  mk_EndpointDescriptor (t !!! 2%nat) (Z.land (t !!! 3%nat) 0x03)
    (Z.land (from_le [t !!! 4%nat; t !!! 5%nat]) 0x07ff) (t !!! 6%nat).

(** What one [next_endpoint] (resp. [next_interface]) does to the tokens. *)
Fixpoint endpoint_scan (toks : list (list Z)) (err : option DescriptorError)
    : result (option EndpointDescriptor * list (list Z)) DescriptorError :=
  match toks with
  | [] => match err with Some e => Err e | None => Ok (None, []) end
  | t :: ts =>
      if token_kind t =? 4 then Ok (None, t :: ts)
      else if token_kind t =? 5 then
        if llen t <? 7 then Err InvalidLength else Ok (Some (endpoint_of_token t), ts)
      else endpoint_scan ts err
  end.
Fixpoint interface_scan (toks : list (list Z)) (err : option DescriptorError)
    : result (option InterfaceDescriptor * list (list Z)) DescriptorError :=
  match toks with
  | [] => match err with Some e => Err e | None => Ok (None, []) end
  | t :: ts =>
      if token_kind t =? 4 then
        if llen t <? 9 then Err InvalidLength else Ok (Some (interface_of_token t), ts)
      else interface_scan ts err
  end.

(** The HID selector as one pass over the tokens, remembering the interface the
    endpoints belong to and the endpoint selected so far. *)
Fixpoint hid_select (c : ConfigurationDescriptor) (cur : option InterfaceDescriptor)
    (sel : option HidBootEndpoint) (toks : list (list Z)) (err : option DescriptorError)
    : result (option HidBootEndpoint) DescriptorError :=
  match toks with
  | [] => match err with Some e => Err e | None => Ok sel end
  | t :: ts =>
      if token_kind t =? 4 then
        if llen t <? 9 then Err InvalidLength
        else hid_select c (Some (interface_of_token t)) sel ts err
      else match cur with
      | None => hid_select c None sel ts err
      | Some i =>
          if token_kind t =? 5 then
            if llen t <? 7 then Err InvalidLength
            else if hid_endpoint_ok i (endpoint_of_token t) then
              match sel with
              | Some _ => Err Unsupported
              | None => hid_select c cur (Some (hid_endpoint_of c i (endpoint_of_token t))) ts err
              end
            else hid_select c cur sel ts err
          else hid_select c cur sel ts err
      end
  end.

(** The mass-storage selector the same way: the two slots of the current
    interface, committed when the next interface (or the end) is reached. *)
Definition msc_commit (c : ConfigurationDescriptor) (i : InterfaceDescriptor)
    (pair : option EndpointDescriptor * option EndpointDescriptor) (sel : option MscBotInterface)
    : result (option MscBotInterface) DescriptorError :=
  match bot_interface i, pair with
  | true, (Some bulk_in, Some bulk_out) =>
      match sel with
      | Some _ => Err Unsupported
      | None => Ok (Some (mk_MscBotInterface (cd_value c) (if_number i) bulk_in bulk_out))
      end
  | _, _ => Ok sel
  end.

Fixpoint msc_select (c : ConfigurationDescriptor)
    (cur : option (InterfaceDescriptor * (option EndpointDescriptor * option EndpointDescriptor)))
    (sel : option MscBotInterface) (toks : list (list Z)) (err : option DescriptorError)
    : result (option MscBotInterface) DescriptorError :=
  match toks with
  | [] =>
      match err, cur with
      | Some e, _ => Err e
      | None, None => Ok sel
      | None, Some (i, slots) => msc_commit c i slots sel
      end
  | t :: ts =>
      if token_kind t =? 4 then
        match (match cur with Some (i, slots) => msc_commit c i slots sel | None => Ok sel end) with
        | Err e => Err e
        | Ok sel =>
            if llen t <? 9 then Err InvalidLength
            else msc_select c (Some (interface_of_token t, (None, None))) sel ts err
        end
      else match cur with
      | None => msc_select c None sel ts err
      | Some (i, slots) =>
          if token_kind t =? 5 then
            if llen t <? 7 then Err InvalidLength
            else match msc_endpoint_step i (endpoint_of_token t) slots with
                 | Err e => Err e
                 | Ok slots => msc_select c (Some (i, slots)) sel ts err
                 end
          else msc_select c cur sel ts err
      end
  end.

(** ** The iterator on tokens *)

Definition rest (it : DescriptorIter) : list Z := drop (Z.to_nat (di_offset it)) (di_bytes it).
Definition lexes (it : DescriptorIter) (toks : list (list Z)) (err : option DescriptorError) : Prop :=
  lex (rest it) = (toks, err).

(** Slices are at most [isize::MAX] bytes long. *)
Record iter_ok (it : DescriptorIter) : Prop := {
  io_bytes : bytes (di_bytes it);
  io_len : llen (di_bytes it) < 2 ^ 63;
  io_offset : 0 <= di_offset it <= llen (di_bytes it);
}.

Definition advance (it : DescriptorIter) (raw : list Z) : DescriptorIter :=
  mk_DescriptorIter (di_bytes it) (di_offset it + llen raw).

Lemma lex_fuel_irrel f g l : (length l <= f)%nat -> (length l <= g)%nat -> lex_fuel f l = lex_fuel g l.
Proof.
  revert g l. induction f as [|f IH]; intros g l Hf Hg.
  - destruct l; [|simpl in Hf; lia]. by destruct g.
  - destruct l as [|b [|b' l]]; [by destruct g|destruct g; [simpl in Hg; lia|done]|].
    destruct g as [|g]; [simpl in Hg; lia|].
    cbn [lex_fuel]. destruct (Z.eqb_spec b 0), (Z.ltb_spec b 2), (Z.ltb_spec (llen (b :: b' :: l)) b); try done.
    rewrite (IH g); [done| |]; rewrite length_drop; simpl length in *; lia.
Qed.

(** One token of the stream. *)
Lemma lex_step b b' l :
  2 <= b -> b <= llen (b :: b' :: l) ->
  lex (b :: b' :: l) =
    let '(toks, err) := lex (drop (Z.to_nat b) (b :: b' :: l)) in
    (take (Z.to_nat b) (b :: b' :: l) :: toks, err).
Proof.
  intros H2 Hl. unfold lex at 1. change (length (b :: b' :: l)) with (S (S (length l))).
  remember (S (length l)) as n eqn:Hn. cbn [lex_fuel].
  rewrite (proj2 (Z.eqb_neq b 0)), (proj2 (Z.ltb_ge b 2)), (proj2 (Z.ltb_ge _ b)) by lia.
  unfold lex. rewrite (lex_fuel_irrel n (length (drop (Z.to_nat b) (b :: b' :: l)))); [done| |done].
  rewrite length_drop. simpl length. lia.
Qed.

(** What [next_raw] does, read off the token stream. *)
Lemma next_raw_lexes it toks err :
  iter_ok it -> lexes it toks err ->
  match toks with
  | t :: ts =>
      next_raw it = Done (Ok (advance it t, Some t)) /\ 2 <= llen t /\
      iter_ok (advance it t) /\ lexes (advance it t) ts err
  | [] =>
      match err with
      | None => next_raw it = Done (Ok (it, None)) /\ di_offset it = llen (di_bytes it)
      | Some e => next_raw it = Done (Err e) /\ di_offset it < llen (di_bytes it)
      end
  end.
Proof.
  intros [Hb Hlen Ho] Hlex. unfold lexes, rest in Hlex.
  unfold next_raw. destruct (Z.eqb_spec (di_offset it) (llen (di_bytes it))) as [He|He].
  - rewrite drop_ge in Hlex by (unfold llen in He; lia). cbv in Hlex. simplify_eq. done.
  - unfold sub_ovf. rewrite (proj2 (Z.leb_le _ _)) by lia. cbn [mbind outcome_bind].
    destruct (drop (Z.to_nat (di_offset it)) (di_bytes it)) as [|b r] eqn:Er.
    { apply (f_equal length) in Er. rewrite length_drop in Er. unfold llen in *. simpl in Er. lia. }
    assert (llen (di_bytes it) = di_offset it + llen (b :: r)) as Hll.
    { apply (f_equal length) in Er. rewrite length_drop in Er. unfold llen in *. lia. }
    destruct r as [|b' r].
    { unfold lex in Hlex. simpl in Hlex. simplify_eq. rewrite Hll.
      rewrite (proj2 (Z.ltb_lt _ 2)) by (unfold llen; simpl; lia). split; [done|]. unfold llen; simpl; lia. }
    rewrite (proj2 (Z.ltb_ge _ 2)) by (rewrite Hll; unfold llen; simpl; lia).
    assert (idx (di_bytes it) (di_offset it) = Done b) as ->.
    { apply idx_Done. split; [lia|]. rewrite <- (Nat.add_0_r (Z.to_nat _)), <- lookup_drop, Er. done. }
    assert (is_byte b) as Hbb.
    { eapply Forall_forall; [exact Hb|]. apply list_elem_of_lookup. exists (Z.to_nat (di_offset it)).
      rewrite <- (Nat.add_0_r (Z.to_nat _)), <- lookup_drop, Er. done. }
    cbn [mbind outcome_bind]. unfold is_byte in Hbb.
    destruct (Z.eqb_spec b 0) as [->|]; [unfold lex in Hlex; simpl in Hlex; simplify_eq; split; [done|lia]|].
    destruct (Z.ltb_spec b 2).
    { assert (b = 1) as -> by lia. unfold lex in Hlex; simpl in Hlex; simplify_eq. split; [done|lia]. }
    unfold checked_add. rewrite (proj2 (Z.ltb_lt _ (2 ^ 64))) by lia.
    destruct (Z.ltb_spec (llen (di_bytes it)) (di_offset it + b)) as [Hlt|Hge].
    { unfold lex in Hlex. cbn [length lex_fuel] in Hlex.
      rewrite (proj2 (Z.eqb_neq b 0)), (proj2 (Z.ltb_ge b 2)), (proj2 (Z.ltb_lt _ b)) in Hlex by lia.
      simplify_eq. split; [done|lia]. }
    rewrite lex_step in Hlex by lia.
    destruct (lex (drop (Z.to_nat b) (b :: b' :: r))) as [ts e] eqn:Ets.
    injection Hlex as <- <-.
    rewrite slice_in_range by lia. cbn [mbind outcome_bind].
    replace (di_offset it + b - di_offset it) with b by lia. rewrite Er.
    assert (llen (take (Z.to_nat b) (b :: b' :: r)) = b) as Ht.
    { unfold llen in *. rewrite length_take. lia. }
    unfold advance. rewrite Ht. split; [done|]. split; [lia|]. split.
    + split; simpl; [done|lia|lia].
    + unfold lexes, rest. simpl. rewrite Z2Nat.inj_add by lia. rewrite <- drop_drop, Er. done.
Qed.

Lemma lex_fuel_short f l : (length (lex_fuel f l).1 <= length l)%nat.
Proof.
  revert l. induction f as [|f IH]; intros l; [simpl; lia|].
  destruct l as [|b [|b' l]]; cbn [lex_fuel]; [simpl; lia..|].
  destruct (Z.eqb_spec b 0), (Z.ltb_spec b 2), (Z.ltb_spec (llen (b :: b' :: l)) b);
    try (simpl; lia).
  specialize (IH (drop (Z.to_nat b) (b :: b' :: l))). rewrite length_drop in IH.
  destruct (lex_fuel f _). simpl length in *. lia.
Qed.

Lemma lexes_short it toks err :
  lexes it toks err -> (length toks <= length (di_bytes it))%nat.
Proof.
  intros H. pose proof (lex_fuel_short (length (rest it)) (rest it)) as Hs.
  unfold lexes, lex in H. rewrite H in Hs. unfold rest in Hs. rewrite length_drop in Hs. simpl in Hs. lia.
Qed.

Lemma idx_total (l : list Z) i : 0 <= i < llen l -> idx l i = Done (l !!! Z.to_nat i).
Proof.
  intros H. apply idx_Done. split; [lia|].
  apply list_lookup_lookup_total_lt. unfold llen in H. lia.
Qed.

Lemma token_kind_idx t : 2 <= llen t -> idx t 1 = Done (token_kind t).
Proof. intros. apply idx_total. lia. Qed.

Lemma read_interface_total t :
  read_interface t = Done (if llen t <? 9 then Err InvalidLength else Ok (interface_of_token t)).
Proof.
  unfold read_interface, interface_of_token. destruct (Z.ltb_spec (llen t) 9); [done|].
  by rewrite !idx_total by lia.
Qed.

Lemma read_endpoint_total t :
  read_endpoint t = Done (if llen t <? 7 then Err InvalidLength else Ok (endpoint_of_token t)).
Proof.
  unfold read_endpoint, endpoint_of_token. destruct (Z.ltb_spec (llen t) 7); [done|].
  by rewrite !idx_total by lia.
Qed.

(** The iterator [it'] reached from [it] holds the tokens [ts]. *)
Definition reached (it it' : DescriptorIter) (ts : list (list Z)) (err : option DescriptorError) : Prop :=
  iter_ok it' /\ di_bytes it' = di_bytes it /\ lexes it' ts err.

Definition scanned {A} (r : outcome (result (DescriptorIter * option A) DescriptorError))
    (s : result (option A * list (list Z)) DescriptorError) (it : DescriptorIter)
    (err : option DescriptorError) : Prop :=
  match s with
  | Err e => r = Done (Err e)
  | Ok (d, ts) => exists it', r = Done (Ok (it', d)) /\ reached it it' ts err
  end.

Lemma next_interface_loop_scan toks : forall fuel it err,
  iter_ok it -> lexes it toks err -> (length toks < fuel)%nat ->
  scanned (next_interface_loop fuel it) (interface_scan toks err) it err.
Proof.
  induction toks as [|t ts IH]; intros [|fuel] it err Hok Hlex Hf; simpl in Hf; try lia;
    pose proof (next_raw_lexes it _ err Hok Hlex) as Hn; cbn [next_interface_loop interface_scan].
  - destruct err as [e|]; destruct Hn as [-> _]; simpl; [done|]. exists it. done.
  - destruct Hn as (-> & H2 & Hok' & Hlex'). cbn [try_bind]. rewrite token_kind_idx by done.
    cbn [mbind outcome_bind]. destruct (token_kind t =? 4).
    + rewrite read_interface_total. destruct (llen t <? 9); simpl; [done|].
      exists (advance it t). done.
    + apply (IH fuel (advance it t) err); auto; lia.
Qed.

Lemma next_endpoint_loop_scan toks : forall fuel it err,
  iter_ok it -> lexes it toks err -> (length toks < fuel)%nat ->
  scanned (next_endpoint_loop fuel it) (endpoint_scan toks err) it err.
Proof.
  induction toks as [|t ts IH]; intros [|fuel] it err Hok Hlex Hf; simpl in Hf; try lia;
    pose proof (next_raw_lexes it _ err Hok Hlex) as Hn; cbn [next_endpoint_loop endpoint_scan].
  - destruct err as [e|]; destruct Hn as [Hn Ho].
    + rewrite (proj2 (Z.ltb_lt _ _)) by done. simpl. by rewrite Hn.
    + rewrite (proj2 (Z.ltb_ge _ _)) by lia. simpl. exists it. done.
  - destruct Hn as (-> & H2 & Hok' & Hlex').
    destruct (Z.ltb_spec (di_offset it) (llen (di_bytes it))) as [Hlt|Hge].
    2: { exfalso. pose proof (io_offset _ Hok). pose proof (io_offset _ Hok') as Ho'. simpl in Ho'. lia. }
    cbn [negb try_bind]. rewrite !token_kind_idx by done. cbn [mbind outcome_bind].
    destruct (token_kind t =? 4).
    + exists it. split; [by destruct it|]. done.
    + destruct (token_kind t =? 5).
      * rewrite read_endpoint_total. destruct (llen t <? 7); simpl; [done|].
        exists (advance it t). done.
      * apply (IH fuel (advance it t) err); auto; lia.
Qed.

Lemma next_interface_scan it toks err :
  iter_ok it -> lexes it toks err ->
  scanned (next_interface it) (interface_scan toks err) it err.
Proof.
  intros Hok Hlex. apply next_interface_loop_scan; auto.
  apply lexes_short in Hlex. lia.
Qed.

Lemma next_endpoint_scan it toks err :
  iter_ok it -> lexes it toks err ->
  scanned (next_endpoint it) (endpoint_scan toks err) it err.
Proof.
  intros Hok Hlex. apply next_endpoint_loop_scan; auto.
  apply lexes_short in Hlex. lia.
Qed.

Lemma endpoint_scan_shorter toks err d ts :
  endpoint_scan toks err = Ok (d, ts) ->
  (length ts <= length toks)%nat /\ (d <> None -> (length ts < length toks)%nat).
Proof.
  induction toks as [|t toks IH]; simpl.
  - destruct err; [done|]. intros [= <- <-]. done.
  - destruct (token_kind t =? 4); [intros [= <- <-]; simpl; split; [lia|done]|].
    destruct (token_kind t =? 5).
    + destruct (llen t <? 7); [done|]. intros [= <- <-]. split; lia.
    + intros Hs. destruct (IH Hs) as [Hle Hlt]. split; [lia|]. intros Hd. specialize (Hlt Hd). lia.
Qed.

Lemma interface_scan_shorter toks err d ts :
  interface_scan toks err = Ok (Some d, ts) -> (length ts < length toks)%nat.
Proof.
  induction toks as [|t toks IH]; simpl.
  - by destruct err.
  - destruct (token_kind t =? 4).
    + destruct (llen t <? 9); [done|]. intros [= <- <-]. lia.
    + intros Hs. specialize (IH Hs). lia.
Qed.

(** The fold of the HID selector, one scan at a time. *)
Lemma hid_select_endpoint c i sel toks err :
  hid_select c (Some i) sel toks err =
    match endpoint_scan toks err with
    | Err e => Err e
    | Ok (None, ts) => hid_select c None sel ts err
    | Ok (Some e, ts) =>
        if hid_endpoint_ok i e then
          match sel with
          | Some _ => Err Unsupported
          | None => hid_select c (Some i) (Some (hid_endpoint_of c i e)) ts err
          end
        else hid_select c (Some i) sel ts err
    end.
Proof.
  induction toks as [|t ts IH]; cbn [hid_select endpoint_scan]; [by destruct err|].
  destruct (token_kind t =? 4) eqn:E4; [cbn [hid_select]; by rewrite E4|].
  destruct (token_kind t =? 5); [|exact IH]. by destruct (llen t <? 7).
Qed.

Lemma hid_select_interface c sel toks err :
  hid_select c None sel toks err =
    match interface_scan toks err with
    | Err e => Err e
    | Ok (None, _) => Ok sel
    | Ok (Some i, ts) => hid_select c (Some i) sel ts err
    end.
Proof.
  induction toks as [|t ts IH]; cbn [hid_select interface_scan]; [by destruct err|].
  destruct (token_kind t =? 4); [|exact IH]. by destruct (llen t <? 9).
Qed.

(** The inner loop stops with the error of the fold, or in a state from which
    the fold goes on as from a fresh interface. *)
Definition hid_inner_ok c i it sel toks err (r : parser (DescriptorIter * option HidBootEndpoint)) : Prop :=
  match r with
  | Done (Err e) => hid_select c (Some i) sel toks err = Err e
  | Done (Ok (it', sel')) => exists ts,
      reached it it' ts err /\ (length ts <= length toks)%nat /\
      hid_select c (Some i) sel toks err = hid_select c None sel' ts err
  | _ => False
  end.

Lemma reached_trans it it1 it2 toks1 toks2 err :
  reached it it1 toks1 err -> reached it1 it2 toks2 err -> reached it it2 toks2 err.
Proof. unfold reached. intuition congruence. Qed.

Lemma hid_inner_step c i it it1 sel sel1 toks ts err r :
  reached it it1 ts err -> (length ts <= length toks)%nat ->
  hid_select c (Some i) sel toks err = hid_select c (Some i) sel1 ts err ->
  hid_inner_ok c i it1 sel1 ts err r -> hid_inner_ok c i it sel toks err r.
Proof.
  intros Hr Hl Heq. unfold hid_inner_ok. rewrite Heq.
  destruct r as [[[it' sel']|e]| |]; try done.
  intros (ts' & Hr' & Hl' & Heq'). exists ts'. split; [by eapply reached_trans|]. split; [lia|done].
Qed.

Lemma hid_endpoints_loop_select c i : forall fuel it sel toks err,
  iter_ok it -> lexes it toks err -> (length toks < fuel)%nat ->
  hid_inner_ok c i it sel toks err (hid_endpoints_loop fuel c i it sel).
Proof.
  induction fuel as [|fuel IH]; intros it sel toks err Hok Hlex Hf; [lia|].
  pose proof (next_endpoint_scan it toks err Hok Hlex) as Hn. unfold scanned in Hn.
  pose proof (hid_select_endpoint c i sel toks err) as Hsel.
  cbn [hid_endpoints_loop]. destruct (endpoint_scan toks err) as [[[e|] ts]|e] eqn:Es.
  - destruct Hn as (it' & -> & Hr). apply endpoint_scan_shorter in Es as [_ Hlt].
    specialize (Hlt ltac:(done)). destruct Hr as (Hok' & Hb & Hlex'). simpl.
    destruct (hid_endpoint_ok i e).
    + destruct sel; [done|]. eapply (hid_inner_step _ _ _ it'); [done|lia|exact Hsel|].
      apply IH; auto; lia.
    + eapply (hid_inner_step _ _ _ it'); [done|lia|exact Hsel|]. apply IH; auto; lia.
  - destruct Hn as (it' & -> & Hr). apply endpoint_scan_shorter in Es as [Hle _].
    simpl. by exists ts.
  - by rewrite Hn.
Qed.

Lemma hid_interfaces_loop_select c : forall fuel it sel toks err,
  iter_ok it -> lexes it toks err -> (length toks < fuel)%nat ->
  hid_interfaces_loop fuel c it sel = Done (hid_select c None sel toks err).
Proof.
  induction fuel as [|fuel IH]; intros it sel toks err Hok Hlex Hf; [lia|].
  pose proof (next_interface_scan it toks err Hok Hlex) as Hn. unfold scanned in Hn.
  rewrite hid_select_interface. cbn [hid_interfaces_loop].
  destruct (interface_scan toks err) as [[[i|] ts]|e] eqn:Es.
  - destruct Hn as (it' & -> & Hok' & Hb & Hlex'). apply interface_scan_shorter in Es. cbn [try_bind].
    pose proof (lexes_short _ _ _ Hlex') as Hs.
    pose proof (hid_endpoints_loop_select c i (S (length (di_bytes it'))) it' sel ts err
      Hok' Hlex' ltac:(lia)) as Hi.
    destruct (hid_endpoints_loop _ c i it' sel) as [[[it2 sel2]|e]| |]; try done.
    + destruct Hi as (ts2 & (Hok2 & _ & Hlex2) & Hl2 & ->). simpl. apply IH; auto; lia.
    + simpl in *. by rewrite Hi.
  - destruct Hn as (it' & -> & _). done.
  - by rewrite Hn.
Qed.

(** The same for the mass-storage selector. *)
Definition msc_finish c i slots sel ts err :=
  match msc_commit c i slots sel with
  | Err e => Err e
  | Ok sel => msc_select c None sel ts err
  end.

Lemma msc_select_endpoint c i slots sel toks err :
  msc_select c (Some (i, slots)) sel toks err =
    match endpoint_scan toks err with
    | Err e => Err e
    | Ok (None, ts) => msc_finish c i slots sel ts err
    | Ok (Some e, ts) =>
        match msc_endpoint_step i e slots with
        | Err e => Err e
        | Ok slots => msc_select c (Some (i, slots)) sel ts err
        end
    end.
Proof.
  unfold msc_finish. induction toks as [|t ts IH]; cbn [msc_select endpoint_scan].
  { destruct err; [done|]. simpl. by destruct (msc_commit c i slots sel). }
  destruct (token_kind t =? 4) eqn:E4; [cbn [msc_select]; by rewrite E4|].
  destruct (token_kind t =? 5); [|exact IH]. by destruct (llen t <? 7).
Qed.

Lemma msc_select_interface c sel toks err :
  msc_select c None sel toks err =
    match interface_scan toks err with
    | Err e => Err e
    | Ok (None, _) => Ok sel
    | Ok (Some i, ts) => msc_select c (Some (i, (None, None))) sel ts err
    end.
Proof.
  induction toks as [|t ts IH]; cbn [msc_select interface_scan]; [by destruct err|].
  destruct (token_kind t =? 4); [|exact IH]. by destruct (llen t <? 9).
Qed.

Definition msc_inner_ok c i it slots sel toks err
    (r : parser (DescriptorIter * (option EndpointDescriptor * option EndpointDescriptor))) : Prop :=
  match r with
  | Done (Err e) => msc_select c (Some (i, slots)) sel toks err = Err e
  | Done (Ok (it', slots')) => exists ts,
      reached it it' ts err /\ (length ts <= length toks)%nat /\
      msc_select c (Some (i, slots)) sel toks err = msc_finish c i slots' sel ts err
  | _ => False
  end.

Lemma msc_endpoints_loop_select c i sel : forall fuel it slots toks err,
  iter_ok it -> lexes it toks err -> (length toks < fuel)%nat ->
  msc_inner_ok c i it slots sel toks err (msc_endpoints_loop fuel i it slots).
Proof.
  induction fuel as [|fuel IH]; intros it slots toks err Hok Hlex Hf; [lia|].
  pose proof (next_endpoint_scan it toks err Hok Hlex) as Hn. unfold scanned in Hn.
  pose proof (msc_select_endpoint c i slots sel toks err) as Hsel.
  cbn [msc_endpoints_loop]. destruct (endpoint_scan toks err) as [[[e|] ts]|e] eqn:Es.
  - destruct Hn as (it' & -> & Hr). apply endpoint_scan_shorter in Es as [_ Hlt].
    specialize (Hlt ltac:(done)). pose proof Hr as (Hok' & Hb & Hlex'). cbn [try_bind].
    destruct (msc_endpoint_step i e slots) as [slots'|e']; [|done]. cbn [try_bind].
    pose proof (IH it' slots' ts err Hok' Hlex' ltac:(lia)) as Hi.
    unfold msc_inner_ok in *. rewrite Hsel.
    destruct (msc_endpoints_loop fuel i it' slots') as [[[it2 s2]|]| |]; try done.
    destruct Hi as (ts2 & Hr2 & Hl2 & Heq). exists ts2.
    split; [by eapply reached_trans|]. split; [lia|done].
  - destruct Hn as (it' & -> & Hr). apply endpoint_scan_shorter in Es as [Hle _].
    simpl. by exists ts.
  - by rewrite Hn.
Qed.

Lemma msc_interfaces_loop_select c : forall fuel it sel toks err,
  iter_ok it -> lexes it toks err -> (length toks < fuel)%nat ->
  msc_interfaces_loop fuel c it sel = Done (msc_select c None sel toks err).
Proof.
  induction fuel as [|fuel IH]; intros it sel toks err Hok Hlex Hf; [lia|].
  pose proof (next_interface_scan it toks err Hok Hlex) as Hn. unfold scanned in Hn.
  rewrite msc_select_interface. cbn [msc_interfaces_loop].
  destruct (interface_scan toks err) as [[[i|] ts]|e] eqn:Es.
  - destruct Hn as (it' & -> & Hok' & Hb & Hlex'). apply interface_scan_shorter in Es. cbn [try_bind].
    pose proof (lexes_short _ _ _ Hlex') as Hs.
    pose proof (msc_endpoints_loop_select c i sel (S (length (di_bytes it'))) it' (None, None) ts err
      Hok' Hlex' ltac:(lia)) as Hi.
    destruct (msc_endpoints_loop _ i it' _) as [[[it2 slots2]|e]| |]; try done.
    + destruct Hi as (ts2 & (Hok2 & _ & Hlex2) & Hl2 & ->). cbn [try_bind snd fst].
      unfold msc_finish, msc_commit. destruct (bot_interface i), slots2 as [[bi|] [bo|]];
        try (apply IH; auto; lia).
      destruct sel; [done|]. apply IH; auto; lia.
    + simpl in *. by rewrite Hi.
  - destruct Hn as (it' & -> & _). done.
  - by rewrite Hn.
Qed.

(** ** The configuration header *)

(** What the nine bytes of a configuration descriptor must say, and the parsed
    value they denote. *)
Definition configuration_header (data : list Z) (c : ConfigurationDescriptor) : Prop :=
  let total := from_le [data !!! 2%nat; data !!! 3%nat] in
  data !!! 0%nat = 9 /\ data !!! 1%nat = 2 /\ 9 <= total <= llen data /\
  cd_value c = data !!! 5%nat /\ cd_value c <> 0 /\
  cd_bytes c = take (Z.to_nat total) data.

Lemma parse_returns data : returns (parse data).
Proof.
  unfold parse, returns. destruct (Z.ltb_spec (llen data) 2); [eauto|].
  rewrite (idx_total data 0), (idx_total data 1) by lia. cbn [mbind outcome_bind].
  case_match; [eauto|]. case_match; [eauto|]. case_match; [eauto|].
  destruct (Z.ltb_spec (llen data) 9); [eauto|].
  rewrite !idx_total by lia. cbn [mbind outcome_bind].
  case_match eqn:Et; [eauto|]. case_match; [eauto|].
  apply orb_false_iff in Et as [Et1 Et2]. apply Z.ltb_ge in Et1, Et2.
  rewrite slice_in_range by lia. simpl. eauto.
Qed.

Lemma parse_spec data c :
  parse data = Done (Ok c) <-> 9 <= llen data /\ configuration_header data c.
Proof.
  unfold parse, configuration_header. destruct (Z.ltb_spec (llen data) 2) as [|H2].
  { split; [done|]. lia. }
  rewrite (idx_total data 0), (idx_total data 1) by lia. cbn [mbind outcome_bind].
  change (Z.to_nat 0) with 0%nat. change (Z.to_nat 1) with 1%nat.
  destruct (Z.eqb_spec (data !!! 0%nat) 0) as [|H0]; [split; [done|lia]|].
  destruct (Z.eqb_spec (data !!! 1%nat) 2) as [H1|H1]; cbn [negb]; [|split; [done|lia]].
  destruct (Z.eqb_spec (data !!! 0%nat) 9) as [H0'|]; cbn [negb]; [|split; [done|lia]].
  destruct (Z.ltb_spec (llen data) 9); [split; [done|lia]|].
  rewrite !idx_total by lia. cbn [mbind outcome_bind].
  change (Z.to_nat 2) with 2%nat. change (Z.to_nat 3) with 3%nat. change (Z.to_nat 5) with 5%nat.
  set (total := from_le [data !!! 2%nat; data !!! 3%nat]). clearbody total.
  destruct ((total <? 9) || (llen data <? total)) eqn:Et.
  { split; [done|]. apply orb_true_iff in Et. rewrite !Z.ltb_lt in Et. simpl in *. lia. }
  apply orb_false_iff in Et as [Et1 Et2]. apply Z.ltb_ge in Et1, Et2.
  destruct (Z.eqb_spec (data !!! 5%nat) 0) as [|H5].
  { split; [done|]. intros (_ & _ & _ & _ & ? & ? & _). congruence. }
  rewrite slice_in_range by lia. cbn [mbind outcome_bind]. rewrite Z.sub_0_r. simpl drop.
  split.
  - intros [= <-]. simpl. repeat split; auto; lia.
  - destruct c as [cb cv]. simpl. intros (_ & _ & _ & _ & -> & _ & ->). done.
Qed.

Lemma parsed_iter_ok data c :
  bytes data -> llen data < 2 ^ 63 -> parse data = Done (Ok c) -> iter_ok (descriptors c).
Proof.
  intros Hb Hl [H9 (_ & _ & Ht & _ & _ & Hc)]%parse_spec.
  assert (llen (cd_bytes c) = from_le [data !!! 2%nat; data !!! 3%nat]) as Hlc.
  { rewrite Hc. unfold llen in *. rewrite length_take. lia. }
  split; simpl; [rewrite Hc; by apply Forall_take|lia|lia].
Qed.

(** ** The selectors against their references *)

(** The descriptors after the header of a configuration. *)
Definition tokens (c : ConfigurationDescriptor) := lex (drop 9 (cd_bytes c)).

Definition hid_reference (data : list Z) : parser HidBootEndpoint :=
  c ←? parse data;
  sel ←? Done (hid_select c None None (tokens c).1 (tokens c).2);
  Done (ok_or sel Unsupported).
Definition msc_reference (data : list Z) : parser MscBotInterface :=
  c ←? parse data;
  sel ←? Done (msc_select c None None (tokens c).1 (tokens c).2);
  Done (ok_or sel Unsupported).

Lemma parse_hid_is_reference data :
  bytes data -> llen data < 2 ^ 63 -> parse_hid_boot_endpoint data = hid_reference data.
Proof.
  intros Hb Hl. unfold parse_hid_boot_endpoint, hid_reference.
  destruct (parse data) as [[c|]| |] eqn:Ep; try done. cbn [try_bind].
  pose proof (parsed_iter_ok _ _ Hb Hl Ep) as Hok.
  destruct (tokens c) as [toks err] eqn:Et.
  assert (lexes (descriptors c) toks err) as Hlex by exact Et.
  rewrite (hid_interfaces_loop_select _ _ _ _ toks err); auto.
  apply lexes_short in Hlex. simpl in Hlex. lia.
Qed.

Lemma parse_msc_is_reference data :
  bytes data -> llen data < 2 ^ 63 -> parse_msc_bot_interface data = msc_reference data.
Proof.
  intros Hb Hl. unfold parse_msc_bot_interface, msc_reference.
  destruct (parse data) as [[c|]| |] eqn:Ep; try done. cbn [try_bind].
  pose proof (parsed_iter_ok _ _ Hb Hl Ep) as Hok.
  destruct (tokens c) as [toks err] eqn:Et.
  assert (lexes (descriptors c) toks err) as Hlex by exact Et.
  rewrite (msc_interfaces_loop_select _ _ _ _ toks err); auto.
  apply lexes_short in Hlex. simpl in Hlex. lia.
Qed.

(** ** The declarative reading of the HID selector *)

(** The endpoint descriptors with the interface they follow; endpoints before
    any interface belong to none. *)
Fixpoint interface_endpoints (cur : option InterfaceDescriptor) (toks : list (list Z))
    : list (InterfaceDescriptor * EndpointDescriptor) :=
  match toks with
  | [] => []
  | t :: ts =>
      if token_kind t =? 4 then interface_endpoints (Some (interface_of_token t)) ts
      else match cur with
      | Some i =>
          if token_kind t =? 5 then (i, endpoint_of_token t) :: interface_endpoints cur ts
          else interface_endpoints cur ts
      | None => interface_endpoints None ts
      end
  end.

(** Interface descriptors have nine bytes and the endpoint descriptors of an
    interface seven. *)
Fixpoint tokens_ok (cur : bool) (toks : list (list Z)) : Prop :=
  match toks with
  | [] => True
  | t :: ts =>
      if token_kind t =? 4 then 9 <= llen t /\ tokens_ok true ts
      else (cur = true -> token_kind t = 5 -> 7 <= llen t) /\ tokens_ok cur ts
  end.

Definition hid_candidates (c : ConfigurationDescriptor) cur toks : list HidBootEndpoint :=
  map (fun p => hid_endpoint_of c p.1 p.2)
    (filter (fun p => hid_endpoint_ok p.1 p.2 = true) (interface_endpoints cur toks)).

Lemma hid_select_candidates c toks err : forall cur sel res,
  hid_select c cur sel toks err = Ok res <->
    err = None /\ tokens_ok (bool_decide (is_Some cur)) toks /\
    option_list sel ++ hid_candidates c cur toks = option_list res.
Proof.
  unfold hid_candidates. induction toks as [|t ts IH]; intros cur sel res;
    cbn [hid_select tokens_ok interface_endpoints].
  - destruct err; [naive_solver|]. simpl. rewrite app_nil_r. destruct sel, res; naive_solver.
  - destruct (token_kind t =? 4).
    { destruct (Z.ltb_spec (llen t) 9); [split; [done|lia]|]. rewrite IH.
      rewrite bool_decide_true by done. naive_solver. }
    destruct cur as [i|]; [|rewrite IH; cbn; naive_solver].
    rewrite bool_decide_true by done.
    destruct (Z.eqb_spec (token_kind t) 5) as [H5|H5].
    2: { rewrite IH, bool_decide_true by done. naive_solver. }
    destruct (Z.ltb_spec (llen t) 7); [split; [done|]; intros (_ & [H7 _] & _); specialize (H7 eq_refl H5); lia|].
    rewrite filter_cons. cbn [fst snd].
    destruct (hid_endpoint_ok i (endpoint_of_token t)) eqn:Ee.
    + rewrite decide_True by done. cbn [map fst snd]. destruct sel as [s|].
      * split; [done|]. intros (_ & _ & Hl). destruct res; simpl in Hl; simplify_eq.
      * rewrite IH, bool_decide_true by done. simpl. naive_solver.
    + rewrite decide_False by done. rewrite IH, bool_decide_true by done. naive_solver.
Qed.

Lemma parse_hid_returns data : bytes data -> llen data < 2 ^ 63 -> returns (parse_hid_boot_endpoint data).
Proof.
  intros Hb Hl. rewrite parse_hid_is_reference by done. unfold hid_reference, returns.
  destruct (parse_returns data) as [[c|e] ->]; cbn [try_bind]; [|eauto].
  destruct (hid_select c None None (tokens c).1 (tokens c).2); simpl; eauto.
Qed.

Lemma parse_msc_returns data : bytes data -> llen data < 2 ^ 63 -> returns (parse_msc_bot_interface data).
Proof.
  intros Hb Hl. rewrite parse_msc_is_reference by done. unfold msc_reference, returns.
  destruct (parse_returns data) as [[c|e] ->]; cbn [try_bind]; [|eauto].
  destruct (msc_select c None None (tokens c).1 (tokens c).2); simpl; eauto.
Qed.

Lemma interface_endpoints_sizes toks cur : Forall (fun p => 0 <= ep_max_packet_size p.2 < 2048) (interface_endpoints cur toks).
Proof.
  revert cur. induction toks as [|t ts IH]; intros cur; cbn [interface_endpoints]; [constructor|].
  destruct (_ =? 4); [done|]. destruct cur; [|done]. destruct (_ =? 5); [|done]. constructor; [|done].
  cbn [snd endpoint_of_token ep_max_packet_size].
  rewrite (Z.land_ones _ 11) by lia. apply Z.mod_pos_bound. lia.
Qed.

(** The selected endpoint has room for a report. *)
Lemma parse_hid_packet_size data h :
  bytes data -> llen data < 2 ^ 63 -> parse_hid_boot_endpoint data = Done (Ok h) -> 0 < hid_max_packet_size h < 2048.
Proof.
  intros Hb Hl. rewrite parse_hid_is_reference by done. unfold hid_reference.
  destruct (parse_returns data) as [[c|e] ->]; cbn [try_bind]; [|done].
  destruct (hid_select c None None (tokens c).1 (tokens c).2) as [sel|] eqn:E; cbn [try_bind]; [|done].
  apply hid_select_candidates in E as (_ & _ & E). destruct sel as [h'|]; [|done]. intros [= <-].
  assert (h' ∈ hid_candidates c None (tokens c).1) as Hin by (cbn in E; rewrite E; left).
  unfold hid_candidates in Hin. apply list_elem_of_fmap in Hin as ([i e] & -> & Hin).
  apply list_elem_of_filter in Hin as [Hok Hin]. cbn [fst snd] in *.
  unfold hid_endpoint_ok in Hok. reflect_bools. cbn [hid_endpoint_of hid_max_packet_size].
  pose proof (interface_endpoints_sizes (tokens c).1 None) as Hs. rewrite Forall_forall in Hs.
  specialize (Hs _ Hin). cbn in Hs. lia.
Qed.

(** The endpoint descriptors of a configuration, each with the interface descriptor it follows. *)
Fixpoint endpoint_tokens (cur : option (list Z)) (toks : list (list Z)) : list (list Z * list Z) :=
  match toks with
  | [] => []
  | t :: ts =>
      if token_kind t =? 4 then endpoint_tokens (Some t) ts
      else match cur with
      | Some i => if token_kind t =? 5 then (i, t) :: endpoint_tokens cur ts else endpoint_tokens cur ts
      | None => endpoint_tokens None ts
      end
  end.

(** By the bytes of the two descriptors: setting 0 of a boot interface (class 3,
    subclass 1) for a keyboard (1) or a mouse (2); an endpoint whose address has the
    IN bit, of transfer type 3 (interrupt), with a packet size and an interval. *)
Definition packet_bytes (e : list Z) : Z := (e !!! 4%nat + 256 * e !!! 5%nat) mod 2048.
Definition boot_interrupt_in (p : list Z * list Z) : Prop :=
  let '(i, e) := p in
  i !!! 3%nat = 0 /\ i !!! 5%nat = 3 /\ i !!! 6%nat = 1 /\ (i !!! 7%nat = 1 \/ i !!! 7%nat = 2) /\
  Z.testbit (e !!! 2%nat) 7 = true /\ e !!! 3%nat mod 4 = 3 /\ packet_bytes e <> 0 /\ e !!! 6%nat <> 0.
#[local] Instance boot_interrupt_in_dec p : Decision (boot_interrupt_in p).
Proof. unfold boot_interrupt_in. destruct p. apply _. Defined.
Definition boot_endpoints (c : ConfigurationDescriptor) (toks : list (list Z)) : list HidBootEndpoint :=
  (fun p => mk_HidBootEndpoint (cd_value c) (p.1 !!! 2%nat) (p.2 !!! 2%nat) (packet_bytes p.2) (p.2 !!! 6%nat) (p.1 !!! 7%nat)) <$>
    filter boot_interrupt_in (endpoint_tokens None toks).

Lemma packet_bytes_token e : ep_max_packet_size (endpoint_of_token e) = packet_bytes e.
Proof.
  unfold packet_bytes. cbn [endpoint_of_token ep_max_packet_size]. rewrite (Z.land_ones _ 11) by lia.
  f_equal. cbn [from_le]. lia.
Qed.
Lemma boot_interrupt_in_ok i e :
  hid_endpoint_ok (interface_of_token i) (endpoint_of_token e) = true <-> boot_interrupt_in (i, e).
Proof.
  unfold hid_endpoint_ok, hid_boot, boot_interrupt_in. rewrite packet_bytes_token.
  cbn [interface_of_token endpoint_of_token if_alternate_setting if_class if_subclass if_protocol ep_address ep_attributes ep_interval].
  change 0x80 with (2 ^ 7). rewrite land_pow2_testbit by lia. rewrite (Z.land_ones _ 2) by lia. change (2 ^ 2) with 4.
  rewrite !andb_true_iff, orb_true_iff, !negb_true_iff, !Z.eqb_eq, !Z.eqb_neq. tauto.
Qed.
Lemma interface_endpoints_tokens cur toks :
  interface_endpoints (interface_of_token <$> cur) toks = (fun p => (interface_of_token p.1, endpoint_of_token p.2)) <$> endpoint_tokens cur toks.
Proof.
  revert cur. induction toks as [|t ts IH]; intros cur; [done|]. cbn [interface_endpoints endpoint_tokens].
  destruct (_ =? 4); [apply (IH (Some t))|]. destruct cur as [i|]; cbn [fmap option_fmap option_map]; [|apply (IH None)].
  destruct (_ =? 5); [|apply (IH (Some i))]. cbn [fmap list_fmap fst snd]. f_equal. apply (IH (Some i)).
Qed.
Lemma hid_candidates_bytes c toks : hid_candidates c None toks = boot_endpoints c toks.
Proof.
  unfold hid_candidates, boot_endpoints. rewrite (interface_endpoints_tokens None).
  induction (endpoint_tokens None toks) as [|[i e] l IH]; [done|]. cbn [fmap list_fmap fst snd] in *. rewrite !filter_cons. cbn [fst snd].
  destruct (decide (boot_interrupt_in (i, e))) as [Hb|Hb].
  - rewrite decide_True by (by apply boot_interrupt_in_ok). cbn [map fmap list_fmap fst snd]. rewrite IH.
    unfold hid_endpoint_of at 1. by rewrite packet_bytes_token.
  - rewrite decide_False by (by rewrite boot_interrupt_in_ok). exact IH.
Qed.

(** C20: [parse_hid_boot_endpoint] accepts a byte string exactly when it starts
    with a well-formed configuration header, the [total] bytes it announces are
    a sequence of well-formed descriptors, and exactly one endpoint of an
    alternate-setting-0 boot keyboard or mouse interface is an interrupt IN
    endpoint with a non-zero packet size and interval; the result is that
    endpoint. *)
Theorem parse_hid_boot_endpoint_spec (data : list Z) (h : HidBootEndpoint) :
  bytes data -> llen data < 2 ^ 63 ->
  parse_hid_boot_endpoint data = Done (Ok h) <->
    exists c, 9 <= llen data /\ configuration_header data c /\
      (tokens c).2 = None /\ tokens_ok false (tokens c).1 /\
      boot_endpoints c (tokens c).1 = [h].
Proof.
  intros Hb Hl. rewrite parse_hid_is_reference by done. unfold hid_reference.
  destruct (parse_returns data) as [[c|e] Hp]; rewrite Hp; cbn [try_bind].
  2: { split; [done|]. intros (c & H9 & Hh & _). pose proof (proj2 (parse_spec data c) (conj H9 Hh)). congruence. }
  pose proof (hid_select_candidates c (tokens c).1 (tokens c).2 None None) as Hs. rewrite hid_candidates_bytes in Hs || setoid_rewrite hid_candidates_bytes in Hs.
  change (option_list (@None HidBootEndpoint)) with (@nil HidBootEndpoint) in Hs. cbn [app] in Hs.
  assert (Huniq : forall c', 9 <= llen data -> configuration_header data c' -> c' = c).
  { intros c' H9 Hh. pose proof (proj2 (parse_spec data c') (conj H9 Hh)). congruence. }
  destruct (hid_select c None None (tokens c).1 (tokens c).2) as [sel|e]; cbn [try_bind].
  - destruct (proj1 (Hs sel) eq_refl) as (Herr & Hk & Hc). split.
    + intros Hr. destruct sel; simpl in *; simplify_eq. exists c.
      apply parse_spec in Hp as [H9 Hh]. done.
    + intros (c' & H9 & Hh & _ & _ & Hc'). rewrite (Huniq _ H9 Hh), Hc in Hc'.
      destruct sel; simpl in *; by simplify_eq.
  - split; [done|]. intros (c' & H9 & Hh & He & Hk & Hc'). rewrite (Huniq _ H9 Hh) in *.
    pose proof (proj2 (Hs (Some h)) (conj He (conj Hk Hc'))). done.
Qed.

(** The configuration of a boot keyboard: header, interface, HID descriptor,
    interrupt IN endpoint. *)
Definition keyboard_configuration : list Z :=
  [9; 2; 34; 0; 1; 1; 0; 0xa0; 50;
   9; 4; 0; 0; 1; 3; 1; 1; 0;
   9; 0x21; 0x11; 1; 0; 1; 0x22; 63; 0;
   7; 5; 0x81; 3; 8; 0; 10].

Lemma parse_hid_boot_endpoint_spec_witness :
  bytes keyboard_configuration /\ llen keyboard_configuration < 2 ^ 63 /\
  parse_hid_boot_endpoint keyboard_configuration = Done (Ok (mk_HidBootEndpoint 1 0 0x81 8 10 1)) /\
  exists c, boot_endpoints c (tokens c).1 = [mk_HidBootEndpoint 1 0 0x81 8 10 1].
Proof.
  assert (bytes keyboard_configuration) as Hb by (repeat constructor; unfold is_byte; lia).
  assert (llen keyboard_configuration < 2 ^ 63) as Hl by (vm_compute; reflexivity).
  pose proof (proj1 (parse_hid_boot_endpoint_spec _ (mk_HidBootEndpoint 1 0 0x81 8 10 1) Hb Hl)
    ltac:(vm_compute; reflexivity)) as (c & _ & _ & _ & _ & Hc).
  split; [exact Hb|]. split; [exact Hl|]. split; [vm_compute; reflexivity|]. exists c. exact Hc.
Defined.

(** The descriptor parsers are total: on every byte string both selectors
    return a value or an error, so no malformed, truncated or self-overlapping
    descriptor makes the kernel index out of range or loop; and the
    mass-storage selector computes the one-pass reference [msc_select]. *)
Theorem descriptor_parsers_total (data : list Z) :
  bytes data -> llen data < 2 ^ 63 ->
  returns (parse_hid_boot_endpoint data) /\
  returns (parse_msc_bot_interface data) /\
  parse_msc_bot_interface data = msc_reference data.
Proof. intros Hb Hl. auto using parse_hid_returns, parse_msc_returns, parse_msc_is_reference. Qed.

(** A flash drive: interface 08/06/50 with one bulk endpoint per direction. *)
Definition storage_configuration : list Z :=
  [9; 2; 32; 0; 1; 1; 0; 0x80; 50;
   9; 4; 0; 0; 2; 8; 6; 0x50; 0;
   7; 5; 0x81; 2; 0; 2; 0;
   7; 5; 0x02; 2; 0; 2; 0].

Lemma descriptor_parsers_total_witness :
  bytes storage_configuration /\ returns (parse_msc_bot_interface storage_configuration) /\
  parse_msc_bot_interface storage_configuration =
    Done (Ok (mk_MscBotInterface 1 0 (mk_EndpointDescriptor 0x81 2 512 0) (mk_EndpointDescriptor 2 2 512 0))).
Proof.
  assert (bytes storage_configuration) as Hb by (repeat constructor; unfold is_byte; lia).
  assert (llen storage_configuration < 2 ^ 63) as Hl by (vm_compute; reflexivity).
  split; [exact Hb|]. split; [exact (proj1 (proj2 (descriptor_parsers_total _ Hb Hl)))|].
  vm_compute; reflexivity.
Defined.
