(* ===== verification/PortRec.v ===== *)
(** * Root-port records: [xhci/usb.rs], lifecycle half

    The per-port state machine (debounce, reset, enumerate, retry with an
    exponential back-off), the generation counter that lets the enumeration code
    recognise that the device it was talking to has gone, and the small pure
    helpers: setup requests, supported-protocol decoding, the scanner's
    transition function. *)

From S2P Require Import Prelude Words Trb.

(** @ xhci/usb.rs:4-10 SupportedProtocol *)
Record SupportedProtocol := mk_SupportedProtocol {
  major : Z;
  minor : Z;
  port_start : Z;
  port_count : Z;
  usb2 : bool;
}.

(** @ xhci/usb.rs:13-21 RootPortState *)
Inductive RootPortState :=
  | Disconnected
  | Debouncing (until : Z)
  | Resetting
  | Enumerating
  | Active
  | Removing
  | Failed (retry_at failures : Z).
#[global] Instance RootPortState_eq_dec : EqDecision RootPortState.
Proof. solve_decision. Defined.

(** @ xhci/usb.rs:24-31 PortRecord *)
Record PortRecord := mk_PortRecord {
  pr_port : Z;
  pr_protocol : SupportedProtocol;
  pr_portsc : Z;
  pr_generation : Z;
  pr_state : RootPortState;
  pr_failures : Z;
}.

(** @ xhci/usb.rs:34-34 DEBOUNCE_TICKS *)
Definition DEBOUNCE_TICKS : Z := 8.
(** @ xhci/usb.rs:35-35 RETRY_BASE_TICKS *)
Definition RETRY_BASE_TICKS : Z := 64.
(** @ xhci/usb.rs:36-36 RETRY_MAX_TICKS *)
Definition RETRY_MAX_TICKS : Z := 4096.

(** @ xhci/usb.rs:38-47 PortRecord::new *)
Definition port_new (port : Z) (protocol : SupportedProtocol) (portsc : Z) : PortRecord :=
  mk_PortRecord port protocol portsc 0 Disconnected 0.

Definition set_portsc (r : PortRecord) v := mk_PortRecord (pr_port r) (pr_protocol r) v (pr_generation r) (pr_state r) (pr_failures r).
Definition set_state (r : PortRecord) s := mk_PortRecord (pr_port r) (pr_protocol r) (pr_portsc r) (pr_generation r) s (pr_failures r).
Definition set_failures (r : PortRecord) f := mk_PortRecord (pr_port r) (pr_protocol r) (pr_portsc r) (pr_generation r) (pr_state r) f.
Definition set_generation (r : PortRecord) g := mk_PortRecord (pr_port r) (pr_protocol r) (pr_portsc r) g (pr_state r) (pr_failures r).

(** @ xhci/usb.rs:49-53 PortRecord::acknowledge_changes *)
Definition acknowledge_changes (r : PortRecord) (portsc : Z) : PortRecord * Z :=
  (set_portsc r (clear_bits portsc PORTSC_CHANGE_MASK), Z.land portsc PORTSC_CHANGE_MASK).

(** [portsc & mask != 0]. *)
Definition has_bit (portsc mask : Z) : bool := negb (Z.land portsc mask =? 0).

(** @ xhci/usb.rs:55-75 PortRecord::observe *)
Definition observe (r : PortRecord) (portsc now : Z) : PortRecord * Z :=
  let was_connected := has_bit (pr_portsc r) PORTSC_CCS in
  let '(r, changes) := acknowledge_changes r portsc in
  let connected := has_bit portsc PORTSC_CCS in
  let r :=
    if has_bit changes PORTSC_CSC || negb (eqb connected was_connected) then
      let r := set_generation r (wrapping_add 64 (pr_generation r) 1) in
      if connected then set_state r (Debouncing (saturating_add 64 now DEBOUNCE_TICKS))
      else set_state (set_failures r 0) Removing
    else r in
  (set_portsc r (clear_bits portsc PORTSC_CHANGE_MASK), changes).

(** @ xhci/usb.rs:77-80 PortRecord::mark_active *)
Definition mark_active (r : PortRecord) : PortRecord := set_state (set_failures r 0) Active.
(** @ xhci/usb.rs:81-83 PortRecord::mark_stage *)
Definition mark_stage (r : PortRecord) (s : RootPortState) : PortRecord := set_state r s.
(** @ xhci/usb.rs:84-86 PortRecord::generation_matches *)
Definition generation_matches (r : PortRecord) (generation : Z) : bool := pr_generation r =? generation.

(** @ xhci/usb.rs:88-97 PortRecord::mark_failed *)
Definition mark_failed (r : PortRecord) (now : Z) : PortRecord :=
  let r := set_failures r (saturating_add 8 (pr_failures r) 1) in
  let failures := pr_failures r in
  let shift := Z.min (saturating_sub failures 1) 6 in
  let delay := Z.min (Z.shiftl RETRY_BASE_TICKS shift) RETRY_MAX_TICKS in
  set_state r (Failed (saturating_add 64 now delay) failures).

(** @ xhci/usb.rs:99-101 PortRecord::retry_due *)
Definition retry_due (r : PortRecord) (now : Z) : bool :=
  match pr_state r with Failed retry_at _ => retry_at <=? now | _ => false end.

(** ** Setup requests *)

(** @ xhci/usb.rs:351-357 SetupRequest *)
Record SetupRequest := mk_SetupRequest {
  sr_bm_request_type : Z;
  sr_request : Z;
  sr_value : Z;
  sr_index : Z;
  sr_length : Z;
}.

(** @ xhci/usb.rs:359-367 get_descriptor *)
Definition get_descriptor (descriptor_type len : Z) : SetupRequest :=
  mk_SetupRequest 0x80 6 (wrap 16 (Z.shiftl descriptor_type 8)) 0 len.
(** @ xhci/usb.rs:369-377 set_configuration *)
Definition set_configuration (v : Z) : SetupRequest := mk_SetupRequest 0 9 v 0 0.
(** @ xhci/usb.rs:379-387 set_idle *)
Definition set_idle (interface : Z) : SetupRequest := mk_SetupRequest 0x21 10 0 interface 0.

(** ** Supported protocols and the scanner *)

(** @ xhci/usb.rs:392-410 supported_protocol *)
Definition supported_protocol (dword0 port_info : Z) : option SupportedProtocol :=
  if negb (Z.land dword0 0xff =? 2) then None else
  let major := Z.land (Z.shiftr dword0 24) 0xff in
  let minor := Z.land (Z.shiftr dword0 16) 0xff in
  let port_start := Z.land port_info 0xff in
  let port_count := Z.land (Z.shiftr port_info 8) 0xff in
  if (port_start =? 0) || (port_count =? 0) then None else
  Some (mk_SupportedProtocol major minor port_start port_count (major =? 2)).

(** @ xhci/usb.rs:413-422 PortState *)
Inductive PortState :=
  | PortDisconnected
  | PortReset
  | PortAddressed (slot speed max_packet : Z)
  | PortFailed.

(** @ xhci/usb.rs:424-429 usb2_max_packet *)
Definition usb2_max_packet (speed : Z) : Z := if speed =? 3 then 64 else 8.

(** @ xhci/usb.rs:433-455 advance_port *)
Definition advance_port (state : PortState) (connected reset_ok address_ok : bool) (slot speed : Z) : PortState :=
  match state with
  | PortAddressed _ _ _ => state
  | _ =>
      if negb connected then PortDisconnected
      else if negb reset_ok || negb address_ok || (slot =? 0) then PortFailed
      else PortAddressed slot speed (usb2_max_packet speed)
  end.

(** ** Well-formed records *)

(** The recorded PORTSC carries no change bit once a sample was taken, counters
    are in range, and a failed port shows the counter of its record. *)
Record port_wf (r : PortRecord) : Prop := {
  pw_generation : fits 64 (pr_generation r);
  pw_failures : fits 8 (pr_failures r);
  pw_failed : forall t n, pr_state r = Failed t n -> n = pr_failures r /\ 1 <= n;
}.

(** The operations on a record, as the controller issues them. *)
Inductive port_op :=
  | OpObserve (portsc now : Z)
  | OpStage (s : RootPortState)
  | OpActive
  | OpFailed (now : Z).

Definition apply_op (r : PortRecord) (o : port_op) : PortRecord :=
  match o with
  | OpObserve portsc now => (observe r portsc now).1
  | OpStage s => mark_stage r s
  | OpActive => mark_active r
  | OpFailed now => mark_failed r now
  end.
Definition run_ops (r : PortRecord) (ops : list port_op) : PortRecord := foldl apply_op r ops.

(** [mark_stage] is only called with stages, never with [Failed]. *)
Definition op_ok (o : port_op) : Prop :=
  match o with OpStage (Failed _ _) => False | _ => True end.

Section Record_lemmas.
Implicit Types (r : PortRecord).

Lemma has_bit_ccs p : has_bit p PORTSC_CCS = Z.testbit p 0.
Proof. exact (land_1_testbit p). Qed.

Lemma has_bit_csc p : has_bit p PORTSC_CSC = Z.testbit p 17.
Proof. unfold has_bit. change PORTSC_CSC with (2 ^ 17). apply land_pow2_testbit. lia. Qed.

Lemma changes_csc p : has_bit (Z.land p PORTSC_CHANGE_MASK) PORTSC_CSC = Z.testbit p 17.
Proof.
  rewrite has_bit_csc, Z.land_spec. change (Z.testbit PORTSC_CHANGE_MASK 17) with true.
  apply andb_true_r.
Qed.

Lemma clear_changes_ccs p : Z.testbit (clear_bits p PORTSC_CHANGE_MASK) 0 = Z.testbit p 0.
Proof.
  unfold clear_bits. rewrite Z.ldiff_spec. change (Z.testbit PORTSC_CHANGE_MASK 0) with false.
  apply andb_true_r.
Qed.

(** The condition under which [observe] starts a new generation. *)
Definition new_device (r : PortRecord) (portsc : Z) : bool :=
  Z.testbit portsc 17 || xorb (Z.testbit portsc 0) (Z.testbit (pr_portsc r) 0).

Lemma observe_unfold r portsc now :
  observe r portsc now =
    (mk_PortRecord (pr_port r) (pr_protocol r) (clear_bits portsc PORTSC_CHANGE_MASK)
      (if new_device r portsc then wrapping_add 64 (pr_generation r) 1 else pr_generation r)
      (if new_device r portsc
       then if Z.testbit portsc 0 then Debouncing (saturating_add 64 now DEBOUNCE_TICKS) else Removing
       else pr_state r)
      (if new_device r portsc && negb (Z.testbit portsc 0) then 0 else pr_failures r),
     Z.land portsc PORTSC_CHANGE_MASK).
Proof.
  unfold observe, acknowledge_changes. rewrite changes_csc, !has_bit_ccs. unfold new_device.
  destruct (Z.testbit portsc 17), (Z.testbit portsc 0), (Z.testbit (pr_portsc r) 0); reflexivity.
Qed.

Lemma port_new_wf p pr v : port_wf (port_new p pr v).
Proof. split; simpl; [split; lia..|done]. Qed.

Lemma mark_failed_failures r now : pr_failures (mark_failed r now) = Z.min (pr_failures r + 1) 255.
Proof. reflexivity. Qed.

Lemma apply_op_wf r o : op_ok o -> port_wf r -> port_wf (apply_op r o).
Proof.
  intros Ho [Hg Hf Hs]. destruct o as [portsc now|s| |now]; cbn [apply_op].
  - rewrite observe_unfold. destruct (new_device r portsc); split; simpl.
    + by apply fits_wrap.
    + destruct (negb _); [split; lia|done].
    + by case_match.
    + done.
    + done.
    + done.
  - split; simpl; [done..|]. intros t n ->. done.
  - split; simpl; [done|split; lia|done].
  - unfold fits in *. split; simpl; [done| |].
    + unfold fits, saturating_add. lia.
    + intros t n [= _ <-]. unfold saturating_add in *. lia.
Qed.

Lemma run_ops_wf ops r : Forall op_ok ops -> port_wf r -> port_wf (run_ops r ops).
Proof.
  intros Ho. revert r. induction Ho as [|o ops Ho Hos IH]; intros r Hr; [done|].
  apply IH, apply_op_wf; done.
Qed.

(** How many operations of a sequence start a new generation. *)
Fixpoint new_devices (r : PortRecord) (ops : list port_op) : Z :=
  match ops with
  | [] => 0
  | o :: ops =>
      (match o with OpObserve portsc _ => b2z (new_device r portsc) | _ => 0 end)
      + new_devices (apply_op r o) ops
  end.

Lemma new_devices_nonneg ops r : 0 <= new_devices r ops.
Proof.
  revert r. induction ops as [|o ops IH]; intros r; cbn [new_devices]; [lia|].
  specialize (IH (apply_op r o)). destruct o; try lia. destruct (new_device _ _); unfold b2z; lia.
Qed.

Lemma apply_op_generation r o :
  pr_generation (apply_op r o) mod 2 ^ 64 =
    (pr_generation r + match o with OpObserve portsc _ => b2z (new_device r portsc) | _ => 0 end) mod 2 ^ 64.
Proof.
  destruct o as [portsc now|s| |now]; cbn [apply_op]; rewrite ?Z.add_0_r; [|done..].
  rewrite observe_unfold. simpl. destruct (new_device r portsc); simpl.
  - unfold wrapping_add, wrap. by rewrite Z.mod_mod.
  - by rewrite Z.add_0_r.
Qed.

Lemma run_ops_generation ops r :
  pr_generation (run_ops r ops) mod 2 ^ 64 = (pr_generation r + new_devices r ops) mod 2 ^ 64.
Proof.
  revert r. induction ops as [|o ops IH]; intros r; cbn [new_devices]; [by rewrite Z.add_0_r|].
  unfold run_ops in *. cbn [foldl]. rewrite IH, Z.add_assoc.
  rewrite Z.add_mod, apply_op_generation, <- Z.add_mod by lia. done.
Qed.
End Record_lemmas.

(** ** Properties *)

(** C21: The generation a caller captured before it started to enumerate a port
    still matches afterwards exactly when no operation in between started a new
    device generation (connect change, or a CCS level that contradicts the
    recorded one), for any sequence of fewer than 2^64 such changes. *)
Theorem generation_detects_replug (r : PortRecord) (ops : list port_op) :
  port_wf r -> Forall op_ok ops -> new_devices r ops < 2 ^ 64 ->
  generation_matches (run_ops r ops) (pr_generation r) = true <-> new_devices r ops = 0.
Proof.
  intros Hr Ho Hn. pose proof (run_ops_wf ops r Ho Hr) as Hr'.
  pose proof (run_ops_generation ops r) as Hg. pose proof (new_devices_nonneg ops r).
  pose proof (pw_generation _ Hr) as H1. pose proof (pw_generation _ Hr') as H2. unfold fits in *.
  rewrite (Z.mod_small (pr_generation (run_ops r ops))) in Hg by lia.
  unfold generation_matches. rewrite Z.eqb_eq. split.
  - intros He. rewrite He in Hg.
    destruct (Z.lt_ge_cases (pr_generation r + new_devices r ops) (2 ^ 64)).
    + rewrite Z.mod_small in Hg; lia.
    + rewrite <- (Z.mod_add _ (-1)), Z.mod_small in Hg; lia.
  - intros He. rewrite He, Z.add_0_r, Z.mod_small in Hg; lia.
Qed.

Definition usb2_ports : SupportedProtocol := mk_SupportedProtocol 2 0 1 4 true.
(** A port with a device, reset (PRC|PED), then unplugged and plugged again. *)
Definition replug : list port_op :=
  [OpStage Resetting; OpObserve 0x200203 12; OpObserve 0x20000 20; OpObserve 0x20001 24].

Lemma generation_detects_replug_witness :
  let r := port_new 1 usb2_ports 1 in
  port_wf r /\ Forall op_ok replug /\ new_devices r replug = 2 /\
  (generation_matches (run_ops r replug) 0 = true <-> new_devices r replug = 0) /\
  generation_matches (run_ops r replug) 0 = false /\
  generation_matches (run_ops r (take 2 replug)) 0 = true.
Proof.
  assert (port_wf (port_new 1 usb2_ports 1)) as Hw by apply port_new_wf.
  assert (Forall op_ok replug) as Ho by (repeat constructor).
  assert (new_devices (port_new 1 usb2_ports 1) replug = 2) as Hn by (vm_compute; reflexivity).
  split; [exact Hw|]. split; [exact Ho|]. split; [exact Hn|].
  split; [apply (generation_detects_replug (port_new 1 usb2_ports 1) replug Hw Ho); rewrite Hn; lia|].
  split; vm_compute; reflexivity.
Defined.

Lemma backoff_shift k : 0 <= k <= 6 -> Z.min (Z.shiftl RETRY_BASE_TICKS k) RETRY_MAX_TICKS = 64 * 2 ^ k.
Proof.
  intros Hk. unfold RETRY_BASE_TICKS, RETRY_MAX_TICKS. rewrite Z.shiftl_mul_pow2 by lia.
  assert (2 ^ k <= 2 ^ 6) by (apply Z.pow_le_mono_r; lia). change (2 ^ 6) with 64 in *. lia.
Qed.

Lemma run_failures r nows :
  pr_failures r + Z.of_nat (length nows) <= 255 ->
  pr_failures (run_ops r (map OpFailed nows)) = pr_failures r + Z.of_nat (length nows).
Proof.
  revert r. induction nows as [|now nows IH]; intros r; [simpl; lia|].
  intros Hb. simpl length in *. cbn [map]. unfold run_ops in *. cbn [foldl apply_op].
  rewrite IH; rewrite mark_failed_failures; lia.
Qed.

(** The retry back-off doubles from 64 ticks and is capped at 4096: the
    [n]-th consecutive failure of a port (counting from a record without
    failures, for up to 255 of them) schedules the retry
    [64 * 2^min(n-1, 6)] ticks later, saturating at the end of the tick
    counter, and [retry_due] becomes true exactly then. *)
Theorem port_retry_backoff (r : PortRecord) (nows : list Z) (now t : Z) :
  pr_failures r = 0 -> Z.of_nat (length nows) < 255 ->
  let n := Z.of_nat (length nows) + 1 in
  let r' := run_ops r (map OpFailed (nows ++ [now])) in
  pr_state r' = Failed (Z.min (now + 64 * 2 ^ Z.min (n - 1) 6) U64_MAX) n /\
  (retry_due r' t = true <-> Z.min (now + 64 * 2 ^ Z.min (n - 1) 6) U64_MAX <= t).
Proof.
  intros H0 Hn n r'.
  assert (pr_state r' = Failed (Z.min (now + 64 * 2 ^ Z.min (n - 1) 6) U64_MAX) n) as Hs.
  { unfold r'. rewrite map_app. unfold run_ops. rewrite foldl_app. cbn [map foldl apply_op].
    pose proof (run_failures r nows ltac:(lia)) as Hf. unfold run_ops in Hf.
    unfold mark_failed. cbn [pr_failures set_failures pr_state set_state]. rewrite Hf, H0.
    replace (saturating_add 8 (0 + Z.of_nat (length nows)) 1) with n
      by (unfold saturating_add, n; lia).
    unfold saturating_sub. rewrite Z.max_l by lia. rewrite backoff_shift by lia. done. }
  split; [exact Hs|]. unfold retry_due. rewrite Hs. apply Z.leb_le.
Qed.

Lemma port_retry_backoff_witness :
  let r := run_ops (port_new 1 usb2_ports 1) (map OpFailed ([10; 100] ++ [300])) in
  pr_failures (port_new 1 usb2_ports 1) = 0 /\
  pr_state r = Failed 556 3 /\ (retry_due r 556 = true <-> 556 <= 556).
Proof.
  split; [reflexivity|].
  exact (port_retry_backoff (port_new 1 usb2_ports 1) [10; 100] 300 556 eq_refl eq_refl).
Defined.
