(* ===== verification/Msc.v ===== *)
(** * USB mass storage, Bulk-Only Transport: [xhci/msc.rs]

    Command and status wrappers, the SCSI command blocks, and the [Bot] driver
    over an abstract [BotTransport], the trait through which a controller
    supplies the bounded transfer operations. *)

From S2P Require Import Prelude Words PortRec.

(** @ xhci/msc.rs:9-9 CBW_LEN *)
Definition CBW_LEN : Z := 31.
(** @ xhci/msc.rs:10-10 CSW_LEN *)
Definition CSW_LEN : Z := 13.
(** @ xhci/msc.rs:11-11 BLOCK_SIZE *)
Definition BLOCK_SIZE : Z := 512.
(** @ xhci/msc.rs:12-12 MAX_READ_BYTES *)
Definition MAX_READ_BYTES : Z := 64 * 1024.
(** @ xhci/msc.rs:14-14 CBW_SIGNATURE *)
Definition CBW_SIGNATURE : Z := 0x43425355.
(** @ xhci/msc.rs:15-15 CSW_SIGNATURE *)
Definition CSW_SIGNATURE : Z := 0x53425355.

(** @ xhci/msc.rs:18-31 BotError *)
Inductive BotError :=
  | Transport | Stall | ShortTransfer | InvalidCswSignature | InvalidCswTag | InvalidResidue
  | CommandFailed | PhaseError | UnsupportedBlockSize (n : Z) | Capacity16Required
  | ReadTooLarge | LbaOverflow.

(** @ xhci/msc.rs:34-38 Recovery *)
Inductive Recovery := RecoveryNone | ResetAndClearHalts | Offline.
#[global] Instance Recovery_eq_dec : EqDecision Recovery.
Proof. solve_decision. Defined.

(** @ xhci/msc.rs:40-55 recovery_for *)
Definition recovery_for (error : BotError) : Recovery :=
  match error with
  | Transport | Stall | ShortTransfer | InvalidCswSignature | InvalidCswTag | InvalidResidue
  | PhaseError => ResetAndClearHalts
  | CommandFailed | UnsupportedBlockSize _ | Capacity16Required | ReadTooLarge | LbaOverflow => Offline
  end.

(** @ xhci/msc.rs:58-62 DataDirection *)
Inductive DataDirection := DirIn | DirOut | DirNone.

(** @ xhci/msc.rs:65-68 Capacity *)
Record Capacity := mk_Capacity { blocks : Z; block_size : Z }.
(** @ xhci/msc.rs:71-75 Csw *)
Record Csw := mk_Csw { csw_tag : Z; csw_residue : Z; csw_status : Z }.

(** Bytes [a..a+4] of a slice whose length was tested. *)
Definition word_at (l : list Z) (a : nat) : list Z := take 4 (drop a l).

(** @ xhci/msc.rs:78-94 Csw::parse *)
Definition csw_parse (bs : list Z) : result Csw BotError :=
  if negb (llen bs =? CSW_LEN) then Err ShortTransfer else
  if negb (from_le (word_at bs 0) =? CSW_SIGNATURE) then Err InvalidCswSignature else
  let status := bs !!! 12%nat in
  if 2 <? status then Err PhaseError else
  Ok (mk_Csw (from_le (word_at bs 4)) (from_le (word_at bs 8)) status).

(** @ xhci/msc.rs:96-109 Csw::validate *)
Definition csw_validate (c : Csw) (tag requested : Z) : result unit BotError :=
  if negb (csw_tag c =? tag) then Err InvalidCswTag else
  if requested <? csw_residue c then Err InvalidResidue else
  if csw_status c =? 0 then
    if csw_residue c =? 0 then Ok tt else Err InvalidResidue
  else if csw_status c =? 1 then Err CommandFailed
  else Err PhaseError.

Definition is_in (d : DataDirection) : bool := match d with DirIn => true | _ => false end.

(** @ xhci/msc.rs:112-133 cbw *)
Definition cbw (tag transfer_len : Z) (direction : DataDirection) (lun : Z) (cdb : list Z) : list Z :=
  let count := Nat.min (length cdb) 16 in
  to_le 4 CBW_SIGNATURE ++ to_le 4 tag ++ to_le 4 transfer_len
  ++ [if is_in direction then 0x80 else 0; lun; wrap 8 (llen cdb)]
  ++ take count cdb ++ replicate (16 - count) 0.

(** @ xhci/msc.rs:135-143 get_max_lun *)
Definition get_max_lun (interface : Z) : SetupRequest := mk_SetupRequest 0xa1 0xfe 0 interface 1.
(** @ xhci/msc.rs:145-153 bot_reset *)
Definition bot_reset (interface : Z) : SetupRequest := mk_SetupRequest 0x21 0xff 0 interface 0.
(** @ xhci/msc.rs:155-163 clear_halt *)
Definition clear_halt (endpoint : Z) : SetupRequest := mk_SetupRequest 0x02 1 0 endpoint 0.

(** @ xhci/msc.rs:165-167 inquiry *)
Definition inquiry : list Z := [0x12; 0; 0; 0; 36; 0].
(** @ xhci/msc.rs:168-170 test_unit_ready *)
Definition test_unit_ready : list Z := [0; 0; 0; 0; 0; 0].
(** @ xhci/msc.rs:171-173 request_sense *)
Definition request_sense : list Z := [0x03; 0; 0; 0; 18; 0].
(** @ xhci/msc.rs:174-176 read_capacity10 *)
Definition read_capacity10 : list Z := [0x25; 0; 0; 0; 0; 0; 0; 0; 0; 0].
(** @ xhci/msc.rs:178-184 read10 *)
Definition read10_cdb (lba blocks : Z) : list Z :=
  [0x28; 0] ++ to_be 4 lba ++ [0] ++ to_be 2 blocks ++ [0].

(** @ xhci/msc.rs:186-202 parse_capacity10 *)
Definition parse_capacity10 (bs : list Z) : result Capacity BotError :=
  if negb (llen bs =? 8) then Err ShortTransfer else
  let last_lba := from_be (word_at bs 0) in
  if last_lba =? U32_MAX then Err Capacity16Required else
  let size := from_be (word_at bs 4) in
  if negb (size =? BLOCK_SIZE) then Err (UnsupportedBlockSize size) else
  Ok (mk_Capacity (last_lba + 1) size).

(** ** The transport interface and the driver *)

(** The trait: a transfer returns the number of bytes it moved; the receiving
    ones also return the buffer they filled. *)
(** @ xhci/msc.rs:206-211 BotTransport *)
Class BotTransport (T : Type) := {
  control_in : T -> SetupRequest -> list Z -> T * list Z * result Z BotError;
  control_out : T -> SetupRequest -> T * result unit BotError;
  bulk_out : T -> list Z -> T * result Z BotError;
  bulk_in : T -> list Z -> T * list Z * result Z BotError;
}.

(** @ xhci/msc.rs:213-219 Bot *)
Record Bot (T : Type) := mk_Bot {
  transport : T;
  bot_interface : Z;
  bot_bulk_in : Z;
  bot_bulk_out : Z;
  next_tag : Z;
}.
Arguments mk_Bot {T}.
Arguments transport {T}.
Arguments bot_interface {T}.
Arguments bot_bulk_in {T}.
Arguments bot_bulk_out {T}.
Arguments next_tag {T}.

Section Driver.
Context {T : Type} `{BotTransport T}.
Implicit Types (b : Bot T).

(** @ xhci/msc.rs:222-230 Bot::new *)
Definition bot_new (t : T) (interface bulk_in bulk_out : Z) : Bot T :=
  mk_Bot t interface bulk_in bulk_out 1.

Definition set_transport b (t : T) : Bot T :=
  mk_Bot t (bot_interface b) (bot_bulk_in b) (bot_bulk_out b) (next_tag b).
Definition set_tag b (n : Z) : Bot T :=
  mk_Bot (transport b) (bot_interface b) (bot_bulk_in b) (bot_bulk_out b) n.

(** @ xhci/msc.rs:232-243 Bot::max_lun *)
Definition max_lun b : Bot T * result Z BotError :=
  let '(t, buf, r) := control_in (transport b) (get_max_lun (bot_interface b)) [0] in
  (set_transport b t,
   match r with
   | Ok n => if n =? 1 then Ok (buf !!! 0%nat) else Err ShortTransfer
   | Err Stall => Ok 0
   | Err error => Err error
   end).

(** @ xhci/msc.rs:245-249 Bot::recover *)
Definition recover b : Bot T * result unit BotError :=
  match control_out (transport b) (bot_reset (bot_interface b)) with
  | (t, Err e) => (set_transport b t, Err e)
  | (t, Ok _) =>
      match control_out t (clear_halt (bot_bulk_in b)) with
      | (t, Err e) => (set_transport b t, Err e)
      | (t, Ok _) =>
          let '(t, r) := control_out t (clear_halt (bot_bulk_out b)) in
          (set_transport b t, r)
      end
  end.

(** The data stage of [command_once]. *)
(** @ xhci/msc.rs:292-304 Bot::command_once -- the match on the direction *)
Definition data_stage (t : T) (direction : DataDirection) (data : list Z)
    : T * list Z * result unit BotError :=
  let expect n := if n =? llen data then Ok tt else Err ShortTransfer in
  match direction, data with
  | DirIn, _ :: _ =>
      let '(t, data', r) := bulk_in t data in
      (t, data', match r with Ok n => expect n | Err e => Err e end)
  | DirOut, _ :: _ =>
      let '(t, r) := bulk_out t data in
      (t, data, match r with Ok n => expect n | Err e => Err e end)
  | _, _ => (t, data, Ok tt)
  end.

(** @ xhci/msc.rs:305-309 Bot::command_once -- the status stage *)
Definition status_stage (t : T) (tag requested : Z) : T * result unit BotError :=
  let '(t, status, r) := bulk_in t (replicate 13 0) in
  (t, match r with
      | Err e => Err e
      | Ok n =>
          if negb (n =? CSW_LEN) then Err ShortTransfer else
          match csw_parse status with
          | Err e => Err e
          | Ok c => csw_validate c tag requested
          end
      end).

(** @ xhci/msc.rs:276-310 Bot::command_once *)
Definition command_once b (lun : Z) (cdb : list Z) (direction : DataDirection) (data : list Z)
    : Bot T * list Z * result unit BotError :=
  if (llen cdb =? 0) || (16 <? llen cdb) then (b, data, Err Transport) else
  let tag := next_tag b in
  let b := set_tag b (wrapping_add 32 (next_tag b) 1) in
  let packet := cbw tag (wrap 32 (llen data)) direction lun cdb in
  match bulk_out (transport b) packet with
  | (t, Err e) => (set_transport b t, data, Err e)
  | (t, Ok n) =>
      if negb (n =? CBW_LEN) then (set_transport b t, data, Err ShortTransfer) else
      match data_stage t direction data with
      | (t, data, Err e) => (set_transport b t, data, Err e)
      | (t, data, Ok _) =>
          let '(t, r) := status_stage t tag (llen data) in
          (set_transport b t, data, r)
      end
  end.

Definition recoverable (e : BotError) : bool := bool_decide (recovery_for e = ResetAndClearHalts).

(** The loop [for attempt in 0..2]; [attempts] counts the ones left. *)
Fixpoint command_loop (attempts : nat) (first : bool) b (lun : Z) (cdb : list Z)
    (direction : DataDirection) (data : list Z) : Bot T * list Z * result unit BotError :=
  match attempts with
  | O => (b, data, Err Transport)
  | S attempts =>
      match command_once b lun cdb direction data with
      | (b, data, Ok _) => (b, data, Ok tt)
      | (b, data, Err error) =>
          if first && recoverable error then
            match recover b with
            | (b, Err e) => (b, data, Err e)
            | (b, Ok _) => command_loop attempts false b lun cdb direction data
            end
          else (b, data, Err error)
      end
  end.

(** @ xhci/msc.rs:251-274 Bot::command *)
Definition command b lun cdb direction data := command_loop 2 true b lun cdb direction data.

(** The three [TEST UNIT READY] attempts of [probe]. *)
(** @ xhci/msc.rs:321-329 Bot::probe -- the ready loop *)
Fixpoint ready_loop (n : nat) b (ready_error : option BotError) : Bot T * option BotError :=
  match n with
  | O => (b, ready_error)
  | S n =>
      match command b 0 test_unit_ready DirNone [] with
      | (b, _, Ok _) => (b, None)
      | (b, _, Err error) => ready_loop n b (Some error)
      end
  end.

(** @ xhci/msc.rs:312-339 Bot::probe *)
Definition probe b : Bot T * result Capacity BotError :=
  match max_lun b with
  | (b, Err e) => (b, Err e)
  | (b, Ok lun) =>
      if negb (lun =? 0) then (b, Err Transport) else
      match command b 0 inquiry DirIn (replicate 36 0) with
      | (b, _, Err e) => (b, Err e)
      | (b, _, Ok _) =>
          match ready_loop 3 b None with
          | (b, Some error) =>
              let '(b, _, _) := command b 0 request_sense DirIn (replicate 18 0) in
              (b, Err error)
          | (b, None) =>
              match command b 0 read_capacity10 DirIn (replicate 8 0) with
              | (b, _, Err e) => (b, Err e)
              | (b, capacity, Ok _) => (b, parse_capacity10 capacity)
              end
          end
      end
  end.

(** The loop over the chunks of the buffer: the chunks are slices of one
    buffer, so the data read so far and the chunks not reached are returned. *)
(** @ xhci/msc.rs:347-357 Bot::read10 -- the chunk loop *)
Fixpoint read10_loop b (current_lba remaining : Z) (pieces : list (list Z))
    : Bot T * list (list Z) * result unit BotError :=
  match pieces with
  | [] => (b, [], Ok tt)
  | chunk :: pieces =>
      let blocks := llen chunk / BLOCK_SIZE in
      if U16_MAX <? blocks then (b, chunk :: pieces, Err ReadTooLarge) else
      match command b 0 (read10_cdb current_lba blocks) DirIn chunk with
      | (b, chunk', Err e) => (b, chunk' :: pieces, Err e)
      | (b, chunk', Ok _) =>
          let remaining := remaining - llen chunk in
          if negb (remaining =? 0) then
            match checked_add 32 current_lba blocks with
            | None => (b, chunk' :: pieces, Err LbaOverflow)
            | Some lba =>
                let '(b, rest, r) := read10_loop b lba remaining pieces in
                (b, chunk' :: rest, r)
            end
          else
            let '(b, rest, r) := read10_loop b current_lba remaining pieces in
            (b, chunk' :: rest, r)
      end
  end.

(** @ xhci/msc.rs:341-359 Bot::read10 *)
Definition read10 b (lba : Z) (data : list Z) : Bot T * list Z * result unit BotError :=
  if (llen data =? 0) || negb (is_multiple_of (llen data) BLOCK_SIZE) then (b, data, Err ReadTooLarge) else
  let '(b, pieces, r) := read10_loop b lba (llen data) (chunks (Z.to_nat MAX_READ_BYTES) data) in
  (b, concat pieces, r).
End Driver.

(** ** Status wrappers *)

(** The only status wrapper that reports a successful command with tag [tag]. *)
Definition csw_ok (tag : Z) : list Z := to_le 4 CSW_SIGNATURE ++ to_le 4 tag ++ [0; 0; 0; 0; 0].

Definition csw_check (bs : list Z) (tag requested : Z) : result unit BotError :=
  match csw_parse bs with Ok c => csw_validate c tag requested | Err e => Err e end.

Lemma from_le_to_le l n : bytes l -> length l = n -> to_le n (from_le l) = l.
Proof. intros Hb <-. by apply to_from_le. Qed.

Lemma csw_check_ok tag requested :
  fits 32 tag -> 0 <= requested -> csw_check (csw_ok tag) tag requested = Ok tt.
Proof.
  intros Ht Hr. unfold csw_check, csw_parse, csw_ok.
  change (llen (to_le 4 CSW_SIGNATURE ++ to_le 4 tag ++ [0; 0; 0; 0; 0])) with 13.
  change (word_at (to_le 4 CSW_SIGNATURE ++ to_le 4 tag ++ [0; 0; 0; 0; 0]) 0) with (to_le 4 CSW_SIGNATURE).
  change (word_at (to_le 4 CSW_SIGNATURE ++ to_le 4 tag ++ [0; 0; 0; 0; 0]) 4) with (to_le 4 tag).
  change (word_at (to_le 4 CSW_SIGNATURE ++ to_le 4 tag ++ [0; 0; 0; 0; 0]) 8) with [0; 0; 0; 0].
  change ((to_le 4 CSW_SIGNATURE ++ to_le 4 tag ++ [0; 0; 0; 0; 0]) !!! 12%nat) with 0.
  rewrite !from_to_le. unfold csw_validate. cbn [csw_tag csw_residue csw_status].
  change (256 ^ Z.of_nat 4) with (2 ^ 32). rewrite (Z.mod_small tag) by exact Ht.
  change (13 =? CSW_LEN) with true. change (CSW_SIGNATURE mod 2 ^ 32 =? CSW_SIGNATURE) with true.
  change (2 <? 0) with false. change (from_le [0; 0; 0; 0]) with 0. cbn [negb csw_tag csw_residue csw_status].
  rewrite (Z.eqb_refl tag). cbn [negb]. by destruct (Z.ltb_spec requested 0); [lia|].
Qed.

Lemma csw_check_inv bs tag requested :
  bytes bs -> csw_check bs tag requested = Ok tt -> bs = csw_ok tag.
Proof.
  intros Hb. unfold csw_check, csw_parse.
  destruct (Z.eqb_spec (llen bs) CSW_LEN) as [Hl|]; [|done]. cbn [negb].
  destruct (Z.eqb_spec (from_le (word_at bs 0)) CSW_SIGNATURE) as [Hs|]; [|done]. cbn [negb].
  destruct (Z.ltb_spec 2 (bs !!! 12%nat)); [done|].
  unfold csw_validate. cbn [csw_tag csw_residue csw_status].
  destruct (Z.eqb_spec (from_le (word_at bs 4)) tag) as [Ht|]; [|done]. cbn [negb].
  destruct (Z.ltb_spec requested (from_le (word_at bs 8))); [done|].
  destruct (Z.eqb_spec (bs !!! 12%nat) 0) as [Hst|]; [|by destruct (_ =? 1)].
  destruct (Z.eqb_spec (from_le (word_at bs 8)) 0) as [Hr|]; [|done]. intros _.
  assert (length bs = 13%nat) as Hlen by (unfold llen, CSW_LEN in Hl; lia). clear Hl.
  do 13 (destruct bs as [|? bs]; [discriminate|]). destruct bs; [|discriminate].
  assert (forall n, bytes (word_at [z; z0; z1; z2; z3; z4; z5; z6; z7; z8; z9; z10; z11] n)) as Hw.
  { intros n. unfold word_at. by apply Forall_take, Forall_drop. }
  apply (f_equal (to_le 4)) in Hs, Ht, Hr.
  rewrite from_le_to_le in Hs, Ht, Hr by (try apply Hw; done).
  unfold csw_ok. rewrite <- Hs, <- Ht. cbn in Hst.
  subst z11. change (to_le 4 0) with [0; 0; 0; 0] in Hr. unfold word_at in *. cbn in Hr |- *.
  by simplify_eq.
Qed.

(** A status wrapper is accepted for the command with tag [tag] exactly
    when it is the thirteen bytes "USBS", the tag, residue zero, status zero:
    a stale tag, a short transfer, a phase error or a failed command is never
    taken for success. *)
Theorem csw_accepted_iff (bs : list Z) (tag requested : Z) :
  bytes bs -> fits 32 tag -> 0 <= requested ->
  (match csw_parse bs with Ok c => csw_validate c tag requested | Err e => Err e end) = Ok tt
  <-> bs = csw_ok tag.
Proof.
  intros Hb Ht Hr. split; [by apply csw_check_inv|]. intros ->. by apply csw_check_ok.
Qed.

Lemma csw_accepted_iff_witness :
  let bs := [0x55; 0x53; 0x42; 0x53; 0x44; 0x33; 0x22; 0x11; 0; 0; 0; 0; 0] in
  bytes bs /\
  ((match csw_parse bs with Ok c => csw_validate c 0x11223344 512 | Err e => Err e end) = Ok tt
    <-> bs = csw_ok 0x11223344) /\ bs = csw_ok 0x11223344.
Proof.
  assert (bytes [0x55; 0x53; 0x42; 0x53; 0x44; 0x33; 0x22; 0x11; 0; 0; 0; 0; 0]) as Hb
    by (repeat constructor; unfold is_byte; lia).
  split; [exact Hb|]. split; [apply csw_accepted_iff; [exact Hb|split; lia|lia]|].
  vm_compute; reflexivity.
Defined.

(** ** A conforming disk *)

Definition sectors (sector : Z -> list Z) (lba n : Z) : list Z := concat (map sector (seqZ lba n)).

(** What the mass-storage class and SCSI specifications say of the 31 bytes that ask
    for the [n] blocks from [lba] on: the signature "USBC"; the number of bytes to
    transfer, little-endian; bit 7 of the flags for data to the host; unit 0; a command
    of ten bytes, READ(10) = 0x28, without options, with a big-endian address and a
    big-endian count. *)
Record asks_read10 (packet : list Z) (lba n : Z) : Prop := {
  ar_length : llen packet = 31;
  ar_signature : take 4 packet = [0x55; 0x53; 0x42; 0x43];
  ar_transfer : from_le (take 4 (drop 8 packet)) = n * 512;
  ar_to_host : Z.testbit (packet !!! 12%nat) 7 = true;
  ar_unit : packet !!! 13%nat = 0;
  ar_command : packet !!! 14%nat = 10;
  ar_opcode : packet !!! 15%nat = 0x28;
  ar_options : packet !!! 16%nat = 0 /\ packet !!! 21%nat = 0 /\ packet !!! 24%nat = 0;
  ar_address : from_be (take 4 (drop 17 packet)) = lba;
  ar_count : from_be (take 2 (drop 22 packet)) = n;
}.

(** The thirteen bytes of a good status: "USBS", the tag of the command as it came,
    nothing left to transfer, status 0. *)
Definition good_status (packet : list Z) : list Z :=
  [0x55; 0x53; 0x42; 0x53] ++ take 4 (drop 4 packet) ++ [0; 0; 0; 0; 0].

(** What the specifications promise of a disk of [capacity] sectors in an idle
    state: a READ(10) inside the medium is answered by exactly the sectors asked
    for and by a good status, and leaves the disk idle. *)
Class BotDisk (T : Type) `{BotTransport T} (idle : T -> Prop) (capacity : Z) (sector : Z -> list Z) := {
  disk_capacity : 0 <= capacity <= 2 ^ 32;
  disk_sector : forall i, llen (sector i) = 512;
  disk_read : forall t packet lba n buf,
    idle t -> asks_read10 packet lba n -> 0 <= lba -> 0 < n -> lba + n <= capacity -> llen buf = n * 512 ->
    exists t1 t2 t3,
      bulk_out t packet = (t1, Ok 31) /\
      bulk_in t1 buf = (t2, sectors sector lba n, Ok (n * 512)) /\
      bulk_in t2 (replicate 13 0) = (t3, good_status packet, Ok 13) /\ idle t3;
}.

(** The packet the driver sends is such a request. *)
Lemma cbw_asks_read10 tag lba n :
  0 <= lba < 2 ^ 32 -> 0 < n <= U16_MAX -> asks_read10 (cbw tag (n * 512) DirIn 0 (read10_cdb lba n)) lba n.
Proof.
  intros Hl Hn. unfold U16_MAX in *. split; try done.
  - change (from_le (to_le 4 (n * 512)) = n * 512). rewrite from_to_le, Z.mod_small by lia. done.
  - change (from_be (to_be 4 lba) = lba). rewrite from_to_be, Z.mod_small by lia. done.
  - change (from_be (to_be 2 n) = n). rewrite from_to_be, Z.mod_small by lia. done.
Qed.
Lemma good_status_csw tag len d lun cdb : good_status (cbw tag len d lun cdb) = csw_ok tag.
Proof. done. Qed.

Section Disk.
Context {T : Type} `{BotTransport T} (idle : T -> Prop) (capacity : Z) (sector : Z -> list Z).
Context `{!BotDisk T idle capacity sector}.
Implicit Types (b : Bot T).

Lemma llen_sectors lba n : 0 <= n -> llen (sectors sector lba n) = n * 512.
Proof.
  intros Hn. unfold sectors. rewrite <- (Z2Nat.id n) by done. generalize (Z.to_nat n). clear n Hn.
  intros k. revert lba. induction k as [|k IH]; intros lba; [done|].
  rewrite seqZ_cons by lia. cbn [map concat]. rewrite llen_app, disk_sector.
  replace (Z.pred (Z.of_nat (S k))) with (Z.of_nat k) by lia. rewrite IH. lia.
Qed.

Lemma sectors_app lba m n :
  0 <= m -> 0 <= n -> sectors sector lba (m + n) = sectors sector lba m ++ sectors sector (lba + m) n.
Proof. intros. unfold sectors. rewrite seqZ_app by done. by rewrite map_app, concat_app. Qed.

Lemma command_reads b lba n buf :
  idle (transport b) -> fits 32 (next_tag b) -> 0 <= lba -> 0 < n <= U16_MAX ->
  lba + n <= capacity -> llen buf = n * 512 ->
  exists b', command b 0 (read10_cdb lba n) DirIn buf = (b', sectors sector lba n, Ok tt) /\
    idle (transport b') /\ next_tag b' = wrapping_add 32 (next_tag b) 1.
Proof.
  intros Hi Ht Hl Hn Hc Hb.
  pose proof disk_capacity as Hcap.
  destruct (disk_read (transport b) (cbw (next_tag b) (n * 512) DirIn 0 (read10_cdb lba n)) lba n buf)
    as (t1 & t2 & t3 & H1 & H2 & H3 & H4); [done|apply cbw_asks_read10; lia|lia..|].
  rewrite good_status_csw in H3.
  unfold command. cbn [command_loop]. unfold command_once.
  change (llen (read10_cdb lba n)) with 10. cbn [orb Z.eqb Z.ltb]. simpl (16 <? 10). cbn iota.
  unfold set_tag. cbn [transport]. rewrite Hb. unfold U16_MAX in *.
  rewrite wrap_small by (unfold fits; lia). rewrite H1. simpl (negb _). cbn iota.
  unfold data_stage. destruct buf as [|x buf]; [unfold llen in Hb; simpl in Hb; lia|].
  rewrite H2, Hb, Z.eqb_refl. unfold status_stage. rewrite llen_sectors, H3 by lia.
  simpl (negb _). cbn iota.
  pose proof (csw_check_ok (next_tag b) (n * 512) Ht ltac:(lia)) as Hcsw. unfold csw_check in Hcsw.
  rewrite Hcsw. eexists. split; [reflexivity|]. done.
Qed.

Lemma read10_loop_reads k : Z.of_nat k = MAX_READ_BYTES -> forall data b lba n,
  idle (transport b) -> fits 32 (next_tag b) -> 0 <= lba -> llen data = n * 512 -> lba + n <= capacity ->
  exists b' pieces,
    read10_loop b lba (llen data) (chunks k data) = (b', pieces, Ok tt) /\
    concat pieces = sectors sector lba n /\ idle (transport b') /\ fits 32 (next_tag b').
Proof.
  intros Hk. pose proof disk_capacity as Hcap. unfold MAX_READ_BYTES in Hk.
  refine (chunks_ind k _ _ _ _); [lia| |].
  - intros b lba n Hi Ht Hl Hn Hc. rewrite chunks_nil. exists b, [].
    assert (n = 0) as -> by (unfold llen in Hn; simpl in Hn; lia). done.
  - intros data Hne IH b lba n Hi Ht Hl Hn Hc.
    rewrite chunks_unfold by (auto; lia). cbn [read10_loop].
    set (chunk := take _ data). set (m := Z.min 128 n).
    assert (llen chunk = m * 512) as Hchunk.
    { unfold chunk, llen, m in *. rewrite length_take. lia. }
    assert (0 < n) as Hpos.
    { destruct data; [done|]. unfold llen in Hn. simpl in Hn. lia. }
    assert (llen (drop k data) = (n - m) * 512) as Hdrop.
    { unfold llen, m in *. rewrite length_drop. lia. }
    rewrite Hchunk. unfold BLOCK_SIZE. rewrite Z.div_mul by lia.
    rewrite (proj2 (Z.ltb_ge _ _)) by (unfold U16_MAX, m; lia).
    destruct (command_reads b lba m chunk) as (b1 & -> & Hi1 & Ht1); auto; [unfold U16_MAX, m; lia|unfold m; lia|].
    assert (fits 32 (next_tag b1)) as Ht1' by (rewrite Ht1; apply fits_wrap; lia).
    replace (llen data - m * 512) with (llen (drop k data)) by lia.
    destruct (Z.eqb_spec (llen (drop k data)) 0) as [Hz|Hz]; cbn [negb].
    + destruct (drop k data) as [|? ?] eqn:Ed; [|unfold llen in Hz; simpl in Hz; lia].
      rewrite chunks_nil. cbn [read10_loop]. eexists _, _. split; [reflexivity|].
      assert (n = m) as <- by lia. simpl. by rewrite app_nil_r.
    + unfold checked_add. rewrite (proj2 (Z.ltb_lt _ _)) by (unfold m in *; lia).
      destruct (IH b1 (lba + m) (n - m)) as (b2 & pieces & -> & Hp & Hi2 & Ht2); auto; [lia..|].
      eexists _, _. split; [reflexivity|]. cbn [concat]. rewrite Hp. split; [|done].
      rewrite <- sectors_app by lia. f_equal. lia.
Qed.
End Disk.

(** C16: Over any disk that conforms to the mass-storage and SCSI specifications (a
    command is judged by its 31 bytes: signature, length, direction, opcode, address
    and count), [Bot::read10] of a non-empty, sector-aligned buffer inside the medium
    succeeds and fills the buffer with exactly the sectors [lba, lba + n), whatever its
    size: the 64 KiB chunks are issued at consecutive addresses without overflow and
    the disk is idle again. *)
Theorem read10_reads_sectors {T : Type} `{BotTransport T} (idle : T -> Prop) (capacity : Z)
    (sector : Z -> list Z) `{!BotDisk T idle capacity sector} (b : Bot T) (lba n : Z) (data : list Z) :
  idle (transport b) -> fits 32 (next_tag b) -> 0 <= lba -> 0 < n -> llen data = n * 512 ->
  lba + n <= capacity ->
  exists b', read10 b lba data = (b', sectors sector lba n, Ok tt) /\ idle (transport b') /\
    fits 32 (next_tag b').
Proof.
  intros Hi Ht Hl Hn Hd Hc. unfold read10.
  rewrite (proj2 (Z.eqb_neq (llen data) 0)) by lia.
  assert (is_multiple_of (llen data) BLOCK_SIZE = true) as ->.
  { unfold is_multiple_of, BLOCK_SIZE. simpl. rewrite Hd, Z.mod_mul by lia. done. }
  destruct (read10_loop_reads idle capacity sector (Z.to_nat MAX_READ_BYTES)
    (Z2Nat.id MAX_READ_BYTES ltac:(done)) data b lba n) as (b' & pieces & -> & <- & ?); auto.
  exists b'. done.
Qed.

(** ** A concrete disk

    A disk whose sector [i] is filled with the byte [i mod 256]: it decodes the
    command wrapper, queues the sectors and the status, and hands them out. *)
Definition fill_sector (i : Z) : list Z := replicate 512 (i mod 256).
#[local] Instance asks_read10_dec packet lba n : Decision (asks_read10 packet lba n).
Proof.
  destruct (decide (llen packet = 31 /\ take 4 packet = [0x55; 0x53; 0x42; 0x43] /\
    from_le (take 4 (drop 8 packet)) = n * 512 /\ Z.testbit (packet !!! 12%nat) 7 = true /\ packet !!! 13%nat = 0 /\
    packet !!! 14%nat = 10 /\ packet !!! 15%nat = 0x28 /\
    (packet !!! 16%nat = 0 /\ packet !!! 21%nat = 0 /\ packet !!! 24%nat = 0) /\
    from_be (take 4 (drop 17 packet)) = lba /\ from_be (take 2 (drop 22 packet)) = n)) as [Hd|Hd].
  - left. abstract (destruct Hd as (?&?&?&?&?&?&?&?&?&?); by split).
  - right. abstract (intros []; by apply Hd).
Defined.
Definition disk_answer (packet : list Z) : list (list Z) :=
  let lba := from_be (take 4 (drop 17 packet)) in
  let n := from_be (take 2 (drop 22 packet)) in
  if decide (asks_read10 packet lba n) then [sectors fill_sector lba n; good_status packet] else [].
#[local] Instance fill_disk : BotTransport (list (list Z)) := {
  control_in q _ buf := (q, buf, Err Stall);
  control_out q _ := (q, Ok tt);
  bulk_out q packet := (disk_answer packet, Ok (llen packet));
  bulk_in q buf :=
    match q with
    | r :: q => (q, take (length buf) r ++ drop (length r) buf, Ok (Z.min (llen buf) (llen r)))
    | [] => ([], buf, Err Stall)
    end;
}.

Lemma fill_sector_len i : llen (fill_sector i) = 512.
Proof. unfold fill_sector. by rewrite llen_replicate. Qed.

Lemma fill_sectors_len lba n : 0 <= n -> llen (sectors fill_sector lba n) = n * 512.
Proof.
  intros Hn. unfold sectors. rewrite <- (Z2Nat.id n) by done. generalize (Z.to_nat n). clear n Hn.
  intros k. revert lba. induction k as [|k IH]; intros lba; [done|].
  rewrite seqZ_cons by lia. cbn [map concat]. rewrite llen_app, fill_sector_len.
  replace (Z.pred (Z.of_nat (S k))) with (Z.of_nat k) by lia. rewrite IH. lia.
Qed.

Lemma fill_bulk_in (r buf : list Z) (q : list (list Z)) :
  llen r = llen buf -> bulk_in (r :: q) buf = (q, r, Ok (llen buf)).
Proof.
  unfold llen. intros Hl. simpl. rewrite take_ge by lia. rewrite drop_ge by lia.
  rewrite app_nil_r. unfold llen. by rewrite Hl, Z.min_id.
Qed.

#[local] Instance fill_disk_ok : BotDisk (list (list Z)) (fun q => q = []) 1000 fill_sector.
Proof.
  split; [lia|exact fill_sector_len|].
  intros t packet lba n buf -> Ha Hl Hn Hc Hb.
  assert (disk_answer packet = [sectors fill_sector lba n; good_status packet]) as Hd.
  { unfold disk_answer. rewrite (ar_address _ _ _ Ha), (ar_count _ _ _ Ha). by rewrite decide_True. }
  exists [sectors fill_sector lba n; good_status packet], [good_status packet], [].
  split; [cbn [bulk_out fill_disk]; rewrite Hd; by rewrite (ar_length _ _ _ Ha)|].
  split; [rewrite fill_bulk_in by (rewrite fill_sectors_len; lia); by rewrite Hb|].
  split; [|done]. apply fill_bulk_in. pose proof (ar_length _ _ _ Ha).
  unfold good_status, llen in *. rewrite !length_app, length_take, length_drop. cbn [length replicate]. lia.
Qed.

Lemma read10_reads_sectors_witness :
  exists b', read10 (bot_new [] 0 0x81 2) 7 (replicate (Z.to_nat 1024) 0)
             = (b', sectors fill_sector 7 2, Ok tt) /\ transport b' = [] /\ fits 32 (next_tag b').
Proof.
  apply (read10_reads_sectors (fun q : list (list Z) => q = []) 1000 fill_sector (bot_new [] 0 0x81 2) 7 2);
    [reflexivity|split; reflexivity || (cbn; lia)|lia|lia|reflexivity|lia].
Defined.

(** ** Bounded recovery

    A transport that records its calls, over any transport. *)
Inductive transport_call :=
  | CallControlIn (r : SetupRequest)
  | CallControlOut (r : SetupRequest)
  | CallBulkOut (data : list Z)
  | CallBulkIn (len : Z).

#[local] Instance logged (T : Type) `{BotTransport T} : BotTransport (T * list transport_call) := {
  control_in t r buf := let '(t', buf, x) := control_in t.1 r buf in (t', t.2 ++ [CallControlIn r], buf, x);
  control_out t r := let '(t', x) := control_out t.1 r in (t', t.2 ++ [CallControlOut r], x);
  bulk_out t data := let '(t', x) := bulk_out t.1 data in (t', t.2 ++ [CallBulkOut data], x);
  bulk_in t buf := let '(t', buf', x) := bulk_in t.1 buf in (t', t.2 ++ [CallBulkIn (llen buf)], buf', x);
}.

(** A receive buffer is a [&mut [u8]]: its length does not change. *)
Class BotBuffers (T : Type) `{BotTransport T} :=
  bulk_in_len : forall t buf, llen (bulk_in t buf).1.2 = llen buf.

Section Recovery.
Context {T : Type} `{BotTransport T} `{!BotBuffers T}.
Implicit Types (b : Bot (T * list transport_call)).

(** The calls of one complete attempt and of one complete recovery. *)
Definition stage_calls (d : DataDirection) (data : list Z) : list transport_call :=
  match d, data with
  | DirIn, _ :: _ => [CallBulkIn (llen data)]
  | DirOut, _ :: _ => [CallBulkOut data]
  | _, _ => []
  end.
Definition attempt_calls (tag : Z) (lun : Z) (cdb : list Z) (d : DataDirection) (data : list Z) :=
  [CallBulkOut (cbw tag (wrap 32 (llen data)) d lun cdb)] ++ stage_calls d data ++ [CallBulkIn CSW_LEN].
Definition recovery_calls b :=
  [CallControlOut (bot_reset (bot_interface b)); CallControlOut (clear_halt (bot_bulk_in b));
   CallControlOut (clear_halt (bot_bulk_out b))].

Definition log b : list transport_call := (transport b).2.

Lemma recover_calls b :
  exists k, log (recover b).1 = log b ++ take k (recovery_calls b) /\
    ((recover b).2 = Ok tt -> take k (recovery_calls b) = recovery_calls b) /\
    next_tag (recover b).1 = next_tag b.
Proof.
  unfold recover, log. destruct b as [[t l] i bi bo n]. cbn.
  destruct (control_out t (bot_reset i)) as [t1 [[]|e1]]; cbn; [|by exists 1%nat].
  destruct (control_out t1 (clear_halt bi)) as [t2 [[]|e2]]; cbn.
  2: { exists 2%nat. rewrite <- app_assoc. done. }
  destruct (control_out t2 (clear_halt bo)) as [t3 r]; cbn.
  exists 3%nat. rewrite <- !app_assoc. done.
Qed.

Lemma data_stage_calls (t : T * list transport_call) d data :
  let '(t', data', r) := data_stage t d data in
  t'.2 = t.2 ++ stage_calls d data /\ llen data' = llen data /\ (d = DirOut -> data' = data).
Proof.
  destruct t as [t l]. destruct d, data as [|x data]; cbn [data_stage stage_calls];
    try (rewrite app_nil_r; done).
  - pose proof (bulk_in_len t (x :: data)) as Hl. cbn [bulk_in logged fst snd].
    destruct (bulk_in t (x :: data)) as [[t' data'] r]. cbn in *. by auto.
  - cbn [bulk_out logged fst snd].
    destruct (bulk_out t (x :: data)) as [t' r]. cbn in *. by auto.
Qed.

Lemma status_stage_calls (t : T * list transport_call) tag n :
  (status_stage t tag n).1.2 = t.2 ++ [CallBulkIn CSW_LEN].
Proof.
  destruct t as [t l]. unfold status_stage. cbn [bulk_in logged fst snd].
  by destruct (bulk_in t (replicate 13 0)) as [[t' s] r].
Qed.

(** One attempt: a prefix of the calls of a complete one, all of them when it
    reports success. *)
Lemma command_once_calls b lun cdb d data :
  0 < llen cdb <= 16 ->
  let '(b', data', r) := command_once b lun cdb d data in
  exists k, log b' = log b ++ take k (attempt_calls (next_tag b) lun cdb d data) /\
    (r = Ok tt -> take k (attempt_calls (next_tag b) lun cdb d data) = attempt_calls (next_tag b) lun cdb d data) /\
    next_tag b' = wrapping_add 32 (next_tag b) 1 /\ recovery_calls b' = recovery_calls b /\
    (forall tag, attempt_calls tag lun cdb d data' = attempt_calls tag lun cdb d data).
Proof.
  intros Hc. destruct b as [[t l] i bi bo tag]. unfold command_once.
  rewrite (proj2 (Z.eqb_neq _ _)), (proj2 (Z.ltb_ge _ _)) by lia. cbn [orb].
  unfold log, set_tag, set_transport. cbn [transport next_tag bot_interface bot_bulk_in bot_bulk_out].
  unfold attempt_calls. cbn [bulk_out logged fst snd].
  destruct (bulk_out t (cbw tag (wrap 32 (llen data)) d lun cdb)) as [t1 [n|e]].
  2: { exists 1%nat. done. }
  destruct (negb (n =? CBW_LEN)); [exists 1%nat; done|].
  pose proof (data_stage_calls (t1, l ++ [CallBulkOut (cbw tag (wrap 32 (llen data)) d lun cdb)]) d data) as Hd.
  destruct (data_stage _ d data) as [[t2 data'] r2]. destruct Hd as (Hl & Hlen & Hout).
  assert (forall tag0, attempt_calls tag0 lun cdb d data' = attempt_calls tag0 lun cdb d data) as Hsame.
  { intros tag0. unfold attempt_calls, stage_calls. rewrite Hlen. destruct d; [|by rewrite Hout|done].
    destruct data, data'; unfold llen in Hlen; simpl in Hlen; try lia; done. }
  unfold attempt_calls in Hsame. cbn [fst snd] in Hl.
  destruct r2 as [[]|e].
  - pose proof (status_stage_calls t2 tag (llen data')) as Hs.
    destruct (status_stage t2 tag (llen data')) as [t3 r3]. cbn [fst snd transport] in *.
    exists 3%nat. rewrite Hs, Hl, <- !app_assoc. rewrite take_ge; [done|].
    destruct d, data; simpl; lia.
  - exists (1 + length (stage_calls d data))%nat. cbn [transport snd]. rewrite Hl, <- app_assoc.
    cbn [app take Nat.add]. rewrite take_app_length. done.
Qed.

Lemma command_loop_2_calls b lun cdb d data :
  0 < llen cdb <= 16 ->
  let first := attempt_calls (next_tag b) lun cdb d data in
  let second := attempt_calls (wrapping_add 32 (next_tag b) 1) lun cdb d data in
  let '(b', data', r) := command b lun cdb d data in
  exists i j k,
    log b' = log b ++ take i first ++ take j (recovery_calls b) ++ take k second /\
    ((0 < j + k)%nat -> exists e, (command_once b lun cdb d data).2 = Err e /\ recovery_for e = ResetAndClearHalts) /\
    ((0 < k)%nat -> take j (recovery_calls b) = recovery_calls b) /\
    (r = Ok tt -> (take i first = first /\ j = 0%nat /\ k = 0%nat) \/
                  (take k second = second /\ (0 < k)%nat)).
Proof.
  intros Hc first second. unfold command. cbn [command_loop].
  pose proof (command_once_calls b lun cdb d data Hc) as H1.
  destruct (command_once b lun cdb d data) as [[b1 d1] [[]|e1]]; destruct H1 as (i & Hl1 & Hi & Ht1 & Hr1 & Hs1).
  { exists i, 0%nat, 0%nat. simpl. rewrite !app_nil_r. split; [done|]. split; [lia|]. split; [lia|]. intros _. left. auto. }
  cbn [snd]. destruct (true && recoverable e1) eqn:Hrec.
  2: { exists i, 0%nat, 0%nat. simpl. rewrite !app_nil_r. split; [done|]. split; [lia|]. split; [lia|done]. }
  assert (exists e, Err (T := unit) e1 = Err e /\ recovery_for e = ResetAndClearHalts) as Herr.
  { exists e1. split; [done|]. by apply bool_decide_eq_true in Hrec. }
  pose proof (recover_calls b1) as (j & Hl2 & Hj & Ht2). rewrite Hr1 in *.
  destruct (recover b1) as [b2 [[]|e2]]; cbn [fst snd] in *.
  2: { exists i, j, 0%nat. simpl. rewrite Hl2, Hl1, app_nil_r, <- app_assoc. split; [done|]. split; [done|]. split; [lia|done]. }
  pose proof (command_once_calls b2 lun cdb d d1 Hc) as H3. rewrite Ht2, Ht1, Hs1 in H3.
  destruct (command_once b2 lun cdb d d1) as [[b3 d3] r3]. destruct H3 as (k & Hl3 & Hk & _).
  specialize (Hj eq_refl). fold second in Hl3, Hk.
  destruct r3 as [[]|e3]; simpl andb; cbn iota.
  - specialize (Hk eq_refl). exists i, j, 3%nat. rewrite Hl3, Hl2, Hl1, Hk, <- !app_assoc.
    assert (take 3 second = second) as ->
      by (apply take_ge; unfold second, attempt_calls, stage_calls; destruct d, data; simpl; lia).
    split; [done|]. split; [done|]. split; [done|]. intros _. right. split; [done|lia].
  - exists i, j, k. by rewrite Hl3, Hl2, Hl1, <- !app_assoc.
Qed.
End Recovery.

(** C33: [Bot::command] is bounded and recovers at most once: on any transport
    it makes a prefix of the calls of one attempt, then, only if that attempt ended
    in an error that asks for it (not in success, nor in a failed command or another
    error that takes the disk offline), a prefix of the reset recovery (bulk-only
    reset, clear both halts), then, only after a complete recovery, a prefix of one
    more attempt with the next tag; at most nine calls in all.  Success is reported
    only when the last attempt went through command, data and status. *)
Theorem bot_command_bounded {T : Type} `{BotTransport T} `{!BotBuffers T}
    (b : Bot (T * list transport_call)) (lun : Z) (cdb : list Z) (d : DataDirection) (data : list Z) :
  0 < llen cdb <= 16 ->
  let first := attempt_calls (next_tag b) lun cdb d data in
  let second := attempt_calls (wrapping_add 32 (next_tag b) 1) lun cdb d data in
  let '(b', data', r) := command b lun cdb d data in
  exists i j k,
    log b' = log b ++ take i first ++ take j (recovery_calls b) ++ take k second /\
    ((0 < j + k)%nat -> exists e, (command_once b lun cdb d data).2 = Err e /\
       e ∉ [CommandFailed; Capacity16Required; ReadTooLarge; LbaOverflow]) /\
    ((0 < k)%nat -> take j (recovery_calls b) = recovery_calls b) /\
    (length (log b') <= length (log b) + 9)%nat /\
    (r = Ok tt -> (take i first = first /\ j = 0%nat /\ k = 0%nat) \/
                  (take k second = second /\ (0 < k)%nat)).
Proof.
  intros Hc first second. pose proof (command_loop_2_calls b lun cdb d data Hc) as Hl.
  destruct (command b lun cdb d data) as [[b' data'] r].
  destruct Hl as (i & j & k & Hl & He & Hj & Hr). exists i, j, k. split; [done|]. split.
  { intros Hjk. destruct (He Hjk) as (e & -> & Hrec). exists e. split; [done|]. intros Hin. clear -Hrec Hin.
    repeat (apply elem_of_cons in Hin as [->|Hin]; [done|]). by apply elem_of_nil in Hin. }
  split; [done|]. split; [|done].
  assert (forall tag, (length (attempt_calls tag lun cdb d data) <= 3)%nat) as Ha.
  { intros tag. unfold attempt_calls, stage_calls. destruct d, data; simpl; lia. }
  pose proof (Ha (next_tag b)). pose proof (Ha (wrapping_add 32 (next_tag b) 1)).
  rewrite Hl, !length_app, !length_take. simpl (length (recovery_calls b)). lia.
Qed.

#[local] Instance fill_disk_buffers : BotBuffers (list (list Z)).
Proof.
  intros q buf. destruct q as [|r q]; [done|]. simpl. unfold llen.
  rewrite length_app, length_take, length_drop. lia.
Qed.

(** A READ(10) of one sector on the concrete disk. *)
Lemma bot_command_bounded_witness :
  0 < llen test_unit_ready <= 16 /\
  (let b := bot_new ([] : list (list Z), []) 0 0x81 2 in
   let '(b', _, _) := command b 0 (read10_cdb 3 1) DirIn (replicate 512 0) in
   (length (log b') <= length (log b) + 9)%nat).
Proof.
  split; [unfold llen; simpl; lia|].
  pose proof (bot_command_bounded (bot_new ([] : list (list Z), []) 0 0x81 2) 0 (read10_cdb 3 1) DirIn
    (replicate 512 0) ltac:(split; reflexivity || done)) as Hw. cbv zeta in Hw |- *.
  destruct (command _ 0 (read10_cdb 3 1) DirIn (replicate 512 0)) as [[b' data'] r].
  destruct Hw as (i & j & k & _ & _ & _ & Hlen & _). exact Hlen.
Defined.
