(* ===== verification/Bulk.v ===== *)
(** * Bulk transfer descriptors: [xhci/bulk.rs] *)

From S2P Require Import Prelude Words Trb.

(** @ xhci/bulk.rs:8-8 MAX_TD_TRANSFER *)
Definition MAX_TD_TRANSFER : Z := 0x10000.
(** @ xhci/bulk.rs:9-9 TRB_IOC *)
Definition TRB_IOC : Z := Z.shiftl 1 5.
(** @ xhci/bulk.rs:10-10 TRB_DIR_IN *)
Definition TRB_DIR_IN : Z := Z.shiftl 1 16.

(** @ xhci/bulk.rs:13-19 BulkError *)
Inductive BulkError :=
  | BulkEmpty | BulkTooLarge | BulkCompletionCode (c : CompletionCode) | BulkInvalidResidual | BulkShortPacket.

(** @ xhci/bulk.rs:22-25 BulkCompletion *)
Record BulkCompletion := mk_BulkCompletion { transferred : Z; short_packet : bool }.

(** @ xhci/bulk.rs:29-49 normal_trb *)
Definition normal_trb (buffer len : Z) (in_direction cycle : bool) : result Trb BulkError :=
  if len =? 0 then Err BulkEmpty else
  if MAX_TD_TRANSFER <? len then Err BulkTooLarge else
  Ok (mk_Trb buffer (wrap 32 len)
    (Z.lor (Z.lor (Z.lor TRB_TYPE_NORMAL TRB_IOC) (if in_direction then TRB_DIR_IN else 0))
           (if cycle then TRB_CYCLE else 0))).

(** @ xhci/bulk.rs:53-76 completion *)
Definition completion (code : CompletionCode) (requested residual : Z) (in_direction : bool)
    : result BulkCompletion BulkError :=
  if requested <? residual then Err BulkInvalidResidual else
  match code with
  | Success =>
      if residual =? 0 then Ok (mk_BulkCompletion requested false)
      else if in_direction then Ok (mk_BulkCompletion (requested - residual) true)
      else Err (BulkCompletionCode Success)
  | ShortPacket =>
      if in_direction then Ok (mk_BulkCompletion (requested - residual) true)
      else Err BulkShortPacket
  | other => Err (BulkCompletionCode other)
  end.

(** A bulk completion is accepted only for the codes Success and Short
    Packet and a residual within the request; the byte count is then
    [requested - residual], an OUT transfer is accepted only when it moved every
    byte, and a transfer not reported short moved every byte. *)
Theorem bulk_completion_sound (code : CompletionCode) (requested residual : Z) (in_direction : bool) (c : BulkCompletion) :
  0 <= residual ->
  completion code requested residual in_direction = Ok c ->
  residual <= requested /\ (code = Success \/ code = ShortPacket) /\
  transferred c = requested - residual /\ 0 <= transferred c <= requested /\
  (in_direction = false -> code = Success /\ transferred c = requested) /\
  (short_packet c = false -> transferred c = requested).
Proof.
  intros Hr. unfold completion. destruct (Z.ltb_spec requested residual); [done|].
  destruct code; try done; try (destruct (Z.eqb_spec residual 0)); destruct in_direction;
    intros [= <-]; simpl; subst; repeat split; auto; try lia; done.
Qed.

Lemma bulk_completion_sound_witness :
  completion ShortPacket 512 64 true = Ok (mk_BulkCompletion 448 true) /\ 448 = 512 - 64.
Proof.
  split; [reflexivity|].
  exact (proj1 (proj2 (proj2 (bulk_completion_sound ShortPacket 512 64 true (mk_BulkCompletion 448 true)
    ltac:(lia) eq_refl)))).
Defined.

(** The TRB names its buffer and length, interrupts on completion, is not
    chained and carries the producer's cycle bit. *)
Lemma normal_trb_spec buffer len dir c t :
  0 <= len -> normal_trb buffer len dir c = Ok t ->
  0 < len <= MAX_TD_TRANSFER /\ parameter t = buffer /\ status t = len /\
  trb_type t = TRB_TYPE_NORMAL /\ trb_cycle t = c /\
  Z.land (control t) TRB_IOC = TRB_IOC /\ Z.land (control t) TRB_CHAIN = 0.
Proof.
  intros Hl. unfold normal_trb. destruct (Z.eqb_spec len 0); [done|].
  destruct (Z.ltb_spec MAX_TD_TRANSFER len); [done|]. intros [= <-].
  unfold MAX_TD_TRANSFER in *. split; [lia|]. split; [done|]. cbn [status].
  split; [apply Z.mod_small; unfold MAX_TD_TRANSFER in *; lia|].
  destruct dir, c; vm_compute; done.
Qed.
