(* ===== verification/Input.v ===== *)
(** * Input devices: [inputdev.rs]

    The source-neutral mouse events and the interface of the input sink: what the
    device drivers rely on.  [Ps2] models the sink and the PS/2 controller. *)

From S2P Require Import Prelude Words.

(** @ inputdev.rs:31-35 MouseButtonKind *)
Inductive MouseButtonKind := ButtonLeft | ButtonRight | ButtonMiddle.

(** @ inputdev.rs:18-28 MouseEvent *)
Inductive MouseEvent :=
  | MouseMove (x y : Z)
  | MouseScroll (lines : Z)
  | MouseButton (button : MouseButtonKind) (pressed : bool).
#[global] Instance MouseButtonKind_eq_dec : EqDecision MouseButtonKind.
Proof. solve_decision. Defined.
#[global] Instance MouseEvent_eq_dec : EqDecision MouseEvent.
Proof. solve_decision. Defined.

(** The sink of decoded reports, [inputdev]: it may write to the terminal and to
    the input queues. *)
Class InputSink (I : Type) := {
  submit_keyboard_scancode : I -> Z -> outcome I;
  submit_mouse_event : I -> MouseEvent -> outcome I;
}.

Class InputSinkLaws (I : Type) `{InputSink I} := {
  sink_ok : I -> Prop;
  keyboard_law i code : sink_ok i -> exists i', submit_keyboard_scancode i code = Done i' /\ sink_ok i';
  mouse_law i event : sink_ok i -> exists i', submit_mouse_event i event = Done i' /\ sink_ok i';
}.
