(* ===== verification/Hid.v ===== *)
(** * HID boot reports: [xhci/hid.rs]

    Keyboard reports are compared with the set of usages held by the previous
    report and turned into Set-1 make and break codes; mouse reports into
    source-neutral events. *)

From S2P Require Import Prelude Words Input.

(** [KeyboardState] is its bitmap of 256 usages, [MouseState] its buttons. *)
(** @ xhci/hid.rs:6-8 KeyboardState *)
Record KeyboardState := mk_KeyboardState { pressed : list Z }.
(** @ xhci/hid.rs:11-13 KeyboardState::new *)
Definition keyboard_new : KeyboardState := mk_KeyboardState (replicate 32 0).

(** @ xhci/hid.rs:111-113 mark *)
Definition mark (bitmap : list Z) (usage : Z) : list Z :=
  let i := Z.to_nat (usage / 8) in
  <[i := Z.lor (bitmap !!! i) (Z.shiftl 1 (usage mod 8))]> bitmap.

(** @ xhci/hid.rs:115-117 marked *)
Definition marked (bitmap : list Z) (usage : Z) : bool :=
  negb (Z.land (bitmap !!! Z.to_nat (usage / 8)) (Z.shiftl 1 (usage mod 8)) =? 0).

(** The usages the terminal understands and their Set-1 codes. *)
(** @ xhci/hid.rs:120-180 set1_usage *)
Definition set1_usage (usage : Z) : option Z :=
  match usage with
  | 0x04 => Some 0x1e | 0x05 => Some 0x30 | 0x06 => Some 0x2e | 0x07 => Some 0x20
  | 0x08 => Some 0x12 | 0x09 => Some 0x21 | 0x0a => Some 0x22 | 0x0b => Some 0x23
  | 0x0c => Some 0x17 | 0x0d => Some 0x24 | 0x0e => Some 0x25 | 0x0f => Some 0x26
  | 0x10 => Some 0x32 | 0x11 => Some 0x31 | 0x12 => Some 0x18 | 0x13 => Some 0x19
  | 0x14 => Some 0x10 | 0x15 => Some 0x13 | 0x16 => Some 0x1f | 0x17 => Some 0x14
  | 0x18 => Some 0x16 | 0x19 => Some 0x2f | 0x1a => Some 0x11 | 0x1b => Some 0x2d
  | 0x1c => Some 0x15 | 0x1d => Some 0x2c | 0x1e => Some 0x02 | 0x1f => Some 0x03
  | 0x20 => Some 0x04 | 0x21 => Some 0x05 | 0x22 => Some 0x06 | 0x23 => Some 0x07
  | 0x24 => Some 0x08 | 0x25 => Some 0x09 | 0x26 => Some 0x0a | 0x27 => Some 0x0b
  | 0x28 => Some 0x1c | 0x29 => Some 0x01 | 0x2a => Some 0x0e | 0x2b => Some 0x0f
  | 0x2c => Some 0x39 | 0x2d => Some 0x0c | 0x2e => Some 0x0d | 0x2f => Some 0x1a
  | 0x30 => Some 0x1b | 0x31 => Some 0x2b | 0x33 => Some 0x27 | 0x34 => Some 0x28
  | 0x35 => Some 0x29 | 0x36 => Some 0x33 | 0x37 => Some 0x34 | 0x38 => Some 0x35
  | 0x39 => Some 0x3a | 0xe0 | 0xe4 => Some 0x1d | 0xe1 | 0xe5 => Some 0x2a
  | 0xe2 | 0xe6 => Some 0x38
  | _ => None
  end.

(** [0..=u8::MAX]. *)
Definition usages : list Z := seqZ 0 256.

(** The bitmap of the usages a report holds down: its modifier bits and its six
    key slots. *)
(** @ xhci/hid.rs:23-33 KeyboardState::for_each_scancode -- the [next] bitmap *)
Definition report_bitmap (report : list Z) : list Z :=
  let next := foldl (fun next modifier =>
      if negb (Z.land (report !!! 0%nat) (Z.shiftl 1 modifier) =? 0) then mark next (0xe0 + modifier) else next)
    (replicate 32 0) (seqZ 0 8) in
  foldl (fun next usage => if negb (usage =? 0) then mark next usage else next)
    next (take 6 (drop 2 report)).

(** @ xhci/hid.rs:34-41 KeyboardState::for_each_scancode -- the break codes *)
Definition breaks (old next : list Z) (us : list Z) : list Z :=
  omap (fun usage => if marked old usage && negb (marked next usage)
                     then (fun scancode => Z.lor scancode 0x80) <$> set1_usage usage else None) us.
(** @ xhci/hid.rs:42-49 KeyboardState::for_each_scancode -- the make codes *)
Definition makes (old next : list Z) (us : list Z) : list Z :=
  omap (fun usage => if negb (marked old usage) && marked next usage then set1_usage usage else None) us.

(** The new state and the codes submitted, in order. *)
(** @ xhci/hid.rs:19-51 KeyboardState::for_each_scancode *)
Definition for_each_scancode (k : KeyboardState) (report : list Z) : KeyboardState * list Z :=
  if (llen report <? 8) || bool_decide (1 ∈ take 6 (drop 2 report)) then (k, []) else
  let next := report_bitmap report in
  (mk_KeyboardState next, breaks (pressed k) next usages ++ makes (pressed k) next usages).

(** A sequence of reports. *)
Definition run_reports (k : KeyboardState) (reports : list (list Z)) : KeyboardState * list Z :=
  foldl (fun '(k, out) report => let '(k, evs) := for_each_scancode k report in (k, out ++ evs)) (k, []) reports.

(** [MouseState] holds the buttons of the previous report. *)
(** @ xhci/hid.rs:60-62 MouseState *)
Record MouseState := mk_MouseState { buttons : Z }.
(** @ xhci/hid.rs:65-67 MouseState::new *)
Definition mouse_new : MouseState := mk_MouseState 0.

(** @ xhci/hid.rs:73-102 MouseState::for_each_event *)
Definition for_each_event (m : MouseState) (report : list Z) : MouseState * list MouseEvent :=
  if llen report <? 3 then (m, []) else
  let now := Z.land (report !!! 0%nat) 0x07 in
  let bit (b : Z) (x : Z) := negb (Z.land x (Z.shiftl 1 b) =? 0) in
  let events := omap (fun '(b, button) =>
      if bit b (Z.lxor now (buttons m)) then Some (MouseButton button (bit b now)) else None)
    [(0, ButtonLeft); (1, ButtonRight); (2, ButtonMiddle)] in
  let x := sext 8 (report !!! 1%nat) in
  let y := sext 8 (report !!! 2%nat) in
  let move := if negb (x =? 0) || negb (y =? 0) then [MouseMove x (- y)] else [] in
  let scroll :=
    match report !! 3%nat with
    | Some wheel => let lines := sext 8 wheel in if negb (lines =? 0) then [MouseScroll lines] else []
    | None => []
    end in
  (mk_MouseState now, events ++ move ++ scroll).

(** ** The bitmap as a set *)

Definition usage_ok (u : Z) : Prop := 0 <= u < 256.

Lemma marked_testbit bm u : marked bm u = Z.testbit (bm !!! Z.to_nat (u / 8)) (u mod 8).
Proof.
  unfold marked. rewrite Z.shiftl_mul_pow2, Z.mul_1_l by (apply Z.mod_pos_bound; lia).
  apply land_pow2_testbit. apply Z.mod_pos_bound. lia.
Qed.

Lemma length_mark bm u : length (mark bm u) = length bm.
Proof. unfold mark. apply length_insert. Qed.

Lemma marked_mark bm u v :
  length bm = 32%nat -> usage_ok u -> usage_ok v -> marked (mark bm u) v = bool_decide (u = v) || marked bm v.
Proof.
  unfold usage_ok. intros Hl Hu Hv. rewrite !marked_testbit. unfold mark.
  pose proof (Z.div_mod u 8 ltac:(lia)). pose proof (Z.div_mod v 8 ltac:(lia)).
  pose proof (Z.mod_pos_bound u 8 ltac:(lia)). pose proof (Z.mod_pos_bound v 8 ltac:(lia)).
  assert (0 <= u / 8 < 32) by (split; [apply Z.div_pos|apply Z.div_lt_upper_bound]; lia).
  assert (0 <= v / 8 < 32) by (split; [apply Z.div_pos|apply Z.div_lt_upper_bound]; lia).
  destruct (Z.eq_dec (u / 8) (v / 8)) as [He|He].
  - rewrite <- He, list_lookup_total_insert_eq by lia.
    rewrite Z.lor_spec, Z.shiftl_spec by lia.
    destruct (Z.eq_dec (u mod 8) (v mod 8)) as [Hm|Hm].
    + rewrite bool_decide_true by lia. rewrite Hm, Z.sub_diag. apply orb_true_r.
    + rewrite bool_decide_false by congruence.
      change 1 with (2 ^ 0) at 1. rewrite Z.pow2_bits_false by lia. by rewrite orb_false_r.
  - rewrite bool_decide_false by congruence. rewrite list_lookup_total_insert_ne by lia. done.
Qed.

Lemma marked_empty u : usage_ok u -> marked (replicate 32 0) u = false.
Proof.
  intros [H0 H1]. rewrite marked_testbit.
  assert (0 <= u / 8 < 32) by (split; [apply Z.div_pos|apply Z.div_lt_upper_bound]; lia).
  rewrite lookup_total_replicate_2 by lia. apply Z.testbit_0_l.
Qed.

(** Marking the elements of a list that pass a test. *)
Lemma marked_foldl (test : Z -> bool) (f : Z -> Z) l bm v :
  length bm = 32%nat -> Forall (fun x => usage_ok (f x)) l -> usage_ok v ->
  let bm' := foldl (fun bm x => if test x then mark bm (f x) else bm) bm l in
  length bm' = 32%nat /\
  (marked bm' v = true <-> marked bm v = true \/ exists x, x ∈ l /\ test x = true /\ f x = v).
Proof.
  revert bm. induction l as [|x l IH]; intros bm Hl Hf Hv; cbn [foldl].
  { split; [done|]. set_solver. }
  apply Forall_cons in Hf as [Hx Hf].
  destruct (IH (if test x then mark bm (f x) else bm)) as [Hl' Hm]; auto.
  { destruct (test x); by rewrite ?length_mark. }
  split; [exact Hl'|]. cbv zeta in Hm. rewrite Hm. setoid_rewrite elem_of_cons.
  destruct (test x) eqn:Ht.
  - rewrite marked_mark by done. rewrite orb_true_iff, bool_decide_eq_true.
    split; [intros [[?|?]|(y & ? & ? & ?)]; eauto 8|].
    intros [?|(y & [->|?] & ? & ?)]; eauto 8.
  - split; [intros [?|(y & ? & ? & ?)]; eauto 8|].
    intros [?|(y & [->|?] & ? & ?)]; [eauto 8|congruence|eauto 8].
Qed.

(** The usages a report holds down. *)
Definition report_usage (report : list Z) (u : Z) : Prop :=
  (exists m, 0 <= m < 8 /\ Z.testbit (report !!! 0%nat) m = true /\ u = 0xe0 + m) \/
  (u <> 0 /\ u ∈ take 6 (drop 2 report)).

Lemma report_bitmap_spec report v :
  bytes report -> usage_ok v ->
  marked (report_bitmap report) v = true <-> report_usage report v.
Proof.
  intros Hb Hv. unfold report_bitmap, report_usage.
  set (bm0 := foldl _ (replicate 32 0) _).
  pose proof (marked_foldl (fun m => negb (Z.land (report !!! 0%nat) (Z.shiftl 1 m) =? 0))
    (fun m => 0xe0 + m) (seqZ 0 8) (replicate 32 0) v eq_refl) as Hm.
  destruct Hm as [Hl Hm]; [|done|].
  { apply Forall_forall. intros x Hx%elem_of_seqZ. unfold usage_ok. lia. }
  change (foldl _ _ (seqZ 0 8)) with bm0 in Hl, Hm.
  destruct (marked_foldl (fun u => negb (u =? 0)) (fun u => u) (take 6 (drop 2 report)) bm0 v Hl) as [_ H2];
    [|done|].
  { apply Forall_take, Forall_drop. exact Hb. }
  rewrite H2, Hm, marked_empty by done.
  split.
  - intros [[?|(m & Hin & Ht & He)]|(u & Hin & Ht & <-)]; [done| |].
    + left. exists m. apply elem_of_seqZ in Hin. split; [lia|].
      rewrite Z.shiftl_mul_pow2, Z.mul_1_l, land_pow2_testbit in Ht by lia. auto.
    + right. apply negb_true_iff, Z.eqb_neq in Ht. auto.
  - intros [(m & Hin & Ht & He)|[Hu Hin]].
    + left. right. exists m. rewrite elem_of_seqZ. split; [lia|].
      rewrite Z.shiftl_mul_pow2, Z.mul_1_l, land_pow2_testbit by lia. auto.
    + right. exists v. rewrite negb_true_iff, Z.eqb_neq. auto.
Qed.

(** ** No stuck keys *)

(** What a stream of codes does to the key with make code [c]: plus one for each
    make, minus one for each break. *)
Fixpoint net (c : Z) (codes : list Z) : Z :=
  match codes with
  | [] => 0
  | e :: codes => (if e =? c then 1 else if e =? Z.lor c 0x80 then -1 else 0) + net c codes
  end.
(** How many held usages have the code [c]. *)
Fixpoint held (c : Z) (bm : list Z) (us : list Z) : Z :=
  match us with
  | [] => 0
  | u :: us => b2z (marked bm u && bool_decide (set1_usage u = Some c)) + held c bm us
  end.

Lemma net_app c l k : net c (l ++ k) = net c l + net c k.
Proof. induction l as [|e l IH]; simpl; [done|]. rewrite IH. lia. Qed.

(** Every Set-1 code of the table is below 0x80. *)
Lemma set1_usage_range u c : usage_ok u -> set1_usage u = Some c -> 0 < c < 128.
Proof.
  intros Hu Hs.
  assert (forallb (fun u => match set1_usage u with Some c => (0 <? c) && (c <? 128) | None => true end)
            (seqZ 0 256) = true) as Hall by (vm_compute; reflexivity).
  rewrite forallb_forall in Hall. specialize (Hall u). rewrite Hs in Hall.
  assert (In u (seqZ 0 256)) as Hin by (apply list_elem_of_In, elem_of_seqZ; unfold usage_ok in Hu; lia).
  specialize (Hall Hin). apply andb_true_iff in Hall as [?%Z.ltb_lt ?%Z.ltb_lt]. lia.
Qed.

Lemma lor_80 c : 0 <= c < 128 -> Z.lor c 0x80 = c + 128.
Proof.
  intros Hc. change 0x80 with (2 ^ 7). rewrite <- Z.add_nocarry_lor; [done|].
  apply Z.bits_inj'. intros i Hi. rewrite Z.land_spec, Z.testbit_0_l.
  destruct (Z.eq_dec i 7) as [->|].
  - rewrite (fits_testbit_high 7) by (unfold fits; lia). done.
  - rewrite (Z.pow2_bits_false 7) by lia. apply andb_false_r.
Qed.

Lemma net_codes c old next us :
  0 <= c < 128 -> Forall usage_ok us ->
  net c (breaks old next us) + net c (makes old next us) = held c next us - held c old us.
Proof.
  intros Hc Hus. induction Hus as [|u us Hu Hus IH]; [done|].
  unfold breaks, makes in *. cbn [omap list_omap held].
  destruct (set1_usage u) as [c'|] eqn:Es; cycle 1.
  { rewrite (bool_decide_false (None = Some c)) by done.
    destruct (marked old u), (marked next u); cbn; lia. }
  pose proof (set1_usage_range u c' Hu Es) as Hc'.
  destruct (marked old u), (marked next u); cbn [negb andb fmap option_fmap option_map]; cbn [net];
    rewrite ?lor_80 by lia; unfold b2z;
    (destruct (Z.eq_dec c' c) as [->|Hne];
     [rewrite ?bool_decide_true by done|rewrite ?bool_decide_false by congruence]).
  all: repeat match goal with |- context [?a =? ?b] => destruct (Z.eqb_spec a b); try lia end; lia.
Qed.

Lemma usages_ok : Forall usage_ok usages.
Proof. apply Forall_forall. intros u Hu%elem_of_seqZ. unfold usage_ok. lia. Qed.

Lemma report_net c k report :
  0 <= c < 128 ->
  net c (for_each_scancode k report).2 =
    held c (pressed (for_each_scancode k report).1) usages - held c (pressed k) usages.
Proof.
  intros Hc. unfold for_each_scancode.
  destruct ((llen report <? 8) || _); cbn [fst snd pressed]; [simpl net; lia|].
  rewrite net_app, net_codes; auto using usages_ok.
Qed.

Lemma run_reports_snoc k reports report :
  run_reports k (reports ++ [report]) =
    let '(k', out) := run_reports k reports in
    let '(k'', evs) := for_each_scancode k' report in (k'', out ++ evs).
Proof.
  unfold run_reports. rewrite foldl_app. simpl. destruct (foldl _ _ reports). done.
Qed.

Lemma held_new c us : Forall usage_ok us -> held c (pressed keyboard_new) us = 0.
Proof.
  induction 1 as [|u us Hu Hus IH]; [done|]. cbn [held pressed keyboard_new] in *.
  rewrite marked_empty by done. simpl. exact IH.
Qed.

(** C28: The keyboard never leaves a key stuck: after any sequence of reports
    (malformed and roll-over reports included) the make codes submitted for a
    Set-1 code minus its break codes are the number of keys with that code that
    the driver records as held, and after a valid report a key is recorded as
    held exactly when that report holds it down. *)
Theorem keyboard_codes_balanced (reports : list (list Z)) (c : Z) :
  0 <= c < 128 ->
  let '(k, codes) := run_reports keyboard_new reports in
  net c codes = held c (pressed k) usages /\
  (forall last u, bytes last -> 8 <= llen last -> 1 ∉ take 6 (drop 2 last) -> usage_ok u ->
     marked (pressed (for_each_scancode k last).1) u = true <-> report_usage last u).
Proof.
  intros Hc. destruct (run_reports keyboard_new reports) as [k codes] eqn:Er. split.
  - revert k codes Er. induction reports as [|report reports IH] using rev_ind; intros k codes Er.
    { injection Er as <- <-. rewrite held_new by apply usages_ok. done. }
    rewrite run_reports_snoc in Er. destruct (run_reports keyboard_new reports) as [k1 out] eqn:E1.
    specialize (IH k1 out eq_refl). pose proof (report_net c k1 report Hc) as Hn.
    destruct (for_each_scancode k1 report) as [k2 evs]. injection Er as <- <-.
    cbn [fst snd] in Hn. rewrite net_app, IH, Hn. lia.
  - intros last u Hb Hl H1 Hu. unfold for_each_scancode.
    rewrite (proj2 (Z.ltb_ge _ _)) by lia. rewrite bool_decide_false by done. cbn [orb fst pressed].
    by apply report_bitmap_spec.
Qed.

(** Left shift and "a" pressed, then a roll-over report, then released. *)
Lemma keyboard_codes_balanced_witness :
  let reports := [[2; 0; 4; 0; 0; 0; 0; 0]; [0; 0; 1; 1; 1; 1; 1; 1]; [0; 0; 0; 0; 0; 0; 0; 0]] in
  (run_reports keyboard_new reports).2 = [0x1e; 0x2a; 0x9e; 0xaa] /\
  net 0x1e (run_reports keyboard_new reports).2 = held 0x1e (pressed (run_reports keyboard_new reports).1) usages /\
  held 0x1e (pressed (run_reports keyboard_new reports).1) usages = 0.
Proof.
  split; [vm_compute; reflexivity|]. split; [|vm_compute; reflexivity].
  pose proof (keyboard_codes_balanced [[2; 0; 4; 0; 0; 0; 0; 0]; [0; 0; 1; 1; 1; 1; 1; 1]; [0; 0; 0; 0; 0; 0; 0; 0]]
    0x1e ltac:(lia)) as Hw.
  destruct (run_reports keyboard_new _) as [k codes]. exact (proj1 Hw).
Defined.
