(* ===== verification/Bitmap.v ===== *)
(** * The page bitmap: [mm/bitmap.rs]

    One bit per physical page (set when the page is free) and one byte of
    reference count.  The bit accessors come from the [bit_field] crate and are
    an interface with their documented laws. *)

From S2P Require Import Prelude Words.

(** [bit_field::BitField] on 64-bit words. *)
Class BitField := {
  get_bit : Z -> Z -> bool;
  set_bit : Z -> Z -> bool -> Z;
  get_set_bit : forall w i j v, 0 <= i < 64 -> 0 <= j < 64 ->
    get_bit (set_bit w i v) j = if bool_decide (i = j) then v else get_bit w j;
  get_bit_0 : forall i, 0 <= i < 64 -> get_bit 0 i = false;
}.

(** @ mm/bitmap.rs:3-3 PageMan *)
Record PageMan := mk_PageMan {
  pm_words : list Z;
  pm_refs : list Z;
}.

(** @ mm/bitmap.rs:7-10 PageMan::calc_size *)
Definition calc_size (len : Z) : Z * Z * Z :=
  let tmp := div_ceil len 64 in (tmp, len, tmp * 8 + len).

(** The buffers are slices of raw memory: only their lengths matter, since both
    are cleared. *)
(** @ mm/bitmap.rs:12-16 PageMan::new *)
Definition pm_new (bmp refcnt : Z) : PageMan :=
  mk_PageMan (replicate (Z.to_nat bmp) 0) (replicate (Z.to_nat refcnt) 0).

(** @ mm/bitmap.rs:18-20 PageMan::len *)
Definition pm_len (pm : PageMan) : Z := llen (pm_words pm) * 64.

Section BitmapOps.
Context `{BitField}.
Implicit Types (pm : PageMan).

(** @ mm/bitmap.rs:22-26 PageMan::set *)
Definition pm_set pm (pos : Z) (v : bool) : outcome PageMan :=
  let byte_pos := pos / 64 in
  let bit_pos := pos mod 64 in
  w ← idx (pm_words pm) byte_pos;
  words ← set_idx (pm_words pm) byte_pos (set_bit w bit_pos v);
  Done (mk_PageMan words (pm_refs pm)).

(** @ mm/bitmap.rs:28-32 PageMan::get *)
Definition pm_get pm (pos : Z) : outcome bool :=
  let byte_pos := pos / 64 in
  let bit_pos := pos mod 64 in
  w ← idx (pm_words pm) byte_pos;
  Done (get_bit w bit_pos).

(** @ mm/bitmap.rs:34-38 PageMan::set_range *)
Definition set_range pm (l r : Z) (v : bool) : outcome PageMan :=
  fold_outcome (fun pm pos => pm_set pm pos v) (seqZ l (r - l)) pm.

(** @ mm/bitmap.rs:40-42 PageMan::incref *)
Definition incref pm (pos : Z) : outcome PageMan :=
  n ← idx (pm_refs pm) pos;
  n ← add_ovf 8 n 1;
  refs ← set_idx (pm_refs pm) pos n;
  Done (mk_PageMan (pm_words pm) refs).

(** @ mm/bitmap.rs:44-46 PageMan::decref *)
Definition decref pm (pos : Z) : outcome PageMan :=
  n ← idx (pm_refs pm) pos;
  n ← sub_ovf n 1;
  refs ← set_idx (pm_refs pm) pos n;
  Done (mk_PageMan (pm_words pm) refs).

(** @ mm/bitmap.rs:48-50 PageMan::getref *)
Definition getref pm (pos : Z) : outcome Z := idx (pm_refs pm) pos.

(** ** The bitmap as a set of free pages *)

Definition free pm (pos : Z) : bool :=
  match zget (pm_words pm) (pos / 64) with
  | Some w => get_bit w (pos mod 64)
  | None => false
  end.

(** Two bitmaps of the same size with the same reference counts whose free
    pages agree outside [P]. *)
Record same_but pm pm' (P : Z -> Prop) : Prop := {
  sb_len : pm_len pm' = pm_len pm;
  sb_refs : pm_refs pm' = pm_refs pm;
  sb_free : forall i, 0 <= i -> ~ P i -> free pm' i = free pm i;
}.

Lemma mod64 pos : 0 <= pos mod 64 < 64.
Proof. apply Z.mod_pos_bound. lia. Qed.

Lemma div64_range pm pos : 0 <= pos < pm_len pm -> 0 <= pos / 64 < llen (pm_words pm).
Proof.
  unfold pm_len. intros. split; [apply Z.div_pos; lia|]. apply Z.div_lt_upper_bound; lia.
Qed.

Lemma pm_get_free pm pos : 0 <= pos < pm_len pm -> pm_get pm pos = Done (free pm pos).
Proof.
  intros Hp. pose proof (div64_range pm pos Hp) as Hd. unfold pm_get, free, zget.
  destruct (idx_in_range _ _ Hd) as (w & -> & Hw). cbn. rewrite bool_decide_true by lia. by rewrite Hw.
Qed.

Lemma free_out_of_range pm pos : pm_len pm <= pos -> free pm pos = false.
Proof.
  unfold pm_len. intros Hp. unfold free, zget. pose proof (llen_nonneg (pm_words pm)).
  assert (llen (pm_words pm) <= pos / 64) by (apply Z.div_le_lower_bound; lia).
  rewrite bool_decide_true by lia. rewrite lookup_ge_None_2 by (unfold llen in *; lia). done.
Qed.

Lemma free_range pm pos : 0 <= pos -> free pm pos = true -> 0 <= pos < pm_len pm.
Proof.
  intros H0 Hf. split; [done|]. destruct (Z.lt_ge_cases pos (pm_len pm)); [done|].
  rewrite free_out_of_range in Hf; done.
Qed.

Lemma pm_set_spec pm pos v :
  0 <= pos < pm_len pm ->
  exists pm', pm_set pm pos v = Done pm' /\ free pm' pos = v /\ same_but pm pm' (eq pos).
Proof.
  intros Hp. pose proof (div64_range pm pos Hp) as Hd. unfold pm_set.
  destruct (idx_in_range _ _ Hd) as (w & Hi & Hw). rewrite Hi. cbn [mbind outcome_bind].
  rewrite set_idx_in_range by done. cbn [mbind outcome_bind]. eexists. split; [reflexivity|].
  assert (forall i, 0 <= i -> free (mk_PageMan (<[Z.to_nat (pos / 64) := set_bit w (pos mod 64) v]> (pm_words pm)) (pm_refs pm)) i
    = if bool_decide (pos = i) then v else free pm i) as Hf.
  { intros i Hi0. unfold free, zget. cbn [pm_words]. pose proof (Z.div_pos i 64 Hi0 ltac:(lia)).
    rewrite bool_decide_true by lia. destruct (Z.eq_dec (pos / 64) (i / 64)) as [He|He].
    - rewrite <- He, list_lookup_insert_eq by (unfold llen in Hd; lia). rewrite Hw.
      rewrite get_set_bit by apply mod64. pose proof (Z.div_mod pos 64). pose proof (Z.div_mod i 64).
      destruct (Z.eq_dec pos i) as [->|].
      + by rewrite !bool_decide_true by done.
      + rewrite !bool_decide_false by lia. done.
    - rewrite list_lookup_insert_ne by lia. rewrite bool_decide_false by congruence. done. }
  split; [rewrite Hf by lia; by rewrite bool_decide_true|].
  split; [unfold pm_len; cbn [pm_words]; by rewrite llen_insert|done|].
  intros i Hi0 Hne. rewrite Hf by done. by rewrite bool_decide_false.
Qed.

Lemma set_range_spec pm l r v :
  0 <= l -> r <= pm_len pm ->
  exists pm', set_range pm l r v = Done pm' /\
    (forall i, l <= i < r -> free pm' i = v) /\ same_but pm pm' (fun i => l <= i < r).
Proof.
  intros Hl Hr. unfold set_range.
  destruct (fold_outcome_ind (fun pm pos => pm_set pm pos v)
    (fun dn pm' => (forall i, i ∈ dn -> 0 <= i -> free pm' i = v) /\ same_but pm pm' (fun i => i ∈ dn))
    (seqZ l (r - l)) pm) as (pm' & -> & Hd & Hs).
  - split; [by intros i ?%elem_of_nil|]. done.
  - intros dn x pm1 [todo Hx] [Hd [Hlen Href Hfree]].
    assert (x ∈ seqZ l (r - l)) as Hin%elem_of_seqZ by (rewrite Hx; set_solver).
    destruct (pm_set_spec pm1 x v) as (pm2 & -> & Hv & [Hlen2 Href2 Hfree2]); [lia|].
    exists pm2. split; [done|]. split.
    + intros i Hi Hi0. destruct (Z.eq_dec x i) as [->|]; [done|].
      rewrite Hfree2 by done. apply Hd; set_solver.
    + split; [lia|congruence|]. intros i Hi0 Hni. rewrite Hfree2, Hfree; set_solver.
  - exists pm'. split; [done|]. split.
    + intros i Hi. apply Hd; [apply elem_of_seqZ|]; lia.
    + destruct Hs as [? ? Hf]. split; auto. intros i Hi0 Hni. apply Hf; [done|].
      intros Hi%elem_of_seqZ. apply Hni. lia.
Qed.

Lemma pm_new_free bmp refcnt i : 0 <= i -> free (pm_new bmp refcnt) i = false.
Proof.
  intros Hi. unfold free, zget, pm_new. cbn [pm_words]. pose proof (Z.div_pos i 64 Hi ltac:(lia)).
  rewrite bool_decide_true by lia. destruct (_ !! _) as [w|] eqn:E; [|done].
  apply lookup_replicate in E as [-> _]. apply get_bit_0, mod64.
Qed.

Lemma pm_new_len bmp refcnt : 0 <= bmp -> pm_len (pm_new bmp refcnt) = bmp * 64.
Proof. intros. unfold pm_len, pm_new. cbn [pm_words]. rewrite llen_replicate. lia. Qed.
End BitmapOps.

(** Reference counts: counting up saturates into a panic, never wraps. *)
Section Refs.
Implicit Types (pm : PageMan).

Lemma incref_spec pm pos n :
  zget (pm_refs pm) pos = Some n -> 0 <= n ->
  incref pm pos = if n =? 255 then Panic else
    if n <? 255 then Done (mk_PageMan (pm_words pm) (<[Z.to_nat pos := n + 1]> (pm_refs pm))) else Panic.
Proof.
  unfold zget, incref, idx. case_bool_decide as H0; [|done]. intros Hn Hpos. rewrite Hn. cbn.
  unfold add_ovf. change (2 ^ 8) with 256. apply lookup_lt_Some in Hn.
  destruct (Z.eqb_spec n 255) as [->|]; [done|]. destruct (Z.ltb_spec n 255).
  - rewrite (proj2 (Z.ltb_lt _ _)) by lia. cbn. rewrite set_idx_in_range by (unfold llen; lia). done.
  - rewrite (proj2 (Z.ltb_ge _ _)) by lia. done.
Qed.

Lemma decref_spec pm pos n :
  zget (pm_refs pm) pos = Some n ->
  decref pm pos = if 1 <=? n then Done (mk_PageMan (pm_words pm) (<[Z.to_nat pos := n - 1]> (pm_refs pm))) else Panic.
Proof.
  unfold zget, decref, idx. case_bool_decide as H0; [|done]. intros Hn. rewrite Hn. cbn.
  unfold sub_ovf. apply lookup_lt_Some in Hn. destruct (1 <=? n); [|done]. cbn.
  rewrite set_idx_in_range by (unfold llen; lia). done.
Qed.
End Refs.

(** The bit accessors as the bits of a [Z], for evaluation. *)
Definition z_bit_field : BitField.
Proof.
  refine {| get_bit := Z.testbit; set_bit w i (v : bool) := if v then Z.setbit w i else Z.clearbit w i |}.
  - intros w i j v Hi Hj. destruct v.
    + case_bool_decide as H; [subst; apply Z.setbit_eq; lia|]. by apply Z.setbit_neq; lia.
    + case_bool_decide as H; [subst; apply Z.clearbit_eq|]. by apply Z.clearbit_neq.
  - intros. apply Z.testbit_0_l.
Defined.
