(* ===== verification/PageAlloc.v ===== *)
(** * The physical page allocator: [mm/page_alloc.rs]

    First-fit allocation of single pages and of aligned runs, de-allocation, and
    the placement of the allocator's own tables at boot. *)

From S2P Require Import Prelude Words Bitmap.

(** @ mm/page_alloc.rs:17-17 PAGE_SIZE *)
Definition PAGE_SIZE : Z := 4096.

Section Allocator.
Context `{BitField}.
Implicit Types (pm : PageMan).

(** ** Placing the tables *)

(** @ mm/page_alloc.rs:70-74 ALLOCATOR_STATE -- the loop over the usable regions *)
Definition mark_regions (regions : list (Z * Z)) pm : outcome PageMan :=
  fold_outcome (fun pm '(base, length) =>
      let start_page := base / 4096 in
      end_page ← add_ovf 64 start_page (length / 4096);
      set_range pm start_page end_page true) regions pm.

(** [usable] lists the usable entries of the memory map, as (base, length). *)
(** @ mm/page_alloc.rs:23-83 ALLOCATOR_STATE *)
Definition allocator_state (usable : list (Z * Z)) : outcome PageMan :=
  e ← unwrap (last usable);
  max_address ← add_ovf 64 e.1 e.2;
  let total_pages := max_address / 4096 in
  let '(n0, n1, n2) := calc_size total_pages in
  region ← unwrap (snd <$> list_find (fun r => n2 <= r.2) usable);
  let bitmap_address := region.1 in
  let bitmap := pm_new n0 n1 in
  bitmap ← mark_regions usable bitmap;
  let bitmap_start_page := bitmap_address / 4096 in
  bitmap_end_page ← add_ovf 64 bitmap_start_page (div_ceil n2 4096);
  set_range bitmap bitmap_start_page bitmap_end_page false.

(** ** Runs of pages *)

(** The scan: [ps] are the pages still to visit, [current_size] the length of
    the run of free pages that ends before them (at most [cnt - 1]). *)
(** @ mm/page_alloc.rs:108-122 find_aligned_continuous_mem -- the scan *)
Fixpoint find_loop pm (cnt alignment_pages : Z) (ps : list Z) (current_size : Z) : outcome (PageMan * option Z) :=
  match ps with
  | [] => Done (pm, None)
  | i :: ps =>
      f ← pm_get pm i;
      let current_size := if (f : bool) then current_size + 1 else 0 in
      if current_size =? cnt then
        d ← sub_ovf i cnt;
        let start := d + 1 in
        if is_multiple_of start alignment_pages then
          pm ← set_range pm start (i + 1) false;
          a ← mul_ovf 64 start PAGE_SIZE;
          Done (pm, Some a)
        else find_loop pm cnt alignment_pages ps (current_size - 1)
      else find_loop pm cnt alignment_pages ps current_size
  end.

(** @ mm/page_alloc.rs:95-124 find_aligned_continuous_mem *)
Definition find_aligned_continuous_mem pm (cnt alignment : Z) : outcome (PageMan * option Z) :=
  if (cnt =? 0) || negb (is_power_of_two alignment) || (alignment <? PAGE_SIZE)
     || negb (is_multiple_of alignment PAGE_SIZE) then Done (pm, None) else
  let alignment_pages := alignment / PAGE_SIZE in
  find_loop pm cnt alignment_pages (seqZ 0 (pm_len pm)) 0.

(** @ mm/page_alloc.rs:89-91 find_continuous_mem *)
Definition find_continuous_mem pm (cnt : Z) : outcome (PageMan * option Z) :=
  find_aligned_continuous_mem pm cnt PAGE_SIZE.

(** The pages that were already free are reported on the console; the list is
    the pages of the warnings. *)
(** @ mm/page_alloc.rs:126-141 dealloc_continuous_mem *)
Definition dealloc_continuous_mem pm (addr cnt : Z) : outcome (PageMan * list Z) :=
  if (cnt =? 0) || negb (is_multiple_of addr PAGE_SIZE) then Done (pm, []) else
  let start := addr / PAGE_SIZE in
  let stop := Z.min (saturating_add 64 start cnt) (pm_len pm) in
  fold_outcome (fun '(pm, warnings) index =>
      f ← pm_get pm index;
      pm ← pm_set pm index true;
      Done (pm, if f : bool then warnings ++ [index] else warnings))
    (seqZ start (stop - start)) (pm, []).

(** ** Single pages *)

Fixpoint alloc_loop pm (ps : list Z) : outcome (PageMan * option Z) :=
  match ps with
  | [] => Done (pm, None)
  | i :: ps =>
      f ← pm_get pm i;
      if f : bool then
        pm ← pm_set pm i false;
        a ← mul_ovf 64 i PAGE_SIZE;
        Done (pm, Some a)
      else alloc_loop pm ps
  end.

(** @ mm/page_alloc.rs:143-152 alloc_physical_page *)
Definition alloc_physical_page pm : outcome (PageMan * option Z) :=
  alloc_loop pm (seqZ 0 (pm_len pm)).

(** @ mm/page_alloc.rs:154-161 dealloc_physical_page *)
Definition dealloc_physical_page pm (addr : Z) : outcome (PageMan * list Z) :=
  let index := addr / PAGE_SIZE in
  f ← pm_get pm index;
  pm ← pm_set pm index true;
  Done (pm, if f : bool then [index] else []).

(** @ mm/page_alloc.rs:163-165 page_incref *)
Definition page_incref pm (addr : Z) : outcome PageMan := incref pm (addr / 4096).
(** @ mm/page_alloc.rs:167-169 page_decref *)
Definition page_decref pm (addr : Z) : outcome PageMan := decref pm (addr / 4096).
(** @ mm/page_alloc.rs:171-173 page_getref *)
Definition page_getref pm (addr : Z) : outcome Z := getref pm (addr / 4096).

(** ** Well-formedness: the managed memory is inside the physical address space *)

Definition pm_wf pm : Prop := pm_len pm <= 2 ^ 40.

(** The pages [start, start + cnt) are free and [start] is aligned. *)
Definition run_at pm (cnt ap start : Z) : Prop :=
  0 <= start /\ (forall i, start <= i < start + cnt -> free pm i = true) /\ is_multiple_of start ap = true.

(** The run of free pages ending before [n] has [c] pages, or at least [c] of
    them when [c] is the cap. *)
Definition run_before pm (cap n c : Z) : Prop :=
  0 <= c <= cap /\ c <= n /\ (forall i, n - c <= i < n -> free pm i = true) /\
  (c < cap -> n - c = 0 \/ free pm (n - c - 1) = false).

Lemma run_before_step pm cap n c :
  0 < cap -> 0 <= n -> run_before pm (cap - 1) n c -> free pm n = true ->
  run_before pm cap (n + 1) (c + 1).
Proof.
  intros Hcap Hn (Hc & Hcn & Hall & Hlt) Hf. split; [lia|]. split; [lia|]. split.
  - intros i Hi. destruct (Z.eq_dec i n) as [->|]; [done|]. apply Hall. lia.
  - intros H1. replace (n + 1 - (c + 1)) with (n - c) by lia. apply Hlt. lia.
Qed.

(** No run of [cnt] free pages at an aligned start ends at or before page [n]. *)
Definition no_run_before pm cnt ap n : Prop :=
  forall start, run_at pm cnt ap start -> n < start + cnt.

Lemma find_loop_spec pm cnt ap : forall m n c,
  pm_wf pm -> 0 < cnt -> free pm 0 = false ->
  0 <= n -> n + Z.of_nat m = pm_len pm ->
  run_before pm (cnt - 1) n c -> no_run_before pm cnt ap n ->
  exists pm' r, find_loop pm cnt ap (seqZ n (Z.of_nat m)) c = Done (pm', r) /\
  match r with
  | Some a => exists start, a = start * PAGE_SIZE /\ run_at pm cnt ap start /\
      (forall s, run_at pm cnt ap s -> start <= s) /\
      (forall i, start <= i < start + cnt -> free pm' i = false) /\
      same_but pm pm' (fun i => start <= i < start + cnt)
  | None => pm' = pm /\ forall s, ~ run_at pm cnt ap s
  end.
Proof.
  intros m. induction m as [|m IH]; intros n c Hwf Hcnt Hz Hn Hlen Hrun Hno.
  - exists pm, None. split; [done|]. split; [done|]. intros s Hs. pose proof (Hno s Hs) as Hlt.
    destruct Hs as (H0 & Hfree & _). specialize (Hfree (s + cnt - 1) ltac:(lia)).
    pose proof (free_range pm (s + cnt - 1) ltac:(lia) Hfree). lia.
  - rewrite seqZ_cons by lia. replace (Z.pred (Z.of_nat (S m))) with (Z.of_nat m) by lia.
    cbn [find_loop]. rewrite pm_get_free by lia. cbn [mbind outcome_bind].
    replace (Z.succ n) with (n + 1) by lia.
    destruct (free pm n) eqn:Ef.
    + pose proof (run_before_step pm cnt n c Hcnt Hn Hrun Ef) as Hrun'.
      destruct (Z.eqb_spec (c + 1) cnt) as [He|He].
      * destruct Hrun' as (Hc' & Hcn' & Hall & _).
        assert (n + 1 - cnt <> 0) as Hne.
        { intros H0. rewrite Hall in Hz by lia. done. }
        unfold sub_ovf. rewrite (proj2 (Z.leb_le _ _)) by lia. cbn [mbind outcome_bind].
        replace (n - cnt + 1) with (n + 1 - cnt) by lia.
        destruct (is_multiple_of (n + 1 - cnt) ap) eqn:Em.
        -- destruct (set_range_spec pm (n + 1 - cnt) (n + 1) false) as (pm' & -> & Hset & Hsame); [lia|lia|].
           cbn [mbind outcome_bind]. unfold mul_ovf, PAGE_SIZE, pm_wf in *.
           rewrite (proj2 (Z.ltb_lt _ _)) by lia. cbn [mbind outcome_bind].
           eexists _, _. split; [reflexivity|]. exists (n + 1 - cnt). split; [done|].
           replace (n + 1 - cnt + cnt) with (n + 1) by lia.
           split; [|split; [|done]].
           ++ split; [lia|]. split; [|done]. intros i Hi. apply Hall. lia.
           ++ intros s Hs. specialize (Hno s Hs). lia.
        -- apply IH; auto; [lia|lia| |].
           ++ replace (c + 1 - 1) with c by lia. destruct Hrun as (Hc & _ & _ & _).
              split; [lia|]. split; [lia|]. split; [|lia]. intros i Hi. apply Hall. lia.
           ++ intros s Hs. destruct (Z.eq_dec (s + cnt) (n + 1)) as [Hs'|].
              ** destruct Hs as (_ & _ & Hm). replace s with (n + 1 - cnt) in Hm by lia. congruence.
              ** specialize (Hno s Hs). lia.
      * apply IH; auto; [lia|lia| |].
        -- destruct Hrun' as (Hc' & Hcn' & Hall & Hcap). destruct Hrun as (Hc & _).
           split; [lia|]. split; [lia|]. split; [done|]. intros _. apply Hcap. lia.
        -- intros s Hs. pose proof (Hno s Hs) as Hlt.
           destruct (Z.eq_dec (s + cnt) (n + 1)) as [Hs'|]; [|lia]. exfalso.
           destruct Hs as (Hs0 & Hfree & _). destruct Hrun' as (Hc' & Hcn' & Hall & Hcap).
           destruct Hcap as [Hcap|Hcap]; [destruct Hrun as (? & _); lia|lia|].
           rewrite Hfree in Hcap; [done|]. destruct Hrun as (? & _). lia.
    + assert ((0 =? cnt) = false) as -> by (apply Z.eqb_neq; lia).
      apply IH; auto; [lia|lia| |].
      * split; [lia|]. split; [lia|]. split; [lia|]. intros _. right.
        replace (n + 1 - 0 - 1) with n by lia. done.
      * intros s Hs. pose proof (Hno s Hs) as Hlt.
        destruct (Z.eq_dec (s + cnt) (n + 1)) as [Hs'|]; [|lia]. exfalso.
        destruct Hs as (Hs0 & Hfree & _). rewrite Hfree in Ef by lia. done.
Qed.

Lemma alignment_ok alignment :
  is_power_of_two alignment = true -> PAGE_SIZE <= alignment ->
  is_multiple_of alignment PAGE_SIZE = true ->
  (is_power_of_two alignment && negb (alignment <? PAGE_SIZE) && is_multiple_of alignment PAGE_SIZE) = true.
Proof. intros -> Hl ->. by rewrite (proj2 (Z.ltb_ge _ _)). Qed.

(** The specification of a successful or failed reservation. *)
Definition reserved pm (cnt ap : Z) pm' (r : option Z) : Prop :=
  match r with
  | Some a => exists start, a = start * PAGE_SIZE /\ run_at pm cnt ap start /\
      (forall s, run_at pm cnt ap s -> start <= s) /\
      (forall i, start <= i < start + cnt -> free pm' i = false) /\
      same_but pm pm' (fun i => start <= i < start + cnt)
  | None => pm' = pm /\ forall s, ~ run_at pm cnt ap s
  end.

Lemma find_aligned_reserved pm cnt alignment :
  pm_wf pm -> free pm 0 = false -> 0 < cnt ->
  is_power_of_two alignment = true -> PAGE_SIZE <= alignment -> is_multiple_of alignment PAGE_SIZE = true ->
  exists pm' r, find_aligned_continuous_mem pm cnt alignment = Done (pm', r) /\
    reserved pm cnt (alignment / PAGE_SIZE) pm' r.
Proof.
  intros Hwf Hz Hcnt Hp Hge Hm. unfold find_aligned_continuous_mem.
  rewrite (proj2 (Z.eqb_neq cnt 0)), Hp, Hm, (proj2 (Z.ltb_ge _ _)) by lia. cbn [orb negb].
  pose proof (llen_nonneg (pm_words pm)).
  assert (pm_len pm = Z.of_nat (Z.to_nat (pm_len pm))) as Hl by (unfold pm_len in *; lia).
  rewrite Hl. apply find_loop_spec; auto; [lia|..].
  - split; [lia|]. split; [lia|]. split; [lia|]. intros _. left. lia.
  - intros s (Hs & _ & _). lia.
Qed.

Lemma find_aligned_any pm cnt alignment :
  pm_wf pm -> free pm 0 = false -> 0 <= cnt ->
  exists pm' r, find_aligned_continuous_mem pm cnt alignment = Done (pm', r) /\
    (match r with Some _ => 0 < cnt /\ reserved pm cnt (alignment / PAGE_SIZE) pm' r | None => pm' = pm end).
Proof.
  intros Hwf Hz Hcnt. destruct ((cnt =? 0) || negb (is_power_of_two alignment) || (alignment <? PAGE_SIZE)
     || negb (is_multiple_of alignment PAGE_SIZE)) eqn:E.
  - unfold find_aligned_continuous_mem. rewrite E. by exists pm, None.
  - repeat (apply orb_false_iff in E as [E ?]). reflect_bools.
    destruct (find_aligned_reserved pm cnt alignment) as (pm' & r & -> & Hr); auto; [lia|].
    exists pm', r. split; [done|]. destruct r; [split; [lia|done]|]. apply Hr.
Qed.

Lemma dealloc_continuous_spec pm start cnt :
  pm_wf pm -> 0 <= start -> 0 < cnt -> start + cnt <= pm_len pm ->
  exists pm' ws, dealloc_continuous_mem pm (start * PAGE_SIZE) cnt = Done (pm', ws) /\
    (forall i, start <= i < start + cnt -> free pm' i = true) /\
    same_but pm pm' (fun i => start <= i < start + cnt) /\
    ws = filter (fun i => free pm i = true) (seqZ start cnt).
Proof.
  intros Hwf Hs Hc Hl. unfold dealloc_continuous_mem, pm_wf, PAGE_SIZE in *.
  rewrite (proj2 (Z.eqb_neq cnt 0)) by lia.
  assert (is_multiple_of (start * 4096) 4096 = true) as ->.
  { unfold is_multiple_of. simpl. by rewrite Z.mod_mul. }
  cbn [orb negb]. rewrite Z.div_mul by lia. unfold saturating_add.
  replace (Z.min (Z.min (start + cnt) (2 ^ 64 - 1)) (pm_len pm) - start) with cnt by lia.
  match goal with |- context [fold_outcome ?f _ _] => set (F := f) end.
  destruct (fold_outcome_ind F (fun dn st => (forall i, i ∈ dn -> free st.1 i = true) /\
      same_but pm st.1 (fun i => i ∈ dn) /\ st.2 = filter (fun i => free pm i = true) dn)
    (seqZ start cnt) (pm, [])) as ([pm' ws] & -> & Hd & Hsame & Hw).
  - split; [by intros i ?%elem_of_nil|]. split; [done|done].
  - intros dn x [pm1 ws] [todo Hx] (Hd & [Hlen Href Hfree] & Hw). cbn [fst snd] in *.
    assert (x ∈ seqZ start cnt) as Hin%elem_of_seqZ by (rewrite Hx; set_solver).
    assert (x ∉ dn) as Hnin.
    { pose proof (NoDup_seqZ start cnt) as Hnd. rewrite Hx in Hnd.
      apply NoDup_app in Hnd as (_ & Hnd & _). intros Hi. apply (Hnd x Hi). left. }
    unfold F. rewrite pm_get_free by lia. cbn [mbind outcome_bind].
    destruct (pm_set_spec pm1 x true) as (pm2 & -> & Hv & [Hlen2 Href2 Hfree2]); [lia|].
    cbn [mbind outcome_bind]. eexists. split; [reflexivity|]. cbn [fst snd]. split; [|split].
    + intros i Hi. destruct (Z.eq_dec x i) as [->|]; [done|].
      assert (i ∈ dn) by set_solver.
      assert (0 <= i) by (assert (i ∈ seqZ start cnt) as ?%elem_of_seqZ by (rewrite Hx; set_solver); lia).
      rewrite Hfree2 by done. by apply Hd.
    + split; [lia|congruence|]. intros i Hi0 Hni. rewrite Hfree2, Hfree; set_solver.
    + rewrite filter_app, Hw, Hfree by (done || lia). rewrite filter_cons, filter_nil.
      destruct (free pm x) eqn:Ef; [rewrite decide_True by done|rewrite decide_False by done]; [done|].
      by rewrite app_nil_r.
  - exists pm', ws. split; [done|]. cbn [fst snd] in *. split; [|split; [|done]].
    + intros i Hi. apply Hd, elem_of_seqZ. lia.
    + destruct Hsame as [? ? Hf]. split; auto. intros i Hi0 Hni. apply Hf; [done|].
      intros Hi%elem_of_seqZ. apply Hni. lia.
Qed.

Lemma alloc_loop_spec pm : forall m n,
  pm_wf pm -> 0 <= n -> n + Z.of_nat m = pm_len pm -> (forall i, 0 <= i < n -> free pm i = false) ->
  exists pm' r, alloc_loop pm (seqZ n (Z.of_nat m)) = Done (pm', r) /\
  match r with
  | Some a => exists i, a = i * PAGE_SIZE /\ 0 <= i < pm_len pm /\ free pm i = true /\
      (forall j, 0 <= j < i -> free pm j = false) /\ free pm' i = false /\ same_but pm pm' (eq i)
  | None => pm' = pm /\ forall i, 0 <= i -> free pm i = false
  end.
Proof.
  intros m. induction m as [|m IH]; intros n Hwf Hn Hlen Hno.
  - exists pm, None. split; [done|]. split; [done|]. intros i Hi.
    destruct (Z.lt_ge_cases i n); [apply Hno; lia|]. apply free_out_of_range. lia.
  - rewrite seqZ_cons by lia. replace (Z.pred (Z.of_nat (S m))) with (Z.of_nat m) by lia.
    replace (Z.succ n) with (n + 1) by lia.
    cbn [alloc_loop]. rewrite pm_get_free by lia. cbn [mbind outcome_bind].
    destruct (free pm n) eqn:Ef.
    + destruct (pm_set_spec pm n false) as (pm' & -> & Hv & Hsame); [lia|]. cbn [mbind outcome_bind].
      unfold mul_ovf, PAGE_SIZE, pm_wf in *. rewrite (proj2 (Z.ltb_lt _ _)) by lia.
      eexists _, _. split; [reflexivity|]. exists n. split; [done|]. split; [lia|]. auto.
    + apply IH; auto; [lia|lia|]. intros i Hi. destruct (Z.eq_dec i n) as [->|]; [done|]. apply Hno. lia.
Qed.

Lemma alloc_page_spec pm :
  pm_wf pm ->
  exists pm' r, alloc_physical_page pm = Done (pm', r) /\
  match r with
  | Some a => exists i, a = i * PAGE_SIZE /\ 0 <= i < pm_len pm /\ free pm i = true /\
      (forall j, 0 <= j < i -> free pm j = false) /\ free pm' i = false /\ same_but pm pm' (eq i)
  | None => pm' = pm /\ forall i, 0 <= i -> free pm i = false
  end.
Proof.
  intros Hwf. unfold alloc_physical_page. pose proof (llen_nonneg (pm_words pm)).
  assert (pm_len pm = Z.of_nat (Z.to_nat (pm_len pm))) as Hl by (unfold pm_len in *; lia).
  replace (seqZ 0 (pm_len pm)) with (seqZ 0 (Z.of_nat (Z.to_nat (pm_len pm)))) by (by rewrite <- Hl).
  apply alloc_loop_spec; auto; lia.
Qed.

Lemma dealloc_page_spec pm i :
  0 <= i < pm_len pm ->
  exists pm', dealloc_physical_page pm (i * PAGE_SIZE) = Done (pm', if free pm i then [i] else []) /\
    free pm' i = true /\ same_but pm pm' (eq i).
Proof.
  intros Hi. unfold dealloc_physical_page, PAGE_SIZE. rewrite Z.div_mul by lia.
  rewrite pm_get_free by done. cbn [mbind outcome_bind].
  destruct (pm_set_spec pm i true) as (pm' & -> & Hv & Hsame); [lia|]. cbn. eauto.
Qed.

(** [n] pages are free. *)
Definition free_pages (pm : PageMan) (n : nat) : Prop :=
  exists ps : list Z, length ps = n /\ NoDup ps /\ forall p, p ∈ ps -> 0 <= p /\ free pm p = true.
Lemma free_pages_take pm pm' i n :
  same_but pm pm' (eq i) -> free_pages pm (S n) -> free_pages pm' n.
Proof.
  intros Hs (ps & Hl & Hnd & Hps).
  assert (forall p, p ∈ ps -> p <> i -> 0 <= p /\ free pm' p = true) as Hk.
  { intros p Hp Hne. destruct (Hps p Hp) as [H0 Hf]. split; [done|]. rewrite (sb_free _ _ _ Hs); [done|done|congruence]. }
  destruct (decide (i ∈ ps)) as [Hin|Hin].
  - apply list_elem_of_split in Hin as (l1 & l2 & ->). exists (l1 ++ l2).
    rewrite length_app in Hl |- *. cbn [length] in Hl. split; [lia|].
    apply NoDup_app in Hnd as (H1 & H2 & [H3 H4]%NoDup_cons).
    assert (NoDup (l1 ++ l2)) as Hnd by (apply NoDup_app; split_and!; [done| |done]; intros x Hx Hx2; apply (H2 x Hx); by right).
    split; [done|]. intros p Hp. apply Hk; [set_solver|]. intros ->.
    apply elem_of_app in Hp as [Hp|Hp]; [|done]. apply (H2 i Hp). left.
  - destruct ps as [|p ps]; [done|]. exists ps. cbn in Hl. apply NoDup_cons in Hnd as [_ Hnd].
    split; [lia|]. split; [done|]. intros q Hq. apply Hk; [by right|]. intros ->. apply Hin. by right.
Qed.

(** ** Ownership *)

(** The allocator together with the blocks handed out and not yet returned, as
    (first page, number of pages). *)
Definition sys : Type := PageMan * list (Z * Z).
Definition block_pages (b : Z * Z) : list Z := seqZ b.1 b.2.
Definition owned (bs : list (Z * Z)) : list Z := concat (map block_pages bs).

Inductive alloc_step : sys -> sys -> Prop :=
  | step_find pm bs cnt alignment pm' a :
      0 <= cnt ->
      find_aligned_continuous_mem pm cnt alignment = Done (pm', Some a) ->
      alloc_step (pm, bs) (pm', (a / PAGE_SIZE, cnt) :: bs)
  | step_page pm bs pm' a :
      alloc_physical_page pm = Done (pm', Some a) ->
      alloc_step (pm, bs) (pm', (a / PAGE_SIZE, 1) :: bs)
  | step_free pm bs1 s n bs2 pm' ws :
      dealloc_continuous_mem pm (s * PAGE_SIZE) n = Done (pm', ws) ->
      alloc_step (pm, bs1 ++ (s, n) :: bs2) (pm', bs1 ++ bs2)
  | step_free_page pm bs1 s bs2 pm' ws :
      dealloc_physical_page pm (s * PAGE_SIZE) = Done (pm', ws) ->
      alloc_step (pm, bs1 ++ (s, 1) :: bs2) (pm', bs1 ++ bs2).

Record sys_ok (st : sys) : Prop := {
  so_wf : pm_wf st.1;
  so_zero : free st.1 0 = false;
  so_blocks : Forall (fun b => 0 < b.1 /\ 0 < b.2) st.2;
  so_nodup : NoDup (owned st.2);
  so_owned : forall p, p ∈ owned st.2 -> 0 <= p < pm_len st.1 /\ free st.1 p = false;
}.

Lemma owned_app bs1 bs2 : owned (bs1 ++ bs2) = owned bs1 ++ owned bs2.
Proof. unfold owned. by rewrite map_app, concat_app. Qed.
Lemma owned_cons b bs : owned (b :: bs) = block_pages b ++ owned bs.
Proof. done. Qed.

Lemma elem_of_block s n p : p ∈ block_pages (s, n) <-> s <= p < s + n.
Proof. apply elem_of_seqZ. Qed.

(** Handing out a block of pages that were free. *)
Lemma sys_ok_alloc pm bs pm' s n :
  sys_ok (pm, bs) -> 0 <= s -> 0 < n ->
  (forall i, s <= i < s + n -> free pm i = true) ->
  (forall i, s <= i < s + n -> free pm' i = false) ->
  same_but pm pm' (fun i => s <= i < s + n) ->
  sys_ok (pm', (s, n) :: bs).
Proof.
  intros [Hwf Hz Hb Hnd Ho] Hs Hn Hfree Htaken [Hlen Href Hsame]. cbn [fst snd] in *.
  split; cbn [fst snd].
  - unfold pm_wf in *. lia.
  - rewrite Hsame; [done|lia|]. intros Hi. rewrite Hfree in Hz; done.
  - constructor; [|done]. split; [|done]. cbn. destruct (Z.eq_dec s 0) as [->|]; [|lia].
    rewrite Hfree in Hz by lia. done.
  - rewrite owned_cons. apply NoDup_app. split; [apply NoDup_seqZ|]. split; [|done].
    intros p Hp%elem_of_block Hp'. destruct (Ho p Hp') as [_ Hf]. rewrite Hfree in Hf; done.
  - intros p [Hp%elem_of_block|Hp]%elem_of_app.
    + split; [|by apply Htaken]. rewrite Hlen. apply free_range; [lia|by apply Hfree].
    + destruct (Ho p Hp) as [Hr Hf]. split; [lia|]. rewrite Hsame; [done|lia|].
      intros Hi. rewrite Hfree in Hf; done.
Qed.

(** Returning an owned block. *)
Lemma sys_ok_free pm bs1 s n bs2 pm' :
  sys_ok (pm, bs1 ++ (s, n) :: bs2) ->
  same_but pm pm' (fun i => s <= i < s + n) ->
  sys_ok (pm', bs1 ++ bs2).
Proof.
  intros [Hwf Hz Hb Hnd Ho] [Hlen Href Hsame]. cbn [fst snd] in *.
  rewrite owned_app, owned_cons in Hnd, Ho.
  assert (forall p, p ∈ owned (bs1 ++ bs2) -> ~ s <= p < s + n) as Hdis.
  { intros p Hp Hin. apply elem_of_block in Hin. rewrite owned_app in Hp.
    apply NoDup_app in Hnd as (_ & Hd1 & Hnd2). apply NoDup_app in Hnd2 as (_ & Hd2 & _).
    apply elem_of_app in Hp as [Hp|Hp]; [apply (Hd1 p Hp); set_solver|by apply (Hd2 p)]. }
  assert (forall p, p ∈ owned (bs1 ++ bs2) -> p ∈ owned bs1 ++ block_pages (s, n) ++ owned bs2) as Hsub.
  { intros p. rewrite owned_app. set_solver. }
  split; cbn [fst snd].
  - unfold pm_wf in *. lia.
  - rewrite Hsame; [done|lia|]. intros Hi.
    apply Forall_app in Hb as [_ Hb]. apply Forall_cons in Hb as [[Hs _] _]. cbn in Hs. lia.
  - apply Forall_app in Hb as [Hb1 Hb2]. apply Forall_cons in Hb2 as [_ Hb2]. by apply Forall_app.
  - rewrite owned_app. apply NoDup_app in Hnd as (H1 & Hd1 & Hnd2).
    apply NoDup_app in Hnd2 as (_ & _ & H2). apply NoDup_app. split; [done|]. split; [|done]. set_solver.
  - intros p Hp. destruct (Ho p (Hsub p Hp)) as [Hr Hf]. split; [lia|]. rewrite Hsame; [done|lia|].
    by apply Hdis.
Qed.

Lemma alloc_step_ok st st' : sys_ok st -> alloc_step st st' -> sys_ok st'.
Proof.
  intros Hok Hstep. pose proof (so_wf _ Hok) as Hwf. pose proof (so_zero _ Hok) as Hz.
  destruct Hstep as [pm bs cnt al pm' a Hc Hf|pm bs pm' a Hf|pm bs1 s n bs2 pm' ws Hf|pm bs1 s bs2 pm' ws Hf];
    cbn [fst snd] in *.
  - destruct (find_aligned_any pm cnt al Hwf Hz Hc) as (pm1 & r & Hf' & Hr).
    rewrite Hf in Hf'. injection Hf' as <- <-. destruct Hr as [Hpos (s & -> & (H0 & Hrun & _) & _ & Ht & Hs)].
    unfold PAGE_SIZE. rewrite Z.div_mul by lia. by eapply sys_ok_alloc.
  - destruct (alloc_page_spec pm Hwf) as (pm1 & r & Hf' & Hr).
    rewrite Hf in Hf'. injection Hf' as <- <-. destruct Hr as (s & -> & Hr & Hfree & _ & Ht & [Hl Hrf Hs]).
    unfold PAGE_SIZE. rewrite Z.div_mul by lia. eapply sys_ok_alloc; [exact Hok|lia|lia|..].
    + intros i Hi. by replace i with s by lia.
    + intros i Hi. by replace i with s by lia.
    + split; auto. intros i Hi Hn. apply Hs; [done|]. intros ->. apply Hn. lia.
  - pose proof (so_blocks _ Hok) as Hb. apply Forall_app in Hb as [_ Hb]. apply Forall_cons in Hb as [[Hs Hn] _].
    cbn [fst snd] in *.
    assert (s + n <= pm_len pm) as Hle.
    { destruct (so_owned _ Hok (s + n - 1)) as [? _]; [|cbn [fst] in *; lia].
      cbn [snd]. rewrite owned_app, owned_cons. apply elem_of_app. right. apply elem_of_app. left.
      apply elem_of_block. lia. }
    destruct (dealloc_continuous_spec pm s n Hwf) as (pm1 & ws1 & Hf' & _ & Hsame & _); [lia..|].
    rewrite Hf in Hf'. injection Hf' as <- <-. by eapply sys_ok_free.
  - destruct (so_owned _ Hok s) as [Hr _].
    { cbn [snd]. rewrite owned_app, owned_cons. apply elem_of_app. right. apply elem_of_app. left.
      apply elem_of_block. lia. }
    destruct (dealloc_page_spec pm s Hr) as (pm1 & Hf' & _ & [Hl Hrf Hs]).
    rewrite Hf in Hf'. injection Hf' as <- _. eapply sys_ok_free; [exact Hok|].
    split; auto. intros i Hi Hn. apply Hs; [done|]. intros ->. apply Hn. lia.
Qed.

(** ** Placement at boot *)

(** A usable memory map: page-aligned, disjoint from page 0, ascending, inside
    the physical address space. *)
Record memmap_ok (usable : list (Z * Z)) : Prop := {
  mo_aligned : Forall (fun r => 4096 <= r.1 /\ 0 <= r.2 /\ r.1 mod 4096 = 0 /\ r.2 mod 4096 = 0) usable;
  mo_sorted : forall e, last usable = Some e -> Forall (fun r => r.1 + r.2 <= e.1 + e.2) usable /\ e.1 + e.2 <= 2 ^ 51;
}.

Definition in_regions (regions : list (Z * Z)) (p : Z) : Prop :=
  exists r, r ∈ regions /\ r.1 / 4096 <= p < r.1 / 4096 + r.2 / 4096.

Lemma mark_regions_spec regions pm :
  Forall (fun r => 0 <= r.1 /\ 0 <= r.2 /\ r.1 / 4096 + r.2 / 4096 <= pm_len pm) regions ->
  pm_len pm < 2 ^ 64 ->
  exists pm', mark_regions regions pm = Done pm' /\
    (forall p, 0 <= p -> in_regions regions p -> free pm' p = true) /\ same_but pm pm' (in_regions regions).
Proof.
  intros Hr Hl. unfold mark_regions.
  match goal with |- context [fold_outcome ?f _ _] => set (F := f) end.
  apply (fold_outcome_ind F (fun dn pm' =>
    (forall p, 0 <= p -> in_regions dn p -> free pm' p = true) /\ same_but pm pm' (in_regions dn))).
  - split; [intros p _ (r & ?%elem_of_nil & _); done|done].
  - intros dn [base len] pm1 [todo Hx] [Hd [Hlen Href Hfree]].
    rewrite Hx in Hr. apply Forall_app in Hr as [_ Hr]. apply Forall_cons in Hr as [(Hb & Hn & Hle) _].
    cbn [fst snd] in *. unfold F, add_ovf. rewrite (proj2 (Z.ltb_lt _ _)) by lia. cbn [mbind outcome_bind].
    assert (0 <= base / 4096) by (apply Z.div_pos; lia).
    destruct (set_range_spec pm1 (base / 4096) (base / 4096 + len / 4096) true) as (pm2 & -> & Hset & [Hl2 Hr2 Hf2]);
      [lia|lia|].
    exists pm2. split; [done|].
    assert (forall p, in_regions (dn ++ [(base, len)]) p <->
              in_regions dn p \/ base / 4096 <= p < base / 4096 + len / 4096) as Hin.
    { intros p. unfold in_regions. setoid_rewrite elem_of_app. setoid_rewrite list_elem_of_singleton.
      split; [intros (r & [Hr1| ->] & Hp); eauto|]. intros [(r & Hr1 & Hp)|Hp]; eauto. }
    split.
    + intros p Hp0 Hp. destruct (decide (base / 4096 <= p < base / 4096 + len / 4096)) as [Hi|Hi].
      * by apply Hset.
      * rewrite Hf2 by done. apply Hd; [done|]. apply Hin in Hp as [?|?]; [done|lia].
    + split; [lia|congruence|]. intros p Hp0 Hp. rewrite Hin in Hp. rewrite Hf2, Hfree; tauto.
Qed.

Lemma div_ceil_bounds a b : 0 <= a -> 0 < b -> a <= div_ceil a b * b < a + b.
Proof.
  intros Ha Hb. unfold div_ceil. pose proof (Z.div_mod (a + b - 1) b ltac:(lia)).
  pose proof (Z.mod_pos_bound (a + b - 1) b Hb). lia.
Qed.

(** The pages that hold the allocator's own tables. *)
Definition table_pages (usable : list (Z * Z)) (first n : Z) : Prop :=
  exists e, last usable = Some e /\
  let size := (calc_size ((e.1 + e.2) / 4096)).2 in
  n = div_ceil size 4096 /\
  exists k r, list_find (fun r => size <= r.2) usable = Some (k, r) /\ first = r.1 / 4096.

Lemma region_pages r : r.1 mod 4096 = 0 -> r.2 mod 4096 = 0 -> (r.1 + r.2) / 4096 = r.1 / 4096 + r.2 / 4096.
Proof.
  intros H1%Z.div_exact H2; [|lia]. rewrite H1 at 1. by rewrite Z.mul_comm, Z.div_add_l.
Qed.

Lemma boot_placement usable first n :
  memmap_ok usable -> table_pages usable first n ->
  exists pm, allocator_state usable = Done pm /\ pm_wf pm /\ free pm 0 = false /\
    forall p, 0 <= p -> (free pm p = true <-> in_regions usable p /\ ~ first <= p < first + n).
Proof.
  intros [Hal Hsort] (e & He & Hn & k & r & Hfind & Hfirst). destruct (Hsort e He) as [Hle He51].
  rewrite Forall_forall in Hal, Hle.
  assert (e ∈ usable) as Hein by (apply last_Some in He as [l ->]; set_solver).
  destruct (Hal e Hein) as (He0 & He1 & _ & _).
  set (total := (e.1 + e.2) / 4096) in *.
  assert (0 <= total) as Ht0 by (apply Z.div_pos; lia).
  assert (total <= 2 ^ 39) as Ht1 by (apply Z.div_le_upper_bound; lia).
  pose proof (div_ceil_bounds total 64 Ht0 ltac:(lia)) as Hwords.
  assert (0 <= div_ceil total 64) as Hw0 by (apply Z.div_pos; lia).
  unfold allocator_state. rewrite He. cbn [unwrap mbind outcome_bind].
  unfold add_ovf. rewrite (proj2 (Z.ltb_lt _ _)) by lia. cbn [mbind outcome_bind]. fold total.
  unfold calc_size in *. cbn [fst snd] in *. rewrite Hfind. cbn [fmap option_fmap option_map unwrap mbind outcome_bind snd].
  apply list_find_Some in Hfind as (Hk & Hsz & _). apply list_elem_of_lookup_2 in Hk.
  destruct (Hal r Hk) as (Hr0 & Hr1 & Hrm1 & Hrm2).
  assert (forall q, q ∈ usable -> q.1 / 4096 + q.2 / 4096 <= total) as Hend.
  { intros q Hq. destruct (Hal q Hq) as (_ & _ & Hq1 & Hq2). rewrite <- region_pages by done.
    apply Z.div_le_mono; [lia|]. by apply Hle. }
  destruct (mark_regions_spec usable (pm_new (div_ceil total 64) total)) as (pm1 & -> & Hset & [Hl1 Hr1' Hf1]).
  { apply Forall_forall. intros q Hq. destruct (Hal q Hq) as (? & ? & _ & _). rewrite pm_new_len by done.
    specialize (Hend q Hq). lia. }
  { rewrite pm_new_len by done. lia. }
  rewrite pm_new_len in Hl1 by done. cbn [mbind outcome_bind].
  assert (0 <= r.1 / 4096) by (apply Z.div_pos; lia).
  set (size := div_ceil total 64 * 8 + total) in *.
  pose proof (div_ceil_bounds size 4096 ltac:(unfold size; lia) ltac:(lia)) as Hsize.
  assert (div_ceil size 4096 <= r.2 / 4096) as Hfit.
  { apply Z.div_exact in Hrm2; lia. }
  specialize (Hend r Hk). rewrite (proj2 (Z.ltb_lt _ _)) by lia. cbn [mbind outcome_bind].
  destruct (set_range_spec pm1 (r.1 / 4096) (r.1 / 4096 + div_ceil size 4096) false) as (pm2 & -> & Hclr & [Hl2 Hr2 Hf2]);
    [lia|lia|].
  assert (forall p, 0 <= p -> (free pm2 p = true <-> in_regions usable p /\ ~ first <= p < first + n)) as Hspec.
  { intros p Hp. rewrite Hn, Hfirst. destruct (decide (r.1 / 4096 <= p < r.1 / 4096 + div_ceil size 4096)) as [Hin|Hin].
    - rewrite Hclr by done. split; [done|tauto].
    - rewrite Hf2 by done. split.
      + intros Hf. split; [|done]. destruct (decide (Exists (fun q => q.1 / 4096 <= p < q.1 / 4096 + q.2 / 4096) usable)) as [Hex|Hex].
        * by apply Exists_exists in Hex as (q & ? & ?); exists q.
        * rewrite Hf1, pm_new_free in Hf; [done|done|done|]. intros (q & ? & ?). apply Hex, Exists_exists. eauto.
      + intros [Hreg _]. by apply Hset. }
  exists pm2. split; [done|]. split; [unfold pm_wf; lia|]. split; [|done].
  destruct (free pm2 0) eqn:E; [|done]. apply Hspec in E as [(q & Hq & Hq0) _]; [|lia].
  destruct (Hal q Hq) as (Hq1 & _). assert (1 <= q.1 / 4096) by (apply Z.div_le_lower_bound; lia). lia.
Qed.

(** The allocator and, behind the direct map at [offset], the heap of 2048 pages. *)
(** @ mm/mod.rs:20-33 init *)
Definition mm_init (offset : Z) (usable : list (Z * Z)) : outcome (PageMan * Z) :=
  pm ← allocator_state usable;
  '(pm, r) ← find_continuous_mem pm 2048;
  a ← unwrap r;
  heap_start_address ← add_ovf 64 a offset;
  Done (pm, heap_start_address).

(** With room for it, the heap is the first run of usable pages outside the
    allocator's tables, and what is free afterwards is usable and in neither. *)
Lemma mm_init_spec offset usable first n s :
  memmap_ok usable -> table_pages usable first n -> 0 <= offset <= 2 ^ 63 ->
  0 <= s -> (forall p, s <= p < s + 2048 -> in_regions usable p /\ ~ first <= p < first + n) ->
  exists pm start, mm_init offset usable = Done (pm, start * PAGE_SIZE + offset) /\ pm_wf pm /\ free pm 0 = false /\
    (forall p, start <= p < start + 2048 -> in_regions usable p /\ ~ first <= p < first + n) /\ start <= s /\
    forall p, 0 <= p -> (free pm p = true <-> in_regions usable p /\ ~ first <= p < first + n /\ ~ start <= p < start + 2048).
Proof.
  intros Hmap Htab Hoff Hs0 Hs. destruct (boot_placement usable first n Hmap Htab) as (pm & Hpm & Hwf & Hz & Hfree).
  unfold mm_init. rewrite Hpm. cbn [mbind outcome_bind]. unfold find_continuous_mem.
  destruct (find_aligned_reserved pm 2048 PAGE_SIZE) as (pm' & r & -> & Hr); [done|done|lia|done|done|done|]. cbn [mbind outcome_bind].
  assert (run_at pm 2048 (PAGE_SIZE / PAGE_SIZE) s) as Hrun.
  { split; [done|]. split; [|unfold is_multiple_of; cbn; by rewrite Z.mod_1_r]. intros i Hi. apply Hfree; [lia|by apply Hs]. }
  destruct r as [a|]; [|by destruct Hr as [_ Hr]; apply Hr in Hrun].
  destruct Hr as (start & -> & (Hst0 & Hst & _) & Hleast & Htaken & [Hlen _ Hother]). specialize (Hleast s Hrun).
  assert (free pm start = true) as Hst1 by (apply Hst; lia).
  assert (start < pm_len pm) as Hlt by (destruct (Z.lt_ge_cases start (pm_len pm)); [done|]; rewrite free_out_of_range in Hst1 by lia; done).
  cbn [unwrap mbind outcome_bind]. unfold pm_wf, add_ovf, PAGE_SIZE in *. rewrite (proj2 (Z.ltb_lt _ _)) by lia. cbn [mbind outcome_bind].
  exists pm', start. split; [done|]. split; [lia|].
  assert (forall p, 0 <= p -> ~ start <= p < start + 2048 -> free pm' p = free pm p) as Hsame by (intros; by apply Hother).
  split; [|split; [|split; [done|]]].
  - destruct (decide (start <= 0 < start + 2048)); [by apply Htaken|by rewrite Hsame].
  - intros p Hp. apply Hfree; [lia|]. by apply Hst.
  - intros p Hp. destruct (decide (start <= p < start + 2048)) as [Hin|Hin].
    + rewrite Htaken by done. split; [done|tauto].
    + rewrite Hsame, Hfree by done. tauto.
Qed.
End Allocator.

(** ** Properties *)

(** Boot places the allocator: on a page-aligned memory map with a region
    large enough for the tables, initialisation neither overflows nor indexes
    out of range, and afterwards a page is free exactly when it lies in a usable
    region and not under the allocator's own tables; page 0 is never free. *)
Theorem allocator_boot_exact `{BitField} (usable : list (Z * Z)) (first n : Z) :
  memmap_ok usable -> table_pages usable first n ->
  exists pm, allocator_state usable = Done pm /\ pm_wf pm /\ free pm 0 = false /\
    forall p, 0 <= p -> (free pm p = true <-> in_regions usable p /\ ~ first <= p < first + n).
Proof. apply boot_placement. Qed.

Definition small_map : list (Z * Z) := [(0x1000, 0x3000); (0x10000, 0x8000)].
Lemma small_map_ok : memmap_ok small_map.
Proof.
  split.
  - repeat constructor; vm_compute; congruence.
  - intros e [= <-]. split; [repeat constructor; vm_compute; congruence|vm_compute; congruence].
Qed.

Lemma allocator_boot_exact_witness :
  table_pages small_map 1 1 /\
  exists pm, allocator_state (H := z_bit_field) small_map = Done pm /\ pm_wf pm /\
    free (H := z_bit_field) pm 0 = false /\
    (forall p, 0 <= p -> (free (H := z_bit_field) pm p = true <-> in_regions small_map p /\ ~ 1 <= p < 1 + 1)).
Proof.
  assert (table_pages small_map 1 1) as Ht.
  { exists (0x10000, 0x8000). split; [reflexivity|]. split; [reflexivity|]. exists 0%nat, (0x1000, 0x3000).
    split; vm_compute; reflexivity. }
  split; [exact Ht|]. exact (allocator_boot_exact (H := z_bit_field) small_map 1 1 small_map_ok Ht).
Defined.

(** C23: [find_aligned_continuous_mem] is first-fit and complete: it returns the
    lowest aligned run of [cnt] free pages when there is one, takes exactly those
    pages and no other, and returns [None] with the bitmap untouched only when no
    such run exists; it never panics as long as page 0 is not free. *)
Theorem find_aligned_first_fit `{BitField} (pm : PageMan) (cnt alignment : Z) :
  pm_wf pm -> free pm 0 = false -> 0 < cnt ->
  is_power_of_two alignment = true -> PAGE_SIZE <= alignment -> is_multiple_of alignment PAGE_SIZE = true ->
  exists pm' r, find_aligned_continuous_mem pm cnt alignment = Done (pm', r) /\
    reserved pm cnt (alignment / PAGE_SIZE) pm' r.
Proof. apply find_aligned_reserved. Qed.

(** Pages 1 and 4 to 9 free. *)
Definition small_pm : PageMan := mk_PageMan [0x3f2] (replicate 64 0).

Lemma find_aligned_first_fit_witness :
  exists pm' r, find_aligned_continuous_mem (H := z_bit_field) small_pm 2 0x4000 = Done (pm', r) /\
    reserved (H := z_bit_field) small_pm 2 4 pm' r /\ r = Some 0x4000.
Proof.
  destruct (find_aligned_first_fit (H := z_bit_field) small_pm 2 0x4000) as (pm' & r & Hf & Hr);
    [vm_compute; congruence|reflexivity|lia|reflexivity|vm_compute; congruence|reflexivity|].
  exists pm', r. split; [exact Hf|]. split; [exact Hr|].
  pose proof (f_equal (fun o => match o with Done (_, r) => r | _ => None end) Hf) as Hr'.
  vm_compute in Hr'. symmetry. exact Hr'.
Defined.

(** C4: No page is ever handed out twice: after any sequence of reservations,
    single-page allocations and frees of blocks that are held, the blocks held
    are pairwise disjoint, inside the managed range and not free; and freeing a
    held block never meets a page that is already free. *)
Theorem allocator_never_overlaps `{BitField} (pm : PageMan) (st : sys) :
  pm_wf pm -> free pm 0 = false -> rtc alloc_step (pm, []) st ->
  NoDup (owned st.2) /\
  (forall p, p ∈ owned st.2 -> 0 <= p < pm_len st.1 /\ free st.1 p = false) /\
  (forall s n, (s, n) ∈ st.2 -> exists pm', dealloc_continuous_mem st.1 (s * PAGE_SIZE) n = Done (pm', [])).
Proof.
  intros Hwf Hz Hr.
  assert (sys_ok st) as Hok.
  { eapply rtc_ind_r with (P := fun st => sys_ok st); [| |exact Hr].
    - split; cbn; auto; [constructor|intros p ?%elem_of_nil; done].
    - intros x y _ Hstep Hx. by eapply alloc_step_ok. }
  split; [apply so_nodup, Hok|]. split; [apply so_owned, Hok|].
  intros s n Hin. destruct st as [pm1 bs]. cbn [fst snd] in *.
  pose proof (so_blocks _ Hok) as Hb. cbn in Hb. rewrite Forall_forall in Hb. destruct (Hb _ Hin) as [Hs Hn]. cbn in *.
  assert (forall p, s <= p < s + n -> p ∈ owned bs) as Hpages.
  { intros p Hp. apply list_elem_of_split in Hin as (l1 & l2 & ->). rewrite owned_app, owned_cons.
    apply elem_of_app. right. apply elem_of_app. left. by apply elem_of_block. }
  destruct (so_owned _ Hok (s + n - 1)) as [Hlast _]; [apply Hpages; lia|]. cbn in Hlast.
  destruct (dealloc_continuous_spec pm1 s n (so_wf _ Hok)) as (pm' & ws & -> & _ & _ & ->); [lia..|].
  exists pm'. do 2 f_equal.
  apply elem_of_nil_inv. intros p. rewrite list_elem_of_filter. intros [Hf Hp%elem_of_seqZ].
  destruct (so_owned _ Hok p) as [_ Hnf]; [by apply Hpages|]. cbn in Hnf. congruence.
Qed.

Lemma allocator_never_overlaps_witness :
  exists st, rtc (alloc_step (H := z_bit_field)) (small_pm, []) st /\ length st.2 = 2%nat /\
    NoDup (owned st.2).
Proof.
  destruct (find_aligned_continuous_mem (H := z_bit_field) small_pm 2 0x4000) as [[pm1 [a|]]| |] eqn:E1;
    try (vm_compute in E1; discriminate).
  destruct (alloc_physical_page (H := z_bit_field) pm1) as [[pm2 [b|]]| |] eqn:E2;
    try (vm_compute in E1; injection E1 as <- <-; vm_compute in E2; discriminate).
  assert (rtc (alloc_step (H := z_bit_field)) (small_pm, []) (pm2, [(b / PAGE_SIZE, 1); (a / PAGE_SIZE, 2)])) as Hr.
  { eapply rtc_l; [exact (step_find small_pm [] 2 0x4000 pm1 a ltac:(lia) E1)|].
    eapply rtc_l; [exact (step_page pm1 _ pm2 b E2)|]. apply rtc_refl. }
  eexists. split; [exact Hr|]. split; [reflexivity|].
  exact (proj1 (allocator_never_overlaps (H := z_bit_field) small_pm _ ltac:(vm_compute; congruence) eq_refl Hr)).
Defined.

(** The scan subtracts before it adds: when the run it is looking for
    starts at page 0, [i - cnt + 1] underflows and a kernel built with overflow
    checks panics although the run could be reserved. *)
Theorem find_run_at_page_zero_panics `{BitField} (pm : PageMan) (cnt alignment : Z) :
  0 < cnt <= pm_len pm -> (forall i, 0 <= i < cnt -> free pm i = true) ->
  is_power_of_two alignment = true -> PAGE_SIZE <= alignment -> is_multiple_of alignment PAGE_SIZE = true ->
  find_aligned_continuous_mem pm cnt alignment = Panic.
Proof.
  intros Hcnt Hfree Hp Hge Hm. unfold find_aligned_continuous_mem.
  rewrite (proj2 (Z.eqb_neq cnt 0)), Hp, Hm, (proj2 (Z.ltb_ge _ _)) by lia. cbn [orb negb].
  assert (forall m n, 0 <= n < cnt -> n + Z.of_nat m = pm_len pm ->
    find_loop pm cnt (alignment / PAGE_SIZE) (seqZ n (Z.of_nat m)) n = Panic) as Hgen.
  { intros m. induction m as [|m IH]; intros n Hn Hlen; [lia|].
    rewrite seqZ_cons by lia. cbn [find_loop]. rewrite pm_get_free by lia. cbn [mbind outcome_bind].
    rewrite Hfree by lia. destruct (Z.eqb_spec (n + 1) cnt) as [He|He].
    - unfold sub_ovf. rewrite (proj2 (Z.leb_gt _ _)) by lia. done.
    - replace (Z.pred (Z.of_nat (S m))) with (Z.of_nat m) by lia. apply IH; lia. }
  pose proof (llen_nonneg (pm_words pm)).
  replace (seqZ 0 (pm_len pm)) with (seqZ 0 (Z.of_nat (Z.to_nat (pm_len pm)))) by (f_equal; unfold pm_len in *; lia).
  apply Hgen; unfold pm_len in *; lia.
Qed.

Lemma find_run_at_page_zero_panics_witness :
  find_aligned_continuous_mem (H := z_bit_field) (mk_PageMan [0xf] []) 2 4096 = Panic.
Proof.
  apply (find_run_at_page_zero_panics (H := z_bit_field)); [split; vm_compute; congruence| |reflexivity|
    vm_compute; congruence|reflexivity].
  intros i Hi. assert (i = 0 \/ i = 1) as [-> | ->] by lia; reflexivity.
Defined.
