(* ===== verification/Dma.v ===== *)
(** * DMA buffers and MMIO mappings: [mm/dma.rs]

    Buffers are runs of physical pages seen through the higher-half direct map
    at [off]; the page-table mapper of the [x86_64] crate is an interface. *)

From S2P Require Import Prelude Words Bitmap PageAlloc.

(** @ mm/dma.rs:22-26 DmaError *)
Inductive DmaError := DmaEmpty | InvalidAlignment | OutOfMemory.
(** @ mm/dma.rs:29-33 MmioError *)
Inductive MmioError := MmioEmpty | AddressOverflow | MappingMissing.

(** @ mm/mod.rs:34-36 phys_to_virt *)
Definition phys_to_virt (off addr : Z) : outcome Z := add_ovf 64 addr off.

(** [VirtAddr::new] panics on an address that is not canonical. *)
Definition is_canonical (a : Z) : bool := (a <? 2 ^ 47) || (2 ^ 64 - 2 ^ 47 <=? a).
Definition virt_addr_new (a : Z) : outcome Z := assert! is_canonical a; Done a.

(** ** Page ranges *)

(** @ mm/dma.rs:36-40 PageRange *)
Record PageRange := mk_PageRange { rg_base : Z; rg_pages : Z; rg_offset : Z }.

(** @ mm/dma.rs:43-61 PageRange::new *)
Definition page_range_new (address len : Z) : result PageRange MmioError :=
  if len =? 0 then Err MmioEmpty else
  let base := clear_bits address (PAGE_SIZE - 1) in
  let offset := address - base in
  match checked_add 64 offset len with
  | None => Err AddressOverflow
  | Some span =>
      match checked_add 64 span (PAGE_SIZE - 1) with
      | None => Err AddressOverflow
      | Some s =>
          let pages := s / PAGE_SIZE in
          match checked_add 64 base ((pages - 1) * PAGE_SIZE) with
          | None => Err AddressOverflow
          | Some _ => Ok (mk_PageRange base pages offset)
          end
      end
  end.

(** ** DMA buffers *)

(** @ mm/dma.rs:65-70 DmaBuffer *)
Record DmaBuffer := mk_DmaBuffer {
  dma_physical_address : Z;
  dma_virtual_address : Z;
  dma_pages : Z;
  dma_alignment : Z;
}.

(** Physical memory, byte by byte. *)
Definition memory : Type := Z -> Z.
(** [ptr::write_bytes(p, b, n)] on the physical bytes behind the pointer. *)
Definition write_bytes (m : memory) (addr b n : Z) : memory :=
  fun a => if bool_decide (addr <= a < addr + n) then b else m a.

Section Buffers.
Context `{BitField} (off : Z).
Implicit Types (pm : PageMan) (m : memory).

(** @ mm/dma.rs:73-96 DmaBuffer::new *)
Definition dma_new pm m (len alignment : Z) : outcome (PageMan * memory * result DmaBuffer DmaError) :=
  if len =? 0 then Done (pm, m, Err DmaEmpty) else
  if negb (is_power_of_two alignment) then Done (pm, m, Err InvalidAlignment) else
  let alignment := Z.max alignment PAGE_SIZE in
  match checked_add 64 len (PAGE_SIZE - 1) with
  | None => Done (pm, m, Err OutOfMemory)
  | Some s =>
      let pages := s / PAGE_SIZE in
      '(pm, r) ← find_aligned_continuous_mem pm pages alignment;
      match r with
      | None => Done (pm, m, Err OutOfMemory)
      | Some physical_address =>
          virtual_address ← phys_to_virt off physical_address;
          assert! negb (virtual_address =? 0);
          n ← mul_ovf 64 pages PAGE_SIZE;
          Done (pm, write_bytes m physical_address 0 n,
                Ok (mk_DmaBuffer physical_address virtual_address pages alignment))
      end
  end.

(** @ mm/dma.rs:110-112 DmaBuffer::len *)
Definition dma_len (b : DmaBuffer) : Z := dma_pages b * PAGE_SIZE.
(** @ mm/dma.rs:124-126 Drop::DmaBuffer::drop *)
Definition dma_drop pm (b : DmaBuffer) : outcome (PageMan * list Z) :=
  dealloc_continuous_mem pm (dma_physical_address b) (dma_pages b).
End Buffers.

(** ** MMIO mappings *)

(** [PageTableFlags] and the mapper of the [x86_64] crate: 4 KiB and 2 MiB flag
    updates and 4 KiB mappings, each followed by a TLB flush. *)
Inductive FlagUpdateError := PageNotMapped | ParentEntryHugePage.
Class Mapper (M : Type) := {
  update_flags_4k : M -> Z -> M * result unit FlagUpdateError;
  update_flags_2m : M -> Z -> M * result unit FlagUpdateError;
  map_to : M -> Z -> Z -> M * result unit unit;
}.

(** @ mm/dma.rs:130-136 MmioMapping *)
Record MmioMapping := mk_MmioMapping {
  mm_physical_address : Z;
  mm_virtual_address : Z;
  mm_len : Z;
  mm_page_base : Z;
  mm_pages : Z;
}.

Section Mapping.
Context {M : Type} `{Mapper M} (off : Z).

Definition page_of (va : Z) : Z := va / 4096 * 4096.
Definition huge_page_of (va : Z) : Z := va / 2097152 * 2097152.

(** The body of the loop for one page; the flags are always
    PRESENT | WRITABLE | NO_CACHE. *)
(** @ mm/dma.rs:153-181 MmioMapping::map -- one iteration *)
Definition map_page (m : M) (base page_index : Z) : outcome (M * result unit MmioError) :=
  pa ← add_ovf 64 base (page_index * PAGE_SIZE);
  virtual_address ← phys_to_virt off pa;
  let page := page_of virtual_address in
  match update_flags_4k m page with
  | (m, Ok _) => Done (m, Ok tt)
  | (m, Err ParentEntryHugePage) =>
      let '(m, r) := update_flags_2m m (huge_page_of virtual_address) in
      Done (m, map_err (fun _ => MappingMissing) r)
  | (m, Err PageNotMapped) =>
      let '(m, r) := map_to m page (page_of pa) in
      Done (m, map_err (fun _ => MappingMissing) r)
  end.

Fixpoint map_pages (m : M) (base : Z) (indices : list Z) : outcome (M * result unit MmioError) :=
  match indices with
  | [] => Done (m, Ok tt)
  | i :: indices =>
      '(m, r) ← map_page m base i;
      match r with
      | Ok _ => map_pages m base indices
      | Err e => Done (m, Err e)
      end
  end.

(** @ mm/dma.rs:143-192 MmioMapping::map *)
Definition mmio_map (m : M) (physical_address len : Z) : outcome (M * result MmioMapping MmioError) :=
  match page_range_new physical_address len with
  | Err e => Done (m, Err e)
  | Ok range =>
      '(m, r) ← map_pages m (rg_base range) (seqZ 0 (rg_pages range));
      match r with
      | Err e => Done (m, Err e)
      | Ok _ =>
          virtual_address ← phys_to_virt off physical_address;
          assert! negb (virtual_address =? 0);
          Done (m, Ok (mk_MmioMapping physical_address virtual_address len (rg_base range) (rg_pages range)))
      end
  end.
End Mapping.

(** ** Lemmas *)

Lemma clear_low_bits a : 0 <= a -> clear_bits a (PAGE_SIZE - 1) = a / 4096 * 4096.
Proof.
  intros Ha. unfold clear_bits, PAGE_SIZE. change (4096 - 1) with (Z.ones 12).
  rewrite Z.ldiff_ones_r by lia. by rewrite Z.shiftl_mul_pow2, Z.shiftr_div_pow2 by lia.
Qed.

Lemma page_range_spec address len :
  0 <= address < 2 ^ 64 -> 0 < len < 2 ^ 64 ->
  match page_range_new address len with
  | Ok r =>
      rg_base r mod 4096 = 0 /\ rg_base r <= address < rg_base r + 4096 /\ rg_offset r = address - rg_base r /\
      address + len <= rg_base r + rg_pages r * 4096 < address + len + 4096 /\
      rg_base r + (rg_pages r - 1) * 4096 < 2 ^ 64 /\ 0 < rg_pages r
  | Err e => e = AddressOverflow /\ 2 ^ 64 - 4096 < (address mod 4096 + len) + (if 2 ^ 64 <=? address mod 4096 + len + 4095 then 0 else address - address mod 4096)
  end.
Proof.
  intros Ha Hl. unfold page_range_new. rewrite (proj2 (Z.eqb_neq len 0)) by lia.
  rewrite clear_low_bits by lia. unfold PAGE_SIZE.
  pose proof (Z.div_mod address 4096 ltac:(lia)) as Hdm.
  pose proof (Z.mod_pos_bound address 4096 ltac:(lia)) as Hm.
  replace (address - address / 4096 * 4096) with (address mod 4096) by lia.
  unfold checked_add. change (4096 - 1) with 4095.
  destruct (Z.ltb_spec (address mod 4096 + len) (2 ^ 64)) as [H1|H1].
  2: { split; [done|]. rewrite (proj2 (Z.leb_le _ _)) by lia. lia. }
  destruct (Z.ltb_spec (address mod 4096 + len + 4095) (2 ^ 64)) as [H2|H2].
  2: { split; [done|]. rewrite (proj2 (Z.leb_le _ _)) by lia. lia. }
  pose proof (Z.div_mod (address mod 4096 + len + 4095) 4096 ltac:(lia)) as Hdm2.
  pose proof (Z.mod_pos_bound (address mod 4096 + len + 4095) 4096 ltac:(lia)) as Hm2.
  destruct (Z.ltb_spec (address / 4096 * 4096 + ((address mod 4096 + len + 4095) / 4096 - 1) * 4096) (2 ^ 64)) as [H3|H3].
  - cbn [rg_base rg_pages rg_offset]. rewrite Z.mod_mul by lia. lia.
  - split; [done|]. rewrite (proj2 (Z.leb_gt _ _)) by lia. lia.
Qed.

(** ** Buffers over the allocator *)

Section BufferLemmas.
Context `{BitField} (off : Z).
Implicit Types (pm : PageMan) (m : memory).

Lemma max_power_of_two a :
  is_power_of_two a = true -> a < 2 ^ 64 ->
  is_power_of_two (Z.max a PAGE_SIZE) = true /\ is_multiple_of (Z.max a PAGE_SIZE) PAGE_SIZE = true.
Proof.
  intros Hp Hlt. unfold PAGE_SIZE. destruct (Z.le_ge_cases a 4096).
  - rewrite Z.max_r by lia. done.
  - rewrite Z.max_l by lia. split; [done|]. unfold is_power_of_two in Hp.
    apply andb_true_iff in Hp as [Hp0 Hp]. apply Z.ltb_lt in Hp0. apply Z.eqb_eq in Hp.
    unfold is_multiple_of. cbn [Z.eqb]. apply Z.eqb_eq.
    change 4096 with (2 ^ 12). rewrite <- Z.land_ones by lia.
    apply Z.bits_inj'. intros i Hi. rewrite Z.land_spec, Z.testbit_0_l.
    destruct (Z.lt_ge_cases i 12) as [Hi12|Hi12].
    2: { rewrite Z.ones_spec_high by lia. apply andb_false_r. }
    rewrite Z.ones_spec_low by lia. rewrite andb_true_r.
    destruct (Z.testbit a i) eqn:Ea; [|done]. exfalso.
    (* the highest bit of [a] is above [i], so [a - 1] keeps it and meets [a] *)
    assert (12 <= Z.log2 a) as Hlog by (apply Z.log2_le_pow2; lia).
    assert (Z.testbit (a - 1) (Z.log2 a) = true) as Hb.
    { assert (a <> 2 ^ Z.log2 a) as Hne.
      { intros He. rewrite He in Ea. rewrite Z.pow2_bits_false in Ea by lia. done. }
      pose proof (Z.log2_spec a ltac:(lia)) as [Hl1 Hl2].
      assert (Z.log2 (a - 1) = Z.log2 a) as <- by (apply Z.log2_unique; lia).
      apply Z.bit_log2. lia. }
    apply (f_equal (fun z => Z.testbit z (Z.log2 a))) in Hp.
    rewrite Z.land_spec, Hb, Z.bit_log2, Z.testbit_0_l in Hp by lia. done.
Qed.

(** What a successful [dma_new] promises. *)
Record dma_fresh pm pm' m' (len alignment : Z) (b : DmaBuffer) : Prop := {
  df_aligned : dma_physical_address b mod Z.max alignment PAGE_SIZE = 0;
  df_len : len <= dma_len b < len + PAGE_SIZE;
  df_zero : forall a, dma_physical_address b <= a < dma_physical_address b + dma_len b -> m' a = 0;
  df_pages : forall i, dma_physical_address b / PAGE_SIZE <= i < dma_physical_address b / PAGE_SIZE + dma_pages b ->
    free pm i = true /\ free pm' i = false;
  df_virtual : dma_virtual_address b = dma_physical_address b + off;
  df_start : exists s, dma_physical_address b = s * PAGE_SIZE /\ 0 <= s /\ 0 < dma_pages b /\ s + dma_pages b <= pm_len pm;
  df_frame : same_but pm pm' (fun i => dma_physical_address b / PAGE_SIZE <= i < dma_physical_address b / PAGE_SIZE + dma_pages b);
}.

Lemma dma_new_spec pm m len alignment :
  pm_wf pm -> free pm 0 = false -> 0 < off -> off + pm_len pm * PAGE_SIZE <= 2 ^ 64 -> 0 < len < 2 ^ 64 -> alignment < 2 ^ 64 ->
  exists pm' m' r, dma_new off pm m len alignment = Done (pm', m', r) /\
  match r with
  | Ok b => dma_fresh pm pm' m' len alignment b /\
      exists pm'', dma_drop pm' b = Done (pm'', []) /\ same_but pm pm'' (fun _ => False)
  | Err _ => pm' = pm /\ m' = m
  end.
Proof.
  intros Hwf Hz Hoff Hoff2 Hlen Hal. unfold dma_new. rewrite (proj2 (Z.eqb_neq len 0)) by lia.
  destruct (is_power_of_two alignment) eqn:Ep; cbn [negb].
  2: { by exists pm, m, (Err InvalidAlignment). }
  destruct (max_power_of_two alignment Ep Hal) as [Hp Hm].
  unfold checked_add. destruct (Z.ltb_spec (len + (PAGE_SIZE - 1)) (2 ^ 64)) as [Hs|Hs].
  2: { by exists pm, m, (Err OutOfMemory). }
  set (pages := (len + (PAGE_SIZE - 1)) / PAGE_SIZE).
  pose proof (Z.div_mod (len + (PAGE_SIZE - 1)) PAGE_SIZE ltac:(unfold PAGE_SIZE; lia)) as Hdm.
  pose proof (Z.mod_pos_bound (len + (PAGE_SIZE - 1)) PAGE_SIZE ltac:(unfold PAGE_SIZE; lia)) as Hmb.
  fold pages in Hdm.
  assert (0 < pages) as Hpages by (unfold PAGE_SIZE in *; nia).
  destruct (find_aligned_reserved pm pages (Z.max alignment PAGE_SIZE) Hwf Hz Hpages Hp ltac:(lia) Hm)
    as (pm' & r & -> & Hr). cbn [mbind outcome_bind].
  destruct r as [a|]; [|destruct Hr as [-> _]; by exists pm, m, (Err OutOfMemory)].
  destruct Hr as (s & -> & (Hs0 & Hrun & Hmul) & _ & Htaken & Hsame).
  assert (s + pages <= pm_len pm) as Hrange.
  { assert (free pm (s + pages - 1) = true) as Hlast by (apply Hrun; lia).
    apply free_range in Hlast; lia. }
  unfold pm_wf in Hwf. unfold phys_to_virt, add_ovf, mul_ovf.
  rewrite (proj2 (Z.ltb_lt (s * PAGE_SIZE + off) _)) by (unfold PAGE_SIZE in *; lia). cbn [mbind outcome_bind].
  rewrite (proj2 (Z.eqb_neq _ 0)) by (unfold PAGE_SIZE in *; lia). cbn [negb].
  rewrite (proj2 (Z.ltb_lt (pages * PAGE_SIZE) _)) by (unfold PAGE_SIZE in *; lia). cbn [mbind outcome_bind].
  eexists _, _, _. split; [reflexivity|]. split.
  - split; cbn [dma_physical_address dma_virtual_address dma_pages]; unfold dma_len; cbn [dma_pages].
    + unfold is_multiple_of in Hmul, Hm. unfold PAGE_SIZE in *.
      assert (Z.max alignment 4096 / 4096 <> 0) as Hd by (intros Hd; apply Z.div_small_iff in Hd; lia).
      rewrite (proj2 (Z.eqb_neq _ 0) Hd) in Hmul. apply Z.eqb_eq in Hmul, Hm.
      apply Z.div_exact in Hm; [|lia]. apply Z.div_exact in Hmul; [|done].
      rewrite Hm, Hmul. replace (_ * _ * 4096) with
        (s / (Z.max alignment 4096 / 4096) * (4096 * (Z.max alignment 4096 / 4096))) by lia.
      apply Z.mod_mul. lia.
    + unfold PAGE_SIZE in *. lia.
    + intros a Ha. unfold write_bytes. by rewrite bool_decide_true.
    + unfold PAGE_SIZE in *. rewrite Z.div_mul by lia. intros i Hi. split; [by apply Hrun|by apply Htaken].
    + done.
    + by exists s.
    + unfold PAGE_SIZE in *. rewrite Z.div_mul by lia. exact Hsame.
  - unfold dma_drop. cbn [dma_physical_address dma_pages].
    destruct Hsame as [Hl1 Hr1 Hf1].
    destruct (dealloc_continuous_spec pm' s pages) as (pm'' & ws & -> & Hfree & [Hl2 Hr2 Hf2] & ->);
      [unfold pm_wf; lia|lia|lia|lia|].
    exists pm''. split.
    + do 2 f_equal. apply elem_of_nil_inv. intros p. rewrite list_elem_of_filter. intros [Hf Hp'%elem_of_seqZ].
      rewrite Htaken in Hf; [done|lia].
    + split; [lia|congruence|]. intros i Hi _. destruct (decide (s <= i < s + pages)) as [Hin|Hin].
      * rewrite Hfree, Hrun; done.
      * rewrite Hf2, Hf1; done.
Qed.
End BufferLemmas.

(** A range below 2^64 in the direct map is mapped without a panic. *)
Lemma mmio_map_returns {M : Type} `{Mapper M} (off : Z) (m : M) (pa len : Z) :
  0 < pa -> 0 < len -> 0 <= off -> off + pa + len <= 2 ^ 64 -> exists m' r, mmio_map off m pa len = Done (m', r).
Proof.
  intros Hpa Hlen Hoff Hend. unfold mmio_map. pose proof (page_range_spec pa len ltac:(lia) ltac:(lia)) as Hr.
  destruct (page_range_new pa len) as [rg|e]; [|by eexists _, _]. destruct Hr as (Hb & Hbp & _ & Hrend & _ & Hn).
  enough (forall l m, Forall (fun i => 0 <= i < rg_pages rg) l -> exists m' r, map_pages off m (rg_base rg) l = Done (m', r)) as Hl.
  { destruct (Hl (seqZ 0 (rg_pages rg)) m) as (m' & r & ->).
    { apply Forall_forall. intros i Hi%elem_of_seqZ. lia. }
    cbn [mbind outcome_bind]. destruct r as [[]|e]; [|by eexists _, _]. unfold phys_to_virt, add_ovf.
    rewrite (proj2 (Z.ltb_lt _ _)) by lia. cbn [mbind outcome_bind].
    rewrite (proj2 (Z.eqb_neq _ _)) by lia. by eexists _, _. }
  intros l. induction l as [|i l IH]; intros m0 Hl; cbn [map_pages]; [by eexists _, _|].
  apply Forall_cons in Hl as [Hi Hl].
  enough (exists m' r, map_page off m0 (rg_base rg) i = Done (m', r)) as (m' & r & ->).
  { cbn [mbind outcome_bind]. destruct r as [[]|e]; [by apply IH|by eexists _, _]. }
  unfold map_page, phys_to_virt, add_ovf, PAGE_SIZE in *. rewrite (proj2 (Z.ltb_lt _ _)) by lia. cbn [mbind outcome_bind].
  rewrite (proj2 (Z.ltb_lt _ _)) by lia. cbn [mbind outcome_bind].
  destruct (update_flags_4k _ _) as [m1 [[]|[]]]; [by eexists _, _| |].
  - destruct (map_to _ _ _) as [m2 r2]. by eexists _, _.
  - destruct (update_flags_2m _ _) as [m2 r2]. by eexists _, _.
Qed.

(** A mapping covers the range it was made for. *)
Lemma mmio_map_extent {M : Type} `{Mapper M} (off : Z) (m m' : M) (pa len : Z) (r : MmioMapping) :
  mmio_map off m pa len = Done (m', Ok r) -> mm_virtual_address r = off + pa /\ mm_len r = len.
Proof.
  unfold mmio_map. destruct (page_range_new pa len) as [rg|]; [|done].
  destruct (map_pages off m _ _) as [[m1 [[]|]]| |]; try done. cbn [mbind outcome_bind].
  unfold phys_to_virt, add_ovf. destruct (pa + off <? 2 ^ 64); [|done]. cbn [mbind outcome_bind].
  destruct (negb _); [|done]. intros [= <- <-]. cbn. lia.
Qed.

(** What the mapper promises: a successful flag update or mapping leaves the
    pages it covers uncached, and no later operation of this kind undoes it. *)
Class UncachedMapper (M : Type) `{Mapper M} (uncached : M -> Z -> Prop) := {
  um_4k : forall m p m', update_flags_4k m p = (m', Ok tt) -> uncached m' p;
  um_2m : forall m va m', update_flags_2m m (huge_page_of va) = (m', Ok tt) -> uncached m' (page_of va);
  um_map : forall m p f m', map_to m p f = (m', Ok tt) -> uncached m' p;
  um_keep_4k : forall m p q, uncached m q -> uncached (update_flags_4k m p).1 q;
  um_keep_2m : forall m p q, uncached m q -> uncached (update_flags_2m m p).1 q;
  um_keep_map : forall m p f q, uncached m q -> uncached (map_to m p f).1 q;
}.

Section MappingLemmas.
Context {M : Type} (uncached : M -> Z -> Prop) `{UncachedMapper M uncached} (off : Z).

Lemma map_page_uncached m base i m' r :
  map_page off m base i = Done (m', r) ->
  (forall q, uncached m q -> uncached m' q) /\
  (r = Ok tt -> uncached m' (page_of (base + i * PAGE_SIZE + off))).
Proof.
  unfold map_page, phys_to_virt, add_ovf.
  destruct (base + i * PAGE_SIZE <? 2 ^ 64); [|done]. cbn [mbind outcome_bind].
  destruct (base + i * PAGE_SIZE + off <? 2 ^ 64); [|done]. cbn [mbind outcome_bind].
  pose proof (um_keep_4k m (page_of (base + i * PAGE_SIZE + off))) as Hk1.
  pose proof (um_4k m (page_of (base + i * PAGE_SIZE + off))) as H4.
  destruct (update_flags_4k m _) as [m1 [[]|[]]]; cbn [fst] in Hk1.
  - intros [= <- <-]. split; [done|]. intros _. by apply H4.
  - pose proof (um_keep_map m1 (page_of (base + i * PAGE_SIZE + off)) (page_of (base + i * PAGE_SIZE))) as Hk2.
    pose proof (um_map m1 (page_of (base + i * PAGE_SIZE + off)) (page_of (base + i * PAGE_SIZE))) as Hm.
    destruct (map_to m1 _ _) as [m2 r2]. intros [= <- <-]. cbn [fst] in Hk2.
    split; [auto|]. destruct r2 as [[]|]; [|done]. intros _. by apply Hm.
  - pose proof (um_keep_2m m1 (huge_page_of (base + i * PAGE_SIZE + off))) as Hk2.
    pose proof (um_2m m1 (base + i * PAGE_SIZE + off)) as Hm.
    destruct (update_flags_2m m1 _) as [m2 r2]. intros [= <- <-]. cbn [fst] in Hk2.
    split; [auto|]. destruct r2 as [[]|]; [|done]. intros _. by apply Hm.
Qed.

Lemma map_pages_uncached base : forall is_ m m',
  map_pages off m base is_ = Done (m', Ok tt) ->
  (forall q, uncached m q -> uncached m' q) /\
  (forall i, i ∈ is_ -> uncached m' (page_of (base + i * PAGE_SIZE + off))).
Proof.
  induction is_ as [|i is_ IH]; intros m m'; cbn [map_pages].
  - intros [= <-]. split; [done|]. by intros i ?%elem_of_nil.
  - destruct (map_page off m base i) as [[m1 [[]|e]]| |] eqn:E; try done. cbn [mbind outcome_bind].
    apply map_page_uncached in E as [Hk Hu]. intros Hr. apply IH in Hr as [Hk' Hu'].
    split; [auto|]. intros j [->|Hj]%elem_of_cons; [by apply Hk', Hu|by apply Hu'].
Qed.
End MappingLemmas.

(** ** Properties *)

(** [MmioMapping::map] makes the whole device range uncached: when it
    succeeds, the page of every byte of [pa, pa + len) is uncached in the final
    page table, the mapping starts at the page of [pa], its last page is the
    page of the last byte, and the virtual address is the direct-map address. *)
Theorem mmio_map_uncached {M : Type} (uncached : M -> Z -> Prop) `{UncachedMapper M uncached}
    (off : Z) (m m' : M) (pa len : Z) (r : MmioMapping) :
  0 <= pa < 2 ^ 64 -> 0 < len < 2 ^ 64 -> off mod 4096 = 0 ->
  mmio_map off m pa len = Done (m', Ok r) ->
  mm_virtual_address r = pa + off /\
  mm_page_base r = page_of pa /\ mm_page_base r + (mm_pages r - 1) * 4096 = page_of (pa + len - 1) /\
  forall a, pa <= a < pa + len -> uncached m' (page_of (a + off)).
Proof.
  intros Hpa Hlen Hoff. unfold mmio_map.
  pose proof (page_range_spec pa len Hpa Hlen) as Hrange.
  destruct (page_range_new pa len) as [rg|]; [|done].
  destruct Hrange as (Hb & Hbp & _ & Hend & _ & Hn).
  destruct (map_pages off m _ _) as [[m1 [[]|]]| |] eqn:Em; try done. cbn [mbind outcome_bind].
  destruct (phys_to_virt off pa) as [va| |] eqn:Ev; try done. cbn [mbind outcome_bind].
  unfold phys_to_virt, add_ovf in Ev. destruct (pa + off <? 2 ^ 64); [|done]. injection Ev as <-.
  destruct (negb _); [|done]. intros [= <- <-]. cbn [mm_virtual_address mm_page_base mm_pages].
  apply (map_pages_uncached uncached) in Em as [_ Hu].
  apply Z.div_exact in Hb; [|lia]. apply Z.div_exact in Hoff; [|lia]. unfold page_of, PAGE_SIZE in *.
  set (k := rg_base rg / 4096) in *. set (o := off / 4096) in *.
  assert (forall a, pa <= a < pa + len -> 0 <= a / 4096 - k < rg_pages rg) as Hidx.
  { intros a Ha. pose proof (Z.div_mod a 4096 ltac:(lia)). pose proof (Z.mod_pos_bound a 4096 ltac:(lia)). lia. }
  split; [done|]. split; [|split].
  - pose proof (Z.div_mod pa 4096 ltac:(lia)). pose proof (Z.mod_pos_bound pa 4096 ltac:(lia)). lia.
  - pose proof (Z.div_mod (pa + len - 1) 4096 ltac:(lia)). pose proof (Z.mod_pos_bound (pa + len - 1) 4096 ltac:(lia)). lia.
  - intros a Ha. specialize (Hidx a Ha). specialize (Hu (a / 4096 - k) ltac:(apply elem_of_seqZ; lia)).
    replace ((a + off) / 4096 * 4096) with ((rg_base rg + (a / 4096 - k) * 4096 + off) / 4096 * 4096); [done|].
    rewrite Hoff, Hb. replace (4096 * k + (a / 4096 - k) * 4096 + 4096 * o) with ((a / 4096 + o) * 4096) by lia.
    rewrite Z.div_mul by lia. replace (a + 4096 * o) with (o * 4096 + a) by lia.
    rewrite Z.div_add_l by lia. lia.
Qed.

(** A mapper that remembers the pages it made uncached; every page has a 4 KiB
    entry. *)
#[local] Instance list_mapper : Mapper (list Z) := {
  update_flags_4k m p := (p :: m, Ok tt);
  update_flags_2m m p := (m, Err PageNotMapped);
  map_to m p f := (p :: m, Ok tt);
}.
#[local] Instance list_mapper_ok : UncachedMapper (list Z) (fun m p => p ∈ m).
Proof. split; cbn; intros; simplify_eq; try left; try right; done. Qed.

Lemma mmio_map_uncached_witness :
  exists r m', mmio_map 0xffff800000000000 [] 0xfee00010 0x2000 = Done (m', Ok r) /\ mm_pages r = 3 /\
    forall a, 0xfee00010 <= a < 0xfee00010 + 0x2000 -> page_of (a + 0xffff800000000000) ∈ m'.
Proof.
  destruct (mmio_map 0xffff800000000000 [] 0xfee00010 0x2000) as [[m' [r|]]| |] eqn:E;
    try (vm_compute in E; discriminate).
  exists r, m'. split; [reflexivity|]. split; [vm_compute in E; by injection E as <- <-|].
  exact (proj2 (proj2 (proj2 (mmio_map_uncached (fun m p => p ∈ m) 0xffff800000000000 [] m' 0xfee00010 0x2000 r
    ltac:(lia) ltac:(lia) eq_refl E)))).
Defined.

(** A DMA buffer is what hardware needs and gives back what it took:
    [DmaBuffer::new] never panics; on success the physical range was free and no
    longer is, is aligned to the larger of the requested alignment and the page
    size, is at least [len] bytes and less than a page more, is zeroed, and its
    virtual address is the direct-map address; dropping it frees exactly its
    pages without a double-free warning, so the allocator is as before; and a
    failed request changes nothing. *)
Theorem dma_buffer_round_trip `{BitField} (off : Z) (pm : PageMan) (m : memory) (len alignment : Z) :
  pm_wf pm -> free pm 0 = false -> 0 < off -> off + pm_len pm * PAGE_SIZE <= 2 ^ 64 -> 0 < len < 2 ^ 64 -> alignment < 2 ^ 64 ->
  exists pm' m' r, dma_new off pm m len alignment = Done (pm', m', r) /\
  match r with
  | Ok b => dma_fresh off pm pm' m' len alignment b /\
      exists pm'', dma_drop pm' b = Done (pm'', []) /\ same_but pm pm'' (fun _ => False)
  | Err _ => pm' = pm /\ m' = m
  end.
Proof. apply dma_new_spec. Qed.

Lemma dma_buffer_round_trip_witness :
  exists pm' m' b, dma_new (H := z_bit_field) 0xffff800000000000 small_pm (fun _ => 7) 5000 8192 = Done (pm', m', Ok b) /\
    dma_physical_address b = 0x4000 /\ dma_pages b = 2 /\ m' 0x4100 = 0 /\
    dma_fresh (H := z_bit_field) 0xffff800000000000 small_pm pm' m' 5000 8192 b.
Proof.
  destruct (dma_buffer_round_trip (H := z_bit_field) 0xffff800000000000 small_pm (fun _ => 7) 5000 8192)
    as (pm' & m' & r & E & Hr); [vm_compute; congruence|reflexivity|lia|vm_compute; congruence|lia|lia|].
  destruct r as [b|].
  - exists pm', m', b. split; [exact E|]. destruct Hr as [Hf _].
    assert (b = mk_DmaBuffer 0x4000 0xffff800000004000 2 8192) as Hb.
    { pose proof (f_equal (fun o => match o with Done (_, _, Ok b) => Some b | _ => None end) E) as E'.
      vm_compute in E'. by injection E' as ->. }
    split; [by rewrite Hb|]. split; [by rewrite Hb|]. split; [|exact Hf].
    apply (df_zero _ _ _ _ _ _ _ Hf). rewrite Hb. vm_compute. split; congruence.
  - exfalso. pose proof (f_equal (fun o => match o with Done (_, _, Ok b) => true | _ => false end) E) as E'.
    vm_compute in E'. discriminate.
Defined.
