(* ===== verification/Machine.v ===== *)
(** * The machine a driver sees

    Device registers behind memory-mapped addresses, and DMA memory: the buffers
    of [mm/dma.rs] and the volatile accesses of the drivers to their bytes.  The
    hardware is a parameter: every access may change it in any way, and memory
    shared with it may change between two accesses.  An access to DMA memory that
    lies outside every live buffer is undefined behaviour in the drivers' [unsafe]
    code and a panic of the model, so a proof that a driver does not panic is
    also a proof that its accesses stay inside its buffers. *)

From S2P Require Import Prelude Words Bitmap PageAlloc Dma.

Class Machine (D : Type) := {
  (* [mmio_read d address width]: the value and the machine after the access *)
  mmio_read : D -> Z -> Z -> D * Z;
  mmio_write : D -> Z -> Z -> Z -> D;
  (* volatile loads and stores of bytes, by virtual address *)
  dma_load : D -> Z -> Z -> outcome (D * list Z);
  dma_store : D -> Z -> list Z -> outcome D;
  (* [DmaBuffer::new] and [Drop] *)
  dma_alloc : D -> Z -> Z -> outcome (D * result DmaBuffer DmaError);
  dma_free : D -> DmaBuffer -> outcome D;
}.

#[global] Instance DmaBuffer_eq_dec : EqDecision DmaBuffer.
Proof. solve_decision. Defined.

(** [n] bytes at [a] lie inside the buffer. *)
Definition in_buffer (b : DmaBuffer) (a n : Z) : Prop :=
  dma_virtual_address b <= a /\ a + n <= dma_virtual_address b + dma_len b.
#[global] Instance in_buffer_dec b a n : Decision (in_buffer b a n).
Proof. unfold in_buffer. apply _. Defined.

(** What the drivers rely on.  Some addresses are device registers, and the law for
    register accesses is about those only: a read has its width, and memory is left to
    the hardware.  Nothing is said of an access anywhere else, so a proof that a driver
    keeps [machine_ok] is also a proof that its register accesses stay inside register
    windows.  Accesses inside live buffers return and leave the set of live buffers
    alone; a new buffer is large enough, and a live buffer can be released. *)
Class MachineLaws (D : Type) `{Machine D} := {
  machine_ok : D -> Prop;
  live : D -> list DmaBuffer;
  (* the [n] bytes at [a] are device registers *)
  registers : Z -> Z -> Prop;
  mmio_read_law d a n : machine_ok d -> 0 <= n -> registers a n ->
    machine_ok (mmio_read d a n).1 /\ live (mmio_read d a n).1 = live d /\ fits (8 * n) (mmio_read d a n).2;
  mmio_write_law d a n v : machine_ok d -> registers a n -> machine_ok (mmio_write d a n v) /\ live (mmio_write d a n v) = live d;
  dma_load_law d a n b : machine_ok d -> b ∈ live d -> in_buffer b a n -> 0 <= n ->
    exists d' bs, dma_load d a n = Done (d', bs) /\ machine_ok d' /\ live d' = live d /\ llen bs = n /\ bytes bs;
  dma_store_law d a bs b : machine_ok d -> b ∈ live d -> in_buffer b a (llen bs) ->
    exists d', dma_store d a bs = Done d' /\ machine_ok d' /\ live d' = live d;
  dma_alloc_law d len alignment : machine_ok d -> 0 < len < 2 ^ 64 -> alignment < 2 ^ 64 ->
    exists d' r, dma_alloc d len alignment = Done (d', r) /\ machine_ok d' /\
      match r with
      | Ok b => live d' = b :: live d /\ len <= dma_len b
      | Err _ => live d' = live d
      end;
  dma_free_law d b : machine_ok d -> b ∈ live d ->
    exists d', dma_free d b = Done d' /\ machine_ok d' /\ live d ≡ₚ b :: live d';
}.

(** All of the [len] bytes at [a] are registers. *)
Definition window {D} `{MachineLaws D} (a len : Z) : Prop :=
  forall k n, 0 <= k -> 0 <= n -> k + n <= len -> registers (a + k) n.

(** ** Programs over a state that contains a machine *)

Class HasMachine (S D : Type) := { machine : S -> D; set_machine : D -> S -> S }.
Class HasMachineLaws (S D : Type) `{HasMachine S D} := {
  machine_set d s : machine (set_machine d s) = d;
  set_machine_set d d' s : set_machine d (set_machine d' s) = set_machine d s;
  set_machine_machine s : set_machine (machine s) s = s;
}.

Section Access.
Context {D St E : Type} `{Machine D} `{HasMachine St D}.

(** @ xhci/regs.rs:7-9 RegisterBlock *)
Record RegisterBlock := mk_RegisterBlock { base : Z }.

(** @ xhci/regs.rs:22-24 RegisterBlock::read16 *)
Definition read16 (r : RegisterBlock) (offset : Z) : prog St E Z :=
  fun s => let '(d, v) := mmio_read (machine s) (base r + offset) 2 in Done (set_machine d s, Ok v).
(** @ xhci/regs.rs:26-28 RegisterBlock::read32 *)
Definition read32 (r : RegisterBlock) (offset : Z) : prog St E Z :=
  fun s => let '(d, v) := mmio_read (machine s) (base r + offset) 4 in Done (set_machine d s, Ok v).
(** @ xhci/regs.rs:30-32 RegisterBlock::write32 *)
Definition write32 (r : RegisterBlock) (offset value : Z) : prog St E unit :=
  fun s => Done (set_machine (mmio_write (machine s) (base r + offset) 4 value) s, Ok tt).
(** @ xhci/regs.rs:34-36 RegisterBlock::read64 *)
Definition read64 (r : RegisterBlock) (offset : Z) : prog St E Z :=
  fun s => let '(d, v) := mmio_read (machine s) (base r + offset) 8 in Done (set_machine d s, Ok v).
(** @ xhci/regs.rs:38-40 RegisterBlock::write64 *)
Definition write64 (r : RegisterBlock) (offset value : Z) : prog St E unit :=
  fun s => Done (set_machine (mmio_write (machine s) (base r + offset) 8 value) s, Ok tt).

(** [DmaBuffer::as_ptr]. *)
(** @ mm/dma.rs:118-120 DmaBuffer::as_ptr *)
Definition as_ptr (b : DmaBuffer) : Z := dma_virtual_address b.

(** [read_volatile], [copy_nonoverlapping] and [from_raw_parts] of bytes. *)
Definition load_bytes (a n : Z) : prog St E (list Z) :=
  fun s => '(d, bs) ← dma_load (machine s) a n; Done (set_machine d s, Ok bs).
Definition store_bytes (a : Z) (bs : list Z) : prog St E unit :=
  fun s => d ← dma_store (machine s) a bs; Done (set_machine d s, Ok tt).
(** Little-endian words. *)
Definition load32 (a : Z) : prog St E Z := bs ←! load_bytes a 4; p_ret (from_le bs).
Definition load64 (a : Z) : prog St E Z := bs ←! load_bytes a 8; p_ret (from_le bs).
Definition store32 (a v : Z) : prog St E unit := store_bytes a (to_le 4 v).
Definition store64 (a v : Z) : prog St E unit := store_bytes a (to_le 8 v).

(** [DmaBuffer::new(len, alignment).map_err(|_| error)?]. *)
Definition dma_buffer (len alignment : Z) (error : E) : prog St E DmaBuffer :=
  fun s => '(d, r) ← dma_alloc (machine s) len alignment; Done (set_machine d s, map_err (fun _ => error) r).
(** The end of a buffer's scope. *)
Definition drop_buffer (b : DmaBuffer) : prog St E unit :=
  fun s => d ← dma_free (machine s) b; Done (set_machine d s, Ok tt).
Definition drop_buffers (bs : list DmaBuffer) : prog St E unit := p_each bs drop_buffer.
End Access.

(** ** How the accesses act *)

Section Specs.
Context {D St E : Type} `{MachineLaws D} `{HasMachineLaws St D}.
Implicit Types (s : St) (d : D).

(** The machine of the next state after an access that allocates nothing. *)
Definition touched (d d' : D) : Prop := machine_ok d' /\ live d' = live d.

Lemma wp_read16 r off s (Q : St -> result Z E -> Prop) :
  machine_ok (machine s) -> registers (base r + off) 2 ->
  (forall d v, touched (machine s) d -> fits 16 v -> Q (set_machine d s) (Ok v)) -> wp (read16 r off) s Q.
Proof.
  intros Hm Hr HQ. destruct (mmio_read_law (machine s) (base r + off) 2 Hm ltac:(lia) Hr) as (H3 & H4 & H5).
  unfold wp, read16. destruct (mmio_read _ _ _) as [d v]. eexists _, _. split; [reflexivity|]. by apply HQ.
Qed.

Lemma wp_read32 r off s (Q : St -> result Z E -> Prop) :
  machine_ok (machine s) -> registers (base r + off) 4 ->
  (forall d v, touched (machine s) d -> fits 32 v -> Q (set_machine d s) (Ok v)) -> wp (read32 r off) s Q.
Proof.
  intros Hm Hr HQ. destruct (mmio_read_law (machine s) (base r + off) 4 Hm ltac:(lia) Hr) as (H3 & H4 & H5).
  unfold wp, read32. destruct (mmio_read _ _ _) as [d v]. eexists _, _. split; [reflexivity|]. by apply HQ.
Qed.

Lemma wp_write32 r off v s (Q : St -> result unit E -> Prop) :
  machine_ok (machine s) -> registers (base r + off) 4 ->
  (forall d, touched (machine s) d -> Q (set_machine d s) (Ok tt)) -> wp (write32 r off v) s Q.
Proof. intros Hm Hr HQ. eexists _, _. split; [reflexivity|]. apply HQ. by apply mmio_write_law. Qed.

Lemma wp_write64 r off v s (Q : St -> result unit E -> Prop) :
  machine_ok (machine s) -> registers (base r + off) 8 ->
  (forall d, touched (machine s) d -> Q (set_machine d s) (Ok tt)) -> wp (write64 r off v) s Q.
Proof. intros Hm Hr HQ. eexists _, _. split; [reflexivity|]. apply HQ. by apply mmio_write_law. Qed.

Lemma wp_load_bytes b a n s (Q : St -> result (list Z) E -> Prop) :
  machine_ok (machine s) -> b ∈ live (machine s) -> in_buffer b a n -> 0 <= n ->
  (forall d bs, touched (machine s) d -> llen bs = n -> bytes bs -> Q (set_machine d s) (Ok bs)) ->
  wp (load_bytes a n) s Q.
Proof.
  intros Hm Hb Hin Hn HQ. destruct (dma_load_law (machine s) a n b Hm Hb Hin Hn) as (d & bs & Hl & ? & ? & ? & ?).
  unfold wp, load_bytes. rewrite Hl. eexists _, _. split; [reflexivity|]. by apply HQ.
Qed.

Lemma wp_store_bytes b a bs s (Q : St -> result unit E -> Prop) :
  machine_ok (machine s) -> b ∈ live (machine s) -> in_buffer b a (llen bs) ->
  (forall d, touched (machine s) d -> Q (set_machine d s) (Ok tt)) ->
  wp (store_bytes a bs) s Q.
Proof.
  intros Hm Hb Hin HQ. destruct (dma_store_law (machine s) a bs b Hm Hb Hin) as (d & Hl & ? & ?).
  unfold wp, store_bytes. rewrite Hl. eexists _, _. split; [reflexivity|]. by apply HQ.
Qed.

Lemma from_le_fits bs n : llen bs = n -> bytes bs -> fits (8 * n) (from_le bs).
Proof.
  intros <- Hb. pose proof (from_le_bound bs Hb) as Hf. unfold fits.
  rewrite Z.pow_mul_r by (unfold llen; lia). exact Hf.
Qed.

Lemma wp_load32 b a s (Q : St -> result Z E -> Prop) :
  machine_ok (machine s) -> b ∈ live (machine s) -> in_buffer b a 4 ->
  (forall d v, touched (machine s) d -> fits 32 v -> Q (set_machine d s) (Ok v)) ->
  wp (load32 a) s Q.
Proof.
  intros Hm Hb Hin HQ. apply wp_bind. eapply wp_load_bytes; [done..|lia|].
  intros d bs Ht Hl Hbs. apply wp_ret, HQ; [done|]. by apply (from_le_fits bs 4).
Qed.

Lemma wp_load64 b a s (Q : St -> result Z E -> Prop) :
  machine_ok (machine s) -> b ∈ live (machine s) -> in_buffer b a 8 ->
  (forall d v, touched (machine s) d -> fits 64 v -> Q (set_machine d s) (Ok v)) ->
  wp (load64 a) s Q.
Proof.
  intros Hm Hb Hin HQ. apply wp_bind. eapply wp_load_bytes; [done..|lia|].
  intros d bs Ht Hl Hbs. apply wp_ret, HQ; [done|]. by apply (from_le_fits bs 8).
Qed.

Lemma wp_store32 b a v s (Q : St -> result unit E -> Prop) :
  machine_ok (machine s) -> b ∈ live (machine s) -> in_buffer b a 4 ->
  (forall d, touched (machine s) d -> Q (set_machine d s) (Ok tt)) -> wp (store32 a v) s Q.
Proof. intros. apply (wp_store_bytes b); [done..| |done]. unfold llen. by rewrite length_to_le. Qed.

Lemma wp_store64 b a v s (Q : St -> result unit E -> Prop) :
  machine_ok (machine s) -> b ∈ live (machine s) -> in_buffer b a 8 ->
  (forall d, touched (machine s) d -> Q (set_machine d s) (Ok tt)) -> wp (store64 a v) s Q.
Proof. intros. apply (wp_store_bytes b); [done..| |done]. unfold llen. by rewrite length_to_le. Qed.

Lemma wp_dma_buffer len al e s (Q : St -> result DmaBuffer E -> Prop) :
  machine_ok (machine s) -> 0 < len < 2 ^ 64 -> al < 2 ^ 64 ->
  (forall d b, machine_ok d -> live d = b :: live (machine s) -> len <= dma_len b -> Q (set_machine d s) (Ok b)) ->
  (forall d, touched (machine s) d -> Q (set_machine d s) (Err e)) ->
  wp (dma_buffer len al e) s Q.
Proof.
  intros Hm Hl Hal HQ1 HQ2. destruct (dma_alloc_law (machine s) len al Hm Hl Hal) as (d & r & Ha & Hm' & Hr).
  unfold wp, dma_buffer. rewrite Ha. eexists _, _. split; [reflexivity|].
  destruct r as [b|x]; cbn [map_err]; [destruct Hr; by apply HQ1|by apply HQ2].
Qed.

Lemma wp_drop_buffer b s (Q : St -> result unit E -> Prop) :
  machine_ok (machine s) -> b ∈ live (machine s) ->
  (forall d, machine_ok d -> live (machine s) ≡ₚ b :: live d -> Q (set_machine d s) (Ok tt)) ->
  wp (drop_buffer b) s Q.
Proof.
  intros Hm Hb HQ. destruct (dma_free_law (machine s) b Hm Hb) as (d & Hf & ? & ?).
  unfold wp, drop_buffer. rewrite Hf. eexists _, _. split; [reflexivity|]. by apply HQ.
Qed.

Lemma wp_drop_buffers bs L s (Q : St -> result unit E -> Prop) :
  machine_ok (machine s) -> live (machine s) ≡ₚ bs ++ L ->
  (forall d, machine_ok d -> live d ≡ₚ L -> Q (set_machine d s) (Ok tt)) ->
  wp (drop_buffers bs) s Q.
Proof.
  intros Hm Hl HQ. unfold drop_buffers.
  eapply (wp_each _ _ (fun bs' s' => exists d, s' = set_machine d s /\ machine_ok d /\ live d ≡ₚ bs' ++ L)).
  - exists (machine s). by rewrite set_machine_machine.
  - intros b l s' (d & -> & Hd & Hb). apply wp_drop_buffer; rewrite ?machine_set; [done| |].
    + rewrite Hb. left.
    + intros d' Hd' Hl'. exists d'. rewrite set_machine_set. split_and!; [done..|].
      rewrite Hb in Hl'. cbn in Hl'. by apply Permutation_cons_inv in Hl'.
  - intros s' (d & -> & Hd & Hb). by apply HQ.
Qed.
End Specs.
