(* ===== verification/Board.v ===== *)
(** * A machine whose buffers come from [mm/dma.rs]

    An implementation of the interface of [Machine]: buffers are allocated and
    released with the page allocator of [mm/page_alloc.rs] through [mm/dma.rs],
    and the hardware is any program that answers accesses to its registers and writes
    to physical memory, wherever it likes, whenever it likes. *)

From S2P Require Import Prelude Words Bitmap PageAlloc Dma Machine.

Class Hardware (W : Type) := {
  (* the addresses the hardware decodes *)
  hw_registers : Z -> Z -> Prop;
  hw_read : W -> memory -> Z -> Z -> W * memory * Z;
  hw_write : W -> memory -> Z -> Z -> Z -> W * memory;
  hw_run : W -> memory -> W * memory;
}.

(** [off] is the offset of the direct map; the list of live buffers is the one the
    drivers could reconstruct from what they own. *)
Record Board (off : Z) (W : Type) := mk_Board {
  bo_pm : PageMan;
  bo_mem : memory;
  bo_live : list DmaBuffer;
  bo_hw : W;
}.
Arguments mk_Board {off W}.
Arguments bo_pm {off W}.
Arguments bo_mem {off W}.
Arguments bo_live {off W}.
Arguments bo_hw {off W}.

Fixpoint remove_first `{EqDecision A} (b : A) (l : list A) : list A :=
  match l with [] => [] | x :: l => if decide (x = b) then l else x :: remove_first b l end.
Lemma remove_first_perm `{EqDecision A} (b : A) l : b ∈ l -> l ≡ₚ b :: remove_first b l.
Proof.
  induction l as [|x l IH]; [by intros ?%elem_of_nil|]. cbn. destruct (decide (x = b)) as [->|Hne]; [done|].
  rewrite elem_of_cons. intros [->|Hin]; [done|]. rewrite (IH Hin) at 1. apply perm_swap.
Qed.

Definition in_live (l : list DmaBuffer) (a n : Z) : bool := existsb (fun b => bool_decide (in_buffer b a n)) l.
Lemma in_live_intro l b a n : b ∈ l -> in_buffer b a n -> in_live l a n = true.
Proof.
  intros Hb Hin. apply existsb_exists. exists b. split; [by apply list_elem_of_In|by apply bool_decide_eq_true_2].
Qed.

Section Board.
Context `{BitField} {off : Z} {W : Type} `{Hardware W}.
Abbreviation board := (Board off W).
Implicit Types (d : board) (pm : PageMan) (b : DmaBuffer).

Definition read_memory (m : memory) (a n : Z) : list Z := (fun i => wrap 8 (m i)) <$> seqZ a n.
Fixpoint write_memory (m : memory) (a : Z) (bs : list Z) : memory :=
  match bs with [] => m | x :: bs => write_memory (fun i => if i =? a then x else m i) (a + 1) bs end.
(** The hardware runs before the driver's next access to memory. *)
Definition run_hw d : board := let '(w, m) := hw_run (bo_hw d) (bo_mem d) in mk_Board (bo_pm d) m (bo_live d) w.

#[global] Instance board_machine : Machine board := {
  mmio_read d a n :=
    let '(w, m, v) := hw_read (bo_hw d) (bo_mem d) a n in (mk_Board (bo_pm d) m (bo_live d) w, wrap (8 * n) v);
  mmio_write d a n v :=
    let '(w, m) := hw_write (bo_hw d) (bo_mem d) a n v in mk_Board (bo_pm d) m (bo_live d) w;
  dma_load d a n :=
    let d := run_hw d in
    assert! in_live (bo_live d) a n; Done (d, read_memory (bo_mem d) (a - off) n);
  dma_store d a bs :=
    let d := run_hw d in
    assert! in_live (bo_live d) a (llen bs);
    Done (mk_Board (bo_pm d) (write_memory (bo_mem d) (a - off) bs) (bo_live d) (bo_hw d));
  dma_alloc d len alignment :=
    '(pm, m, r) ← dma_new off (bo_pm d) (bo_mem d) len alignment;
    Done (mk_Board pm m (match r with Ok b => b :: bo_live d | Err _ => bo_live d end) (bo_hw d), r);
  dma_free d b :=
    '(pm, _) ← dma_drop (bo_pm d) b; Done (mk_Board pm (bo_mem d) (remove_first b (bo_live d)) (bo_hw d));
}.

(** The pages of a buffer. *)
Definition buffer_pages b : list Z := seqZ (dma_physical_address b / PAGE_SIZE) (dma_pages b).
Definition live_pages (l : list DmaBuffer) : list Z := concat (map buffer_pages l).
(** A live buffer lies in managed memory, page-aligned and mapped at [off]. *)
Definition placed pm b : Prop :=
  exists s, dma_physical_address b = s * PAGE_SIZE /\ 0 < s /\ 0 < dma_pages b /\ s + dma_pages b <= pm_len pm /\
    dma_virtual_address b = dma_physical_address b + off.

Record board_ok d : Prop := {
  bk_wf : pm_wf (bo_pm d);
  bk_zero : free (bo_pm d) 0 = false;
  bk_off : 0 < off;
  bk_top : off + pm_len (bo_pm d) * PAGE_SIZE <= 2 ^ 64;
  bk_placed : Forall (placed (bo_pm d)) (bo_live d);
  bk_disjoint : NoDup (live_pages (bo_live d));
  bk_taken : Forall (fun p => free (bo_pm d) p = false) (live_pages (bo_live d));
}.

Lemma live_pages_perm l k : l ≡ₚ k -> live_pages l ≡ₚ live_pages k.
Proof.
  unfold live_pages. induction 1 as [|x l k _ IH|x y l|l k m _ IH1 _ IH2]; cbn; [done|by rewrite IH| |by etrans].
  rewrite !app_assoc. f_equiv. apply Permutation_app_comm.
Qed.
Lemma live_page_range pm l p : Forall (placed pm) l -> p ∈ live_pages l -> 0 <= p < pm_len pm.
Proof.
  intros Hl Hp. apply list_elem_of_In, in_concat in Hp as (k & Hk & Hp). apply in_map_iff in Hk as (b & <- & Hb).
  rewrite Forall_forall in Hl. destruct (Hl b) as (s & Hs & ? & ? & ? & _); [by apply list_elem_of_In|].
  apply list_elem_of_In, elem_of_seqZ in Hp. rewrite Hs in Hp. unfold PAGE_SIZE in *. rewrite Z.div_mul in Hp by lia. lia.
Qed.

Lemma board_ok_hw d m w : board_ok d -> board_ok (mk_Board (bo_pm d) m (bo_live d) w).
Proof. intros []. by split. Qed.
Lemma run_hw_ok d : board_ok d -> board_ok (run_hw d) /\ bo_live (run_hw d) = bo_live d.
Proof. intros Hd. unfold run_hw. destruct (hw_run _ _). split; [by apply board_ok_hw|done]. Qed.

Lemma board_alloc d len alignment :
  board_ok d -> 0 < len < 2 ^ 64 -> alignment < 2 ^ 64 ->
  exists d' r, dma_alloc d len alignment = Done (d', r) /\ board_ok d' /\
    match r with Ok b => bo_live d' = b :: bo_live d /\ len <= dma_len b | Err _ => bo_live d' = bo_live d end.
Proof.
  intros Hd Hl Ha. pose proof Hd as []. cbn [dma_alloc board_machine].
  destruct (dma_new_spec off (bo_pm d) (bo_mem d) len alignment) as (pm & m & r & -> & Hr); [done..|].
  cbn [mbind outcome_bind]. destruct r as [b|e].
  2: { destruct Hr as [-> ->]. eexists _, _. split; [reflexivity|]. split; [by apply board_ok_hw|done]. }
  destruct Hr as [Hf _]. eexists _, _. split; [reflexivity|]. split; [|split; [done|apply Hf]].
  destruct Hf as [_ Hlen _ Hp Hv (s & Hs & Hs0 & Hpos & Htop) [Hpl Hrefs Hfree]].
  assert (forall p, p ∈ buffer_pages b -> 0 <= p /\ free (bo_pm d) p = true /\ free pm p = false) as Hbp.
  { intros p [Hp1 Hp2]%elem_of_seqZ. split; [rewrite Hs in Hp1; unfold PAGE_SIZE in *; rewrite Z.div_mul in Hp1 by lia; lia|].
    by apply Hp. }
  rewrite Forall_forall in bk_taken0.
  split; cbn [bo_pm bo_live]; [unfold pm_wf; by rewrite Hpl| |done|by rewrite Hpl| | |].
  - rewrite Hfree; [done|lia|]. intros [? ?]. destruct (Hp 0) as [Hx _]; [lia|congruence].
  - assert (0 < s) as Hs1.
    { destruct (decide (s = 0)) as [->|]; [|lia]. destruct (Hp 0) as [Hx _]; [|congruence].
      rewrite Hs, Z.mul_0_l. rewrite Z.div_0_l by done; lia. }
    constructor; [exists s; by rewrite Hpl|]. eapply Forall_impl; [exact bk_placed0|]. intros x (s' & ?). exists s'. by rewrite Hpl.
  - cbn. apply NoDup_app. split; [apply NoDup_seqZ|]. split; [|done]. intros p Hp1 Hp2.
    specialize (bk_taken0 p Hp2). destruct (Hbp p Hp1) as (_ & ? & _). congruence.
  - cbn. apply Forall_app. split; [apply Forall_forall; intros p Hp1; by apply Hbp|]. apply Forall_forall. intros p Hp1.
    rewrite Hfree; [by apply bk_taken0|eapply live_page_range; [exact bk_placed0|done]|].
    intros Hx. destruct (Hp p Hx) as [Hy _]. rewrite (bk_taken0 p Hp1) in Hy. done.
Qed.

Lemma board_free d b :
  board_ok d -> b ∈ bo_live d ->
  exists d', dma_free d b = Done d' /\ board_ok d' /\ bo_live d ≡ₚ b :: bo_live d'.
Proof.
  intros Hd Hb. pose proof Hd as []. cbn [dma_free board_machine]. pose proof (remove_first_perm _ _ Hb) as Hperm.
  set (l := remove_first b (bo_live d)) in *.
  rewrite Hperm in bk_placed0. apply Forall_cons in bk_placed0 as [(s & Hs & Hs0 & Hpos & Htop & Hv) Hpl].
  rewrite (live_pages_perm _ _ Hperm) in bk_disjoint0, bk_taken0. cbn in bk_disjoint0, bk_taken0.
  apply NoDup_app in bk_disjoint0 as (_ & Hdis & Hnd). apply Forall_app in bk_taken0 as [_ Htk].
  unfold dma_drop. rewrite Hs.
  destruct (dealloc_continuous_spec (bo_pm d) s (dma_pages b)) as (pm & ws & -> & Hfree & [Hlen Hrefs Hsame] & _); [done|lia|done|done|].
  cbn [mbind outcome_bind]. eexists. split; [reflexivity|]. split; [|exact Hperm].
  assert (forall p, p ∈ live_pages l -> free pm p = free (bo_pm d) p) as Hkeep.
  { intros p Hp. apply Hsame; [eapply live_page_range; done|]. intros Hx. apply (Hdis p); [|done].
    apply elem_of_seqZ. rewrite Hs. unfold PAGE_SIZE in *. rewrite Z.div_mul by lia. lia. }
  split; cbn [bo_pm bo_live]; [unfold pm_wf; by rewrite Hlen| |done|by rewrite Hlen| |done|].
  - rewrite Hsame; [done|lia|lia].
  - eapply Forall_impl; [exact Hpl|]. intros x (s' & ?). exists s'. by rewrite Hlen.
  - rewrite Forall_forall in *. intros p Hp. rewrite Hkeep by done. by apply Htk.
Qed.

Lemma bytes_read_memory m a n : bytes (read_memory m a n).
Proof. apply Forall_fmap, Forall_forall. intros i _. apply (fits_wrap 8). lia. Qed.

#[global] Instance board_laws : MachineLaws board.
Proof.
  refine {| machine_ok := board_ok; live := bo_live; registers := hw_registers |}.
  - intros d a n Hd Hn _. cbn [mmio_read board_machine]. destruct (hw_read _ _ _ _) as [[w m] v]. cbn [fst snd].
    split; [by apply board_ok_hw|]. split; [done|]. apply fits_wrap. lia.
  - intros d a n v Hd _. cbn [mmio_write board_machine]. destruct (hw_write _ _ _ _ _) as [w m].
    split; [by apply board_ok_hw|done].
  - intros d a n b Hd Hb Hin Hn. cbn [dma_load board_machine]. destruct (run_hw_ok d Hd) as [Hd' Hl].
    rewrite Hl, (in_live_intro _ b) by done. eexists _, _. split; [reflexivity|]. split_and!; try done.
    + unfold llen, read_memory. rewrite length_fmap, length_seqZ. lia.
    + apply bytes_read_memory.
  - intros d a bs b Hd Hb Hin. cbn [dma_store board_machine]. destruct (run_hw_ok d Hd) as [Hd' Hl].
    rewrite Hl, (in_live_intro _ b) by done. eexists. split; [reflexivity|]. rewrite <- Hl. split; [|done].
    by apply board_ok_hw.
  - intros d len al Hd Hl Ha. by apply board_alloc.
  - intros d b Hd Hb. by apply board_free.
Defined.
End Board.

(** ** Reading back what was written *)

Section Memory.
Implicit Types (m : memory) (a n k i : Z) (bs : list Z).

Lemma write_memory_at m a bs i :
  write_memory m a bs i = if decide (a <= i < a + llen bs) then bs !!! Z.to_nat (i - a) else m i.
Proof.
  revert m a. induction bs as [|b bs IH]; intros m a; cbn [write_memory].
  { rewrite decide_False; [done|unfold llen; cbn; lia]. }
  rewrite IH. pose proof (llen_cons b bs). pose proof (llen_nonneg bs). repeat case_decide; try lia.
  - replace (Z.to_nat (i - a)) with (S (Z.to_nat (i - (a + 1)))) by lia. done.
  - rewrite (proj2 (Z.eqb_eq i a)) by lia. by replace (i - a) with 0 by lia.
  - by rewrite (proj2 (Z.eqb_neq i a)) by lia.
Qed.

Lemma read_memory_lookup m a n (i : nat) :
  read_memory m a n !! i = if decide (Z.of_nat i < n) then Some (wrap 8 (m (a + Z.of_nat i))) else None.
Proof.
  unfold read_memory. rewrite list_lookup_fmap. case_decide.
  - by rewrite lookup_seqZ_lt by lia.
  - by rewrite lookup_seqZ_ge by lia.
Qed.

Lemma read_memory_ext m m' a n : (forall i, a <= i < a + n -> m' i = m i) -> read_memory m' a n = read_memory m a n.
Proof.
  intros He. apply list_eq. intros i. rewrite !read_memory_lookup. case_decide; [|done].
  by rewrite He by lia.
Qed.

Lemma read_memory_len m a n : 0 <= n -> length (read_memory m a n) = Z.to_nat n.
Proof. intros. unfold read_memory. by rewrite length_fmap, length_seqZ. Qed.

(** A part of what was written. *)
Lemma read_write_part m a bs b n :
  bytes bs -> a <= b -> 0 <= n -> b + n <= a + llen bs ->
  read_memory (write_memory m a bs) b n = take (Z.to_nat n) (drop (Z.to_nat (b - a)) bs).
Proof.
  intros Hb Hk Hn Hl. apply list_eq. intros i. rewrite read_memory_lookup. case_decide.
  - rewrite lookup_take_lt, lookup_drop by lia. rewrite write_memory_at, decide_True by lia.
    assert (Z.to_nat (b - a) + i < length bs)%nat as Hi by (unfold llen in Hl; lia).
    destruct (lookup_lt_is_Some_2 bs _ Hi) as [x Hx]. rewrite Hx.
    replace (Z.to_nat (b + Z.of_nat i - a)) with (Z.to_nat (b - a) + i)%nat by lia.
    rewrite (list_lookup_total_correct _ _ _ Hx), wrap_small; [done|].
    apply (proj1 (Forall_lookup _ _) Hb _ _ Hx).
  - by rewrite lookup_take_ge by lia.
Qed.

Lemma read_write_all m a bs : bytes bs -> read_memory (write_memory m a bs) a (llen bs) = bs.
Proof.
  intros Hb. rewrite read_write_part by (first [done|unfold llen; lia]).
  rewrite Z.sub_diag. cbn. rewrite drop_0, take_ge; [done|unfold llen; lia].
Qed.

Lemma read_write_disjoint m a bs b n :
  b + n <= a \/ a + llen bs <= b -> read_memory (write_memory m a bs) b n = read_memory m b n.
Proof. intros Hd. apply read_memory_ext. intros i Hi. rewrite write_memory_at, decide_False by lia. done. Qed.
End Memory.

(** ** A scripted board *)

(** What the hardware does at each register access: the value a read gives, and
    the bytes it writes to memory. *)
Definition Script : Type := list (Z * list (Z * list Z)).
Definition play (w : Script) (m : memory) : Script * memory * Z :=
  match w with
  | [] => ([], m, 0)
  | (v, ws) :: w => (w, foldl (fun m '(a, bs) => write_memory m a bs) m ws, v)
  end.
(** The 64 pages of memory of the examples in the direct map are no registers. *)
Definition example_off : Z := 0xffff800000000000.
Definition outside_ram (a n : Z) : Prop := a + n <= example_off \/ example_off + 64 * 4096 <= a.
#[global] Instance script_hardware : Hardware Script := {
  hw_registers := outside_ram;
  hw_read w m _ _ := play w m;
  hw_write w m _ _ _ := (play w m).1;
  hw_run w m := (w, m);
}.

Definition page_buffer (page : Z) : DmaBuffer := mk_DmaBuffer (page * 4096) (page * 4096 + example_off) 1 4096.
(** 64 pages of memory, of which page 0 and the first [n] after it are taken. *)
Definition example_pm (n : Z) : PageMan := mk_PageMan [2 ^ 64 - 2 ^ (n + 1)] (replicate 64 0).
Definition example_board (m : memory) (w : Script) : Board example_off Script :=
  mk_Board (example_pm 4) m [page_buffer 1; page_buffer 2; page_buffer 3; page_buffer 4] w.

#[local] Existing Instance z_bit_field.
Lemma example_board_ok m w : board_ok (example_board m w).
Proof.
  split; try (vm_compute; congruence).
  - unfold example_board, bo_live. repeat constructor; [exists 1|exists 2|exists 3|exists 4]; vm_compute; repeat split; congruence.
  - apply (bool_decide_eq_true_1 _). vm_compute. reflexivity.
  - apply (bool_decide_eq_true_1 _). vm_compute. reflexivity.
Qed.
