(* ===== verification/PageTable.v ===== *)
(** * Page tables: copying and freeing an address space, [task/process.rs]

    Physical memory is a map from the address of a frame to its 512 words; a
    frame is read as a page table by the functions that walk it.  The entries of
    a table are [PageTableEntry] values of the [x86_64] crate, an interface with
    its documented laws. *)

From S2P Require Import Prelude Words Bitmap PageAlloc.

(** [PageTableFlags]. *)
Definition PRESENT : Z := 1.
Definition WRITABLE : Z := 2.
Definition USER_ACCESSIBLE : Z := 4.
Definition HUGE_PAGE : Z := 128.
(** [contains], [insert] and [remove] of a set of flags. *)
Definition has (flags f : Z) : bool := Z.land flags f =? f.
Definition insert_flag (flags f : Z) : Z := Z.lor flags f.
Definition remove_flag (flags f : Z) : Z := Z.ldiff flags f.

(** The bits of an entry that are flags: 0-11 and 52-63. *)
Definition FLAG_BITS : Z := 0xfff0000000000fff.
Definition frame_address (a : Z) : Prop := a mod 4096 = 0 /\ 0 <= a < 2 ^ 52.

(** [PageTableEntry]: [flags], [addr], and the entry that [set_addr] and
    [set_flags] write; an unused entry is 0. *)
Class PageTableEntry := {
  pte_flags : Z -> Z;
  pte_addr : Z -> Z;
  pte_make : Z -> Z -> Z;
  pte_flags_0 : pte_flags 0 = 0;
  pte_flags_bits : forall e, Z.land (pte_flags e) FLAG_BITS = pte_flags e;
  pte_addr_frame : forall e, frame_address (pte_addr e);
  pte_flags_make : forall a f, frame_address a -> Z.land f FLAG_BITS = f -> pte_flags (pte_make a f) = f;
  pte_addr_make : forall a f, frame_address a -> Z.land f FLAG_BITS = f -> pte_addr (pte_make a f) = a;
}.

(** The state the page-table code works on: physical memory, the allocator, and
    the pages of the double-free warnings printed so far. *)
Abbreviation memory := (gmap Z (list Z)).
Record Pt := mk_Pt { pt_mem : memory; pt_pm : PageMan; pt_warn : list Z }.
Definition set_mem s m := mk_Pt m (pt_pm s) (pt_warn s).
Definition set_pm s pm := mk_Pt (pt_mem s) pm (pt_warn s).

(** The slots of a table, in order. *)
Definition indices : list nat := seq 0 512.
Lemma indices_NoDup : NoDup indices.
Proof. apply NoDup_seq. Qed.
Lemma elem_of_indices i : i ∈ indices <-> (i < 512)%nat.
Proof. unfold indices. rewrite elem_of_seq. lia. Qed.
#[global] Opaque indices.

Definition zero_frame : list Z := replicate 512 0.
Lemma zero_frame_length : length zero_frame = 512%nat.
Proof. done. Qed.
Lemma zero_frame_lookup i : default 0 (zero_frame !! i) = 0.
Proof. destruct (zero_frame !! i) eqn:E; [|done]. by apply lookup_replicate in E as [-> _]. Qed.
#[global] Opaque zero_frame.
Definition frame (m : memory) (a : Z) : list Z := default zero_frame (m !! a).
Definition entry_at (m : memory) (a : Z) (i : nat) : Z := default 0 (frame m a !! i).
Definition set_entry (m : memory) (a : Z) (i : nat) (e : Z) : memory := <[a := <[i := e]> (frame m a)]> m.

Section PageTables.
Context `{BitField} `{PageTableEntry}.
Implicit Types (s : Pt) (m : memory).

Definition alloc_page s : outcome (Pt * Z) :=
  '(pm, r) ← alloc_physical_page (pt_pm s);
  a ← unwrap r;
  Done (set_pm s pm, a).
Definition dealloc_page s (addr : Z) : outcome Pt :=
  '(pm, w) ← dealloc_physical_page (pt_pm s) addr;
  Done (mk_Pt (pt_mem s) pm (pt_warn s ++ w)).

(** One present entry of the table being copied; [child] copies a lower table.
    A table above 4 GiB is reported and left out. *)
(** @ task/process.rs:160-194 Process::r_copy -- one entry *)
Definition copy_entry (child : Z -> Z -> bool -> Pt -> outcome Pt) (level : nat) (src_table dest_table : Z)
    (copying_process is_user_page : bool) s (index : nat) : outcome Pt :=
  let entry := entry_at (pt_mem s) src_table index in
  let flags := pte_flags entry in
  if negb (has flags PRESENT) then Done s
  else if bool_decide (level = 1%nat) || has flags HUGE_PAGE then
    '(s, flags) ←
      (if is_user_page then
         pm ← page_incref (pt_pm s) (pte_addr entry);
         if copying_process then
           let flags := remove_flag flags WRITABLE in
           Done (mk_Pt (set_entry (pt_mem s) src_table index (pte_make (pte_addr entry) flags)) pm (pt_warn s), flags)
         else Done (set_pm s pm, flags)
       else Done (s, flags));
    let flags := insert_flag flags USER_ACCESSIBLE in
    Done (set_mem s (set_entry (pt_mem s) dest_table index (pte_make (pte_addr entry) flags)))
  else
    let new_addr := pte_addr entry in
    if Z.shiftl 1 32 <? new_addr then Done s
    else
      '(s, new_table_pa) ← alloc_page s;
      let flags := insert_flag flags USER_ACCESSIBLE in
      let s := set_mem s (set_entry (pt_mem s) dest_table index (pte_make new_table_pa flags)) in
      child new_addr new_table_pa (if bool_decide (level = 4%nat) then bool_decide (index < 256)%nat else is_user_page) s.

(** @ task/process.rs:149-196 Process::r_copy *)
Fixpoint r_copy (level : nat) (src_table dest_table : Z) (copying_process is_user_page : bool) s : outcome Pt :=
  let child :=
    match level with
    | O => fun _ _ _ _ => Panic
    | S l => fun new_src new_table user s => r_copy l new_src new_table copying_process user s
    end in
  fold_outcome (copy_entry child level src_table dest_table copying_process is_user_page)
    indices (set_mem s (<[dest_table := zero_frame]> (pt_mem s))).

(** @ task/process.rs:241-269 Process::r_free -- one entry *)
Definition free_entry (child : Z -> bool -> Pt -> outcome Pt) (level : nat) (target_table : Z)
    (user_only is_user_page : bool) s (idx : nat) : outcome Pt :=
  let entry := entry_at (pt_mem s) target_table idx in
  let flags := pte_flags entry in
  if negb (has flags PRESENT) then Done s
  else if bool_decide (level = 1%nat) || has flags HUGE_PAGE then
    if negb user_only || is_user_page then
      let addr := pte_addr entry in
      let s := set_mem s (set_entry (pt_mem s) target_table idx 0) in
      if is_user_page then
        pm ← page_decref (pt_pm s) addr;
        let s := set_pm s pm in
        n ← page_getref (pt_pm s) addr;
        if n =? 0 then dealloc_page s addr else Done s
      else Done s
    else Done s
  else
    let target_is_user_page := if bool_decide (level = 4%nat) then bool_decide (idx < 256)%nat else is_user_page in
    if negb user_only || target_is_user_page then
      let new_pa := pte_addr entry in
      s ← child new_pa target_is_user_page s;
      dealloc_page (set_mem s (set_entry (pt_mem s) target_table idx 0)) new_pa
    else Done s.

(** @ task/process.rs:234-270 Process::r_free *)
Fixpoint r_free (level : nat) (target_table : Z) (user_only is_user_page : bool) s : outcome Pt :=
  let child :=
    match level with
    | O => fun _ _ _ => Panic
    | S l => fun new_target user s => r_free l new_target user_only user s
    end in
  let range := if bool_decide (level = 4%nat) && user_only then seq 0 256 else indices in
  fold_outcome (free_entry child level target_table user_only is_user_page) range s.

(** @ task/process.rs:224-232 Process::free_page_tables *)
Definition free_page_tables (page_table : Z) (user_only : bool) s : outcome Pt :=
  s ← r_free 4 page_table user_only false s;
  if negb user_only then dealloc_page s page_table else Done s.

(** @ task/process.rs:137-147 Process::t0_p4_table *)
Definition t0_p4_table (kernel_cr3 : Z) s : outcome (Pt * Z) :=
  '(s, p4t_pa) ← alloc_page s;
  s ← r_copy 4 kernel_cr3 p4t_pa false false s;
  Done (s, p4t_pa).

(** @ task/process.rs:199-202 Process::copy_process -- the page tables *)
Definition copy_tables (page_table : Z) s : outcome (Pt * Z) :=
  '(s, p4t_pa) ← alloc_page s;
  s ← r_copy 4 page_table p4t_pa true false s;
  Done (s, p4t_pa).

(** ** What a table maps *)

Inductive kind := Absent | Leaf | Table.
Definition entry_kind (level : nat) (e : Z) : kind :=
  if negb (has (pte_flags e) PRESENT) then Absent
  else if bool_decide (level = 1%nat) || has (pte_flags e) HUGE_PAGE then Leaf else Table.

(** A page or huge page: the indices that lead to it, its frame and flags, and
    whether it lies in the user half. *)
Record leaf := mk_leaf { lf_path : list nat; lf_addr : Z; lf_flags : Z; lf_user : bool }.
Inductive visit := VLeaf (l : leaf) | VTable (pa : Z).

Definition child_user (level : nat) (user : bool) (i : nat) : bool :=
  if bool_decide (level = 4%nat) then bool_decide (i < 256)%nat else user.

(** The entries below one slot, each table after the entries it holds; [high]
    says whether tables above 4 GiB are visited. *)
Fixpoint walk_entry (level : nat) (high user : bool) (path : list nat) m (a : Z) (i : nat) : list visit :=
  let e := entry_at m a i in
  match entry_kind level e, level with
  | Leaf, _ => [VLeaf (mk_leaf (path ++ [i]) (pte_addr e) (pte_flags e) user)]
  | Table, S l =>
      if negb high && (Z.shiftl 1 32 <? pte_addr e) then []
      else flat_map (walk_entry l high (child_user level user i) (path ++ [i]) m (pte_addr e)) indices
           ++ [VTable (pte_addr e)]
  | _, _ => []
  end.
Definition walk level high user path m a (idxs : list nat) : list visit :=
  flat_map (walk_entry level high user path m a) idxs.

Definition tables (vs : list visit) : list Z := omap (fun v => match v with VTable t => Some t | _ => None end) vs.
Definition leaves (vs : list visit) : list leaf := omap (fun v => match v with VLeaf l => Some l | _ => None end) vs.
Definition user_pages (vs : list visit) : list Z := (fun l => lf_addr l / 4096) <$> filter (fun l => lf_user l = true) (leaves vs).

(** What releasing one visited entry does to the allocator. *)
Definition free_visit (pw : PageMan * list Z) (v : visit) : outcome (PageMan * list Z) :=
  let '(pm, w) := pw in
  match v with
  | VTable t => '(pm, w') ← dealloc_physical_page pm t; Done (pm, w ++ w')
  | VLeaf l =>
      if lf_user l then
        pm ← page_decref pm (lf_addr l);
        n ← page_getref pm (lf_addr l);
        if n =? 0 then '(pm, w') ← dealloc_physical_page pm (lf_addr l); Done (pm, w ++ w') else Done (pm, w)
      else Done (pm, w)
  end.

(** ** Memory, entries and walks *)

Lemma frame_insert_eq m a l : frame (<[a := l]> m) a = l.
Proof. unfold frame. by rewrite lookup_insert_eq. Qed.
Lemma frame_insert_ne m a b l : a <> b -> frame (<[a := l]> m) b = frame m b.
Proof. intros. unfold frame. by rewrite lookup_insert_ne. Qed.
Lemma entry_set_eq m a i e : (i < length (frame m a))%nat -> entry_at (set_entry m a i e) a i = e.
Proof.
  intros Hi. unfold entry_at, set_entry. rewrite frame_insert_eq.
  by rewrite list_lookup_insert_eq.
Qed.
Lemma entry_clear_eq m a i : entry_at (set_entry m a i 0) a i = 0.
Proof.
  destruct (decide (i < length (frame m a))%nat); [by apply entry_set_eq|].
  unfold entry_at, set_entry. rewrite frame_insert_eq.
  by rewrite lookup_ge_None_2 by (rewrite length_insert; lia).
Qed.
Lemma entry_set_ne m a i e b j : (a, i) <> (b, j) -> entry_at (set_entry m a i e) b j = entry_at m b j.
Proof.
  intros Hne. unfold entry_at, set_entry. destruct (decide (a = b)) as [->|Hab].
  - rewrite frame_insert_eq. rewrite list_lookup_insert_ne by congruence. done.
  - by rewrite frame_insert_ne.
Qed.
Lemma set_entry_lookup_ne m a i e b : b <> a -> set_entry m a i e !! b = m !! b.
Proof. intros. unfold set_entry. by rewrite lookup_insert_ne. Qed.
Lemma entry_of_lookup m m' a i : m' !! a = m !! a -> entry_at m' a i = entry_at m a i.
Proof. unfold entry_at, frame. by intros ->. Qed.

Lemma tables_app vs ws : tables (vs ++ ws) = tables vs ++ tables ws.
Proof. apply omap_app. Qed.
Lemma leaves_app vs ws : leaves (vs ++ ws) = leaves vs ++ leaves ws.
Proof. apply omap_app. Qed.
Lemma user_pages_app vs ws : user_pages (vs ++ ws) = user_pages vs ++ user_pages ws.
Proof. unfold user_pages. by rewrite leaves_app, filter_app, fmap_app. Qed.
Lemma tables_flat_map {A} (f : A -> list visit) l : tables (flat_map f l) = flat_map (fun x => tables (f x)) l.
Proof. induction l; simpl; [done|]. rewrite tables_app. by f_equal. Qed.

Lemma elem_of_tables_snoc t vs b : t ∈ tables (vs ++ [VTable b]) <-> t ∈ tables vs \/ t = b.
Proof. rewrite tables_app. cbn. by rewrite elem_of_app, list_elem_of_singleton. Qed.
Lemma NoDup_tables_snoc r vs b :
  NoDup (r :: tables (vs ++ [VTable b])) -> NoDup (b :: tables vs) /\ r <> b /\ r ∉ tables vs.
Proof.
  rewrite tables_app. cbn. intros [Hr (H1 & H2 & _)%NoDup_app]%NoDup_cons.
  split; [constructor; [|done]|]; [intros Hb; by apply (H2 b Hb), list_elem_of_singleton|].
  rewrite elem_of_app, list_elem_of_singleton in Hr. tauto.
Qed.

Lemma walk_app level high user path m a is1 is2 :
  walk level high user path m a (is1 ++ is2) = walk level high user path m a is1 ++ walk level high user path m a is2.
Proof. apply flat_map_app. Qed.
Lemma walk_snoc level high user path m a is1 i :
  walk level high user path m a (is1 ++ [i]) = walk level high user path m a is1 ++ walk_entry level high user path m a i.
Proof. rewrite walk_app. cbn. by rewrite app_nil_r. Qed.

(** A walk depends on the slot and on the tables below it. *)
Lemma walk_entry_ext level high user path m m' a i :
  entry_at m' a i = entry_at m a i ->
  (forall t, t ∈ tables (walk_entry level high user path m a i) -> m' !! t = m !! t) ->
  walk_entry level high user path m' a i = walk_entry level high user path m a i.
Proof.
  revert user path a i. induction level as [|l IH]; intros user path a i He Ht; cbn [walk_entry] in *;
    rewrite He; destruct (entry_kind _ (entry_at m a i)); try done.
  destruct (negb high && (Z.shiftl 1 32 <? pte_addr (entry_at m a i))); [done|].
  set (b := pte_addr (entry_at m a i)) in *.
  assert (m' !! b = m !! b) as Hb by (apply Ht, elem_of_tables_snoc; by right).
  f_equal. rewrite !flat_map_concat_map. f_equal. apply map_ext_in. intros j Hj. apply IH.
  - by apply entry_of_lookup.
  - intros t Hin. apply Ht, elem_of_tables_snoc. left. rewrite tables_flat_map.
    apply list_elem_of_In, in_flat_map. exists j. split; [done|]. by apply list_elem_of_In.
Qed.

Lemma walk_ext level high user path m m' a idxs :
  (forall i, i ∈ idxs -> entry_at m' a i = entry_at m a i) ->
  (forall t, t ∈ tables (walk level high user path m a idxs) -> m' !! t = m !! t) ->
  walk level high user path m' a idxs = walk level high user path m a idxs.
Proof.
  induction idxs as [|i idxs IH]; intros He Ht; [done|]. cbn in *. rewrite tables_app in Ht. f_equal.
  - apply walk_entry_ext; [apply He; set_solver|]. intros t Hin. apply Ht. set_solver.
  - apply IH; [intros; apply He; set_solver|]. intros t Hin. apply Ht. set_solver.
Qed.

Lemma tables_frame_address level high user path m a idxs t :
  t ∈ tables (walk level high user path m a idxs) -> frame_address t.
Proof.
  revert user path a idxs. induction level as [|l IH]; intros user path a idxs.
  all: unfold walk; rewrite tables_flat_map; intros (i & Hi & Hin%list_elem_of_In)%list_elem_of_In%in_flat_map;
    cbn [walk_entry] in Hin; destruct (entry_kind _ _); try by apply elem_of_nil in Hin.
  destruct (_ && _); [by apply elem_of_nil in Hin|].
  apply elem_of_tables_snoc in Hin as [Hin| ->]; [by eapply IH|]. apply pte_addr_frame.
Qed.

(** With every table at or below 4 GiB the walk of [r_copy] leaves nothing out. *)
Lemma walk_low level user path m a idxs :
  (forall t, t ∈ tables (walk level true user path m a idxs) -> t <= 2 ^ 32) ->
  walk level false user path m a idxs = walk level true user path m a idxs.
Proof.
  revert user path a idxs. induction level as [|l IH]; intros user path a idxs; induction idxs as [|i idxs IHi]; intros Ht; try done;
    unfold walk in *; cbn [flat_map] in *; rewrite tables_app in Ht;
    (rewrite IHi by (intros t Hin; apply Ht; set_solver)); f_equal; cbn [walk_entry] in *;
    destruct (entry_kind _ (entry_at m a i)); try done.
  set (b := pte_addr (entry_at m a i)) in *. cbn [negb andb] in *.
  assert (forall t, t ∈ tables (flat_map (walk_entry l true (child_user (S l) user i) (path ++ [i]) m b) indices ++ [VTable b]) -> t <= 2 ^ 32) as Hl
    by (intros t Hin; apply Ht; set_solver).
  change (Z.shiftl 1 32) with (2 ^ 32). rewrite (proj2 (Z.ltb_ge _ _)) by (apply Hl, elem_of_tables_snoc; by right).
  f_equal. apply IH. intros t Hin. apply Hl, elem_of_tables_snoc. by left.
Qed.

(** ** Releasing an address space *)

(** The specification of a release of the slots [idxs] of [root], by [run]. *)
Definition releases level uo user path root (idxs : list nat) s (res : outcome Pt) : Prop :=
  let vs := walk level true user path (pt_mem s) root idxs in
  match fold_outcome free_visit vs (pt_pm s, pt_warn s) with
  | Done pw => exists m', res = Done (mk_Pt m' pw.1 pw.2) /\
      (forall t, t ∉ root :: tables vs -> m' !! t = pt_mem s !! t) /\
      (forall i, i ∉ idxs -> entry_at m' root i = entry_at (pt_mem s) root i) /\
      (uo = false -> forall i, i ∈ idxs -> entry_kind level (entry_at m' root i) = Absent)
  | Panic => res = Panic
  | OutOfFuel => res = OutOfFuel
  end.

Lemma entry_kind_0 level : entry_kind level 0 = Absent.
Proof. unfold entry_kind. rewrite pte_flags_0. done. Qed.

Lemma walk_entry_leaf level high user path m a i :
  entry_kind level (entry_at m a i) = Leaf ->
  walk_entry level high user path m a i
  = [VLeaf (mk_leaf (path ++ [i]) (pte_addr (entry_at m a i)) (pte_flags (entry_at m a i)) user)].
Proof. intros Hk. destruct level; cbn [walk_entry]; by rewrite Hk. Qed.
Lemma walk_entry_absent level high user path m a i :
  entry_kind level (entry_at m a i) = Absent -> walk_entry level high user path m a i = [].
Proof. intros Hk. destruct level; cbn [walk_entry]; by rewrite Hk. Qed.
Lemma walk_entry_table l high user path m a i :
  entry_kind (S l) (entry_at m a i) = Table ->
  (high = false -> pte_addr (entry_at m a i) <= 2 ^ 32) ->
  walk_entry (S l) high user path m a i
  = walk l high (child_user (S l) user i) (path ++ [i]) m (pte_addr (entry_at m a i)) indices
    ++ [VTable (pte_addr (entry_at m a i))].
Proof.
  intros Hk Hh. cbn [walk_entry]. rewrite Hk. destruct high; [done|]. cbn [negb andb].
  change (Z.shiftl 1 32) with (2 ^ 32). rewrite (proj2 (Z.ltb_ge _ _)) by auto. done.
Qed.

Lemma free_entry_spec l uo user path root idx s child :
  (uo = true -> if bool_decide (S l = 4%nat) then (idx < 256)%nat else user = true) ->
  NoDup (root :: tables (walk_entry (S l) true user path (pt_mem s) root idx)) ->
  (l <> 0%nat -> forall a user' path s, (uo = true -> user' = true) ->
    NoDup (a :: tables (walk l true user' path (pt_mem s) a indices)) ->
    releases l uo user' path a indices s (child a user' s)) ->
  releases (S l) uo user path root [idx] s (free_entry child (S l) root uo user s idx).
Proof.
  intros Huo Hnd Hchild. unfold releases. rewrite <- (app_nil_l [idx]), walk_snoc. cbn [app walk flat_map].
  unfold free_entry. destruct (entry_kind (S l) (entry_at (pt_mem s) root idx)) eqn:Hk.
  - rewrite walk_entry_absent by done. cbn [fold_outcome]. exists (pt_mem s).
    unfold entry_kind in Hk. destruct (negb _) eqn:E; [|by destruct (_ || _)].
    split; [by destruct s|]. split; [done|]. split; [done|].
    intros _ i ->%list_elem_of_singleton. unfold entry_kind. by rewrite E.
  - rewrite walk_entry_leaf in * by done. unfold entry_kind in Hk.
    destruct (negb (has _ _)); [done|]. destruct (_ || _); [|done].
    assert (forall m', m' = set_entry (pt_mem s) root idx 0 ->
      (forall t, t ∉ root :: tables [VLeaf (mk_leaf (path ++ [idx]) (pte_addr (entry_at (pt_mem s) root idx)) (pte_flags (entry_at (pt_mem s) root idx)) user)] -> m' !! t = pt_mem s !! t) /\
      (forall i, i ∉ [idx] -> entry_at m' root i = entry_at (pt_mem s) root i) /\
      (uo = false -> forall i, i ∈ [idx] -> entry_kind (S l) (entry_at m' root i) = Absent)) as Hm'.
    { intros m' ->. split; [intros t Ht; apply set_entry_lookup_ne; set_solver|].
      split; [intros i Hi; apply entry_set_ne; set_solver|].
      intros _ i ->%list_elem_of_singleton. rewrite entry_clear_eq. apply entry_kind_0. }
    destruct user.
    + rewrite orb_true_r. cbn [fold_outcome free_visit lf_user lf_addr set_mem pt_pm mbind outcome_bind pt_mem].
      destruct (page_decref _ _) as [pm1| |]; cbn [mbind outcome_bind]; [|done..].
      cbn [set_pm pt_pm]. destruct (page_getref _ _) as [n| |]; cbn [mbind outcome_bind]; [|done..].
      destruct (n =? 0); [unfold dealloc_page; cbn [set_pm pt_pm set_mem pt_mem pt_warn]|eexists; split; [reflexivity|by apply Hm']].
      destruct (dealloc_physical_page _ _) as [[pm2 w2]| |]; cbn; [|done..]. eexists. split; [reflexivity|by apply Hm'].
    + cbn [fold_outcome free_visit lf_user mbind outcome_bind]. destruct uo; cbn [negb orb].
      * exists (pt_mem s). split; [by destruct s|]. done.
      * eexists. split; [reflexivity|by apply Hm'].
  - assert (l <> 0%nat) as Hl.
    { intros ->. unfold entry_kind in Hk. destruct (negb _); [done|]. by rewrite bool_decide_true in Hk. }
    pose proof (walk_entry_table l true user path (pt_mem s) root idx Hk ltac:(done)) as Hw.
    rewrite Hw. rewrite Hw in Hnd. clear Hw. unfold entry_kind in Hk.
    destruct (negb (has _ _)); [done|]. destruct (_ || _); [done|].
    set (a := pte_addr (entry_at (pt_mem s) root idx)) in *. fold (child_user (S l) user idx).
    set (user' := child_user (S l) user idx) in *.
    assert (uo = true -> user' = true) as Hu'.
    { intros Hu. specialize (Huo Hu). unfold user', child_user.
      destruct (bool_decide (S l = 4)%nat); [by rewrite bool_decide_true|done]. }
    assert ((if negb uo || user' then true else false) = true) as Hgo.
    { destruct uo; [by rewrite Hu'|done]. }
    destruct (negb uo || user'); [clear Hgo|done].
    rewrite fold_outcome_app. apply NoDup_tables_snoc in Hnd as (Hnd & Hra & Hrt).
    pose proof (Hchild Hl a user' (path ++ [idx]) s Hu' Hnd) as Hc. unfold releases in Hc.
    destruct (fold_outcome free_visit _ _) as [[pm1 w1]| |]; cbn [mbind outcome_bind]; [|by rewrite Hc..].
    destruct Hc as (m' & -> & Hf & _). cbn [mbind outcome_bind fold_outcome free_visit fst snd].
    unfold dealloc_page. cbn [set_mem pt_pm pt_mem pt_warn].
    destruct (dealloc_physical_page pm1 a) as [[pm2 w2]| |]; cbn [mbind outcome_bind fst snd]; [|done..].
    eexists. split; [reflexivity|]. assert (m' !! root = pt_mem s !! root) as Hroot.
    { apply Hf. rewrite elem_of_cons. tauto. }
    split; [|split].
    + intros t Ht. rewrite elem_of_cons, elem_of_tables_snoc in Ht.
      rewrite set_entry_lookup_ne by tauto. apply Hf. rewrite elem_of_cons. tauto.
    + intros i Hi. rewrite entry_set_ne by set_solver. by apply entry_of_lookup.
    + intros _ i ->%list_elem_of_singleton. rewrite entry_clear_eq. apply entry_kind_0.
Qed.

Lemma free_loop_spec l uo user path root child idxs :
  (uo = true -> if bool_decide (S l = 4%nat) then Forall (fun i => i < 256)%nat idxs else user = true) ->
  (l <> 0%nat -> forall a user' path s, (uo = true -> user' = true) ->
    NoDup (a :: tables (walk l true user' path (pt_mem s) a indices)) ->
    releases l uo user' path a indices s (child a user' s)) ->
  NoDup idxs ->
  forall s, NoDup (root :: tables (walk (S l) true user path (pt_mem s) root idxs)) ->
  releases (S l) uo user path root idxs s
    (fold_outcome (free_entry child (S l) root uo user) idxs s).
Proof.
  intros Huo Hchild. induction idxs as [|i idxs IH]; intros Hidx s Hnd.
  - exists (pt_mem s). split; [by destruct s|]. split; [done|]. split; [done|]. intros _ i Hi. by apply elem_of_nil in Hi.
  - apply NoDup_cons in Hidx as [Hi Hidx]. cbn [walk flat_map] in Hnd. rewrite tables_app in Hnd.
    apply NoDup_cons in Hnd as [Hr Hnd]. rewrite elem_of_app in Hr. apply NoDup_app in Hnd as (Hnd1 & Hdis & Hnd2).
    assert (releases (S l) uo user path root [i] s (free_entry child (S l) root uo user s i)) as H1.
    { apply free_entry_spec; [|constructor; tauto|done]. intros Hu. specialize (Huo Hu).
      destruct (bool_decide _); [by apply Forall_cons in Huo as [??]|done]. }
    unfold releases in *. cbn [walk flat_map fold_outcome] in *. rewrite app_nil_r in H1. rewrite fold_outcome_app.
    destruct (fold_outcome free_visit _ _) as [[pm1 w1]| |]; cbn [mbind outcome_bind]; [|by rewrite H1..].
    destruct H1 as (m1 & -> & Hf1 & Ho1 & Hc1). cbn [mbind outcome_bind fst snd].
    assert (forall j, j ∈ idxs -> entry_at m1 root j = entry_at (pt_mem s) root j) as Hsame.
    { intros j Hj. apply Ho1. intros ->%list_elem_of_singleton. done. }
    assert (walk (S l) true user path m1 root idxs = walk (S l) true user path (pt_mem s) root idxs) as Hw.
    { apply walk_ext; [done|]. intros t Ht. apply Hf1. intros [->|Ht']%elem_of_cons; [tauto|by apply (Hdis t)]. }
    assert (releases (S l) uo user path root idxs (mk_Pt m1 pm1 w1)
      (fold_outcome (free_entry child (S l) root uo user) idxs (mk_Pt m1 pm1 w1))) as H2.
    { apply IH; [|done|].
      - intros Hu. specialize (Huo Hu). destruct (bool_decide _); [by apply Forall_cons in Huo as [??]|done].
      - cbn [pt_mem]. rewrite Hw. constructor; tauto. }
    unfold releases in H2. cbn [pt_mem pt_pm pt_warn] in H2. rewrite Hw in H2. unfold walk in H2.
    destruct (fold_outcome free_visit _ _) as [[pm2 w2]| |]; [|done..].
    destruct H2 as (m2 & -> & Hf2 & Ho2 & Hc2). eexists. split; [reflexivity|]. split; [|split].
    + intros t Ht. rewrite elem_of_cons, tables_app, elem_of_app in Ht.
      rewrite Hf2, Hf1; [done|rewrite elem_of_cons; tauto..].
    + intros j Hj. rewrite elem_of_cons in Hj. rewrite Ho2, Ho1; [done| |tauto].
      intros ->%list_elem_of_singleton. tauto.
    + intros Hu j [->|Hj]%elem_of_cons; [|by apply Hc2].
      rewrite Ho2 by done. apply Hc1; [done|by apply list_elem_of_singleton].
Qed.

Definition release_range (level : nat) (user_only : bool) : list nat :=
  if bool_decide (level = 4%nat) && user_only then seq 0 256 else indices.

(** [r_free] visits the tree in post order, provided no table is reached twice. *)
Lemma r_free_spec l uo user path root s :
  (S l <= 4)%nat -> (uo = true -> S l = 4%nat \/ user = true) ->
  NoDup (root :: tables (walk (S l) true user path (pt_mem s) root (release_range (S l) uo))) ->
  releases (S l) uo user path root (release_range (S l) uo) s (r_free (S l) root uo user s).
Proof.
  revert user path root s. induction l as [|l IH]; intros user path root s Hl Huo Hnd.
  - cbn [r_free]. apply free_loop_spec; [|done| |done].
    + rewrite bool_decide_false by lia. intros Hu. by destruct (Huo Hu).
    + unfold release_range. rewrite bool_decide_false by lia. apply indices_NoDup.
  - change (r_free (S (S l)) root uo user s) with
      (fold_outcome (free_entry (fun nt u s => r_free (S l) nt uo u s) (S (S l)) root uo user) (release_range (S (S l)) uo) s).
    apply free_loop_spec; [| | |done].
    + intros Hu. unfold release_range. destruct (bool_decide_reflect (S (S l) = 4)%nat); [|by destruct (Huo Hu)].
      rewrite Hu. cbn [andb]. apply Forall_seq. lia.
    + intros _ a user' path' s' Hu' Hnd'.
      assert (release_range (S l) uo = indices) as Hr.
      { unfold release_range. by rewrite bool_decide_false by lia. }
      rewrite <- Hr. apply IH; [lia|auto|]. by rewrite Hr.
    + unfold release_range. destruct (_ && _); [apply NoDup_seq|apply indices_NoDup].
Qed.

(** ** Flags *)

Lemma has_mask flags keep f : Z.land keep f = f -> has (Z.land flags keep) f = has flags f.
Proof. unfold has. intros Hk. by rewrite <- Z.land_assoc, Hk. Qed.
Lemma has_remove flags f : Z.land f 2 = 0 -> has (remove_flag flags WRITABLE) f = has flags f.
Proof.
  intros Hf. unfold remove_flag, WRITABLE. rewrite Z.ldiff_land. apply has_mask.
  apply Z.bits_inj'. intros n Hn. apply (f_equal (fun z => Z.testbit z n)) in Hf.
  rewrite Z.land_spec, Z.bits_0 in Hf. rewrite Z.land_spec, Z.lnot_spec by done.
  by destruct (Z.testbit f n), (Z.testbit 2 n).
Qed.
Lemma has_insert flags f : Z.land f 4 = 0 -> has (insert_flag flags USER_ACCESSIBLE) f = has flags f.
Proof.
  intros Hf. unfold has, insert_flag, USER_ACCESSIBLE.
  by rewrite Z.land_lor_distr_l, (Z.land_comm 4), Hf, Z.lor_0_r.
Qed.
Lemma has_inserted flags : has (insert_flag flags USER_ACCESSIBLE) USER_ACCESSIBLE = true.
Proof.
  unfold has, insert_flag, USER_ACCESSIBLE. apply Z.eqb_eq. apply Z.bits_inj'. intros n Hn.
  rewrite Z.land_spec, Z.lor_spec. by destruct (Z.testbit flags n), (Z.testbit 4 n).
Qed.
Lemma has_removed flags : has (remove_flag flags WRITABLE) WRITABLE = false.
Proof.
  unfold has, remove_flag, WRITABLE. apply Z.eqb_neq. intros He.
  apply (f_equal (fun z => Z.testbit z 1)) in He. rewrite Z.land_spec, Z.ldiff_spec in He.
  cbn in He. by rewrite andb_false_r in He.
Qed.
Lemma remove_twice flags : remove_flag (remove_flag flags WRITABLE) WRITABLE = remove_flag flags WRITABLE.
Proof.
  unfold remove_flag. apply Z.bits_inj'. intros n Hn. rewrite !Z.ldiff_spec.
  by destruct (Z.testbit flags n), (Z.testbit WRITABLE n).
Qed.
Lemma insert_bits flags :
  Z.land flags FLAG_BITS = flags -> Z.land (insert_flag flags USER_ACCESSIBLE) FLAG_BITS = insert_flag flags USER_ACCESSIBLE.
Proof. unfold insert_flag. intros Hf. rewrite Z.land_lor_distr_l, Hf. done. Qed.
Lemma remove_bits flags :
  Z.land flags FLAG_BITS = flags -> Z.land (remove_flag flags WRITABLE) FLAG_BITS = remove_flag flags WRITABLE.
Proof.
  unfold remove_flag. intros Hf. rewrite !Z.ldiff_land.
  by rewrite <- Z.land_assoc, (Z.land_comm (Z.lnot _)), Z.land_assoc, Hf.
Qed.

(** ** Entries that differ in write permission at most *)

Definition same_flags (f f' : Z) : Prop := f' = f \/ f' = remove_flag f WRITABLE.
Definition same_entry (e e' : Z) : Prop := pte_addr e' = pte_addr e /\ same_flags (pte_flags e) (pte_flags e').
Definition leaf_sim (l l' : leaf) : Prop :=
  lf_path l' = lf_path l /\ lf_addr l' = lf_addr l /\ lf_user l' = lf_user l /\ same_flags (lf_flags l) (lf_flags l').
Definition visit_sim (v v' : visit) : Prop :=
  match v, v' with
  | VTable t, VTable t' => t = t'
  | VLeaf l, VLeaf l' => leaf_sim l l'
  | _, _ => False
  end.

#[local] Instance same_flags_refl : Reflexive same_flags.
Proof. intros f. by left. Qed.
#[local] Instance same_flags_trans : Transitive same_flags.
Proof. intros f g h [->| ->] [->| ->]; rewrite ?remove_twice; unfold same_flags; auto. Qed.
#[local] Instance same_entry_refl : Reflexive same_entry.
Proof. intros e. split; [done|reflexivity]. Qed.
#[local] Instance same_entry_trans : Transitive same_entry.
Proof. intros e f g [H1 H2] [H3 H4]. split; [congruence|by etrans]. Qed.

Lemma same_entry_kind e e' : same_entry e e' -> forall level, entry_kind level e' = entry_kind level e.
Proof. intros [_ [Hf|Hf]] level; unfold entry_kind; rewrite Hf; [done|]. by rewrite !has_remove. Qed.

Lemma walk_entry_sim level high user path m m' a i :
  same_entry (entry_at m a i) (entry_at m' a i) ->
  (forall t j, t ∈ tables (walk_entry level high user path m a i) -> same_entry (entry_at m t j) (entry_at m' t j)) ->
  Forall2 visit_sim (walk_entry level high user path m a i) (walk_entry level high user path m' a i).
Proof.
  revert user path a i. induction level as [|l IH]; intros user path a i He Ht;
    pose proof (same_entry_kind _ _ He) as Hk; cbn [walk_entry] in *; rewrite Hk; destruct He as [Ha Hf]; rewrite Ha;
    destruct (entry_kind _ (entry_at m a i)); try constructor; try done.
  destruct (negb high && (Z.shiftl 1 32 <? pte_addr (entry_at m a i))); [constructor|].
  set (b := pte_addr (entry_at m a i)) in *. apply Forall2_app; [|by repeat constructor].
  apply Forall2_flat_map. intros j Hj. apply IH; [apply Ht, elem_of_tables_snoc; by right|].
  intros t k Hin. apply Ht, elem_of_tables_snoc. left. rewrite tables_flat_map.
  apply list_elem_of_In, in_flat_map. exists j. split; by apply list_elem_of_In.
Qed.

Lemma walk_sim level high user path m m' a idxs :
  (forall t j, t ∈ a :: tables (walk level high user path m a idxs) -> same_entry (entry_at m t j) (entry_at m' t j)) ->
  Forall2 visit_sim (walk level high user path m a idxs) (walk level high user path m' a idxs).
Proof.
  intros Ht. apply Forall2_flat_map. intros i Hi. apply walk_entry_sim; [apply Ht; left|].
  intros t j Hin. apply Ht. right. unfold walk. rewrite tables_flat_map.
  apply list_elem_of_In, in_flat_map. exists i. split; by apply list_elem_of_In.
Qed.

Lemma visit_sim_tables vs vs' : Forall2 visit_sim vs vs' -> tables vs' = tables vs.
Proof. induction 1 as [|[|] [|] vs vs' Hv _ IH]; cbn in *; [done|done|done..|by f_equal]. Qed.
Lemma visit_sim_leaves vs vs' : Forall2 visit_sim vs vs' -> Forall2 leaf_sim (leaves vs) (leaves vs').
Proof. induction 1 as [|[|] [|] vs vs' Hv _ IH]; cbn in *; try done; by constructor. Qed.
(** ** Copying an address space *)

Definition pages (ts : list Z) : list Z := (fun t => t / 4096) <$> ts.
Definition occurrences (p : Z) (ps : list Z) : Z := Z.of_nat (length (filter (eq p) ps)).
Definition in_copy (t dst : Z) (vs : list visit) : Prop := t = dst \/ t ∈ tables vs.

(** How a page is mapped in the copy: accessible to user code and, in the user
    half of a forked process, not writable. *)
Definition leaf_copied (copying : bool) (l l' : leaf) : Prop :=
  lf_path l' = lf_path l /\ lf_addr l' = lf_addr l /\ lf_user l' = lf_user l /\
  (exists f, same_flags (lf_flags l) f /\ lf_flags l' = insert_flag f USER_ACCESSIBLE /\
    (copying && lf_user l = true -> f = remove_flag (lf_flags l) WRITABLE)).

(** After the slots [idxs] of [src] have been copied to [dst]. *)
Record copy_inv (level : nat) (user : bool) (path : list nat) (src dst : Z) (copying : bool) (s0 : Pt)
    (idxs : list nat) (s : Pt) : Prop := {
  ci_len : pm_len (pt_pm s) = pm_len (pt_pm s0);
  ci_tables : forall t, t ∈ tables (walk level true user path (pt_mem s) dst idxs) -> free (pt_pm s0) (t / 4096) = true;
  ci_nodup : NoDup (tables (walk level true user path (pt_mem s) dst idxs));
  ci_free : forall p, 0 <= p -> free (pt_pm s) p =
    free (pt_pm s0) p && negb (bool_decide (p ∈ pages (tables (walk level true user path (pt_mem s) dst idxs))));
  ci_refs : forall p, 0 <= p -> zget (pm_refs (pt_pm s)) p =
    (fun n => n + occurrences p (user_pages (walk level true user path (pt_mem s) dst idxs))) <$> zget (pm_refs (pt_pm s0)) p;
  ci_leaves : Forall2 (leaf_copied copying) (leaves (walk level false user path (pt_mem s0) src idxs))
    (leaves (walk level true user path (pt_mem s) dst idxs));
  ci_same : forall t i, ~ in_copy t dst (walk level true user path (pt_mem s) dst idxs) ->
    same_entry (entry_at (pt_mem s0) t i) (entry_at (pt_mem s) t i);
  ci_frame : forall t, ~ in_copy t dst (walk level true user path (pt_mem s) dst idxs) ->
    t ∉ src :: tables (walk level false user path (pt_mem s0) src idxs) -> pt_mem s !! t = pt_mem s0 !! t;
  ci_rest : forall i, i ∉ idxs -> entry_at (pt_mem s) dst i = 0;
  ci_dst : length (frame (pt_mem s) dst) = 512%nat;
  ci_protected : copying = true -> forall l, l ∈ leaves (walk level false user path (pt_mem s) src idxs) ->
    lf_user l = true -> has (lf_flags l) WRITABLE = false;
  ci_warn : pt_warn s = pt_warn s0;
}.

(** What a copy needs: [src] is a tree of reserved frames, [dst] a reserved
    frame outside it. *)
Record copy_pre (level : nat) (user : bool) (path : list nat) (src dst : Z) (s0 : Pt) : Prop := {
  cp_wf : pm_wf (pt_pm s0);
  cp_dst : frame_address dst /\ free (pt_pm s0) (dst / 4096) = false;
  cp_src : forall t, t ∈ src :: tables (walk level false user path (pt_mem s0) src indices) ->
    t <> dst /\ free (pt_pm s0) (t / 4096) = false;
}.

Lemma user_pages_snoc vs t : user_pages (vs ++ [VTable t]) = user_pages vs.
Proof. rewrite user_pages_app. apply app_nil_r. Qed.
Lemma occurrences_app p ps qs : occurrences p (ps ++ qs) = occurrences p ps + occurrences p qs.
Proof. unfold occurrences. rewrite filter_app, length_app. lia. Qed.
Lemma pages_app ts us : pages (ts ++ us) = pages ts ++ pages us.
Proof. apply fmap_app. Qed.
Lemma page_inj t u : frame_address t -> frame_address u -> t / 4096 = u / 4096 -> t = u.
Proof. intros [? _] [? _] ?. pose proof (Z.div_mod t 4096). pose proof (Z.div_mod u 4096). lia. Qed.

Lemma walk_slot_subset level high user path m a i t :
  i ∈ indices -> t ∈ tables (walk_entry level high user path m a i) -> t ∈ tables (walk level high user path m a indices).
Proof.
  intros Hi Ht. unfold walk. rewrite tables_flat_map. apply list_elem_of_In, in_flat_map. exists i.
  split; by apply list_elem_of_In.
Qed.
Lemma walk_slots_subset level high user path m a is1 is2 t :
  (forall i, i ∈ is1 -> i ∈ is2) -> t ∈ tables (walk level high user path m a is1) -> t ∈ tables (walk level high user path m a is2).
Proof.
  intros Hi. unfold walk. rewrite !tables_flat_map, !list_elem_of_In, !in_flat_map.
  intros (i & Hin%list_elem_of_In & Ht). exists i. split; [by apply list_elem_of_In, Hi|done].
Qed.

Section CopyStep.
Context (level : nat) (user : bool) (path : list nat) (src dst : Z) (copying : bool) (s0 : Pt).
Context (Hpre : copy_pre level user path src dst s0).

(** The tables of the source are outside the copy, and still as they were. *)
Lemma source_outside idxs s t :
  copy_inv level user path src dst copying s0 idxs s ->
  t ∈ src :: tables (walk level false user path (pt_mem s0) src indices) ->
  ~ in_copy t dst (walk level true user path (pt_mem s) dst idxs).
Proof.
  intros Hinv Ht. destruct (cp_src _ _ _ _ _ _ Hpre t Ht) as [Hd Hf]. intros [->|Hin]; [done|].
  rewrite (ci_tables _ _ _ _ _ _ _ _ _ Hinv t Hin) in Hf. done.
Qed.
Lemma source_slot idxs s i :
  copy_inv level user path src dst copying s0 idxs s ->
  same_entry (entry_at (pt_mem s0) src i) (entry_at (pt_mem s) src i).
Proof. intros Hinv. apply (ci_same _ _ _ _ _ _ _ _ _ Hinv). eapply source_outside; [done|left]. Qed.
Lemma source_walk idxs s i :
  copy_inv level user path src dst copying s0 idxs s -> i ∈ indices ->
  Forall2 visit_sim (walk_entry level false user path (pt_mem s0) src i) (walk_entry level false user path (pt_mem s) src i).
Proof.
  intros Hinv Hi. apply walk_entry_sim; [by eapply source_slot|]. intros t j Ht.
  apply (ci_same _ _ _ _ _ _ _ _ _ Hinv). eapply source_outside; [done|]. right. by eapply walk_slot_subset.
Qed.

Lemma copy_inv_start : copy_inv level user path src dst copying s0 [] (set_mem s0 (<[dst := zero_frame]> (pt_mem s0))).
Proof.
  split; cbn [set_mem pt_mem pt_pm pt_warn walk flat_map tables leaves user_pages omap list_omap].
  - done.
  - intros t Ht. by apply elem_of_nil in Ht.
  - constructor.
  - intros p Hp. rewrite bool_decide_false by (cbn; apply not_elem_of_nil). by rewrite andb_true_r.
  - intros p Hp. destruct (zget _ p); cbn; [|done]. f_equal. change (occurrences p _) with 0. lia.
  - constructor.
  - intros t i Hn. unfold entry_at. rewrite frame_insert_ne; [reflexivity|]. intros ->. apply Hn. by left.
  - intros t Hn _. rewrite lookup_insert_ne; [done|]. intros ->. apply Hn. by left.
  - intros i _. unfold entry_at. rewrite frame_insert_eq. apply zero_frame_lookup.
  - rewrite frame_insert_eq. apply zero_frame_length.
  - intros _ l Hl. by apply elem_of_nil in Hl.
  - done.
Qed.

(** A slot that is not copied. *)
Lemma copy_step_skip idxs s i :
  copy_inv level user path src dst copying s0 idxs s -> i ∈ indices -> i ∉ idxs ->
  walk_entry level false user path (pt_mem s0) src i = [] ->
  copy_inv level user path src dst copying s0 (idxs ++ [i]) s.
Proof.
  intros Hinv Hi Hni Hskip.
  assert (walk_entry level true user path (pt_mem s) dst i = []) as Hd.
  { apply walk_entry_absent. rewrite (ci_rest _ _ _ _ _ _ _ _ _ Hinv) by done. apply entry_kind_0. }
  assert (walk_entry level false user path (pt_mem s) src i = []) as Hs.
  { pose proof (source_walk idxs s i Hinv Hi) as Hw. rewrite Hskip in Hw. by inversion Hw. }
  destruct Hinv. split; rewrite ?walk_snoc, ?Hd, ?Hs, ?Hskip, ?app_nil_r; try done.
  intros j Hj. apply ci_rest0. set_solver.
Qed.

(** One slot more: [ws] is what the copied slot leads to. *)
Record slot_copied (s s' : Pt) (i : nat) (ws : list visit) : Prop := {
  sc_len : pm_len (pt_pm s') = pm_len (pt_pm s);
  sc_walk : walk_entry level true user path (pt_mem s') dst i = ws;
  sc_rest : forall j, j <> i -> entry_at (pt_mem s') dst j = entry_at (pt_mem s) dst j;
  sc_dst : length (frame (pt_mem s') dst) = 512%nat;
  sc_frame : forall t, ~ in_copy t dst ws -> t ∉ src :: tables (walk_entry level false user path (pt_mem s0) src i) ->
    pt_mem s' !! t = pt_mem s !! t;
  sc_same : forall t j, ~ in_copy t dst ws -> same_entry (entry_at (pt_mem s) t j) (entry_at (pt_mem s') t j);
  sc_tables : forall t, t ∈ tables ws -> free (pt_pm s) (t / 4096) = true;
  sc_nodup : NoDup (tables ws);
  sc_free : forall p, 0 <= p -> free (pt_pm s') p = free (pt_pm s) p && negb (bool_decide (p ∈ pages (tables ws)));
  sc_refs : forall p, 0 <= p -> zget (pm_refs (pt_pm s')) p =
    (fun n => n + occurrences p (user_pages ws)) <$> zget (pm_refs (pt_pm s)) p;
  sc_leaves : Forall2 (leaf_copied copying) (leaves (walk_entry level false user path (pt_mem s0) src i)) (leaves ws);
  sc_protected : copying = true -> forall l, l ∈ leaves (walk_entry level false user path (pt_mem s') src i) ->
    lf_user l = true -> has (lf_flags l) WRITABLE = false;
  sc_warn : pt_warn s' = pt_warn s;
}.

Lemma copied_not_free idxs s t :
  copy_inv level user path src dst copying s0 idxs s ->
  t ∈ tables (walk level true user path (pt_mem s) dst idxs) ->
  free (pt_pm s) (t / 4096) = false /\ t <> dst /\ t ∉ src :: tables (walk level false user path (pt_mem s0) src indices).
Proof.
  intros Hinv Ht. pose proof (ci_tables _ _ _ _ _ _ _ _ _ Hinv t Ht) as Hf. split; [|split].
  - pose proof (tables_frame_address _ _ _ _ _ _ _ _ Ht) as [_ [??]].
    rewrite (ci_free _ _ _ _ _ _ _ _ _ Hinv) by (apply Z.div_pos; lia).
    rewrite bool_decide_true by (apply list_elem_of_fmap; eauto). apply andb_false_r.
  - intros ->. destruct (cp_dst _ _ _ _ _ _ Hpre) as [_ Hd]. congruence.
  - intros Hs. destruct (cp_src _ _ _ _ _ _ Hpre t Hs) as [_ Hd]. congruence.
Qed.

Lemma copied_walk_kept idxs s s' i ws :
  copy_inv level user path src dst copying s0 idxs s -> i ∈ indices -> i ∉ idxs -> slot_copied s s' i ws ->
  walk level true user path (pt_mem s') dst idxs = walk level true user path (pt_mem s) dst idxs.
Proof.
  intros Hinv Hi Hni Hs. apply walk_ext.
  - intros j Hj. apply (sc_rest _ _ _ _ Hs). by intros ->.
  - intros t Ht. destruct (copied_not_free idxs s t Hinv Ht) as (Hf & Hd & Hsrc). apply (sc_frame _ _ _ _ Hs).
    + intros [?|Hw]; [done|]. by rewrite (sc_tables _ _ _ _ Hs t Hw) in Hf.
    + intros Hin. apply Hsrc. apply elem_of_cons in Hin as [->|Hin]; [left|right]. by eapply walk_slot_subset.
Qed.

Lemma leaf_sim_protected ls ls' :
  Forall2 leaf_sim ls ls' -> (forall l, l ∈ ls -> lf_user l = true -> has (lf_flags l) WRITABLE = false) ->
  forall l, l ∈ ls' -> lf_user l = true -> has (lf_flags l) WRITABLE = false.
Proof.
  intros HF Hp l' Hl Hu. apply list_elem_of_lookup_1 in Hl as [k Hk].
  destruct (Forall2_lookup_r _ _ _ _ _ HF Hk) as (l & Hl & _ & _ & Hu' & [Hf|Hf]); rewrite Hf; [|apply has_removed].
  apply Hp; [by eapply list_elem_of_lookup_2|congruence].
Qed.

Lemma slot_tables_free idxs s s' i ws t :
  copy_inv level user path src dst copying s0 idxs s -> slot_copied s s' i ws -> t ∈ tables ws ->
  free (pt_pm s0) (t / 4096) = true /\ t / 4096 ∉ pages (tables (walk level true user path (pt_mem s) dst idxs)).
Proof.
  intros Hinv Hs Ht. pose proof (sc_tables _ _ _ _ Hs t Ht) as Hf.
  assert (frame_address t) as [_ [??]].
  { apply (tables_frame_address level true user path (pt_mem s') dst [i]). cbn. by rewrite app_nil_r, (sc_walk _ _ _ _ Hs). }
  rewrite (ci_free _ _ _ _ _ _ _ _ _ Hinv) in Hf by (apply Z.div_pos; lia).
  apply andb_true_iff in Hf as [? Hf%negb_true_iff%bool_decide_eq_false_1]. done.
Qed.

(** The pages already protected stay so. *)
Lemma source_protected_kept idxs s s' i ws :
  copy_inv level user path src dst copying s0 idxs s -> i ∈ indices -> (forall j, j ∈ idxs -> j ∈ indices) -> i ∉ idxs ->
  slot_copied s s' i ws -> copying = true ->
  forall l, l ∈ leaves (walk level false user path (pt_mem s') src idxs) -> lf_user l = true -> has (lf_flags l) WRITABLE = false.
Proof.
  intros Hinv Hi Hidx Hni Hs Hc. eapply leaf_sim_protected; [|by eapply ci_protected].
  apply visit_sim_leaves, walk_sim. intros t j Ht. apply (sc_same _ _ _ _ Hs).
  assert (Forall2 visit_sim (walk level false user path (pt_mem s0) src idxs) (walk level false user path (pt_mem s) src idxs)) as Hsim.
  { apply Forall2_flat_map. intros k Hk. eapply source_walk; [done|auto]. }
  rewrite (visit_sim_tables _ _ Hsim) in Ht.
  assert (t ∈ src :: tables (walk level false user path (pt_mem s0) src indices)) as Hin.
  { apply elem_of_cons in Ht as [->|Ht]; [left|right]. by eapply walk_slots_subset. }
  destruct (cp_src _ _ _ _ _ _ Hpre t Hin) as [Hd Hf]. intros [->|Hw]; [done|].
  destruct (slot_tables_free _ _ _ _ _ _ Hinv Hs Hw). congruence.
Qed.

Lemma copy_step idxs s s' i ws :
  copy_inv level user path src dst copying s0 idxs s -> i ∈ indices -> (forall j, j ∈ idxs -> j ∈ indices) -> i ∉ idxs ->
  slot_copied s s' i ws -> copy_inv level user path src dst copying s0 (idxs ++ [i]) s'.
Proof.
  intros Hinv Hi Hidx Hni Hs. pose proof (copied_walk_kept _ _ _ _ _ Hinv Hi Hni Hs) as Hw.
  pose proof (source_protected_kept _ _ _ _ _ Hinv Hi Hidx Hni Hs) as Hprot.
  pose proof (fun t => slot_tables_free _ _ _ _ _ t Hinv Hs) as Hfree0.
  split; rewrite ?(walk_snoc level true), ?Hw, ?(sc_walk _ _ _ _ Hs), ?tables_app, ?user_pages_app, ?leaves_app.
  - rewrite (sc_len _ _ _ _ Hs). by apply Hinv.
  - intros t [Ht|Ht]%elem_of_app; [by eapply ci_tables|by apply Hfree0].
  - apply NoDup_app. split; [by apply Hinv|]. split; [|by apply Hs]. intros t Ht Hin.
    apply (Hfree0 t Hin). apply list_elem_of_fmap. eauto.
  - intros p Hp. rewrite (sc_free _ _ _ _ Hs), (ci_free _ _ _ _ _ _ _ _ _ Hinv), pages_app by done.
    rewrite <- andb_assoc, <- negb_orb, <- bool_decide_or. f_equal. f_equal. apply bool_decide_ext. by rewrite elem_of_app.
  - intros p Hp. rewrite (sc_refs _ _ _ _ Hs), (ci_refs _ _ _ _ _ _ _ _ _ Hinv), occurrences_app by done.
    destruct (zget _ p); cbn; [|done]. f_equal. lia.
  - rewrite walk_snoc, leaves_app. apply Forall2_app; [by apply Hinv|by apply Hs].
  - intros t j Hn. unfold in_copy in Hn. rewrite tables_app, elem_of_app in Hn.
    etrans; [apply (ci_same _ _ _ _ _ _ _ _ _ Hinv); unfold in_copy; tauto|apply (sc_same _ _ _ _ Hs); unfold in_copy; tauto].
  - intros t Hn Hsrc. unfold in_copy in Hn. rewrite tables_app, elem_of_app in Hn.
    rewrite walk_snoc, tables_app, elem_of_cons, elem_of_app in Hsrc.
    rewrite (sc_frame _ _ _ _ Hs), (ci_frame _ _ _ _ _ _ _ _ _ Hinv);
      [done|unfold in_copy; tauto|rewrite elem_of_cons; tauto|unfold in_copy; tauto|rewrite elem_of_cons; tauto].
  - intros j Hj. rewrite elem_of_app, list_elem_of_singleton in Hj.
    rewrite (sc_rest _ _ _ _ Hs) by tauto. apply (ci_rest _ _ _ _ _ _ _ _ _ Hinv). tauto.
  - by apply Hs.
  - intros Hc l. rewrite walk_snoc, leaves_app. intros [Hl|Hl]%elem_of_app; [by apply Hprot|by eapply (sc_protected _ _ _ _ Hs)].
  - rewrite (sc_warn _ _ _ _ Hs). by apply Hinv.
Qed.
End CopyStep.

Lemma incref_counts pm q pm' :
  incref pm q = Done pm' ->
  pm_words pm' = pm_words pm /\
  forall p, 0 <= p -> zget (pm_refs pm') p = (fun n => n + occurrences p [q]) <$> zget (pm_refs pm) p.
Proof.
  unfold incref. destruct (idx (pm_refs pm) q) as [n| |] eqn:Ei; cbn; try done. unfold add_ovf.
  destruct (n + 1 <? 2 ^ 8); cbn; [|done]. apply idx_Done in Ei as [Hq Hn].
  unfold set_idx. case_bool_decide as Hr; [|done]. cbn. intros [= <-]. cbn. split; [done|].
  intros p Hp. unfold zget. rewrite bool_decide_true by done. unfold occurrences.
  destruct (decide (p = q)) as [->|Hne].
  - rewrite list_lookup_insert_eq by (unfold llen in Hr; lia). rewrite Hn. cbn.
    by rewrite decide_True by done.
  - rewrite list_lookup_insert_ne by lia. cbn. rewrite decide_False by done. cbn.
    destruct (pm_refs pm !! Z.to_nat p); cbn; [|done]. f_equal. lia.
Qed.

Lemma incref_one pm q n :
  zget (pm_refs pm) q = Some n -> 0 <= n < 255 ->
  exists pm', incref pm q = Done pm' /\
    forall p, 0 <= p -> zget (pm_refs pm') p = (fun n => n + occurrences p [q]) <$> zget (pm_refs pm) p.
Proof.
  intros Hq Hn. pose proof (incref_counts pm q) as Hc. rewrite (incref_spec _ _ _ Hq) in * by lia.
  rewrite (proj2 (Z.eqb_neq _ _)), (proj2 (Z.ltb_lt _ _)) in * by lia.
  eexists. split; [done|]. by apply Hc.
Qed.

Lemma free_words pm pm' p : pm_words pm' = pm_words pm -> free pm' p = free pm p.
Proof. unfold free. by intros ->. Qed.

Lemma leaf_copied_make copying l fl :
  same_flags (lf_flags l) fl ->
  leaf_copied copying l (mk_leaf (lf_path l) (lf_addr l)
    (insert_flag (if copying && lf_user l then remove_flag fl WRITABLE else fl) USER_ACCESSIBLE) (lf_user l)).
Proof.
  intros Hf. split; [done|]. split; [done|]. split; [done|]. cbn [lf_flags lf_user]. eexists.
  split; [|split; [reflexivity|]].
  - destruct (_ && _); [|done]. etrans; [exact Hf|by right].
  - intros ->. destruct Hf as [->| ->]; [done|apply remove_twice].
Qed.

Section CopySteps.
Context (level : nat) (user : bool) (path : list nat) (src dst : Z) (copying : bool) (s0 : Pt).
Context (Hpre : copy_pre level user path src dst s0).

(** The slot of a page: [m1] is memory with the source entry protected. *)
Lemma copy_leaf_slot idxs s s' i m1 pm1 fl :
  copy_inv level user path src dst copying s0 idxs s -> i ∈ indices ->
  entry_kind level (entry_at (pt_mem s0) src i) = Leaf ->
  (forall t, t <> src -> m1 !! t = pt_mem s !! t) ->
  (forall j, same_entry (entry_at (pt_mem s) src j) (entry_at m1 src j)) ->
  (copying = true -> user = true -> has (pte_flags (entry_at m1 src i)) WRITABLE = false) ->
  fl = pte_flags (entry_at (pt_mem s) src i) ->
  pm_words pm1 = pm_words (pt_pm s) ->
  (forall p, 0 <= p -> zget (pm_refs pm1) p =
     (fun n => n + occurrences p (if user then [pte_addr (entry_at (pt_mem s) src i) / 4096] else [])) <$> zget (pm_refs (pt_pm s)) p) ->
  s' = mk_Pt (set_entry m1 dst i (pte_make (pte_addr (entry_at (pt_mem s) src i))
         (insert_flag (if copying && user then remove_flag fl WRITABLE else fl) USER_ACCESSIBLE))) pm1 (pt_warn s) ->
  exists ws, slot_copied level user path src dst copying s0 s s' i ws.
Proof.
  intros Hinv Hi Hk Hm1 Hsame Hprot -> Hwords Hrefs ->. set (e := entry_at (pt_mem s) src i) in *.
  pose proof (source_slot _ _ _ _ _ _ _ Hpre _ _ i Hinv) as He. fold e in He.
  assert (src <> dst) as Hsd by (apply (cp_src _ _ _ _ _ _ Hpre); left).
  set (fl := if copying && user then remove_flag (pte_flags e) WRITABLE else pte_flags e).
  assert (Z.land fl FLAG_BITS = fl) as Hbits.
  { unfold fl. destruct (_ && _); [apply remove_bits|]; apply pte_flags_bits. }
  pose proof (pte_addr_frame e) as Hfr. pose proof (insert_bits _ Hbits) as Hbits'.
  set (e' := pte_make (pte_addr e) (insert_flag fl USER_ACCESSIBLE)).
  assert (frame m1 dst = frame (pt_mem s) dst) as Hfd by (unfold frame; by rewrite Hm1).
  assert (i < length (frame m1 dst))%nat as Hlen.
  { rewrite Hfd, (ci_dst _ _ _ _ _ _ _ _ _ Hinv). by apply elem_of_indices. }
  assert (entry_kind level e' = Leaf) as Hk'.
  { rewrite <- (same_entry_kind _ _ He level) in Hk. revert Hk. unfold entry_kind, e'. rewrite pte_flags_make by done.
    rewrite !has_insert by done. unfold fl. destruct (_ && _); [|done]. by rewrite !has_remove. }
  eexists. split; cbn [pt_mem pt_pm pt_warn].
  - unfold pm_len. by rewrite Hwords.
  - rewrite walk_entry_leaf; rewrite entry_set_eq by done; [reflexivity|done].
  - intros j Hj. rewrite entry_set_ne by congruence. apply entry_of_lookup. by apply Hm1.
  - unfold set_entry. rewrite frame_insert_eq, length_insert, Hfd. by apply Hinv.
  - intros t Hn Ht. rewrite set_entry_lookup_ne by (intros ->; apply Hn; by left).
    apply Hm1. intros ->. apply Ht. left.
  - intros t j Hn. rewrite entry_set_ne by (intros [= -> ->]; apply Hn; by left).
    destruct (decide (t = src)) as [->|Ht]; [apply Hsame|]. rewrite (entry_of_lookup m1 (pt_mem s)); [reflexivity|by rewrite Hm1].
  - intros t Ht. by apply elem_of_nil in Ht.
  - constructor.
  - intros p Hp. rewrite bool_decide_false by apply not_elem_of_nil. rewrite andb_true_r. by apply free_words.
  - intros p Hp. rewrite Hrefs by done. destruct user; [|done]. unfold user_pages, leaves. cbn [omap list_omap].
    unfold e' at 1. rewrite pte_addr_make by done. done.
  - rewrite walk_entry_leaf by done. constructor; [|constructor]. destruct He as [Ha Hf].
    unfold e'. rewrite pte_addr_make, pte_flags_make, Ha by done. unfold fl.
    apply (leaf_copied_make copying (mk_leaf _ _ (pte_flags (entry_at (pt_mem s0) src i)) user)). done.
  - intros Hc l. rewrite walk_entry_leaf.
    + rewrite entry_set_ne by congruence. intros ->%list_elem_of_singleton. cbn. by apply Hprot.
    + rewrite entry_set_ne by congruence. rewrite (same_entry_kind _ _ (Hsame i)). by rewrite (same_entry_kind _ _ He).
  - done.
Qed.
End CopySteps.

(** A frame handed out by the allocator. *)
Record fresh_frame (pm pm1 : PageMan) (a : Z) : Prop := {
  ff_frame : frame_address a;
  ff_free : free pm (a / 4096) = true;
  ff_page : forall p, 0 <= p -> free pm1 p = free pm p && negb (bool_decide (p = a / 4096));
  ff_len : pm_len pm1 = pm_len pm;
  ff_refs : pm_refs pm1 = pm_refs pm;
}.

Lemma alloc_page_fresh s s1 a :
  pm_wf (pt_pm s) -> alloc_page s = Done (s1, a) ->
  fresh_frame (pt_pm s) (pt_pm s1) a /\ pt_mem s1 = pt_mem s /\ pt_warn s1 = pt_warn s.
Proof.
  intros Hwf. unfold alloc_page. destruct (alloc_page_spec _ Hwf) as (pm1 & [a'|] & -> & Hr); cbn; [|done].
  intros [= <- <-]. cbn. split; [|done].
  destruct Hr as (q & -> & Hq & Hf & _ & Hf' & [Hlen Hrefs Hsame]). unfold PAGE_SIZE, pm_wf in *.
  assert (q * 4096 / 4096 = q) as Hdiv by (apply Z.div_mul; lia).
  split; rewrite ?Hdiv; try done.
  - split; [apply Z.mod_mul; lia|]. change (2 ^ 52) with (2 ^ 40 * 4096). lia.
  - intros p Hp. destruct (decide (p = q)) as [->|Hne].
    + rewrite bool_decide_true by done. by rewrite andb_false_r.
    + rewrite bool_decide_false by done. rewrite andb_true_r. by apply Hsame.
Qed.

Section CopyTables.
Context (l : nat) (user : bool) (path : list nat) (src dst : Z) (copying : bool) (s0 : Pt).
Context (Hpre : copy_pre (S l) user path src dst s0).
Context (idxs : list nat) (s s1 : Pt) (i : nat) (new : Z) (fl : Z).
Let b := pte_addr (entry_at (pt_mem s) src i).
Let user' := child_user (S l) user i.
Let path' := path ++ [i].
Context (Hinv : copy_inv (S l) user path src dst copying s0 idxs s) (Hi : i ∈ indices) (Hni : i ∉ idxs).
Context (Hk : entry_kind (S l) (entry_at (pt_mem s0) src i) = Table).
Context (Hlow : b <= 2 ^ 32).
Context (Hnew : fresh_frame (pt_pm s) (pt_pm s1) new).
Context (Hmem : pt_mem s1 = set_entry (pt_mem s) dst i (pte_make new (insert_flag (pte_flags (entry_at (pt_mem s) src i)) USER_ACCESSIBLE))).
Context (Hwarn : pt_warn s1 = pt_warn s).

Lemma table_source_walk :
  walk_entry (S l) false user path (pt_mem s0) src i = walk l false user' path' (pt_mem s0) b indices ++ [VTable b] /\
  b = pte_addr (entry_at (pt_mem s0) src i).
Proof.
  pose proof (source_slot _ _ _ _ _ _ _ Hpre _ _ i Hinv) as [Ha _]. unfold b in *. rewrite Ha in *.
  split; [|done]. apply walk_entry_table; auto.
Qed.

Lemma table_source_frames t :
  t ∈ b :: tables (walk l false user' path' (pt_mem s0) b indices) ->
  t ∈ src :: tables (walk (S l) false user path (pt_mem s0) src indices) /\ t <> dst /\
  free (pt_pm s0) (t / 4096) = false /\ (forall j, same_entry (entry_at (pt_mem s0) t j) (entry_at (pt_mem s1) t j)).
Proof.
  intros Ht. destruct table_source_walk as [Hw _].
  assert (t ∈ src :: tables (walk (S l) false user path (pt_mem s0) src indices)) as Hin.
  { right. apply (walk_slot_subset _ _ _ _ _ _ i); [done|]. rewrite Hw. apply elem_of_tables_snoc.
    apply elem_of_cons in Ht as [->|Ht]; [by right|by left]. }
  destruct (cp_src _ _ _ _ _ _ Hpre t Hin) as [Hd Hf]. split; [done|]. split; [done|]. split; [done|].
  intros j. rewrite Hmem, entry_set_ne by congruence.
  apply (ci_same _ _ _ _ _ _ _ _ _ Hinv). eapply source_outside; done.
Qed.

Lemma table_child_walk :
  Forall2 visit_sim (walk l false user' path' (pt_mem s0) b indices) (walk l false user' path' (pt_mem s1) b indices).
Proof. apply walk_sim. intros t j Ht. by apply table_source_frames. Qed.

Lemma not_free_kept t : frame_address t -> free (pt_pm s0) (t / 4096) = false -> free (pt_pm s1) (t / 4096) = false /\ t <> new.
Proof.
  intros [_ [??]] Hf. assert (0 <= t / 4096) as Hnn by (apply Z.div_pos; lia).
  assert (free (pt_pm s) (t / 4096) = false) as Hs by (by rewrite (ci_free _ _ _ _ _ _ _ _ _ Hinv), Hf).
  split; [by rewrite (ff_page _ _ _ Hnew), Hs|]. intros ->. rewrite (ff_free _ _ _ Hnew) in Hs. done.
Qed.

Lemma table_child_pre : copy_pre l user' path' b new s1.
Proof.
  split.
  - pose proof (cp_wf _ _ _ _ _ _ Hpre). unfold pm_wf in *. by rewrite (ff_len _ _ _ Hnew), (ci_len _ _ _ _ _ _ _ _ _ Hinv).
  - pose proof (ff_frame _ _ _ Hnew) as [? [??]]. split; [by split|].
    rewrite (ff_page _ _ _ Hnew) by (apply Z.div_pos; lia). by rewrite bool_decide_true, andb_false_r.
  - intros t Ht. rewrite (visit_sim_tables _ _ table_child_walk) in Ht.
    destruct (table_source_frames t Ht) as (_ & _ & Hf & _). apply and_comm, not_free_kept; [|done].
    apply elem_of_cons in Ht as [->|Ht]; [apply pte_addr_frame|by eapply tables_frame_address].
Qed.

Context (s' : Pt) (Hchild : copy_inv l user' path' b new copying s1 indices s').
Let ws := walk l true user' path' (pt_mem s') new indices ++ [VTable new].

Lemma table_dst_kept : pt_mem s' !! dst = pt_mem s1 !! dst.
Proof.
  destruct (cp_dst _ _ _ _ _ _ Hpre) as [Hfr Hf]. destruct (not_free_kept dst Hfr Hf) as [Hf1 Hne].
  apply (ci_frame _ _ _ _ _ _ _ _ _ Hchild).
  - intros [?|Ht]; [done|]. by rewrite (ci_tables _ _ _ _ _ _ _ _ _ Hchild dst Ht) in Hf1.
  - rewrite (visit_sim_tables _ _ table_child_walk). intros Ht.
    by destruct (table_source_frames dst Ht) as (_ & Hd & _).
Qed.

Lemma table_walk_dst : walk_entry (S l) true user path (pt_mem s') dst i = ws.
Proof.
  pose proof (source_slot _ _ _ _ _ _ _ Hpre _ _ i Hinv) as He.
  assert (i < length (frame (pt_mem s) dst))%nat as Hlen.
  { rewrite (ci_dst _ _ _ _ _ _ _ _ _ Hinv). by apply elem_of_indices. }
  pose proof (insert_bits _ (pte_flags_bits (entry_at (pt_mem s) src i))) as Hbits.
  assert (entry_at (pt_mem s') dst i = pte_make new (insert_flag (pte_flags (entry_at (pt_mem s) src i)) USER_ACCESSIBLE)) as Hent.
  { rewrite (entry_of_lookup _ _ _ _ table_dst_kept), Hmem. by apply entry_set_eq. }
  rewrite walk_entry_table; [| |done]; rewrite Hent.
  - rewrite pte_addr_make by (done || apply Hnew). done.
  - rewrite <- (same_entry_kind _ _ He (S l)) in Hk. revert Hk. unfold entry_kind.
    rewrite pte_flags_make by (done || apply Hnew). by rewrite !has_insert.
Qed.

Lemma table_fresh t : t ∈ tables ws -> frame_address t /\ free (pt_pm s) (t / 4096) = true.
Proof.
  intros [Ht| ->]%elem_of_tables_snoc; [|split; apply Hnew].
  pose proof (tables_frame_address _ _ _ _ _ _ _ _ Ht) as Hfr. split; [done|].
  pose proof (ci_tables _ _ _ _ _ _ _ _ _ Hchild t Ht) as Hf. destruct Hfr as [_ [??]].
  rewrite (ff_page _ _ _ Hnew) in Hf by (apply Z.div_pos; lia). by apply andb_true_iff in Hf as [? _].
Qed.

Lemma table_in_copy t : ~ in_copy t dst ws -> t <> dst /\ ~ in_copy t new (walk l true user' path' (pt_mem s') new indices).
Proof. unfold in_copy, ws. rewrite elem_of_tables_snoc. tauto. Qed.

Lemma table_new_unused : new ∉ tables (walk l true user' path' (pt_mem s') new indices).
Proof.
  intros Hin. pose proof (ci_tables _ _ _ _ _ _ _ _ _ Hchild new Hin) as Hf.
  pose proof (ff_frame _ _ _ Hnew) as [_ [??]]. rewrite (ff_page _ _ _ Hnew) in Hf by (apply Z.div_pos; lia).
  by rewrite bool_decide_true, andb_false_r in Hf.
Qed.

Lemma table_leaves :
  Forall2 (leaf_copied copying) (leaves (walk_entry (S l) false user path (pt_mem s0) src i)) (leaves ws).
Proof.
  destruct table_source_walk as [-> _]. unfold ws. rewrite !leaves_app. apply Forall2_app; [|constructor].
  pose proof (visit_sim_leaves _ _ table_child_walk) as Hsim. pose proof (ci_leaves _ _ _ _ _ _ _ _ _ Hchild) as Hc.
  revert Hc. generalize (leaves (walk l true user' path' (pt_mem s') new indices)).
  induction Hsim as [|a a' la la' Ha _ IH]; intros lb Hc; [by inversion Hc|].
  inversion Hc as [|x y xs ys Hx Hxs]; subst. constructor; [|by apply IH].
  destruct Ha as (H1 & H2 & H3 & H4), Hx as (G1 & G2 & G3 & f & G4 & G5 & G6).
  split; [congruence|]. split; [congruence|]. split; [congruence|]. exists f. split; [by etrans|]. split; [done|].
  intros Hcu. rewrite G6 by (by rewrite H3). destruct H4 as [->| ->]; [done|apply remove_twice].
Qed.

Lemma copy_table_slot : slot_copied (S l) user path src dst copying s0 s s' i ws.
Proof.
  split.
  - rewrite (ci_len _ _ _ _ _ _ _ _ _ Hchild). apply Hnew.
  - apply table_walk_dst.
  - intros j Hj. rewrite (entry_of_lookup _ _ _ _ table_dst_kept), Hmem. apply entry_set_ne. congruence.
  - unfold frame. rewrite table_dst_kept, Hmem. unfold set_entry. rewrite lookup_insert_eq. cbn.
    rewrite length_insert. by apply Hinv.
  - intros t Hn Ht. destruct (table_in_copy t Hn) as [Hd Hn'].
    rewrite (ci_frame _ _ _ _ _ _ _ _ _ Hchild); [by rewrite Hmem, set_entry_lookup_ne|done|].
    rewrite (visit_sim_tables _ _ table_child_walk). destruct table_source_walk as [Hw _]. rewrite Hw in Ht.
    rewrite elem_of_cons, elem_of_tables_snoc in Ht. rewrite elem_of_cons. tauto.
  - intros t j Hn. destruct (table_in_copy t Hn) as [Hd Hn'].
    etrans; [|by apply (ci_same _ _ _ _ _ _ _ _ _ Hchild)]. rewrite Hmem, entry_set_ne by congruence. reflexivity.
  - intros t Ht. by apply table_fresh.
  - unfold ws. rewrite tables_app. apply NoDup_app. split; [by apply Hchild|]. split; [|apply NoDup_singleton].
    intros t Ht ->%list_elem_of_singleton. by apply table_new_unused.
  - intros p Hp. rewrite (ci_free _ _ _ _ _ _ _ _ _ Hchild), (ff_page _ _ _ Hnew) by done.
    unfold ws. rewrite tables_app, pages_app. rewrite <- andb_assoc, <- negb_orb, <- bool_decide_or. f_equal. f_equal.
    apply bool_decide_ext. cbn. rewrite elem_of_app, list_elem_of_singleton. tauto.
  - intros p Hp. rewrite (ci_refs _ _ _ _ _ _ _ _ _ Hchild), (ff_refs _ _ _ Hnew) by done.
    unfold ws. rewrite user_pages_app, occurrences_app. destruct (zget _ p); [|done]. apply (f_equal Some).
    change (occurrences p (user_pages [VTable new])) with 0. lia.
  - apply table_leaves.
  - intros Hc lf.
    assert (~ in_copy src new (walk l true user' path' (pt_mem s') new indices)) as Hsrc.
    { apply table_in_copy. pose proof (fun Hs => cp_src _ _ _ _ _ _ Hpre src Hs) as Hs.
      destruct Hs as [Hd Hf]; [left|]. intros [?|Ht]; [done|]. destruct (table_fresh src Ht) as [[_ [??]] Hf'].
      rewrite (ci_free _ _ _ _ _ _ _ _ _ Hinv), Hf in Hf' by (apply Z.div_pos; lia). done. }
    assert (same_entry (entry_at (pt_mem s) src i) (entry_at (pt_mem s') src i)) as He.
    { etrans; [|by apply (ci_same _ _ _ _ _ _ _ _ _ Hchild)]. rewrite Hmem, entry_set_ne; [reflexivity|].
      intros [= Hsd]. by destruct (cp_src _ _ _ _ _ _ Hpre src ltac:(left)). }
    destruct He as [Ha Hf]. rewrite walk_entry_table.
    + rewrite Ha. fold b. rewrite leaves_app, app_nil_r. by apply (ci_protected _ _ _ _ _ _ _ _ _ Hchild).
    + rewrite (same_entry_kind _ _ (conj Ha Hf)). pose proof (source_slot _ _ _ _ _ _ _ Hpre _ _ i Hinv) as He0.
      by rewrite (same_entry_kind _ _ He0).
    + intros _. rewrite Ha. done.
  - rewrite (ci_warn _ _ _ _ _ _ _ _ _ Hchild). done.
Qed.
End CopyTables.

Lemma protect_entry m src i :
  entry_at (set_entry m src i (pte_make (pte_addr (entry_at m src i)) (remove_flag (pte_flags (entry_at m src i)) WRITABLE))) src i
  = pte_make (pte_addr (entry_at m src i)) (remove_flag (pte_flags (entry_at m src i)) WRITABLE) \/
  entry_at (set_entry m src i (pte_make (pte_addr (entry_at m src i)) (remove_flag (pte_flags (entry_at m src i)) WRITABLE))) src i
  = entry_at m src i /\ entry_at m src i = 0.
Proof.
  destruct (decide (i < length (frame m src))%nat) as [Hi|Hi]; [left; by apply entry_set_eq|right].
  assert (forall m', length (frame m' src) = length (frame m src) -> entry_at m' src i = 0) as Hz.
  { intros m' Hm. unfold entry_at. by rewrite lookup_ge_None_2 by lia. }
  split; [|by apply Hz]. rewrite (Hz m) by done. apply Hz. unfold set_entry. by rewrite frame_insert_eq, length_insert.
Qed.
Lemma protect_same_entry m src i :
  same_entry (entry_at m src i)
    (entry_at (set_entry m src i (pte_make (pte_addr (entry_at m src i)) (remove_flag (pte_flags (entry_at m src i)) WRITABLE))) src i).
Proof.
  destruct (protect_entry m src i) as [->|[-> _]]; [|reflexivity].
  pose proof (remove_bits _ (pte_flags_bits (entry_at m src i))). pose proof (pte_addr_frame (entry_at m src i)).
  split; [by apply pte_addr_make|right; by apply pte_flags_make].
Qed.
Lemma protect_not_writable m src i :
  has (pte_flags (entry_at (set_entry m src i (pte_make (pte_addr (entry_at m src i)) (remove_flag (pte_flags (entry_at m src i)) WRITABLE))) src i)) WRITABLE = false.
Proof.
  destruct (protect_entry m src i) as [->|[-> ->]]; [|by rewrite pte_flags_0].
  pose proof (remove_bits _ (pte_flags_bits (entry_at m src i))). pose proof (pte_addr_frame (entry_at m src i)).
  rewrite pte_flags_make by done. apply has_removed.
Qed.

Section CopyLoop.
Context (l : nat) (user : bool) (path : list nat) (src dst : Z) (copying : bool) (s0 : Pt).
Context (child : Z -> Z -> bool -> Pt -> outcome Pt).
Context (Hpre : copy_pre (S l) user path src dst s0).
Context (Hchild : l <> 0%nat -> forall b new user' path' s1 s', copy_pre l user' path' b new s1 ->
  child b new user' s1 = Done s' -> copy_inv l user' path' b new copying s1 indices s').

Lemma copy_leaf_entry idxs s s' i :
  copy_inv (S l) user path src dst copying s0 idxs s -> i ∈ indices ->
  entry_kind (S l) (entry_at (pt_mem s0) src i) = Leaf ->
  copy_entry child (S l) src dst copying user s i = Done s' ->
  exists ws, slot_copied (S l) user path src dst copying s0 s s' i ws.
Proof.
  intros Hinv Hi Hk. pose proof (source_slot _ _ _ _ _ _ _ Hpre _ _ i Hinv) as He.
  pose proof Hk as Hk0. rewrite <- (same_entry_kind _ _ He (S l)) in Hk. unfold copy_entry.
  set (e := entry_at (pt_mem s) src i) in *. unfold entry_kind in Hk.
  destruct (negb _); [done|]. destruct (_ || _); [|done]. destruct user eqn:Eu.
  - unfold page_incref. destruct (incref (pt_pm s) (pte_addr e / 4096)) as [pm1| |] eqn:Einc; cbn [mbind outcome_bind]; [|done..].
    destruct (incref_counts _ _ _ Einc) as [Hwords Hrefs]. destruct copying eqn:Ec; cbn [mbind outcome_bind]; intros [= <-].
    + eapply (copy_leaf_slot (S l) true path src dst true s0 Hpre idxs s _ i
        (set_entry (pt_mem s) src i (pte_make (pte_addr e) (remove_flag (pte_flags e) WRITABLE))) pm1 (pte_flags e)); try done.
      * intros t Ht. by apply set_entry_lookup_ne.
      * intros j. destruct (decide (j = i)) as [->|Hj]; [|rewrite entry_set_ne by congruence; reflexivity].
        apply protect_same_entry.
      * intros _ _. by apply protect_not_writable.
    + eapply (copy_leaf_slot (S l) true path src dst false s0 Hpre idxs s _ i (pt_mem s) pm1 (pte_flags e)); try done.
  - cbn [mbind outcome_bind]. intros [= <-].
    eapply (copy_leaf_slot (S l) false path src dst copying s0 Hpre idxs s _ i (pt_mem s) (pt_pm s) (pte_flags e)); try done.
    + intros p Hp. change (occurrences p []) with 0. destruct (zget _ p); cbn; [|done]. f_equal. lia.
    + rewrite andb_false_r. done.
Qed.

Lemma copy_table_entry idxs s s' i :
  copy_inv (S l) user path src dst copying s0 idxs s -> i ∈ indices -> i ∉ idxs ->
  entry_kind (S l) (entry_at (pt_mem s0) src i) = Table -> pte_addr (entry_at (pt_mem s0) src i) <= 2 ^ 32 ->
  copy_entry child (S l) src dst copying user s i = Done s' ->
  exists ws, slot_copied (S l) user path src dst copying s0 s s' i ws.
Proof.
  intros Hinv Hi Hni Hk Hlow. pose proof (source_slot _ _ _ _ _ _ _ Hpre _ _ i Hinv) as He.
  pose proof Hk as Hk0. rewrite <- (same_entry_kind _ _ He (S l)) in Hk. destruct He as [Ha _]. rewrite <- Ha in Hlow.
  unfold copy_entry. set (e := entry_at (pt_mem s) src i) in *.
  assert (l <> 0%nat) as Hl.
  { intros ->. unfold entry_kind in Hk. destruct (negb _); [done|]. by rewrite bool_decide_true in Hk. }
  unfold entry_kind in Hk. destruct (negb _); [done|]. destruct (_ || _); [done|].
  change (Z.shiftl 1 32) with (2 ^ 32). rewrite (proj2 (Z.ltb_ge _ _)) by done.
  destruct (alloc_page s) as [[s1 new]| |] eqn:Ea; cbn [mbind outcome_bind]; [|done..].
  assert (pm_wf (pt_pm s)) as Hwf.
  { pose proof (cp_wf _ _ _ _ _ _ Hpre). unfold pm_wf in *. by rewrite (ci_len _ _ _ _ _ _ _ _ _ Hinv). }
  destruct (alloc_page_fresh _ _ _ Hwf Ea) as (Hnew & Hm & Hw). intros Hc.
  set (s2 := set_mem s1 _) in Hc. assert (pt_mem s2 = set_entry (pt_mem s) dst i (pte_make new (insert_flag (pte_flags e) USER_ACCESSIBLE))) as Hmem.
  { unfold s2. cbn [set_mem pt_mem]. by rewrite Hm. }
  eexists. eapply (copy_table_slot l user path src dst copying s0 Hpre idxs s s2 i new); try done.
  eapply (Hchild Hl); [|exact Hc]. by eapply (table_child_pre l user path src dst copying s0 Hpre idxs s s2 i new).
Qed.

Lemma copy_entry_step idxs s s' i :
  copy_inv (S l) user path src dst copying s0 idxs s -> i ∈ indices -> (forall j, j ∈ idxs -> j ∈ indices) -> i ∉ idxs ->
  copy_entry child (S l) src dst copying user s i = Done s' ->
  copy_inv (S l) user path src dst copying s0 (idxs ++ [i]) s'.
Proof.
  intros Hinv Hi Hidx Hni Hc. destruct (entry_kind (S l) (entry_at (pt_mem s0) src i)) eqn:Hk.
  - assert (s' = s) as ->.
    { revert Hc. rewrite <- (same_entry_kind _ _ (source_slot _ _ _ _ _ _ _ Hpre _ _ i Hinv)) in Hk.
      unfold copy_entry, entry_kind in *. destruct (negb _); [by intros [= ->]|by destruct (_ || _)]. }
    apply copy_step_skip; try done. by apply walk_entry_absent.
  - destruct (copy_leaf_entry idxs s s' i) as [ws Hws]; [done..|]. by eapply copy_step.
  - destruct (Z.le_gt_cases (pte_addr (entry_at (pt_mem s0) src i)) (2 ^ 32)) as [Hlow|Hhigh].
    + destruct (copy_table_entry idxs s s' i) as [ws Hws]; [done..|]. by eapply copy_step.
    + assert (s' = s) as ->.
      { revert Hc. pose proof (source_slot _ _ _ _ _ _ _ Hpre _ _ i Hinv) as He.
        rewrite <- (same_entry_kind _ _ He) in Hk. destruct He as [Ha _]. rewrite <- Ha in Hhigh.
        unfold copy_entry, entry_kind in *. destruct (negb _); [done|]. destruct (_ || _); [done|].
        change (Z.shiftl 1 32) with (2 ^ 32). rewrite (proj2 (Z.ltb_lt _ _)) by done. by intros [= ->]. }
      apply copy_step_skip; try done. cbn [walk_entry]. rewrite Hk. change (Z.shiftl 1 32) with (2 ^ 32).
      by rewrite (proj2 (Z.ltb_lt _ _)).
Qed.

Lemma copy_loop s' :
  fold_outcome (copy_entry child (S l) src dst copying user) indices (set_mem s0 (<[dst := zero_frame]> (pt_mem s0))) = Done s' ->
  copy_inv (S l) user path src dst copying s0 indices s'.
Proof.
  intros Hf. pattern indices, s'. eapply fold_outcome_inv; [exact Hf|by apply copy_inv_start|].
  intros idxs i s1 s2 [todo Htodo] Hinv Hc. pose proof indices_NoDup as Hnd. rewrite Htodo in Hnd.
  apply NoDup_app in Hnd as (_ & Hnd & _). eapply copy_entry_step; try done; rewrite ?Htodo.
  - apply elem_of_app. right. left.
  - intros j Hj. apply elem_of_app. by left.
  - intros Hin. by apply (Hnd i Hin); left.
Qed.
End CopyLoop.

(** [r_copy] on a tree of reserved frames. *)
Lemma r_copy_spec l user path src dst copying s0 s' :
  copy_pre (S l) user path src dst s0 ->
  r_copy (S l) src dst copying user s0 = Done s' ->
  copy_inv (S l) user path src dst copying s0 indices s'.
Proof.
  revert user path src dst s0 s'. induction l as [|l IH]; intros user path src dst s0 s' Hpre Hc.
  - eapply copy_loop; [done|done|exact Hc].
  - eapply (copy_loop _ _ _ _ _ _ _ (fun b new u s => r_copy (S l) b new copying u s)); [done| |exact Hc].
    intros _ b new user' path' s1 s2 Hp Hr. by apply IH.
Qed.

(** ** Releasing what was visited *)

Definition releasable (vs : list visit) (pm : PageMan) : Prop :=
  NoDup (tables vs) /\
  (forall t, t ∈ tables vs -> frame_address t /\ t / 4096 < pm_len pm /\ free pm (t / 4096) = false) /\
  (forall p, p ∈ user_pages vs -> exists n, zget (pm_refs pm) p = Some n /\ occurrences p (user_pages vs) < n).

Lemma decref_counts pm q n :
  zget (pm_refs pm) q = Some n -> 1 < n ->
  exists pm', decref pm q = Done pm' /\ getref pm' q = Done (n - 1) /\ pm_words pm' = pm_words pm /\
    forall p, 0 <= p -> zget (pm_refs pm') p = (fun n => n - occurrences p [q]) <$> zget (pm_refs pm) p.
Proof.
  intros Hq Hn. pose proof Hq as Hz. rewrite (decref_spec _ _ _ Hq), (proj2 (Z.leb_le _ _)) by lia. eexists. split; [reflexivity|].
  unfold zget in Hz. case_bool_decide as H0q; [|done]. pose proof (lookup_lt_Some _ _ _ Hz) as Hlt. cbn [pm_refs].
  split; [|split; [done|]].
  - unfold getref. apply idx_Done. cbn. by rewrite list_lookup_insert_eq.
  - intros p Hp. unfold zget. rewrite bool_decide_true by done. unfold occurrences.
    destruct (decide (p = q)) as [->|Hne].
    + rewrite list_lookup_insert_eq, Hz by done. cbn. by rewrite decide_True by done.
    + rewrite list_lookup_insert_ne by lia. cbn. rewrite decide_False by done. cbn.
      destruct (pm_refs pm !! Z.to_nat p); cbn; [|done]. f_equal. lia.
Qed.

(** The allocator after the visits [vs] have been released. *)
Record released (vs : list visit) (pm pm' : PageMan) : Prop := {
  rl_len : pm_len pm' = pm_len pm;
  rl_free : forall p, 0 <= p -> free pm' p = free pm p || bool_decide (p ∈ pages (tables vs));
  rl_refs : forall p, 0 <= p -> zget (pm_refs pm') p = (fun n => n - occurrences p (user_pages vs)) <$> zget (pm_refs pm) p;
}.

Lemma visit_cons v vs :
  tables (v :: vs) = tables [v] ++ tables vs /\ user_pages (v :: vs) = user_pages [v] ++ user_pages vs.
Proof. split; [apply (tables_app [v])|apply (user_pages_app [v])]. Qed.

Lemma user_pages_leaf lf : user_pages [VLeaf lf] = if lf_user lf then [lf_addr lf / 4096] else [].
Proof.
  unfold user_pages, leaves. cbn [omap list_omap]. rewrite filter_cons.
  destruct (lf_user lf) eqn:E; [by rewrite decide_True by done|by rewrite decide_False by congruence].
Qed.

Lemma occurrences_nonneg p ps : 0 <= occurrences p ps.
Proof. unfold occurrences. lia. Qed.
Lemma occurrences_one q : occurrences q [q] = 1.
Proof. unfold occurrences. cbn. by rewrite decide_True by done. Qed.

Lemma free_visit_one v vs pm w :
  releasable (v :: vs) pm -> exists pm1, free_visit (pm, w) v = Done (pm1, w) /\ released [v] pm pm1.
Proof.
  intros (Hnd & Ht & Hp). destruct (visit_cons v vs) as [Htv Huv]. rewrite Htv in Ht. rewrite Huv in Hp.
  destruct v as [lf|t]; cbn [free_visit].
  - rewrite user_pages_leaf in Hp. destruct (lf_user lf) eqn:Eu.
    2: { exists pm. split; [done|]. split; [done| |]; intros p _.
         - rewrite bool_decide_false by apply not_elem_of_nil. by rewrite orb_false_r.
         - rewrite user_pages_leaf, Eu. change (occurrences p []) with 0. destruct (zget _ p); [|done]. apply (f_equal Some). lia. }
    set (q := lf_addr lf / 4096) in *. destruct (Hp q) as (n & Hq & Hn); [left|].
    rewrite occurrences_app, occurrences_one in Hn. pose proof (occurrences_nonneg q (user_pages vs)).
    destruct (decref_counts pm q n Hq) as (pm1 & Hd & Hg & Hw1 & Hr1); [lia|].
    unfold page_decref. fold q. rewrite Hd. cbn [mbind outcome_bind]. unfold page_getref. fold q. rewrite Hg. cbn [mbind outcome_bind].
    rewrite (proj2 (Z.eqb_neq _ _)) by lia. exists pm1. split; [done|]. split.
    + unfold pm_len. by rewrite Hw1.
    + intros p _. rewrite bool_decide_false by apply not_elem_of_nil. rewrite orb_false_r. by apply free_words.
    + rewrite user_pages_leaf, Eu. apply Hr1.
  - destruct (Ht t) as ((Hmod & Hrng) & Hlt & Hf); [left|].
    assert (0 <= t / 4096) as Hnn by (apply Z.div_pos; lia).
    destruct (dealloc_page_spec pm (t / 4096)) as (pm1 & Hd & Hf1 & [Hl1 Hr1 Hs1]); [lia|].
    replace (t / 4096 * PAGE_SIZE) with t in Hd by (unfold PAGE_SIZE; pose proof (Z.div_mod t 4096); lia).
    rewrite Hd, Hf. cbn [mbind outcome_bind]. rewrite app_nil_r. exists pm1. split; [done|]. split; [done| |].
    + intros p Hp0. change (pages (tables [VTable t])) with [t / 4096]. destruct (decide (p = t / 4096)) as [->|Hne].
      * rewrite bool_decide_true by by apply list_elem_of_singleton. by rewrite Hf1, orb_true_r.
      * rewrite bool_decide_false by by rewrite list_elem_of_singleton. rewrite orb_false_r. apply Hs1; congruence.
    + intros p _. rewrite Hr1. change (occurrences p (user_pages [VTable t])) with 0.
      destruct (zget _ p); [|done]. apply (f_equal Some). lia.
Qed.

Lemma releasable_rest v vs pm pm1 : releasable (v :: vs) pm -> released [v] pm pm1 -> releasable vs pm1.
Proof.
  intros (Hnd & Ht & Hp) [Hl Hf Hr]. destruct (visit_cons v vs) as [Htv Huv]. rewrite Htv in Ht, Hnd. rewrite Huv in Hp.
  apply NoDup_app in Hnd as (_ & Hdis & Hnd). split; [done|]. split.
  - intros u Hin. destruct (Ht u) as (Hu & Hul & Huf); [apply elem_of_app; by right|]. split; [done|]. split; [lia|].
    rewrite Hf, Huf by (destruct Hu; apply Z.div_pos; lia). rewrite bool_decide_false; [done|].
    intros (t & Hpt & Hint)%list_elem_of_fmap. destruct (Ht t) as (Hfr & _); [apply elem_of_app; by left|].
    apply page_inj in Hpt as ->; [|done..]. by apply (Hdis t).
  - intros p Hin. destruct (Hp p) as (k & Hk & Hlt); [apply elem_of_app; by right|]. rewrite occurrences_app in Hlt.
    assert (0 <= p) by (unfold zget in Hk; case_bool_decide; done). rewrite Hr, Hk by done. eexists. split; [done|lia].
Qed.

Lemma free_visits vs : forall pm w,
  releasable vs pm -> exists pm', fold_outcome free_visit vs (pm, w) = Done (pm', w) /\ released vs pm pm'.
Proof.
  induction vs as [|v vs IH]; intros pm w Hrel.
  - exists pm. split; [done|]. split; [done| |]; intros p _.
    + rewrite bool_decide_false by apply not_elem_of_nil. by rewrite orb_false_r.
    + change (occurrences p _) with 0. destruct (zget _ p); [|done]. apply (f_equal Some). lia.
  - destruct (free_visit_one v vs pm w Hrel) as (pm1 & H1 & Hr1).
    destruct (IH pm1 w (releasable_rest _ _ _ _ Hrel Hr1)) as (pm2 & H2 & Hr2).
    exists pm2. cbn [fold_outcome]. rewrite H1. cbn [mbind outcome_bind]. split; [done|].
    destruct (visit_cons v vs) as [Htv Huv], Hr1 as [L1 F1 R1], Hr2 as [L2 F2 R2]. split.
    + lia.
    + intros p Hp. rewrite F2, F1, Htv, pages_app by done. rewrite <- orb_assoc, <- bool_decide_or. f_equal.
      apply bool_decide_ext. by rewrite elem_of_app.
    + intros p Hp. rewrite R2, R1, Huv, occurrences_app by done.
      destruct (zget _ p); [|done]. apply (f_equal Some). lia.
Qed.

(** ** Fork and exit *)

(** The address space rooted at [root] is a tree of reserved frames whose user
    pages are counted. *)
Record space_ok (root : Z) (s : Pt) : Prop := {
  so_wf : pm_wf (pt_pm s);
  so_frames : forall t, t ∈ root :: tables (walk 4 false false [] (pt_mem s) root indices) ->
    frame_address t /\ free (pt_pm s) (t / 4096) = false;
  so_pages : forall p, p ∈ user_pages (walk 4 false false [] (pt_mem s) root indices) ->
    exists n, zget (pm_refs (pt_pm s)) p = Some n /\ 1 <= n;
}.

Lemma leaves_copied_pages copying ls ls' :
  Forall2 (leaf_copied copying) ls ls' ->
  (fun l => lf_addr l / 4096) <$> filter (fun l => lf_user l = true) ls' = (fun l => lf_addr l / 4096) <$> filter (fun l => lf_user l = true) ls.
Proof.
  induction 1 as [|a b ls ls' (H1 & H2 & H3 & _) _ IH]; [done|]. rewrite !filter_cons, H3.
  destruct (decide _); [|done]. cbn. by rewrite H2, IH.
Qed.

Lemma copy_tables_spec root s s' dst :
  space_ok root s -> copy_tables root s = Done (s', dst) ->
  exists s1, fresh_frame (pt_pm s) (pt_pm s1) dst /\ pt_mem s1 = pt_mem s /\ pt_warn s1 = pt_warn s /\
    copy_inv 4 false [] root dst true s1 indices s'.
Proof.
  intros [Hwf Hfr Hpg]. unfold copy_tables. destruct (alloc_page s) as [[s1 a]| |] eqn:Ea; cbn [mbind outcome_bind]; [|done..].
  destruct (r_copy 4 root a true false s1) as [s2| |] eqn:Ec; cbn [mbind outcome_bind]; [|done..]. intros [= <- <-].
  destruct (alloc_page_fresh _ _ _ Hwf Ea) as (Hnew & Hm & Hw). exists s1. split; [done|]. split; [done|]. split; [done|].
  assert (forall t, frame_address t -> free (pt_pm s) (t / 4096) = false -> t <> a /\ free (pt_pm s1) (t / 4096) = false) as Hkept.
  { intros t [_ [??]] Hf. split; [intros ->; rewrite (ff_free _ _ _ Hnew) in Hf; done|].
    by rewrite (ff_page _ _ _ Hnew), Hf by (apply Z.div_pos; lia). }
  apply r_copy_spec; [|done]. split.
  - unfold pm_wf in *. by rewrite (ff_len _ _ _ Hnew).
  - pose proof (ff_frame _ _ _ Hnew) as [? [??]]. split; [by split|].
    rewrite (ff_page _ _ _ Hnew) by (apply Z.div_pos; lia). by rewrite bool_decide_true, andb_false_r.
  - intros t Ht. rewrite Hm in Ht. destruct (Hfr t Ht). by apply Hkept.
Qed.

Section ForkFacts.
Context (root dst : Z) (s s1 s' : Pt).
Context (Hok : space_ok root s) (Hnew : fresh_frame (pt_pm s) (pt_pm s1) dst) (Hm : pt_mem s1 = pt_mem s).
Context (Hinv : copy_inv 4 false [] root dst true s1 indices s').

Lemma copied_fresh t :
  t ∈ tables (walk 4 true false [] (pt_mem s') dst indices) -> free (pt_pm s) (t / 4096) = true /\ t <> dst.
Proof using Hnew Hinv.
  intros Ht. pose proof (ci_tables _ _ _ _ _ _ _ _ _ Hinv t Ht) as Hf.
  pose proof (tables_frame_address _ _ _ _ _ _ _ _ Ht) as [? [??]].
  rewrite (ff_page _ _ _ Hnew) in Hf by (apply Z.div_pos; lia).
  apply andb_true_iff in Hf as [? Hf%negb_true_iff%bool_decide_eq_false_1]. split; [done|]. by intros ->.
Qed.

Lemma child_releasable :
  releasable (walk 4 true false [] (pt_mem s') dst indices ++ [VTable dst]) (pt_pm s').
Proof using Hok Hnew Hm Hinv.
  pose proof (ci_leaves _ _ _ _ _ _ _ _ _ Hinv) as Hl. rewrite Hm in Hl. apply leaves_copied_pages in Hl.
  split; [|split].
  - rewrite tables_app. apply NoDup_app. split; [by apply Hinv|]. split; [|apply NoDup_singleton].
    intros t Ht ->%list_elem_of_singleton. by destruct (copied_fresh dst Ht).
  - intros t Ht. assert (frame_address t /\ free (pt_pm s) (t / 4096) = true) as [Hfr Hf0].
    { apply elem_of_tables_snoc in Ht as [Ht| ->]; [|split; apply Hnew].
      split; [by eapply tables_frame_address|by apply copied_fresh]. }
    split; [done|]. destruct Hfr as [? [??]]. assert (0 <= t / 4096) as Hnn by (apply Z.div_pos; lia).
    rewrite (ci_len _ _ _ _ _ _ _ _ _ Hinv), (ff_len _ _ _ Hnew). split; [by apply free_range|].
    rewrite (ci_free _ _ _ _ _ _ _ _ _ Hinv), (ff_page _ _ _ Hnew) by done.
    apply elem_of_tables_snoc in Ht as [Ht| ->].
    + rewrite (bool_decide_true (_ ∈ _)) by (apply list_elem_of_fmap; eauto). apply andb_false_r.
    + by rewrite (bool_decide_true (_ = _)), andb_false_r.
  - intros p Hp. rewrite user_pages_snoc in *.
    assert (p ∈ user_pages (walk 4 false false [] (pt_mem s) root indices)) as Hp0.
    { unfold user_pages in *. by rewrite <- Hl. }
    destruct (so_pages _ _ Hok p Hp0) as (n & Hn & Hge). exists (n + occurrences p (user_pages (walk 4 true false [] (pt_mem s') dst indices))).
    split; [|lia]. assert (0 <= p) by (unfold zget in Hn; case_bool_decide; done).
    by rewrite (ci_refs _ _ _ _ _ _ _ _ _ Hinv), (ff_refs _ _ _ Hnew), Hn.
Qed.

Lemma free_restored p :
  0 <= p -> 
  (free (pt_pm s) p && negb (bool_decide (p = dst / 4096)) &&
     negb (bool_decide (p ∈ pages (tables (walk 4 true false [] (pt_mem s') dst indices)))))
  || bool_decide (p ∈ pages (tables (walk 4 true false [] (pt_mem s') dst indices)) ++ pages (tables [VTable dst]))
  = free (pt_pm s) p.
Proof using Hnew Hinv.
  intros Hp. rewrite (bool_decide_ext (p ∈ _ ++ _) (p ∈ pages (tables (walk 4 true false [] (pt_mem s') dst indices)) \/ p = dst / 4096)).
  2: { rewrite elem_of_app. change (pages (tables [VTable dst])) with [dst / 4096]. by rewrite list_elem_of_singleton. }
  destruct (decide (p = dst / 4096)) as [->|Hd].
  { rewrite (bool_decide_true (_ \/ _)) by auto. rewrite orb_true_r. symmetry. apply Hnew. }
  rewrite (bool_decide_false (p = _)), andb_true_r by done.
  destruct (decide (p ∈ pages (tables (walk 4 true false [] (pt_mem s') dst indices)))) as [Hin|Hin].
  - rewrite (bool_decide_true (_ \/ _)) by auto. rewrite orb_true_r. symmetry.
    apply list_elem_of_fmap in Hin as (t & -> & Ht). by apply copied_fresh.
  - rewrite !bool_decide_false by tauto. by rewrite andb_true_r, orb_false_r.
Qed.
End ForkFacts.

(** C6: After fork, the child's tables (fresh, distinct frames) map the same
    frames at the same indices as the parent's, as far as the parent's page tables
    lie at or below 4 GiB: a table above that is dropped with everything under it
    (the code prints a warning), so with all of them below, the whole address space
    is copied.  Every copied mapping is accessible to user code and, in the user
    half, read-only on both sides; each user page has gained one reference per
    mapping; no other frame of memory has changed. *)
Theorem fork_copies_address_space (root dst : Z) (s s' : Pt) :
  space_ok root s -> copy_tables root s = Done (s', dst) ->
  let parent := walk 4 false false [] (pt_mem s) root indices in
  let child := walk 4 true false [] (pt_mem s') dst indices in
  ((forall t, t ∈ tables (walk 4 true false [] (pt_mem s) root indices) -> t <= 2 ^ 32) ->
     parent = walk 4 true false [] (pt_mem s) root indices) /\
  Forall2 (fun l l' => lf_path l' = lf_path l /\ lf_addr l' = lf_addr l /\ lf_user l' = lf_user l /\
      has (lf_flags l') USER_ACCESSIBLE = true /\ (lf_user l' = true -> has (lf_flags l') WRITABLE = false))
    (leaves parent) (leaves child) /\
  (forall l, l ∈ leaves (walk 4 false false [] (pt_mem s') root indices) ->
     lf_user l = true -> has (lf_flags l) WRITABLE = false) /\
  NoDup (dst :: tables child) /\ (forall t, t ∈ dst :: tables child -> free (pt_pm s) (t / 4096) = true /\ free (pt_pm s') (t / 4096) = false) /\
  (forall p, 0 <= p -> zget (pm_refs (pt_pm s')) p =
     (fun n => n + occurrences p (user_pages parent)) <$> zget (pm_refs (pt_pm s)) p) /\
  (forall t, t ∉ dst :: tables child -> t ∉ root :: tables parent -> pt_mem s' !! t = pt_mem s !! t).
Proof.
  intros Hok Hc. destruct (copy_tables_spec _ _ _ _ Hok Hc) as (s1 & Hnew & Hm & _ & Hinv). cbn zeta.
  pose proof (ci_leaves _ _ _ _ _ _ _ _ _ Hinv) as Hl. rewrite Hm in Hl. split; [by apply walk_low|].
  split; [|split; [|split; [|split; [|split]]]].
  - eapply Forall2_impl; [exact Hl|]. intros l l' (H1 & H2 & H3 & f & H4 & H5 & H6).
    split; [done|]. split; [done|]. split; [done|]. rewrite H5. split; [apply has_inserted|].
    intros Hu. rewrite H3 in Hu. rewrite (H6 Hu), has_insert by done. apply has_removed.
  - by apply (ci_protected _ _ _ _ _ _ _ _ _ Hinv).
  - constructor; [|by apply Hinv]. intros Hin. eapply copied_fresh in Hin as [_ ?]; done.
  - intros t [->|Ht]%elem_of_cons.
    + split; [apply Hnew|]. pose proof (ff_frame _ _ _ Hnew) as [? [??]].
      rewrite (ci_free _ _ _ _ _ _ _ _ _ Hinv), (ff_page _ _ _ Hnew) by (apply Z.div_pos; lia). by rewrite bool_decide_true, andb_false_r.
    + pose proof (tables_frame_address _ _ _ _ _ _ _ _ Ht) as [? [??]].
      split; [by eapply copied_fresh|]. rewrite (ci_free _ _ _ _ _ _ _ _ _ Hinv) by (apply Z.div_pos; lia).
      rewrite (bool_decide_true (_ ∈ _)) by (apply list_elem_of_fmap; eauto). apply andb_false_r.
  - intros p Hp. rewrite (ci_refs _ _ _ _ _ _ _ _ _ Hinv), (ff_refs _ _ _ Hnew) by done.
    unfold user_pages at 1. by rewrite (leaves_copied_pages _ _ _ Hl).
  - intros t Hn Ht. rewrite elem_of_cons in Hn. rewrite (ci_frame _ _ _ _ _ _ _ _ _ Hinv), Hm; [done|exact Hn|]. by rewrite Hm.
Qed.

(** C5: A child that exits right after fork leaves physical memory as it was
    before: releasing its address space succeeds, reports no double free, and
    restores the reference count of every page and the set of free frames. *)
Theorem fork_exit_restores_memory (root dst : Z) (s s' : Pt) :
  space_ok root s -> copy_tables root s = Done (s', dst) ->
  exists s2, free_page_tables dst false s' = Done s2 /\ pt_warn s2 = pt_warn s /\
    (forall p, 0 <= p -> free (pt_pm s2) p = free (pt_pm s) p) /\
    (forall p, 0 <= p -> zget (pm_refs (pt_pm s2)) p = zget (pm_refs (pt_pm s)) p).
Proof.
  intros Hok Hc. destruct (copy_tables_spec _ _ _ _ Hok Hc) as (s1 & Hnew & Hm & Hw & Hinv).
  pose proof (ci_leaves _ _ _ _ _ _ _ _ _ Hinv) as Hl. rewrite Hm in Hl. apply leaves_copied_pages in Hl. fold (user_pages (walk 4 true false [] (pt_mem s') dst indices)) in Hl.
  set (vs := walk 4 true false [] (pt_mem s') dst indices) in *. fold (user_pages (walk 4 false false [] (pt_mem s) root indices)) in Hl.
  assert (dst ∉ tables vs) as Hdst by (intros Hin; eapply copied_fresh in Hin as [_ ?]; done).
  assert (releasable (vs ++ [VTable dst]) (pt_pm s')) as Hrel by (by eapply child_releasable).
  destruct (free_visits _ _ (pt_warn s') Hrel) as (pm2 & Hf2 & [Hl2 Hfree2 Hr2]).
  rewrite fold_outcome_app in Hf2.
  pose proof (r_free_spec 3 false false [] dst s' ltac:(lia) ltac:(done)) as Hspec. unfold release_range in Hspec.
  rewrite andb_false_r in Hspec. specialize (Hspec (proj2 (NoDup_cons _ _) (conj Hdst (ci_nodup _ _ _ _ _ _ _ _ _ Hinv)))).
  unfold releases in Hspec. fold vs in Hspec. unfold free_page_tables.
  destruct (fold_outcome free_visit vs _) as [[pm1 w1]| |]; cbn [mbind outcome_bind] in Hf2; [|done..].
  destruct Hspec as (m2 & -> & _). cbn [mbind outcome_bind negb fst snd]. cbn [fold_outcome free_visit] in Hf2.
  unfold dealloc_page. cbn [pt_pm pt_mem pt_warn]. destruct (dealloc_physical_page pm1 dst) as [[pm3 w3]| |]; cbn [mbind outcome_bind] in *; [|done..].
  injection Hf2 as -> Hw2. eexists. split; [reflexivity|]. cbn [pt_warn pt_pm]. split; [|split].
  - rewrite Hw2. rewrite (ci_warn _ _ _ _ _ _ _ _ _ Hinv). done.
  - intros p Hp. rewrite Hfree2, (ci_free _ _ _ _ _ _ _ _ _ Hinv), (ff_page _ _ _ Hnew) by done. fold vs.
    rewrite tables_app, pages_app. eapply free_restored; done.
  - intros p Hp. rewrite Hr2, (ci_refs _ _ _ _ _ _ _ _ _ Hinv), (ff_refs _ _ _ Hnew) by done. fold vs.
    rewrite user_pages_app, occurrences_app. change (occurrences p (user_pages [VTable dst])) with 0.
    destruct (zget _ p); [|done]. apply (f_equal Some). lia.
Qed.
End PageTables.

(** ** The entry format of x86-64, for evaluation *)

Definition ADDR_BITS : Z := 0x000ffffffffff000.

Lemma land_frame a : frame_address a -> Z.land a ADDR_BITS = a /\ Z.land a FLAG_BITS = 0.
Proof.
  intros [Hm Hr]. assert (Z.land a (Z.ones 52) = a) as H52 by (rewrite Z.land_ones by lia; apply Z.mod_small; lia).
  assert (Z.land a (Z.ones 12) = 0) as H12 by (rewrite Z.land_ones by lia; exact Hm).
  rewrite <- H52, <- !Z.land_assoc. split.
  - change (Z.land (Z.ones 52) ADDR_BITS) with (Z.ldiff (Z.ones 52) (Z.ones 12)).
    rewrite Z.ldiff_land, Z.land_assoc, H52, <- Z.ldiff_land, Z.ldiff_ones_r by lia.
    rewrite Z.shiftl_mul_pow2, Z.shiftr_div_pow2 by lia. change (2 ^ 12) with 4096. pose proof (Z.div_mod a 4096). lia.
  - by change (Z.land (Z.ones 52) FLAG_BITS) with (Z.ones 12).
Qed.
Lemma land_addr_frame e : frame_address (Z.land e ADDR_BITS).
Proof.
  assert (forall m, 0 <= m -> Z.land (Z.land e ADDR_BITS) (Z.ones m) = Z.land e ADDR_BITS mod 2 ^ m) as Ho by (intros; by apply Z.land_ones).
  split.
  - change 4096 with (2 ^ 12). rewrite <- Ho, <- Z.land_assoc by lia. by rewrite Z.land_0_r.
  - specialize (Ho 52 ltac:(lia)). rewrite <- Z.land_assoc in Ho. change (Z.land ADDR_BITS (Z.ones 52)) with ADDR_BITS in Ho.
    rewrite Ho. apply Z.mod_pos_bound. lia.
Qed.

Definition z_pte : PageTableEntry.
Proof.
  refine {| pte_flags e := Z.land e FLAG_BITS; pte_addr e := Z.land e ADDR_BITS; pte_make := Z.lor |}.
  - done.
  - intros e. by rewrite <- Z.land_assoc.
  - apply land_addr_frame.
  - intros a f [_ Ha]%land_frame Hf. by rewrite Z.land_lor_distr_l, Ha, Hf.
  - intros a f [Ha _]%land_frame Hf. rewrite Z.land_lor_distr_l, Ha, <- Hf, <- Z.land_assoc.
    by rewrite Z.land_0_r, Z.lor_0_r.
Defined.

(** A small process: one user page, mapped writable through four tables, and a
    huge page of the kernel. *)
Definition demo_memory : memory :=
  <[0x3000 := <[300%nat := 0x8003]> (<[1%nat := 0x4007]> zero_frame)]>
  (<[0x4000 := <[0%nat := 0x5007]> zero_frame]>
  (<[0x5000 := <[0%nat := 0x6007]> zero_frame]>
  (<[0x6000 := <[5%nat := 0x7007]> zero_frame]>
  (<[0x8000 := <[2%nat := 0x40000083]> zero_frame]> ∅)))).
Definition demo_space : Pt :=
  mk_Pt demo_memory (mk_PageMan [Z.shiftl (Z.ones 55) 9] (replicate 7 0 ++ [1] ++ replicate 56 0)) [].

Lemma demo_space_ok : space_ok (H := z_bit_field) (H0 := z_pte) 0x3000 demo_space.
Proof.
  assert (tables (walk (H0 := z_pte) 4 false false [] (pt_mem demo_space) 0x3000 indices) = [0x6000; 0x5000; 0x4000; 0x8000]) as Ht
    by (vm_compute; reflexivity).
  assert (user_pages (walk (H0 := z_pte) 4 false false [] (pt_mem demo_space) 0x3000 indices) = [7]) as Hp by (vm_compute; reflexivity).
  split.
  - vm_compute. discriminate.
  - rewrite Ht. clear Ht Hp. intros t Hin. repeat (apply elem_of_cons in Hin as [->|Hin]; [split; [split; [reflexivity|split; [discriminate|reflexivity]]|vm_compute; reflexivity]|]). by apply elem_of_nil in Hin.
  - rewrite Hp. clear Ht Hp. intros p ->%list_elem_of_singleton. exists 1. split; [vm_compute; reflexivity|discriminate].
Qed.

Lemma fork_copies_address_space_witness :
  exists s' dst, copy_tables (H := z_bit_field) (H0 := z_pte) 0x3000 demo_space = Done (s', dst) /\ dst = 0x9000 /\
    length (leaves (walk (H0 := z_pte) 4 true false [] (pt_mem s') dst indices)) = 2%nat /\
    zget (pm_refs (pt_pm s')) 7 = Some 2.
Proof.
  destruct (copy_tables (H := z_bit_field) (H0 := z_pte) 0x3000 demo_space) as [[s' dst]| |] eqn:E;
    [|vm_compute in E; discriminate..].
  pose proof (fork_copies_address_space (H := z_bit_field) (H0 := z_pte) 0x3000 dst demo_space s' demo_space_ok E)
    as (_ & Hl & _ & _ & _ & Hr & _).
  exists s', dst. split; [reflexivity|]. split; [vm_compute in E; injection E as <- <-; reflexivity|]. split.
  - rewrite <- (Forall2_length _ _ _ Hl). vm_compute. reflexivity.
  - rewrite Hr by lia. vm_compute. reflexivity.
Defined.

Lemma fork_exit_restores_memory_witness :
  exists s' dst s2, copy_tables (H := z_bit_field) (H0 := z_pte) 0x3000 demo_space = Done (s', dst) /\
    free_page_tables (H := z_bit_field) (H0 := z_pte) dst false s' = Done s2 /\ free (H := z_bit_field) (pt_pm s2) 9 = true.
Proof.
  destruct (copy_tables (H := z_bit_field) (H0 := z_pte) 0x3000 demo_space) as [[s' dst]| |] eqn:E;
    [|vm_compute in E; discriminate..].
  destruct (fork_exit_restores_memory (H := z_bit_field) (H0 := z_pte) 0x3000 dst demo_space s' demo_space_ok E)
    as (s2 & H2 & _ & Hf & _).
  exists s', dst, s2. split; [reflexivity|]. split; [exact H2|]. rewrite Hf by lia. vm_compute. reflexivity.
Defined.
