(* ===== verification/Process.v ===== *)
(** * Processes: the data of [task/process.rs] and [task/ipc/mod.rs]

    Shared objects (files, directories, IPC channels and listeners) live in
    stores of their own; an [Arc] is the index of the object in its store, so
    two handles to one object are equal. *)

From S2P Require Import Prelude Words.

(** @ task/process.rs:27-49 ProcessContext *)
Record ProcessContext := mk_ProcessContext {
  rax : Z; rbx : Z; rcx : Z; rdx : Z; rsi : Z; rbp : Z; rdi : Z;
  r8 : Z; r9 : Z; r10 : Z; r11 : Z; r12 : Z; r13 : Z; r14 : Z; r15 : Z;
  rip : Z; cs : Z; rflags : Z; rsp : Z; ss : Z;
}.
Definition context_default : ProcessContext :=
  mk_ProcessContext 0 0 0 0 0 0 0 0 0 0 0 0 0 0 0 0 0 0 0 0.

Definition set_rax c v := mk_ProcessContext v (rbx c) (rcx c) (rdx c) (rsi c) (rbp c) (rdi c) (r8 c) (r9 c)
  (r10 c) (r11 c) (r12 c) (r13 c) (r14 c) (r15 c) (rip c) (cs c) (rflags c) (rsp c) (ss c).
Definition set_rcx c v := mk_ProcessContext (rax c) (rbx c) v (rdx c) (rsi c) (rbp c) (rdi c) (r8 c) (r9 c)
  (r10 c) (r11 c) (r12 c) (r13 c) (r14 c) (r15 c) (rip c) (cs c) (rflags c) (rsp c) (ss c).
Definition set_rdx c v := mk_ProcessContext (rax c) (rbx c) (rcx c) v (rsi c) (rbp c) (rdi c) (r8 c) (r9 c)
  (r10 c) (r11 c) (r12 c) (r13 c) (r14 c) (r15 c) (rip c) (cs c) (rflags c) (rsp c) (ss c).
Definition set_rsi c v := mk_ProcessContext (rax c) (rbx c) (rcx c) (rdx c) v (rbp c) (rdi c) (r8 c) (r9 c)
  (r10 c) (r11 c) (r12 c) (r13 c) (r14 c) (r15 c) (rip c) (cs c) (rflags c) (rsp c) (ss c).
Definition set_r10 c v := mk_ProcessContext (rax c) (rbx c) (rcx c) (rdx c) (rsi c) (rbp c) (rdi c) (r8 c) (r9 c)
  v (r11 c) (r12 c) (r13 c) (r14 c) (r15 c) (rip c) (cs c) (rflags c) (rsp c) (ss c).
Definition set_cs_ss c v w := mk_ProcessContext (rax c) (rbx c) (rcx c) (rdx c) (rsi c) (rbp c) (rdi c) (r8 c) (r9 c)
  (r10 c) (r11 c) (r12 c) (r13 c) (r14 c) (r15 c) (rip c) v (rflags c) (rsp c) w.
Definition set_entry c ip sp := mk_ProcessContext (rax c) (rbx c) (rcx c) (rdx c) (rsi c) (rbp c) (rdi c) (r8 c) (r9 c)
  (r10 c) (r11 c) (r12 c) (r13 c) (r14 c) (r15 c) ip (cs c) (rflags c) sp (ss c).

(** @ task/process.rs:52-56 WaitReason *)
Inductive WaitReason := WaitPid (pid : Z).
(** @ task/process.rs:59-62 ProcessState *)
Inductive ProcessState := Runnable | Blocked (r : WaitReason).

(** A handle is never modified, so the [Arc<Mutex<..>>] around it is its value. *)
(** @ task/ipc/mod.rs:36-48 IpcHandle *)
Inductive IpcHandle :=
  | HChannel (channel : nat) (side : bool)
  | HListener (listener : nat).
#[global] Instance IpcHandle_eq_dec : EqDecision IpcHandle.
Proof. solve_decision. Defined.

(** @ task/process.rs:64-76 Process *)
Record Process := mk_Process {
  page_table : Z;
  context : ProcessContext;
  fpu_state : list Z;
  tm : Z;
  fs : Z;
  brk : Z;
  exe_path : option (list Z);
  state : ProcessState;
  files : list (option nat);
  directories : list (option nat);
  ipc_handles : list (option IpcHandle);
}.

Definition set_context p v := mk_Process (page_table p) v (fpu_state p) (tm p) (fs p) (brk p) (exe_path p) (state p) (files p) (directories p) (ipc_handles p).
Definition set_fpu_fs p v w := mk_Process (page_table p) (context p) v (tm p) w (brk p) (exe_path p) (state p) (files p) (directories p) (ipc_handles p).
Definition set_tm p v := mk_Process (page_table p) (context p) (fpu_state p) v (fs p) (brk p) (exe_path p) (state p) (files p) (directories p) (ipc_handles p).
Definition set_brk p v := mk_Process (page_table p) (context p) (fpu_state p) (tm p) (fs p) v (exe_path p) (state p) (files p) (directories p) (ipc_handles p).
Definition set_exe_path p v := mk_Process (page_table p) (context p) (fpu_state p) (tm p) (fs p) (brk p) v (state p) (files p) (directories p) (ipc_handles p).
Definition set_pstate p v := mk_Process (page_table p) (context p) (fpu_state p) (tm p) (fs p) (brk p) (exe_path p) v (files p) (directories p) (ipc_handles p).
Definition set_files p v := mk_Process (page_table p) (context p) (fpu_state p) (tm p) (fs p) (brk p) (exe_path p) (state p) v (directories p) (ipc_handles p).
Definition set_directories p v := mk_Process (page_table p) (context p) (fpu_state p) (tm p) (fs p) (brk p) (exe_path p) (state p) (files p) v (ipc_handles p).
Definition set_ipc_handles p v := mk_Process (page_table p) (context p) (fpu_state p) (tm p) (fs p) (brk p) (exe_path p) (state p) (files p) (directories p) v.

(** @ task/process.rs:80-113 FPU_INIT *)
Definition FPU_INIT : list Z := 0x037f :: 0x1f800000000000000000 :: replicate 30 0.

(** [TASKS], the table of tasks, indexed by PID. *)
Abbreviation Tasks := (list (option Process)).

(** [tasks[pid].as_ref().unwrap()]: panics out of range and on an empty slot. *)
Definition task_at (tasks : Tasks) (pid : Z) : outcome Process := o ← idx tasks pid; unwrap o.
Definition set_task (tasks : Tasks) (pid : Z) (p : Process) : outcome Tasks := set_idx tasks pid (Some p).

Lemma task_at_Done tasks pid p :
  task_at tasks pid = Done p <-> 0 <= pid /\ tasks !! Z.to_nat pid = Some (Some p).
Proof.
  unfold task_at. split.
  - destruct (idx tasks pid) as [o| |] eqn:E; try done. apply idx_Done in E as [H0 H1].
    destruct o; [|done]. cbn. intros [= ->]. done.
  - intros [H0 H1]. rewrite (proj2 (idx_Done _ _ _) (conj H0 H1)). done.
Qed.

Lemma set_task_spec tasks pid p q :
  task_at tasks pid = Done p -> set_task tasks pid q = Done (<[Z.to_nat pid := Some q]> tasks).
Proof.
  intros [H0 H1]%task_at_Done. apply set_idx_in_range. apply lookup_lt_Some in H1. unfold llen. lia.
Qed.

(** ** User memory *)

(** User memory, byte by byte; [core::slice::from_raw_parts(ptr, len)]. *)
Definition user_memory : Type := Z -> Z.
Definition user_slice (m : user_memory) (ptr len : Z) : list Z := map m (seqZ ptr len).
(** [ptr::copy_nonoverlapping(src, ptr, len)]. *)
Definition user_write (m : user_memory) (ptr : Z) (src : list Z) : user_memory :=
  fun a => if bool_decide (ptr <= a < ptr + llen src) then src !!! Z.to_nat (a - ptr) else m a.

Lemma user_slice_len m ptr len : 0 <= len -> llen (user_slice m ptr len) = len.
Proof. intros. unfold user_slice, llen. rewrite length_map, length_seqZ. lia. Qed.

Lemma user_slice_write m ptr src : user_slice (user_write m ptr src) ptr (llen src) = src.
Proof.
  apply list_eq. intros i. unfold user_slice. rewrite list_lookup_fmap.
  destruct (decide (i < length src)%nat) as [Hi|Hi].
  - rewrite lookup_seqZ_lt by (unfold llen; lia). cbn. unfold user_write.
    rewrite bool_decide_true by (unfold llen; lia).
    replace (Z.to_nat (ptr + Z.of_nat i - ptr)) with i by lia.
    symmetry. by apply list_lookup_lookup_total_lt.
  - rewrite lookup_seqZ_ge by (unfold llen; lia). cbn. symmetry. apply lookup_ge_None_2. lia.
Qed.

(** ** UTF-8 *)

(** [core::str::from_utf8]: whether a byte string is well-formed UTF-8 (no
    overlong forms, no surrogates, at most U+10FFFF). *)
Definition cont (b : Z) : bool := (0x80 <=? b) && (b <=? 0xbf).
Fixpoint utf8_valid_fuel (fuel : nat) (l : list Z) : bool :=
  match fuel, l with
  | _, [] => true
  | O, _ => false
  | S fuel, b :: l =>
      if b <=? 0x7f then utf8_valid_fuel fuel l
      else if (0xc2 <=? b) && (b <=? 0xdf) then
        match l with c :: l => cont c && utf8_valid_fuel fuel l | _ => false end
      else if (0xe0 <=? b) && (b <=? 0xef) then
        match l with
        | c :: d :: l =>
            (if b =? 0xe0 then (0xa0 <=? c) && (c <=? 0xbf)
             else if b =? 0xed then (0x80 <=? c) && (c <=? 0x9f) else cont c)
            && cont d && utf8_valid_fuel fuel l
        | _ => false
        end
      else if (0xf0 <=? b) && (b <=? 0xf4) then
        match l with
        | c :: d :: e :: l =>
            (if b =? 0xf0 then (0x90 <=? c) && (c <=? 0xbf)
             else if b =? 0xf4 then (0x80 <=? c) && (c <=? 0x8f) else cont c)
            && cont d && cont e && utf8_valid_fuel fuel l
        | _ => false
        end
      else false
  end.
Definition utf8_valid (l : list Z) : bool := utf8_valid_fuel (length l) l.
