(* ===== verification/Ipc.v ===== *)
(** * Inter-process channels: [task/ipc/mod.rs]

    Two-sided message channels, named listeners and the per-process handle
    tables.  Channels and listeners are shared objects kept in stores; a handle
    names one side of a channel or a listener; every shared object counts the
    handles that refer to it. *)

From S2P Require Import Prelude Words Process.

(** @ task/ipc/mod.rs:12-12 IPC_MAX_HANDLES *)
Definition IPC_MAX_HANDLES : Z := 64.
(** @ task/ipc/mod.rs:13-13 IPC_MAX_MSG_SIZE *)
Definition IPC_MAX_MSG_SIZE : Z := 4096.
(** @ task/ipc/mod.rs:14-14 IPC_QUEUE_DEPTH *)
Definition IPC_QUEUE_DEPTH : Z := 4096.
(** @ task/ipc/mod.rs:16-16 IPC_CMD_CREATE *)
Definition IPC_CMD_CREATE : Z := 0.
(** @ task/ipc/mod.rs:17-17 IPC_CMD_SEND *)
Definition IPC_CMD_SEND : Z := 1.
(** @ task/ipc/mod.rs:18-18 IPC_CMD_RECV *)
Definition IPC_CMD_RECV : Z := 2.
(** @ task/ipc/mod.rs:19-19 IPC_CMD_CLOSE *)
Definition IPC_CMD_CLOSE : Z := 3.
(** @ task/ipc/mod.rs:20-20 IPC_CMD_DUP *)
Definition IPC_CMD_DUP : Z := 4.
(** @ task/ipc/mod.rs:21-21 IPC_CMD_BIND *)
Definition IPC_CMD_BIND : Z := 5.
(** @ task/ipc/mod.rs:22-22 IPC_CMD_CONNECT *)
Definition IPC_CMD_CONNECT : Z := 6.
(** @ task/ipc/mod.rs:23-23 IPC_CMD_ACCEPT *)
Definition IPC_CMD_ACCEPT : Z := 7.
(** @ task/ipc/mod.rs:25-25 IPC_OK *)
Definition IPC_OK : Z := 0.
(** @ task/ipc/mod.rs:26-26 IPC_EINVAL *)
Definition IPC_EINVAL : Z := -22.
(** @ task/ipc/mod.rs:27-27 IPC_EBADF *)
Definition IPC_EBADF : Z := -9.
(** @ task/ipc/mod.rs:28-28 IPC_EAGAIN *)
Definition IPC_EAGAIN : Z := -11.
(** @ task/ipc/mod.rs:29-29 IPC_EMFILE *)
Definition IPC_EMFILE : Z := -24.
(** @ task/ipc/mod.rs:30-30 IPC_EPIPE *)
Definition IPC_EPIPE : Z := -32.
(** @ task/ipc/mod.rs:31-31 IPC_ENOENT *)
Definition IPC_ENOENT : Z := -2.
(** @ task/ipc/mod.rs:32-32 IPC_EEXIST *)
Definition IPC_EEXIST : Z := -17.
(** @ task/ipc/mod.rs:33-33 IPC_EMSGSIZE *)
Definition IPC_EMSGSIZE : Z := -90.
(** @ task/ipc/mod.rs:34-34 IPC_MAX_NAME_LEN *)
Definition IPC_MAX_NAME_LEN : Z := 128.

(** One side of a channel is a boolean: [false] for 0, [true] for 1. *)
Abbreviation side := bool.

(** @ task/ipc/mod.rs:69-71 IpcMessage *)
Definition IpcMessage : Type := list Z.
(** @ task/ipc/mod.rs:64-67 IpcEndpoint *)
Record IpcEndpoint := mk_IpcEndpoint { ep_queue : list IpcMessage; ep_closed : bool }.
(** @ task/ipc/mod.rs:59-62 IpcChannel *)
Record IpcChannel := mk_IpcChannel {
  ch_refs : Z * Z;
  ch_endpoints : IpcEndpoint * IpcEndpoint;
}.
(** @ task/ipc/mod.rs:54-57 IpcListener *)
Record IpcListener := mk_IpcListener { ls_refs : Z; ls_pending : list IpcHandle }.

Definition pick {A} (s : side) (p : A * A) : A := if s then p.2 else p.1.
Definition put {A} (s : side) (x : A) (p : A * A) : A * A := if s then (p.1, x) else (x, p.2).

(** @ task/ipc/mod.rs:74-79 IpcEndpoint::new *)
Definition endpoint_new : IpcEndpoint := mk_IpcEndpoint [] false.
(** @ task/ipc/mod.rs:83-88 IpcChannel::new *)
Definition channel_new : IpcChannel := mk_IpcChannel (0, 0) (endpoint_new, endpoint_new).

(** The kernel state the IPC code works on.  [NAMED_ENDPOINTS] maps a name to
    its listener. *)
(** @ task/ipc/mod.rs:50-52 NAMED_ENDPOINTS *)
Record ipc_state := mk_ipc {
  ipc_tasks : Tasks;
  channels : list IpcChannel;
  listeners : list IpcListener;
  named : list (list Z * nat);
}.

Definition set_tasks st v := mk_ipc v (channels st) (listeners st) (named st).
Definition set_channel st c ch := mk_ipc (ipc_tasks st) (<[c := ch]> (channels st)) (listeners st) (named st).
Definition set_listener st l ls := mk_ipc (ipc_tasks st) (channels st) (<[l := ls]> (listeners st)) (named st).
Definition set_named st v := mk_ipc (ipc_tasks st) (channels st) (listeners st) v.

(** [Arc::new(Mutex::new(..))]: a new object in its store. *)
Definition alloc_channel st ch := (mk_ipc (ipc_tasks st) (channels st ++ [ch]) (listeners st) (named st), length (channels st)).
Definition alloc_listener st ls := (mk_ipc (ipc_tasks st) (channels st) (listeners st ++ [ls]) (named st), length (listeners st)).

Definition channel_at st c : outcome IpcChannel := unwrap (channels st !! c).
Definition listener_at st l : outcome IpcListener := unwrap (listeners st !! l).

(** ** References *)

(** @ task/ipc/mod.rs:125-126 sys_create -- one [refs[side] += 1] *)
Definition add_side_ref (ch : IpcChannel) (s : side) : IpcChannel :=
  mk_IpcChannel (put s (pick s (ch_refs ch) + 1) (ch_refs ch)) (ch_endpoints ch).

(** @ task/ipc/mod.rs:390-401 dup_handle_ref *)
Definition dup_handle_ref st (h : IpcHandle) : outcome ipc_state :=
  match h with
  | HChannel c s => ch ← channel_at st c; Done (set_channel st c (add_side_ref ch s))
  | HListener l => ls ← listener_at st l; Done (set_listener st l (mk_IpcListener (ls_refs ls + 1) (ls_pending ls)))
  end.

(** @ task/ipc/mod.rs:432-436 close_side *)
Definition close_side (ch : IpcChannel) (s : side) : IpcChannel :=
  mk_IpcChannel (ch_refs ch) (put s (mk_IpcEndpoint [] true) (ch_endpoints ch)).

(** @ task/ipc/mod.rs:406-414 close_handle_ref -- the channel branch *)
Definition drop_side_ref (ch : IpcChannel) (s : side) : IpcChannel :=
  if negb (pick s (ch_refs ch) =? 0) then
    let ch := mk_IpcChannel (put s (pick s (ch_refs ch) - 1) (ch_refs ch)) (ch_endpoints ch) in
    if pick s (ch_refs ch) =? 0 then close_side ch s else ch
  else ch.

(** @ task/ipc/mod.rs:451-459 unregister_listener *)
Definition unregister_listener st (l : nat) : ipc_state :=
  match list_find (fun e => e.2 = l) (named st) with
  | Some (i, _) => set_named st (swap_remove (named st) i)
  | None => st
  end.
(** @ task/ipc/mod.rs:461-466 unregister_listener_by_name *)
Definition unregister_listener_by_name st (name : list Z) : ipc_state :=
  match list_find (fun e => e.1 = name) (named st) with
  | Some (i, _) => set_named st (swap_remove (named st) i)
  | None => st
  end.

(** Closing the last reference to a listener closes the handles still pending
    on it, so the function is recursive; the fuel bounds the nesting. *)
(** @ task/ipc/mod.rs:403-430 close_handle_ref *)
Fixpoint close_handle_ref (fuel : nat) st (h : IpcHandle) : outcome ipc_state :=
  match fuel with
  | O => OutOfFuel
  | S fuel =>
      match h with
      | HChannel c s => ch ← channel_at st c; Done (set_channel st c (drop_side_ref ch s))
      | HListener l =>
          ls ← listener_at st l;
          if negb (ls_refs ls =? 0) then
            let ls := mk_IpcListener (ls_refs ls - 1) (ls_pending ls) in
            if ls_refs ls =? 0 then
              let st := set_listener st l (mk_IpcListener 0 []) in
              let st := unregister_listener st l in
              fold_outcome (close_handle_ref fuel) (ls_pending ls) st
            else Done (set_listener st l ls)
          else Done st
      end
  end.
(** Two levels are enough: only channel handles are ever pending. *)
Definition CLOSE_FUEL : nat := 2.

(** @ task/ipc/mod.rs:91-95 clone_handle_table *)
Fixpoint clone_handle_table st (handles : list (option IpcHandle)) : outcome ipc_state :=
  match handles with
  | [] => Done st
  | None :: handles => clone_handle_table st handles
  | Some h :: handles => st ← dup_handle_ref st h; clone_handle_table st handles
  end.

(** The slots are emptied by the caller's [take]. *)
(** @ task/ipc/mod.rs:97-103 release_handle_table *)
Fixpoint release_handle_table st (handles : list (option IpcHandle)) : outcome ipc_state :=
  match handles with
  | [] => Done st
  | None :: handles => release_handle_table st handles
  | Some h :: handles => st ← close_handle_ref CLOSE_FUEL st h; release_handle_table st handles
  end.

(** ** Handle tables *)

Section Syscalls.
Context (current : Z).
Implicit Types (args : ProcessContext) (m : user_memory).

(** @ task/ipc/mod.rs:383-388 current_handle_ref *)
Definition current_handle_ref st (handle_id : Z) : outcome (option IpcHandle) :=
  task ← idx (ipc_tasks st) current;
  Done (match task with
        | None => None
        | Some task => match zget (ipc_handles task) handle_id with Some (Some h) => Some h | _ => None end
        end).

(** @ task/ipc/mod.rs:326-333 current_handle *)
Definition current_handle st (handle_id : Z) : outcome (option (nat * side)) :=
  h ← current_handle_ref st handle_id;
  Done (match h with Some (HChannel c s) => Some (c, s) | _ => None end).

(** @ task/ipc/mod.rs:335-342 current_listener *)
Definition current_listener st (handle_id : Z) : outcome (option nat) :=
  h ← current_handle_ref st handle_id;
  Done (match h with Some (HListener l) => Some l | _ => None end).

(** [task.ipc_handles[slot] = ..] for the current task. *)
Definition set_current_handles st (task : Process) (hs : list (option IpcHandle)) : outcome ipc_state :=
  tasks ← set_task (ipc_tasks st) current (set_ipc_handles task hs);
  Done (set_tasks st tasks).

(** @ task/ipc/mod.rs:363-372 install_current_handle *)
Definition install_current_handle st (h : IpcHandle) : outcome (ipc_state * result Z IpcHandle) :=
  task ← task_at (ipc_tasks st) current;
  match none_positions (ipc_handles task) 0 with
  | [] => Done (st, Err h)
  | slot :: _ =>
      st ← set_current_handles st task (<[slot := Some h]> (ipc_handles task));
      Done (st, Ok (Z.of_nat slot))
  end.

(** @ task/ipc/mod.rs:344-361 install_current_pair *)
Definition install_current_pair st (h0 h1 : IpcHandle) : outcome (ipc_state * option (Z * Z)) :=
  task ← task_at (ipc_tasks st) current;
  match none_positions (ipc_handles task) 0 with
  | slot0 :: slot1 :: _ =>
      st ← set_current_handles st task (<[slot1 := Some h1]> (<[slot0 := Some h0]> (ipc_handles task)));
      Done (st, Some (Z.of_nat slot0, Z.of_nat slot1))
  | _ => Done (st, None)
  end.

(** A fresh channel with one reference to each side, as [sys_create] and
    [sys_connect] make it. *)
(** @ task/ipc/mod.rs:278-288 sys_connect -- the new channel *)
Definition new_channel_pair st : ipc_state * IpcHandle * IpcHandle :=
  let '(st, c) := alloc_channel st (add_side_ref (add_side_ref channel_new false) true) in
  (st, HChannel c false, HChannel c true).

(** ** The system calls *)

(** @ task/ipc/mod.rs:120-141 sys_create *)
Definition sys_create st args : outcome (ipc_state * ProcessContext * Z) :=
  let '(st, handle0, handle1) := new_channel_pair st in
  '(st, slots) ← install_current_pair st handle0 handle1;
  match slots with
  | None =>
      st ← close_handle_ref CLOSE_FUEL st handle0;
      st ← close_handle_ref CLOSE_FUEL st handle1;
      Done (st, args, IPC_EMFILE)
  | Some (slot0, slot1) => Done (st, set_rdx args slot1, slot0)
  end.

(** @ task/ipc/mod.rs:143-165 sys_send *)
Definition sys_send st args m : outcome (ipc_state * Z) :=
  let handle_id := rsi args in
  let len := rcx args in
  if IPC_MAX_MSG_SIZE <? len then Done (st, IPC_EMSGSIZE) else
  let buf := user_slice m (rdx args) len in
  h ← current_handle st handle_id;
  match h with
  | None => Done (st, IPC_EBADF)
  | Some (c, s) =>
      let dest := negb s in
      ch ← channel_at st c;
      if ep_closed (pick s (ch_endpoints ch)) || ep_closed (pick dest (ch_endpoints ch)) then Done (st, IPC_EPIPE) else
      let endpoint := pick dest (ch_endpoints ch) in
      if IPC_QUEUE_DEPTH <=? llen (ep_queue endpoint) then Done (st, IPC_EAGAIN) else
      let endpoint := mk_IpcEndpoint (ep_queue endpoint ++ [buf]) (ep_closed endpoint) in
      Done (set_channel st c (mk_IpcChannel (ch_refs ch) (put dest endpoint (ch_endpoints ch))), len)
  end.

(** @ task/ipc/mod.rs:167-188 sys_recv *)
Definition sys_recv st args m : outcome (ipc_state * user_memory * Z) :=
  let handle_id := rsi args in
  let len := rcx args in
  h ← current_handle st handle_id;
  match h with
  | None => Done (st, m, IPC_EBADF)
  | Some (c, s) =>
      ch ← channel_at st c;
      let peer_closed := ep_closed (pick (negb s) (ch_endpoints ch)) in
      let endpoint := pick s (ch_endpoints ch) in
      match ep_queue endpoint with
      | message :: queue =>
          let copy_len := Z.min len (llen message) in
          let endpoint := mk_IpcEndpoint queue (ep_closed endpoint) in
          Done (set_channel st c (mk_IpcChannel (ch_refs ch) (put s endpoint (ch_endpoints ch))),
                user_write m (rdx args) (take (Z.to_nat copy_len) message), copy_len)
      | [] =>
          if peer_closed || ep_closed endpoint then Done (st, m, IPC_OK) else Done (st, m, IPC_EAGAIN)
      end
  end.

(** @ task/ipc/mod.rs:190-208 sys_close *)
Definition ipc_close st args : outcome (ipc_state * Z) :=
  let handle_id := rsi args in
  task ← task_at (ipc_tasks st) current;
  if llen (ipc_handles task) <=? handle_id then Done (st, IPC_EBADF) else
  h ← idx (ipc_handles task) handle_id;
  st ← set_current_handles st task (<[Z.to_nat handle_id := None]> (ipc_handles task));
  match h with
  | Some h => st ← close_handle_ref CLOSE_FUEL st h; Done (st, IPC_OK)
  | None => Done (st, IPC_EBADF)
  end.

(** @ task/ipc/mod.rs:210-232 sys_dup *)
Definition sys_dup st args : outcome (ipc_state * Z) :=
  source ← current_handle_ref st (rsi args);
  match source with
  | None => Done (st, IPC_EBADF)
  | Some source =>
      st ← dup_handle_ref st source;
      '(st, slot) ← install_current_handle st source;
      match slot with
      | Ok slot => Done (st, slot)
      | Err duped => st ← close_handle_ref CLOSE_FUEL st duped; Done (st, IPC_EMFILE)
      end
  end.

(** @ task/ipc/mod.rs:374-381 copy_name_arg *)
Definition copy_name_arg m (ptr len : Z) : option (list Z) :=
  if (ptr =? 0) || (len =? 0) || (IPC_MAX_NAME_LEN <? len) then None else
  let bytes := user_slice m ptr len in
  if utf8_valid bytes then (match bytes with [] => None | _ => Some bytes end) else None.

(** @ task/ipc/mod.rs:234-265 sys_bind *)
Definition sys_bind st args m : outcome (ipc_state * Z) :=
  match copy_name_arg m (rsi args) (rdx args) with
  | None => Done (st, IPC_EINVAL)
  | Some name =>
      let '(st, listener) := alloc_listener st (mk_IpcListener 1 []) in
      let local := HListener listener in
      if bool_decide (name ∈ (named st).*1) then
        st ← close_handle_ref CLOSE_FUEL st local; Done (st, IPC_EEXIST)
      else
        let st := set_named st (named st ++ [(name, listener)]) in
        '(st, r) ← install_current_handle st local;
        match r with
        | Ok slot => Done (st, slot)
        | Err handle =>
            let st := unregister_listener_by_name st name in
            st ← close_handle_ref CLOSE_FUEL st handle;
            Done (st, IPC_EMFILE)
        end
  end.

(** @ task/ipc/mod.rs:267-302 sys_connect *)
Definition sys_connect st args m : outcome (ipc_state * Z) :=
  match copy_name_arg m (rsi args) (rdx args) with
  | None => Done (st, IPC_EINVAL)
  | Some name =>
      match list_find (fun e => e.1 = name) (named st) with
      | None => Done (st, IPC_ENOENT)
      | Some (_, (_, listener)) =>
          let '(st, client, server) := new_channel_pair st in
          '(st, r) ← install_current_handle st client;
          match r with
          | Ok slot =>
              ls ← listener_at st listener;
              Done (set_listener st listener (mk_IpcListener (ls_refs ls) (ls_pending ls ++ [server])), slot)
          | Err handle =>
              st ← close_handle_ref CLOSE_FUEL st handle;
              st ← close_handle_ref CLOSE_FUEL st server;
              Done (st, IPC_EMFILE)
          end
      end
  end.

(** @ task/ipc/mod.rs:304-324 sys_accept *)
Definition sys_accept st args : outcome (ipc_state * Z) :=
  listener ← current_listener st (rsi args);
  match listener with
  | None => Done (st, IPC_EBADF)
  | Some l =>
      ls ← listener_at st l;
      match ls_pending ls with
      | [] => Done (st, IPC_EAGAIN)
      | handle :: pending =>
          let st := set_listener st l (mk_IpcListener (ls_refs ls) pending) in
          '(st, r) ← install_current_handle st handle;
          match r with
          | Ok slot => Done (st, slot)
          | Err handle =>
              ls ← listener_at st l;
              Done (set_listener st l (mk_IpcListener (ls_refs ls) (handle :: ls_pending ls)), IPC_EMFILE)
          end
      end
  end.

(** @ task/ipc/mod.rs:105-118 syscall *)
Definition ipc_syscall st args m : outcome (ipc_state * ProcessContext * user_memory) :=
  let finish r := '(st, ret) ← r; Done (st, set_rax args (wrap 64 ret), m) in
  let cmd := rdi args in
  if cmd =? IPC_CMD_CREATE then '(st, args, ret) ← sys_create st args; Done (st, set_rax args (wrap 64 ret), m)
  else if cmd =? IPC_CMD_SEND then finish (sys_send st args m)
  else if cmd =? IPC_CMD_RECV then '(st, m, ret) ← sys_recv st args m; Done (st, set_rax args (wrap 64 ret), m)
  else if cmd =? IPC_CMD_CLOSE then finish (ipc_close st args)
  else if cmd =? IPC_CMD_DUP then finish (sys_dup st args)
  else if cmd =? IPC_CMD_BIND then finish (sys_bind st args m)
  else if cmd =? IPC_CMD_CONNECT then finish (sys_connect st args m)
  else if cmd =? IPC_CMD_ACCEPT then finish (sys_accept st args)
  else Done (st, set_rax args (wrap 64 IPC_EINVAL), m).
End Syscalls.

(** ** Counting handles *)

Definition count (h : IpcHandle) (l : list IpcHandle) : Z := Z.of_nat (length (filter (eq h) l)).
Definition table_of (hs : list (option IpcHandle)) : list IpcHandle := concat (map option_list hs).
Definition task_handles (o : option Process) : list IpcHandle :=
  match o with Some p => table_of (ipc_handles p) | None => [] end.
Definition table_handles (tasks : Tasks) : list IpcHandle := concat (map task_handles tasks).
Definition pending_handles (ls : list IpcListener) : list IpcHandle := concat (map ls_pending ls).
Definition total st (fl : list IpcHandle) (h : IpcHandle) : Z :=
  count h (table_handles (ipc_tasks st)) + count h (pending_handles (listeners st)) + count h fl.
Definition one (h x : IpcHandle) : Z := b2z (bool_decide (h = x)).

Section Counting.
Implicit Types (h x : IpcHandle) (l : list IpcHandle).

Lemma count_nil h : count h [] = 0.
Proof. done. Qed.
Lemma count_cons h x l : count h (x :: l) = one h x + count h l.
Proof.
  unfold count, one. rewrite filter_cons. destruct (decide (h = x)).
  - rewrite bool_decide_true by done. cbn [length b2z]. lia.
  - rewrite bool_decide_false by done. cbn [b2z]. lia.
Qed.
Lemma count_none h : count h (option_list None) = 0.
Proof. done. Qed.
Lemma count_some h x : count h (option_list (Some x)) = one h x.
Proof. change (option_list (Some x)) with [x]. rewrite count_cons, count_nil. lia. Qed.
Lemma count_app h l k : count h (l ++ k) = count h l + count h k.
Proof. unfold count. rewrite filter_app, length_app. lia. Qed.
Lemma count_nonneg h l : 0 <= count h l.
Proof. unfold count. lia. Qed.
Lemma count_pos h l : h ∈ l <-> 0 < count h l.
Proof.
  induction l as [|x l IH]; [rewrite count_nil; split; [by intros ?%elem_of_nil|lia]|].
  rewrite elem_of_cons, count_cons, IH. unfold one. pose proof (count_nonneg h l).
  destruct (decide (h = x)).
  - rewrite bool_decide_true by done. cbn [b2z]. split; [lia|by left].
  - rewrite bool_decide_false by done. cbn [b2z]. rewrite Z.add_0_l. naive_solver.
Qed.
Lemma one_same h : one h h = 1.
Proof. unfold one. by rewrite bool_decide_true. Qed.
Lemma one_diff h x : h <> x -> one h x = 0.
Proof. intros. unfold one. by rewrite bool_decide_false. Qed.
Lemma one_bound h x : 0 <= one h x <= 1.
Proof. unfold one. destruct (bool_decide _); simpl; lia. Qed.

(** The handles of a list of containers when one container changes. *)
Lemma count_concat_insert {A} (f : A -> list IpcHandle) (l : list A) i (a b : A) h :
  l !! i = Some a ->
  count h (concat (map f (<[i := b]> l))) = count h (concat (map f l)) - count h (f a) + count h (f b).
Proof.
  revert i. induction l as [|z l IH]; intros [|i] Hi; try done; cbn [insert list_insert map concat]; rewrite !count_app.
  - injection Hi as ->. lia.
  - rewrite IH by done. lia.
Qed.

Lemma count_table_insert hs k o o' h :
  hs !! k = Some o ->
  count h (table_of (<[k := o']> hs)) = count h (table_of hs) - count h (option_list o) + count h (option_list o').
Proof. apply count_concat_insert. Qed.

Lemma count_tasks_insert (tasks : Tasks) i p q h :
  tasks !! i = Some (Some p) ->
  count h (table_handles (<[i := Some q]> tasks)) =
    count h (table_handles tasks) - count h (table_of (ipc_handles p)) + count h (table_of (ipc_handles q)).
Proof. intros Hi. unfold table_handles. by rewrite (count_concat_insert task_handles _ _ _ _ _ Hi). Qed.

Lemma count_table_le (tasks : Tasks) i p h :
  tasks !! i = Some (Some p) -> count h (table_of (ipc_handles p)) <= count h (table_handles tasks).
Proof.
  revert i. induction tasks as [|o tasks IH]; intros [|i] Hi; try done; unfold table_handles; cbn [map concat];
    rewrite count_app.
  - injection Hi as ->. cbn [task_handles]. pose proof (count_nonneg h (concat (map task_handles tasks))). lia.
  - specialize (IH i Hi). pose proof (count_nonneg h (task_handles o)). unfold table_handles in IH. lia.
Qed.

Lemma table_of_elem hs k h : hs !! k = Some (Some h) -> h ∈ table_of hs.
Proof.
  revert k. induction hs as [|o hs IH]; intros [|k] Hk; try done; unfold table_of; cbn [map concat];
    apply elem_of_app.
  - injection Hk as ->. left. cbn. by apply list_elem_of_singleton.
  - right. by apply (IH k).
Qed.

Lemma pending_le (lss : list IpcListener) (l : nat) ls h :
  lss !! l = Some ls -> count h (ls_pending ls) <= count h (pending_handles lss).
Proof.
  revert l. induction lss as [|y lss IH]; intros [|l] Hl; try done; unfold pending_handles; cbn [map concat];
    rewrite count_app.
  - injection Hl as ->. pose proof (count_nonneg h (concat (map ls_pending lss))). lia.
  - specialize (IH l Hl). pose proof (count_nonneg h (ls_pending y)). unfold pending_handles in IH. lia.
Qed.
End Counting.

(** ** The invariant *)

(** An endpoint with [n] handles: closed exactly when there is none, empty once
    closed, never over its depth or message size. *)
Record endpoint_ok (e : IpcEndpoint) (n : Z) : Prop := {
  eo_closed : ep_closed e = true <-> n = 0;
  eo_empty : ep_closed e = true -> ep_queue e = [];
  eo_depth : llen (ep_queue e) <= IPC_QUEUE_DEPTH;
  eo_sizes : Forall (fun msg => llen msg <= IPC_MAX_MSG_SIZE) (ep_queue e);
}.

Definition is_server (h : IpcHandle) : Prop := exists c, h = HChannel c true.

(** The stores agree with [cnt h], the number of handles equal to [h]. *)
Record core (chs : list IpcChannel) (lss : list IpcListener) (nms : list (list Z * nat)) (cnt : IpcHandle -> Z) : Prop := {
  co_nonneg : forall h, 0 <= cnt h;
  co_valid_c : forall c s, 0 < cnt (HChannel c s) -> (c < length chs)%nat;
  co_valid_l : forall l, 0 < cnt (HListener l) -> (l < length lss)%nat;
  co_chan : forall c ch s, chs !! c = Some ch ->
    pick s (ch_refs ch) = cnt (HChannel c s) /\ endpoint_ok (pick s (ch_endpoints ch)) (cnt (HChannel c s));
  co_list : forall l ls, lss !! l = Some ls ->
    ls_refs ls = cnt (HListener l) /\ (cnt (HListener l) = 0 -> ls_pending ls = []) /\ Forall is_server (ls_pending ls);
  co_names : NoDup nms.*1;
  co_named : NoDup nms.*2;
  co_live : forall n l, (n, l) ∈ nms -> 0 < cnt (HListener l);
}.

(** The handles are those of the tables, those pending on listeners, and the
    ones [fl] a system call holds on its stack. *)
Definition ipc_inv st (fl : list IpcHandle) : Prop :=
  core (channels st) (listeners st) (named st) (total st fl).

Lemma core_ext chs lss nms cnt cnt' :
  (forall h, cnt' h = cnt h) -> core chs lss nms cnt -> core chs lss nms cnt'.
Proof.
  intros He [H1 H2 H3 H4 H5 H6 H7 H8].
  split; try done; setoid_rewrite He; done.
Qed.

Lemma pick_put_same {A} s (x : A) p : pick s (put s x p) = x.
Proof. by destruct s, p. Qed.
Lemma pick_put_other {A} s t (x : A) p : s <> t -> pick s (put t x p) = pick s p.
Proof. by destruct s, t, p. Qed.

(** One side of one channel changes, with the number of its handles. *)
Lemma core_set_side chs lss nms cnt cnt' c ch ch' s :
  core chs lss nms cnt -> chs !! c = Some ch ->
  (forall h, h <> HChannel c s -> cnt' h = cnt h) -> 0 <= cnt' (HChannel c s) ->
  (forall t, t <> s -> pick t (ch_refs ch') = pick t (ch_refs ch) /\ pick t (ch_endpoints ch') = pick t (ch_endpoints ch)) ->
  pick s (ch_refs ch') = cnt' (HChannel c s) ->
  endpoint_ok (pick s (ch_endpoints ch')) (cnt' (HChannel c s)) ->
  core (<[c := ch']> chs) lss nms cnt'.
Proof.
  intros [H1 H2 H3 H4 H5 H6 H7 H8] Hc Heq Hpos Hother Href Hep.
  pose proof (lookup_lt_Some _ _ _ Hc) as Hlt.
  split; try done.
  - intros h. destruct (decide (h = HChannel c s)) as [->|]; [done|]. rewrite Heq by done. apply H1.
  - intros c' t Hp. rewrite length_insert. destruct (decide (HChannel c' t = HChannel c s)) as [He|]; [by simplify_eq|].
    rewrite Heq in Hp by done. by apply (H2 c' t).
  - intros l. rewrite Heq by done. apply H3.
  - intros c' ch0 t Hl. destruct (decide (c' = c)) as [->|Hne].
    + rewrite list_lookup_insert_eq in Hl by done. injection Hl as <-.
      destruct (decide (t = s)) as [->|Hts]; [done|].
      rewrite Heq by congruence. destruct (Hother t Hts) as [-> ->]. by apply (H4 c ch t).
    + rewrite list_lookup_insert_ne in Hl by done. rewrite Heq by congruence. by apply (H4 c' ch0 t).
  - intros l ls Hl. rewrite Heq by done. by apply (H5 l ls).
  - intros n l. rewrite Heq by done. apply H8.
Qed.

Lemma core_add_side chs lss nms cnt cnt' c ch s :
  core chs lss nms cnt -> chs !! c = Some ch -> 0 < cnt (HChannel c s) ->
  (forall h, cnt' h = cnt h + one h (HChannel c s)) ->
  core (<[c := add_side_ref ch s]> chs) lss nms cnt'.
Proof.
  intros Hcore Hc Hpos Heq. destruct (co_chan _ _ _ _ Hcore c ch s Hc) as [Hr [Hcl Hem Hd Hsz]].
  pose proof (Heq (HChannel c s)) as Hs. rewrite one_same in Hs.
  apply (core_set_side chs lss nms cnt cnt' c ch _ s); auto.
  - intros h Hne. rewrite Heq, one_diff by done. lia.
  - lia.
  - intros t Ht. cbn [add_side_ref ch_refs ch_endpoints]. by rewrite pick_put_other.
  - cbn [add_side_ref ch_refs]. rewrite pick_put_same. lia.
  - cbn [add_side_ref ch_endpoints]. split; auto. rewrite Hcl. lia.
Qed.

Lemma core_drop_side chs lss nms cnt cnt' c ch s :
  core chs lss nms cnt -> chs !! c = Some ch -> 0 < cnt (HChannel c s) ->
  (forall h, cnt h = cnt' h + one h (HChannel c s)) ->
  core (<[c := drop_side_ref ch s]> chs) lss nms cnt'.
Proof.
  intros Hcore Hc Hpos Heq. destruct (co_chan _ _ _ _ Hcore c ch s Hc) as [Hr [Hcl Hem Hd Hsz]].
  pose proof (Heq (HChannel c s)) as Hs. rewrite one_same in Hs.
  unfold drop_side_ref. rewrite (proj2 (Z.eqb_neq _ 0)) by lia. cbn [negb ch_refs]. rewrite pick_put_same.
  apply (core_set_side chs lss nms cnt cnt' c ch _ s); auto.
  - intros h Hne. rewrite Heq, one_diff by done. lia.
  - lia.
  - intros t Ht. destruct (_ =? 0); cbn [close_side ch_refs ch_endpoints]; by rewrite ?pick_put_other by done.
  - destruct (_ =? 0); cbn [close_side ch_refs]; rewrite pick_put_same; lia.
  - destruct (Z.eqb_spec (pick s (ch_refs ch) - 1) 0); cbn [close_side ch_endpoints].
    + rewrite pick_put_same. split; cbn [ep_closed ep_queue].
      * split; [lia|done].
      * done.
      * unfold IPC_QUEUE_DEPTH, llen. simpl. lia.
      * constructor.
    + split; auto. rewrite Hcl. lia.
Qed.

Lemma core_set_listener chs lss nms nms' cnt cnt' l ls ls' :
  core chs lss nms cnt -> lss !! l = Some ls ->
  (forall h, h <> HListener l -> cnt' h = cnt h) -> 0 <= cnt' (HListener l) ->
  ls_refs ls' = cnt' (HListener l) -> (cnt' (HListener l) = 0 -> ls_pending ls' = []) ->
  Forall is_server (ls_pending ls') ->
  NoDup nms'.*1 -> NoDup nms'.*2 ->
  (forall n l', (n, l') ∈ nms' -> (n, l') ∈ nms /\ (l' = l -> 0 < cnt' (HListener l))) ->
  core chs (<[l := ls']> lss) nms' cnt'.
Proof.
  intros [H1 H2 H3 H4 H5 H6 H7 H8] Hl Heq Hpos Href Hdead Hserver Hn1 Hn2 Hsub.
  pose proof (lookup_lt_Some _ _ _ Hl) as Hlt. split; try done.
  - intros h. destruct (decide (h = HListener l)) as [->|]; [done|]. rewrite Heq by done. apply H1.
  - intros c s. rewrite Heq by done. apply H2.
  - intros l0 Hp. rewrite length_insert. destruct (decide (l0 = l)) as [->|]; [done|].
    rewrite Heq in Hp by congruence. by apply H3.
  - intros c ch s Hc. rewrite Heq by done. by apply (H4 c ch s).
  - intros l0 ls0 H0. destruct (decide (l0 = l)) as [->|Hne].
    + rewrite list_lookup_insert_eq in H0 by done. by injection H0 as <-.
    + rewrite list_lookup_insert_ne in H0 by done. rewrite Heq by congruence. by apply (H5 l0 ls0).
  - intros n l0 Hin. destruct (Hsub n l0 Hin) as [Hin' Hl0]. destruct (decide (l0 = l)) as [->|Hne]; [auto|].
    rewrite Heq by congruence. by apply (H8 n).
Qed.

(** Removing a name. *)
Lemma swap_remove_names (nms : list (list Z * nat)) i e :
  nms !! i = Some e -> NoDup nms.*1 -> NoDup nms.*2 ->
  NoDup (swap_remove nms i).*1 /\ NoDup (swap_remove nms i).*2 /\
  (forall x, x ∈ swap_remove nms i -> x ∈ nms /\ x.1 <> e.1 /\ x.2 <> e.2).
Proof.
  intros Hi H1 H2. pose proof (swap_remove_perm nms i e Hi) as Hp.
  assert (NoDup (e :: swap_remove nms i).*1) as H1' by (by rewrite Hp).
  assert (NoDup (e :: swap_remove nms i).*2) as H2' by (by rewrite Hp).
  rewrite fmap_cons in H1'. rewrite fmap_cons in H2'. apply NoDup_cons in H1' as [Hn1 H1']. apply NoDup_cons in H2' as [Hn2 H2'].
  split; [done|]. split; [done|]. intros x Hx. split.
  - rewrite <- Hp. by right.
  - split; intros He.
    + apply Hn1. rewrite <- He. by apply list_elem_of_fmap_2.
    + apply Hn2. rewrite <- He. by apply list_elem_of_fmap_2.
Qed.

Lemma unregister_listener_spec st l :
  NoDup (named st).*1 -> NoDup (named st).*2 ->
  exists nms, unregister_listener st l = set_named st nms /\ NoDup nms.*1 /\ NoDup nms.*2 /\
    (forall n l', (n, l') ∈ nms -> (n, l') ∈ named st /\ l' <> l).
Proof.
  intros H1 H2. unfold unregister_listener. destruct (list_find _ (named st)) as [[i e]|] eqn:Ef.
  - apply list_find_Some in Ef as (Hi & He & _). eexists. split; [reflexivity|].
    destruct (swap_remove_names _ _ _ Hi H1 H2) as (Hn1 & Hn2 & Hs). split; [done|]. split; [done|].
    intros n l' Hin. destruct (Hs _ Hin) as (? & _ & Hne). cbn in Hne. split; [done|congruence].
  - exists (named st). split; [by destruct st|]. split; [done|]. split; [done|]. intros n l' Hin. split; [done|].
    intros ->. apply list_find_None in Ef. rewrite Forall_forall in Ef. by apply (Ef _ Hin).
Qed.

Section Operations.
Implicit Types (st : ipc_state) (fl : list IpcHandle).

Lemma total_nonneg st fl h : 0 <= total st fl h.
Proof.
  unfold total. pose proof (count_nonneg h (table_handles (ipc_tasks st))).
  pose proof (count_nonneg h (pending_handles (listeners st))). pose proof (count_nonneg h fl). lia.
Qed.

Lemma total_cons st x fl h : total st (x :: fl) h = total st fl h + one h x.
Proof. unfold total. rewrite count_cons. lia. Qed.

Lemma total_set_channel st c ch fl h : total (set_channel st c ch) fl h = total st fl h.
Proof. done. Qed.

Lemma total_set_listener st l ls ls' fl h :
  listeners st !! l = Some ls ->
  total (set_listener st l ls') fl h = total st fl h - count h (ls_pending ls) + count h (ls_pending ls').
Proof.
  intros Hl. unfold total, set_listener, pending_handles. cbn [ipc_tasks listeners].
  rewrite (count_concat_insert ls_pending _ _ _ _ _ Hl). lia.
Qed.

Lemma total_same_pending st l ls n fl h :
  listeners st !! l = Some ls ->
  total (set_listener st l (mk_IpcListener n (ls_pending ls))) fl h = total st fl h.
Proof. intros Hl. rewrite (total_set_listener _ _ _ _ _ _ Hl). cbn [ls_pending]. lia. Qed.

Lemma inv_channel st fl c s :
  ipc_inv st fl -> 0 < total st fl (HChannel c s) -> exists ch, channels st !! c = Some ch.
Proof. intros Hi Hp. apply lookup_lt_is_Some_2. by apply (co_valid_c _ _ _ _ Hi c s). Qed.
Lemma inv_listener st fl l :
  ipc_inv st fl -> 0 < total st fl (HListener l) -> exists ls, listeners st !! l = Some ls.
Proof. intros Hi Hp. apply lookup_lt_is_Some_2. by apply (co_valid_l _ _ _ _ Hi l). Qed.

(** Duplicating a handle that exists somewhere. *)
Lemma dup_spec st fl h :
  ipc_inv st fl -> 0 < total st fl h ->
  exists st', dup_handle_ref st h = Done st' /\ ipc_inv st' (h :: fl) /\ ipc_tasks st' = ipc_tasks st /\
    forall x, total st' fl x = total st fl x.
Proof.
  intros Hi Hp. destruct h as [c s|l].
  - destruct (inv_channel _ _ _ _ Hi Hp) as [ch Hc]. unfold dup_handle_ref, channel_at. rewrite Hc. cbn.
    eexists. split; [reflexivity|]. split; [|done].
    eapply core_add_side; [exact Hi|exact Hc|exact Hp|]. intros x. by rewrite total_cons, total_set_channel.
  - destruct (inv_listener _ _ _ Hi Hp) as [ls Hl]. unfold dup_handle_ref, listener_at. rewrite Hl. cbn.
    eexists. split; [reflexivity|].
    assert (forall x, total (set_listener st l (mk_IpcListener (ls_refs ls + 1) (ls_pending ls))) fl x = total st fl x) as Ht.
    { intros x. by apply total_same_pending. }
    split; [|done]. destruct (co_list _ _ _ _ Hi l ls Hl) as (Hr & Hd & Hs).
    eapply core_set_listener; [exact Hi|exact Hl|..]; cbn [set_listener listeners named ls_refs ls_pending].
    + intros x Hx. rewrite total_cons, Ht, one_diff by done. lia.
    + apply total_nonneg.
    + rewrite total_cons, Ht, one_same. lia.
    + rewrite total_cons, Ht, one_same. lia.
    + done.
    + apply (co_names _ _ _ _ Hi).
    + apply (co_named _ _ _ _ Hi).
    + intros n l' Hin. split; [done|]. intros _. rewrite total_cons, Ht, one_same. lia.
Qed.

Lemma close_channel_spec f st fl c s :
  ipc_inv st (HChannel c s :: fl) ->
  exists st', close_handle_ref (S f) st (HChannel c s) = Done st' /\ ipc_inv st' fl /\ ipc_tasks st' = ipc_tasks st.
Proof.
  intros Hi. assert (0 < total st (HChannel c s :: fl) (HChannel c s)) as Hp.
  { rewrite total_cons, one_same. pose proof (total_nonneg st fl (HChannel c s)). lia. }
  destruct (inv_channel _ _ _ _ Hi Hp) as [ch Hc]. cbn [close_handle_ref]. unfold channel_at. rewrite Hc. cbn.
  eexists. split; [reflexivity|]. split; [|done].
  eapply core_drop_side; [exact Hi|exact Hc|exact Hp|]. intros x. by rewrite total_cons, total_set_channel.
Qed.

Lemma close_servers_spec f hs : forall st fl,
  Forall is_server hs -> ipc_inv st (hs ++ fl) ->
  exists st', fold_outcome (close_handle_ref (S f)) hs st = Done st' /\ ipc_inv st' fl /\ ipc_tasks st' = ipc_tasks st.
Proof.
  induction hs as [|h hs IH]; intros st fl Hs Hi; cbn [fold_outcome app].
  - by exists st.
  - apply Forall_cons in Hs as [[c ->] Hs]. cbn [app] in Hi.
    destruct (close_channel_spec f st (hs ++ fl) c true Hi) as (st1 & -> & Hi1 & Ht1). cbn [mbind outcome_bind].
    destruct (IH st1 fl Hs Hi1) as (st2 & -> & Hi2 & Ht2). exists st2. split; [done|]. split; [done|congruence].
Qed.

(** Closing a handle the caller holds: two levels of fuel always suffice. *)
Lemma close_spec st fl h :
  ipc_inv st (h :: fl) ->
  exists st', close_handle_ref CLOSE_FUEL st h = Done st' /\ ipc_inv st' fl /\ ipc_tasks st' = ipc_tasks st.
Proof.
  intros Hi. destruct h as [c s|l]; [by apply close_channel_spec|].
  assert (0 < total st (HListener l :: fl) (HListener l)) as Hp.
  { rewrite total_cons, one_same. pose proof (total_nonneg st fl (HListener l)). lia. }
  destruct (inv_listener _ _ _ Hi Hp) as [ls Hl]. destruct (co_list _ _ _ _ Hi l ls Hl) as (Hr & Hd & Hs).
  unfold CLOSE_FUEL. cbn [close_handle_ref]. unfold listener_at. rewrite Hl. cbn [unwrap mbind outcome_bind].
  rewrite (proj2 (Z.eqb_neq _ 0)) by lia. cbn [negb ls_refs ls_pending].
  destruct (Z.eqb_spec (ls_refs ls - 1) 0) as [Hz|Hz].
  - destruct (unregister_listener_spec (set_listener st l (mk_IpcListener 0 [])) l
      (co_names _ _ _ _ Hi) (co_named _ _ _ _ Hi)) as (nms & -> & Hn1 & Hn2 & Hsub).
    set (st1 := set_named (set_listener st l (mk_IpcListener 0 [])) nms).
    assert (forall x, total st1 (ls_pending ls ++ fl) x = total st (HListener l :: fl) x - one x (HListener l)) as Ht.
    { intros x. rewrite total_cons. change (total st1 (ls_pending ls ++ fl) x)
        with (total (set_listener st l (mk_IpcListener 0 [])) (ls_pending ls ++ fl) x).
      rewrite (total_set_listener _ _ _ _ _ _ Hl). cbn [ls_pending]. rewrite count_nil.
      unfold total. rewrite count_app. lia. }
    assert (ipc_inv st1 (ls_pending ls ++ fl)) as Hi1.
    { unfold ipc_inv. eapply (core_set_listener (channels st) (listeners st) (named st));
        [exact Hi|exact Hl|..]; cbn [ls_refs ls_pending].
      - intros x Hx. rewrite Ht, one_diff by done. lia.
      - apply total_nonneg.
      - rewrite Ht, one_same. lia.
      - done.
      - constructor.
      - done.
      - done.
      - intros n l' Hin. destruct (Hsub n l' Hin) as [? ?]. split; [done|]. intros ->. done. }
    destruct (close_servers_spec 0 (ls_pending ls) st1 fl Hs Hi1) as (st2 & Hf & Hi2 & Ht2).
    exists st2. split; [exact Hf|]. split; [done|]. by rewrite Ht2.
  - eexists. split; [reflexivity|]. split; [|done].
    assert (forall x, total (set_listener st l (mk_IpcListener (ls_refs ls - 1) (ls_pending ls))) fl x =
       total st (HListener l :: fl) x - one x (HListener l)) as Ht.
    { intros x. rewrite total_same_pending by done. rewrite total_cons. lia. }
    unfold ipc_inv. eapply (core_set_listener (channels st) (listeners st) (named st));
      [exact Hi|exact Hl|..]; cbn [ls_refs ls_pending].
    + intros x Hx. rewrite Ht, one_diff by done. lia.
    + apply total_nonneg.
    + rewrite Ht, one_same. lia.
    + rewrite Ht, one_same. lia.
    + done.
    + apply (co_names _ _ _ _ Hi).
    + apply (co_named _ _ _ _ Hi).
    + intros n l' Hin. split; [done|]. intros _. rewrite Ht, one_same. lia.
Qed.
End Operations.

(** New objects. *)
Lemma core_new_channel chs lss nms cnt cnt' ch :
  core chs lss nms cnt ->
  (forall h, cnt' h = cnt h + one h (HChannel (length chs) false) + one h (HChannel (length chs) true)) ->
  (forall s, pick s (ch_refs ch) = 1 /\ endpoint_ok (pick s (ch_endpoints ch)) 1) ->
  core (chs ++ [ch]) lss nms cnt'.
Proof.
  intros [H1 H2 H3 H4 H5 H6 H7 H8] Heq Hch.
  assert (forall s, cnt (HChannel (length chs) s) = 0) as H0.
  { intros s. pose proof (H1 (HChannel (length chs) s)).
    destruct (Z.eq_dec (cnt (HChannel (length chs) s)) 0) as [|Hn]; [done|].
    assert (length chs < length chs)%nat; [apply (H2 _ s)|]; lia. }
  assert (forall c s, c <> length chs -> cnt' (HChannel c s) = cnt (HChannel c s)) as Hold.
  { intros c s Hne. rewrite Heq, !one_diff by congruence. lia. }
  assert (forall s, cnt' (HChannel (length chs) s) = 1) as Hnew.
  { intros s. rewrite Heq, H0. destruct s; rewrite one_same, one_diff by congruence; lia. }
  assert (forall l, cnt' (HListener l) = cnt (HListener l)) as Hl.
  { intros l. rewrite Heq, !one_diff by congruence. lia. }
  split; try done.
  - intros h. rewrite Heq. pose proof (H1 h). pose proof (one_bound h (HChannel (length chs) false)).
    pose proof (one_bound h (HChannel (length chs) true)). lia.
  - intros c s Hp. rewrite length_app. cbn. destruct (decide (c = length chs)) as [->|Hne]; [lia|].
    rewrite Hold in Hp by done. specialize (H2 c s Hp). lia.
  - intros l. rewrite Hl. apply H3.
  - intros c ch0 s Hc. apply lookup_app_Some in Hc as [Hc|[Hge Hc]].
    + pose proof (lookup_lt_Some _ _ _ Hc). rewrite Hold by lia. by apply (H4 c ch0 s).
    + apply list_lookup_singleton_Some in Hc as [Hz <-]. assert (c = length chs) as -> by lia.
      rewrite Hnew. apply Hch.
  - intros l ls Hls. rewrite Hl. by apply (H5 l ls).
  - intros n l. rewrite Hl. apply H8.
Qed.

Lemma core_new_listener chs lss nms cnt cnt' :
  core chs lss nms cnt ->
  (forall h, cnt' h = cnt h + one h (HListener (length lss))) ->
  core chs (lss ++ [mk_IpcListener 1 []]) nms cnt'.
Proof.
  intros [H1 H2 H3 H4 H5 H6 H7 H8] Heq.
  assert (cnt (HListener (length lss)) = 0) as H0.
  { pose proof (H1 (HListener (length lss))).
    destruct (Z.eq_dec (cnt (HListener (length lss))) 0) as [|Hn]; [done|].
    assert (length lss < length lss)%nat; [apply H3|]; lia. }
  assert (forall l, l <> length lss -> cnt' (HListener l) = cnt (HListener l)) as Hold.
  { intros l Hne. rewrite Heq, one_diff by congruence. lia. }
  assert (cnt' (HListener (length lss)) = 1) as Hnew by (rewrite Heq, H0, one_same; lia).
  assert (forall c s, cnt' (HChannel c s) = cnt (HChannel c s)) as Hc.
  { intros c s. rewrite Heq, one_diff by congruence. lia. }
  split; try done.
  - intros h. rewrite Heq. pose proof (H1 h). pose proof (one_bound h (HListener (length lss))). lia.
  - intros c s. rewrite Hc. apply H2.
  - intros l Hp. rewrite length_app. cbn. destruct (decide (l = length lss)) as [->|Hne]; [lia|].
    rewrite Hold in Hp by done. specialize (H3 l Hp). lia.
  - intros c ch s Hch. rewrite Hc. by apply (H4 c ch s).
  - intros l ls Hls. apply lookup_app_Some in Hls as [Hls|[Hge Hls]].
    + pose proof (lookup_lt_Some _ _ _ Hls). rewrite Hold by lia. by apply (H5 l ls).
    + apply list_lookup_singleton_Some in Hls as [Hz <-]. assert (l = length lss) as -> by lia.
      rewrite Hnew. cbn. split; [done|]. split; [lia|constructor].
  - intros n l Hin. specialize (H8 n l Hin). rewrite Heq. pose proof (one_bound (HListener l) (HListener (length lss))). lia.
Qed.

Section MoreOperations.
Implicit Types (st : ipc_state) (fl : list IpcHandle).

Lemma new_channel_spec st fl :
  ipc_inv st fl ->
  let '(st', h0, h1) := new_channel_pair st in
  ipc_inv st' (h0 :: h1 :: fl) /\ ipc_tasks st' = ipc_tasks st /\ listeners st' = listeners st /\ named st' = named st.
Proof.
  intros Hi. unfold new_channel_pair, alloc_channel. split; [|done].
  eapply core_new_channel; [exact Hi|..].
  - intros h. rewrite !total_cons. unfold total. cbn [ipc_tasks listeners]. lia.
  - intros []; (split; [done|]); (split; cbn; [done|done|unfold IPC_QUEUE_DEPTH, llen; simpl; lia|constructor]).
Qed.

Lemma new_listener_spec st fl :
  ipc_inv st fl ->
  let '(st', l) := alloc_listener st (mk_IpcListener 1 []) in
  ipc_inv st' (HListener l :: fl) /\ ipc_tasks st' = ipc_tasks st /\ named st' = named st /\ l = length (listeners st).
Proof.
  intros Hi. unfold alloc_listener. split; [|done].
  eapply core_new_listener; [exact Hi|].
  intros h. rewrite total_cons. unfold total, pending_handles. cbn [ipc_tasks listeners].
  rewrite map_app, concat_app, count_app. cbn. rewrite count_nil. lia.
Qed.

(** Replacing the handle table of a task moves handles between the table and
    the stack. *)
Lemma inv_set_table st fl fl' pid p hs :
  ipc_inv st fl -> ipc_tasks st !! pid = Some (Some p) ->
  (forall h, count h (table_of hs) + count h fl' = count h (table_of (ipc_handles p)) + count h fl) ->
  ipc_inv (set_tasks st (<[pid := Some (set_ipc_handles p hs)]> (ipc_tasks st))) fl'.
Proof.
  intros Hi Hp Heq. eapply core_ext; [|exact Hi]. intros h. unfold total, set_tasks. cbn [ipc_tasks listeners].
  rewrite (count_tasks_insert _ _ _ _ _ Hp). cbn [ipc_handles set_ipc_handles]. specialize (Heq h). lia.
Qed.

(** A task is created with a table made of handles the caller holds, or removed
    and its handles returned to the caller. *)
Lemma inv_spawn st fl child p :
  ipc_inv st (table_of (ipc_handles p) ++ fl) -> ipc_tasks st !! child = Some None ->
  ipc_inv (set_tasks st (<[child := Some p]> (ipc_tasks st))) fl.
Proof.
  intros Hi Hc. eapply core_ext; [|exact Hi]. intros h. unfold total, set_tasks. cbn [ipc_tasks listeners].
  unfold table_handles. rewrite (count_concat_insert task_handles _ _ _ _ _ Hc). cbn [task_handles].
  rewrite count_app, count_nil. lia.
Qed.

Lemma inv_exit st fl pid p :
  ipc_inv st fl -> ipc_tasks st !! pid = Some (Some p) ->
  ipc_inv (set_tasks st (<[pid := None]> (ipc_tasks st))) (table_of (ipc_handles p) ++ fl).
Proof.
  intros Hi Hp. eapply core_ext; [|exact Hi]. intros h. unfold total, set_tasks. cbn [ipc_tasks listeners].
  unfold table_handles. rewrite (count_concat_insert task_handles _ _ _ _ _ Hp). cbn [task_handles].
  rewrite count_app, count_nil. lia.
Qed.

Lemma install_spec cur st fl h p :
  ipc_inv st (h :: fl) -> task_at (ipc_tasks st) cur = Done p ->
  exists st' r, install_current_handle cur st h = Done (st', r) /\
  match r with
  | Ok _ => ipc_inv st' fl /\ (exists hs, ipc_tasks st' = <[Z.to_nat cur := Some (set_ipc_handles p hs)]> (ipc_tasks st)) /\
            channels st' = channels st /\ listeners st' = listeners st /\ named st' = named st
  | Err h' => h' = h /\ st' = st
  end.
Proof.
  intros Hi Hp. unfold install_current_handle. rewrite Hp. cbn [mbind outcome_bind].
  destruct (none_positions (ipc_handles p) 0) as [|slot rest] eqn:En; [by eexists _, _|].
  assert (ipc_handles p !! slot = Some None) as Hslot.
  { destruct (none_positions_lookup (ipc_handles p) 0 slot) as [_ Hs]; [rewrite En; by left|].
    by rewrite Nat.sub_0_r in Hs. }
  unfold set_current_handles. rewrite (set_task_spec _ _ _ _ Hp). cbn [mbind outcome_bind].
  eexists _, _. split; [reflexivity|]. apply task_at_Done in Hp as [_ Hp]. split; [|split; [by eexists|done]].
  eapply inv_set_table; [exact Hi|exact Hp|]. intros x.
  rewrite (count_table_insert _ _ _ _ _ Hslot). rewrite count_none, count_some, !count_cons. lia.
Qed.

Lemma install_pair_spec cur st fl h0 h1 p :
  ipc_inv st (h0 :: h1 :: fl) -> task_at (ipc_tasks st) cur = Done p ->
  exists st' r, install_current_pair cur st h0 h1 = Done (st', r) /\
  match r with
  | Some _ => ipc_inv st' fl /\ (exists hs, ipc_tasks st' = <[Z.to_nat cur := Some (set_ipc_handles p hs)]> (ipc_tasks st))
  | None => st' = st
  end.
Proof.
  intros Hi Hp. unfold install_current_pair. rewrite Hp. cbn [mbind outcome_bind].
  destruct (none_positions (ipc_handles p) 0) as [|s0 [|s1 rest]] eqn:En; [by eexists _, _|by eexists _, _|].
  pose proof (none_positions_NoDup (ipc_handles p) 0) as Hnd. rewrite En in Hnd.
  apply NoDup_cons in Hnd as [Hne _].
  assert (s0 <> s1) as Hs01 by (intros ->; apply Hne; left).
  assert (forall s, s ∈ s0 :: s1 :: rest -> ipc_handles p !! s = Some None) as Hslot.
  { intros s Hin. rewrite <- En in Hin. destruct (none_positions_lookup _ _ _ Hin) as [_ Hs].
    by rewrite Nat.sub_0_r in Hs. }
  unfold set_current_handles. rewrite (set_task_spec _ _ _ _ Hp). cbn [mbind outcome_bind].
  eexists _, _. split; [reflexivity|]. apply task_at_Done in Hp as [_ Hp]. split; [|by eexists].
  eapply inv_set_table; [exact Hi|exact Hp|]. intros x.
  rewrite (count_table_insert _ s1 None). 2: { rewrite list_lookup_insert_ne by done. apply Hslot. right. left. }
  rewrite (count_table_insert _ s0 None) by (apply Hslot; left).
  rewrite !count_none, !count_some, !count_cons. lia.
Qed.

(** A handle found in the table of a task counts. *)
Lemma current_handle_ref_spec cur st fl id p :
  ipc_inv st fl -> task_at (ipc_tasks st) cur = Done p ->
  exists o, current_handle_ref cur st id = Done o /\
    match o with Some h => 0 < total st fl h /\ zget (ipc_handles p) id = Some (Some h) | None => True end.
Proof.
  intros Hi Hp. unfold current_handle_ref. pose proof Hp as [H0 Hl]%task_at_Done.
  rewrite (proj2 (idx_Done _ _ _) (conj H0 Hl)). cbn [mbind outcome_bind].
  eexists. split; [reflexivity|]. destruct (zget (ipc_handles p) id) as [[h|]|] eqn:E; try done.
  split; [|done]. unfold total. pose proof (count_nonneg h fl). pose proof (count_nonneg h (pending_handles (listeners st))).
  pose proof (count_table_le _ _ _ h Hl). unfold zget in E. case_bool_decide; [|done].
  apply table_of_elem, count_pos in E. lia.
Qed.

(** Queue operations leave the counts alone. *)
Lemma inv_set_endpoint st fl c s ch e :
  ipc_inv st fl -> channels st !! c = Some ch ->
  endpoint_ok e (total st fl (HChannel c s)) ->
  ipc_inv (set_channel st c (mk_IpcChannel (ch_refs ch) (put s e (ch_endpoints ch)))) fl.
Proof.
  intros Hi Hc He. unfold ipc_inv. destruct (co_chan _ _ _ _ Hi c ch s Hc) as [Hr _].
  eapply (core_set_side _ _ _ (total st fl) _ c ch _ s); [exact Hi|exact Hc|done| | | |].
  - apply total_nonneg.
  - intros t Ht. cbn. by rewrite pick_put_other.
  - done.
  - cbn. by rewrite pick_put_same.
Qed.
End MoreOperations.

(** ** Every system call keeps the invariant *)

(** The call returned, every handle is accounted for, and of the tasks only the
    caller's handle table changed. *)
Definition kept (cur : Z) (p : Process) st st' : Prop :=
  ipc_inv st' [] /\
  exists hs, ipc_tasks st' = <[Z.to_nat cur := Some (set_ipc_handles p hs)]> (ipc_tasks st).

Section Calls.
Implicit Types (st : ipc_state) (args : ProcessContext) (m : user_memory).

Lemma set_own_handles p : set_ipc_handles p (ipc_handles p) = p.
Proof. by destruct p. Qed.

Lemma kept_same cur p st st' :
  task_at (ipc_tasks st) cur = Done p -> ipc_inv st' [] -> ipc_tasks st' = ipc_tasks st -> kept cur p st st'.
Proof.
  intros [_ Hp]%task_at_Done Hi Ht. split; [done|]. exists (ipc_handles p).
  rewrite set_own_handles, Ht. symmetry. by apply list_insert_id.
Qed.

Lemma kept_after cur p st st1 st' :
  ipc_inv st' [] -> ipc_tasks st' = ipc_tasks st1 ->
  (exists hs, ipc_tasks st1 = <[Z.to_nat cur := Some (set_ipc_handles p hs)]> (ipc_tasks st)) -> kept cur p st st'.
Proof. intros Hi Ht [hs Hs]. split; [done|]. exists hs. congruence. Qed.

Context (cur : Z) (p : Process).

Lemma sys_create_kept st args :
  ipc_inv st [] -> task_at (ipc_tasks st) cur = Done p ->
  exists st' args' r, sys_create cur st args = Done (st', args', r) /\ kept cur p st st'.
Proof.
  intros Hi Hp. unfold sys_create. pose proof (new_channel_spec st [] Hi) as Hn.
  destruct (new_channel_pair st) as [[st1 h0] h1]. destruct Hn as (Hi1 & Ht1 & _).
  destruct (install_pair_spec cur st1 [] h0 h1 p Hi1) as (st2 & r & -> & Hr); [by rewrite Ht1|].
  cbn [mbind outcome_bind]. destruct r as [[s0 s1]|].
  - destruct Hr as [Hi2 Ht2]. eexists _, _, _. split; [reflexivity|]. rewrite Ht1 in Ht2. by split.
  - subst st2. destruct (close_spec st1 [h1] h0 Hi1) as (st3 & -> & Hi3 & Ht3). cbn [mbind outcome_bind].
    destruct (close_spec st3 [] h1 Hi3) as (st4 & -> & Hi4 & Ht4). cbn [mbind outcome_bind].
    eexists _, _, _. split; [reflexivity|]. apply kept_same; congruence.
Qed.

Lemma current_handle_spec st id :
  ipc_inv st [] -> task_at (ipc_tasks st) cur = Done p ->
  exists o, current_handle cur st id = Done o /\
    match o with
    | Some (c, s) => 0 < total st [] (HChannel c s) /\ (exists ch, channels st !! c = Some ch) /\
        zget (ipc_handles p) id = Some (Some (HChannel c s))
    | None => forall c s, zget (ipc_handles p) id <> Some (Some (HChannel c s))
    end.
Proof.
  intros Hi Hp. unfold current_handle. destruct (current_handle_ref_spec cur st [] id p Hi Hp) as (o & Ho & Hs).
  rewrite Ho. cbn [mbind outcome_bind]. eexists. split; [reflexivity|].
  unfold current_handle_ref in Ho. pose proof Hp as [H0 Hl]%task_at_Done.
  rewrite (proj2 (idx_Done _ _ _) (conj H0 Hl)) in Ho. cbn [mbind outcome_bind] in Ho.
  destruct o as [[c s|l]|].
  - destruct Hs as [Hs Hz]. split; [done|]. split; [by eapply inv_channel|done].
  - destruct Hs as [_ ->]. done.
  - destruct (zget (ipc_handles p) id) as [[?|]|]; done.
Qed.

Lemma sys_send_kept st args m :
  ipc_inv st [] -> task_at (ipc_tasks st) cur = Done p -> 0 <= rcx args ->
  exists st' r, sys_send cur st args m = Done (st', r) /\ kept cur p st st'.
Proof.
  intros Hi Hp Hlen. unfold sys_send.
  destruct (Z.ltb_spec IPC_MAX_MSG_SIZE (rcx args)) as [|Hmax]; [eexists _, _; split; [reflexivity|by apply kept_same]|].
  destruct (current_handle_spec st (rsi args) Hi Hp) as ([[c s]|] & -> & Hs); cbn [mbind outcome_bind].
  2: { eexists _, _; split; [reflexivity|by apply kept_same]. }
  destruct Hs as (Hpos & (ch & Hc) & _). unfold channel_at. rewrite Hc. cbn [unwrap mbind outcome_bind].
  destruct (_ || _) eqn:Ecl; [eexists _, _; split; [reflexivity|by apply kept_same]|].
  destruct (Z.leb_spec IPC_QUEUE_DEPTH (llen (ep_queue (pick (negb s) (ch_endpoints ch))))) as [|Hd];
    [eexists _, _; split; [reflexivity|by apply kept_same]|].
  eexists _, _. split; [reflexivity|]. apply kept_same; [done| |done].
  apply inv_set_endpoint; [done|done|]. apply orb_false_iff in Ecl as [_ Ecl].
  destruct (co_chan _ _ _ _ Hi c ch (negb s) Hc) as [_ [Hcl Hem Hdep Hsz]].
  split; cbn [ep_closed ep_queue].
  - exact Hcl.
  - intros He. congruence.
  - rewrite llen_app. unfold llen at 2. cbn. lia.
  - apply Forall_app. split; [done|]. constructor; [|constructor]. rewrite user_slice_len by done. lia.
Qed.

Lemma sys_recv_kept st args m :
  ipc_inv st [] -> task_at (ipc_tasks st) cur = Done p ->
  exists st' m' r, sys_recv cur st args m = Done (st', m', r) /\ kept cur p st st'.
Proof.
  intros Hi Hp. unfold sys_recv.
  destruct (current_handle_spec st (rsi args) Hi Hp) as ([[c s]|] & -> & Hs); cbn [mbind outcome_bind].
  2: { eexists _, _, _; split; [reflexivity|by apply kept_same]. }
  destruct Hs as (Hpos & (ch & Hc) & _). unfold channel_at. rewrite Hc. cbn [unwrap mbind outcome_bind].
  destruct (ep_queue (pick s (ch_endpoints ch))) as [|msg queue] eqn:Eq.
  { destruct (_ || _); eexists _, _, _; (split; [reflexivity|by apply kept_same]). }
  eexists _, _, _. split; [reflexivity|]. apply kept_same; [done| |done].
  apply inv_set_endpoint; [done|done|].
  destruct (co_chan _ _ _ _ Hi c ch s Hc) as [_ [Hcl Hem Hdep Hsz]]. rewrite Eq in *.
  split; cbn [ep_closed ep_queue].
  - exact Hcl.
  - intros He. by specialize (Hem He).
  - rewrite llen_cons in Hdep. lia.
  - by apply Forall_cons in Hsz as [_ Hsz].
Qed.

Lemma ipc_close_kept st args :
  ipc_inv st [] -> task_at (ipc_tasks st) cur = Done p -> 0 <= rsi args ->
  exists st' r, ipc_close cur st args = Done (st', r) /\ kept cur p st st'.
Proof.
  intros Hi Hp H0. unfold ipc_close. rewrite Hp. cbn [mbind outcome_bind].
  destruct (Z.leb_spec (llen (ipc_handles p)) (rsi args)); [eexists _, _; split; [reflexivity|by apply kept_same]|].
  destruct (idx_in_range (ipc_handles p) (rsi args)) as (o & -> & Ho); [lia|]. cbn [mbind outcome_bind].
  unfold set_current_handles. rewrite (set_task_spec _ _ _ _ Hp). cbn [mbind outcome_bind].
  pose proof Hp as [_ Hl]%task_at_Done.
  set (st1 := set_tasks st _).
  assert (ipc_inv st1 (option_list o)) as Hi1.
  { eapply inv_set_table; [exact Hi|exact Hl|]. intros h. rewrite (count_table_insert _ _ _ _ _ Ho), count_none, count_nil. lia. }
  destruct o as [h|].
  - destruct (close_spec st1 [] h Hi1) as (st2 & -> & Hi2 & Ht2). cbn [mbind outcome_bind].
    eexists _, _. split; [reflexivity|]. eapply kept_after; [done|exact Ht2|by eexists].
  - eexists _, _. split; [reflexivity|]. eapply kept_after; [exact Hi1|reflexivity|by eexists].
Qed.

Lemma sys_dup_kept st args :
  ipc_inv st [] -> task_at (ipc_tasks st) cur = Done p ->
  exists st' r, sys_dup cur st args = Done (st', r) /\ kept cur p st st'.
Proof.
  intros Hi Hp. unfold sys_dup.
  destruct (current_handle_ref_spec cur st [] (rsi args) p Hi Hp) as ([h|] & -> & Hs); cbn [mbind outcome_bind].
  2: { eexists _, _; split; [reflexivity|by apply kept_same]. }
  destruct Hs as [Hs _]. destruct (dup_spec st [] h Hi Hs) as (st1 & -> & Hi1 & Ht1 & _). cbn [mbind outcome_bind].
  destruct (install_spec cur st1 [] h p Hi1) as (st2 & r & -> & Hr); [by rewrite Ht1|]. cbn [mbind outcome_bind].
  destruct r as [slot|h'].
  - destruct Hr as (Hi2 & Ht2 & _). eexists _, _. split; [reflexivity|]. rewrite Ht1 in Ht2. by split.
  - destruct Hr as [-> ->]. destruct (close_spec st1 [] h Hi1) as (st3 & -> & Hi3 & Ht3). cbn [mbind outcome_bind].
    eexists _, _. split; [reflexivity|]. apply kept_same; congruence.
Qed.

Lemma inv_set_named st fl nms :
  ipc_inv st fl -> NoDup nms.*1 -> NoDup nms.*2 ->
  (forall n l, (n, l) ∈ nms -> 0 < total st fl (HListener l)) -> ipc_inv (set_named st nms) fl.
Proof. intros [H1 H2 H3 H4 H5 H6 H7 H8] Hn1 Hn2 Hl. by split. Qed.

Lemma sys_bind_kept st args m :
  ipc_inv st [] -> task_at (ipc_tasks st) cur = Done p ->
  exists st' r, sys_bind cur st args m = Done (st', r) /\ kept cur p st st'.
Proof.
  intros Hi Hp. unfold sys_bind.
  destruct (copy_name_arg m (rsi args) (rdx args)) as [name|]; [|eexists _, _; split; [reflexivity|by apply kept_same]].
  pose proof (new_listener_spec st [] Hi) as Hn.
  destruct (alloc_listener st (mk_IpcListener 1 [])) as [st1 l]. destruct Hn as (Hi1 & Ht1 & Hnm1 & Hl).
  case_bool_decide as Hin.
  - destruct (close_spec st1 [] (HListener l) Hi1) as (st2 & -> & Hi2 & Ht2). cbn [mbind outcome_bind].
    eexists _, _. split; [reflexivity|]. apply kept_same; congruence.
  - assert (ipc_inv (set_named st1 (named st1 ++ [(name, l)])) [HListener l]) as Hi2.
    { apply inv_set_named; [done|..].
      - rewrite fmap_app. apply NoDup_app. split; [apply (co_names _ _ _ _ Hi1)|]. split; [|apply NoDup_singleton].
        intros x Hx. cbn. rewrite list_elem_of_singleton. by intros ->.
      - rewrite fmap_app. apply NoDup_app. split; [apply (co_named _ _ _ _ Hi1)|]. split; [|apply NoDup_singleton].
        intros x Hx. cbn. rewrite list_elem_of_singleton. intros ->.
        apply list_elem_of_fmap in Hx as ([n l'] & He & Hx). cbn in He. subst l'. rewrite Hnm1 in Hx.
        assert (l < length (listeners st))%nat; [|lia]. apply (co_valid_l _ _ _ _ Hi).
        by apply (co_live _ _ _ _ Hi n).
      - intros n l' [Hx|Hx]%elem_of_app; [by apply (co_live _ _ _ _ Hi1 n)|].
        apply list_elem_of_singleton in Hx as [= -> ->]. rewrite total_cons, one_same. pose proof (total_nonneg st1 [] (HListener l)). lia. }
    destruct (install_spec cur _ [] (HListener l) p Hi2) as (st3 & r & -> & Hr); [by cbn; rewrite Ht1|].
    cbn [mbind outcome_bind]. destruct r as [slot|h'].
    + destruct Hr as (Hi3 & Ht3 & _). eexists _, _. split; [reflexivity|]. cbn [set_named ipc_tasks] in Ht3.
      rewrite Ht1 in Ht3. by split.
    + destruct Hr as [-> ->].
      assert (ipc_inv (unregister_listener_by_name (set_named st1 (named st1 ++ [(name, l)])) name) [HListener l]) as Hi3.
      { unfold unregister_listener_by_name. destruct (list_find _ _) as [[i e]|] eqn:Ef; [|done].
        apply list_find_Some in Ef as (He & _). cbn [set_named named] in He |- *.
        destruct (swap_remove_names _ _ _ He (co_names _ _ _ _ Hi2) (co_named _ _ _ _ Hi2)) as (Ha & Hb & Hsub).
        apply inv_set_named; [exact Hi2|exact Ha|exact Hb|].
        intros n l' Hx. destruct (Hsub _ Hx) as [Hx' _]. by apply (co_live _ _ _ _ Hi2 n). }
      destruct (close_spec _ [] (HListener l) Hi3) as (st4 & -> & Hi4 & Ht4). cbn [mbind outcome_bind].
      eexists _, _. split; [reflexivity|]. apply kept_same; [done|done|].
      rewrite Ht4. unfold unregister_listener_by_name. destruct (list_find _ _) as [[i e]|]; cbn [set_named ipc_tasks]; exact Ht1.
Qed.

(** A server handle is queued on a live listener. *)
Lemma inv_push_pending st fl l ls c pending :
  ipc_inv st (HChannel c true :: fl) -> listeners st !! l = Some ls -> 0 < total st fl (HListener l) ->
  Forall is_server pending -> (forall h, count h pending = count h (ls_pending ls) + one h (HChannel c true)) ->
  ipc_inv (set_listener st l (mk_IpcListener (ls_refs ls) pending)) fl.
Proof.
  intros Hi Hl Hpos Hs Hcnt.
  assert (forall x, total (set_listener st l (mk_IpcListener (ls_refs ls) pending)) fl x = total st (HChannel c true :: fl) x) as Ht.
  { intros x. rewrite (total_set_listener _ _ _ _ _ _ Hl), total_cons. cbn [ls_pending]. specialize (Hcnt x). lia. }
  destruct (co_list _ _ _ _ Hi l ls Hl) as (Hr & Hd & Hs').
  unfold ipc_inv. eapply (core_set_listener (channels st) (listeners st) (named st)); [exact Hi|exact Hl|..]; cbn [ls_refs ls_pending].
  - intros x _. apply Ht.
  - apply total_nonneg.
  - by rewrite Ht.
  - rewrite Ht, total_cons, one_diff by done. lia.
  - done.
  - apply (co_names _ _ _ _ Hi).
  - apply (co_named _ _ _ _ Hi).
  - intros n l' Hin. split; [done|]. intros _. rewrite Ht, total_cons, one_diff by done. lia.
Qed.

Lemma sys_connect_kept st args m :
  ipc_inv st [] -> task_at (ipc_tasks st) cur = Done p ->
  exists st' r, sys_connect cur st args m = Done (st', r) /\ kept cur p st st'.
Proof.
  intros Hi Hp. unfold sys_connect.
  destruct (copy_name_arg m (rsi args) (rdx args)) as [name|]; [|eexists _, _; split; [reflexivity|by apply kept_same]].
  destruct (list_find _ (named st)) as [[i [n l]]|] eqn:Ef; [|eexists _, _; split; [reflexivity|by apply kept_same]].
  apply list_find_Some in Ef as (Hin%list_elem_of_lookup_2 & _).
  pose proof (co_live _ _ _ _ Hi n l Hin) as Hlive.
  unfold new_channel_pair. pose proof (new_channel_spec st [] Hi) as Hn. unfold new_channel_pair in Hn.
  destruct (alloc_channel st _) as [st1 c]. destruct Hn as (Hi1 & Ht1 & Hls1 & Hnm1).
  assert (0 < total st1 [HChannel c true] (HListener l)) as Hlive1.
  { pose proof (count_nonneg (HListener l) [HChannel c true]). unfold total in *. rewrite count_nil in Hlive.
    rewrite Ht1, Hls1. lia. }
  destruct (install_spec cur st1 [HChannel c true] (HChannel c false) p Hi1) as (st2 & r & -> & Hr); [by rewrite Ht1|].
  cbn [mbind outcome_bind]. destruct r as [slot|h'].
  - destruct Hr as (Hi2 & [hs Ht2] & Hc2 & Hls2 & Hnm2).
    assert (0 < total st2 [] (HListener l)) as Hlive2.
    { assert ((n, l) ∈ named st2) as Hin2 by (by rewrite Hnm2, Hnm1).
      pose proof (co_live _ _ _ _ Hi2 n l Hin2) as Hx. rewrite total_cons, one_diff in Hx by done. lia. }
    destruct (inv_listener st2 _ l Hi2) as [ls Hl]; [rewrite total_cons, one_diff by done; lia|].
    unfold listener_at. rewrite Hl. cbn [unwrap mbind outcome_bind].
    eexists _, _. split; [reflexivity|]. split.
    + eapply inv_push_pending; [exact Hi2|exact Hl|exact Hlive2|..].
      * destruct (co_list _ _ _ _ Hi2 l ls Hl) as (_ & _ & Hs). apply Forall_app. split; [done|].
        constructor; [by exists c|constructor].
      * intros h. rewrite count_app, count_cons, count_nil. lia.
    + exists hs. cbn [set_listener ipc_tasks]. by rewrite Ht2, Ht1.
  - destruct Hr as [-> ->].
    destruct (close_spec st1 [HChannel c true] (HChannel c false) Hi1) as (st3 & -> & Hi3 & Ht3). cbn [mbind outcome_bind].
    destruct (close_spec st3 [] (HChannel c true) Hi3) as (st4 & -> & Hi4 & Ht4). cbn [mbind outcome_bind].
    eexists _, _. split; [reflexivity|]. apply kept_same; congruence.
Qed.

Lemma sys_accept_kept st args :
  ipc_inv st [] -> task_at (ipc_tasks st) cur = Done p ->
  exists st' r, sys_accept cur st args = Done (st', r) /\ kept cur p st st'.
Proof.
  intros Hi Hp. unfold sys_accept, current_listener.
  destruct (current_handle_ref_spec cur st [] (rsi args) p Hi Hp) as (o & -> & Hs); cbn [mbind outcome_bind].
  destruct o as [[c s|l]|]; try (eexists _, _; split; [reflexivity|by apply kept_same]).
  destruct Hs as [Hpos _]. destruct (inv_listener _ _ _ Hi Hpos) as [ls Hl].
  unfold listener_at. rewrite Hl. cbn [unwrap mbind outcome_bind].
  destruct (ls_pending ls) as [|h pending] eqn:Ep; [eexists _, _; split; [reflexivity|by apply kept_same]|].
  destruct (co_list _ _ _ _ Hi l ls Hl) as (Hr & Hd & Hsv). rewrite Ep in Hsv, Hd.
  apply Forall_cons in Hsv as [[c ->] Hsv].
  set (st1 := set_listener st l (mk_IpcListener (ls_refs ls) pending)).
  assert (forall x fl, total st1 (HChannel c true :: fl) x = total st fl x) as Ht.
  { intros x fl. rewrite total_cons. unfold st1. rewrite (total_set_listener _ _ _ _ _ _ Hl), Ep, count_cons. cbn [ls_pending]. lia. }
  assert (ipc_inv st1 [HChannel c true]) as Hi1.
  { unfold ipc_inv, st1. eapply (core_set_listener (channels st) (listeners st) (named st)); [exact Hi|exact Hl|..]; cbn [ls_refs ls_pending]; fold st1.
    - intros x _. apply Ht.
    - apply total_nonneg.
    - by rewrite Ht.
    - rewrite Ht. lia.
    - done.
    - apply (co_names _ _ _ _ Hi).
    - apply (co_named _ _ _ _ Hi).
    - intros n l' Hin. split; [done|]. intros _. by rewrite Ht. }
  destruct (install_spec cur st1 [] (HChannel c true) p Hi1) as (st2 & r & -> & Hr2); [done|]. cbn [mbind outcome_bind].
  destruct r as [slot|h'].
  - destruct Hr2 as (Hi2 & Ht2 & _). eexists _, _. split; [reflexivity|]. by split.
  - destruct Hr2 as [-> ->].
    assert (listeners st1 !! l = Some (mk_IpcListener (ls_refs ls) pending)) as Hl1.
    { unfold st1. cbn [set_listener listeners]. rewrite list_lookup_insert_eq by (by eapply lookup_lt_Some). done. }
    rewrite Hl1. cbn [unwrap mbind outcome_bind].
    eexists _, _. split; [reflexivity|]. apply kept_same; [done| |done].
    apply (inv_push_pending st1 [] l (mk_IpcListener (ls_refs ls) pending) c); [exact Hi1|exact Hl1| | |].
    + pose proof (Ht (HListener l) []) as Hx. rewrite total_cons, one_diff in Hx by done. lia.
    + constructor; [by exists c|done].
    + intros h. rewrite count_cons. cbn [ls_pending]. lia.
Qed.
End Calls.

(** ** Forking and exiting, as far as handles go *)

(** [copy_process] clones the table of the parent, [do_exit] releases it. *)
Definition ipc_fork (cur : Z) (child : nat) st (mk : Process -> Process) : outcome ipc_state :=
  p ← task_at (ipc_tasks st) cur;
  st ← clone_handle_table st (ipc_handles p);
  Done (set_tasks st (<[child := Some (mk p)]> (ipc_tasks st))).
Definition ipc_exit (cur : Z) st : outcome ipc_state :=
  p ← task_at (ipc_tasks st) cur;
  st ← release_handle_table st (ipc_handles p);
  Done (set_tasks st (<[Z.to_nat cur := None]> (ipc_tasks st))).

Section ForkExit.
Implicit Types (st : ipc_state) (fl : list IpcHandle).

Lemma clone_table_spec hs : forall st fl,
  ipc_inv st fl -> (forall h, h ∈ table_of hs -> 0 < total st fl h) ->
  exists st', clone_handle_table st hs = Done st' /\ ipc_inv st' (table_of hs ++ fl) /\ ipc_tasks st' = ipc_tasks st.
Proof.
  induction hs as [|[h|] hs IH]; intros st fl Hi Hpos; cbn [clone_handle_table]; [by exists st| |].
  - assert (h ∈ table_of (Some h :: hs)) as Hh by (apply (table_of_elem _ 0); done).
    destruct (dup_spec st fl h Hi (Hpos h Hh)) as (st1 & -> & Hi1 & Ht1 & Hsame). cbn [mbind outcome_bind].
    destruct (IH st1 (h :: fl) Hi1) as (st2 & -> & Hi2 & Ht2).
    { intros x Hx. rewrite total_cons, Hsame. pose proof (one_bound x h).
      assert (0 < total st fl x); [|lia]. apply Hpos. unfold table_of in *. cbn [map concat]. apply elem_of_app. by right. }
    exists st2. split; [done|]. split; [|congruence]. eapply core_ext; [|exact Hi2]. intros x.
    unfold total, table_of. cbn [map concat]. rewrite !count_app, count_cons, count_some. lia.
  - destruct (IH st fl Hi Hpos) as (st2 & -> & Hi2 & Ht2). by exists st2.
Qed.

Lemma release_table_spec hs : forall st fl,
  ipc_inv st (table_of hs ++ fl) ->
  exists st', release_handle_table st hs = Done st' /\ ipc_inv st' fl /\ ipc_tasks st' = ipc_tasks st.
Proof.
  induction hs as [|[h|] hs IH]; intros st fl Hi; cbn [release_handle_table]; [by exists st| |].
  - change (table_of (Some h :: hs) ++ fl) with (h :: table_of hs ++ fl) in Hi.
    destruct (close_spec st _ h Hi) as (st1 & -> & Hi1 & Ht1). cbn [mbind outcome_bind].
    destruct (IH st1 fl Hi1) as (st2 & -> & Hi2 & Ht2). exists st2. split; [done|]. split; [done|congruence].
  - by apply IH.
Qed.

(** Setting tasks commutes with the store operations, so the order in which
    [do_exit] empties the table does not matter. *)
Lemma count_own_table st fl cur p h :
  task_at (ipc_tasks st) cur = Done p -> h ∈ table_of (ipc_handles p) -> 0 < total st fl h.
Proof.
  intros [_ Hp]%task_at_Done Hh%count_pos. pose proof (count_table_le _ _ _ h Hp).
  unfold total. pose proof (count_nonneg h fl). pose proof (count_nonneg h (pending_handles (listeners st))). lia.
Qed.

Lemma fork_inv st cur child mk p :
  ipc_inv st [] -> task_at (ipc_tasks st) cur = Done p -> ipc_tasks st !! child = Some None ->
  ipc_handles (mk p) = ipc_handles p ->
  exists st', ipc_fork cur child st mk = Done st' /\ ipc_inv st' [].
Proof.
  intros Hi Hp Hc Hmk. unfold ipc_fork. rewrite Hp. cbn [mbind outcome_bind].
  destruct (clone_table_spec (ipc_handles p) st [] Hi) as (st1 & -> & Hi1 & Ht1).
  { intros h Hh. by eapply count_own_table. }
  cbn [mbind outcome_bind]. eexists. split; [reflexivity|].
  apply inv_spawn; [by rewrite Hmk|by rewrite Ht1].
Qed.

(** The stores do not see the tasks. *)
Lemma release_set_tasks hs : forall st tasks st',
  release_handle_table st hs = Done st' -> release_handle_table (set_tasks st tasks) hs = Done (set_tasks st' tasks).
Proof.
  assert (forall f st tasks h st', close_handle_ref f st h = Done st' ->
    close_handle_ref f (set_tasks st tasks) h = Done (set_tasks st' tasks)) as Hclose.
  { intros f. induction f as [|f IH]; intros st tasks h st'; [done|]. cbn [close_handle_ref]. destruct h as [c s|l].
    - unfold channel_at. cbn [set_tasks channels]. destruct (channels st !! c); [|done]. cbn. by intros [= <-].
    - unfold listener_at. cbn [set_tasks listeners]. destruct (listeners st !! l) as [ls|]; [|done]. cbn [unwrap mbind outcome_bind].
      destruct (negb _); [|by intros [= <-]]. cbn [ls_refs ls_pending]. destruct (_ =? 0); [|by intros [= <-]].
      assert (unregister_listener (set_listener (set_tasks st tasks) l (mk_IpcListener 0 [])) l
        = set_tasks (unregister_listener (set_listener st l (mk_IpcListener 0 [])) l) tasks) as ->.
      { unfold unregister_listener. cbn [set_listener set_tasks named]. by destruct (list_find _ _) as [[? ?]|]. }
      generalize (unregister_listener (set_listener st l (mk_IpcListener 0 [])) l). generalize (ls_pending ls).
      intros ps. induction ps as [|h ps IHh]; intros st1; cbn [fold_outcome]; [by intros [= <-]|].
      destruct (close_handle_ref f st1 h) as [st2| |] eqn:E; try done. rewrite (IH _ _ _ _ E). cbn. apply IHh. }
  induction hs as [|[h|] hs IH]; intros st tasks st'; cbn [release_handle_table]; [by intros [= <-]| |by apply IH].
  destruct (close_handle_ref CLOSE_FUEL st h) as [st1| |] eqn:E; try done. rewrite (Hclose _ _ _ _ _ E). cbn. apply IH.
Qed.

Lemma exit_inv st cur p :
  ipc_inv st [] -> task_at (ipc_tasks st) cur = Done p ->
  exists st', ipc_exit cur st = Done st' /\ ipc_inv st' [].
Proof.
  intros Hi Hp. unfold ipc_exit. rewrite Hp. cbn [mbind outcome_bind]. pose proof Hp as [_ Hl]%task_at_Done.
  pose proof (inv_exit st [] (Z.to_nat cur) p Hi Hl) as Hi1.
  destruct (release_table_spec (ipc_handles p) _ [] Hi1) as (st2 & Hr & Hi2 & Ht2).
  apply (release_set_tasks _ _ (ipc_tasks st)) in Hr.
  replace (set_tasks (set_tasks st (<[Z.to_nat cur:=None]> (ipc_tasks st))) (ipc_tasks st)) with st in Hr by (by destruct st).
  rewrite Hr. cbn [mbind outcome_bind]. eexists. split; [reflexivity|]. unfold set_tasks. cbn [ipc_tasks channels listeners named].
  cbn [set_tasks ipc_tasks] in Ht2. rewrite <- Ht2. by destruct st2.
Qed.
End ForkExit.

(** ** Runs of the system *)

(** Registers hold unsigned values. *)
Definition args_ok (args : ProcessContext) : Prop := 0 <= rcx args /\ 0 <= rsi args.

Inductive ipc_step : ipc_state -> ipc_state -> Prop :=
  | ipc_step_call st cur p args m st' args' m' :
      task_at (ipc_tasks st) cur = Done p -> args_ok args ->
      ipc_syscall cur st args m = Done (st', args', m') -> ipc_step st st'
  | ipc_step_fork st cur p child mk st' :
      task_at (ipc_tasks st) cur = Done p -> ipc_tasks st !! child = Some None ->
      ipc_handles (mk p) = ipc_handles p ->
      ipc_fork cur child st mk = Done st' -> ipc_step st st'
  | ipc_step_exit st cur p st' :
      task_at (ipc_tasks st) cur = Done p -> ipc_exit cur st = Done st' -> ipc_step st st'.

(** No channel, no listener, empty handle tables. *)
Definition ipc_boot (tasks : Tasks) : ipc_state := mk_ipc tasks [] [] [].

Lemma syscall_kept st cur p args m :
  ipc_inv st [] -> task_at (ipc_tasks st) cur = Done p -> args_ok args ->
  exists st' args' m', ipc_syscall cur st args m = Done (st', args', m') /\ kept cur p st st'.
Proof.
  intros Hi Hp [Hc Hs]. unfold ipc_syscall.
  repeat match goal with |- context [if ?b then _ else _] => destruct b end.
  - destruct (sys_create_kept cur p st args Hi Hp) as (st' & a' & r & -> & Hk). cbn. eauto 10.
  - destruct (sys_send_kept cur p st args m Hi Hp Hc) as (st' & r & -> & Hk). cbn. eauto 10.
  - destruct (sys_recv_kept cur p st args m Hi Hp) as (st' & m' & r & -> & Hk). cbn. eauto 10.
  - destruct (ipc_close_kept cur p st args Hi Hp Hs) as (st' & r & -> & Hk). cbn. eauto 10.
  - destruct (sys_dup_kept cur p st args Hi Hp) as (st' & r & -> & Hk). cbn. eauto 10.
  - destruct (sys_bind_kept cur p st args m Hi Hp) as (st' & r & -> & Hk). cbn. eauto 10.
  - destruct (sys_connect_kept cur p st args m Hi Hp) as (st' & r & -> & Hk). cbn. eauto 10.
  - destruct (sys_accept_kept cur p st args Hi Hp) as (st' & r & -> & Hk). cbn. eauto 10.
  - eexists _, _, _. split; [reflexivity|]. by apply kept_same.
Qed.

Lemma ipc_step_inv st st' : ipc_inv st [] -> ipc_step st st' -> ipc_inv st' [].
Proof.
  intros Hi Hstep. destruct Hstep as [st cur p args m st' args' m' Hp Ha Hc|st cur p child mk st' Hp Hch Hmk Hf|st cur p st' Hp He].
  - destruct (syscall_kept st cur p args m Hi Hp Ha) as (st1 & a1 & m1 & Hc1 & Hk & _).
    rewrite Hc in Hc1. by injection Hc1 as <- <- <-.
  - destruct (fork_inv st cur child mk p Hi Hp Hch Hmk) as (st1 & Hf1 & Hi1). rewrite Hf in Hf1. by injection Hf1 as <-.
  - destruct (exit_inv st cur p Hi Hp) as (st1 & He1 & Hi1). rewrite He in He1. by injection He1 as <-.
Qed.

Lemma boot_inv tasks : table_handles tasks = [] -> ipc_inv (ipc_boot tasks) [].
Proof.
  intros Ht. assert (forall h, total (ipc_boot tasks) [] h = 0) as H0.
  { intros h. unfold total. change (ipc_tasks (ipc_boot tasks)) with tasks. by rewrite Ht. }
  split; cbn [ipc_boot channels listeners named].
  - intros h. rewrite H0. lia.
  - intros c s. rewrite H0. lia.
  - intros l. rewrite H0. lia.
  - by intros c ch s Hc; rewrite lookup_nil in Hc.
  - by intros l ls Hl; rewrite lookup_nil in Hl.
  - constructor.
  - constructor.
  - intros n l Hin. by apply elem_of_nil in Hin.
Qed.

(** ** Properties *)

(** The handles that refer to a channel side or a listener: those in the handle
    tables of all tasks and those waiting to be accepted. *)
Definition handles_to st (h : IpcHandle) : Z := total st [] h.

(** C7: Reference counts are exact: after any sequence of IPC system calls by
    any task, forks and exits, every IPC call returns (no panic, no fuel
    exhaustion), the count of each channel side and listener is the number of
    handles that refer to it, a side is closed exactly when no handle to it is
    left, closed sides hold no messages, queues are at most 4096 messages long, of
    at most 4096 bytes each, no two registered names are equal or share a listener,
    and the listener of every name has a handle. *)
Theorem ipc_refcounts_exact (tasks : Tasks) (st : ipc_state) :
  table_handles tasks = [] -> rtc ipc_step (ipc_boot tasks) st ->
  (forall c ch s, channels st !! c = Some ch ->
     pick s (ch_refs ch) = handles_to st (HChannel c s) /\
     (ep_closed (pick s (ch_endpoints ch)) = true <-> handles_to st (HChannel c s) = 0) /\
     (ep_closed (pick s (ch_endpoints ch)) = true -> ep_queue (pick s (ch_endpoints ch)) = []) /\
     llen (ep_queue (pick s (ch_endpoints ch))) <= 4096 /\
     Forall (fun msg => llen msg <= 4096) (ep_queue (pick s (ch_endpoints ch)))) /\
  (forall l ls, listeners st !! l = Some ls -> ls_refs ls = handles_to st (HListener l)) /\
  NoDup (named st).*1 /\ NoDup (named st).*2 /\ (forall n l, (n, l) ∈ named st -> 0 < handles_to st (HListener l)) /\
  (forall cur p args m, task_at (ipc_tasks st) cur = Done p -> args_ok args -> returns (ipc_syscall cur st args m)).
Proof.
  intros Ht Hr.
  assert (ipc_inv st []) as Hi.
  { eapply rtc_ind_r with (P := fun st => ipc_inv st []); [by apply boot_inv| |exact Hr].
    intros x y _ Hstep Hx. by eapply ipc_step_inv. }
  split; [|split; [|split; [|split; [|split]]]].
  - intros c ch s Hc. destruct (co_chan _ _ _ _ Hi c ch s Hc) as [Hn [Hcl Hem Hd Hs]]. done.
  - intros l ls Hl. by destruct (co_list _ _ _ _ Hi l ls Hl).
  - apply (co_names _ _ _ _ Hi).
  - apply (co_named _ _ _ _ Hi).
  - apply (co_live _ _ _ _ Hi).
  - intros cur p args m Hp Ha. destruct (syscall_kept st cur p args m Hi Hp Ha) as (st' & a' & m' & -> & _).
    by eexists.
Qed.

Definition idle_process : Process :=
  mk_Process 0 context_default FPU_INIT 10 0 0 None Runnable (replicate 64 None) (replicate 64 None) (replicate 64 None).
Definition create_args : ProcessContext := context_default.

Lemma ipc_refcounts_exact_witness :
  exists st, rtc ipc_step (ipc_boot [Some idle_process; None]) st /\
    handles_to st (HChannel 0 true) = 2 /\
    forall ch, channels st !! 0%nat = Some ch -> pick true (ch_refs ch) = handles_to st (HChannel 0 true).
Proof.
  set (t0 := [Some idle_process; None] : Tasks).
  destruct (ipc_syscall 0 (ipc_boot t0) create_args (fun _ => 0)) as [[[st1 a1] m1]| |] eqn:E1;
    try (vm_compute in E1; discriminate).
  destruct (ipc_fork 0 1 st1 (fun p => p)) as [st2| |] eqn:E2.
  2, 3: vm_compute in E1; injection E1 as <- <- <-; vm_compute in E2; discriminate.
  assert (st1 = mk_ipc [Some (set_ipc_handles idle_process
      (Some (HChannel 0 false) :: Some (HChannel 0 true) :: replicate 62 None)); None]
      [mk_IpcChannel (1, 1) (endpoint_new, endpoint_new)] [] []) as Hst1.
  { vm_compute in E1. injection E1 as <- _ _. reflexivity. }
  exists st2.
  assert (rtc ipc_step (ipc_boot t0) st2) as Hr.
  { eapply rtc_l.
    { apply (ipc_step_call (ipc_boot t0) 0 idle_process create_args (fun _ => 0) st1 a1 m1);
        [reflexivity|split; cbn; lia|exact E1]. }
    eapply rtc_l; [|apply rtc_refl].
    eapply (ipc_step_fork st1 0 _ 1 (fun p => p) st2); [rewrite Hst1; reflexivity|rewrite Hst1; reflexivity|reflexivity|exact E2]. }
  split; [exact Hr|]. split.
  { rewrite Hst1 in E2. vm_compute in E2. injection E2 as <-. reflexivity. }
  intros ch Hch. exact (proj1 (proj1 (ipc_refcounts_exact t0 st2 eq_refl Hr) 0%nat ch true Hch)).
Defined.

(** ** Channels as queues *)

Definition queue_of st (c : nat) (s : side) : list IpcMessage :=
  match channels st !! c with Some ch => ep_queue (pick s (ch_endpoints ch)) | None => [] end.
Definition closed_side st (c : nat) (s : side) : bool :=
  match channels st !! c with Some ch => ep_closed (pick s (ch_endpoints ch)) | None => true end.

Lemma queue_of_set st c s ch e c' s' :
  channels st !! c = Some ch ->
  queue_of (set_channel st c (mk_IpcChannel (ch_refs ch) (put s e (ch_endpoints ch)))) c' s' =
    if bool_decide (c' = c /\ s' = s) then ep_queue e else queue_of st c' s'.
Proof.
  intros Hc. unfold queue_of, set_channel. cbn [channels].
  pose proof (lookup_lt_Some _ _ _ Hc). destruct (decide (c' = c)) as [->|Hne].
  - rewrite list_lookup_insert_eq by done. rewrite Hc. cbn [ch_endpoints].
    destruct (decide (s' = s)) as [->|Hs].
    + rewrite bool_decide_true by done. by rewrite pick_put_same.
    + rewrite bool_decide_false by tauto. by rewrite pick_put_other.
  - rewrite list_lookup_insert_ne by done. by rewrite bool_decide_false by tauto.
Qed.

(** Everything but the messages in the queues: the tables of all tasks, the
    listeners and names, and of every channel the counts and which sides are closed. *)
Definition apart_from_queues st :=
  (ipc_tasks st, listeners st, named st,
   (fun ch => (ch_refs ch, ep_closed (ch_endpoints ch).1, ep_closed (ch_endpoints ch).2)) <$> channels st).

Lemma apart_from_queues_set st c s ch q :
  channels st !! c = Some ch ->
  apart_from_queues (set_channel st c (mk_IpcChannel (ch_refs ch)
    (put s (mk_IpcEndpoint q (ep_closed (pick s (ch_endpoints ch)))) (ch_endpoints ch)))) = apart_from_queues st.
Proof.
  intros Hc. unfold apart_from_queues, set_channel. cbn [ipc_tasks listeners named channels]. f_equal.
  rewrite list_fmap_insert. apply list_insert_id. rewrite list_lookup_fmap, Hc. cbn [fmap option_fmap option_map ch_refs].
  by destruct ch as [? []], s.
Qed.

(** C17: A channel is a pair of bounded first-in first-out queues.  With a handle
    to side [s] of channel [c]: a send reports EMSGSIZE beyond 4096 bytes, else
    EPIPE when a side is closed, else EAGAIN when the queue of the other side
    holds 4096 messages, and then leaves the state as it was; otherwise it appends
    exactly the caller's bytes to that queue and returns their number.  A receive
    takes the oldest message of side [s], copies its first [len] bytes to the
    caller, writes no other byte and reports how many; on an empty queue it changes
    nothing and reports end of stream when a side is closed, else EAGAIN.  Neither
    touches another queue, a closed flag, a count, a listener, a name or a task. *)
Theorem channel_is_fifo (cur : Z) (p : Process) st (args : ProcessContext) (m : user_memory) (c : nat) (s : side) :
  ipc_inv st [] -> task_at (ipc_tasks st) cur = Done p -> args_ok args ->
  zget (ipc_handles p) (rsi args) = Some (Some (HChannel c s)) ->
  (exists st' r, sys_send cur st args m = Done (st', r) /\
     (r = if 4096 <? rcx args then -90
          else if closed_side st c s || closed_side st c (negb s) then -32
          else if 4096 <=? llen (queue_of st c (negb s)) then -11 else rcx args) /\
     (r < 0 -> st' = st) /\ apart_from_queues st' = apart_from_queues st /\
     (forall c' s', queue_of st' c' s' =
        if bool_decide (0 <= r /\ c' = c /\ s' = negb s) then queue_of st c' s' ++ [user_slice m (rdx args) (rcx args)]
        else queue_of st c' s')) /\
  (exists st' m' r, sys_recv cur st args m = Done (st', m', r) /\
     match queue_of st c s with
     | msg :: rest =>
         r = Z.min (rcx args) (llen msg) /\ user_slice m' (rdx args) r = take (Z.to_nat r) msg /\
         (forall a, a < rdx args \/ rdx args + r <= a -> m' a = m a) /\ apart_from_queues st' = apart_from_queues st /\
         forall c' s', queue_of st' c' s' = if bool_decide (c' = c /\ s' = s) then rest else queue_of st c' s'
     | [] => st' = st /\ m' = m /\ r = if closed_side st c s || closed_side st c (negb s) then 0 else -11
     end).
Proof.
  intros Hi Hp [Hc0 _] Hz.
  assert (current_handle cur st (rsi args) = Done (Some (c, s)) /\ exists ch, channels st !! c = Some ch) as [Hh [ch Hc]].
  { destruct (current_handle_spec cur p st (rsi args) Hi Hp) as ([[c1 s1]|] & Hh & Hs).
    - destruct Hs as (_ & Hch & Hz'). rewrite Hz in Hz'. injection Hz' as -> ->. done.
    - exfalso. by apply (Hs c s). }
  assert (forall t, closed_side st c t = ep_closed (pick t (ch_endpoints ch))) as Hcs by (intros t; unfold closed_side; by rewrite Hc).
  assert (forall t, queue_of st c t = ep_queue (pick t (ch_endpoints ch))) as Hqs by (intros t; unfold queue_of; by rewrite Hc).
  assert (forall r : Z, r < 0 -> exists st' r', Done (st, r) = Done (st', r') /\ r' = r /\ (r' < 0 -> st' = st) /\
    apart_from_queues st' = apart_from_queues st /\
    (forall c' s', queue_of st' c' s' = if bool_decide (0 <= r' /\ c' = c /\ s' = negb s)
        then queue_of st c' s' ++ [user_slice m (rdx args) (rcx args)] else queue_of st c' s')) as Hfail.
  { intros r Hr. exists st, r. do 4 (split; [done|]). intros c' s'. by rewrite bool_decide_false by lia. }
  rewrite !Hcs, !Hqs. split.
  - unfold sys_send. rewrite Hh. cbn [mbind outcome_bind]. unfold channel_at. rewrite Hc. cbn [unwrap mbind outcome_bind].
    unfold IPC_MAX_MSG_SIZE, IPC_QUEUE_DEPTH, IPC_EMSGSIZE, IPC_EPIPE, IPC_EAGAIN.
    destruct (4096 <? rcx args); [by apply Hfail|].
    destruct (ep_closed (pick s (ch_endpoints ch)) || ep_closed (pick (negb s) (ch_endpoints ch))); [by apply Hfail|].
    destruct (4096 <=? llen (ep_queue (pick (negb s) (ch_endpoints ch)))); [by apply Hfail|].
    eexists _, _. split; [reflexivity|]. split; [done|]. split; [lia|]. split; [by apply apart_from_queues_set|].
    intros c' s'. rewrite queue_of_set by done. cbn [ep_queue].
    destruct (decide (c' = c /\ s' = negb s)) as [[-> ->]|Hne].
    + rewrite !bool_decide_true by (done || (split; [lia|done])). by rewrite Hqs.
    + rewrite !bool_decide_false by tauto. done.
  - unfold sys_recv. rewrite Hh. cbn [mbind outcome_bind]. unfold channel_at. rewrite Hc. cbn [unwrap mbind outcome_bind].
    destruct (ep_queue (pick s (ch_endpoints ch))) as [|msg rest].
    + rewrite (orb_comm (ep_closed (pick s _))). destruct (_ || _); eexists _, _, _; (split; [reflexivity|]); done.
    + eexists _, _, _. split; [reflexivity|]. split; [done|].
      set (k := Z.min (rcx args) (llen msg)).
      assert (k = llen (take (Z.to_nat k) msg)) as Hk.
      { unfold k, llen. rewrite length_take. unfold llen. lia. }
      split; [rewrite Hk at 2; apply user_slice_write|]. split.
      { intros a Ha. unfold user_write. by rewrite bool_decide_false by lia. }
      split; [by apply apart_from_queues_set|]. intros c' s'. by rewrite queue_of_set.
Qed.

(** Three bytes go through a fresh channel of one process. *)
Lemma channel_is_fifo_witness :
  let p := set_ipc_handles idle_process (Some (HChannel 0 false) :: Some (HChannel 0 true) :: replicate 62 None) in
  let st := mk_ipc [Some p] [add_side_ref (add_side_ref channel_new false) true] [] [] in
  let args := set_rcx (set_rdx context_default 100) 3 in
  exists st' r, sys_send 0 st args (fun a => a) = Done (st', r) /\ r = 3 /\ queue_of st' 0 true = [[100; 101; 102]].
Proof.
  intros p st args.
  assert (ipc_inv st []) as Hi.
  { assert (ipc_inv (ipc_boot [Some idle_process]) []) as H0 by (apply boot_inv; reflexivity).
    destruct (sys_create_kept 0 idle_process (ipc_boot [Some idle_process]) context_default H0 eq_refl)
      as (st1 & a1 & r1 & E & Hk & _).
    assert (st = st1) as ->; [|exact Hk].
    pose proof (f_equal (fun o => match o with Done (s, _, _) => s | _ => st end) E) as E'. vm_compute in E'.
    vm_compute. exact E'. }
  destruct (channel_is_fifo 0 p st args (fun a => a) 0 false Hi eq_refl ltac:(split; cbn; lia) eq_refl)
    as [(st' & r & E & Hr & _ & _ & Hq) _].
  exists st', r. split; [exact E|]. assert (r = 3) as -> by (rewrite Hr; vm_compute; reflexivity).
  split; [reflexivity|]. rewrite Hq. vm_compute. reflexivity.
Defined.
