(* ===== verification/Sched.v ===== *)
(** * The scheduler: [task/sched.rs]

    A priority round-robin over time slices with PID 0 as the fallback, the
    wake-up of tasks that wait for a PID, and the context switch. *)

From S2P Require Import Prelude Words Process.

(** The registers a context switch touches besides the saved frame. *)
Record Cpu := mk_Cpu { cpu_cr3 : Z; cpu_fs : Z; cpu_fpu : list Z }.

(** The scheduler's statics with the task table and the processor. *)
(** @ task/sched.rs:10-11 CURRENT_TASK_ID *)
Record Sched := mk_Sched {
  sc_tasks : Tasks;
  sc_current : Z;
  sc_ticks : Z;
  sc_cpu : Cpu;
}.

(** @ task/sched.rs:12-12 IDLE_TASK_ID *)
Definition IDLE_TASK_ID : Z := 0.

Definition is_runnable (s : ProcessState) : bool := match s with Runnable => true | _ => false end.
(** [tasks.get(pid).is_none_or(Option::is_none)]. *)
Definition gone (tasks : Tasks) (pid : Z) : bool :=
  match zget tasks pid with Some (Some _) => false | _ => true end.

(** @ task/sched.rs:78-85 schedule -- waking a task whose target is gone *)
Definition wake (tasks : Tasks) (p : Process) : Process :=
  match state p with
  | Blocked (WaitPid pid) => if gone tasks pid then set_pstate p Runnable else p
  | Runnable => p
  end.

(** One iteration of the first loop: the table, the best slice so far and its
    owner. *)
(** @ task/sched.rs:76-95 schedule -- the selection loop *)
Definition select_step (current : Z) (acc : Tasks * Z * option nat) (tid : nat) : Tasks * Z * option nat :=
  let '(tasks, max_tm, max_tid) := acc in
  match tasks !! tid with
  | Some (Some p) =>
      let p := wake tasks p in
      let tasks := <[tid := Some p]> tasks in
      if bool_decide (Z.of_nat tid <> current) && (max_tm <? tm p) && is_runnable (state p)
      then (tasks, tm p, Some tid)
      else (tasks, max_tm, max_tid)
  | _ => acc
  end.
Definition select (current : Z) (tasks : Tasks) : Tasks * Z * option nat :=
  foldl (select_step current) (tasks, 0, None) (seq 0 (length tasks)).

(** @ task/sched.rs:97-101 schedule -- the slice reset *)
Definition reset_slices (tasks : Tasks) : Tasks := map (fmap (fun p => set_tm p 10)) tasks.

(** @ task/sched.rs:102-110 schedule -- the first other runnable task *)
Fixpoint first_runnable (current : Z) (tasks : Tasks) (tid : nat) : option nat :=
  match tasks with
  | [] => None
  | Some p :: rest =>
      if is_runnable (state p) && bool_decide (Z.of_nat tid <> current) then Some tid
      else first_runnable current rest (S tid)
  | None :: rest => first_runnable current rest (S tid)
  end.

(** @ task/sched.rs:72-125 schedule -- up to the context switch *)
Definition pick_next (current : Z) (tasks : Tasks) : outcome (Tasks * Z) :=
  let '(tasks, max_tm, max_tid) := select current tasks in
  '(tasks, max_tid) ←
    match max_tid with
    | Some tid => Done (tasks, Z.of_nat tid)
    | None =>
        let tasks := reset_slices tasks in
        match first_runnable current tasks 0 with
        | Some tid => Done (tasks, Z.of_nat tid)
        | None =>
            assert! match zget tasks IDLE_TASK_ID with Some (Some p) => is_runnable (state p) | _ => false end;
            Done (tasks, IDLE_TASK_ID)
        end
    end;
  p ← task_at tasks max_tid;
  t ← sub_ovf (tm p) 1;
  tasks ← set_task tasks max_tid (set_tm p t);
  Done (tasks, max_tid).

(** [context] is the frame on the kernel stack. *)
(** @ task/sched.rs:25-62 switch_to *)
Definition switch_to (sc : Sched) (ctx : ProcessContext) (next : Z) (current_process_exited : bool)
    : outcome (Sched * ProcessContext) :=
  let current := sc_current sc in
  n ← task_at (sc_tasks sc) next;
  assert! page_table n mod 4096 =? 0;
  let cpu := mk_Cpu (page_table n) (cpu_fs (sc_cpu sc)) (cpu_fpu (sc_cpu sc)) in
  tasks ←
    (if negb current_process_exited then
       cur ← task_at (sc_tasks sc) current;
       set_task (sc_tasks sc) current (set_fpu_fs (set_context cur ctx) (cpu_fpu cpu) (cpu_fs cpu))
     else Done (sc_tasks sc));
  nxt ← task_at tasks next;
  Done (mk_Sched tasks next (sc_ticks sc) (mk_Cpu (cpu_cr3 cpu) (fs nxt) (fpu_state nxt)), context nxt).

(** @ task/sched.rs:72-127 schedule *)
Definition schedule (sc : Sched) (ctx : ProcessContext) (current_process_exited : bool)
    : outcome (Sched * ProcessContext) :=
  '(tasks, next) ← pick_next (sc_current sc) (sc_tasks sc);
  switch_to (mk_Sched tasks (sc_current sc) (sc_ticks sc) (sc_cpu sc)) ctx next current_process_exited.

(** @ task/sched.rs:14-23 block_current *)
Definition block_current (sc : Sched) (ctx : ProcessContext) (reason : WaitReason) : outcome (Sched * ProcessContext) :=
  let current := sc_current sc in
  o ← idx (sc_tasks sc) current;
  tasks ← match o with
          | Some task => set_task (sc_tasks sc) current (set_pstate task (Blocked reason))
          | None => Done (sc_tasks sc)
          end;
  schedule (mk_Sched tasks current (sc_ticks sc) (sc_cpu sc)) ctx false.

(** The interrupt controller is acknowledged first; interrupts stay off until
    the end. *)
(** @ task/sched.rs:64-70 timer *)
Definition timer (sc : Sched) (ctx : ProcessContext) : outcome (Sched * ProcessContext) :=
  '(sc, ctx) ← schedule sc ctx false;
  Done (mk_Sched (sc_tasks sc) (sc_current sc) (wrapping_add 64 (sc_ticks sc) 1) (sc_cpu sc), ctx).

(** ** Selection *)

(** The table after the wake-ups. *)
Definition woken (tasks : Tasks) : Tasks := map (fmap (wake tasks)) tasks.

(** A candidate: a runnable task other than the current one. *)
Definition candidate (current : Z) (tasks : Tasks) (i : nat) (p : Process) : Prop :=
  tasks !! i = Some (Some p) /\ is_runnable (state p) = true /\ Z.of_nat i <> current.

Section Selection.
Context (current : Z) (tasks : Tasks).

Definition occupied (o : option (option Process)) : bool := match o with Some (Some _) => true | _ => false end.

Lemma gone_ext (t1 t2 : Tasks) pid :
  (forall j, occupied (t1 !! j) = occupied (t2 !! j)) -> gone t1 pid = gone t2 pid.
Proof.
  intros He. unfold gone, zget. case_bool_decide; [|done]. specialize (He (Z.to_nat pid)). revert He.
  destruct (t1 !! Z.to_nat pid) as [[?|]|], (t2 !! Z.to_nat pid) as [[?|]|]; cbn; intros; congruence.
Qed.

Lemma wake_ext (t1 t2 : Tasks) p : (forall pid, gone t1 pid = gone t2 pid) -> wake t1 p = wake t2 p.
Proof. intros He. unfold wake. destruct (state p) as [|[pid]]; [done|]. by rewrite He. Qed.

Lemma wake_tm t p : tm (wake t p) = tm p.
Proof. unfold wake. destruct (state p) as [|[pid]]; [done|]. by destruct (gone t pid). Qed.

Lemma woken_lookup i : woken tasks !! i = fmap (wake tasks) <$> tasks !! i.
Proof. unfold woken. by rewrite list_lookup_fmap. Qed.

(** What the loop knows after [k] iterations. *)
Record selected (k : nat) (t : Tasks) (max_tm : Z) (max_tid : option nat) : Prop := {
  sl_len : length t = length tasks;
  sl_tasks : forall j, t !! j = if bool_decide (j < k)%nat then woken tasks !! j else tasks !! j;
  sl_best : match max_tid with
    | Some i => (i < k)%nat /\ 0 < max_tm /\ exists p, candidate current (woken tasks) i p /\ tm p = max_tm
    | None => max_tm = 0 end;
  sl_max : forall j q, (j < k)%nat -> candidate current (woken tasks) j q -> tm q <= max_tm;
}.

Lemma selected_gone k t m i pid : selected k t m i -> gone t pid = gone tasks pid.
Proof.
  intros Hs. apply gone_ext. intros j. rewrite (sl_tasks _ _ _ _ Hs). case_bool_decide; [|done].
  rewrite woken_lookup. by destruct (tasks !! j) as [[p|]|].
Qed.

Lemma select_step_selected k t m i :
  (k < length tasks)%nat -> selected k t m i ->
  let '(t', m', i') := select_step current (t, m, i) k in selected (S k) t' m' i'.
Proof.
  intros Hk Hs. pose proof (sl_tasks _ _ _ _ Hs k) as Htk. rewrite bool_decide_false in Htk by lia.
  assert (forall p, wake t p = wake tasks p) as Hw.
  { intros p. apply wake_ext. intros pid. by eapply selected_gone. }
  pose proof (woken_lookup k) as Hwk. unfold select_step. rewrite Htk.
  destruct (lookup_lt_is_Some_2 tasks k Hk) as [[p|] Hp]; rewrite Hp in *; cbn [fmap option_fmap option_map] in Hwk.
  - rewrite Hw.
    assert (forall j, <[k := Some (wake tasks p)]> t !! j = if bool_decide (j < S k)%nat then woken tasks !! j else tasks !! j) as Ht'.
    { intros j. destruct (decide (j = k)) as [->|Hne].
      - rewrite list_lookup_insert_eq by (rewrite (sl_len _ _ _ _ Hs); lia). by rewrite bool_decide_true by lia.
      - rewrite list_lookup_insert_ne by done. rewrite (sl_tasks _ _ _ _ Hs).
        destruct (decide (j < k)%nat); [rewrite !bool_decide_true by lia|rewrite !bool_decide_false by lia]; done. }
    assert (length (<[k := Some (wake tasks p)]> t) = length tasks) as Hlen by (rewrite length_insert; apply Hs).
    destruct (bool_decide (Z.of_nat k <> current) && (m <? tm (wake tasks p)) && is_runnable (state (wake tasks p))) eqn:Et.
    + apply andb_true_iff in Et as [Et Hr]. apply andb_true_iff in Et as [Hc%bool_decide_eq_true Hm%Z.ltb_lt].
      split; [done|done| |].
      * split; [lia|]. split; [|by exists (wake tasks p)].
        pose proof (sl_best _ _ _ _ Hs) as Hb. destruct i as [i|]; [destruct Hb as (_ & ? & _)|]; lia.
      * intros j q Hj Hq. destruct (decide (j = k)) as [->|Hne].
        -- destruct Hq as (Hq & _). rewrite Hwk in Hq. by injection Hq as <-.
        -- pose proof (sl_max _ _ _ _ Hs j q ltac:(lia) Hq). lia.
    + split; [done|done| |].
      * pose proof (sl_best _ _ _ _ Hs) as Hb. destruct i as [i|]; [|done]. destruct Hb as (? & ? & ?). split; [lia|done].
      * intros j q Hj Hq. destruct (decide (j = k)) as [->|Hne]; [|apply (sl_max _ _ _ _ Hs j q ltac:(lia) Hq)].
        destruct Hq as (Hq & Hr & Hc). rewrite Hwk in Hq. injection Hq as <-.
        rewrite Hr, bool_decide_true, andb_true_r in Et by done. cbn in Et. apply Z.ltb_ge in Et. lia.
  - split; [apply Hs| | |].
    + intros j. rewrite (sl_tasks _ _ _ _ Hs). destruct (decide (j = k)) as [->|Hne].
      * rewrite bool_decide_false, bool_decide_true by lia. by rewrite Hp, Hwk.
      * destruct (decide (j < k)%nat); [rewrite !bool_decide_true by lia|rewrite !bool_decide_false by lia]; done.
    + pose proof (sl_best _ _ _ _ Hs) as Hb. destruct i as [i|]; [|done]. destruct Hb as (? & ? & ?). split; [lia|done].
    + intros j q Hj Hq. destruct (decide (j = k)) as [->|Hne]; [|apply (sl_max _ _ _ _ Hs j q ltac:(lia) Hq)].
      destruct Hq as (Hq & _). congruence.
Qed.

Lemma select_spec :
  exists m i, select current tasks = (woken tasks, m, i) /\
  match i with
  | Some i => 0 < m /\ (exists p, candidate current (woken tasks) i p /\ tm p = m) /\
      (forall j q, candidate current (woken tasks) j q -> tm q <= m)
  | None => m = 0 /\ forall j q, candidate current (woken tasks) j q -> tm q <= 0
  end.
Proof.
  assert (forall k, (k <= length tasks)%nat ->
    let '(t, m, i) := foldl (select_step current) (tasks, 0, None) (seq 0 k) in selected k t m i) as Hgen.
  { intros k. induction k as [|k IH]; intros Hk.
    - cbn. split; [done|done|done|]. intros j q Hj. lia.
    - rewrite seq_S, foldl_app. cbn [foldl Nat.add]. specialize (IH ltac:(lia)).
      destruct (foldl _ _ (seq 0 k)) as [[t m] i]. by apply select_step_selected. }
  specialize (Hgen (length tasks) ltac:(lia)). unfold select.
  destruct (foldl _ _ _) as [[t m] i]. exists m, i.
  assert (t = woken tasks) as ->.
  { apply list_eq. intros j. rewrite (sl_tasks _ _ _ _ Hgen). case_bool_decide; [done|].
    rewrite woken_lookup, lookup_ge_None_2 by lia. done. }
  split; [done|].
  assert (forall j q, candidate current (woken tasks) j q -> tm q <= m) as Hmax.
  { intros j q Hq. apply (sl_max _ _ _ _ Hgen j q); [|done]. destruct Hq as (Hq & _).
    apply lookup_lt_Some in Hq. unfold woken in Hq. by rewrite length_map in Hq. }
  pose proof (sl_best _ _ _ _ Hgen) as Hb. destruct i as [i|].
  - destruct Hb as (_ & ? & ?). done.
  - subst m. done.
Qed.

Lemma first_runnable_spec (t : Tasks) k :
  match first_runnable current t k with
  | Some i => exists p, (k <= i)%nat /\ t !! (i - k)%nat = Some (Some p) /\ is_runnable (state p) = true /\ Z.of_nat i <> current
  | None => forall j p, t !! j = Some (Some p) -> is_runnable (state p) = true -> Z.of_nat (k + j) = current
  end.
Proof.
  revert k. induction t as [|o t IH]; intros k; [done|]. cbn [first_runnable].
  assert (match first_runnable current t (S k) with
   | Some i => exists p, (k <= i)%nat /\ (o :: t) !! (i - k)%nat = Some (Some p) /\ is_runnable (state p) = true /\ Z.of_nat i <> current
   | None => forall j p, (o :: t) !! S j = Some (Some p) -> is_runnable (state p) = true -> Z.of_nat (k + S j) = current
   end) as Hrest.
  { specialize (IH (S k)). destruct (first_runnable current t (S k)) as [i|].
    - destruct IH as (p & Hle & Hl & Hr & Hc). exists p. split; [lia|].
      replace (i - k)%nat with (S (i - S k)) by lia. done.
    - intros j p Hl Hr. specialize (IH j p Hl Hr). lia. }
  destruct o as [p|].
  - destruct (is_runnable (state p)) eqn:Er; cbn [andb].
    + case_bool_decide as Hc.
      * exists p. rewrite Nat.sub_diag. split; [lia|done].
      * destruct (first_runnable current t (S k)); [done|]. intros [|j] q Hl Hr; [|by apply (Hrest j q)].
        rewrite Nat.add_0_r. destruct (Z.eq_dec (Z.of_nat k) current); [done|]. by exfalso.
    + destruct (first_runnable current t (S k)); [done|]. intros [|j] q Hl Hr; [|by apply (Hrest j q)].
      injection Hl as <-. congruence.
  - destruct (first_runnable current t (S k)); [done|]. intros [|j] q Hl Hr; [done|by apply (Hrest j q)].
Qed.
End Selection.

(** ** The choice *)

(** PID 0 exists and is runnable. *)
Definition idle_ok (tasks : Tasks) : Prop := exists p, tasks !! 0%nat = Some (Some p) /\ state p = Runnable.
(** Slices are unsigned. *)
Definition slices_ok (tasks : Tasks) : Prop := forall i p, tasks !! i = Some (Some p) -> 0 <= tm p.

(** What [schedule] decides: the best candidate with slice left; or, when no
    candidate has any, everybody gets a new slice and the first candidate runs,
    or PID 0 when there is none. *)
Inductive decision (current : Z) (tasks : Tasks) : Tasks -> nat -> Prop :=
  | decide_best i p :
      candidate current (woken tasks) i p -> 0 < tm p ->
      (forall j q, candidate current (woken tasks) j q -> tm q <= tm p) ->
      decision current tasks (<[i := Some (set_tm p (tm p - 1))]> (woken tasks)) i
  | decide_reset i p :
      (forall j q, candidate current (woken tasks) j q -> tm q <= 0) ->
      woken tasks !! i = Some (Some p) -> state p = Runnable ->
      (Z.of_nat i <> current \/ (i = 0%nat /\ forall j q, ~ candidate current (woken tasks) j q)) ->
      decision current tasks (<[i := Some (set_tm p 9)]> (reset_slices (woken tasks))) i.

Section Choice.
Context (current : Z) (tasks : Tasks).

Lemma is_runnable_true s : is_runnable s = true <-> s = Runnable.
Proof. destruct s; split; done. Qed.

Lemma idle_woken : idle_ok tasks -> idle_ok (woken tasks).
Proof.
  intros (p & Hp & Hs). exists (wake tasks p). rewrite woken_lookup, Hp. split; [done|].
  unfold wake. by rewrite Hs.
Qed.

Lemma reset_lookup (t : Tasks) i : reset_slices t !! i = fmap (fun p => set_tm p 10) <$> t !! i.
Proof. unfold reset_slices. by rewrite list_lookup_fmap. Qed.

Lemma charge (t : Tasks) i p :
  t !! i = Some (Some p) -> 1 <= tm p ->
  (p0 ← task_at t (Z.of_nat i); t0 ← sub_ovf (tm p0) 1;
   t' ← set_task t (Z.of_nat i) (set_tm p0 t0); Done (t', Z.of_nat i))
  = Done (<[i := Some (set_tm p (tm p - 1))]> t, Z.of_nat i).
Proof.
  intros Hp Ht.
  assert (task_at t (Z.of_nat i) = Done p) as Hat by (apply task_at_Done; rewrite Nat2Z.id; split; [lia|done]).
  rewrite Hat. cbn [mbind outcome_bind]. unfold sub_ovf. rewrite (proj2 (Z.leb_le _ _)) by lia.
  cbn [mbind outcome_bind]. rewrite (set_task_spec _ _ _ _ Hat). by rewrite Nat2Z.id.
Qed.

Lemma pick_next_decision :
  idle_ok tasks ->
  exists tasks' next, pick_next current tasks = Done (tasks', Z.of_nat next) /\ decision current tasks tasks' next.
Proof.
  intros Hidle. unfold pick_next. destruct (select_spec current tasks) as (m & i & -> & Hi).
  destruct i as [i|].
  - destruct Hi as (Hm & (p & Hc & <-) & Hmax). cbn [mbind outcome_bind]. pose proof Hc as (Hp & _ & _).
    rewrite (charge _ _ _ Hp) by lia. eexists _, _. split; [reflexivity|]. by apply decide_best.
  - destruct Hi as [_ Hmax]. pose proof (idle_woken Hidle) as (p0 & Hp0 & Hs0).
    pose proof (first_runnable_spec current (reset_slices (woken tasks)) 0) as Hf.
    destruct (first_runnable current (reset_slices (woken tasks)) 0) as [i|].
    + destruct Hf as (q & _ & Hq & Hr & Hc). rewrite Nat.sub_0_r in Hq. cbn [mbind outcome_bind].
      pose proof Hq as Hq'. rewrite reset_lookup in Hq'.
      destruct (woken tasks !! i) as [[p|]|] eqn:Hp; try done. injection Hq' as <-.
      rewrite (charge _ _ _ Hq) by (cbn; lia). eexists _, _. split; [reflexivity|].
      change (set_tm (set_tm p 10) (tm (set_tm p 10) - 1)) with (set_tm p 9).
      apply decide_reset; [done|done|by apply is_runnable_true|by left].
    + assert (reset_slices (woken tasks) !! 0%nat = Some (Some (set_tm p0 10))) as Hr0 by (by rewrite reset_lookup, Hp0).
      unfold zget. rewrite bool_decide_true by (unfold IDLE_TASK_ID; lia). unfold IDLE_TASK_ID at 1.
      change (Z.to_nat 0) with 0%nat. rewrite Hr0. cbn [state set_tm]. rewrite Hs0. cbn [is_runnable mbind outcome_bind].
      change IDLE_TASK_ID with (Z.of_nat 0). rewrite (charge _ _ _ Hr0) by (cbn; lia).
      eexists _, _. split; [reflexivity|].
      change (set_tm (set_tm p0 10) (tm (set_tm p0 10) - 1)) with (set_tm p0 9).
      apply decide_reset; [done|done|done|]. right. split; [done|].
      intros j q (Hq & Hr & Hc). apply Hc. apply (Hf j (set_tm q 10)); [|done]. by rewrite reset_lookup, Hq.
Qed.
End Choice.

(** ** Consequences of a decision *)

Section Decision.
Context (current : Z) (tasks tasks' : Tasks) (next : nat).
Hypothesis Hd : decision current tasks tasks' next.

Lemma decision_length : length tasks' = length tasks.
Proof.
  destruct Hd; rewrite length_insert; unfold reset_slices, woken; by rewrite ?length_map.
Qed.

(** Every task keeps everything but its slice and a wait that is over. *)
Lemma decision_frame i :
  tasks' !! i = None /\ tasks !! i = None \/
  tasks' !! i = Some None /\ tasks !! i = Some None \/
  exists p t, tasks !! i = Some (Some p) /\ tasks' !! i = Some (Some (set_tm (wake tasks p) t)).
Proof.
  assert (forall q, set_tm q (tm q) = q) as Hself by (by intros []).
  destruct Hd as [n p (Hp & _ & _) _ _|n p _ Hp _ _]; destruct (decide (i = n)) as [->|Hne].
  - rewrite list_lookup_insert_eq by (by eapply lookup_lt_Some). rewrite woken_lookup in Hp.
    destruct (tasks !! n) as [[q|]|]; try done. injection Hp as <-. do 2 right. by eexists q, _.
  - rewrite list_lookup_insert_ne by done. rewrite woken_lookup.
    destruct (tasks !! i) as [[q|]|]; [|by right; left|by left]. do 2 right. exists q, (tm (wake tasks q)). by rewrite Hself.
  - rewrite list_lookup_insert_eq by (unfold reset_slices; rewrite length_map; by eapply lookup_lt_Some).
    rewrite woken_lookup in Hp. destruct (tasks !! n) as [[q|]|]; try done. injection Hp as <-. do 2 right. by eexists q, _.
  - rewrite list_lookup_insert_ne by done. rewrite reset_lookup, woken_lookup.
    destruct (tasks !! i) as [[q|]|]; [|by right; left|by left]. do 2 right. by exists q, 10.
Qed.

(** The chosen task is there, runnable, and not the current one unless PID 0 is
    the only choice. *)
Lemma decision_next :
  exists p, tasks' !! next = Some (Some p) /\ state p = Runnable /\
    (Z.of_nat next = current -> next = 0%nat /\ forall j q, ~ candidate current (woken tasks) j q).
Proof.
  destruct Hd as [n p (Hp & Hr & Hc) _ _|n p _ Hp Hr Hc].
  - eexists. rewrite list_lookup_insert_eq by (by eapply lookup_lt_Some). split; [done|].
    split; [by apply is_runnable_true|done].
  - eexists. rewrite list_lookup_insert_eq by (unfold reset_slices; rewrite length_map; by eapply lookup_lt_Some).
    split; [done|]. split; [done|]. intros He. by destruct Hc.
Qed.

Lemma decision_idle : idle_ok tasks -> idle_ok tasks'.
Proof.
  intros (p & Hp & Hs). destruct (decision_frame 0) as [[_ H0]|[[_ H0]|(q & t & Hq & Hq')]]; try congruence.
  assert (q = p) as -> by congruence. eexists. split; [exact Hq'|]. cbn. unfold wake. by rewrite Hs.
Qed.

Lemma decision_slices : slices_ok tasks -> slices_ok tasks'.
Proof.
  intros Hok i q Hq.
  assert (slices_ok (woken tasks)) as Hw.
  { intros j r Hr. rewrite woken_lookup in Hr. destruct (tasks !! j) as [[r'|]|] eqn:E; try done.
    injection Hr as <-. rewrite wake_tm. by apply (Hok j). }
  destruct Hd as [n p (Hp & _ & _) Hpos _|n p _ Hp _ _]; destruct (decide (i = n)) as [->|Hne].
  - rewrite list_lookup_insert_eq in Hq by (by eapply lookup_lt_Some). injection Hq as <-. cbn. lia.
  - rewrite list_lookup_insert_ne in Hq by done. by apply (Hw i).
  - rewrite list_lookup_insert_eq in Hq by (unfold reset_slices; rewrite length_map; by eapply lookup_lt_Some).
    injection Hq as <-. cbn. lia.
  - rewrite list_lookup_insert_ne, reset_lookup in Hq by done.
    destruct (woken tasks !! i) as [[r|]|]; try done. injection Hq as <-. cbn. lia.
Qed.
End Decision.

(** ** Runs of timer interrupts *)

Fixpoint total_tm (tasks : Tasks) : Z :=
  match tasks with
  | [] => 0
  | Some p :: tasks => tm p + total_tm tasks
  | None :: tasks => total_tm tasks
  end.

Section Totals.
Implicit Types (tasks : Tasks).

Lemma total_tm_insert tasks i p q :
  tasks !! i = Some (Some p) -> total_tm (<[i := Some q]> tasks) = total_tm tasks - tm p + tm q.
Proof.
  revert i. induction tasks as [|o tasks IH]; intros [|i] Hi; try done.
  - injection Hi as ->. cbn. lia.
  - specialize (IH i Hi). change (<[S i := Some q]> (o :: tasks)) with (o :: <[i := Some q]> tasks).
    destruct o; cbn [total_tm]; lia.
Qed.

Lemma total_tm_map f tasks : (forall p, tm (f p) = tm p) -> total_tm (map (fmap f) tasks) = total_tm tasks.
Proof. intros Hf. induction tasks as [|[p|] tasks IH]; cbn [map total_tm fmap option_fmap option_map]; rewrite ?Hf; lia. Qed.

Lemma total_tm_reset tasks : total_tm (reset_slices tasks) <= 10 * llen tasks.
Proof.
  induction tasks as [|[p|] tasks IH]; [done|..]; unfold reset_slices in *;
    cbn [map total_tm fmap option_fmap option_map tm set_tm]; rewrite llen_cons; lia.
Qed.

Lemma slices_tail o tasks : slices_ok (o :: tasks) -> slices_ok tasks.
Proof. intros H i p Hp. by apply (H (S i)). Qed.

Lemma total_tm_nonneg tasks : slices_ok tasks -> 0 <= total_tm tasks.
Proof.
  induction tasks as [|[p|] tasks IH]; intros Hs; cbn [total_tm]; [lia|..].
  - specialize (IH (slices_tail _ _ Hs)). specialize (Hs 0%nat p eq_refl). lia.
  - apply IH. by eapply slices_tail.
Qed.

Lemma total_tm_ge tasks i p : slices_ok tasks -> tasks !! i = Some (Some p) -> tm p <= total_tm tasks.
Proof.
  revert i. induction tasks as [|o tasks IH]; intros [|i] Hs Hp; try done.
  - injection Hp as ->. cbn [total_tm]. pose proof (total_tm_nonneg tasks (slices_tail _ _ Hs)). lia.
  - specialize (IH i (slices_tail _ _ Hs) Hp). destruct o as [q|]; cbn [total_tm]; [|done].
    specialize (Hs 0%nat q eq_refl). lia.
Qed.
End Totals.

(** What the scheduler sees of a task. *)
Definition same_view (p q : Process) : Prop := tm p = tm q /\ state p = state q /\ page_table p = page_table q.
Definition same_views (t1 t2 : Tasks) : Prop := Forall2 (option_Forall2 same_view) t1 t2.

(** The scheduler's invariant: PID 0 runnable, the current task present, page
    tables page-aligned. *)
Record sched_ok (sc : Sched) : Prop := {
  so_idle : idle_ok (sc_tasks sc);
  so_slices : slices_ok (sc_tasks sc);
  so_current : exists p, task_at (sc_tasks sc) (sc_current sc) = Done p;
  so_tables : forall i p, sc_tasks sc !! i = Some (Some p) -> page_table p mod 4096 = 0;
}.

Section Runs.
Implicit Types (sc : Sched) (ctx : ProcessContext).

Lemma same_view_refl p : same_view p p.
Proof. done. Qed.
Lemma same_views_insert (t : Tasks) i p q :
  t !! i = Some (Some p) -> same_view q p -> same_views (<[i := Some q]> t) t.
Proof.
  intros Hp Hv. rewrite <- (list_insert_id t i (Some p)) at 2 by done.
  apply Forall2_insert; [|by constructor]. apply Forall_Forall2_diag, Forall_forall.
  intros [o|] _; by constructor.
Qed.
Lemma same_views_lookup (t1 t2 : Tasks) i p :
  same_views t1 t2 -> t2 !! i = Some (Some p) -> exists q, t1 !! i = Some (Some q) /\ same_view q p.
Proof.
  intros Hv Hp. destruct (Forall2_lookup_r _ _ _ _ _ Hv Hp) as (o & Ho & Hv'). inversion Hv' as [q ? Hq|]; subst. eauto.
Qed.
Lemma same_views_lookup_l (t1 t2 : Tasks) i p :
  same_views t1 t2 -> t1 !! i = Some (Some p) -> exists q, t2 !! i = Some (Some q) /\ same_view p q.
Proof.
  intros Hv Hp. destruct (Forall2_lookup_l _ _ _ _ _ Hv Hp) as (o & Ho & Hv'). inversion Hv' as [? q Hq|]; subst. eauto.
Qed.
Lemma same_views_total (t1 t2 : Tasks) : same_views t1 t2 -> total_tm t1 = total_tm t2.
Proof. induction 1 as [|o1 o2 t1 t2 [p q (Ht & _)|] _ IH]; cbn [total_tm]; lia. Qed.

(** A context switch between present tasks. *)
Lemma switch_to_spec sc ctx next cur n :
  task_at (sc_tasks sc) (sc_current sc) = Done cur -> task_at (sc_tasks sc) next = Done n ->
  page_table n mod 4096 = 0 ->
  let saved := set_fpu_fs (set_context cur ctx) (cpu_fpu (sc_cpu sc)) (cpu_fs (sc_cpu sc)) in
  let tasks := <[Z.to_nat (sc_current sc) := Some saved]> (sc_tasks sc) in
  exists nxt, task_at tasks next = Done nxt /\
    switch_to sc ctx next false =
      Done (mk_Sched tasks next (sc_ticks sc) (mk_Cpu (page_table n) (fs nxt) (fpu_state nxt)), context nxt).
Proof.
  intros Hc Hn Hal saved tasks. unfold switch_to. rewrite Hn. cbn [mbind outcome_bind]. rewrite Hal.
  cbn [Z.eqb negb]. rewrite Hc. cbn [mbind outcome_bind cpu_fpu cpu_fs]. rewrite (set_task_spec _ _ _ _ Hc).
  cbn [mbind outcome_bind]. fold saved tasks.
  apply task_at_Done in Hc as [Hc0 Hc]. apply task_at_Done in Hn as [Hn0 Hn].
  destruct (decide (Z.to_nat next = Z.to_nat (sc_current sc))) as [He|He].
  - exists saved. assert (task_at tasks next = Done saved) as ->.
    { apply task_at_Done. split; [done|]. unfold tasks. rewrite He. apply list_lookup_insert_eq. by eapply lookup_lt_Some. }
    done.
  - exists n. assert (task_at tasks next = Done n) as ->.
    { apply task_at_Done. split; [done|]. unfold tasks. by rewrite list_lookup_insert_ne. }
    done.
Qed.

Lemma timer_step sc ctx :
  sched_ok sc ->
  exists sc' ctx' t next, timer sc ctx = Done (sc', ctx') /\ sched_ok sc' /\
    decision (sc_current sc) (sc_tasks sc) t next /\ same_views (sc_tasks sc') t /\ sc_current sc' = Z.of_nat next.
Proof.
  intros [Hidle Hsl [cur Hcur] Htab]. unfold timer, schedule.
  destruct (pick_next_decision (sc_current sc) (sc_tasks sc) Hidle) as (t & next & -> & Hd).
  cbn [mbind outcome_bind].
  assert (forall i p, t !! i = Some (Some p) -> exists q, sc_tasks sc !! i = Some (Some q) /\ page_table p = page_table q) as Hpt.
  { intros i p Hp. destruct (decision_frame _ _ _ _ Hd i) as [[H0 _]|[[H0 _]|(q & tt & Hq & Hq')]]; try congruence.
    exists q. split; [done|]. rewrite Hp in Hq'. injection Hq' as ->. cbn. unfold wake.
    destruct (state q) as [|[pid]]; [done|]. by destruct (gone _ _). }
  apply task_at_Done in Hcur as [Hc0 Hcur].
  destruct (decision_frame _ _ _ _ Hd (Z.to_nat (sc_current sc))) as [[_ H0]|[[_ H0]|(q & tt & Hq & Hq')]]; try congruence.
  destruct (decision_next _ _ _ _ Hd) as (n & Hn & Hrun & _).
  destruct (Hpt _ _ Hn) as (n0 & Hn0 & Hpt0).
  destruct (switch_to_spec (mk_Sched t (sc_current sc) (sc_ticks sc) (sc_cpu sc)) ctx (Z.of_nat next) _ n
    (proj2 (task_at_Done t (sc_current sc) _) (conj Hc0 Hq')) (proj2 (task_at_Done t (Z.of_nat next) _) ltac:(rewrite Nat2Z.id; split; [lia|exact Hn])))
    as (nxt & Hnxt & ->).
  { rewrite Hpt0. by eapply Htab. }
  cbn [mbind outcome_bind sc_tasks sc_current sc_ticks sc_cpu] in *.
  set (t' := <[Z.to_nat (sc_current sc) := _]> t) in *.
  assert (same_views t' t) as Hv by (eapply same_views_insert; [exact Hq'|done]).
  eexists _, _, t, next. split; [reflexivity|]. split; [|done].
  split; cbn [sc_tasks sc_current].
  - destruct (decision_idle _ _ _ _ Hd Hidle) as (p0 & Hp0 & Hs0).
    destruct (same_views_lookup _ _ _ _ Hv Hp0) as (q0 & Hq0 & (_ & Hs & _)). exists q0. split; [done|congruence].
  - intros i p Hp. destruct (same_views_lookup_l _ _ _ _ Hv Hp) as (q0 & Hq0 & (-> & _)).
    by apply (decision_slices _ _ _ _ Hd Hsl i).
  - by exists nxt.
  - intros i p Hp. destruct (same_views_lookup_l _ _ _ _ Hv Hp) as (q0 & Hq0 & (_ & _ & ->)).
    destruct (Hpt _ _ Hq0) as (q1 & Hq1 & ->). by eapply Htab.
Qed.

(** [n] timer interrupts. *)
Fixpoint timer_n (n : nat) sc ctx : outcome (Sched * ProcessContext) :=
  match n with
  | O => Done (sc, ctx)
  | S n => '(sc, ctx) ← timer sc ctx; timer_n n sc ctx
  end.

Definition reaches sc ctx (i : nat) (bound : Z) : Prop :=
  exists n sc' ctx', (1 <= n)%nat /\ Z.of_nat n <= bound /\ timer_n n sc ctx = Done (sc', ctx') /\
    sc_current sc' = Z.of_nat i.

Lemma reaches_step sc ctx sc' ctx' i b :
  timer sc ctx = Done (sc', ctx') -> reaches sc' ctx' i (b - 1) -> reaches sc ctx i b.
Proof.
  intros Ht (n & sc2 & ctx2 & Hn & Hb & Hr & Hc). exists (S n), sc2, ctx2. split; [lia|]. split; [lia|].
  cbn [timer_n]. rewrite Ht. done.
Qed.
Lemma reaches_now sc ctx sc' ctx' i b :
  timer sc ctx = Done (sc', ctx') -> sc_current sc' = Z.of_nat i -> 1 <= b -> reaches sc ctx i b.
Proof.
  intros Ht Hc Hb. exists 1%nat, sc', ctx'. split; [lia|]. split; [lia|]. cbn [timer_n]. rewrite Ht. done.
Qed.
Lemma reaches_mono sc ctx i b b' : b <= b' -> reaches sc ctx i b -> reaches sc ctx i b'.
Proof. intros Hb (n & sc' & ctx' & ? & ? & ? & ?). exists n, sc', ctx'. split; [done|]. split; [lia|done]. Qed.

(** A runnable task with slice left. *)
Definition ready sc (i : nat) (t : Z) : Prop :=
  exists p, sc_tasks sc !! i = Some (Some p) /\ state p = Runnable /\ tm p = t.

Lemma ready_candidate sc i t :
  ready sc i t -> Z.of_nat i <> sc_current sc ->
  exists p, candidate (sc_current sc) (woken (sc_tasks sc)) i p /\ tm p = t.
Proof.
  intros (p & Hp & Hs & Ht) Hc. exists p.
  assert (wake (sc_tasks sc) p = p) as Hw by (unfold wake; by rewrite Hs).
  split; [|done]. split; [|by rewrite Hs]. rewrite woken_lookup, Hp. cbn. by rewrite Hw.
Qed.

Lemma total_best sc i p :
  candidate (sc_current sc) (woken (sc_tasks sc)) i p ->
  total_tm (<[i := Some (set_tm p (tm p - 1))]> (woken (sc_tasks sc))) = total_tm (sc_tasks sc) - 1.
Proof.
  intros (Hp & _ & _). rewrite (total_tm_insert _ _ _ _ Hp). cbn [tm set_tm]. unfold woken.
  rewrite total_tm_map by (intros; apply wake_tm). lia.
Qed.

(** The task another one was preferred to keeps its slice and stays runnable. *)
Lemma ready_best sc sc' i j p t :
  ready sc i t -> i <> j ->
  same_views (sc_tasks sc') (<[j := Some p]> (woken (sc_tasks sc))) -> ready sc' i t.
Proof.
  intros (q & Hq & Hs & Ht) Hne Hv.
  assert (<[j := Some p]> (woken (sc_tasks sc)) !! i = Some (Some (wake (sc_tasks sc) q))) as Hl.
  { rewrite list_lookup_insert_ne by done. by rewrite woken_lookup, Hq. }
  destruct (same_views_lookup _ _ _ _ Hv Hl) as (q' & Hq' & (Ht' & Hs' & _)).
  exists q'. split; [done|]. rewrite Hs', Ht', wake_tm. split; [|done]. unfold wake. by rewrite Hs.
Qed.
Lemma ready_reset sc sc' i j p t :
  ready sc i t -> i <> j ->
  same_views (sc_tasks sc') (<[j := Some p]> (reset_slices (woken (sc_tasks sc)))) -> ready sc' i 10.
Proof.
  intros (q & Hq & Hs & Ht) Hne Hv.
  assert (<[j := Some p]> (reset_slices (woken (sc_tasks sc))) !! i = Some (Some (set_tm (wake (sc_tasks sc) q) 10))) as Hl.
  { rewrite list_lookup_insert_ne by done. by rewrite reset_lookup, woken_lookup, Hq. }
  destruct (same_views_lookup _ _ _ _ Hv Hl) as (q' & Hq' & (Ht' & Hs' & _)).
  exists q'. split; [done|]. rewrite Hs', Ht'. split; [|done]. cbn. unfold wake. by rewrite Hs.
Qed.

Lemma llen_views (t1 t2 : Tasks) : same_views t1 t2 -> llen t1 = llen t2.
Proof. intros Hv. unfold llen. by rewrite (Forall2_length _ _ _ Hv). Qed.

Lemma reaches_with_slice i : forall (k : nat) sc ctx t,
  sched_ok sc -> ready sc i t -> 0 < t -> Z.of_nat i <> sc_current sc -> total_tm (sc_tasks sc) <= Z.of_nat k ->
  reaches sc ctx i (Z.of_nat k).
Proof.
  induction k as [|k IH]; intros sc ctx t Hok Hready Ht Hne Htot.
  { destruct Hready as (p & Hp & _ & <-). pose proof (total_tm_ge _ _ _ (so_slices _ Hok) Hp). lia. }
  destruct (timer_step sc ctx Hok) as (sc' & ctx' & tasks' & next & Hst & Hok' & Hd & Hv & Hcur).
  destruct (ready_candidate sc i t Hready Hne) as (pi & Hci & Hti).
  inversion Hd as [n p Hc Hpos Hmax|n p Hno]; subst.
  - destruct (decide (i = next)) as [->|Hin]; [eapply reaches_now; [done|done|lia]|].
    eapply reaches_step; [exact Hst|]. replace (Z.of_nat (S k) - 1) with (Z.of_nat k) by lia.
    eapply (IH _ _ (tm pi)); [done|by eapply ready_best|lia|lia|].
    rewrite (same_views_total _ _ Hv), (total_best sc _ _ Hc). lia.
  - exfalso. specialize (Hno i pi Hci). lia.
Qed.

Lemma reaches_any i : forall (k : nat) sc ctx t,
  sched_ok sc -> ready sc i t -> Z.of_nat i <> sc_current sc -> total_tm (sc_tasks sc) <= Z.of_nat k ->
  reaches sc ctx i (Z.of_nat k + 1 + 10 * llen (sc_tasks sc)).
Proof.
  induction k as [|k IH]; intros sc ctx t Hok Hready Hne Htot;
    (destruct (timer_step sc ctx Hok) as (sc' & ctx' & tasks' & next & Hst & Hok' & Hd & Hv & Hcur));
    pose proof (llen_nonneg (sc_tasks sc)) as Hnn;
    (assert (llen (sc_tasks sc') = llen (sc_tasks sc)) as Hlen
      by (rewrite (llen_views _ _ Hv); unfold llen; by rewrite (decision_length _ _ _ _ Hd)));
    (inversion Hd as [n p Hc Hpos Hmax|n p Hno Hp]; subst).
  - exfalso. destruct Hc as (Hp & _). rewrite woken_lookup in Hp.
    destruct (sc_tasks sc !! next) as [[q|]|] eqn:E; try done. injection Hp as <-. rewrite wake_tm in Hpos.
    pose proof (total_tm_ge _ _ _ (so_slices _ Hok) E). lia.
  - destruct (decide (i = next)) as [->|Hin]; [eapply reaches_now; [done|done|lia]|].
    eapply reaches_step; [exact Hst|].
    replace (Z.of_nat 0 + 1 + 10 * llen (sc_tasks sc) - 1) with (Z.of_nat (Z.to_nat (10 * llen (sc_tasks sc)))) by lia.
    eapply (reaches_with_slice i _ _ _ 10); [done|by eapply ready_reset|lia|lia|].
    rewrite (same_views_total _ _ Hv). rewrite (total_tm_insert _ _ (set_tm p 10) _) by (by rewrite reset_lookup, Hp).
    pose proof (total_tm_reset (woken (sc_tasks sc))) as Hr. unfold woken in Hr at 2. unfold llen in Hr at 1.
    rewrite length_map in Hr. fold (llen (sc_tasks sc)) in Hr. cbn [tm set_tm]. lia.
  - destruct (decide (i = next)) as [->|Hin]; [eapply reaches_now; [done|done|lia]|].
    eapply reaches_step; [exact Hst|].
    replace (Z.of_nat (S k) + 1 + 10 * llen (sc_tasks sc) - 1) with (Z.of_nat k + 1 + 10 * llen (sc_tasks sc')) by lia.
    eapply (IH _ _ t); [done|by eapply ready_best|lia|].
    rewrite (same_views_total _ _ Hv), (total_best sc _ _ Hc). lia.
  - destruct (decide (i = next)) as [->|Hin]; [eapply reaches_now; [done|done|lia]|].
    eapply reaches_step; [exact Hst|].
    apply (reaches_mono _ _ _ (Z.of_nat (Z.to_nat (10 * llen (sc_tasks sc))))); [lia|].
    eapply (reaches_with_slice i _ _ _ 10); [done|by eapply ready_reset|lia|lia|].
    rewrite (same_views_total _ _ Hv). rewrite (total_tm_insert _ _ (set_tm p 10) _) by (by rewrite reset_lookup, Hp).
    pose proof (total_tm_reset (woken (sc_tasks sc))) as Hr. unfold woken in Hr at 2. unfold llen in Hr at 1.
    rewrite length_map in Hr. fold (llen (sc_tasks sc)) in Hr. cbn [tm set_tm]. lia.
Qed.
End Runs.

(** ** Properties *)

(** The scheduler never fails: as long as PID 0 is runnable, the current
    task exists and page tables are page-aligned, a timer interrupt returns (no
    slice underflows, no empty slot is switched to), keeps that invariant, and
    runs a task that is runnable, which is the task interrupted only when that is
    PID 0 and no other task is runnable. *)
Theorem timer_interrupt_safe (sc : Sched) (ctx : ProcessContext) :
  sched_ok sc ->
  exists sc' ctx' next p, timer sc ctx = Done (sc', ctx') /\ sched_ok sc' /\
    sc_current sc' = Z.of_nat next /\ sc_tasks sc' !! next = Some (Some p) /\ state p = Runnable /\
    (sc_current sc' = sc_current sc ->
       next = 0%nat /\ forall j q, ~ candidate (sc_current sc) (woken (sc_tasks sc)) j q).
Proof.
  intros Hok. destruct (timer_step sc ctx Hok) as (sc' & ctx' & t & next & Ht & Hok' & Hd & Hv & Hc).
  destruct (decision_next _ _ _ _ Hd) as (p & Hp & Hs & Honly).
  destruct (same_views_lookup _ _ _ _ Hv Hp) as (q & Hq & (_ & Hs' & _)).
  exists sc', ctx', next, q. split; [done|]. split; [done|]. split; [done|]. split; [done|].
  split; [congruence|]. intros He. apply Honly. congruence.
Qed.

(** Three tasks: idle, one runnable, one waiting for PID 1. *)
Definition sample_task (t : Z) (s : ProcessState) (rip_ : Z) : Process :=
  mk_Process 0x1000 (set_entry context_default rip_ 0) FPU_INIT t 0 0 None s [] [] [].
Definition sample_sched : Sched :=
  mk_Sched [Some (sample_task 10 Runnable 100); Some (sample_task 0 Runnable 200);
            Some (sample_task 10 (Blocked (WaitPid 1)) 300)] 0 0 (mk_Cpu 0x1000 0 FPU_INIT).

Lemma sample_sched_ok : sched_ok sample_sched.
Proof.
  split.
  - eexists. split; reflexivity.
  - intros [|[|[|i]]] p Hp; try discriminate Hp; injection Hp as <-; cbn; lia.
  - eexists. reflexivity.
  - intros [|[|[|i]]] p Hp; try discriminate Hp; injection Hp as <-; reflexivity.
Qed.

Lemma timer_interrupt_safe_witness :
  exists sc' ctx' next p, timer sample_sched context_default = Done (sc', ctx') /\ sched_ok sc' /\
    sc_current sc' = Z.of_nat next /\ sc_tasks sc' !! next = Some (Some p) /\ state p = Runnable /\
    (sc_current sc' = sc_current sample_sched ->
       next = 0%nat /\ forall j q, ~ candidate (sc_current sample_sched) (woken (sc_tasks sample_sched)) j q).
Proof. exact (timer_interrupt_safe sample_sched context_default sample_sched_ok). Defined.

(** C8: No starvation: a runnable task gets the processor within a number of
    timer interrupts bounded by the slices handed out so far plus twenty per
    task, as long as no task exits or blocks meanwhile. *)
Theorem scheduler_no_starvation (sc : Sched) (ctx : ProcessContext) (i : nat) (p : Process) :
  sched_ok sc -> sc_tasks sc !! i = Some (Some p) -> state p = Runnable ->
  exists n sc' ctx', (1 <= n)%nat /\ Z.of_nat n <= total_tm (sc_tasks sc) + 20 * llen (sc_tasks sc) + 2 /\
    timer_n n sc ctx = Done (sc', ctx') /\ sc_current sc' = Z.of_nat i.
Proof.
  intros Hok Hp Hs.
  assert (ready sc i (tm p)) as Hready by (by exists p).
  pose proof (total_tm_nonneg _ (so_slices _ Hok)) as Htot. pose proof (llen_nonneg (sc_tasks sc)) as Hnn.
  destruct (decide (Z.of_nat i = sc_current sc)) as [Hcur|Hne].
  - destruct (timer_step sc ctx Hok) as (sc' & ctx' & t & next & Ht & Hok' & Hd & Hv & Hc).
    destruct (decide (i = next)) as [->|Hin].
    { eapply (reaches_mono _ _ _ 1); [lia|]. by eapply reaches_now. }
    assert (total_tm (sc_tasks sc') <= total_tm (sc_tasks sc) + 10 * llen (sc_tasks sc) /\ exists t', ready sc' i t') as [Htot' [t' Hready']].
    { rewrite (same_views_total _ _ Hv). inversion Hd as [n q Hq|n q Hno Hq]; subst.
      - rewrite (total_best sc _ _ Hq). split; [lia|]. eexists. by eapply ready_best.
      - rewrite (total_tm_insert _ _ (set_tm q 10) _) by (by rewrite reset_lookup, Hq).
        pose proof (total_tm_reset (woken (sc_tasks sc))) as Hr. unfold woken in Hr at 2. unfold llen in Hr at 1.
        rewrite length_map in Hr. fold (llen (sc_tasks sc)) in Hr. cbn [tm set_tm].
        split; [lia|]. eexists. by eapply ready_reset. }
    assert (llen (sc_tasks sc') = llen (sc_tasks sc)) as Hlen.
    { rewrite (llen_views _ _ Hv). unfold llen. by rewrite (decision_length _ _ _ _ Hd). }
    eapply reaches_step; [exact Ht|].
    eapply reaches_mono; [|eapply (reaches_any i (Z.to_nat (total_tm (sc_tasks sc'))) _ _ t' Hok' Hready'); [lia|]].
    + pose proof (total_tm_nonneg _ (so_slices _ Hok')). lia.
    + lia.
  - eapply reaches_mono; [|eapply (reaches_any i (Z.to_nat (total_tm (sc_tasks sc))) _ _ _ Hok Hready Hne); lia].
    lia.
Qed.

Lemma scheduler_no_starvation_witness :
  exists n sc' ctx', (1 <= n)%nat /\ Z.of_nat n <= 82 /\
    timer_n n sample_sched context_default = Done (sc', ctx') /\ sc_current sc' = 1.
Proof.
  destruct (scheduler_no_starvation sample_sched context_default 1 (sample_task 0 Runnable 200) sample_sched_ok
    eq_refl eq_refl) as (n & sc' & ctx' & Hn & Hb & Ht & Hc).
  exists n, sc', ctx'. split; [exact Hn|]. split; [exact Hb|]. split; [exact Ht|exact Hc].
Defined.

(** [waitpid] blocks exactly as long as its target exists: at a timer
    interrupt a task waiting for [pid] becomes runnable if that slot is empty or
    out of range; otherwise it stays blocked and is not the task that runs. *)
Theorem waitpid_wakes_exactly (sc : Sched) (ctx : ProcessContext) (i : nat) (p : Process) (pid : Z) :
  sched_ok sc -> sc_tasks sc !! i = Some (Some p) -> state p = Blocked (WaitPid pid) ->
  exists sc' ctx' p', timer sc ctx = Done (sc', ctx') /\ sc_tasks sc' !! i = Some (Some p') /\
    (state p' = if gone (sc_tasks sc) pid then Runnable else Blocked (WaitPid pid)) /\
    (gone (sc_tasks sc) pid = false -> sc_current sc' <> Z.of_nat i).
Proof.
  intros Hok Hp Hs. destruct (timer_step sc ctx Hok) as (sc' & ctx' & t & next & Ht & Hok' & Hd & Hv & Hc).
  destruct (decision_frame _ _ _ _ Hd i) as [[_ H0]|[[_ H0]|(q & u & Hq & Hq')]]; try congruence.
  assert (q = p) as -> by congruence.
  destruct (same_views_lookup _ _ _ _ Hv Hq') as (p' & Hp' & (_ & Hs' & _)).
  assert (state p' = if gone (sc_tasks sc) pid then Runnable else Blocked (WaitPid pid)) as Hst.
  { rewrite Hs'. cbn. unfold wake. rewrite Hs. by destruct (gone (sc_tasks sc) pid). }
  exists sc', ctx', p'. split; [done|]. split; [done|]. split; [done|].
  intros Hg Hcur. rewrite Hg in Hst. rewrite Hc in Hcur. apply Nat2Z.inj in Hcur. subst next.
  destruct (decision_next _ _ _ _ Hd) as (r & Hr & Hrs & _).
  assert (r = set_tm (wake (sc_tasks sc) p) u) as -> by congruence. cbn in Hs', Hrs. congruence.
Qed.

Lemma waitpid_wakes_exactly_witness :
  exists sc' ctx' p', timer sample_sched context_default = Done (sc', ctx') /\ sc_tasks sc' !! 2%nat = Some (Some p') /\
    state p' = Blocked (WaitPid 1) /\ sc_current sc' <> 2.
Proof.
  destruct (waitpid_wakes_exactly sample_sched context_default 2 _ 1 sample_sched_ok eq_refl eq_refl)
    as (sc' & ctx' & p' & Ht & Hp & Hs & Hc).
  exists sc', ctx', p'. split; [exact Ht|]. split; [exact Hp|]. split; [exact Hs|exact (Hc eq_refl)].
Defined.

(** C22: A context switch loses nothing: switching from a task to another one and
    back brings back the saved frame, the FS base and the floating-point state
    of the first, loads the page table of whichever task runs, and leaves every
    other task alone. *)
Theorem context_switch_round_trip (sc : Sched) (ctx ctx2 : ProcessContext) (cur n : Process) (next : Z) :
  task_at (sc_tasks sc) (sc_current sc) = Done cur -> task_at (sc_tasks sc) next = Done n ->
  next <> sc_current sc -> page_table cur mod 4096 = 0 -> page_table n mod 4096 = 0 ->
  exists sc1 sc2,
    switch_to sc ctx next false = Done (sc1, context n) /\
    sc_cpu sc1 = mk_Cpu (page_table n) (fs n) (fpu_state n) /\ sc_current sc1 = next /\
    switch_to sc1 ctx2 (sc_current sc) false = Done (sc2, ctx) /\
    sc_cpu sc2 = mk_Cpu (page_table cur) (cpu_fs (sc_cpu sc)) (cpu_fpu (sc_cpu sc)) /\
    sc_current sc2 = sc_current sc /\
    forall i, i <> Z.to_nat (sc_current sc) -> i <> Z.to_nat next -> sc_tasks sc2 !! i = sc_tasks sc !! i.
Proof.
  intros Hc Hn Hne Hac Han.
  destruct (switch_to_spec sc ctx next cur n Hc Hn Han) as (nxt & Hnxt & Hsw).
  pose proof Hc as [Hc0 Hcl]%task_at_Done. pose proof Hn as [Hn0 Hnl]%task_at_Done.
  assert (Z.to_nat next <> Z.to_nat (sc_current sc)) as Hnn by lia.
  assert (nxt = n) as ->.
  { apply task_at_Done in Hnxt as [_ Hnxt]. rewrite list_lookup_insert_ne in Hnxt by done. congruence. }
  set (saved := set_fpu_fs (set_context cur ctx) (cpu_fpu (sc_cpu sc)) (cpu_fs (sc_cpu sc))) in *.
  set (t1 := <[Z.to_nat (sc_current sc) := Some saved]> (sc_tasks sc)) in *.
  set (sc1 := mk_Sched t1 next (sc_ticks sc) (mk_Cpu (page_table n) (fs n) (fpu_state n))) in *.
  assert (task_at t1 (sc_current sc) = Done saved) as Hs1.
  { apply task_at_Done. split; [done|]. apply list_lookup_insert_eq. by eapply lookup_lt_Some. }
  destruct (switch_to_spec sc1 ctx2 (sc_current sc) n saved Hnxt Hs1 Hac) as (nxt2 & Hnxt2 & Hsw2).
  assert (nxt2 = saved) as ->.
  { apply task_at_Done in Hnxt2 as [_ Hnxt2]. unfold sc1 in Hnxt2. cbn [sc_tasks sc_current] in Hnxt2.
    rewrite list_lookup_insert_ne in Hnxt2 by done. apply task_at_Done in Hs1 as [_ Hs1]. congruence. }
  eexists sc1, _. split; [exact Hsw|]. split; [done|]. split; [done|]. split; [exact Hsw2|].
  split; [done|]. split; [done|]. intros i Hi1 Hi2. cbn [sc_tasks]. unfold sc1. cbn [sc_tasks sc_current].
  rewrite list_lookup_insert_ne by done. unfold t1. by rewrite list_lookup_insert_ne.
Qed.

Lemma context_switch_round_trip_witness :
  exists sc1 sc2, switch_to sample_sched (set_rax context_default 5) 1 false = Done (sc1, set_entry context_default 200 0) /\
    switch_to sc1 context_default 0 false = Done (sc2, set_rax context_default 5).
Proof.
  destruct (context_switch_round_trip sample_sched (set_rax context_default 5) context_default
    (sample_task 10 Runnable 100) (sample_task 0 Runnable 200) 1 eq_refl eq_refl ltac:(cbn; lia) eq_refl eq_refl)
    as (sc1 & sc2 & H1 & _ & _ & H2 & _).
  exists sc1, sc2. split; [exact H1|exact H2].
Defined.
