(* ===== verification/Lifecycle.v ===== *)
(** * The life of a process: fork, exec, exit and page faults

    [task/process.rs] and the fault handlers of [mm/page_alloc.rs], over the page
    tables, the IPC state and the scheduler. *)

From S2P Require Import Prelude Words Bitmap PageAlloc PageTable Process Ipc Sched.

(** The kernel state these operations share; the task table is the one of the
    IPC state. *)
Record kernel := mk_kernel {
  k_pt : Pt;
  k_ipc : ipc_state;
  k_current : Z;
  k_ticks : Z;
  k_cpu : Cpu;
  k_next_tid : Z;
}.
Definition k_tasks (k : kernel) : Tasks := ipc_tasks (k_ipc k).
Definition with_pt k pt := mk_kernel pt (k_ipc k) (k_current k) (k_ticks k) (k_cpu k) (k_next_tid k).
Definition with_tasks k ts := mk_kernel (k_pt k) (set_tasks (k_ipc k) ts) (k_current k) (k_ticks k) (k_cpu k) (k_next_tid k).
Definition with_ipc k i := mk_kernel (k_pt k) i (k_current k) (k_ticks k) (k_cpu k) (k_next_tid k).

(** The mapper of one address space ([OffsetPageTable]): [map_to] takes the
    frames of missing tables from the allocator; every change flushes the page
    from the TLB. *)
Class UserMapper (M : Type) := {
  um_translate : M -> Z -> option (Z * Z);
  um_map_to : M -> PageMan -> Z -> Z -> Z -> outcome (M * PageMan * result unit unit);
  um_unmap : M -> Z -> M * result unit unit;
  um_update_flags : M -> Z -> Z -> M * result unit unit;
}.

(** [goblin::elf::Elf::parse]: the entry point and the program headers. *)
Record Phdr := mk_Phdr { p_type : Z; p_vaddr : Z; p_memsz : Z; p_filesz : Z; p_offset : Z }.
Record Elf := mk_Elf { entry : Z; program_headers : list Phdr }.
Class ElfParser := { elf_parse : list Z -> option Elf }.
Definition PT_LOAD : Z := 1.

Section Lifecycle.
Context `{BitField} `{PageTableEntry}.

(** ** Fork *)

(** The caller's context is returned too: its [rcx] receives the new PID. *)
(** @ task/process.rs:199-222 Process::copy_process *)
Definition copy_process (pt : Pt) (ipc : ipc_state) (self : Process) (context : ProcessContext) (new_tid : Z)
    : outcome (Pt * ipc_state * Process * ProcessContext) :=
  '(pt, p4t) ← copy_tables (page_table self) pt;
  let new_context := set_rcx context 0 in
  let context := set_rcx context new_tid in
  ipc ← clone_handle_table ipc (ipc_handles self);
  Done (pt, ipc, mk_Process p4t new_context FPU_INIT 0 0 (brk self) (exe_path self) Runnable
    (files self) (directories self) (ipc_handles self), context).

(** @ task/process.rs:275-287 do_fork *)
Definition do_fork (k : kernel) (context : ProcessContext) : outcome (kernel * ProcessContext) :=
  new_tid ← add_ovf 64 (k_next_tid k) 1;
  let next_tid := wrapping_add 64 (k_next_tid k) 1 in
  self ← task_at (k_tasks k) (k_current k);
  '(pt, ipc, new_process, context) ← copy_process (k_pt k) (k_ipc k) self context new_tid;
  let tasks := ipc_tasks ipc in
  let tasks := if llen tasks <=? new_tid then tasks ++ replicate (Z.to_nat (new_tid + 1 - llen tasks)) None else tasks in
  tasks ← set_idx tasks new_tid (Some new_process);
  Done (mk_kernel pt (set_tasks ipc tasks) (k_current k) (k_ticks k) (k_cpu k) next_tid, context).

(** ** Exit *)

(** @ task/process.rs:363-375 do_exit *)
Definition do_exit (k : kernel) (args : ProcessContext) : outcome (kernel * ProcessContext) :=
  let c_tid := k_current k in
  slot ← idx (k_tasks k) c_tid;
  k ← match slot with
      | Some task =>
          ipc ← release_handle_table (k_ipc k) (ipc_handles task);
          pt ← free_page_tables (page_table task) false (k_pt k);
          Done (with_pt (with_ipc k ipc) pt)
      | None => Done k
      end;
  tasks ← set_idx (k_tasks k) c_tid None;
  '(sc, args) ← schedule (mk_Sched tasks c_tid (k_ticks k) (k_cpu k)) args true;
  Done (mk_kernel (k_pt k) (set_tasks (k_ipc k) (sc_tasks sc)) (sc_current sc) (sc_ticks sc) (sc_cpu sc) (k_next_tid k), args).

(** ** Page faults *)

Definition PROTECTION_VIOLATION : Z := 1.
Definition CAUSED_BY_WRITE : Z := 2.
(** @ mm/page_alloc.rs:255-257 is_write_protection_fault *)
Definition is_write_protection_fault (code : Z) : bool := has code (Z.lor PROTECTION_VIOLATION CAUSED_BY_WRITE).

(** @ mm/page_alloc.rs:301-306 within_stack_range *)
Definition within_stack_range (addr : Z) : bool :=
  let STACK_BEGIN := Z.shiftl 1 47 in
  let STACK_END := STACK_BEGIN - Z.shiftl 1 23 in
  (STACK_END <=? addr) && (addr <? STACK_BEGIN).

Definition USER_RW : Z := Z.lor (Z.lor PRESENT WRITABLE) USER_ACCESSIBLE.
Definition containing_page (addr : Z) : Z := addr / 4096 * 4096.

Section Faults.
Context {M : Type} `{UserMapper M}.
Implicit Types (pgt : M).

(** [pgt] is the page table of the current task, [addr] the value of CR2. *)
(** @ mm/page_alloc.rs:263-299 resolve_current_user_cow_fault *)
Definition resolve_current_user_cow_fault (s : Pt) pgt (addr : Z) : outcome (Pt * M) :=
  let page := containing_page addr in
  t ← unwrap (um_translate pgt page);
  let old_page_pa := t.1 in
  n ← page_getref (pt_pm s) old_page_pa;
  if 1 <? n then
    '(s, new_page_pa) ← alloc_page s;
    let s := set_mem s (<[new_page_pa := frame (pt_mem s) old_page_pa]> (pt_mem s)) in
    pm ← page_decref (pt_pm s) old_page_pa;
    let s := set_pm s pm in
    let '(pgt, r) := um_unmap pgt page in
    assert! is_ok r;
    '(pgt, pm, r) ← um_map_to pgt (pt_pm s) page new_page_pa USER_RW;
    assert! is_ok r;
    pm ← page_incref pm new_page_pa;
    Done (set_pm s pm, pgt)
  else
    let '(pgt, r) := um_update_flags pgt page USER_RW in
    assert! is_ok r;
    Done (s, pgt).

(** @ mm/page_alloc.rs:209-240 do_user_page_fault *)
Definition do_user_page_fault (s : Pt) pgt (task : Process) (addr code : Z) : outcome (Pt * M) :=
  if is_write_protection_fault code then resolve_current_user_cow_fault s pgt addr else
  let page := containing_page addr in
  if within_stack_range addr || (addr <? brk task) then
    '(s, new_page_pa) ← alloc_page s;
    pm ← page_incref (pt_pm s) new_page_pa;
    '(pgt, pm, r) ← um_map_to pgt pm page new_page_pa USER_RW;
    assert! is_ok r;
    Done (mk_Pt (<[new_page_pa := zero_frame]> (pt_mem s)) pm (pt_warn s), pgt)
  else Panic.

(** @ mm/page_alloc.rs:247-253 do_kernel_page_fault *)
Definition do_kernel_page_fault (s : Pt) pgt (addr code : Z) : outcome (Pt * M) :=
  if negb (is_write_protection_fault code) then Panic else resolve_current_user_cow_fault s pgt addr.

(** ** Exec *)

(** [VirtAddr::new_truncate]. *)
Definition new_truncate (a : Z) : Z := wrap 64 (sext 48 (wrap 48 a)).
Definition page_range_inclusive (first last : Z) : list Z :=
  (fun i => i * 4096) <$> seqZ (first / 4096) (last / 4096 - first / 4096 + 1).

(** @ task/process.rs:322-343 do_exec -- one page of a segment *)
Definition map_segment_page (s : Pt) pgt (page : Z) : outcome (Pt * M) :=
  '(s, allocated_pa) ← alloc_page s;
  '(pgt, pm, r) ← um_map_to pgt (pt_pm s) page allocated_pa USER_RW;
  let s := set_pm s pm in
  match r with
  | Ok _ => pm ← page_incref (pt_pm s) allocated_pa; Done (set_pm s pm, pgt)
  | Err _ => s ← dealloc_page s allocated_pa; Done (s, pgt)
  end.

(** @ task/process.rs:312-352 do_exec -- one program header *)
Definition load_segment (buf : list Z) (st : Pt * M * user_memory * Z) (ph : Phdr) : outcome (Pt * M * user_memory * Z) :=
  let '(s, pgt, mem, brk) := st in
  if negb (p_type ph =? PT_LOAD) then Done st else
  let start_va := new_truncate (p_vaddr ph) in
  e ← add_ovf 64 (p_vaddr ph) (p_memsz ph);
  last ← sub_ovf e 1;
  let end_va := new_truncate last in
  let brk := Z.max brk e in
  '(s, pgt) ← fold_outcome (fun '(s, pgt) page => map_segment_page s pgt page) (page_range_inclusive start_va end_va) (s, pgt);
  let target_slice := replicate (Z.to_nat (p_memsz ph)) 0 in
  assert! p_filesz ph <=? p_memsz ph;
  file_end ← add_ovf 64 (p_offset ph) (p_filesz ph);
  content ← slice buf (p_offset ph) file_end;
  target_slice ← splice target_slice 0 content;
  Done (s, pgt, user_write mem start_va target_slice, brk).

(** [file] is what [get_file] of the path and [read_exact] of its [size] bytes
    give; the page table is the one left by [free_page_tables(true)]. *)
(** @ task/process.rs:289-361 do_exec *)
Definition do_exec `{ElfParser} (k : kernel) pgt (mem : user_memory) (args : ProcessContext) (file : list Z -> option (list Z))
    : outcome (kernel * M * user_memory * ProcessContext) :=
  let path := user_slice mem (rdi args) (rcx args) in
  assert! utf8_valid path;
  match file path with
  | None => Done (k, pgt, mem, args)
  | Some buf =>
      task ← task_at (k_tasks k) (k_current k);
      s ← free_page_tables (page_table task) true (k_pt k);
      let task := mk_Process (page_table task) context_default FPU_INIT (tm task) 0 0 (Some path) Runnable
        (files task) (directories task) (ipc_handles task) in
      match elf_parse buf with
      | None =>
          tasks ← set_task (k_tasks k) (k_current k) task;
          Done (with_tasks (with_pt k s) tasks, pgt, mem, args)
      | Some new_elf =>
          '(s, pgt, mem, brk) ← fold_outcome (load_segment buf) (program_headers new_elf) (s, pgt, mem, brk task);
          tasks ← set_task (k_tasks k) (k_current k) (set_brk task brk);
          Done (with_tasks (with_pt k s) tasks, pgt, mem, set_entry args (entry new_elf) (Z.shiftl 1 47 - 64))
      end
  end.
End Faults.
End Lifecycle.

(** ** Fork: what the child inherits *)

Section ForkProperties.
Context `{BitField} `{PageTableEntry}.

Lemma dup_handle_tasks st h st' : dup_handle_ref st h = Done st' -> ipc_tasks st' = ipc_tasks st.
Proof.
  unfold dup_handle_ref. destruct h as [c sd|l].
  - destruct (channel_at st c); cbn; [|done..]. by intros [= <-].
  - destruct (listener_at st l); cbn; [|done..]. by intros [= <-].
Qed.
Lemma clone_table_tasks hs : forall st st', clone_handle_table st hs = Done st' -> ipc_tasks st' = ipc_tasks st.
Proof.
  induction hs as [|[h|] hs IH]; intros st st'; cbn [clone_handle_table]; [by intros [= ->]| |apply IH].
  destruct (dup_handle_ref st h) as [st1| |] eqn:E; cbn; [|done..]. intros Hc.
  rewrite (IH _ _ Hc). by eapply dup_handle_tasks.
Qed.

Lemma task_at_app (tasks : Tasks) n pid : task_at (tasks ++ replicate n None) pid = task_at tasks pid.
Proof.
  unfold task_at, idx. case_bool_decide; [|done].
  destruct (decide (Z.to_nat pid < length tasks)%nat) as [Hl|Hl].
  - by rewrite lookup_app_l.
  - rewrite lookup_app_r, (lookup_ge_None_2 tasks) by lia.
    destruct (_ !! _) eqn:E; [|done]. by apply lookup_replicate in E as [-> _].
Qed.

Lemma task_at_set (tasks tasks' : Tasks) pid p :
  set_idx tasks pid (Some p) = Done tasks' ->
  task_at tasks' pid = Done p /\ forall q, q <> pid -> task_at tasks' q = task_at tasks q.
Proof.
  unfold set_idx, task_at, idx. case_bool_decide as Hp; [|done]. intros [= <-].
  rewrite bool_decide_true by lia. rewrite list_lookup_insert_eq by (unfold llen in Hp; lia). split; [done|].
  intros q Hq. case_bool_decide; [|done]. by rewrite list_lookup_insert_ne by lia.
Qed.

(** [fork] creates the process with the next PID: the child sees 0 in the
    register where the parent sees the PID, starts runnable with the parent's
    files, directories, IPC handles, program break and executable path, its page
    tables are the copy of the parent's, and no other process changes. *)
Theorem fork_inherits (k k' : kernel) (ctx ctx' : ProcessContext) :
  0 <= k_next_tid k -> do_fork k ctx = Done (k', ctx') ->
  exists parent child pt,
    task_at (k_tasks k) (k_current k) = Done parent /\
    k_next_tid k' = k_next_tid k + 1 /\ task_at (k_tasks k') (k_next_tid k') = Done child /\
    ctx' = set_rcx ctx (k_next_tid k') /\ context child = set_rcx ctx 0 /\
    copy_tables (page_table parent) (k_pt k) = Done (k_pt k', pt) /\ page_table child = pt /\
    state child = Runnable /\ tm child = 0 /\ files child = files parent /\ directories child = directories parent /\
    ipc_handles child = ipc_handles parent /\ brk child = brk parent /\ exe_path child = exe_path parent /\
    k_current k' = k_current k /\
    forall pid, pid <> k_next_tid k' -> task_at (k_tasks k') pid = task_at (k_tasks k) pid.
Proof.
  intros Hn. unfold do_fork, add_ovf. destruct (Z.ltb_spec (k_next_tid k + 1) (2 ^ 64)) as [Hlt|]; cbn [mbind outcome_bind]; [|done].
  destruct (task_at (k_tasks k) (k_current k)) as [parent| |] eqn:Ep; cbn [mbind outcome_bind]; [|done..].
  unfold copy_process. destruct (copy_tables (page_table parent) (k_pt k)) as [[pt p4]| |] eqn:Ec; cbn [mbind outcome_bind]; [|done..].
  destruct (clone_handle_table (k_ipc k) (ipc_handles parent)) as [ipc| |] eqn:Eh; cbn [mbind outcome_bind]; [|done..].
  apply clone_table_tasks in Eh. destruct (set_idx _ _ _) as [tasks| |] eqn:Es; cbn [mbind outcome_bind]; [|done..].
  intros [= <- <-]. apply task_at_set in Es as [Hc Ho]. cbn [k_next_tid k_current k_pt k_tasks k_ipc set_tasks ipc_tasks].
  assert (wrapping_add 64 (k_next_tid k) 1 = k_next_tid k + 1) as Hw.
  { unfold wrapping_add, wrap. by rewrite Z.mod_small by lia. }
  rewrite Hw. unfold k_tasks. cbn [k_ipc set_tasks ipc_tasks]. eexists parent, _, p4. split; [done|]. split; [done|].
  split; [exact Hc|]. do 12 (split; [done|]).
  intros pid Hpid. rewrite Ho by done. clear Ho. rewrite Eh. destruct (llen _ <=? _); [apply task_at_app|done].
Qed.
End ForkProperties.

(** ** Copy on write *)

(** What the fault handler relies on of the mapper. *)
Class UserMapperLaws (M : Type) `{UserMapper M} : Prop := {
  uml_unmap : forall m page f, um_translate m page = Some f ->
    exists m', um_unmap m page = (m', Ok tt) /\ um_translate m' page = None /\
      forall q, q <> page -> um_translate m' q = um_translate m q;
  (** The tables of a page that was just unmapped are still there. *)
  uml_remap : forall m m' pm page f flags, um_unmap m page = (m', Ok tt) ->
    exists m2, um_map_to m' pm page f flags = Done (m2, pm, Ok tt) /\ um_translate m2 page = Some (f, flags) /\
      forall q, q <> page -> um_translate m2 q = um_translate m' q;
  uml_update : forall m page f flags, um_translate m page = Some f ->
    exists m', um_update_flags m page flags = (m', Ok tt) /\ um_translate m' page = Some (f.1, flags) /\
      forall q, q <> page -> um_translate m' q = um_translate m q;
}.

Section Cow.
Context `{BitField} {M : Type} `{UserMapper M} `{!UserMapperLaws M}.
Implicit Types (s : Pt) (pgt : M).

Lemma alloc_page_some s p :
  pm_wf (pt_pm s) -> 0 <= p -> free (pt_pm s) p = true ->
  exists s1 a, alloc_page s = Done (s1, a) /\ fresh_frame (pt_pm s) (pt_pm s1) a /\ pt_mem s1 = pt_mem s.
Proof.
  intros Hwf Hp Hf. destruct (alloc_page s) as [[s1 a]| |] eqn:E.
  - exists s1, a. split; [done|]. by destruct (alloc_page_fresh _ _ _ Hwf E) as (? & ? & _).
  - exfalso. revert E. unfold alloc_page. destruct (alloc_page_spec _ Hwf) as (pm1 & [a|] & -> & Hr); cbn; [done|].
    destruct Hr as [_ Hno]. by rewrite Hno in Hf.
  - exfalso. revert E. unfold alloc_page. by destruct (alloc_page_spec _ Hwf) as (pm1 & [a|] & -> & Hr).
Qed.

Lemma refs_read pm p n : zget (pm_refs pm) p = Some n -> getref pm p = Done n /\ 0 <= p < llen (pm_refs pm).
Proof.
  unfold zget, getref, idx. case_bool_decide; [|done]. intros Hn. rewrite Hn. split; [done|].
  apply lookup_lt_Some in Hn. unfold llen. lia.
Qed.

(** No free page: the [unwrap] of [alloc_physical_page] fails. *)
Lemma alloc_page_none s : pm_wf (pt_pm s) -> (forall p, 0 <= p -> free (pt_pm s) p = false) -> alloc_page s = Panic.
Proof.
  intros Hwf Hno. unfold alloc_page. destruct (alloc_page_spec _ Hwf) as (pm1 & [a|] & -> & Hr); [|done].
  destruct Hr as (i & _ & Hi & Hf & _). by rewrite Hno in Hf by lia.
Qed.

(** C18: A write to a present page of a user process (the copy-on-write fault), when
    the frame has one user or a physical page is free, leaves the page mapped writable
    to a frame that only this process uses and that holds the old contents: the frame
    itself when it had one user, a fresh copy otherwise, in which case the old frame is
    untouched and loses one reference.  No other page of the process and no other frame
    changes.  When the frame has several users and no physical page is free the kernel
    panics.  Free pages have a reference count of zero; the page-table operations of
    the x86_64 crate do what its documentation says. *)
Theorem cow_fault_isolates (s : Pt) (pgt : M) (addr pa fl n : Z) :
  pm_wf (pt_pm s) ->
  (forall p, 0 <= p -> free (pt_pm s) p = true -> zget (pm_refs (pt_pm s)) p = Some 0) ->
  um_translate pgt (containing_page addr) = Some (pa, fl) ->
  zget (pm_refs (pt_pm s)) (pa / 4096) = Some n -> 1 <= n -> free (pt_pm s) (pa / 4096) = false ->
  (n = 1 \/ (exists p, 0 <= p /\ free (pt_pm s) p = true) ->
   exists s' pgt' pa', resolve_current_user_cow_fault s pgt addr = Done (s', pgt') /\
    um_translate pgt' (containing_page addr) = Some (pa', USER_RW) /\
    zget (pm_refs (pt_pm s')) (pa' / 4096) = Some 1 /\ frame (pt_mem s') pa' = frame (pt_mem s) pa /\
    (forall q, q <> containing_page addr -> um_translate pgt' q = um_translate pgt q) /\
    (forall a, a <> pa' -> pt_mem s' !! a = pt_mem s !! a) /\
    (if n =? 1 then pa' = pa
     else pa' <> pa /\ free (pt_pm s) (pa' / 4096) = true /\ zget (pm_refs (pt_pm s')) (pa / 4096) = Some (n - 1))) /\
  (1 < n -> (forall p, 0 <= p -> free (pt_pm s) p = false) -> resolve_current_user_cow_fault s pgt addr = Panic).
Proof.
  intros Hwf Hzero Ht Hn Hge Hused. unfold resolve_current_user_cow_fault. rewrite Ht.
  cbn [unwrap mbind outcome_bind fst]. unfold page_getref. destruct (refs_read _ _ _ Hn) as [-> Hpa]. cbn [mbind outcome_bind].
  split; [intros Hsome|intros Hlt Hno; rewrite (proj2 (Z.ltb_lt 1 n)) by done; by rewrite alloc_page_none].
  destruct (Z.ltb_spec 1 n) as [Hlt|Hle].
  - destruct Hsome as [->|(p0 & Hp0 & Hfree0)]; [lia|].
    destruct (alloc_page_some s p0 Hwf Hp0 Hfree0) as (s1 & a & -> & Hnew & Hm). cbn [mbind outcome_bind set_mem pt_pm pt_mem].
    rewrite <- (ff_refs _ _ _ Hnew) in Hn. destruct (decref_counts _ _ _ Hn Hlt) as (pm2 & Hd & _ & Hw2 & Hr2).
    unfold page_decref. rewrite Hd. cbn [mbind outcome_bind].
    destruct (uml_unmap _ _ _ Ht) as (m1 & Hu & _ & Hu'). rewrite Hu. cbn [is_ok set_pm pt_pm].
    destruct (uml_remap _ _ pm2 _ a USER_RW Hu) as (m2 & -> & Hm2 & Hm2'). cbn [mbind outcome_bind is_ok].
    pose proof (ff_frame _ _ _ Hnew) as [_ [??]]. assert (0 <= a / 4096) as Hnn by (apply Z.div_pos; lia).
    assert (a / 4096 <> pa / 4096) as Hne by (intros He; pose proof (ff_free _ _ _ Hnew); congruence).
    assert (zget (pm_refs pm2) (a / 4096) = Some 0) as Hz.
    { rewrite Hr2, (ff_refs _ _ _ Hnew), Hzero by (done || apply Hnew). cbn. f_equal.
      unfold occurrences. cbn. by rewrite decide_False by done. }
    destruct (incref_one _ _ _ Hz) as (pm3 & Hi & Hr3); [lia|]. unfold page_incref. rewrite Hi. cbn [mbind outcome_bind].
    eexists _, m2, a. split; [reflexivity|]. cbn [set_pm set_mem pt_pm pt_mem]. split; [done|].
    split; [by rewrite Hr3, Hz, occurrences_one by done|].
    split; [by rewrite frame_insert_eq, Hm|]. split; [intros q Hq; by rewrite Hm2', Hu'|].
    split; [intros b Hb; by rewrite lookup_insert_ne, Hm by done|].
    rewrite (proj2 (Z.eqb_neq n 1)) by lia. split; [by intros ->|]. split; [apply Hnew|].
    rewrite Hr3, Hr2, Hn by lia. cbn. f_equal. rewrite occurrences_one. unfold occurrences. cbn.
    rewrite decide_False by done. cbn. lia.
  - assert (n = 1) as -> by lia. destruct (uml_update _ _ _ USER_RW Ht) as (m1 & -> & Ht1 & Ho). cbn [is_ok fst] in *.
    eexists s, m1, pa. split; [reflexivity|]. do 5 (split; [done|]). done.
Qed.
End Cow.

(** ** Witnesses *)

(** A mapper that is a map from pages to frames and flags. *)
#[global] Instance map_mapper : UserMapper (gmap Z (Z * Z)) := {
  um_translate m page := m !! page;
  um_map_to m pm page f flags :=
    match m !! page with
    | Some _ => Done (m, pm, Err tt)
    | None => Done (<[page := (f, flags)]> m, pm, Ok tt)
    end;
  um_unmap m page := match m !! page with Some _ => (delete page m, Ok tt) | None => (m, Err tt) end;
  um_update_flags m page flags :=
    match m !! page with Some (f, _) => (<[page := (f, flags)]> m, Ok tt) | None => (m, Err tt) end;
}.
#[global] Instance map_mapper_laws : UserMapperLaws (gmap Z (Z * Z)).
Proof.
  split; cbn.
  - intros m page f Hf. rewrite Hf. eexists. split; [done|]. split; [by rewrite lookup_delete_eq|].
    intros q Hq. by rewrite lookup_delete_ne.
  - intros m m' pm page f flags Hu. assert (m' !! page = None) as Hn.
    { destruct (m !! page); [injection Hu as <-|done]. by rewrite lookup_delete_eq. }
    rewrite Hn. eexists. split; [done|]. split; [by rewrite lookup_insert_eq|].
    intros q Hq. by rewrite lookup_insert_ne.
  - intros m page [f fl] flags Hf. rewrite Hf. eexists. split; [done|]. split; [by rewrite lookup_insert_eq|].
    intros q Hq. by rewrite lookup_insert_ne.
Qed.

Definition demo_process : Process :=
  mk_Process 0x3000 context_default FPU_INIT 10 0 0x400000 None Runnable (replicate 64 None) (replicate 64 None) (replicate 64 None).
Definition demo_kernel : kernel :=
  mk_kernel demo_space (mk_ipc [Some demo_process] [] [] []) 0 0 (mk_Cpu 0x3000 0 FPU_INIT) 0.

Lemma fork_inherits_witness :
  exists k' ctx', do_fork (H := z_bit_field) (H0 := z_pte) demo_kernel context_default = Done (k', ctx') /\
    k_next_tid k' = 1 /\ rcx ctx' = 1 /\
    exists child, task_at (k_tasks k') 1 = Done child /\ rcx (context child) = 0 /\ brk child = 0x400000.
Proof.
  destruct (do_fork (H := z_bit_field) (H0 := z_pte) demo_kernel context_default) as [[k' ctx']| |] eqn:E;
    [|vm_compute in E; discriminate..].
  destruct (fork_inherits (H := z_bit_field) (H0 := z_pte) demo_kernel k' context_default ctx' ltac:(cbn; lia) E)
    as (parent & child & pt & Hp & Hn & Hc & Hctx & Hcc & _ & _ & _ & _ & _ & _ & _ & Hb & _).
  injection Hp as <-. cbn in Hn. rewrite Hn in *. exists k', ctx'. split; [reflexivity|]. split; [exact Hn|].
  split; [by rewrite Hctx|]. exists child. split; [exact Hc|]. split; [by rewrite Hcc|exact Hb].
Defined.

(** Two processes share the frame at 0x7000; one writes to it. *)
Definition shared_space : Pt :=
  mk_Pt (<[0x7000 := <[0%nat := 42]> zero_frame]> ∅)
    (mk_PageMan [Z.shiftl (Z.ones 55) 9] (replicate 7 0 ++ [2] ++ replicate 56 0)) [].

Lemma cow_fault_isolates_witness :
  exists s' pgt', resolve_current_user_cow_fault (H := z_bit_field) shared_space
      ({[ 0x5000 := (0x7000, 5) ]} : gmap Z (Z * Z)) 0x5123 = Done (s', pgt') /\
    exists pa', pgt' !! 0x5000 = Some (pa', USER_RW) /\ pa' <> 0x7000 /\ frame (pt_mem s') pa' !! 0%nat = Some 42.
Proof.
  destruct (cow_fault_isolates (H := z_bit_field) shared_space ({[ 0x5000 := (0x7000, 5) ]} : gmap Z (Z * Z)) 0x5123 0x7000 5 2)
    as [Hok _].
  - vm_compute. discriminate.
  - intros p Hp Hfree. pose proof (free_range (H := z_bit_field) _ _ Hp Hfree) as Hb. change (pm_len (pt_pm shared_space)) with 64 in Hb.
    assert (p <> 7) as H7 by (intros ->; vm_compute in Hfree; discriminate).
    unfold zget. rewrite bool_decide_true by done. cbn [shared_space pt_pm pm_refs].
    destruct (decide (p < 7)).
    + rewrite lookup_app_l by (rewrite length_replicate; lia). by apply lookup_replicate_2; lia.
    + rewrite lookup_app_r by (rewrite length_replicate; lia). rewrite length_replicate.
      rewrite lookup_app_r by (cbn; lia). cbn [length]. apply lookup_replicate_2. lia.
  - reflexivity.
  - reflexivity.
  - lia.
  - reflexivity.
  - destruct Hok as (s' & pgt' & pa' & Hr & Ht & _ & Hf & _ & _ & Hne & _); [right; exists 9; by split|].
    exists s', pgt'. split; [exact Hr|]. exists pa'. split; [exact Ht|]. split; [exact Hne|]. rewrite Hf. reflexivity.
Defined.
