(* ===== verification/Vfs.v ===== *)
(** * The virtual file system: [vfs/mod.rs]

    Paths are byte strings.  The traits [VfsFile], [VfsDirHandle] and
    [VfsDirectory] are classes over the state [W] of the devices behind the files
    and the type of the objects that implement them. *)

From S2P Require Import Prelude Words.

(** ** Strings *)

Definition str : Type := list Z.
(** The bytes of a literal. *)
Definition bytes_of (s : string) : str := (fun c => Z.of_nat (Ascii.nat_of_ascii c)) <$> String.list_ascii_of_string s.
#[global] Arguments bytes_of s%_string.

Definition starts_with (s prefix : str) : bool := bool_decide (take (length prefix) s = prefix).
(** [&s[i..]]: panics past the end and inside a character. *)
Definition is_char_boundary (s : str) (i : Z) : bool :=
  (i =? 0) || (i =? llen s) || match zget s i with Some b => negb ((0x80 <=? b) && (b <=? 0xbf)) | None => false end.
Definition str_from (s : str) (i : Z) : outcome str :=
  if is_char_boundary s i then slice s i (llen s) else Panic.

Definition SLASH : Z := 47.

Fixpoint trim_start (c : Z) (s : str) : str :=
  match s with b :: s' => if b =? c then trim_start c s' else s | [] => [] end.
(** [trim_matches(c)]. *)
Definition trim_matches (c : Z) (s : str) : str := rev (trim_start c (rev (trim_start c s))).
Definition contains (c : Z) (s : str) : bool := bool_decide (c ∈ s).
Fixpoint split_once (c : Z) (s : str) : option (str * str) :=
  match s with
  | [] => None
  | b :: s => if b =? c then Some ([], s) else match split_once c s with Some (l, r) => Some (b :: l, r) | None => None end
  end.
Definition strip_prefix (prefix s : str) : option str :=
  if starts_with s prefix then Some (drop (length prefix) s) else None.

(** [str::trim]: the characters with the property White_Space, in UTF-8. *)
Definition WHITE_SPACE : list str :=
  [[0x09]; [0x0a]; [0x0b]; [0x0c]; [0x0d]; [0x20]; [0xc2; 0x85]; [0xc2; 0xa0]; [0xe1; 0x9a; 0x80]] ++
  ((fun b => [0xe2; 0x80; b]) <$> (seqZ 0x80 11 ++ [0xa8; 0xa9; 0xaf])) ++ [[0xe2; 0x81; 0x9f]; [0xe3; 0x80; 0x80]].
Fixpoint trim_start_set (fuel : nat) (set : list str) (l : str) : str :=
  match fuel with
  | O => l
  | S fuel =>
      match list_find (fun w => starts_with l w = true) set with
      | Some (_, w) => trim_start_set fuel set (drop (length w) l)
      | None => l
      end
  end.
Definition trim (l : str) : str :=
  let l := trim_start_set (length l) WHITE_SPACE l in
  reverse (trim_start_set (length l) (reverse <$> WHITE_SPACE) (reverse l)).

Definition is_digit (b : Z) : bool := (48 <=? b) && (b <=? 57).
Definition digits_value (s : str) : Z := foldl (fun n b => n * 10 + (b - 48)) 0 s.
(** [str::parse::<usize>]: an optional [+], at least one digit, no overflow. *)
Definition parse_usize (s : str) : result Z unit :=
  let ds := match s with b :: (_ :: _) as r => if b =? 43 then drop 1 s else s | _ => s end in
  if bool_decide (ds = []) || negb (forallb is_digit ds) then Err tt
  else if digits_value ds <? 2 ^ 64 then Ok (digits_value ds) else Err tt.

(** [format!] of a [usize] in decimal; 20 digits hold every [u64]. *)
Fixpoint decimal_loop (fuel : nat) (n : Z) (acc : str) : str :=
  match fuel with
  | O => acc
  | S fuel => if n <? 10 then (48 + n) :: acc else decimal_loop fuel (n / 10) ((48 + n mod 10) :: acc)
  end.
Definition decimal (n : Z) : str := decimal_loop 20 n [].

(** ** Files *)

(** @ vfs/mod.rs:115-119 SeekFrom *)
Inductive SeekFrom := SeekStart (pos : Z) | SeekEnd (offset : Z) | SeekCurrent (offset : Z).

(** [read] returns the buffer as it leaves it and the number of bytes. *)
(** @ vfs/mod.rs:36-59 VfsFile *)
Class VfsFile (W F : Type) := {
  vf_size : W -> F -> outcome (W * F * Z);
  vf_read : W -> F -> list Z -> outcome (W * F * list Z * Z);
  vf_write : W -> F -> list Z -> outcome (W * F * Z);
  vf_seek : W -> F -> SeekFrom -> outcome (W * F * Z);
}.

Section Files.
Context {W F : Type} `{VfsFile W F}.

(** [filled] is the part of the buffer before [buf2]. *)
Fixpoint read_exact_loop (fuel : nat) (w : W) (f : F) (filled buf2 : list Z) : outcome (W * F * list Z) :=
  match fuel with
  | O => OutOfFuel
  | S fuel =>
      if llen buf2 =? 0 then Done (w, f, filled ++ buf2) else
      '(w, f, buf2, n) ← vf_read w f buf2;
      if n =? 0 then Done (w, f, filled ++ buf2) else
      rest ← slice buf2 n (llen buf2);
      read_exact_loop fuel w f (filled ++ take (Z.to_nat n) buf2) rest
  end.
(** @ vfs/mod.rs:41-49 VfsFile::read_exact *)
Definition read_exact (w : W) (f : F) (buf : list Z) : outcome (W * F * list Z) :=
  read_exact_loop (S (length buf)) w f [] buf.

Fixpoint write_all_loop (fuel : nat) (w : W) (f : F) (buf2 : list Z) : outcome (W * F) :=
  match fuel with
  | O => OutOfFuel
  | S fuel =>
      if llen buf2 =? 0 then Done (w, f) else
      '(w, f, n) ← vf_write w f buf2;
      if n =? 0 then Done (w, f) else
      rest ← slice buf2 n (llen buf2);
      write_all_loop fuel w f rest
  end.
(** @ vfs/mod.rs:50-58 VfsFile::write_all *)
Definition write_all (w : W) (f : F) (buf : list Z) : outcome (W * F) :=
  write_all_loop (S (length buf)) w f buf.
End Files.

(** ** Directory entries *)

(** @ vfs/mod.rs:61-61 DIRENT_NAME_CAP *)
Definition DIRENT_NAME_CAP : Z := 255.
(** @ vfs/mod.rs:63-68 DirEntry *)
Record DirEntry := mk_DirEntry { is_dir : Z; name : list Z }.
(** @ vfs/mod.rs:71-76 DirEntry::empty *)
Definition dirent_empty : DirEntry := mk_DirEntry 0 (replicate (Z.to_nat DIRENT_NAME_CAP) 0).
(** @ vfs/mod.rs:78-85 DirEntry::new *)
Definition dirent_new (is_dir : bool) (name_bytes : str) : DirEntry :=
  let copy_len := Z.min (llen name_bytes) (DIRENT_NAME_CAP - 1) in
  mk_DirEntry (if is_dir then 1 else 0)
    (take (Z.to_nat copy_len) name_bytes ++ drop (Z.to_nat copy_len) (name dirent_empty)).

(** A [DirEntry] is 256 bytes in user memory: [is_dir], then the name. *)
Definition dirent_bytes (e : DirEntry) : list Z := is_dir e :: name e.
Definition dirent_of_bytes (l : list Z) : DirEntry := mk_DirEntry (default 0 (head l)) (tail l).

(** @ vfs/mod.rs:88-90 VfsDirHandle *)
Class VfsDirHandle (D : Type) := { getdents : D -> list DirEntry -> outcome (D * list DirEntry * Z) }.

(** @ vfs/mod.rs:92-95 SnapshotDirectory *)
Record SnapshotDirectory := mk_Snapshot { sd_entries : list DirEntry; sd_offset : Z }.
(** @ vfs/mod.rs:98-100 SnapshotDirectory::new *)
Definition snapshot_new (entries : list DirEntry) : SnapshotDirectory := mk_Snapshot entries 0.

Fixpoint getdents_loop (fuel : nat) (d : SnapshotDirectory) (buf : list DirEntry) (written : Z)
    : outcome (SnapshotDirectory * list DirEntry * Z) :=
  match fuel with
  | O => OutOfFuel
  | S fuel =>
      if (written <? llen buf) && (sd_offset d <? llen (sd_entries d)) then
        e ← idx (sd_entries d) (sd_offset d);
        buf ← set_idx buf written e;
        getdents_loop fuel (mk_Snapshot (sd_entries d) (sd_offset d + 1)) buf (written + 1)
      else Done (d, buf, written)
  end.
(** @ vfs/mod.rs:104-112 SnapshotDirectory::getdents *)
Definition snapshot_getdents (d : SnapshotDirectory) (buf : list DirEntry) : outcome (SnapshotDirectory * list DirEntry * Z) :=
  getdents_loop (S (length buf)) d buf 0.
#[global] Instance snapshot_dir : VfsDirHandle SnapshotDirectory := {| getdents := snapshot_getdents |}.

(** ** Mounts *)

(** @ vfs/mod.rs:29-34 VfsDirectory *)
Class VfsDirectory (W F D T : Type) := {
  fs_file : W -> T -> str -> outcome (W * result F unit);
  fs_directory : W -> T -> str -> outcome (W * result D unit);
  fs_create : W -> T -> str -> outcome (W * result F unit);
  fs_remove : W -> T -> str -> outcome (W * bool);
}.

Section Mounts.
Context {W F D T : Type} `{VfsDirectory W F D T}.

(** @ vfs/mod.rs:27-27 MOUNT_TABLE *)
Definition MountTable : Type := list (str * T).

(** @ vfs/mod.rs:137-150 mount *)
Definition mount {Dev} (table : MountTable) (device : option Dev) (path : str) (fs : option Dev -> result T unit)
    : MountTable * result unit unit :=
  match fs device with
  | Err e => (table, Err e)
  | Ok filesystem => (table ++ [(path, filesystem)], Ok tt)
  end.

(** [&path[(fs.0.len() - 1)..]]. *)
Definition path_in (path mountpoint : str) : outcome str :=
  i ← sub_ovf (llen mountpoint) 1;
  str_from path i.

(** The search the four functions share: the first mount whose path is a prefix
    and whose file system has the object. *)
Fixpoint mount_lookup {A} (op : W -> T -> str -> outcome (W * result A unit)) (w : W) (path : str) (table : MountTable)
    : outcome (W * result A unit) :=
  match table with
  | [] => Done (w, Err tt)
  | (mountpoint, fs) :: table =>
      if starts_with path mountpoint then
        p ← path_in path mountpoint;
        '(w, r) ← op w fs p;
        match r with
        | Ok res => Done (w, Ok res)
        | Err _ => mount_lookup op w path table
        end
      else mount_lookup op w path table
  end.

(** @ vfs/mod.rs:152-161 get_file *)
Definition get_file (w : W) (table : MountTable) (path : str) : outcome (W * result F unit) :=
  mount_lookup fs_file w path table.
(** @ vfs/mod.rs:163-172 get_directory *)
Definition get_directory (w : W) (table : MountTable) (path : str) : outcome (W * result D unit) :=
  mount_lookup fs_directory w path table.
(** @ vfs/mod.rs:174-183 create_file_or_open_existing *)
Definition create_file_or_open_existing (w : W) (table : MountTable) (path : str) : outcome (W * result F unit) :=
  mount_lookup fs_create w path table.
(** @ vfs/mod.rs:185-191 remove_file *)
Fixpoint remove_file (w : W) (table : MountTable) (path : str) : outcome W :=
  match table with
  | [] => Done w
  | (mountpoint, fs) :: table =>
      if starts_with path mountpoint then
        p ← path_in path mountpoint;
        '(w, removed) ← fs_remove w fs p;
        if removed : bool then Done w else remove_file w table path
      else remove_file w table path
  end.
End Mounts.

(** ** Lemmas *)

Lemma starts_with_spec s p : starts_with s p = true <-> exists r, s = p ++ r.
Proof.
  unfold starts_with. rewrite bool_decide_eq_true. split.
  - intros Ht. exists (drop (length p) s). by rewrite <- Ht at 1; rewrite take_drop.
  - intros [r ->]. by rewrite take_app_length.
Qed.

(** What a file's [read] and [write] promise to the loops: they keep the length
    of the buffer and count at most its bytes. *)
Class VfsFileLaws (W F : Type) `{VfsFile W F} (ok : W -> F -> Prop) : Prop := {
  vl_read : forall w f buf, ok w f -> buf <> [] ->
    exists w' f' buf' n, vf_read w f buf = Done (w', f', buf', n) /\ length buf' = length buf /\ 0 <= n <= llen buf /\ ok w' f';
  vl_write : forall w f buf, ok w f -> buf <> [] ->
    exists w' f' n, vf_write w f buf = Done (w', f', n) /\ 0 <= n <= llen buf /\ ok w' f';
}.

Section LoopTotality.
Context {W F : Type} `{VfsFile W F} (ok : W -> F -> Prop) `{!VfsFileLaws W F ok}.

Lemma rest_of (l : list Z) n : 0 <= n <= llen l -> slice l n (llen l) = Done (drop (Z.to_nat n) l).
Proof.
  intros Hn. rewrite slice_in_range by lia. f_equal. apply take_ge. rewrite length_drop. unfold llen in *. lia.
Qed.

Lemma read_exact_loop_total fuel : forall w f filled buf,
  ok w f -> (length buf < fuel)%nat ->
  exists w' f' buf', read_exact_loop fuel w f filled buf = Done (w', f', buf') /\
    length buf' = (length filled + length buf)%nat /\ ok w' f'.
Proof.
  induction fuel as [|fuel IH]; intros w f filled buf Hok Hf; [lia|]. cbn [read_exact_loop].
  destruct (Z.eqb_spec (llen buf) 0) as [He|He].
  { exists w, f, (filled ++ buf). by rewrite length_app. }
  destruct (vl_read w f buf Hok) as (w1 & f1 & buf1 & n & -> & Hlen & Hn & Hok1); [by intros ->|].
  cbn [mbind outcome_bind]. destruct (Z.eqb_spec n 0) as [->|Hn0].
  { exists w1, f1, (filled ++ buf1). split; [done|]. rewrite length_app, Hlen. done. }
  assert (llen buf1 = llen buf) as Hl by (unfold llen; by rewrite Hlen).
  rewrite rest_of by (rewrite Hl; lia). cbn [mbind outcome_bind].
  destruct (IH w1 f1 (filled ++ take (Z.to_nat n) buf1) (drop (Z.to_nat n) buf1)) as (w2 & f2 & b2 & -> & Hb2 & Hok2);
    [done|rewrite length_drop; unfold llen in *; lia|].
  exists w2, f2, b2. split; [done|]. split; [|done].
  rewrite Hb2, length_app, length_take, length_drop. unfold llen in *. lia.
Qed.

(** The default methods of [VfsFile] come back on every well-behaved file. *)
Lemma read_exact_total w f buf : ok w f -> exists w' f' buf',
  read_exact w f buf = Done (w', f', buf') /\ length buf' = length buf /\ ok w' f'.
Proof. intros Hok. unfold read_exact. apply (read_exact_loop_total _ w f [] buf Hok). lia. Qed.

Lemma write_all_loop_total fuel : forall w f buf,
  ok w f -> (length buf < fuel)%nat -> exists w' f', write_all_loop fuel w f buf = Done (w', f') /\ ok w' f'.
Proof.
  induction fuel as [|fuel IH]; intros w f buf Hok Hf; [lia|]. cbn [write_all_loop].
  destruct (Z.eqb_spec (llen buf) 0) as [He|He]; [by exists w, f|].
  destruct (vl_write w f buf Hok) as (w1 & f1 & n & -> & Hn & Hok1); [by intros ->|].
  cbn [mbind outcome_bind]. destruct (Z.eqb_spec n 0) as [->|Hn0]; [by exists w1, f1|].
  rewrite rest_of by lia. cbn [mbind outcome_bind].
  apply IH; [done|]. rewrite length_drop. unfold llen in *. lia.
Qed.
Lemma write_all_total w f buf : ok w f -> exists w' f', write_all w f buf = Done (w', f') /\ ok w' f'.
Proof. intros Hok. apply write_all_loop_total; [done|lia]. Qed.
End LoopTotality.

(** A snapshot hands out its entries in order, each once. *)
Lemma getdents_spec fuel : forall d buf written,
  (Z.to_nat (llen buf - written) < fuel)%nat -> 0 <= written <= llen buf -> 0 <= sd_offset d <= llen (sd_entries d) ->
  let n := Z.min (llen buf - written) (llen (sd_entries d) - sd_offset d) in
  exists buf', getdents_loop fuel d buf written = Done (mk_Snapshot (sd_entries d) (sd_offset d + n), buf', written + n) /\
    buf' = take (Z.to_nat written) buf ++ take (Z.to_nat n) (drop (Z.to_nat (sd_offset d)) (sd_entries d))
           ++ drop (Z.to_nat (written + n)) buf.
Proof.
  induction fuel as [|fuel IH]; intros d buf written Hf Hw Ho; [lia|]. cbn [getdents_loop].
  destruct (Z.ltb_spec written (llen buf)) as [H1|H1]; cbn [andb].
  - destruct (Z.ltb_spec (sd_offset d) (llen (sd_entries d))) as [H2|H2].
    + destruct (idx_in_range (sd_entries d) (sd_offset d)) as (e & He & Hl); [lia|]. rewrite He. cbn [mbind outcome_bind].
      rewrite set_idx_in_range by lia. cbn [mbind outcome_bind].
      destruct (IH (mk_Snapshot (sd_entries d) (sd_offset d + 1)) (<[Z.to_nat written := e]> buf) (written + 1)) as (buf' & Hb & Hb');
        cbn [sd_entries sd_offset] in *; rewrite ?llen_insert in *; [lia..|].
      set (n := Z.min (llen buf - written) (llen (sd_entries d) - sd_offset d)).
      replace (Z.min (llen buf - (written + 1)) (llen (sd_entries d) - (sd_offset d + 1))) with (n - 1) in * by lia.
      exists buf'. split; [rewrite Hb; f_equal; f_equal; [f_equal; f_equal; lia|lia]|].
      rewrite Hb'. replace (Z.to_nat (written + 1)) with (S (Z.to_nat written)) by lia.
      rewrite (take_S_r _ _ e) by (apply list_lookup_insert_eq; unfold llen in *; lia).
      rewrite take_insert_ge, <- app_assoc by lia. f_equal. cbn [app].
      replace (Z.to_nat n) with (S (Z.to_nat (n - 1))) by lia.
      rewrite (drop_S _ e (Z.to_nat (sd_offset d))) by done. cbn [take app]. f_equal. f_equal; [f_equal; f_equal; lia|].
      rewrite drop_insert_lt by lia. f_equal. lia.
    + exists buf. cbn zeta. replace (Z.min _ _) with 0 by lia. rewrite !Z.add_0_r. split; [by destruct d|].
      rewrite take_0. cbn [app]. by rewrite take_drop.
  - exists buf. cbn zeta. replace (Z.min _ _) with 0 by lia. rewrite !Z.add_0_r. split; [by destruct d|].
    rewrite take_0. cbn [app]. by rewrite take_drop.
Qed.
