(* ===== verification/Procfs.v ===== *)
(** * The process file system: [vfs/procfs/filesystem.rs]

    Text files over a snapshot of their data, and the directory tree with one
    directory per live process. *)

From S2P Require Import Prelude Words Vfs Process.

(** ** Text files *)

(** @ vfs/procfs/filesystem.rs:11-14 ProcTextFile *)
Record ProcTextFile := mk_Text { pt_data : str; pt_pos : Z }.

(** @ vfs/procfs/filesystem.rs:86-95 VfsFile::ProcTextFile::read *)
Definition text_read (f : ProcTextFile) (buf : list Z) : outcome (ProcTextFile * list Z * Z) :=
  let data := pt_data f in
  if llen data <=? pt_pos f then Done (f, buf, 0) else
  d ← sub_ovf (llen data) (pt_pos f);
  let len := Z.min (llen buf) d in
  src ← slice data (pt_pos f) (pt_pos f + len);
  buf ← splice buf 0 src;
  Done (mk_Text data (pt_pos f + len), buf, len).

(** @ vfs/procfs/filesystem.rs:101-110 VfsFile::ProcTextFile::seek *)
Definition text_seek (f : ProcTextFile) (pos : SeekFrom) : ProcTextFile * Z :=
  let len := llen (pt_data f) in
  let new_pos := match pos with
    | SeekStart pos => Z.min pos len
    | SeekEnd offset => Z.min (saturating_add_signed 64 len offset) len
    | SeekCurrent offset => Z.min (saturating_add_signed 64 (pt_pos f) offset) len
    end in
  (mk_Text (pt_data f) new_pos, new_pos).

(** @ vfs/procfs/filesystem.rs:82-84 VfsFile::ProcTextFile::size *)
Definition text_size (f : ProcTextFile) : Z := llen (pt_data f).
(** @ vfs/procfs/filesystem.rs:97-99 VfsFile::ProcTextFile::write *)
Definition text_write (_ : list Z) : Z := 0.

#[global] Instance text_file (W : Type) : VfsFile W ProcTextFile := {
  vf_size w f := Done (w, f, text_size f);
  vf_read w f buf := '(f, buf, n) ← text_read f buf; Done (w, f, buf, n);
  vf_write w f buf := Done (w, f, text_write buf);
  vf_seek w f pos := let '(f, n) := text_seek f pos in Done (w, f, n);
}.

(** ** The tree *)

(** @ vfs/procfs/filesystem.rs:113-119 split_process_dir_path *)
Definition split_process_dir_path (path : str) : result Z unit :=
  let trimmed := trim_matches SLASH path in
  if bool_decide (trimmed = []) || contains SLASH trimmed then Err tt else parse_usize trimmed.

(** @ vfs/procfs/filesystem.rs:121-130 split_process_file_path *)
Definition split_process_file_path (path : str) : result (Z * str) unit :=
  let trimmed := trim_matches SLASH path in
  match split_once SLASH trimmed with
  | None => Err tt
  | Some (pid, file_name) =>
      if contains SLASH file_name then Err tt
      else match parse_usize pid with Err e => Err e | Ok pid => Ok (pid, file_name) end
  end.

Section Procfs.
Context (cmdline : str).

(** @ vfs/procfs/filesystem.rs:24-44 VfsDirectory::ProcFileSystem::file *)
Definition proc_file (tasks : Tasks) (path : str) : result ProcTextFile unit :=
  if bool_decide (path = bytes_of "/cmdline") then Ok (mk_Text cmdline 0) else
  match split_process_file_path path with
  | Err e => Err e
  | Ok (pid, file_name) =>
      if negb (bool_decide (file_name = bytes_of "exe")) then Err tt
      else match zget tasks pid with
           | Some (Some task) => Ok (mk_Text (unwrap_or [] (exe_path task)) 0)
           | _ => Err tt
           end
  end.

(** The entries of the tasks, numbered from [pid]. *)
Fixpoint task_entries (tasks : Tasks) (pid : Z) : list DirEntry :=
  match tasks with
  | [] => []
  | Some _ :: tasks => dirent_new true (decimal pid) :: task_entries tasks (pid + 1)
  | None :: tasks => task_entries tasks (pid + 1)
  end.

(** @ vfs/procfs/filesystem.rs:46-67 VfsDirectory::ProcFileSystem::directory *)
Definition proc_directory (tasks : Tasks) (path : str) : result SnapshotDirectory unit :=
  if bool_decide (path = bytes_of "/") || bool_decide (path = []) then
    Ok (snapshot_new (dirent_new false (bytes_of "cmdline") :: task_entries tasks 0))
  else
    match split_process_dir_path path with
    | Err e => Err e
    | Ok pid =>
        match zget tasks pid with
        | Some (Some _) => Ok (snapshot_new [dirent_new false (bytes_of "exe")])
        | _ => Err tt
        end
    end.

(** @ vfs/procfs/filesystem.rs:69-74 VfsDirectory::ProcFileSystem::create_file_or_open_existing *)
Definition proc_create (_ : str) : result ProcTextFile unit := Err tt.
(** @ vfs/procfs/filesystem.rs:76-78 VfsDirectory::ProcFileSystem::remove *)
Definition proc_remove (_ : str) : bool := false.

(** The kernel state is the task table. *)
#[global] Instance procfs : VfsDirectory Tasks ProcTextFile SnapshotDirectory unit := {
  fs_file w _ path := Done (w, proc_file w path);
  fs_directory w _ path := Done (w, proc_directory w path);
  fs_create w _ path := Done (w, proc_create path);
  fs_remove w _ path := Done (w, proc_remove path);
}.
End Procfs.

(** ** Text files: lemmas *)

Lemma text_read_spec f buf :
  0 <= pt_pos f ->
  let n := Z.min (llen buf) (Z.max 0 (llen (pt_data f) - pt_pos f)) in
  text_read f buf = Done (mk_Text (pt_data f) (pt_pos f + n),
    take (Z.to_nat n) (drop (Z.to_nat (pt_pos f)) (pt_data f)) ++ drop (Z.to_nat n) buf, n).
Proof.
  intros Hp n. unfold text_read. destruct (Z.leb_spec (llen (pt_data f)) (pt_pos f)) as [Hle|Hlt].
  - assert (n = 0) as -> by (pose proof (llen_nonneg buf); lia). rewrite Z.add_0_r, take_0, drop_0. by destruct f.
  - pose proof (llen_nonneg buf). unfold sub_ovf. rewrite (proj2 (Z.leb_le _ _)) by lia. cbn [mbind outcome_bind].
    replace (Z.min (llen buf) (llen (pt_data f) - pt_pos f)) with n by lia.
    rewrite slice_in_range by lia. cbn [mbind outcome_bind].
    replace (Z.to_nat (pt_pos f + n - pt_pos f)) with (Z.to_nat n) by lia.
    assert (length (take (Z.to_nat n) (drop (Z.to_nat (pt_pos f)) (pt_data f))) = Z.to_nat n) as Hl.
    { rewrite length_take, length_drop. unfold llen in *. lia. }
    rewrite splice_in_range by (unfold llen in *; lia). cbn [mbind outcome_bind].
    rewrite take_0, Hl. done.
Qed.

Lemma text_seek_bounds f pos :
  0 <= pt_pos f -> (forall p, pos = SeekStart p -> 0 <= p) ->
  0 <= pt_pos (text_seek f pos).1 <= llen (pt_data f) /\ (text_seek f pos).2 = pt_pos (text_seek f pos).1.
Proof.
  intros Hp Hs. pose proof (llen_nonneg (pt_data f)). unfold text_seek, saturating_add_signed.
  destruct pos as [p|o|o]; cbn; split; try done; [specialize (Hs p eq_refl); lia|lia|lia].
Qed.

(** ** Numbers *)

Lemma decimal_digits fuel : forall n acc,
  0 <= n < 10 ^ Z.of_nat fuel -> (0 < fuel)%nat ->
  digits_value (decimal_loop fuel n acc) = foldl (fun n b => n * 10 + (b - 48)) n acc.
Proof.
  induction fuel as [|fuel IH]; intros n acc Hn Hf; [lia|]. cbn [decimal_loop].
  destruct (Z.ltb_spec n 10) as [Hlt|Hge].
  - unfold digits_value. cbn [foldl]. f_equal. lia.
  - assert (0 < fuel)%nat as Hf'.
    { destruct fuel; [|lia]. change (10 ^ Z.of_nat 1) with 10 in Hn. lia. }
    rewrite IH; [|split; [apply Z.div_pos; lia|]|done].
    + cbn [foldl]. f_equal. pose proof (Z.div_mod n 10). lia.
    + apply Z.div_lt_upper_bound; [lia|]. rewrite <- Z.pow_succ_r by lia. replace (Z.succ (Z.of_nat fuel)) with (Z.of_nat (S fuel)) by lia. lia.
Qed.

Lemma decimal_loop_digits fuel : forall n acc,
  0 <= n -> forallb is_digit acc = true -> forallb is_digit (decimal_loop fuel n acc) = true.
Proof.
  induction fuel as [|fuel IH]; intros n acc Hn Hacc; cbn [decimal_loop]; [done|].
  destruct (Z.ltb_spec n 10).
  - cbn [forallb]. rewrite Hacc. unfold is_digit. rewrite !(proj2 (Z.leb_le _ _)) by lia. done.
  - apply IH; [apply Z.div_pos; lia|]. cbn [forallb]. rewrite Hacc. unfold is_digit.
    pose proof (Z.mod_pos_bound n 10). rewrite !(proj2 (Z.leb_le _ _)) by lia. done.
Qed.

Lemma decimal_loop_nonempty fuel n acc : (0 < fuel)%nat -> decimal_loop fuel n acc <> [].
Proof.
  revert n acc. induction fuel as [|fuel IH]; intros n acc Hf; [lia|]. cbn [decimal_loop].
  destruct (n <? 10); [done|]. destruct fuel; [done|]. apply IH. lia.
Qed.

(** What a number in decimal looks like. *)
Lemma decimal_spec n :
  0 <= n < 2 ^ 64 -> parse_usize (decimal n) = Ok n /\ decimal n <> [] /\ forall b, b ∈ decimal n -> 48 <= b <= 57.
Proof.
  intros Hn. assert (0 <= n < 10 ^ Z.of_nat 20) as Hn' by (split; [lia|]; change (10 ^ Z.of_nat 20) with 100000000000000000000; lia).
  pose proof (decimal_digits 20 n [] Hn' ltac:(lia)) as Hv. pose proof (decimal_loop_digits 20 n [] ltac:(lia) eq_refl) as Hd.
  pose proof (decimal_loop_nonempty 20 n [] ltac:(lia)) as Hne. fold (decimal n) in *. cbn [foldl] in Hv.
  assert (forall b, b ∈ decimal n -> 48 <= b <= 57) as Hb.
  { intros b Hb. rewrite forallb_forall in Hd. apply list_elem_of_In, Hd in Hb. unfold is_digit in Hb. reflect_bools. lia. }
  split; [|done]. unfold parse_usize.
  assert (match decimal n with b :: (_ :: _) as r => if b =? 43 then drop 1 (decimal n) else decimal n | _ => decimal n end = decimal n) as ->.
  { destruct (decimal n) as [|b [|c r]] eqn:E; [done|done|]. destruct (Z.eqb_spec b 43); [|done].
    specialize (Hb b ltac:(left)). lia. }
  rewrite bool_decide_false, Hd by done. cbn [negb orb]. rewrite Hv, (proj2 (Z.ltb_lt _ _)) by lia. done.
Qed.

(** ** Paths *)

Lemma trim_start_id c s : (forall b, head s = Some b -> b <> c) -> trim_start c s = s.
Proof. destruct s as [|b s]; intros Hh; cbn; [done|]. rewrite (proj2 (Z.eqb_neq _ _)); [done|]. by apply Hh. Qed.

(** One leading slash, no trailing one. *)
Lemma trim_slash s :
  (forall b, head s = Some b -> b <> SLASH) -> (forall b, last s = Some b -> b <> SLASH) ->
  trim_matches SLASH (SLASH :: s) = s.
Proof.
  intros Hh Hl. unfold trim_matches. cbn [trim_start]. rewrite Z.eqb_refl, (trim_start_id SLASH s) by done.
  rewrite trim_start_id; [apply rev_involutive|]. intros b Hb. apply Hl.
  rewrite <- head_reverse. unfold reverse. by rewrite <- rev_alt.
Qed.

Lemma split_once_spec c l r : c ∉ l -> split_once c (l ++ c :: r) = Some (l, r).
Proof.
  induction l as [|b l IH]; intros Hc; cbn [app split_once]; [by rewrite Z.eqb_refl|].
  rewrite elem_of_cons in Hc. rewrite (proj2 (Z.eqb_neq _ _)) by (intros ->; tauto). rewrite IH; tauto.
Qed.

Lemma decimal_no_slash n : 0 <= n < 2 ^ 64 -> SLASH ∉ decimal n.
Proof. intros Hn Hin. destruct (decimal_spec n Hn) as (_ & _ & Hb). specialize (Hb _ Hin). unfold SLASH in Hb. lia. Qed.

Lemma decimal_ends n b : 0 <= n < 2 ^ 64 -> b ∈ decimal n -> b <> SLASH.
Proof. intros Hn Hin ->. by apply (decimal_no_slash n). Qed.

Lemma head_elem {A} (l : list A) b : head l = Some b -> b ∈ l.
Proof. destruct l; [done|]. intros [= ->]. left. Qed.
Lemma last_elem {A} (l : list A) b : last l = Some b -> b ∈ l.
Proof. intros Hl. rewrite last_lookup in Hl. by eapply list_elem_of_lookup_2. Qed.

Lemma dir_path_decimal n : 0 <= n < 2 ^ 64 -> split_process_dir_path (SLASH :: decimal n) = Ok n.
Proof.
  intros Hn. unfold split_process_dir_path. destruct (decimal_spec n Hn) as (Hp & Hne & _).
  rewrite trim_slash.
  2: { intros b Hb. apply (decimal_ends n); [done|]. by apply head_elem. }
  2: { intros b Hb. apply (decimal_ends n); [done|]. by apply last_elem. }
  rewrite bool_decide_false by done. unfold contains. by rewrite bool_decide_false by by apply decimal_no_slash.
Qed.

Lemma file_path_decimal n : 0 <= n < 2 ^ 64 ->
  split_process_file_path (SLASH :: decimal n ++ bytes_of "/exe") = Ok (n, bytes_of "exe").
Proof.
  intros Hn. unfold split_process_file_path. destruct (decimal_spec n Hn) as (Hp & Hne & _).
  rewrite trim_slash.
  - change (decimal n ++ bytes_of "/exe") with (decimal n ++ SLASH :: bytes_of "exe").
    rewrite split_once_spec by by apply decimal_no_slash. cbn [contains]. by rewrite Hp.
  - intros b Hb. apply (decimal_ends n); [done|]. apply head_elem. by destruct (decimal n).
  - intros b. change (bytes_of "/exe") with ([47; 101; 120] ++ [101]). rewrite app_assoc, last_snoc. by intros [= <-].
Qed.

Lemma task_entries_elem tasks : forall pid i p,
  tasks !! i = Some (Some p) -> dirent_new true (decimal (pid + Z.of_nat i)) ∈ task_entries tasks pid.
Proof.
  induction tasks as [|o tasks IH]; intros pid i p Hi; [done|]. destruct i as [|i]; cbn in Hi.
  - injection Hi as ->. cbn [task_entries]. rewrite Z.add_0_r. left.
  - replace (pid + Z.of_nat (S i)) with (pid + 1 + Z.of_nat i) by lia.
    destruct o; cbn [task_entries]; [right|]; by eapply IH.
Qed.

(** Reading a text file ([/proc/cmdline], [/proc/<pid>/exe]) with
    [read_exact] fills the buffer with the data from the current position to the
    end of the file, leaves the rest of the buffer, moves the position to the
    last byte read, and comes back. *)
Theorem text_file_reads_content (W : Type) (w : W) (f : ProcTextFile) (buf : list Z) :
  0 <= pt_pos f ->
  let n := Z.min (llen buf) (Z.max 0 (llen (pt_data f) - pt_pos f)) in
  read_exact w f buf = Done (w, mk_Text (pt_data f) (pt_pos f + n),
    take (Z.to_nat n) (drop (Z.to_nat (pt_pos f)) (pt_data f)) ++ drop (Z.to_nat n) buf).
Proof.
  intros Hp n. pose proof (llen_nonneg (pt_data f)) as Hd. pose proof (llen_nonneg buf) as Hb.
  assert (0 <= n <= llen buf) as Hn by lia. unfold read_exact. cbn [read_exact_loop].
  destruct (Z.eqb_spec (llen buf) 0) as [He|He].
  { assert (n = 0) as -> by lia. rewrite Z.add_0_r, take_0, drop_0. by destruct f. }
  cbn [vf_read text_file]. rewrite text_read_spec by done. fold n. cbn [mbind outcome_bind].
  set (piece := take (Z.to_nat n) (drop (Z.to_nat (pt_pos f)) (pt_data f))).
  destruct (Z.eqb_spec n 0) as [Hn0|Hn0]; [done|].
  assert (length piece = Z.to_nat n) as Hpl by (unfold piece; rewrite length_take, length_drop; unfold llen in *; lia).
  assert (llen (piece ++ drop (Z.to_nat n) buf) = llen buf) as Hll.
  { unfold llen. rewrite length_app, Hpl, length_drop. unfold llen in *. lia. }
  rewrite rest_of by (rewrite Hll; lia). cbn [mbind outcome_bind app].
  rewrite take_app_length', drop_app_length' by done.
  assert (exists fuel, length buf = S fuel) as [fuel ->] by (exists (pred (length buf)); unfold llen in He; lia).
  cbn [read_exact_loop]. destruct (Z.eqb_spec (llen (drop (Z.to_nat n) buf)) 0) as [Hr|Hr]; [done|].
  cbn [vf_read text_file]. rewrite text_read_spec by (cbn; lia). cbn [mbind outcome_bind pt_data pt_pos].
  assert (n = llen (pt_data f) - pt_pos f) as Hend.
  { unfold llen in Hr. rewrite length_drop in Hr. unfold llen in *. lia. }
  replace (Z.min (llen (drop (Z.to_nat n) buf)) (Z.max 0 (llen (pt_data f) - (pt_pos f + n)))) with 0
    by (pose proof (llen_nonneg (drop (Z.to_nat n) buf)); lia).
  cbn [Z.eqb]. rewrite take_0, drop_0, Z.add_0_r. done.
Qed.

Lemma text_file_reads_content_witness :
  read_exact tt (mk_Text [10; 20; 30; 40] 1) [0; 0; 0; 0; 0] = Done (tt, mk_Text [10; 20; 30; 40] 4, [20; 30; 40; 0; 0]).
Proof. apply (text_file_reads_content unit tt (mk_Text [10; 20; 30; 40] 1) [0; 0; 0; 0; 0]). cbn. lia. Defined.

(** The listing of [/proc] agrees with the tree: every live process has a
    directory entry named by its PID, that name opens as a directory holding
    [exe], and [<pid>/exe] is a file with the path of its executable; a PID
    without a process opens neither. *)
Theorem procfs_listing_resolves (cmdline : str) (tasks : Tasks) (pid : Z) :
  0 <= pid < 2 ^ 64 ->
  match zget tasks pid with
  | Some (Some p) =>
      (exists d, proc_directory tasks (bytes_of "/") = Ok d /\ dirent_new true (decimal pid) ∈ sd_entries d) /\
      proc_directory tasks (SLASH :: decimal pid) = Ok (snapshot_new [dirent_new false (bytes_of "exe")]) /\
      proc_file cmdline tasks (SLASH :: decimal pid ++ bytes_of "/exe") = Ok (mk_Text (unwrap_or [] (exe_path p)) 0)
  | _ =>
      proc_directory tasks (SLASH :: decimal pid) = Err tt /\
      proc_file cmdline tasks (SLASH :: decimal pid ++ bytes_of "/exe") = Err tt
  end.
Proof.
  intros Hn. destruct (decimal_spec pid Hn) as (_ & Hne & Hb).
  assert (proc_directory tasks (SLASH :: decimal pid) =
    match zget tasks pid with Some (Some _) => Ok (snapshot_new [dirent_new false (bytes_of "exe")]) | _ => Err tt end) as Hdir.
  { unfold proc_directory. rewrite !bool_decide_false; [|done|by intros [= ?]]. cbn [orb]. by rewrite dir_path_decimal. }
  assert (proc_file cmdline tasks (SLASH :: decimal pid ++ bytes_of "/exe") =
    match zget tasks pid with Some (Some task) => Ok (mk_Text (unwrap_or [] (exe_path task)) 0) | _ => Err tt end) as Hfile.
  { unfold proc_file. rewrite bool_decide_false, file_path_decimal by first [done|
      intros He; injection He as He; destruct (decimal pid) as [|b l]; [done|]; injection He as ->; specialize (Hb 99 ltac:(left)); lia].
    by rewrite bool_decide_true. }
  rewrite Hdir, Hfile. destruct (zget tasks pid) as [[p|]|] eqn:Et; [|done..]. split; [|done].
  eexists. split; [reflexivity|]. cbn [snapshot_new sd_entries]. right.
  unfold zget in Et. case_bool_decide; [|done]. apply (task_entries_elem _ 0) in Et.
  by rewrite Z.add_0_l, Z2Nat.id in Et.
Qed.

Lemma procfs_listing_resolves_witness :
  proc_file [] [None; Some (mk_Process 0 context_default [] 0 0 0 (Some (bytes_of "/init")) Runnable [] [] [])]
    (bytes_of "/1/exe") = Ok (mk_Text (bytes_of "/init") 0).
Proof.
  exact (proj2 (proj2 (procfs_listing_resolves []
    [None; Some (mk_Process 0 context_default [] 0 0 0 (Some (bytes_of "/init")) Runnable [] [] [])] 1 ltac:(lia)))).
Defined.
