(* ===== verification/Block.v ===== *)
(** * Byte-addressed devices: the [fatfs] traits, [blockdev/ramdisk.rs]

    [FatIo] is the [Read + Write + Seek] interface the FAT layer and the GPT
    partitions use; [ByteDevice] is what a device promises to them. *)

From S2P Require Import Prelude Words Vfs.

(** [fatfs::Read], [Write] and [Seek]: [read] returns the buffer as it leaves
    it.  [fatfs::SeekFrom] has the constructors of the kernel's own. *)
Class FatIo (W T E : Type) := {
  fio_read : W -> T -> list Z -> outcome (W * T * list Z * result Z E);
  fio_write : W -> T -> list Z -> outcome (W * T * result Z E);
  fio_seek : W -> T -> SeekFrom -> outcome (W * T * result Z E);
}.

(** The bytes [[pos, pos + n)] of an image. *)
Definition image_bytes (img : Z -> Z) (pos n : Z) : list Z := img <$> seqZ pos n.
Lemma image_bytes_len img pos n : 0 <= n -> llen (image_bytes img pos n) = n.
Proof. intros. unfold image_bytes, llen. rewrite length_fmap, length_seqZ. lia. Qed.
Lemma image_bytes_split img pos n k :
  0 <= k <= n -> image_bytes img pos n = image_bytes img pos k ++ image_bytes img (pos + k) (n - k).
Proof.
  intros Hk. unfold image_bytes. rewrite <- fmap_app. f_equal. replace n with (k + (n - k)) at 1 by lia.
  apply seqZ_app; lia.
Qed.

(** The byte image of a disk of [n]-byte blocks. *)
Definition block_byte (n : Z) (disk : Z -> list Z) (i : Z) : Z := disk (i / n) !!! Z.to_nat (i mod n).
Lemma block_piece n (disk : Z -> list Z) pos take :
  0 < n -> llen (disk (pos / n)) = n -> 0 <= take <= n - pos mod n ->
  slice (disk (pos / n)) (pos mod n) (pos mod n + take) = Done (image_bytes (block_byte n disk) pos take).
Proof.
  intros Hn Hlen Ht. pose proof (Z.mod_pos_bound pos n Hn). rewrite slice_in_range by lia. f_equal.
  apply list_eq. intros i. unfold image_bytes. rewrite list_lookup_fmap.
  destruct (decide (i < Z.to_nat take)%nat) as [Hi|Hi].
  - rewrite lookup_take_lt, lookup_drop, lookup_seqZ_lt by lia. cbn. unfold block_byte.
    replace ((pos + Z.of_nat i) / n) with (pos / n) by (apply (Z.div_unique _ _ _ (pos mod n + Z.of_nat i)); [lia|]; pose proof (Z.div_mod pos n); lia).
    replace ((pos + Z.of_nat i) mod n) with (pos mod n + Z.of_nat i) by (apply (Z.mod_unique _ _ (pos / n)); [lia|]; pose proof (Z.div_mod pos n); lia).
    rewrite Z2Nat.inj_add, Nat2Z.id by lia. apply list_lookup_lookup_total_lt. unfold llen in Hlen. lia.
  - rewrite lookup_take_ge, lookup_seqZ_ge by lia. done.
Qed.
(** A position inside a disk of [k] blocks lies in one of them. *)
Lemma block_index n k pos : 0 < n -> 0 <= pos < k * n -> 0 <= pos / n < k.
Proof. intros. split; [apply Z.div_pos; lia|apply Z.div_lt_upper_bound; lia]. Qed.
(** Up to the end of its block it stays inside. *)
Lemma block_rest n k pos : 0 < n -> 0 <= pos < k * n -> pos + (n - pos mod n) <= k * n.
Proof. intros Hn Hp. pose proof (block_index n k pos Hn Hp). pose proof (Z.div_mod pos n). nia. Qed.

(** The byte image of a disk of 512-byte sectors. *)
Abbreviation sector_byte := (block_byte 512).
Lemma sector_piece (disk : Z -> list Z) pos take :
  llen (disk (pos / 512)) = 512 -> 0 <= pos -> 0 <= take <= 512 - pos mod 512 ->
  slice (disk (pos / 512)) (pos mod 512) (pos mod 512 + take) = Done (image_bytes (sector_byte disk) pos take).
Proof. intros. by apply block_piece. Qed.

(** The target of a seek as the RAM disk, the AHCI and the NVMe device compute it:
    the size, whose product may overflow, is computed where it is used. *)
Definition seek_target (size : outcome Z) (cur_pos : Z) (pos : SeekFrom) : outcome (option Z) :=
  new_pos ← match pos with
    | SeekStart offset => Done (sext 64 offset)
    | SeekEnd offset => size ← size; i64_add (sext 64 size) offset
    | SeekCurrent offset => i64_add (sext 64 cur_pos) offset
    end;
  if new_pos <? 0 then Done None else
  size ← size;
  Done (if sext 64 size <? new_pos then None else Some new_pos).

Lemma sext_small z : 0 <= z < 2 ^ 63 -> sext 64 z = z.
Proof. intros Hz. unfold sext. rewrite Z.mod_small by lia. by rewrite (proj2 (Z.ltb_lt _ _)) by lia. Qed.
Lemma seek_start size cur p :
  0 <= size < 2 ^ 63 -> 0 <= p < 2 ^ 64 ->
  seek_target (Done size) cur (SeekStart p) = Done (if p <=? size then Some p else None).
Proof.
  intros Hs Hp. unfold seek_target. cbn [mbind outcome_bind]. rewrite (sext_small size) by done.
  unfold sext. rewrite Z.mod_small by lia. destruct (Z.ltb_spec p (2 ^ (64 - 1))).
  - rewrite (proj2 (Z.ltb_ge p 0)) by lia. by destruct (Z.ltb_spec size p), (Z.leb_spec p size); try lia.
  - rewrite (proj2 (Z.ltb_lt _ 0)) by lia. by rewrite (proj2 (Z.leb_gt _ _)) by lia.
Qed.

(** A device that reads as a byte image: [bd_inv] holds while it works. *)
Class ByteDevice (W T E : Type) `{FatIo W T E} := {
  bd_inv : W -> T -> Prop;
  bd_pos : T -> Z;
  bd_size : T -> Z;
  bd_image : W -> T -> Z -> Z;
  bd_pos_range : forall w t, bd_inv w t -> 0 <= bd_pos t <= bd_size t;
  bd_read : forall w t buf w' t' buf' n, bd_inv w t -> fio_read w t buf = Done (w', t', buf', Ok n) ->
    0 <= n <= llen buf /\ bd_pos t + n <= bd_size t /\
    buf' = image_bytes (bd_image w t) (bd_pos t) n ++ drop (Z.to_nat n) buf /\
    bd_inv w' t' /\ bd_pos t' = bd_pos t + n /\ bd_size t' = bd_size t /\ (forall i, bd_image w' t' i = bd_image w t i);
  bd_seek : forall w t p w' t' n, bd_inv w t -> 0 <= p < 2 ^ 64 -> fio_seek w t (SeekStart p) = Done (w', t', Ok n) ->
    bd_inv w' t' /\ bd_pos t' = p /\ bd_size t' = bd_size t /\ (forall i, bd_image w' t' i = bd_image w t i);
}.

(** A file that reads piece by piece as an image reads whole. *)
Section Pieces.
Context {W F : Type} `{VfsFile W F} (inv : W -> F -> Prop) (pos : F -> Z) (size : Z) (img : Z -> Z).
Context (piece : forall w f buf, inv w f -> 0 < llen buf -> pos f < size ->
  exists w' f' n, vf_read w f buf = Done (w', f', image_bytes img (pos f) n ++ drop (Z.to_nat n) buf, n) /\
    0 < n <= llen buf /\ pos f' = pos f + n /\ inv w' f').

Lemma read_exact_loop_image fuel : forall w f filled buf,
  inv w f -> pos f + llen buf <= size -> (length buf < fuel)%nat ->
  exists w' f', read_exact_loop fuel w f filled buf = Done (w', f', filled ++ image_bytes img (pos f) (llen buf)) /\
    inv w' f' /\ pos f' = pos f + llen buf.
Proof.
  induction fuel as [|fuel IH]; intros w f filled buf Hi Hs Hf; [lia|]. cbn [read_exact_loop].
  destruct (Z.eqb_spec (llen buf) 0) as [H0|H0].
  - assert (buf = []) as -> by (apply length_zero_iff_nil; unfold llen in H0; lia).
    exists w, f. split; [done|]. split; [done|]. unfold llen. cbn. lia.
  - pose proof (llen_nonneg buf). destruct (piece w f buf) as (w1 & f1 & n & -> & Hn & Hp & Hi1); [done|lia|lia|].
    cbn [mbind outcome_bind]. rewrite (proj2 (Z.eqb_neq n 0)) by lia.
    assert (llen (image_bytes img (pos f) n) = n) as Hl by (apply image_bytes_len; lia).
    assert (length (image_bytes img (pos f) n) = Z.to_nat n) as Hl' by (unfold llen in Hl; lia).
    assert (llen (image_bytes img (pos f) n ++ drop (Z.to_nat n) buf) = llen buf) as Hla.
    { rewrite llen_app, Hl. unfold llen. rewrite length_drop. unfold llen in *. lia. }
    rewrite slice_in_range by lia. cbn [mbind outcome_bind].
    rewrite (drop_app_length' _ _ _ (eq_sym Hl')), (take_app_length' _ _ _ (eq_sym Hl')).
    rewrite take_ge by (rewrite length_drop; unfold llen in *; lia).
    destruct (IH w1 f1 (filled ++ image_bytes img (pos f) n) (drop (Z.to_nat n) buf)) as (w2 & f2 & -> & Hi2 & Hp2);
      [done|rewrite Hp; unfold llen in *; rewrite length_drop; lia|rewrite length_drop; unfold llen in *; lia|].
    assert (llen (drop (Z.to_nat n) buf) = llen buf - n) as Hd by (unfold llen in *; rewrite length_drop; lia).
    exists w2, f2. rewrite Hd, Hp in *. split; [|split; [done|lia]].
    rewrite (image_bytes_split img (pos f) (llen buf) n), app_assoc by lia. done.
Qed.

Lemma read_exact_image w f buf :
  inv w f -> pos f + llen buf <= size ->
  exists w' f', read_exact w f buf = Done (w', f', image_bytes img (pos f) (llen buf)) /\ inv w' f' /\ pos f' = pos f + llen buf.
Proof. intros Hi Hs. apply (read_exact_loop_image _ w f [] buf); [done|done|lia]. Qed.
End Pieces.

(** ** The RAM disk *)

(** @ blockdev/ramdisk.rs:3-7 RamDisk *)
Record RamDisk := mk_RamDisk { rd_size_in_blocks : Z; rd_ptr : Z; rd_cur_pos : Z }.
(** @ blockdev/ramdisk.rs:10-16 RamDisk::with_addr_and_size *)
Definition ramdisk_new (addr size : Z) : RamDisk := mk_RamDisk (div_ceil size 512) addr 0.

(** The memory the disk points into. *)
Definition byte_memory : Type := Z -> Z.
Definition mem_read (m : byte_memory) (a n : Z) : list Z := image_bytes m a n.
Definition mem_write (m : byte_memory) (a : Z) (src : list Z) : byte_memory :=
  fun i => if bool_decide (a <= i < a + llen src) then src !!! Z.to_nat (i - a) else m i.

(** [fatfs::Error<()>]. *)
Inductive RamError := RamIo.

(** @ blockdev/ramdisk.rs:26-37 Read::RamDisk::read *)
Definition ram_read (m : byte_memory) (d : RamDisk) (buf : list Z) : outcome (RamDisk * list Z * result Z RamError) :=
  let will_read := if llen buf <? 512 then llen buf else 512 in
  stop ← add_ovf 64 (rd_cur_pos d) will_read;
  size ← mul_ovf 64 (rd_size_in_blocks d) 512;
  if stop <? size then
    buf ← splice buf 0 (mem_read m (rd_ptr d + rd_cur_pos d) will_read);
    Done (mk_RamDisk (rd_size_in_blocks d) (rd_ptr d) stop, buf, Ok will_read)
  else Done (d, buf, Err RamIo).

(** @ blockdev/ramdisk.rs:41-52 Write::RamDisk::write *)
Definition ram_write (m : byte_memory) (d : RamDisk) (buf : list Z) : outcome (byte_memory * RamDisk * result Z RamError) :=
  let will_write := if llen buf <? 512 then llen buf else 512 in
  size ← mul_ovf 64 (rd_size_in_blocks d) 512;
  if rd_cur_pos d <=? size then
    stop ← add_ovf 64 (rd_cur_pos d) will_write;
    Done (mem_write m (rd_ptr d + rd_cur_pos d) (take (Z.to_nat will_write) buf),
          mk_RamDisk (rd_size_in_blocks d) (rd_ptr d) stop, Ok will_write)
  else Done (m, d, Err RamIo).

(** @ blockdev/ramdisk.rs:60-72 Seek::RamDisk::seek *)
Definition ram_seek (d : RamDisk) (frm : SeekFrom) : outcome (RamDisk * result Z RamError) :=
  new_pos ← seek_target (mul_ovf 64 (rd_size_in_blocks d) 512) (rd_cur_pos d) frm;
  Done match new_pos with
    | None => (d, Err RamIo)
    | Some new_pos => (mk_RamDisk (rd_size_in_blocks d) (rd_ptr d) new_pos, Ok new_pos)
    end.

(** @ blockdev/ramdisk.rs:71-99 crate::vfs::VfsFile for RamDisk *)
#[global] Instance ramdisk_file : VfsFile byte_memory RamDisk := {
  vf_size m d := size ← mul_ovf 64 (rd_size_in_blocks d) 512; Done (m, d, size);
  vf_read m d buf := '(d, buf, r) ← ram_read m d buf; n ← unwrap_ok r; Done (m, d, buf, n);
  vf_write m d buf := '(m, d, r) ← ram_write m d buf; n ← unwrap_ok r; Done (m, d, n);
  vf_seek m d pos := '(d, r) ← ram_seek d pos; n ← unwrap_ok r; Done (m, d, n);
}.

(** ** RAM disk: properties *)

Lemma mem_write_read m a src : mem_read (mem_write m a src) a (llen src) = src.
Proof.
  unfold mem_read, image_bytes. apply list_eq. intros i. rewrite list_lookup_fmap.
  destruct (decide (i < length src)%nat) as [Hi|Hi].
  - rewrite lookup_seqZ_lt by (unfold llen; lia). cbn. unfold mem_write.
    rewrite bool_decide_true by (unfold llen; lia).
    replace (Z.to_nat (a + Z.of_nat i - a)) with i by lia. symmetry. by apply list_lookup_lookup_total_lt.
  - rewrite lookup_seqZ_ge by (unfold llen; lia). cbn. symmetry. apply lookup_ge_None_2. lia.
Qed.

Lemma splice_all (buf src : list Z) : length src = length buf -> splice buf 0 src = Done src.
Proof.
  intros Hl. rewrite splice_in_range by (unfold llen; lia). rewrite take_0, drop_ge by (cbn; lia). by rewrite app_nil_r.
Qed.

(** What is written to the RAM disk is read back: a write of at most one
    block that ends before the last byte of the disk stores exactly those bytes
    (no other byte of memory changes), and a seek back to where it started and a
    read of as many bytes return them. *)
Theorem ramdisk_round_trip (m : byte_memory) (d : RamDisk) (buf out : list Z) :
  0 <= rd_cur_pos d -> llen buf <= 512 -> length out = length buf ->
  rd_cur_pos d + llen buf < rd_size_in_blocks d * 512 < 2 ^ 63 ->
  exists m' d', vf_write m d buf = Done (m', d', llen buf) /\
    vf_seek m' d' (SeekStart (rd_cur_pos d)) = Done (m', d, rd_cur_pos d) /\
    vf_read m' d out = Done (m', d', buf, llen buf) /\
    forall a, ~ (rd_ptr d + rd_cur_pos d <= a < rd_ptr d + rd_cur_pos d + llen buf) -> m' a = m a.
Proof.
  intros Hp Hb Ho Hs. pose proof (llen_nonneg buf).
  assert ((if llen buf <? 512 then llen buf else 512) = llen buf) as Hw by (destruct (Z.ltb_spec (llen buf) 512); lia).
  assert ((if llen out <? 512 then llen out else 512) = llen buf) as Hr.
  { assert (llen out = llen buf) as -> by (unfold llen; lia). done. }
  cbn [vf_write vf_seek vf_read ramdisk_file]. unfold ram_write, ram_seek, ram_read, mul_ovf, add_ovf. rewrite Hw, Hr.
  rewrite (proj2 (Z.ltb_lt (rd_size_in_blocks d * 512) _)) by lia. cbn [mbind outcome_bind].
  rewrite (proj2 (Z.leb_le _ _)) by lia. rewrite (proj2 (Z.ltb_lt (rd_cur_pos d + llen buf) (2 ^ 64))) by lia.
  cbn [mbind outcome_bind unwrap_ok rd_size_in_blocks]. rewrite take_ge by (unfold llen; lia).
  exists (mem_write m (rd_ptr d + rd_cur_pos d) buf), (mk_RamDisk (rd_size_in_blocks d) (rd_ptr d) (rd_cur_pos d + llen buf)).
  split; [reflexivity|]. cbn [rd_size_in_blocks rd_ptr].
  rewrite (proj2 (Z.ltb_lt (rd_size_in_blocks d * 512) (2 ^ 64))) by lia. rewrite seek_start, (proj2 (Z.leb_le _ _)) by lia.
  cbn [mbind outcome_bind unwrap_ok].
  split; [by destruct d|]. rewrite (proj2 (Z.ltb_lt _ _)) by lia. rewrite mem_write_read, splice_all by done.
  cbn [mbind outcome_bind unwrap_ok]. split; [done|]. intros a Ha. unfold mem_write. by rewrite bool_decide_false.
Qed.

Lemma ramdisk_round_trip_witness :
  exists m' d', vf_write (fun _ => 0) (mk_RamDisk 2 0x1000 10) [7; 8; 9] = Done (m', d', 3) /\
    vf_read m' (mk_RamDisk 2 0x1000 10) [0; 0; 0] = Done (m', d', [7; 8; 9], 3).
Proof.
  destruct (ramdisk_round_trip (fun _ => 0) (mk_RamDisk 2 0x1000 10) [7; 8; 9] [0; 0; 0]) as (m' & d' & Hw & _ & Hr & _);
    [cbn; lia|unfold llen; cbn; lia|reflexivity|unfold llen; cbn; lia|].
  exists m', d'. split; [exact Hw|exact Hr].
Defined.

(** The end of the RAM disk cannot be read: the bound test is strict, so a
    read whose (at most 512) bytes reach the end of the disk fails, and the
    [unwrap] of [/dev/initrd] turns that into a kernel panic. *)
Theorem ramdisk_end_panics (m : byte_memory) (d : RamDisk) (buf : list Z) :
  rd_size_in_blocks d * 512 <= rd_cur_pos d + Z.min (llen buf) 512 -> vf_read m d buf = Panic.
Proof.
  intros He. cbn [vf_read ramdisk_file]. unfold ram_read, add_ovf, mul_ovf.
  assert ((if llen buf <? 512 then llen buf else 512) = Z.min (llen buf) 512) as -> by (destruct (Z.ltb_spec (llen buf) 512); lia).
  destruct (rd_cur_pos d + Z.min (llen buf) 512 <? 2 ^ 64); cbn [mbind outcome_bind]; [|done].
  destruct (rd_size_in_blocks d * 512 <? 2 ^ 64); cbn [mbind outcome_bind]; [|done].
  by rewrite (proj2 (Z.ltb_ge (rd_cur_pos d + Z.min (llen buf) 512) _)) by lia.
Qed.

(** A disk of one block cannot be read at all in blocks of 512 bytes. *)
Lemma ramdisk_end_panics_witness : vf_read (fun _ => 0) (ramdisk_new 0x1000 512) (replicate 512 0) = Panic.
Proof. apply ramdisk_end_panics. vm_compute. discriminate. Defined.
