(* ===== verification/UsbBlock.v ===== *)
(** * USB block devices: [blockdev/usb.rs] *)

From S2P Require Import Prelude Words Vfs Procfs Block.

(** @ blockdev/usb.rs:11-11 BLOCK_SIZE *)
Definition BLOCK_SIZE : Z := 512.
(** @ blockdev/usb.rs:15-21 UsbError *)
Inductive UsbError := Offline | OutOfRange | InvalidBuffer | ReadFailed | ReadOnly.
(** @ blockdev/usb.rs:50-54 Record *)
Record UsbRecord := mk_Record { ur_id : Z; ur_blocks : Z; ur_online : bool }.

(** ** The registry [DEVICES] *)

(** @ blockdev/usb.rs:58-77 register *)
Definition register (devices : list UsbRecord) (blocks : Z) : outcome (list UsbRecord * Z) :=
  id ← match devices with
       | [] => Done 0
       | d :: ds => add_ovf 64 (foldl Z.max (ur_id d) (ur_id <$> ds)) 1
       end;
  Done (devices ++ [mk_Record id blocks true], id).

(** @ blockdev/usb.rs:79-84 offline *)
Fixpoint offline (devices : list UsbRecord) (id : Z) : list UsbRecord :=
  match devices with
  | [] => []
  | d :: ds => if ur_id d =? id then mk_Record (ur_id d) (ur_blocks d) false :: ds else d :: offline ds id
  end.

(** @ blockdev/usb.rs:86-93 online_devices *)
Definition online_devices (devices : list UsbRecord) : list (Z * Z) :=
  (fun d => (ur_id d, ur_blocks d)) <$> filter (fun d => ur_online d = true) devices.

(** @ blockdev/usb.rs:95-101 record *)
Definition record (devices : list UsbRecord) (id : Z) : option UsbRecord :=
  snd <$> list_find (fun d => ur_id d = id) devices.

(** ** A device *)

(** [xhci::read_usb_blocks]: fills the sector buffer or fails; the transfer may
    find the device gone and take it offline in the registry. *)
Class UsbReader (X : Type) := {
  read_usb_blocks : list UsbRecord * X -> Z -> Z -> list Z -> outcome (list UsbRecord * X * list Z * bool);
}.

(** @ blockdev/usb.rs:104-108 UsbBlockDevice *)
Record UsbBlockDevice := mk_Usb { ub_id : Z; ub_blocks : Z; ub_position : Z }.

(** @ blockdev/usb.rs:111-118 UsbBlockDevice::open *)
Definition usb_open (devices : list UsbRecord) (id : Z) : option UsbBlockDevice :=
  device ← record devices id;
  if ur_online device then Some (mk_Usb id (ur_blocks device) 0) else None.

Section Device.
Context {X : Type} `{UsbReader X}.
Abbreviation World := (list UsbRecord * X)%type.
Implicit Types (w : World) (d : UsbBlockDevice).

(** @ blockdev/usb.rs:120-122 UsbBlockDevice::is_online *)
Definition is_online w d : bool := match record w.1 (ub_id d) with Some r => ur_online r | None => false end.

(** @ blockdev/usb.rs:124-126 UsbBlockDevice::capacity_bytes *)
Definition capacity_bytes d : Z := saturating_mul 64 (ub_blocks d) BLOCK_SIZE.

(** @ blockdev/usb.rs:139-158 UsbBlockDevice::read_bytes -- the loop over the sectors *)
Fixpoint read_sectors (fuel : nat) w d (output : list Z) (done : Z) : outcome (World * list Z * result Z UsbError) :=
  match fuel with
  | O => OutOfFuel
  | S fuel =>
      if done <? llen output then
        if negb (is_online w d) then Done (w, output, Err Offline) else
        offset ← add_ovf 64 (ub_position d) done;
        let lba := offset / BLOCK_SIZE in
        let within := offset mod BLOCK_SIZE in
        let take := Z.min (BLOCK_SIZE - within) (llen output - done) in
        '(devs, x, sector, ok) ← read_usb_blocks w (ub_id d) lba (replicate 512 0);
        let w := (devs, x) in
        if negb ok then Done (w, output, Err (if is_online w d then ReadFailed else Offline)) else
        piece ← slice sector within (within + take);
        output ← splice output done piece;
        read_sectors fuel w d output (done + take)
      else Done (w, output, Ok done)
  end.

(** @ blockdev/usb.rs:128-161 UsbBlockDevice::read_bytes *)
Definition read_bytes w d (output : list Z) : outcome (World * UsbBlockDevice * list Z * result Z UsbError) :=
  if negb (is_online w d) then Done (w, d, output, Err Offline) else
  match checked_add 64 (ub_position d) (llen output) with
  | None => Done (w, d, output, Err OutOfRange)
  | Some stop =>
      if capacity_bytes d <? stop then Done (w, d, output, Err OutOfRange) else
      '(w, output, r) ← read_sectors (S (length output)) w d output 0;
      match r with
      | Err e => Done (w, d, output, Err e)
      | Ok n => Done (w, mk_Usb (ub_id d) (ub_blocks d) stop, output, Ok n)
      end
  end.

(** @ blockdev/usb.rs:189-204 Seek::UsbBlockDevice::seek *)
Definition usb_seek w d (pos : SeekFrom) : UsbBlockDevice * result Z UsbError :=
  if negb (is_online w d) then (d, Err Offline) else
  let size := sext 64 (capacity_bytes d) in
  let next := match pos with
    | SeekStart value => sext 64 value
    | SeekEnd value => i64_saturating_add size value
    | SeekCurrent value => i64_saturating_add (sext 64 (ub_position d)) value
    end in
  if negb ((0 <=? next) && (next <=? size)) then (d, Err OutOfRange)
  else (mk_Usb (ub_id d) (ub_blocks d) next, Ok next).

(** @ blockdev/usb.rs:179-185 Write::UsbBlockDevice::flush *)
Definition usb_flush w d : result unit UsbError := if is_online w d then Ok tt else Err Offline.

(** @ blockdev/usb.rs:214-220 BlockIo::UsbBlockDevice::num_blocks *)
Definition usb_num_blocks w d : result Z UsbError := if is_online w d then Ok (ub_blocks d) else Err Offline.

(** @ blockdev/usb.rs:222-238 BlockIo::UsbBlockDevice::read_blocks *)
Definition usb_read_blocks w d (start_lba : Z) (output : list Z) : outcome (World * UsbBlockDevice * list Z * result unit UsbError) :=
  if negb (is_multiple_of (llen output) BLOCK_SIZE) then Done (w, d, output, Err InvalidBuffer) else
  match checked_mul 64 start_lba BLOCK_SIZE with
  | None => Done (w, d, output, Err OutOfRange)
  | Some start =>
      match checked_add 64 start (llen output) with
      | None => Done (w, d, output, Err OutOfRange)
      | Some stop =>
          if saturating_mul 64 (ub_blocks d) BLOCK_SIZE <? stop then Done (w, d, output, Err OutOfRange) else
          '(w, d, output, r) ← read_bytes w (mk_Usb (ub_id d) (ub_blocks d) start) output;
          Done (w, d, output, match r with Ok _ => Ok tt | Err e => Err e end)
      end
  end.

(** @ blockdev/usb.rs:168-186 Read and Write for UsbBlockDevice *)
#[global] Instance usb_io : FatIo World UsbBlockDevice UsbError := {
  fio_read w d output := read_bytes w d output;
  fio_write w d _ := Done (w, d, Err ReadOnly);
  fio_seek w d pos := let '(d, r) := usb_seek w d pos in Done (w, d, r);
}.

(** @ blockdev/usb.rs:249-274 crate::vfs::VfsFile for UsbBlockDevice *)
#[global] Instance usb_file : VfsFile World UsbBlockDevice := {
  vf_size w d := Done (w, d, capacity_bytes d);
  vf_read w d output := '(w, d, output, r) ← read_bytes w d output; Done (w, d, output, match r with Ok n => n | Err _ => 0 end);
  vf_write w d _ := Done (w, d, 0);
  vf_seek w d pos := let '(d, r) := usb_seek w d pos in Done (w, d, match r with Ok n => n | Err _ => 0 end);
}.
End Device.

(** @ blockdev/usb.rs:276-283 open *)
Definition usb_open_path (devices : list UsbRecord) (path : str) : result UsbBlockDevice unit :=
  match strip_prefix (bytes_of "/usb") path with
  | None => Err tt
  | Some number => match parse_usize number with Err e => Err e | Ok id => ok_or (usb_open devices id) tt end
  end.
(** @ blockdev/usb.rs:285-287 name *)
Definition usb_name (id : Z) : str := bytes_of "usb" ++ decimal id.

(** ** Reads see the disk as a byte image *)

Section UsbImage.
Context {X : Type} `{UsbReader X}.
Abbreviation World := (list UsbRecord * X)%type.
(** A working device: its sectors are [disk], and reading them keeps it so. *)
Context (id blocks : Z) (disk : Z -> list Z) (working : World -> Prop).
Record reader_works : Prop := {
  rw_online : forall w, working w -> match record w.1 id with Some r => ur_online r | None => false end = true;
  rw_read : forall w lba buf, working w -> 0 <= lba < blocks ->
    exists w', read_usb_blocks w id lba buf = Done (w'.1, w'.2, disk lba, true) /\ working w';
  rw_sector : forall lba, 0 <= lba < blocks -> llen (disk lba) = 512;
  rw_blocks : 0 <= blocks < 2 ^ 54;
}.
Context (Hworks : reader_works).

Lemma disk_piece pos take :
  0 <= pos < blocks * 512 -> 0 < take <= 512 - pos mod 512 ->
  slice (disk (pos / 512)) (pos mod 512) (pos mod 512 + take) = Done (image_bytes (sector_byte disk) pos take).
Proof.
  intros Hp Ht. apply sector_piece; [|lia|lia]. apply (rw_sector Hworks).
  split; [apply Z.div_pos; lia|apply Z.div_lt_upper_bound; lia].
Qed.

Lemma read_sectors_image fuel : forall w pos output done,
  working w -> 0 <= pos -> 0 <= done <= llen output -> pos + llen output <= blocks * 512 ->
  (Z.to_nat (llen output - done) < fuel)%nat ->
  exists w', read_sectors fuel w (mk_Usb id blocks pos) output done =
      Done (w', take (Z.to_nat done) output ++ image_bytes (sector_byte disk) (pos + done) (llen output - done), Ok (llen output)) /\ working w'.
Proof.
  induction fuel as [|fuel IH]; intros w pos output dn Hw Hp Hd Hend Hf; [lia|]. cbn [read_sectors].
  destruct (Z.ltb_spec dn (llen output)) as [Hlt|Hge].
  2: { assert (dn = llen output) as -> by lia. exists w. rewrite Z.sub_diag. split; [|done].
       unfold image_bytes. cbn. by rewrite app_nil_r, take_ge by (unfold llen; lia). }
  unfold is_online. cbn [ub_id ub_position]. rewrite (rw_online Hworks w Hw). cbn [negb].
  pose proof (rw_blocks Hworks). unfold add_ovf. rewrite (proj2 (Z.ltb_lt _ _)) by lia. cbn [mbind outcome_bind].
  pose proof (Z.mod_pos_bound (pos + dn) 512). unfold BLOCK_SIZE.
  destruct (rw_read Hworks w ((pos + dn) / 512) (replicate 512 0) Hw) as (w1 & Hr & Hw1).
  { split; [apply Z.div_pos; lia|apply Z.div_lt_upper_bound; lia]. }
  rewrite Hr. cbn [mbind outcome_bind negb]. set (tk := Z.min (512 - (pos + dn) mod 512) (llen output - dn)).
  rewrite disk_piece by lia. cbn [mbind outcome_bind].
  assert (llen (image_bytes (sector_byte disk) (pos + dn) tk) = tk) as Hpl by (apply image_bytes_len; lia).
  rewrite splice_in_range by lia. cbn [mbind outcome_bind].
  set (out1 := _ ++ image_bytes _ _ _ ++ _).
  assert (llen out1 = llen output) as Hl1.
  { unfold out1. rewrite !llen_app, Hpl. unfold llen in *. rewrite length_take, length_drop. lia. }
  destruct (IH (w1.1, w1.2) pos out1 (dn + tk)) as (w2 & Hr2 & Hw2); [by destruct w1|lia|lia|lia|lia|].
  exists w2. split; [|done]. rewrite Hr2, Hl1. f_equal. f_equal. f_equal.
  rewrite (image_bytes_split (sector_byte disk) (pos + dn) (llen output - dn) tk) by lia.
  replace (pos + (dn + tk)) with (pos + dn + tk) by lia. replace (llen output - (dn + tk)) with (llen output - dn - tk) by lia.
  rewrite app_assoc. f_equal. unfold out1. rewrite app_assoc, take_app_length'; [done|].
  rewrite length_app, length_take. unfold llen in *. lia.
Qed.

Lemma read_is_image (w : World) (pos : Z) (output : list Z) :
  working w -> 0 <= pos <= blocks * 512 -> pos + llen output < 2 ^ 64 ->
  if pos + llen output <=? blocks * 512
  then exists w', read_bytes w (mk_Usb id blocks pos) output =
         Done (w', mk_Usb id blocks (pos + llen output), image_bytes (sector_byte disk) pos (llen output), Ok (llen output)) /\ working w'
  else read_bytes w (mk_Usb id blocks pos) output = Done (w, mk_Usb id blocks pos, output, Err OutOfRange).
Proof.
  intros Hw Hp Hb. pose proof (rw_blocks Hworks). pose proof (llen_nonneg output).
  unfold read_bytes, is_online. cbn [ub_id ub_position]. rewrite (rw_online Hworks w Hw). cbn [negb].
  unfold checked_add. rewrite (proj2 (Z.ltb_lt _ _)) by lia.
  assert (capacity_bytes (mk_Usb id blocks pos) = blocks * 512) as ->.
  { unfold capacity_bytes, saturating_mul, BLOCK_SIZE. cbn [ub_blocks]. lia. }
  destruct (Z.leb_spec (pos + llen output) (blocks * 512)) as [Hle|Hgt].
  - rewrite (proj2 (Z.ltb_ge _ _)) by lia.
    destruct (read_sectors_image (S (length output)) w pos output 0) as (w' & -> & Hw'); [done|lia|lia|lia|unfold llen; lia|].
    exists w'. cbn [mbind outcome_bind]. by rewrite take_0, Z.add_0_r, Z.sub_0_r.
  - by rewrite (proj2 (Z.ltb_lt _ _)) by lia.
Qed.

(** C15: A read from a working USB disk returns exactly the bytes of the disk at
    the current position, whatever the alignment and length, and advances the
    position by the whole request; a request that passes the end of the disk
    fails without touching the device. *)
Theorem usb_read_is_disk_image (w : World) (pos : Z) (output : list Z) :
  working w -> 0 <= pos <= blocks * 512 -> pos + llen output < 2 ^ 64 ->
  if pos + llen output <=? blocks * 512
  then exists w', read_bytes w (mk_Usb id blocks pos) output =
         Done (w', mk_Usb id blocks (pos + llen output), image_bytes (sector_byte disk) pos (llen output), Ok (llen output)) /\ working w'
  else read_bytes w (mk_Usb id blocks pos) output = Done (w, mk_Usb id blocks pos, output, Err OutOfRange).
Proof. apply read_is_image. Qed.
End UsbImage.

(** A disk held in memory. *)
Definition store_reader : UsbReader (list (list Z)) := {|
  read_usb_blocks w _ lba buf :=
    match zget w.2 lba with Some s => Done (w.1, w.2, s, true) | None => Done (w.1, w.2, buf, false) end;
|}.
Definition demo_sectors : list (list Z) := [replicate 512 1; replicate 512 2].

Lemma usb_read_is_disk_image_witness :
  exists w', read_bytes (H := store_reader) ([mk_Record 0 2 true], demo_sectors) (mk_Usb 0 2 510) [0; 0; 0; 0]
    = Done (w', mk_Usb 0 2 514, [1; 1; 2; 2], Ok 4).
Proof.
  destruct (usb_read_is_disk_image (H := store_reader) 0 2 (fun lba => demo_sectors !!! Z.to_nat lba)
    (fun w => w = ([mk_Record 0 2 true], demo_sectors))
    ltac:(split;
      [intros w ->; reflexivity
      |intros w lba buf -> Hl; eexists; split; [|reflexivity]; assert (lba = 0 \/ lba = 1) as [-> | ->] by lia; reflexivity
      |intros lba Hl; assert (lba = 0 \/ lba = 1) as [-> | ->] by lia; reflexivity
      |lia]) ([mk_Record 0 2 true], demo_sectors) 510 [0; 0; 0; 0]) as (w' & Hr & _);
    [reflexivity|lia|unfold llen; cbn; lia|].
  exists w'. exact Hr.
Defined.

(** A working USB disk is a byte device. *)
Section UsbByteDevice.
Context {X : Type} `{UsbReader X} (id blocks : Z) (disk : Z -> list Z) (working : list UsbRecord * X -> Prop).
Context (Hworks : reader_works id blocks disk working).
Program Definition usb_byte_device : ByteDevice (list UsbRecord * X) UsbBlockDevice UsbError := {|
  bd_inv w d := working w /\ ub_id d = id /\ ub_blocks d = blocks /\ 0 <= ub_position d <= blocks * 512;
  bd_pos := ub_position;
  bd_size d := ub_blocks d * 512;
  bd_image _ _ := sector_byte disk;
|}.
Next Obligation. intros w d (_ & _ & Hb & Hp). by rewrite Hb. Qed.
Next Obligation.
  intros w [i b p] buf w' t' buf' n (Hw & Hi & Hb & Hp). cbn in Hi, Hb, Hp |- *. subst i b.
  pose proof (rw_blocks _ _ _ _ Hworks). pose proof (llen_nonneg buf) as Hl.
  destruct (Z.lt_ge_cases (p + llen buf) (2 ^ 64)) as [Hlt|Hge].
  - pose proof (read_is_image id blocks disk working Hworks w p buf Hw Hp Hlt) as Hr.
    destruct (Z.leb_spec (p + llen buf) (blocks * 512)) as [Hle|].
    + destruct Hr as (w1 & -> & Hw1). intros [= <- <- <- <-]. cbn.
      rewrite drop_ge by (unfold llen; lia). rewrite app_nil_r. repeat split; try lia; done.
    + rewrite Hr. done.
  - unfold read_bytes, checked_add. destruct (is_online _ _); cbn [negb]; [|done]. cbn [ub_position].
    by rewrite (proj2 (Z.ltb_ge _ _)) by lia.
Qed.
Next Obligation.
  intros w [i b p] q w' t' n (Hw & Hi & Hb & Hp) Hq. cbn in Hi, Hb, Hp |- *. subst i b.
  pose proof (rw_blocks _ _ _ _ Hworks). unfold usb_seek, is_online. cbn [ub_id]. rewrite (rw_online _ _ _ _ Hworks w Hw). cbn [negb].
  assert (sext 64 (capacity_bytes (mk_Usb id blocks p)) = blocks * 512) as ->.
  { unfold capacity_bytes, saturating_mul, BLOCK_SIZE. cbn [ub_blocks]. rewrite Z.min_l by lia. apply sext_small. lia. }
  destruct (Z.leb_spec 0 (sext 64 q)) as [Hs0|]; cbn [andb negb]; [|done].
  destruct (Z.leb_spec (sext 64 q) (blocks * 512)) as [Hs1|]; cbn [negb]; [|done].
  intros [= <- <- <-]. cbn. assert (sext 64 q = q) as Hs.
  { unfold sext in *. rewrite Z.mod_small in * by lia. destruct (q <? 2 ^ (64 - 1)); lia. }
  rewrite Hs in *. repeat split; try lia; done.
Qed.
End UsbByteDevice.
