(* ===== verification/Console.v ===== *)
(** * The console: [console/mod.rs], [console/serial.rs], [stdio.rs]

    The terminal with its two byte queues, the serial port behind I/O ports, and
    the standard streams that the boot mode directs to them.  The terminal is the
    [os_terminal] crate and the ports are hardware: both are interfaces. *)

From S2P Require Import Prelude Words Vfs Input.

(** ** Third-party code *)

(** I/O ports, by number. *)
Class Ports (P : Type) := {
  inb : P -> Z -> P * Z;
  outb : P -> Z -> Z -> P;
}.

(** The accesses of 16 and 32 bits. *)
Class WidePorts (P : Type) := {
  inw : P -> Z -> P * Z;
  outw : P -> Z -> Z -> P;
  outl : P -> Z -> Z -> P;
}.

(** Mouse input of the terminal. *)
Inductive MouseInput :=
  | InputMove (x y : Z)
  | InputScroll (lines : Z)
  | InputPressed (button : MouseButtonKind)
  | InputReleased (button : MouseButtonKind).

(** [os_terminal::Terminal]: the second component is what it writes to its pty. *)
Class Terminal (T : Type) := {
  process : T -> list Z -> T * list Z;
  handle_keyboard : T -> Z -> T * list Z;
  terminal_mouse : T -> MouseInput -> T * list Z;
}.

(** ** State *)

(** @ stdio.rs:7-12 Mode *)
Inductive Mode := ModeNone | ModeSerial | ModeTty | ModeSerialTty.
#[global] Instance Mode_eq_dec : EqDecision Mode.
Proof. solve_decision. Defined.

(** [crossbeam_queue::ArrayQueue::force_push] on a queue of 128 bytes. *)
(** @ console/mod.rs:30-32 ECHO_BUFFER, INPUT_BUFFER -- their capacity *)
Definition QUEUE_CAPACITY : Z := 128.
Definition force_push (q : list Z) (b : Z) : list Z :=
  if llen q <? QUEUE_CAPACITY then q ++ [b] else drop 1 q ++ [b].
Definition force_push_all (q bs : list Z) : list Z := foldl force_push q bs.

(** The statics of [handle_mouse] are kept here too. *)
Record Console (T P : Type) := mk_Console {
  co_terminal : T;
  co_ports : P;
  co_echo : list Z;
  co_input : list Z;
  co_echo_flag : bool;
  co_mode : Mode;
  co_serial_ok : bool;
  mouse_packet : Z;
  mouse_flags : Z;
  mouse_x : Z;
}.
Arguments mk_Console {T P}.
Arguments co_terminal {T P}.
Arguments co_ports {T P}.
Arguments co_echo {T P}.
Arguments co_input {T P}.
Arguments co_echo_flag {T P}.
Arguments co_mode {T P}.
Arguments co_serial_ok {T P}.
Arguments mouse_packet {T P}.
Arguments mouse_flags {T P}.
Arguments mouse_x {T P}.
#[global] Instance Console_fields T P : Fields (Console T P) := fun c =>
  mk_Console (co_terminal c) (co_ports c) (co_echo c) (co_input c) (co_echo_flag c) (co_mode c) (co_serial_ok c)
    (mouse_packet c) (mouse_flags c) (mouse_x c).

(** ** The standard streams' mode *)

(** @ stdio.rs:16-24 parse_mode *)
Definition parse_mode (value : str) : option Mode :=
  if bool_decide (value = bytes_of "none") then Some ModeNone
  else if bool_decide (value = bytes_of "serial") then Some ModeSerial
  else if bool_decide (value = bytes_of "tty") then Some ModeTty
  else if bool_decide (value = bytes_of "serial+tty") || bool_decide (value = bytes_of "tty+serial") then Some ModeSerialTty
  else None.

(** [str::split_ascii_whitespace]. *)
Definition ascii_whitespace (b : Z) : bool := existsb (Z.eqb b) [0x20; 0x09; 0x0a; 0x0c; 0x0d].
Fixpoint split_ascii_whitespace (word s : str) : list str :=
  match s with
  | [] => if bool_decide (word = []) then [] else [word]
  | b :: s =>
      if ascii_whitespace b
      then (if bool_decide (word = []) then [] else [word]) ++ split_ascii_whitespace [] s
      else split_ascii_whitespace (word ++ [b]) s
  end.
Fixpoint find_map {A B} (f : A -> option B) (l : list A) : option B :=
  match l with [] => None | x :: l => match f x with Some y => Some y | None => find_map f l end end.

(** @ cmdline.rs:17-19 has_cmdline_flag *)
Definition has_cmdline_flag (cmdline flag : str) : bool :=
  existsb (fun arg => bool_decide (arg = flag)) (split_ascii_whitespace [] cmdline).

(** The mode of a kernel command line. *)
(** @ stdio.rs:26-32 init *)
Definition stdio_mode (cmdline : str) : Mode :=
  unwrap_or ModeSerialTty
    (find_map (fun arg => match strip_prefix (bytes_of "stdio=") arg with Some v => parse_mode v | None => None end)
       (split_ascii_whitespace [] cmdline)).

(** @ stdio.rs:43-45 serial_enabled *)
Definition serial_enabled {T P} (c : Console T P) : bool :=
  match co_mode c with ModeSerial | ModeSerialTty => true | _ => false end.
(** @ stdio.rs:47-49 tty_enabled *)
Definition tty_enabled {T P} (c : Console T P) : bool :=
  match co_mode c with ModeTty | ModeSerialTty => true | _ => false end.

Section Console.
Context {T P E : Type} `{Terminal T} `{Ports P}.
Abbreviation cprog A := (prog (Console T P) E A).

(** ** Ports *)

Definition port_in (port : Z) : cprog Z :=
  fun c => let '(p, v) := inb (co_ports c) port in Done (c <| co_ports := p |>, Ok (wrap 8 v)).
Definition port_out (port v : Z) : cprog unit := p_modify (fun c => c <| co_ports := outb (co_ports c) port v |>).

(** ** The serial port *)

(** @ console/serial.rs:5-5 PORT *)
Definition SERIAL_PORT : Z := 0x3f8.
(** @ console/serial.rs:18-33 init *)
Definition serial_init : cprog unit :=
  port_out (SERIAL_PORT + 1) 0x00 ;!
  port_out (SERIAL_PORT + 3) 0x80 ;!
  port_out SERIAL_PORT 0x01 ;!
  port_out (SERIAL_PORT + 1) 0x00 ;!
  port_out (SERIAL_PORT + 3) 0x03 ;!
  port_out (SERIAL_PORT + 2) 0xc7 ;!
  port_out (SERIAL_PORT + 4) 0x0b ;!
  port_out (SERIAL_PORT + 4) 0x1e ;!
  port_out SERIAL_PORT 0xae ;!
  v ←! port_in SERIAL_PORT;
  if negb (v =? 0xae) then p_ret tt else
  port_out (SERIAL_PORT + 4) 0x0f ;! p_modify (fun c => c <| co_serial_ok := true |>).

(** @ console/serial.rs:35-37 received *)
Definition received : cprog bool := v ←! port_in (SERIAL_PORT + 5); p_ret (Z.land v 1 =? 1).
(** @ console/serial.rs:40-42 read *)
Definition serial_read : cprog (option Z) :=
  r ←! received; if r : bool then b ←! port_in SERIAL_PORT; p_ret (Some b) else p_ret None.
(** @ console/serial.rs:44-46 is_transmit_empty *)
Definition is_transmit_empty : cprog bool := v ←! port_in (SERIAL_PORT + 5); p_ret (Z.land v 0x20 =? 0x20).

(** The busy wait for the transmitter; [spins] is the model's fuel. *)
Fixpoint wait_transmit (spins : nat) : cprog unit :=
  match spins with
  | O => fun _ => OutOfFuel
  | S spins => e ←! is_transmit_empty; if e : bool then p_ret tt else wait_transmit spins
  end.
(** @ console/serial.rs:49-52 write *)
Definition serial_write (spins : nat) (data : Z) : cprog unit := wait_transmit spins ;! port_out SERIAL_PORT data.
(** @ console/serial.rs:55-59 write_bytes *)
Definition serial_write_bytes (spins : nat) (buf : list Z) : cprog unit := p_each buf (serial_write spins).

(** ** The terminal *)

(** A call of the terminal; its pty writer fills the echo queue. *)
(** @ console/mod.rs:20-28 TERMINAL -- the pty writer *)
Definition on_terminal (f : T -> T * list Z) : cprog unit :=
  p_modify (fun c => let '(t, out) := f (co_terminal c) in
    c <| co_terminal := t |> <| co_echo := force_push_all (co_echo c) out |>).

(** ** Standard streams *)

Definition serial_up : cprog bool := c ←! p_get; p_ret (serial_enabled c && co_serial_ok c).

(** @ stdio.rs:51-58 write_stdout *)
Definition write_stdout (spins : nat) (buf : list Z) : cprog unit :=
  c ←! p_get;
  p_when (tty_enabled c) (on_terminal (fun t => process t buf)) ;!
  s ←! serial_up;
  p_when s (serial_write_bytes spins buf).

(** @ stdio.rs:60-70 write_stderr *)
Definition write_stderr (spins : nat) (buf : list Z) : cprog unit :=
  c ←! p_get;
  p_when (tty_enabled c)
    (on_terminal (fun t => process t (0x1b :: bytes_of "[31m")) ;!
     on_terminal (fun t => process t buf) ;!
     on_terminal (fun t => process t (0x1b :: bytes_of "[0m"))) ;!
  s ←! serial_up;
  p_when s (serial_write_bytes spins buf).

(** @ stdio.rs:81-99 read_serial *)
Definition read_serial (spins : nat) : cprog (option Z) :=
  c ←! p_get;
  if negb (co_serial_ok c) then p_ret None else
  r ←! serial_read;
  match r with
  | None => p_ret None
  | Some b =>
      let b := if b =? 0x0d then 0x0a else b in
      p_when (co_echo_flag c)
        (serial_write spins b ;! p_when (tty_enabled c) (on_terminal (fun t => process t [b]))) ;!
      p_ret (Some b)
  end.

(** [INPUT_BUFFER.pop()]. *)
Definition pop_input : cprog (option Z) :=
  fun c => match co_input c with
  | [] => Done (c, Ok None)
  | b :: q => Done (c <| co_input := q |>, Ok (Some b))
  end.

(** @ stdio.rs:72-79 read_stdin *)
Definition read_stdin (spins : nat) : cprog (option Z) :=
  c ←! p_get;
  match co_mode c with
  | ModeNone => p_ret None
  | ModeSerial => read_serial spins
  | ModeTty => pop_input
  | ModeSerialTty => b ←! pop_input; match b with Some b => p_ret (Some b) | None => read_serial spins end
  end.
End Console.

(** ** Accesses of the ports *)

Section PortRules.
Context {T P E : Type} `{Terminal T} `{Ports P}.
Implicit Types (c : Console T P).
Lemma wp_port_in port c (Q : Console T P -> result Z E -> Prop) :
  (forall p v, Q (c <| co_ports := p |>) (Ok (wrap 8 v))) -> wp (port_in port) c Q.
Proof. intros HQ. unfold wp, port_in. destruct (inb _ _) as [p v]. by eexists _, _. Qed.
Lemma wp_port_out port v c (Q : Console T P -> result unit E -> Prop) :
  (forall p, Q (c <| co_ports := p |>) (Ok tt)) -> wp (port_out port v) c Q.
Proof. intros HQ. by eexists _, _. Qed.
End PortRules.
