(* ===== verification/Ps2.v ===== *)
(** * Keyboard and mouse: [inputdev.rs]

    The sink that hands key codes and mouse events to the terminal and moves what
    the terminal answers to the input queue, the PS/2 mouse packet decoder, the
    bring-up of the PS/2 controller and the interrupt handler. *)

From S2P Require Import Prelude Words Vfs Input Console.

(** @ inputdev.rs:9-12 Error *)
Inductive Ps2Error := Ps2Timeout | TestFailed.

Section Sink.
Context {T P E : Type} `{Terminal T} `{Ports P} (spins : nat).
Abbreviation cprog A := (prog (Console T P) E A).

(** The loop; [fuel] bounds the bytes taken. *)
Fixpoint submit_echo_loop (fuel : nat) (echo : bool) : cprog unit :=
  match fuel with
  | O => fun _ => OutOfFuel
  | S fuel =>
      c ←! p_get;
      match co_echo c with
      | [] => p_ret tt
      | b :: q =>
          p_modify (fun c => c <| co_echo := q |>) ;!
          p_when echo
            (s ←! serial_up;
             p_when s (serial_write spins b) ;!
             on_terminal (fun t => process t [b])) ;!
          p_modify (fun c => c <| co_input := force_push (co_input c) b |>) ;!
          submit_echo_loop fuel echo
      end
  end.
(** The loop goes on for as long as the terminal answers what is echoed to it; the
    model follows it for 65536 bytes, 512 times what the queue holds. *)
Definition ECHO_FUEL : nat := Z.to_nat 65537.
(** @ inputdev.rs:37-49 submit_echo *)
Definition submit_echo : cprog unit := c ←! p_get; submit_echo_loop ECHO_FUEL (co_echo_flag c).

(** @ inputdev.rs:52-60 submit_keyboard_scancode *)
Definition submit_scancode (scancode : Z) : cprog unit :=
  c ←! p_get;
  if negb (tty_enabled c) then p_ret tt else
  on_terminal (fun t => handle_keyboard t scancode) ;! submit_echo.

Definition mouse_input (event : MouseEvent) : MouseInput :=
  match event with
  | MouseMove x y => InputMove (Z.max x 0) (Z.max y 0)
  | MouseScroll lines => InputScroll lines
  | MouseButton button pressed => if pressed then InputPressed button else InputReleased button
  end.
(** @ inputdev.rs:63-87 submit_mouse_event *)
Definition submit_event (event : MouseEvent) : cprog unit :=
  c ←! p_get;
  if negb (tty_enabled c) then p_ret tt else
  on_terminal (fun t => terminal_mouse t (mouse_input event)) ;! submit_echo.
(** @ inputdev.rs:89-91 submit_mouse_scroll *)
Definition submit_mouse_scroll (lines : Z) : cprog unit := submit_event (MouseScroll lines).

(** ** The PS/2 mouse *)

(** @ inputdev.rs:93-95 ps2_middle_button *)
Definition ps2_middle_button (flags : Z) : bool := negb (Z.land flags 0x02 =? 0).
(** @ inputdev.rs:97-99 ps2_scroll_delta *)
Definition ps2_scroll_delta (flags packet : Z) : Z := packet - Z.land (Z.shiftl flags 3) 0x100.
(** @ inputdev.rs:101-103 is_break_scancode *)
Definition is_break_scancode (scancode : Z) : bool := negb (Z.land scancode 0x80 =? 0).

(** [i16] subtraction. *)
Definition i16_sub (a b : Z) : outcome Z :=
  if (-32768 <=? a - b) && (a - b <=? 32767) then Done (a - b) else Panic.

(** The statics hold an [i16]; [flags as u8] is its low byte. *)
(** @ inputdev.rs:201-243 handle_mouse *)
Definition handle_mouse (packet : Z) : cprog unit :=
  c ←! p_get;
  if mouse_packet c =? 0 then
    p_when (Z.land (Z.shiftr packet 3) 1 =? 1)
      (p_modify (fun c => c <| mouse_flags := packet |> <| mouse_packet := 1 |>))
  else if mouse_packet c =? 1 then
    x ←! p_lift (i16_sub packet (Z.land (sext 16 (Z.shiftl (mouse_flags c) 4)) 0x100));
    p_modify (fun c => c <| mouse_x := x |> <| mouse_packet := 2 |>)
  else if mouse_packet c =? 2 then
    let flags := wrap 8 (mouse_flags c) in
    let y := sext 16 (ps2_scroll_delta flags packet) in
    p_when (ps2_middle_button flags) (submit_mouse_scroll y) ;!
    p_modify (fun c => c <| mouse_packet := 0 |>)
  else p_panic.

(** @ inputdev.rs:327-334 handle_status_data *)
Definition handle_status_data (status data : Z) : cprog unit :=
  if Z.land status 0x20 =? 0x20 then handle_mouse data else submit_scancode data.

(** [fuel] bounds the bytes the controller offers. *)
(** @ inputdev.rs:336-347 interrupt_handler *)
Fixpoint interrupt_handler (fuel : nat) : cprog unit :=
  match fuel with
  | O => fun _ => OutOfFuel
  | S fuel =>
      status ←! port_in 0x64;
      if Z.land status 1 =? 0 then p_ret tt else
      data ←! port_in 0x60;
      handle_status_data status data ;! interrupt_handler fuel
  end.
(** @ inputdev.rs:349-359 poll_once *)
Definition poll_once : cprog unit :=
  status ←! port_in 0x64;
  p_when (Z.land status 1 =? 1) (data ←! port_in 0x60; handle_status_data status data).
End Sink.

(** ** The PS/2 controller *)

Section Controller.
Context {T P : Type} `{Ports P}.
Abbreviation pprog A := (prog (Console T P) Ps2Error A).

(** @ inputdev.rs:105-115 wait_write *)
Definition wait_write : pprog unit :=
  p_for 1000000 (v ←! port_in 0x64; p_ret (if Z.land v 0x02 =? 0 then Some tt else None)) (p_err Ps2Timeout).
(** @ inputdev.rs:117-127 wait_read *)
Definition wait_read : pprog unit :=
  p_for 1000000 (v ←! port_in 0x64; p_ret (if Z.land v 0x01 =? 1 then Some tt else None)) (p_err Ps2Timeout).
(** @ inputdev.rs:129-132 read_data *)
Definition read_data : pprog Z := wait_read ;! port_in 0x60.
(** @ inputdev.rs:134-140 write_command *)
Definition write_command (cmd : Z) : pprog unit := wait_write ;! port_out 0x64 cmd.
(** @ inputdev.rs:142-148 write_data *)
Definition write_data (cmd : Z) : pprog unit := wait_write ;! port_out 0x60 cmd.
(** @ inputdev.rs:150-160 flush_output *)
Definition flush_output : pprog unit :=
  p_for 64
    (v ←! port_in 0x64;
     if Z.land v 0x01 =? 0 then p_ret (Some tt) else p_try (E := Ps2Error) read_data ;! p_ret None)
    (p_ret tt).
(** @ inputdev.rs:162-165 read_config *)
Definition read_config : pprog Z := write_command 0x20 ;! read_data.
(** @ inputdev.rs:167-170 write_config *)
Definition write_config (config : Z) : pprog unit := write_command 0x60 ;! write_data config.

(** The retries of both ports; [send] issues the byte. *)
Definition send_loop (send : pprog unit) : pprog unit :=
  p_for 3
    (send ;!
     response ←! read_data;
     if response =? 0xfa then p_ret (Some tt)
     else if negb (response =? 0xfe) then p_err TestFailed
     else p_ret None)
    (p_err Ps2Timeout).
(** @ inputdev.rs:172-184 send_to_port1 *)
Definition send_to_port1 (cmd : Z) : pprog unit := send_loop (write_data cmd).
(** @ inputdev.rs:186-199 send_to_port2 *)
Definition send_to_port2 (cmd : Z) : pprog unit := send_loop (write_command 0xd4 ;! write_data cmd).

(** [if x != y { return Err(TestFailed) }]. *)
Definition require_eq (x y : Z) : pprog unit := if negb (x =? y) then p_err TestFailed else p_ret tt.

(** @ inputdev.rs:258-287 init_controller *)
Definition init_controller : pprog unit :=
  write_command 0xad ;!
  write_command 0xa7 ;!
  flush_output ;!
  c ←! read_config;
  let config := Z.land c 0xfc in
  write_config config ;!
  write_command 0xaa ;!
  response ←! read_data;
  require_eq response 0x55 ;!
  write_config config ;!
  write_command 0xa8 ;!
  config2 ←! read_config;
  (if negb (Z.land config2 0x20 =? 0) then p_err TestFailed else p_ret tt) ;!
  write_command 0xa7 ;!
  write_command 0xab ;!
  response2 ←! read_data;
  require_eq response2 0 ;!
  write_command 0xa9 ;!
  response3 ←! read_data;
  require_eq response3 0.
(** @ inputdev.rs:289-303 init_keyboard *)
Definition init_keyboard : pprog unit :=
  write_command 0xae ;!
  flush_output ;!
  send_to_port1 0xff ;!
  response ←! read_data;
  require_eq response 0xaa ;!
  send_to_port1 0xf4 ;!
  config ←! read_config;
  write_config (Z.land (Z.lor config 1) 0xef).
(** @ inputdev.rs:305-325 init_mouse *)
Definition init_mouse : pprog unit :=
  write_command 0xa8 ;!
  flush_output ;!
  send_to_port2 0xff ;!
  response ←! read_data;
  require_eq response 0xaa ;!
  data ←! read_data;
  require_eq data 0 ;!
  send_to_port2 0xf4 ;!
  send_to_port2 0xf3 ;!
  send_to_port2 10 ;!
  config ←! read_config;
  write_config (Z.land (Z.lor config 0x03) 0xcf).

(** Which of the three steps succeeded; a failure is logged. *)
(** @ inputdev.rs:245-256 init *)
Definition ps2_init : pprog (bool * bool * bool) :=
  r ←! p_try (E := Ps2Error) init_controller;
  match r with
  | Err _ => p_ret (false, false, false)
  | Ok _ =>
      k ←! p_try (E := Ps2Error) init_keyboard;
      m ←! p_try (E := Ps2Error) init_mouse;
      p_ret (true, is_ok k, is_ok m)
  end.
End Controller.

(** ** What the sink relies on *)

(** The serial transmitter empties within [spins] reads of its status. *)
Fixpoint drains {P} `{Ports P} (spins : nat) (p : P) : bool :=
  match spins with
  | O => false
  | S spins => let '(p, v) := inb p (SERIAL_PORT + 5) in (Z.land (wrap 8 v) 0x20 =? 0x20) || drains spins p
  end.
Class UartLaws (P : Type) `{Ports P} (spins : nat) := { uart_drains p : drains spins p = true }.

(** The echo of a queue: the bytes are shown one after the other, and what the
    terminal answers joins the end of the queue.  [echo_run t q moved t']: the queue
    runs empty, [moved] are the bytes that went through it.  (An answer may itself be
    answered, so the run of a queue need not end.) *)
Inductive echo_run {T} `{Terminal T} : T -> list Z -> list Z -> T -> Prop :=
  | er_end t : echo_run t [] [] t
  | er_byte t b q t1 out moved t' :
      process t [b] = (t1, out) -> echo_run t1 (force_push_all q out) moved t' -> echo_run t (b :: q) (b :: moved) t'.

(** The terminal answers none of these bytes. *)
Fixpoint unanswered {T} `{Terminal T} (t : T) (l : list Z) : Prop :=
  match l with
  | [] => True
  | b :: l => (process t [b]).2 = [] /\ unanswered (process t [b]).1 l
  end.
Lemma unanswered_run {T} `{Terminal T} (t : T) (q : list Z) : unanswered t q -> exists t', echo_run t q q t'.
Proof.
  revert t. induction q as [|b q IH]; intros t Hu; [exists t; constructor|]. destruct Hu as [Ho Hu].
  destruct (process t [b]) as [t1 out] eqn:E. cbn in Ho, Hu. subst out. destruct (IH t1 Hu) as [t' Hr].
  exists t'. by eapply er_byte.
Qed.
Lemma echo_run_moved {T} `{Terminal T} (t t' : T) (q moved : list Z) : echo_run t q moved t' -> unanswered t q -> moved = q.
Proof.
  induction 1 as [|t b q t1 out moved t' Hp Hr IH]; [done|]. cbn [unanswered]. rewrite Hp. cbn [fst snd]. intros [-> Hu].
  f_equal. by apply IH.
Qed.

(** Terminals whose answers come to an end before the model's loop does. *)
Class AnswersEnd (T : Type) `{Terminal T} :=
  answers_end : forall (t : T) q, llen q <= QUEUE_CAPACITY -> exists moved t', echo_run t q moved t' /\ (length moved < ECHO_FUEL)%nat.

(** ** Queues *)

Lemma force_push_len q b : llen q <= QUEUE_CAPACITY -> llen (force_push q b) <= QUEUE_CAPACITY.
Proof.
  unfold force_push, QUEUE_CAPACITY, llen. intros Hq. destruct (Z.ltb_spec (Z.of_nat (length q)) 128);
    rewrite length_app; cbn [length]; rewrite ?length_drop; lia.
Qed.
Lemma force_push_all_spec bs q :
  llen q <= QUEUE_CAPACITY -> force_push_all q bs = drop (length (q ++ bs) - 128) (q ++ bs).
Proof.
  unfold QUEUE_CAPACITY, llen. revert q. induction bs as [|b bs IH]; intros q Hq.
  - rewrite app_nil_r. cbn. replace (length q - 128)%nat with 0%nat by lia. done.
  - change (force_push_all q (b :: bs)) with (force_push_all (force_push q b) bs).
    rewrite IH by (apply (force_push_len q b Hq)). unfold force_push, QUEUE_CAPACITY, llen.
    destruct (Z.ltb_spec (Z.of_nat (length q)) 128).
    + rewrite <- app_assoc. done.
    + destruct q as [|x q]; [cbn in *; lia|]. cbn [drop length app] in *. rewrite <- app_assoc, !length_app. cbn [length app].
      replace (S (length q + S (length bs)) - 128)%nat with (S (length q + S (length bs) - 128)) by lia. done.
Qed.
Lemma force_push_all_fits q bs : llen q + llen bs <= QUEUE_CAPACITY -> force_push_all q bs = q ++ bs.
Proof.
  unfold QUEUE_CAPACITY, llen. intros Hl. rewrite force_push_all_spec by (unfold QUEUE_CAPACITY, llen; lia).
  rewrite length_app. by replace (length q + length bs - 128)%nat with 0%nat by lia.
Qed.
Lemma force_push_all_len bs q : llen q <= QUEUE_CAPACITY -> llen (force_push_all q bs) <= QUEUE_CAPACITY.
Proof. revert q. induction bs as [|b bs IH]; intros q Hq; [done|]. by apply IH, force_push_len. Qed.

Section Specs.
Context {T P E : Type} `{Terminal T} `{UartLaws P spins}.
Abbreviation St := (Console T P).
Implicit Types (c : St).

Record console_ok c : Prop := {
  ck_echo : llen (co_echo c) <= QUEUE_CAPACITY;
  ck_input : llen (co_input c) <= QUEUE_CAPACITY;
}.


Lemma wp_wait_transmit n c (Q : St -> result unit E -> Prop) :
  drains n (co_ports c) = true -> (forall p, Q (c <| co_ports := p |>) (Ok tt)) -> wp (wait_transmit n) c Q.
Proof.
  revert c. induction n as [|n IH]; intros c Hd HQ; [done|]. cbn [wait_transmit drains] in *.
  unfold is_transmit_empty. do 2 apply wp_bind. unfold wp at 1, port_in.
  destruct (inb (co_ports c) _) as [p v] eqn:Ei. eexists _, _. split; [reflexivity|]. apply wp_ret.
  destruct (Z.land (wrap 8 v) 32 =? 32); [by apply wp_ret|]. apply IH; [done|]. intros p'. apply HQ.
Qed.
Lemma wp_serial_write b c (Q : St -> result unit E -> Prop) :
  (forall p, Q (c <| co_ports := p |>) (Ok tt)) -> wp (serial_write spins b) c Q.
Proof.
  intros HQ. apply wp_bind, wp_wait_transmit; [apply uart_drains|]. intros p. apply wp_port_out. intros p'. apply HQ.
Qed.

(** What the echo of the queue [q] on the terminal [t] moves to the input. *)
Definition echoed (echo : bool) (t : T) (q moved : list Z) (t' : T) : Prop :=
  if echo then echo_run t q moved t' else moved = q /\ t' = t.

Lemma wp_submit_echo_loop moved t' (echo : bool) fuel c (Q : St -> result unit E -> Prop) :
  echoed echo (co_terminal c) (co_echo c) moved t' -> (length moved < fuel)%nat ->
  (forall p, Q (c <| co_terminal := t' |> <| co_ports := p |> <| co_echo := @nil Z |>
     <| co_input := force_push_all (co_input c) moved |>) (Ok tt)) ->
  wp (submit_echo_loop spins fuel echo) c Q.
Proof.
  revert fuel c. induction moved as [|x moved IH]; intros fuel c Hr Hf HQ; (destruct fuel as [|fuel]; [cbn in Hf; lia|]);
    cbn [submit_echo_loop]; apply wp_bind, wp_get.
  { assert (co_echo c = [] /\ co_terminal c = t') as [Hq <-] by (destruct echo; [inversion Hr; subst|destruct Hr as [? ->]]; auto).
    rewrite Hq. apply wp_ret. specialize (HQ (co_ports c)). destruct c; cbn in *. by subst. }
  cbn [length] in Hf. destruct echo.
  - inversion Hr as [|t b q t1 out moved' t'' Hp Hr' Et Eq Em Et']. subst.
    apply wp_bind, wp_modify. set (c1 := c <| co_echo := q |>).
    apply wp_bind. cbn [p_when]. unfold serial_up. do 2 apply wp_bind. apply wp_get, wp_ret, wp_bind.
    apply (wp_mono _ _ (fun c2 r => r = Ok tt /\ exists p, c2 = c1 <| co_ports := p |>)).
    { apply wp_when; intros _; [apply wp_serial_write; eauto|]. split; [done|]. exists (co_ports c1). by destruct c. }
    intros c2 ? [-> (p & ->)]. unfold on_terminal. apply wp_modify. cbn [co_terminal co_echo update c1]. rewrite Hp.
    apply wp_bind, wp_modify, IH; [exact Hr'|lia|]. intros p'. exact (HQ p').
  - destruct Hr as [Hq ->]. rewrite <- Hq. apply wp_bind, wp_modify. apply wp_bind. cbn [p_when]. apply wp_ret.
    apply wp_bind, wp_modify, IH; [done|lia|]. intros p. exact (HQ p).
Qed.

(** What reaches the input: [f] is what a key or a mouse event does to the terminal. *)
Definition delivers (f : T -> T * list Z) c (moved : list Z) (t' : T) : Prop :=
  let '(t, out) := f (co_terminal c) in
  echoed (co_echo_flag c) t (force_push_all (co_echo c) out) moved t' /\ (length moved < ECHO_FUEL)%nat.

Lemma wp_submit (f : T -> T * list Z) c moved t' (Q : St -> result unit E -> Prop) :
  delivers f c moved t' ->
  (forall p, Q (c <| co_terminal := t' |> <| co_ports := p |> <| co_echo := @nil Z |>
          <| co_input := force_push_all (co_input c) moved |>) (Ok tt)) ->
  wp (on_terminal f ;! submit_echo spins) c Q.
Proof.
  unfold delivers. intros Hd HQ. apply wp_bind. unfold on_terminal. apply wp_modify.
  destruct (f (co_terminal c)) as [t out]. destruct Hd as [He Hl].
  apply wp_bind, wp_get. cbn [co_echo_flag update].
  eapply wp_submit_echo_loop; [exact He|done|]. intros p'. exact (HQ p').
Qed.

(** What a submission leaves: the statics, the mode and the flags are untouched. *)
Record submitted (out : list Z) c c' : Prop := {
  su_ok : console_ok c';
  su_input : co_input c' = force_push_all (co_input c) out;
  su_mode : co_mode c' = co_mode c;
  su_flag : co_echo_flag c' = co_echo_flag c;
  su_serial : co_serial_ok c' = co_serial_ok c;
  su_packet : mouse_packet c' = mouse_packet c;
  su_flags : mouse_flags c' = mouse_flags c;
}.
Lemma submitted_same c : console_ok c -> submitted [] c c.
Proof. by split. Qed.

Lemma wp_submit_scancode code c moved t' (Q : St -> result unit E -> Prop) :
  console_ok c -> (tty_enabled c = true -> delivers (fun t => handle_keyboard t code) c moved t') ->
  (forall c', submitted (if tty_enabled c then moved else []) c c' -> (tty_enabled c = true -> co_terminal c' = t' /\ co_echo c' = []) -> Q c' (Ok tt)) ->
  wp (submit_scancode spins code) c Q.
Proof.
  intros Hc Hd HQ. apply wp_bind, wp_get. destruct (tty_enabled c); cbn [negb].
  - eapply wp_submit; [by apply Hd|]. intros p. apply HQ; [|done].
    split; try done. split; [done|]. apply force_push_all_len, Hc.
  - apply wp_ret, HQ; [by apply submitted_same|done].
Qed.
Lemma wp_submit_event event c moved t' (Q : St -> result unit E -> Prop) :
  console_ok c -> (tty_enabled c = true -> delivers (fun t => terminal_mouse t (mouse_input event)) c moved t') ->
  (forall c', submitted (if tty_enabled c then moved else []) c c' -> Q c' (Ok tt)) ->
  wp (submit_event spins event) c Q.
Proof.
  intros Hc Hd HQ. apply wp_bind, wp_get. destruct (tty_enabled c); cbn [negb].
  - eapply wp_submit; [by apply Hd|]. intros p. apply HQ.
    split; try done. split; [done|]. apply force_push_all_len, Hc.
  - apply wp_ret, HQ. by apply submitted_same.
Qed.

(** On a terminal whose answers end, every event is delivered. *)
Lemma delivers_some `{!AnswersEnd T} f c : console_ok c -> exists moved t', delivers f c moved t'.
Proof.
  intros Hc. unfold delivers, echoed. destruct (f (co_terminal c)) as [t out].
  pose proof (force_push_all_len out (co_echo c) (ck_echo _ Hc)) as Hl. destruct (co_echo_flag c).
  - by apply answers_end.
  - eexists _, _. split; [done|]. unfold llen, QUEUE_CAPACITY, ECHO_FUEL in *. lia.
Qed.

(** ** The PS/2 bytes *)

Section Bytes.
Context `{!AnswersEnd T}.

Definition mouse_ok c : Prop := 0 <= mouse_packet c <= 2 /\ fits 8 (mouse_flags c).
Definition input_ok c : Prop := console_ok c /\ mouse_ok c.

Lemma land_256 z : Z.land z 0x100 = 0 \/ Z.land z 0x100 = 0x100.
Proof.
  assert (Z.land z 0x100 = b2z (Z.testbit z 8) * 2 ^ 8) as ->.
  { apply Z.bits_inj'. intros i Hi. rewrite Z.land_spec. change 0x100 with (2 ^ 8).
    rewrite Z.pow2_bits_eqb, Z.mul_pow2_bits, b2z_testbit by lia.
    destruct (Z.eqb_spec 8 i) as [<-|Hne]; [done|]. rewrite (proj2 (Z.eqb_neq (i - 8) 0)) by lia. by rewrite !andb_false_r. }
  destruct (Z.testbit z 8); cbn; auto.
Qed.

Lemma wp_handle_mouse packet c (Q : St -> result unit E -> Prop) :
  input_ok c -> fits 8 packet -> (forall c', input_ok c' -> Q c' (Ok tt)) -> wp (handle_mouse spins packet) c Q.
Proof.
  intros [Hc [Hm Hf]] Hp HQ. unfold fits in *. unfold handle_mouse. apply wp_bind, wp_get.
  destruct (Z.eqb_spec (mouse_packet c) 0) as [E0|E0]; [|destruct (Z.eqb_spec (mouse_packet c) 1) as [E1|E1];
    [|rewrite (proj2 (Z.eqb_eq (mouse_packet c) 2)) by lia]].
  - apply wp_when; intros _; [apply wp_modify|]; apply HQ; (split; [by destruct Hc|]); split; cbn; try done; lia.
  - set (m := Z.land _ 0x100). assert (m = 0 \/ m = 0x100) as Hm' by apply land_256.
    apply wp_bind, (wp_lift _ (packet - m)).
    { unfold i16_sub. rewrite (proj2 (Z.leb_le _ _)), (proj2 (Z.leb_le _ _)) by lia. done. }
    apply wp_modify, HQ. split; [by destruct Hc|]. split; cbn; [lia|done].
  - cbn zeta. apply wp_bind, (wp_mono _ _ (fun c' r => r = Ok tt /\ exists out, submitted out c c')).
    { apply wp_when; intros _; [destruct (delivers_some (fun t => terminal_mouse t (mouse_input (MouseScroll (sext 16 (ps2_scroll_delta (wrap 8 (mouse_flags c)) packet))))) c Hc) as (mv & t' & Hd); eapply wp_submit_event; eauto|]. split; [done|]. exists []. by apply submitted_same. }
    intros c' ? [-> (out & [Hs _ _ _ _ Hpk Hfl])]. apply wp_modify, HQ. split; [by destruct Hs|].
    split; cbn; [lia|by rewrite Hfl].
Qed.

Lemma wp_handle_status_data status data c (Q : St -> result unit E -> Prop) :
  input_ok c -> fits 8 data -> (forall c', input_ok c' -> Q c' (Ok tt)) -> wp (handle_status_data spins status data) c Q.
Proof.
  intros Hc Hd HQ. unfold handle_status_data. destruct (_ =? _); [by apply wp_handle_mouse|].
  destruct (delivers_some (fun t => handle_keyboard t data) c (proj1 Hc)) as (mv & t' & Hdl).
  eapply wp_submit_scancode; [apply Hc|intros _; exact Hdl|]. intros c' [Hs _ _ _ _ Hp Hf] _. apply HQ. split; [done|].
  destruct Hc as [_ [? ?]]. split; [by rewrite Hp|by rewrite Hf].
Qed.

Lemma input_ok_ports c p : input_ok c -> input_ok (c <| co_ports := p |>).
Proof. by intros [[] []]. Qed.

Lemma wp_poll_once c (Q : St -> result unit E -> Prop) :
  input_ok c -> (forall c', input_ok c' -> Q c' (Ok tt)) -> wp (poll_once spins) c Q.
Proof.
  intros Hc HQ. apply wp_bind, wp_port_in. intros p v.
  apply wp_when; intros _; [|by apply HQ, input_ok_ports].
  apply wp_bind, wp_port_in. intros p' v'. apply wp_handle_status_data; [by apply input_ok_ports, input_ok_ports| |done].
  apply fits_wrap. lia.
Qed.
End Bytes.
End Specs.

(** The console is an input sink for the device drivers. *)
#[global] Instance console_sink {T P} `{Terminal T} `{Ports P} (spins : nat) : InputSink (Console T P) := {
  submit_keyboard_scancode c code := '(c, _) ← submit_scancode (E := unit) spins code c; Done c;
  submit_mouse_event c event := '(c, _) ← submit_event (E := unit) spins event c; Done c;
}.
#[global] Instance console_sink_laws {T P} `{AnswersEnd T} `{UartLaws P spins} :
  InputSinkLaws (Console T P) (H := console_sink spins).
Proof.
  refine {| sink_ok := console_ok |}.
  - intros c code Hc. destruct (delivers_some (fun t => handle_keyboard t code) c Hc) as (mv & t' & Hd).
    destruct (wp_submit_scancode (spins := spins) (E := unit) code c mv t' (fun c' r => r = Ok tt /\ console_ok c'))
      as (c' & r & Hr & -> & Hc'); [done|done|intros c' Hs _; split; [done|apply Hs]|].
    exists c'. cbn [submit_keyboard_scancode submit_mouse_event console_sink]. by rewrite Hr.
  - intros c event Hc. destruct (delivers_some (fun t => terminal_mouse t (mouse_input event)) c Hc) as (mv & t' & Hd).
    destruct (wp_submit_event (spins := spins) (E := unit) event c mv t' (fun c' r => r = Ok tt /\ console_ok c'))
      as (c' & r & Hr & -> & Hc'); [done|done|intros c' Hs; split; [done|apply Hs]|].
    exists c'. cbn [submit_keyboard_scancode submit_mouse_event console_sink]. by rewrite Hr.
Defined.

(** ** The bring-up *)

(** A program that comes back, with a value or an error, having touched only the
    ports. *)
Definition port_only {T P E A} (m : prog (Console T P) E A) : Prop :=
  forall c, exists p r, m c = Done (c <| co_ports := p |>, r).
Create HintDb port_only.
Section PortOnly.
Context {T P E : Type} `{Ports P}.
Implicit Types (c : Console T P).

Lemma port_only_ret {A} (a : A) : port_only (T := T) (P := P) (E := E) (p_ret a).
Proof. intros c. exists (co_ports c), (Ok a). by destruct c. Qed.
Lemma port_only_err {A} (e : E) : port_only (T := T) (P := P) (A := A) (p_err e).
Proof. intros c. exists (co_ports c), (Err e). by destruct c. Qed.
Lemma port_only_in port : port_only (T := T) (P := P) (E := E) (port_in port).
Proof. intros c. unfold port_in. destruct (inb _ _) as [p v]. by eexists _, _. Qed.
Lemma port_only_out port v : port_only (T := T) (P := P) (E := E) (port_out port v).
Proof. intros c. by eexists _, _. Qed.
Lemma port_only_bind {A B} (m : prog (Console T P) E A) (k : A -> prog (Console T P) E B) :
  port_only m -> (forall a, port_only (k a)) -> port_only (p_bind m k).
Proof.
  intros Hm Hk c. destruct (Hm c) as (p & r & Hr). unfold p_bind. rewrite Hr. cbn [mbind outcome_bind].
  destruct r as [a|e]; [|by eexists _, _]. destruct (Hk a (c <| co_ports := p |>)) as (p' & r' & Hr'). by exists p', r'.
Qed.
Lemma port_only_try {F A} (m : prog (Console T P) F A) : port_only m -> port_only (E := E) (p_try m).
Proof. intros Hm c. destruct (Hm c) as (p & r & Hr). unfold p_try. rewrite Hr. by eexists _, _. Qed.
Lemma port_only_if {A} (b : bool) (m n : prog (Console T P) E A) : port_only m -> port_only n -> port_only (if b then m else n).
Proof. by destruct b. Qed.
Lemma port_only_for {A} n (body : prog (Console T P) E (option A)) after :
  port_only body -> port_only after -> port_only (p_for n body after).
Proof.
  intros Hb Ha c. destruct (wp_for n body after (fun _ c' => exists p, c' = c <| co_ports := p |>) c
    (fun c' r => exists p, c' = c <| co_ports := p |>)) as (c' & r & Hr & p & ->); [by exists (co_ports c); destruct c| | |by exists p, r].
  - intros k c' _ (p & ->). destruct (Hb (c <| co_ports := p |>)) as (p' & r & Hr). eexists _, r. split; [exact Hr|].
    destruct r as [[a|]|e]; by exists p'.
  - intros c' (p & ->). destruct (Ha (c <| co_ports := p |>)) as (p' & r & Hr). eexists _, r. split; [exact Hr|]. by exists p'.
Qed.
End PortOnly.
#[export] Hint Resolve port_only_ret port_only_err port_only_in port_only_out port_only_bind port_only_try port_only_if
  port_only_for : port_only.

Section Init.
Context {T P : Type} `{Ports P}.

Lemma port_only_read_data : port_only (T := T) read_data.
Proof. unfold read_data, wait_read. auto 10 with port_only. Qed.
Lemma port_only_write_command cmd : port_only (T := T) (write_command cmd).
Proof. unfold write_command, wait_write. auto 10 with port_only. Qed.
Lemma port_only_write_data cmd : port_only (T := T) (write_data cmd).
Proof. unfold write_data, wait_write. auto 10 with port_only. Qed.
#[local] Hint Resolve port_only_read_data port_only_write_command port_only_write_data : port_only.
Lemma port_only_flush : port_only (T := T) flush_output.
Proof. unfold flush_output. auto 10 with port_only. Qed.
Lemma port_only_read_config : port_only (T := T) read_config.
Proof. unfold read_config. auto 10 with port_only. Qed.
Lemma port_only_write_config config : port_only (T := T) (write_config config).
Proof. unfold write_config. auto 10 with port_only. Qed.
Lemma port_only_send_loop send : port_only (T := T) send -> port_only (send_loop send).
Proof. unfold send_loop. intros. auto 15 with port_only. Qed.
Lemma port_only_require x y : port_only (T := T) (P := P) (require_eq x y).
Proof. unfold require_eq. auto with port_only. Qed.
#[local] Hint Resolve port_only_flush port_only_read_config port_only_write_config port_only_send_loop port_only_require : port_only.
Lemma port_only_controller : port_only (T := T) init_controller.
Proof. unfold init_controller. auto 60 with port_only. Qed.
Lemma port_only_keyboard : port_only (T := T) init_keyboard.
Proof. unfold init_keyboard, send_to_port1. auto 60 with port_only. Qed.
Lemma port_only_mouse : port_only (T := T) init_mouse.
Proof. unfold init_mouse, send_to_port2. auto 60 with port_only. Qed.
End Init.

(** ** Properties *)

(** [n] reads of standard input. *)
Fixpoint read_many {T P E} `{Terminal T} `{Ports P} (spins n : nat) : prog (Console T P) E (list (option Z)) :=
  match n with
  | O => p_ret []
  | S n => b ←! read_stdin spins; l ←! read_many spins n; p_ret (b :: l)
  end.

Lemma read_stdin_pop {T P E} `{Terminal T} `{Ports P} spins (c : Console T P) b q :
  tty_enabled c = true -> co_input c = b :: q ->
  read_stdin (E := E) spins c = Done (c <| co_input := q |>, Ok (Some b)).
Proof.
  intros Ht Hq. unfold tty_enabled in Ht. unfold read_stdin, p_bind, p_get. cbn [mbind outcome_bind].
  destruct (co_mode c); try done; unfold pop_input; by rewrite Hq.
Qed.
Lemma read_many_input {T P E} `{Terminal T} `{Ports P} spins (c : Console T P) :
  tty_enabled c = true ->
  read_many (E := E) spins (length (co_input c)) c = Done (c <| co_input := @nil Z |>, Ok (Some <$> co_input c)).
Proof.
  intros Ht. remember (co_input c) as q eqn:Hq. revert c Ht Hq. induction q as [|b q IH]; intros c Ht Hq; cbn [length read_many].
  - unfold p_ret. destruct c; cbn in *. by subst.
  - unfold p_bind at 1. rewrite (read_stdin_pop _ _ b q) by done. cbn [mbind outcome_bind].
    unfold p_bind. by rewrite (IH (c <| co_input := q |>)).
Qed.

(** C32: What is typed is read.  A key code moves to the input queue what waits in the
    echo queue, what the terminal makes of the code, and - when echo is on - what the
    terminal answers to the echo, as long as these answers come to an end (within 65536
    bytes; a terminal that answered its own answers for ever would hold the handler).
    Of the input queue the oldest bytes give way when the 128 bytes are full, and no
    others; reads of standard input then return exactly the bytes of the queue, in
    order.  When the terminal answers nothing and nothing waits, exactly the bytes it
    made of the key arrive. *)
Theorem keystrokes_reach_stdin {T P E : Type} `{Terminal T} `{UartLaws P spins} (code : Z) (c : Console T P) (moved : list Z) (t' : T) :
  console_ok c -> tty_enabled c = true ->
  let '(t, made) := handle_keyboard (co_terminal c) code in
  let queue := co_echo c ++ made in
  echoed (co_echo_flag c) t (drop (length queue - 128) queue) moved t' -> (length moved < ECHO_FUEL)%nat ->
  exists c', submit_scancode (E := E) spins code c = Done (c', Ok tt) /\ console_ok c' /\ co_echo c' = [] /\ co_terminal c' = t' /\
    (let typed := co_input c ++ moved in co_input c' = drop (length typed - 128) typed) /\
    (exists c'', read_many (E := E) spins (length (co_input c')) c' = Done (c'', Ok (Some <$> co_input c'))) /\
    (co_echo c = [] -> unanswered t made -> (length made <= 128)%nat -> moved = made).
Proof.
  intros Hc Ht. destruct (handle_keyboard (co_terminal c) code) as [t made] eqn:Hk. cbv zeta. intros He Hf.
  assert (delivers (fun t => handle_keyboard t code) c moved t') as Hd.
  { unfold delivers. rewrite Hk, force_push_all_spec by apply Hc. by split. }
  destruct (wp_submit_scancode (spins := spins) (E := E) code c moved t' (fun c' r => r = Ok tt /\
    submitted moved c c' /\ co_terminal c' = t' /\ co_echo c' = [])) as (c' & r & Hr & -> & Hs & Htm & Hec); [done|done| |].
  { rewrite Ht. auto. }
  exists c'. split; [exact Hr|]. split; [apply Hs|]. split; [done|]. split; [done|]. split; [|split].
  - rewrite (su_input _ _ _ Hs). apply force_push_all_spec, Hc.
  - eexists. apply read_many_input. unfold tty_enabled in *. by rewrite (su_mode _ _ _ Hs).
  - intros Hq Hu Hl. rewrite Hq in He. cbn [app] in He. replace (length made - 128)%nat with 0%nat in He by lia.
    rewrite drop_0 in He. unfold echoed in He. destruct (co_echo_flag c); [by eapply echo_run_moved|apply He].
Qed.

(** A terminal that shows what it gets, sends the code of a key below 128, and answers
    the query 5 with the byte 6, on a machine whose ports read as a script says and
    whose transmitter is empty. *)
#[local] Instance plain_terminal : Terminal (list Z) := {
  process t bs := (t ++ bs, if bool_decide (bs = [5]) then [6] else []);
  handle_keyboard t code := (t, if code <? 128 then [code] else []);
  terminal_mouse t input := (t, match input with InputScroll n => [if 0 <? n then 0x41 else 0x42] | _ => [] end);
}.
(** Its answers are not answered. *)
Lemma plain_terminal_ends n : forall (t q : list Z), (length q + length (filter (.= 5%Z) q) <= n)%nat -> llen q <= QUEUE_CAPACITY ->
  exists moved t', echo_run t q moved t' /\ (length moved <= n)%nat.
Proof.
  induction n as [|n IH]; intros t q Hn Hq.
  { destruct q; [|cbn in Hn; lia]. exists [], t. split; [constructor|cbn; lia]. }
  destruct q as [|b q]; [exists [], t; split; [constructor|cbn; lia]|].
  rewrite filter_cons in Hn. cbn [length] in Hn. unfold llen, QUEUE_CAPACITY in Hq. cbn [length] in Hq.
  destruct (decide (b = 5)) as [->|Hb].
  - assert (force_push_all q [6] = q ++ [6]) as Hp by (apply force_push_all_fits; unfold llen, QUEUE_CAPACITY; cbn; lia).
    destruct (IH (t ++ [5]) (q ++ [6])) as (moved & t' & Hr & Hl).
    + rewrite filter_app, !length_app. rewrite filter_cons, decide_False, filter_nil by done. cbn [length] in *. lia.
    + unfold llen, QUEUE_CAPACITY. rewrite length_app. cbn. lia.
    + exists (5 :: moved), t'. split; [|cbn; lia]. eapply er_byte; [reflexivity|]. rewrite bool_decide_true by done. by rewrite Hp.
  - destruct (IH (t ++ [b]) q) as (moved & t' & Hr & Hl); [lia|unfold llen, QUEUE_CAPACITY; lia|].
    exists (b :: moved), t'. split; [|cbn; lia]. eapply er_byte; [reflexivity|]. by rewrite bool_decide_false by congruence.
Qed.
#[local] Instance plain_terminal_answers_end : AnswersEnd (list Z).
Proof.
  intros t q Hq. destruct (plain_terminal_ends (length q + length (filter (.= 5%Z) q)) t q) as (moved & t' & Hr & Hl); [lia|done|].
  exists moved, t'. split; [exact Hr|]. pose proof (length_filter (.= 5%Z) q). unfold llen, QUEUE_CAPACITY, ECHO_FUEL in *. lia.
Qed.
Definition PortScript : Type := list Z.
#[local] Instance script_ports : Ports PortScript := {
  inb p port := if port =? SERIAL_PORT + 5 then (p, 0x20) else match p with v :: p => (p, v) | [] => ([], 0) end;
  outb p _ _ := p;
}.
#[local] Instance script_uart : UartLaws PortScript 1.
Proof. split. by intros p. Defined.
Definition example_console (p : PortScript) : Console (list Z) PortScript :=
  mk_Console [] p [] [0x61] true ModeSerialTty true 0 0 0.

(** The key "b", and the query, whose answer arrives behind it. *)
Lemma keystrokes_reach_stdin_witness :
  (exists c', submit_scancode (E := unit) 1 0x62 (example_console []) = Done (c', Ok tt) /\ co_input c' = [0x61; 0x62]) /\
  (exists c', submit_scancode (E := unit) 1 5 (example_console []) = Done (c', Ok tt) /\ console_ok c' /\
    co_input c' = [0x61; 5; 6] /\ co_terminal c' = [5; 6]).
Proof.
  assert (console_ok (example_console [])) as Hok by (split; vm_compute; congruence).
  assert (forall n, (n < 100)%nat -> (n < ECHO_FUEL)%nat) as Hfuel by (intros n Hn; unfold ECHO_FUEL; lia).
  split.
  - destruct (keystrokes_reach_stdin (spins := 1) (E := unit) 0x62 (example_console []) [0x62] [0x62]) as (c' & Hr & _ & _ & _ & Hi & _);
      [exact Hok|reflexivity|eapply er_byte; [reflexivity|constructor]|apply Hfuel; cbn; lia|].
    exists c'. split; [exact Hr|exact Hi].
  - destruct (keystrokes_reach_stdin (spins := 1) (E := unit) 5 (example_console []) [5; 6] [5; 6]) as (c' & Hr & Hc & _ & Ht & Hi & _);
      [exact Hok|reflexivity|eapply er_byte; [reflexivity|eapply er_byte; [reflexivity|constructor]]|apply Hfuel; cbn; lia|].
    exists c'. split; [exact Hr|]. split; [exact Hc|]. split; [exact Hi|exact Ht].
Defined.

(** The three bytes of a packet. *)
Section Packet.
Context {T P E : Type} `{Terminal T} `{Ports P} (spins : nat).
Implicit Types (c : Console T P).

Lemma marker_bit b : (Z.land (Z.shiftr b 3) 1 =? 1) = Z.testbit b 3.
Proof.
  pose proof (land_1_testbit (Z.shiftr b 3)) as Hl. rewrite Z.shiftr_spec in Hl by lia. change (0 + 3) with 3 in Hl.
  rewrite <- Hl. rewrite (Z.land_ones _ 1) by lia. change (2 ^ 1) with 2.
  pose proof (Z.mod_pos_bound (Z.shiftr b 3) 2 ltac:(lia)).
  destruct (Z.eqb_spec (Z.shiftr b 3 mod 2) 1), (Z.eqb_spec (Z.shiftr b 3 mod 2) 0); cbn; try done; lia.
Qed.
Lemma scroll_delta_spec flags y : ps2_scroll_delta flags y = if Z.testbit flags 5 then y - 256 else y.
Proof.
  unfold ps2_scroll_delta. assert (Z.land (Z.shiftl flags 3) 0x100 = b2z (Z.testbit flags 5) * 2 ^ 8) as ->;
    [|destruct (Z.testbit flags 5); cbn; lia].
  apply Z.bits_inj'. intros i Hi. rewrite Z.land_spec, Z.shiftl_spec by lia. change 0x100 with (2 ^ 8).
  rewrite Z.pow2_bits_eqb, Z.mul_pow2_bits, b2z_testbit by lia.
  destruct (Z.eqb_spec 8 i) as [<-|Hne]; [by rewrite !andb_true_r|].
  rewrite (proj2 (Z.eqb_neq (i - 8) 0)) by lia. by rewrite !andb_false_r.
Qed.
Lemma sext_16_small z : -32768 <= z <= 32767 -> sext 16 z = z.
Proof.
  intros Hz. unfold sext. change (2 ^ 16) with 65536. change (2 ^ (16 - 1)) with 32768.
  destruct (Z.leb_spec 0 z).
  - rewrite Z.mod_small by lia. destruct (Z.ltb_spec z 32768); lia.
  - replace (z mod 65536) with (z + 65536) by (rewrite <- (Z.mod_add z 1) by lia; rewrite Z.mod_small; lia).
    destruct (Z.ltb_spec (z + 65536) 32768); lia.
Qed.

Lemma handle_mouse_0 b c :
  mouse_packet c = 0 ->
  handle_mouse (E := E) spins b c =
    Done (if Z.testbit b 3 then c <| mouse_flags := b |> <| mouse_packet := 1 |> else c, Ok tt).
Proof.
  intros Hp. unfold handle_mouse, p_bind, p_get. cbn [mbind outcome_bind]. rewrite Hp, marker_bit. by destruct (Z.testbit b 3).
Qed.
Lemma handle_mouse_1 b c :
  mouse_packet c = 1 -> fits 8 b -> exists dx,
  handle_mouse (E := E) spins b c = Done (c <| mouse_x := dx |> <| mouse_packet := 2 |>, Ok tt) /\ -256 <= dx <= 255.
Proof.
  intros Hp Hb. unfold fits in Hb. unfold handle_mouse, p_bind, p_get. cbn [mbind outcome_bind]. rewrite Hp. cbn [Z.eqb Pos.eqb].
  set (m := Z.land _ 0x100). assert (m = 0 \/ m = 0x100) as Hm by apply land_256. exists (b - m). split; [|lia].
  unfold p_lift, i16_sub. by rewrite (proj2 (Z.leb_le _ _)), (proj2 (Z.leb_le _ _)) by lia.
Qed.
Lemma handle_mouse_2 b c :
  mouse_packet c = 2 -> fits 8 b -> fits 8 (mouse_flags c) ->
  handle_mouse (E := E) spins b c =
    (p_when (Z.testbit (mouse_flags c) 1) (submit_mouse_scroll spins (if Z.testbit (mouse_flags c) 5 then b - 256 else b)) ;!
     p_modify (fun c => c <| mouse_packet := 0 |>)) c.
Proof.
  intros Hp Hb Hf. unfold handle_mouse. unfold p_bind at 1, p_get. cbn [mbind outcome_bind]. rewrite Hp. cbn [Z.eqb Pos.eqb].
  rewrite (wrap_small 8) by done. cbn zeta. rewrite scroll_delta_spec, sext_16_small
    by (unfold fits in *; destruct (Z.testbit (mouse_flags c) 5); lia).
  unfold ps2_middle_button. by rewrite (land_pow2_testbit _ 1) by lia.
Qed.
End Packet.

(** The PS/2 mouse decoder: whatever bytes the controller delivers, for the
    keyboard or the mouse, in whatever order, no handler panics - the packet index
    stays within 0..2 and the [i16] arithmetic does not overflow; a byte without the
    marker bit is skipped at the start of a packet; and a whole packet scrolls by
    its 9-bit two's complement vertical movement if its bit 1 is set, and does
    nothing else. *)
Theorem mouse_packets_decoded {T P E : Type} `{AnswersEnd T} `{UartLaws P spins} (c : Console T P) :
  input_ok c ->
  (forall l, Forall (fun '(status, data) => fits 8 data) l ->
     exists c', p_each l (fun '(status, data) => handle_status_data (E := E) spins status data) c = Done (c', Ok tt) /\ input_ok c') /\
  (mouse_packet c = 0 ->
   (forall b, Z.testbit b 3 = false -> handle_mouse (E := E) spins b c = Done (c, Ok tt)) /\
   forall flags x y, fits 8 flags -> fits 8 x -> fits 8 y -> Z.testbit flags 3 = true ->
     let dy := if Z.testbit flags 5 then y - 256 else y in
     exists dx, (handle_mouse (E := E) spins flags ;! handle_mouse spins x ;! handle_mouse spins y) c =
       (p_when (Z.testbit flags 1) (submit_mouse_scroll (E := E) spins dy) ;! p_modify (fun c => c <| mouse_packet := 0 |>))
         (c <| mouse_flags := flags |> <| mouse_packet := 2 |> <| mouse_x := dx |>) /\ -256 <= dy <= 255 /\ -256 <= dx <= 255).
Proof.
  intros Hc. split.
  - intros l Hl. destruct (wp_each l (fun '(status, data) => handle_status_data (E := E) spins status data)
      (fun l c' => Forall (fun '(status, data) => fits 8 data) l /\ input_ok c') c
      (fun c' r => r = Ok tt /\ input_ok c')) as (c' & r & Hr & -> & Hc'); [done| | |by exists c'].
    + intros [st d] k c1 [Hk Hc1]. apply Forall_cons in Hk as [Hd Hk].
      apply wp_handle_status_data; [done|done|]. by intros c2 Hc2.
    + by intros c1 [_ Hc1].
  - intros Hzero. split; [intros b Hb; by rewrite handle_mouse_0, Hb|]. intros flags x y Hf Hx Hy Hm. cbn zeta.
    set (c1 := c <| mouse_flags := flags |> <| mouse_packet := 1 |>).
    destruct (handle_mouse_1 (E := E) spins x c1) as (dx & H1' & Hdx); [done|done|]. exists dx.
    split; [|unfold fits in *; destruct (Z.testbit flags 5); lia].
    unfold p_bind at 1. rewrite handle_mouse_0, Hm by done. cbn [mbind outcome_bind]. fold c1.
    unfold p_bind at 1. rewrite H1'. cbn [mbind outcome_bind].
    by rewrite handle_mouse_2.
Qed.

Lemma mouse_packets_decoded_witness :
  exists c', (handle_mouse (E := unit) 1 0x2a ;! handle_mouse 1 7 ;! handle_mouse 1 0xfd) (example_console []) = Done (c', Ok tt) /\
    co_input c' = [0x61; 0x42].
Proof.
  assert (input_ok (example_console [])) as Hc by (repeat split; vm_compute; congruence).
  destruct (mouse_packets_decoded (spins := 1) (E := unit) (example_console []) Hc) as [_ Hp].
  destruct (Hp eq_refl) as [_ Hd]. destruct (Hd 0x2a 7 0xfd) as (dx & Hr & _ & _); [done..|].
  eexists. split; [rewrite Hr; vm_compute; reflexivity|reflexivity].
Defined.

(** The bring-up of the PS/2 controller returns on any hardware: every wait is
    bounded, an absent or faulty controller, keyboard or mouse is reported, and
    nothing but the I/O ports has been touched. *)
Theorem ps2_init_total {T P : Type} `{Ports P} (c : Console T P) :
  exists p r, ps2_init c = Done (c <| co_ports := p |>, r) /\ forall e : Ps2Error, r <> Err e.
Proof.
  destruct (port_only_controller c) as (p1 & r1 & H1). apply (p_try_Done (F := Ps2Error)) in H1.
  unfold ps2_init. rewrite (p_bind_Ok _ _ _ _ _ H1). destruct r1 as [[]|e1]; [|by eexists _, _].
  destruct (port_only_keyboard (c <| co_ports := p1 |>)) as (p2 & r2 & H2). apply (p_try_Done (F := Ps2Error)) in H2.
  rewrite (p_bind_Ok _ _ _ _ _ H2).
  destruct (port_only_mouse (c <| co_ports := p1 |> <| co_ports := p2 |>)) as (p3 & r3 & H3). apply (p_try_Done (F := Ps2Error)) in H3.
  rewrite (p_bind_Ok _ _ _ _ _ H3). by exists p3, (Ok (true, is_ok r2, is_ok r3)).
Qed.
