(* ===== verification/Platform.v ===== *)
(** * Small devices: [sound/pcspk.rs], [power.rs], [rtc.rs], [apic/local.rs],
    [console/framebuffer.rs]

    The PC speaker, the power registers, the update flag of the real-time clock, the
    calibration of the local timer and the pixels of the frame buffer. *)

From S2P Require Import Prelude Words Dma Vfs Input Console.

(** ** Third-party code *)

(** [aml]: the object behind a path and its integers; [acpi]: the FADT. *)
Inductive AmlValue (V : Type) := Package (values : list V) | OtherValue.
Arguments Package {V}.
Arguments OtherValue {V}.
Class Firmware (V : Type) := {
  s5_object : option (AmlValue V);
  as_integer : V -> option Z;
  pm1a_control_block : option Z;
  reset_register : option Z;
  reset_value : Z;
}.

(** [x2apic]: the registers of the local interrupt controller that the timer uses. *)
Class LocalApic (L : Type) := {
  apic_enable : L -> L;
  timer_periodic_div2 : L -> L;
  enable_timer : L -> L;
  disable_timer : L -> L;
  set_timer_initial : L -> Z -> L;
  timer_current : L -> L * Z;
}.

Section Devices.
Context {T P E : Type} `{Terminal T} `{Ports P} `{WidePorts P}.
Abbreviation cprog A := (prog (Console T P) E A).

Definition port_out16 (port v : Z) : cprog unit := p_modify (fun c => c <| co_ports := outw (co_ports c) port v |>).

(** ** Sound *)

(** [a / b] of unsigned integers. *)
Definition div_checked (a b : Z) : outcome Z := assert! negb (b =? 0); Done (a / b).
(** @ sound/pcspk.rs:3-14 play_sound *)
Definition play_sound (freq : Z) : cprog unit :=
  div ←! p_lift (div_checked 1193180 freq);
  port_out 0x43 0xb6 ;!
  port_out 0x42 (wrap 8 (Z.land div 0xff)) ;!
  port_out 0x42 (wrap 8 (Z.land (Z.shiftr div 8) 0xff)) ;!
  tmp ←! port_in 0x61;
  p_when (negb (tmp =? Z.lor tmp 3)) (port_out 0x61 (Z.lor tmp 3)).
(** @ sound/pcspk.rs:16-19 stop_sound *)
Definition stop_sound : cprog unit := tmp ←! port_in 0x61; port_out 0x61 (Z.land tmp 0xfc).

(** ** Power *)

(** [loop { .. }] without a [break]: it never returns. *)
Fixpoint forever {A} (spins : nat) (body : cprog unit) : cprog A :=
  match spins with O => fun _ => OutOfFuel | S spins => body ;! forever spins body end.

(** @ power.rs:6-20 poweroff *)
Definition poweroff {V} `{Firmware V} {A} (spins : nat) : cprog A :=
  value ←! p_lift (unwrap s5_object);
  slp_typa ←! p_lift (match value with
    | Package values => v ← idx values 0; n ← unwrap (as_integer v); Done (wrap 16 n)
    | OtherValue => Panic
    end);
  forever spins (pm1a ←! p_lift (unwrap pm1a_control_block); port_out16 (wrap 16 pm1a) (Z.lor slp_typa (Z.shiftl 1 13))).
(** @ power.rs:21-26 reboot *)
Definition reboot {V} `{Firmware V} {A} (spins : nat) : cprog A :=
  forever spins (reset ←! p_lift (unwrap reset_register); port_out (wrap 16 reset) reset_value).

(** ** The clock *)

(** [while data.read() & 0x80 != want { select.write(0x8a); }]. *)
Fixpoint wait_uip (spins : nat) (want : Z) : cprog unit :=
  match spins with
  | O => fun _ => OutOfFuel
  | S spins =>
      v ←! port_in 0x71;
      if Z.land v 0x80 =? want then p_ret tt else port_out 0x70 0x8a ;! wait_uip spins want
  end.
(** Until an update begins, then until it ends. *)
(** @ rtc.rs:9-21 poll_uip *)
Definition poll_uip (spins : nat) : cprog unit :=
  port_out 0x70 0x8a ;! wait_uip spins 0x80 ;! wait_uip spins 0.
(** @ rtc.rs:1-3 prepare_sleep *)
Definition prepare_sleep (spins : nat) : cprog unit := poll_uip spins.
(** @ rtc.rs:5-7 perform_sleep *)
Definition perform_sleep (spins : nat) : cprog unit := poll_uip spins.
End Devices.

(** ** The local timer *)

Section Timer.
Context {T P L E : Type} `{Terminal T} `{Ports P} `{LocalApic L}.
Abbreviation lprog A := (prog (Console T P * L) E A).
Definition on_console {A} (m : prog (Console T P) E A) : lprog A :=
  fun '(c, l) => '(c, r) ← m c; Done ((c, l), r).
Definition on_apic (f : L -> L) : lprog unit := p_modify (fun '(c, l) => (c, f l)).

(** @ apic/local.rs:13-18 disable_pic *)
Definition disable_pic : lprog unit := on_console (port_out 0x21 0xff ;! port_out 0xa1 0xff).
(** The ticks between two updates of the clock, a second, divided into hundredths.
    [built] is the controller as its builder leaves it. *)
(** @ apic/local.rs:20-47 init *)
Definition lapic_init (spins : nat) (built : option L) : lprog Z :=
  disable_pic ;!
  lapic ←! p_lift (unwrap built);
  on_apic (fun _ => lapic) ;!
  on_apic apic_enable ;! on_apic timer_periodic_div2 ;!
  on_console (prepare_sleep spins) ;!
  on_apic enable_timer ;! on_apic (fun l => set_timer_initial l 0xffffffff) ;!
  on_console (perform_sleep spins) ;!
  on_apic disable_timer ;!
  '(c, l) ←! p_get;
  let '(l, current) := timer_current l in
  p_put (c, l) ;!
  left ←! p_lift (sub_ovf 0xffffffff (wrap 32 current));
  let count := left / 100 in
  on_apic enable_timer ;! on_apic (fun l => set_timer_initial l count) ;!
  p_ret count.
End Timer.

(** ** The frame buffer *)

(** @ console/framebuffer.rs:10-15 FrameBuffer *)
Record FrameBuffer := mk_FrameBuffer { fb_width : Z; fb_height : Z; fb_addr : Z; fb_pitch : Z }.
(** @ console/framebuffer.rs:18-25 FrameBuffer::null *)
Definition framebuffer_null : FrameBuffer := mk_FrameBuffer 0 0 0 0.
(** [DrawTarget::size]. *)
(** @ console/framebuffer.rs:38-40 DrawTarget::FrameBuffer::size *)
Definition framebuffer_size (fb : FrameBuffer) : Z * Z := (fb_width fb, fb_height fb).
Definition pixel_color (r g b : Z) : outcome Z := s ← add_ovf 32 (Z.shiftl r 16) (Z.shiftl g 8); add_ovf 32 s b.
Definition pixel_offset (fb : FrameBuffer) (x y : Z) : outcome Z :=
  row ← mul_ovf 64 y (fb_pitch fb); column ← mul_ovf 64 x 4; add_ovf 64 row column.
(** The store is returned: its address and its word. *)
(** @ console/framebuffer.rs:43-48 DrawTarget::FrameBuffer::draw_pixel *)
Definition draw_pixel (fb : FrameBuffer) (x y : Z) (color : Z * Z * Z) : outcome (Z * Z) :=
  let '(r, g, b) := color in
  o ← pixel_offset fb x y;
  c ← pixel_color r g b;
  Done (fb_addr fb + o, c).

(** ** Properties *)

Section Specs.
Context {T P E : Type} `{Terminal T} `{Ports P} `{WidePorts P}.
Implicit Types (c : Console T P).

(** Neither way of turning the machine off comes back, whatever the firmware says. *)
Lemma forever_never {A} spins (body : prog (Console T P) E unit) c (a : Console T P * result A E) :
  (forall c c' e, body c <> Done (c', Err e)) -> forever spins body c <> Done a.
Proof.
  intros Hb. revert c. induction spins as [|spins IH]; intros c; [done|]. cbn [forever]. unfold p_bind.
  destruct (body c) as [[c' [[]|e]]| |] eqn:Hc; cbn [mbind outcome_bind]; [apply IH|by destruct (Hb _ _ _ Hc)|done|done].
Qed.
Lemma poweroff_never_returns {V} `{Firmware V} {A} spins c (a : Console T P * result A E) : poweroff spins c <> Done a.
Proof.
  unfold poweroff, p_bind, p_lift. destruct (unwrap s5_object) as [v| |]; cbn [mbind outcome_bind]; [|done|done].
  destruct v as [vs|]; [|done]. cbn [mbind outcome_bind]. destruct (idx vs 0) as [v| |]; cbn [mbind outcome_bind]; [|done|done].
  destruct (unwrap (as_integer v)); cbn [mbind outcome_bind]; [|done|done].
  apply forever_never. intros c1 c2 e. by destruct (unwrap pm1a_control_block).
Qed.
Lemma reboot_never_returns {V} `{Firmware V} {A} spins c (a : Console T P * result A E) : reboot spins c <> Done a.
Proof. apply forever_never. intros c1 c2 e. unfold p_bind, p_lift. by destruct (unwrap reset_register). Qed.

(** A frequency of zero is a division by zero. *)
Lemma play_zero_panics c : play_sound (E := E) 0 c = Panic.
Proof. reflexivity. Qed.
(** Any other is played: the divider goes out in two bytes, of which the upper one
    is cut off below 19 Hz. *)
Lemma play_sound_divider freq c (Q : Console T P -> result unit E -> Prop) :
  0 < freq ->
  (forall c', Q c' (Ok tt)) ->
  wp (play_sound freq) c Q /\ wrap 8 (Z.land (1193180 / freq) 0xff) + 256 * wrap 8 (Z.land (Z.shiftr (1193180 / freq) 8) 0xff) = wrap 16 (1193180 / freq).
Proof.
  intros Hf HQ. split.
  - unfold play_sound. apply wp_bind. eapply wp_lift; [unfold div_checked; rewrite (proj2 (Z.eqb_neq freq 0)) by lia; reflexivity|].
    apply wp_bind, wp_modify, wp_bind, wp_modify, wp_bind, wp_modify, wp_bind, wp_port_in. intros p v.
    apply wp_when; intros _; [by apply wp_modify|done].
  - set (d := 1193180 / freq). assert (0 <= d) by (apply Z.div_pos; lia).
    change 0xff with (Z.ones 8). rewrite !Z.land_ones, Z.shiftr_div_pow2 by lia. unfold wrap. rewrite !Zmod_mod.
    change (2 ^ 16) with (2 ^ 8 * 2 ^ 8). rewrite Z.rem_mul_r by lia. lia.
Qed.
End Specs.

(** ** Pixels *)

(** A mode of the firmware: a row holds its pixels, and the buffer ends below 2^63. *)
Record framebuffer_ok (fb : FrameBuffer) : Prop := {
  fo_pitch : 4 * fb_width fb <= fb_pitch fb;
  fo_size : 0 <= fb_width fb /\ 0 <= fb_height fb /\ fb_pitch fb * fb_height fb < 2 ^ 63;
}.
Lemma pixel_offset_in fb x y :
  framebuffer_ok fb -> 0 <= x < fb_width fb -> 0 <= y < fb_height fb ->
  pixel_offset fb x y = Done (y * fb_pitch fb + x * 4) /\ 0 <= y * fb_pitch fb + x * 4 /\
  y * fb_pitch fb + x * 4 + 4 <= fb_pitch fb * fb_height fb.
Proof.
  intros [Hp (Hw & Hh & Hs)] Hx Hy. unfold pixel_offset, mul_ovf, add_ovf.
  assert (y * fb_pitch fb + fb_pitch fb <= fb_pitch fb * fb_height fb) by nia. assert (0 <= y * fb_pitch fb) by nia.
  repeat (rewrite (proj2 (Z.ltb_lt _ _)) by lia; cbn [mbind outcome_bind]). split; [done|lia].
Qed.
Lemma pixel_color_packs r g b :
  is_byte r -> is_byte g -> is_byte b -> pixel_color r g b = Done (from_le [b; g; r; 0]).
Proof.
  unfold is_byte. intros Hr Hg Hb. unfold pixel_color, add_ovf. rewrite !Z.shiftl_mul_pow2 by lia.
  repeat (rewrite (proj2 (Z.ltb_lt _ _)) by lia; cbn [mbind outcome_bind]). f_equal. cbn [from_le]. lia.
Qed.

(** Drawing a pixel of the screen stores one word inside the frame buffer, blue,
    green and red from its lowest byte, without overflow; and the words of two
    different pixels of the screen do not overlap. *)
Theorem pixels_do_not_overlap (fb : FrameBuffer) (x y x' y' r g b r' g' b' : Z) :
  framebuffer_ok fb -> 0 <= x < fb_width fb -> 0 <= y < fb_height fb -> 0 <= x' < fb_width fb -> 0 <= y' < fb_height fb ->
  bytes [r; g; b; r'; g'; b'] ->
  exists o o', draw_pixel fb x y (r, g, b) = Done (fb_addr fb + o, from_le [b; g; r; 0]) /\
    draw_pixel fb x' y' (r', g', b') = Done (fb_addr fb + o', from_le [b'; g'; r'; 0]) /\
    0 <= o /\ o + 4 <= fb_pitch fb * fb_height fb /\ ((x, y) <> (x', y') -> o + 4 <= o' \/ o' + 4 <= o).
Proof.
  intros Hfb Hx Hy Hx' Hy' Hb. repeat (apply Forall_cons in Hb as [? Hb]).
  destruct (pixel_offset_in fb x y Hfb Hx Hy) as (He & Hlo & Hhi). destruct (pixel_offset_in fb x' y' Hfb Hx' Hy') as (He' & _).
  exists (y * fb_pitch fb + x * 4), (y' * fb_pitch fb + x' * 4). unfold draw_pixel. rewrite He, He', !pixel_color_packs by done.
  cbn [mbind outcome_bind]. do 2 (split; [done|]). do 2 (split; [done|]). intros Hne. destruct Hfb as [Hp _].
  destruct (Z.lt_trichotomy y y') as [Hlt|[->|Hlt]]; [left; nia| |right; nia].
  assert (x <> x') by congruence. lia.
Qed.

Lemma pixels_do_not_overlap_witness :
  exists o o', draw_pixel (mk_FrameBuffer 3 2 0x1000 16) 2 0 (1, 2, 3) = Done (0x1000 + o, 0x010203) /\
    draw_pixel (mk_FrameBuffer 3 2 0x1000 16) 0 1 (0, 0, 255) = Done (0x1000 + o', 0xff) /\ (o + 4 <= o' \/ o' + 4 <= o).
Proof.
  destruct (pixels_do_not_overlap (mk_FrameBuffer 3 2 0x1000 16) 2 0 0 1 1 2 3 0 0 255) as (o & o' & Ha & Hb & _ & _ & Hd);
    [split; cbn; lia|cbn; lia..|by apply (bool_decide_eq_true_1 _)|].
  exists o, o'. split; [exact Ha|]. split; [exact Hb|]. apply Hd. congruence.
Defined.
