(* ===== verification/XhcState.v ===== *)
(** * The xHCI controller: state, events and commands

    [xhci/controller.rs], first part: the objects the driver keeps, how it takes
    events from the ring the hardware writes, and how it submits a command and
    waits for its completion.  The offsets of registers and the addresses inside
    a buffer are sums of small numbers and of addresses of live memory, which do
    not reach 2^64. *)

From S2P Require Import Prelude Words Dma Machine Trb UsbDesc PortRec Msc Bulk Input Hid UsbBlock.

(** @ xhci/controller.rs:20-20 POLL_LIMIT *)
Definition POLL_LIMIT : positive := 100000.
(** @ xhci/controller.rs:24-24 TRANSFER_POLL_LIMIT *)
Definition TRANSFER_POLL_LIMIT : positive := 100000000.
(** @ xhci/controller.rs:25-25 TRANSFER_YIELD_INTERVAL *)
Definition TRANSFER_YIELD_INTERVAL : Z := 1024.
(** @ xhci/controller.rs:26-26 MIN_BAR_LEN *)
Definition MIN_BAR_LEN : Z := 0x1000.
(** @ xhci/controller.rs:27-27 EVENT_RING_ENTRIES *)
Definition EVENT_RING_ENTRIES : Z := 32.
(** @ xhci/controller.rs:28-28 COMMAND_RING_ENTRIES *)
Definition COMMAND_RING_ENTRIES : Z := 4096 / 16.
(** @ xhci/controller.rs:29-29 TRANSFER_RING_ENTRIES *)
Definition TRANSFER_RING_ENTRIES : Z := COMMAND_RING_ENTRIES - 1.
(** @ xhci/controller.rs:30-30 POLL_EVENT_BUDGET *)
Definition POLL_EVENT_BUDGET : positive := 32.
(** @ xhci/controller.rs:31-31 ROOT_PORT_WORK_BUDGET *)
Definition ROOT_PORT_WORK_BUDGET : positive := 2.
(** @ xhci/controller.rs:32-32 ROOT_PORT_RESCAN_INTERVAL *)
Definition ROOT_PORT_RESCAN_INTERVAL : Z := 256.

(** ** Devices *)

(** @ xhci/controller.rs:110-113 HidInput *)
Inductive HidInput :=
  | InputKeyboard (state : KeyboardState)
  | InputMouse (state : MouseState).

(** @ xhci/controller.rs:86-93 HidResources *)
Record HidResources := mk_Hid {
  hid_interrupt_ring : DmaBuffer;
  hid_report : DmaBuffer;
  hid_endpoint : HidBootEndpoint;
  hid_producer : Z;
  hid_cycle : bool;
  hid_input : HidInput;
}.
#[global] Instance HidResources_fields : Fields HidResources := fun h =>
  mk_Hid (hid_interrupt_ring h) (hid_report h) (hid_endpoint h) (hid_producer h) (hid_cycle h) (hid_input h).

(** @ xhci/controller.rs:95-108 MscResources *)
Record MscResources := mk_Msc {
  ms_bulk_in_ring : DmaBuffer;
  ms_bulk_out_ring : DmaBuffer;
  ms_endpoint : MscBotInterface;
  ms_capacity : Capacity;
  ms_usb_id : option Z;
  ms_cbw : DmaBuffer;
  ms_csw : DmaBuffer;
  ms_data : DmaBuffer;
  ms_in_producer : Z;
  ms_out_producer : Z;
  ms_in_cycle : bool;
  ms_out_cycle : bool;
}.
#[global] Instance MscResources_fields : Fields MscResources := fun m =>
  mk_Msc (ms_bulk_in_ring m) (ms_bulk_out_ring m) (ms_endpoint m) (ms_capacity m) (ms_usb_id m) (ms_cbw m)
    (ms_csw m) (ms_data m) (ms_in_producer m) (ms_out_producer m) (ms_in_cycle m) (ms_out_cycle m).

(** @ xhci/controller.rs:81-84 DeviceKind *)
Inductive DeviceKind :=
  | KindHid (hid : HidResources)
  | KindMsc (msc : MscResources).

(** @ xhci/controller.rs:68-78 RootDevice *)
Record RootDevice := mk_RootDevice {
  rd_port : Z;
  rd_generation : Z;
  rd_state : PortState;
  rd_input_context : DmaBuffer;
  rd_output_context : DmaBuffer;
  rd_ep0_ring : DmaBuffer;
  rd_device_descriptor : DmaBuffer;
  rd_configuration_descriptor : DmaBuffer;
  rd_kind : DeviceKind;
}.
#[global] Instance RootDevice_fields : Fields RootDevice := fun d =>
  mk_RootDevice (rd_port d) (rd_generation d) (rd_state d) (rd_input_context d) (rd_output_context d)
    (rd_ep0_ring d) (rd_device_descriptor d) (rd_configuration_descriptor d) (rd_kind d).

(** @ xhci/controller.rs:116-121 RootDevice::slot *)
Definition rd_slot (d : RootDevice) : Z :=
  match rd_state d with PortAddressed slot _ _ => slot | _ => 0 end.

(** @ xhci/controller.rs:124-126 endpoint_id *)
Definition endpoint_id (address : Z) : Z :=
  Z.land address 0x0f * 2 + b2z (negb (Z.land address 0x80 =? 0)).

(** @ xhci/controller.rs:143-149 setup_value *)
Definition setup_value (request : SetupRequest) : Z :=
  Z.lor (Z.lor (Z.lor (Z.lor (sr_bm_request_type request) (Z.shiftl (sr_request request) 8))
    (Z.shiftl (sr_value request) 16)) (Z.shiftl (sr_index request) 32)) (Z.shiftl (sr_length request) 48).

(** @ xhci/controller.rs:152-156 ControllerState *)
Inductive ControllerState := CtlDiscovered | CtlReset | CtlFailed.

(** @ xhci/controller.rs:164-168 InitError *)
Inductive InitError :=
  | Allocation
  | Timeout (stage : string)
  | Command (code : CompletionCode).

(** ** The controller *)

(** @ xhci/controller.rs:187-213 ControllerResources *)
Record ControllerResources := mk_Ctl {
  mapping : MmioMapping;
  dcbaa : DmaBuffer;
  scratchpad_array : option DmaBuffer;
  scratchpads : list DmaBuffer;
  command_ring : DmaBuffer;
  event_ring : DmaBuffer;
  erst : DmaBuffer;
  event_consumer : Z;
  event_cycle : bool;
  event_count : Z;
  command_producer : Z;
  command_cycle : bool;
  runtime : Z;
  doorbell : Z;
  op : Z;
  context_64 : bool;
  ports : list RootDevice;
  root_ports : list PortRecord;
  protocols : list SupportedProtocol;
  interrupt_pending : bool;
  interrupt_count : Z;
  msi_vector : option Z;
  logged_interrupt_count : Z;
  poll_ticks : Z;
  healthy : bool;
}.
#[global] Instance ControllerResources_fields : Fields ControllerResources := fun c =>
  mk_Ctl (mapping c) (dcbaa c) (scratchpad_array c) (scratchpads c) (command_ring c) (event_ring c) (erst c)
    (event_consumer c) (event_cycle c) (event_count c) (command_producer c) (command_cycle c) (runtime c)
    (doorbell c) (op c) (context_64 c) (ports c) (root_ports c) (protocols c) (interrupt_pending c)
    (interrupt_count c) (msi_vector c) (logged_interrupt_count c) (poll_ticks c) (healthy c).

(** What a controller method reads and writes: the machine, the registry of block
    devices, the input sink and its own fields. *)
Record Xhc (D I : Type) := mk_Xhc {
  x_hw : D;
  x_usb : list UsbRecord;
  x_input : I;
  x_ctl : ControllerResources;
}.
Arguments mk_Xhc {D I}.
Arguments x_hw {D I}.
Arguments x_usb {D I}.
Arguments x_input {D I}.
Arguments x_ctl {D I}.
#[global] Instance Xhc_fields D I : Fields (Xhc D I) := fun s => mk_Xhc (x_hw s) (x_usb s) (x_input s) (x_ctl s).
#[global] Instance Xhc_machine D I : HasMachine (Xhc D I) D := {
  machine := x_hw;
  set_machine d s := s <| x_hw := d |>;
}.
#[global] Instance Xhc_machine_laws D I : HasMachineLaws (Xhc D I) D.
Proof. split; [done|done|by intros []]. Qed.

(** The first root-port record with a number, and its update in place. *)
Definition find_record (port : Z) (l : list PortRecord) : option PortRecord :=
  snd <$> list_find (fun r => pr_port r = port) l.
Fixpoint update_record (port : Z) (f : PortRecord -> PortRecord) (l : list PortRecord) : list PortRecord :=
  match l with
  | [] => []
  | r :: l => if pr_port r =? port then f r :: l else r :: update_record port f l
  end.
(** [self.ports.iter().any(|device| device.port == port)]. *)
Definition has_device (port : Z) (l : list RootDevice) : bool := existsb (fun d => rd_port d =? port) l.

(** TRBs in DMA memory: [read_volatile] and [write_volatile] of a [Trb]. *)
Definition trb_bytes (t : Trb) : list Z := to_le 8 (parameter t) ++ to_le 4 (status t) ++ to_le 4 (control t).
Definition trb_of_bytes (l : list Z) : Trb :=
  mk_Trb (from_le (take 8 l)) (from_le (take 4 (drop 8 l))) (from_le (drop 12 l)).

(** @ xhci/controller.rs:2123-2131 wait_for *)
Definition wait_for {S E} (limit : positive) (ready : prog S E bool) : prog S E bool :=
  p_for limit (b ←! ready; p_ret (if b : bool then Some true else None)) (p_ret false).

Section Controller.
Context {D I : Type} `{Machine D} `{InputSink I}.
Abbreviation St := (Xhc D I).
Abbreviation xprog A := (prog (Xhc D I) InitError A).
Implicit Types (register : RegisterBlock).

Definition self : xprog ControllerResources := fun s => Done (s, Ok (x_ctl s)).
Definition modify_self (f : ControllerResources -> ControllerResources) : xprog unit :=
  p_modify (fun s => s <| x_ctl := f (x_ctl s) |>).
Definition load_trb (a : Z) : xprog Trb := bs ←! load_bytes a 16; p_ret (trb_of_bytes bs).
Definition store_trb (a : Z) (t : Trb) : xprog unit := store_bytes a (trb_bytes t).

(** ** Root-port events *)

(** @ xhci/controller.rs:931-933 ControllerResources::port_offset *)
Definition port_offset (port : Z) : xprog Z :=
  c ←! self; i ←! p_lift (sub_ovf port 1); p_ret (op c + PORTSC + i * 0x10).

(** What both users of a sample do with the record: an attached, active device
    that still shows a connection only has its sample stored. *)
(** @ xhci/controller.rs:914-928 ControllerResources::handle_port_status_change -- the update of the record *)
Definition observe_record (port value : Z) (c : ControllerResources) : ControllerResources :=
  c <| root_ports := update_record port (fun record =>
      if has_bit value PORTSC_CCS && bool_decide (pr_state record = Active) && has_device port (ports c)
      then set_portsc record (clear_bits value PORTSC_CHANGE_MASK)
      else (observe record value (poll_ticks c)).1) (root_ports c) |>.

(** @ xhci/controller.rs:903-929 ControllerResources::handle_port_status_change *)
Definition handle_port_status_change register (port : Z) : xprog unit :=
  if port =? 0 then p_ret tt else
  offset ←! port_offset port;
  value ←! read32 register offset;
  let changes := Z.land value PORTSC_CHANGE_MASK in
  p_when (negb (changes =? 0)) (write32 register offset (Z.lor (clear_bits value PORTSC_CHANGE_MASK) changes)) ;!
  modify_self (observe_record port value).

(** @ xhci/controller.rs:935-960 ControllerResources::observe_port *)
Definition observe_port register (port : Z) : xprog unit :=
  offset ←! port_offset port;
  value ←! read32 register offset;
  let changes := Z.land value PORTSC_CHANGE_MASK in
  p_when (negb (changes =? 0))
    (offset ←! port_offset port;
     write32 register offset (Z.lor (clear_bits value PORTSC_CHANGE_MASK) changes)) ;!
  modify_self (observe_record port value).

(** ** Events *)

(** The entry at the consumer index. *)
Definition next_event : xprog Trb :=
  c ←! self; load_trb (as_ptr (event_ring c) + event_consumer c * 16).

(** Telling the controller how far the ring was read, and clearing the causes. *)
(** @ xhci/controller.rs:488-501 ControllerResources::acknowledge_event -- the registers *)
Definition acknowledge_registers register : xprog unit :=
  c ←! self;
  write64 register (runtime c + RT_INTR0 + ERDP)
    (Z.lor (dma_physical_address (event_ring c) + event_consumer c * 16) ERDP_EHB) ;!
  iman ←! read32 register (runtime c + RT_INTR0 + IMAN);
  write32 register (runtime c + RT_INTR0 + IMAN) (Z.lor (Z.land iman IMAN_IE) IMAN_IP) ;!
  write32 register (op c + USBSTS) USBSTS_EINT.

(** @ xhci/controller.rs:483-486 ControllerResources::acknowledge_event -- the step of the consumer *)
Definition advance_consumer (c : ControllerResources) : ControllerResources :=
  let next := (event_consumer c + 1) mod EVENT_RING_ENTRIES in
  let c := c <| event_consumer := next |> in
  if next =? 0 then c <| event_cycle := negb (event_cycle c) |> else c.
Definition count_event : xprog unit :=
  c ←! self; n ←! p_lift (add_ovf 64 (event_count c) 1); modify_self (fun c => c <| event_count := n |>).

(** @ xhci/controller.rs:482-501 ControllerResources::acknowledge_event *)
Definition acknowledge_event register : xprog unit :=
  modify_self advance_consumer ;! count_event ;! acknowledge_registers register.

(** @ xhci/controller.rs:2117-2121 command_completion *)
Definition command_completion (event : Trb) (command_address : Z) : option CompletionCode :=
  if (Z.land (control event) TRB_TYPE_MASK =? TRB_TYPE_COMMAND_COMPLETION) && (parameter event =? command_address)
  then Some (from_status (status event)) else None.

(** @ xhci/controller.rs:375-379 ControllerResources::poll_command -- the step of the consumer *)
Definition advance_command_consumer (c : ControllerResources) : ControllerResources :=
  let c := c <| event_consumer := event_consumer c + 1 |> in
  if event_consumer c =? EVENT_RING_ENTRIES
  then c <| event_consumer := 0 |> <| event_cycle := negb (event_cycle c) |> else c.

(** @ xhci/controller.rs:360-412 ControllerResources::poll_command *)
Definition poll_command register (command_address : Z) : xprog Z :=
  p_for POLL_LIMIT
    (trb ←! next_event;
     c ←! self;
     if negb (eqb (trb_cycle trb) (event_cycle c)) then p_ret None else
     modify_self advance_command_consumer ;!
     count_event ;!
     acknowledge_registers register ;!
     match port_status_change_event trb with
     | Some port => handle_port_status_change register port ;! p_ret None
     | None =>
         match command_completion trb command_address with
         | Some Success => p_ret (Some (wrap 8 (Z.shiftr (control trb) 24)))
         | Some code => p_err (Command code)
         | None => p_ret None
         end
     end)
    (p_err (Timeout "command completion")).

(** @ xhci/controller.rs:414-480 ControllerResources::poll_transfer *)
Definition poll_transfer register (trb_address : Z) : xprog unit :=
  p_for_ix TRANSFER_POLL_LIMIT
    (fun poll =>
     c ←! self;
     p_when (is_multiple_of poll TRANSFER_YIELD_INTERVAL) (read32 register (op c + USBSTS) ;! p_ret tt) ;!
     event ←! next_event;
     if negb (eqb (trb_cycle event) (event_cycle c)) then p_ret None else
     modify_self advance_consumer ;!
     acknowledge_registers register ;!
     match port_status_change_event event with
     | Some port => handle_port_status_change register port ;! p_ret None
     | None =>
         let transfer_event := Z.land (control event) TRB_TYPE_MASK =? TRB_TYPE_TRANSFER_EVENT in
         let expected := (parameter event =? trb_address)
           || ((saturating_sub trb_address (2 * 16) <=? parameter event) && (parameter event <=? trb_address)) in
         if transfer_event && expected then
           match from_status (status event) with
           | Success => p_ret (Some tt)
           | code => p_err (Command code)
           end
         else p_ret None
     end)
    (c ←! self; read32 register (op c + USBSTS) ;! p_err (Timeout "device descriptor")).

(** @ xhci/controller.rs:1689-1722 ControllerResources::poll_bulk_completion *)
Definition poll_bulk_completion register (trb_address : Z) : xprog (CompletionCode * Z) :=
  p_for_ix TRANSFER_POLL_LIMIT
    (fun poll =>
     c ←! self;
     p_when (is_multiple_of poll TRANSFER_YIELD_INTERVAL) (read32 register (op c + USBSTS) ;! p_ret tt) ;!
     event ←! next_event;
     if negb (eqb (trb_cycle event) (event_cycle c)) then p_ret None else
     acknowledge_event register ;!
     match port_status_change_event event with
     | Some port => handle_port_status_change register port ;! p_ret None
     | None =>
         if (Z.land (control event) TRB_TYPE_MASK =? TRB_TYPE_TRANSFER_EVENT) && (parameter event =? trb_address)
         then p_ret (Some (from_status (status event), Z.land (status event) 0x00ffffff))
         else p_ret None
     end)
    (p_err (Timeout "bulk transfer")).

(** ** Commands *)

Definition link_control (cycle : bool) : Z := Z.lor (Z.lor TRB_TYPE_LINK TRB_TC) (b2z cycle).

(** @ xhci/controller.rs:693-723 ControllerResources::submit_command *)
Definition submit_command register (command : Trb) : xprog Z :=
  c ←! self;
  let index := command_producer c in
  let command := mk_Trb (parameter command) (status command)
    (Z.lor (clear_bits (control command) TRB_CYCLE) (b2z (command_cycle c))) in
  store_trb (as_ptr (command_ring c) + index * 16) command ;!
  write32 register (doorbell c) DB_TARGET ;!
  modify_self (fun c => c <| command_producer := command_producer c + 1 |>) ;!
  c ←! self;
  p_when (command_producer c =? COMMAND_RING_ENTRIES - 1)
    (modify_self (fun c => c <| command_producer := 0 |> <| command_cycle := negb (command_cycle c) |>) ;!
     c ←! self;
     store_trb (as_ptr (command_ring c) + (COMMAND_RING_ENTRIES - 1) * 16)
       (mk_Trb (dma_physical_address (command_ring c)) 0 (link_control (command_cycle c)))) ;!
  c ←! self;
  poll_command register (dma_physical_address (command_ring c) + index * 16).

(** @ xhci/controller.rs:1119-1138 ControllerResources::disable_slot *)
Definition disable_slot register (slot : Z) : xprog bool :=
  r ←! p_try (submit_command register (mk_Trb 0 0 (Z.lor TRB_TYPE_DISABLE_SLOT (Z.shiftl slot 24))));
  match r with
  | Ok _ => p_ret true
  | Err _ => modify_self (fun c => c <| healthy := false |>) ;! p_ret false
  end.

(** [write_volatile] of an entry of the device context base address array. *)
Definition store_dcbaa (slot v : Z) : xprog unit :=
  c ←! self; store64 (as_ptr (dcbaa c) + slot * 8) v.

End Controller.
