(* ===== verification/XhcTransfer.v ===== *)
(** * The xHCI controller: transfers

    [xhci/controller.rs], second part: control and bulk transfers, the
    configuration of endpoints, the mass-storage command sequence and the block
    read offered to [blockdev/usb.rs].  A [&mut] argument is passed in and handed
    back; the buffers a function owns are released where their scope ends. *)

From S2P Require Import Prelude Words Dma Machine Trb UsbDesc PortRec Msc Bulk Input Hid UsbBlock XhcState.

(** The positions of a pair of bulk rings: the four [&mut] arguments of
    [msc_command]. *)
Record Pipes := mk_Pipes { in_producer : Z; out_producer : Z; in_cycle : bool; out_cycle : bool }.
#[global] Instance Pipes_fields : Fields Pipes := fun p =>
  mk_Pipes (in_producer p) (out_producer p) (in_cycle p) (out_cycle p).

(** [m?] in a scope that owns [bs], in the order in which they are dropped. *)
Definition or_drop {S D E A} `{Machine D} `{HasMachine S D} (bs : list DmaBuffer) (m : prog S E A) : prog S E A :=
  r ←! p_try m;
  match r with
  | Ok a => p_ret a
  | Err e => drop_buffers bs ;! p_err e
  end.

Section Transfer.
Context {D I : Type} `{Machine D} `{InputSink I}.
Abbreviation xprog A := (prog (Xhc D I) InitError A).
Implicit Types (register : RegisterBlock) (slot : Z) (ring input : DmaBuffer).

(** [self.doorbell + slot as usize * 4]. *)
Definition ring_doorbell register slot (target : Z) : xprog unit :=
  c ←! self; write32 register (doorbell c + slot * 4) target.

Definition context_size : xprog Z := c ←! self; p_ret (if context_64 c then 64 else 32).

(** The last TRB of a fresh transfer ring. *)
Definition initial_link ring : Trb :=
  mk_Trb (dma_physical_address ring) 0 (Z.lor (Z.lor TRB_TYPE_LINK TRB_TC) TRB_CYCLE).

(** @ xhci/controller.rs:1547-1634 ControllerResources::control_transfer *)
Definition control_transfer register slot ring (producer : Z) (request : SetupRequest) (data : option DmaBuffer)
    : xprog (Z * result unit InitError) :=
  let trb_count := match data with Some _ => 3 | None => 2 end in
  if TRANSFER_RING_ENTRIES <? producer + trb_count then p_ret (producer, Err (Command RingOverrun)) else
  let ptr := as_ptr ring + producer * 16 in
  let data_len := sr_length request in
  let data_in := negb (Z.land (sr_bm_request_type request) 0x80 =? 0) in
  let transfer_type := match data with Some _ => if data_in then 3 else 2 | None => 0 end in
  store_trb ptr (mk_Trb (setup_value request) 8
    (Z.lor (Z.lor (Z.lor (Z.lor TRB_TYPE_SETUP_STAGE (Z.shiftl transfer_type 16)) (Z.shiftl 1 6)) TRB_CHAIN) TRB_CYCLE)) ;!
  match data with
  | Some buffer =>
      store_trb (ptr + 16) (mk_Trb (dma_physical_address buffer) data_len
        (Z.lor (Z.lor (Z.lor TRB_TYPE_DATA_STAGE (if data_in then Z.shiftl 1 16 else 0)) TRB_CHAIN) TRB_CYCLE)) ;!
      store_trb (ptr + 32) (mk_Trb 0 0
        (Z.lor (Z.lor (Z.lor TRB_TYPE_STATUS_STAGE (if data_in then 0 else Z.shiftl 1 16)) (Z.shiftl 1 5)) TRB_CYCLE)) ;!
      ring_doorbell register slot 1 ;!
      completion ←! p_try (poll_transfer register (dma_physical_address ring + (producer + 2) * 16));
      p_ret (producer + trb_count, completion)
  | None =>
      store_trb (ptr + 16) (mk_Trb 0 0
        (Z.lor (Z.lor (Z.lor TRB_TYPE_STATUS_STAGE (Z.shiftl 1 16)) (Z.shiftl 1 5)) TRB_CYCLE)) ;!
      ring_doorbell register slot 1 ;!
      completion ←! p_try (poll_transfer register (dma_physical_address ring + (producer + 1) * 16));
      p_ret (producer + trb_count, completion)
  end.

(** [bulk::completion(..).map_err(..)]. *)
Definition bulk_error (error : BulkError) : InitError :=
  match error with BulkCompletionCode code => Command code | _ => Command TrbError end.

(** The producer and the cycle after a transfer, and the link TRB rewritten at the
    end of the ring. *)
(** @ xhci/controller.rs:1667-1682 ControllerResources::bulk_transfer -- the step of the producer *)
Definition advance_producer ring (producer : Z) (cycle : bool) : xprog (Z * bool) :=
  let producer := producer + 1 in
  if producer =? TRANSFER_RING_ENTRIES then
    let cycle := negb cycle in
    store_trb (as_ptr ring + TRANSFER_RING_ENTRIES * 16)
      (mk_Trb (dma_physical_address ring) 0 (link_control cycle)) ;!
    p_ret (0, cycle)
  else p_ret (producer, cycle).

(** @ xhci/controller.rs:1640-1686 ControllerResources::bulk_transfer *)
Definition bulk_transfer register slot (endpoint_address : Z) ring (producer : Z) (cycle : bool)
    (buffer : DmaBuffer) (len : Z) : xprog (Z * bool * result BulkCompletion InitError) :=
  if (TRANSFER_RING_ENTRIES <=? producer) || (dma_len buffer <? len)
  then p_ret (producer, cycle, Err (Command RingOverrun)) else
  let in_direction := negb (Z.land endpoint_address 0x80 =? 0) in
  match normal_trb (dma_physical_address buffer) len in_direction cycle with
  | Err _ => p_ret (producer, cycle, Err (Command TrbError))
  | Ok trb =>
      let trb_address := dma_physical_address ring + producer * 16 in
      store_trb (as_ptr ring + producer * 16) trb ;!
      ring_doorbell register slot (endpoint_id endpoint_address) ;!
      r ←! p_try (poll_bulk_completion register trb_address);
      match r with
      | Err e => p_ret (producer, cycle, Err e)
      | Ok (code, residual) =>
          '(producer, cycle) ←! advance_producer ring producer cycle;
          p_ret (producer, cycle, map_err bulk_error (completion code len residual in_direction))
      end
  end.

(** ** Configuring endpoints *)

Definition configure_command register slot input : xprog unit :=
  submit_command register
    (mk_Trb (dma_physical_address input) 0 (Z.lor TRB_TYPE_CONFIGURE_ENDPOINT (Z.shiftl slot 24))) ;!
  p_ret tt.

(** The Add Context flags and the number of context entries of the slot context. *)
(** @ xhci/controller.rs:1738-1752 ControllerResources::configure_endpoint -- the input control and slot contexts *)
Definition add_endpoint_context (size endpoint_id : Z) input : xprog unit :=
  store32 (as_ptr input + 4) (Z.lor 1 (Z.shiftl 1 endpoint_id)) ;!
  old ←! load32 (as_ptr input + size);
  store32 (as_ptr input + size) (Z.lor (clear_bits old (Z.shiftl 0x1f 27)) (Z.shiftl endpoint_id 27)).

(** @ xhci/controller.rs:1724-1786 ControllerResources::configure_endpoint *)
Definition configure_endpoint register slot input (endpoint : HidBootEndpoint) ring : xprog unit :=
  size ←! context_size;
  let endpoint_id := endpoint_id (hid_endpoint_address endpoint) in
  if (endpoint_id =? 0) || (32 <=? endpoint_id) then p_err (Command TrbError) else
  add_endpoint_context size endpoint_id input ;!
  let context := as_ptr input + size * (endpoint_id + 1) in
  store32 context (Z.shiftl (saturating_sub (hid_interval endpoint) 1) 16) ;!
  store32 (context + 4)
    (Z.lor (Z.lor (Z.shiftl (hid_max_packet_size endpoint) 16) (Z.shiftl 3 1)) (Z.shiftl 7 3)) ;!
  store64 (context + 8) (Z.lor (dma_physical_address ring) 1) ;!
  store_trb (as_ptr ring + (COMMAND_RING_ENTRIES - 1) * 16) (initial_link ring) ;!
  (* the values the diagnostic prints *)
  load32 (as_ptr input + 4) ;!
  load32 (as_ptr input + size) ;!
  configure_command register slot input.

(** @ xhci/controller.rs:1791-1845 ControllerResources::configure_bulk_endpoint *)
Definition configure_bulk_endpoint register slot input (endpoint : EndpointDescriptor) ring : xprog unit :=
  size ←! context_size;
  let endpoint_id := endpoint_id (ep_address endpoint) in
  if (endpoint_id =? 0) || (32 <=? endpoint_id) || negb (ep_attributes endpoint =? 0x02)
     || (ep_max_packet_size endpoint =? 0)
  then p_err (Command TrbError) else
  add_endpoint_context size endpoint_id input ;!
  let context := as_ptr input + size * (endpoint_id + 1) in
  let endpoint_type := if negb (Z.land (ep_address endpoint) 0x80 =? 0) then 6 else 2 in
  store32 context 0 ;!
  store32 (context + 4)
    (Z.lor (Z.lor (Z.shiftl (ep_max_packet_size endpoint) 16) (Z.shiftl endpoint_type 3)) (Z.shiftl 3 1)) ;!
  store64 (context + 8) (Z.lor (dma_physical_address ring) 1) ;!
  store_trb (as_ptr ring + TRANSFER_RING_ENTRIES * 16) (initial_link ring) ;!
  configure_command register slot input.

(** ** Mass storage *)

(** @ xhci/controller.rs:1973-2029 ControllerResources::msc_command *)
Definition msc_command register slot (endpoint : MscBotInterface) (bulk_in_ring bulk_out_ring : DmaBuffer)
    (p : Pipes) (cbw_buffer csw_buffer data : DmaBuffer) (data_len : Z) (cdb : list Z)
    : xprog (Pipes * result unit InitError) :=
  let tag := wrapping_add 32 (wrap 32 (out_producer p)) 1 in
  let packet := cbw tag (wrap 32 data_len) DirIn 0 cdb in
  store_bytes (as_ptr cbw_buffer) packet ;!
  '(op, oc, r) ←! bulk_transfer register slot (ep_address (msc_bulk_out endpoint)) bulk_out_ring
    (out_producer p) (out_cycle p) cbw_buffer (llen packet);
  let p := p <| out_producer := op |> <| out_cycle := oc |> in
  match r with
  | Err e => p_ret (p, Err e)
  | Ok _ =>
      '(p, r) ←! (if negb (data_len =? 0) then
          '(ip, ic, r) ←! bulk_transfer register slot (ep_address (msc_bulk_in endpoint)) bulk_in_ring
            (in_producer p) (in_cycle p) data data_len;
          p_ret (p <| in_producer := ip |> <| in_cycle := ic |>, r)
        else p_ret (p, Ok (mk_BulkCompletion 0 false)));
      match r with
      | Err e => p_ret (p, Err e)
      | Ok _ =>
          '(ip, ic, r) ←! bulk_transfer register slot (ep_address (msc_bulk_in endpoint)) bulk_in_ring
            (in_producer p) (in_cycle p) csw_buffer CSW_LEN;
          let p := p <| in_producer := ip |> <| in_cycle := ic |> in
          match r with
          | Err e => p_ret (p, Err e)
          | Ok _ =>
              status ←! load_bytes (as_ptr csw_buffer) CSW_LEN;
              p_ret (p, match csw_parse status with
                        | Ok csw => map_err (fun _ => Command TrbError) (csw_validate csw tag data_len)
                        | Err _ => Err (Command TrbError)
                        end)
          end
      end
  end.

(** One command of the probe. *)
Definition probe_command register slot endpoint bulk_in_ring bulk_out_ring p cbw csw data data_len cdb : xprog Pipes :=
  '(p, r) ←! msc_command register slot endpoint bulk_in_ring bulk_out_ring p cbw csw data data_len cdb;
  p_result r ;! p_ret p.

(** The two bulk rings, configured. *)
(** @ xhci/controller.rs:1864-1867 ControllerResources::configure_and_probe_msc -- the rings *)
Definition msc_rings register slot input (endpoint : MscBotInterface) : xprog (DmaBuffer * DmaBuffer) :=
  bulk_in_ring ←! dma_buffer 4096 64 Allocation;
  bulk_out_ring ←! or_drop [bulk_in_ring] (dma_buffer 4096 64 Allocation);
  let rings := [bulk_out_ring; bulk_in_ring] in
  or_drop rings (configure_bulk_endpoint register slot input (msc_bulk_out endpoint) bulk_out_ring) ;!
  or_drop rings (configure_bulk_endpoint register slot input (msc_bulk_in endpoint) bulk_in_ring) ;!
  p_ret (bulk_in_ring, bulk_out_ring).

(** Only a single logical unit is served; a device may stall the request. *)
(** @ xhci/controller.rs:1868-1884 ControllerResources::configure_and_probe_msc -- Get Max LUN *)
Definition msc_max_lun register slot (ep0 : DmaBuffer) (ep0_producer : Z) (endpoint : MscBotInterface)
    : xprog DmaBuffer :=
  max_lun ←! dma_buffer 1 64 Allocation;
  '(_, r) ←! control_transfer register slot ep0 ep0_producer
    (get_max_lun (msc_interface_number endpoint)) (Some max_lun);
  or_drop [max_lun]
    match r with
    | Ok _ => lun ←! load_bytes (as_ptr max_lun) 1;
              if negb (from_le lun =? 0) then p_err (Command TrbError) else p_ret tt
    | Err (Command StallError) => p_ret tt
    | Err e => p_err e
    end ;!
  p_ret max_lun.

(** @ xhci/controller.rs:1885-1887 ControllerResources::configure_and_probe_msc -- the buffers *)
Definition msc_buffers : xprog (DmaBuffer * DmaBuffer * DmaBuffer) :=
  cbw ←! dma_buffer CBW_LEN 64 Allocation;
  csw ←! or_drop [cbw] (dma_buffer CSW_LEN 64 Allocation);
  data ←! or_drop [csw; cbw] (dma_buffer MAX_READ_BYTES 64 Allocation);
  p_ret (cbw, csw, data).

(** @ xhci/controller.rs:1888-1955 ControllerResources::configure_and_probe_msc -- the commands *)
Definition msc_probe register slot (endpoint : MscBotInterface) (bulk_in_ring bulk_out_ring cbw csw data : DmaBuffer)
    : xprog (Pipes * Capacity) :=
  let command p data_len cdb :=
    probe_command register slot endpoint bulk_in_ring bulk_out_ring p cbw csw data data_len cdb in
  p ←! command (mk_Pipes 0 0 true true) 36 inquiry;
  load_bytes (as_ptr data) 36 ;!
  p ←! command p 0 test_unit_ready;
  p ←! command p 8 read_capacity10;
  bytes ←! load_bytes (as_ptr data) 8;
  capacity ←! p_result (map_err (fun _ => Command TrbError) (parse_capacity10 bytes));
  p_ret (p, capacity).

(** @ xhci/controller.rs:1847-1970 ControllerResources::configure_and_probe_msc *)
Definition configure_and_probe_msc register slot (ep0 : DmaBuffer) (ep0_producer : Z) input
    (endpoint : MscBotInterface) : xprog MscResources :=
  '(ep0_producer, r) ←! control_transfer register slot ep0 ep0_producer
    (set_configuration (msc_configuration_value endpoint)) None;
  p_result r ;!
  '(bulk_in_ring, bulk_out_ring) ←! msc_rings register slot input endpoint;
  let rings := [bulk_out_ring; bulk_in_ring] in
  max_lun ←! or_drop rings (msc_max_lun register slot ep0 ep0_producer endpoint);
  '(cbw, csw, data) ←! or_drop (max_lun :: rings) msc_buffers;
  '(p, capacity) ←! or_drop (data :: csw :: cbw :: max_lun :: rings)
    (msc_probe register slot endpoint bulk_in_ring bulk_out_ring cbw csw data);
  drop_buffer max_lun ;!
  p_ret (mk_Msc bulk_in_ring bulk_out_ring endpoint capacity None cbw csw data
           (in_producer p) (out_producer p) (in_cycle p) (out_cycle p)).

(** The device behind a registered block device. *)
Definition is_block_device (id : Z) (d : RootDevice) : bool :=
  match rd_kind d with KindMsc msc => bool_decide (ms_usb_id msc = Some id) | KindHid _ => false end.

Definition with_pipes (p : Pipes) (msc : MscResources) : MscResources :=
  msc <| ms_in_producer := in_producer p |> <| ms_out_producer := out_producer p |>
      <| ms_in_cycle := in_cycle p |> <| ms_out_cycle := out_cycle p |>.

(** [xhci::read_usb_blocks] for one controller: the buffer as it leaves it. *)
(** @ xhci/controller.rs:2031-2096 ControllerResources::read_usb_blocks *)
Definition controller_read_usb_blocks (id lba : Z) (output : list Z) : xprog (list Z * bool) :=
  if (llen output =? 0) || negb (is_multiple_of (llen output) Msc.BLOCK_SIZE) || (MAX_READ_BYTES <? llen output)
     || (U32_MAX <? lba)
  then p_ret (output, false) else
  c ←! self;
  match list_find (fun d => is_block_device id d = true) (ports c) with
  | None => p_ret (output, false)
  | Some (i, device) =>
      match rd_kind device with
      | KindHid _ => p_ret (output, false)
      | KindMsc msc =>
          let count := llen output / Msc.BLOCK_SIZE in
          if match checked_add 64 lba count with Some stop => blocks (ms_capacity msc) <? stop | None => true end
          then p_ret (output, false) else
          '(p, r) ←! msc_command (mk_RegisterBlock (mm_virtual_address (mapping c))) (rd_slot device)
            (ms_endpoint msc) (ms_bulk_in_ring msc) (ms_bulk_out_ring msc)
            (mk_Pipes (ms_in_producer msc) (ms_out_producer msc) (ms_in_cycle msc) (ms_out_cycle msc))
            (ms_cbw msc) (ms_csw msc) (ms_data msc) (llen output) (read10_cdb (wrap 32 lba) (wrap 16 count));
          modify_self (fun c => c <| ports := <[i := device <| rd_kind := KindMsc (with_pipes p msc) |>]> (ports c) |>) ;!
          match r with
          | Err _ => p_ret (output, false)
          | Ok _ => bytes ←! load_bytes (as_ptr (ms_data msc)) (llen output); p_ret (bytes, true)
          end
      end
  end.

(** @ xhci/controller.rs:2098-2114 ControllerResources::read_device_descriptor *)
Definition read_device_descriptor register slot ring (producer : Z) (descriptor : DmaBuffer)
    : xprog (Z * result unit InitError) :=
  control_transfer register slot ring producer (get_descriptor 1 18) (Some descriptor).
End Transfer.
