(* ===== verification/XhcPorts.v ===== *)
(** * The xHCI controller: root ports and devices

    [xhci/controller.rs], third part: resetting a port, bringing a device up on
    it, taking it away, the interrupt transfers of keyboards and mice, and the
    bounded work of one [poll]. *)

From S2P Require Import Prelude Words Dma Machine Trb UsbDesc PortRec Msc Bulk Input Hid UsbBlock XhcState XhcTransfer.

Section Ports.
Context {D I : Type} `{Machine D} `{InputSink I}.
Abbreviation xprog A := (prog (Xhc D I) InitError A).
Implicit Types (register : RegisterBlock) (slot port : Z).

Definition modify_record port (f : PortRecord -> PortRecord) : xprog unit :=
  modify_self (fun c => c <| root_ports := update_record port f (root_ports c) |>).
Definition fail_record port : xprog unit :=
  c ←! self; modify_record port (fun record => mark_failed record (poll_ticks c)).
(** [(portsc >> 10) & 0xf]. *)
Definition port_speed (portsc : Z) : Z := Z.land (Z.shiftr portsc 10) 0xf.

(** ** Interrupt transfers *)

(** @ xhci/controller.rs:503-536 ControllerResources::queue_interrupt_in *)
Definition queue_interrupt_in register (doorbell slot : Z) (hid : HidResources) : xprog HidResources :=
  store_trb (as_ptr (hid_interrupt_ring hid) + hid_producer hid * 16)
    (mk_Trb (dma_physical_address (hid_report hid)) (hid_max_packet_size (hid_endpoint hid))
      (Z.lor (Z.lor TRB_TYPE_NORMAL (Z.shiftl 1 5)) (b2z (hid_cycle hid)))) ;!
  write32 register (doorbell + slot * 4) (endpoint_id (hid_endpoint_address (hid_endpoint hid))) ;!
  '(producer, cycle) ←! advance_producer (hid_interrupt_ring hid) (hid_producer hid) (hid_cycle hid);
  p_ret (hid <| hid_producer := producer |> <| hid_cycle := cycle |>).

(** ** Port reset and slots *)

(** @ xhci/controller.rs:1182-1197 ControllerResources::reset_port *)
Definition reset_port register (offset : Z) : xprog bool :=
  value ←! read32 register offset;
  write32 register offset (Z.lor (Z.lor (Z.lor (Z.land value PORTSC_PP) PORTSC_PR) PORTSC_CSC) PORTSC_PRC) ;!
  wait_for POLL_LIMIT
    (a ←! read32 register offset;
     if negb (Z.land a PORTSC_PR =? 0) then p_ret false else
     b ←! read32 register offset; p_ret (negb (Z.land b PORTSC_PED =? 0))).

(** @ xhci/controller.rs:1496-1512 ControllerResources::release_or_retain_slot_resources *)
Definition release_or_retain_slot_resources register slot (resources : list DmaBuffer) : xprog unit :=
  ok ←! disable_slot register slot;
  if ok : bool then store_dcbaa slot 0 ;! drop_buffers resources else p_ret tt.

(** @ xhci/controller.rs:1514-1525 ControllerResources::release_failed_slot *)
Definition release_failed_slot register slot : xprog unit :=
  ok ←! disable_slot register slot;
  if ok : bool then store_dcbaa slot 0 else p_ret tt.

(** @ xhci/controller.rs:1527-1545 ControllerResources::log_ep0_context *)
Definition log_ep0_context (output : DmaBuffer) : xprog unit :=
  size ←! context_size;
  load32 (as_ptr output + size) ;! load32 (as_ptr output + size + 4) ;! load64 (as_ptr output + size + 8) ;! p_ret tt.

(** [m?] once the slot's context is published: on an error the slot is released
    with [resources], then the buffers [locals] of the scope are dropped. *)
(** @ xhci/controller.rs:1258-1267 ControllerResources::address_port -- fail_published *)
Definition or_release {A} register slot (resources locals : list DmaBuffer) (m : xprog A) : xprog A :=
  r ←! p_try m;
  match r with
  | Ok a => p_ret a
  | Err e => release_or_retain_slot_resources register slot resources ;! drop_buffers locals ;! p_err e
  end.

(** [m?] before that: the slot is released and the scope's buffers dropped. *)
Definition or_free {A} register slot (locals : list DmaBuffer) (m : xprog A) : xprog A :=
  r ←! p_try m;
  match r with
  | Ok a => p_ret a
  | Err e => release_failed_slot register slot ;! drop_buffers locals ;! p_err e
  end.

(** The initial contexts and the address device command. *)
(** @ xhci/controller.rs:1269-1320 ControllerResources::address_port -- the contexts and Address Device *)
Definition publish_contexts register slot port (speed : Z) (input output ep0 : DmaBuffer) : xprog unit :=
  size ←! context_size;
  store_dcbaa slot (dma_physical_address output) ;!
  store32 (as_ptr input + 4) 3 ;!
  store32 (as_ptr input + size) (Z.lor (Z.shiftl speed 20) (Z.shiftl 1 27)) ;!
  store32 (as_ptr input + size + 4) (Z.shiftl port 16) ;!
  store32 (as_ptr input + size * 2 + 4)
    (Z.lor (Z.lor (Z.shiftl (usb2_max_packet speed) 16) (Z.shiftl 4 3)) (Z.shiftl 3 1)) ;!
  store64 (as_ptr input + size * 2 + 8) (Z.lor (dma_physical_address ep0) 1) ;!
  store_trb (as_ptr ep0 + (COMMAND_RING_ENTRIES - 1) * 16) (initial_link ep0) ;!
  submit_command register
    (mk_Trb (dma_physical_address input) 0 (Z.lor TRB_TYPE_ADDRESS_DEVICE (Z.shiftl slot 24))) ;!
  p_ret tt.

(** A control transfer and its result, with the producer index threaded. *)
Definition control_step register slot ep0 (producer : Z) request data : xprog Z :=
  '(producer, r) ←! control_transfer register slot ep0 producer request data;
  p_result r ;! p_ret producer.

Definition from_desc {A} (m : outcome (result A DescriptorError)) : xprog A :=
  r ←! p_lift m; p_result (map_err (fun _ => Command TrbError) r).

(** The configuration descriptor: its header for the length, then all of it. *)
(** @ xhci/controller.rs:1340-1374 ControllerResources::address_port -- reading the configuration *)
Definition read_configuration register slot (ep0 : DmaBuffer) (producer : Z) (published : list DmaBuffer)
    : xprog (Z * DmaBuffer * DmaBuffer * list Z) :=
  config_header ←! or_release register slot published [] (dma_buffer 9 64 Allocation);
  producer ←! or_release register slot published [config_header]
    (control_step register slot ep0 producer (get_descriptor 2 9) (Some config_header));
  header ←! load_bytes (as_ptr config_header) 9;
  let total := from_le (take 2 (drop 2 header)) in
  or_release register slot published [config_header]
    (if (9 <=? total) && (total <=? 4096) then p_ret tt else p_err (Command TrbError)) ;!
  configuration ←! or_release register slot published [config_header] (dma_buffer total 64 Allocation);
  producer ←! or_release register slot published [configuration; config_header]
    (control_step register slot ep0 producer (get_descriptor 2 (wrap 16 total)) (Some configuration));
  config_bytes ←! load_bytes (as_ptr configuration) total;
  p_ret (producer, config_header, configuration, config_bytes).

(** A keyboard or mouse: its configuration, its endpoint and the first request. *)
(** @ xhci/controller.rs:1411-1487 ControllerResources::address_port -- the HID device *)
Definition configure_hid register slot (ep0 : DmaBuffer) (producer : Z) (input : DmaBuffer)
    (endpoint : HidBootEndpoint) (published locals : list DmaBuffer) : xprog HidResources :=
  producer ←! or_release register slot published locals
    (control_step register slot ep0 producer (set_configuration (hid_configuration_value endpoint)) None);
  or_release register slot published locals
    (control_step register slot ep0 producer (set_idle (hid_interface_number endpoint)) None) ;!
  interrupt_ring ←! or_release register slot published locals (dma_buffer 4096 64 Allocation);
  let published := published ++ [interrupt_ring] in
  or_release register slot published locals (configure_endpoint register slot input endpoint interrupt_ring) ;!
  report ←! or_release register slot published locals (dma_buffer (hid_max_packet_size endpoint) 64 Allocation);
  p_ret (mk_Hid interrupt_ring report endpoint 0 true
    (if hid_protocol endpoint =? 1 then InputKeyboard keyboard_new else InputMouse mouse_new)).

(** What the configuration descriptor makes of the device, with its endpoints set up. *)
(** @ xhci/controller.rs:1375-1490 ControllerResources::address_port -- the kind of the device *)
Definition device_kind register slot (ep0 : DmaBuffer) (producer : Z) (input : DmaBuffer) (config_bytes : list Z)
    (published locals : list DmaBuffer) : xprog DeviceKind :=
  r ←! p_lift (parse_configuration config_bytes);
  match r with
  | Err _ =>
      msc_endpoint ←! or_release register slot published locals (from_desc (parse_msc_bot_interface config_bytes));
      msc ←! or_release register slot published locals
        (configure_and_probe_msc register slot ep0 producer input msc_endpoint);
      p_ret (KindMsc msc)
  | Ok endpoint =>
      hid ←! configure_hid register slot ep0 producer input endpoint published locals;
      c ←! self;
      hid ←! queue_interrupt_in register (doorbell c) slot hid;
      p_ret (KindHid hid)
  end.

(** The device on an enabled slot, from its published contexts on. *)
(** @ xhci/controller.rs:1257-1493 ControllerResources::address_port -- the closure *)
Definition address_slot register slot port (speed generation : Z)
    (input output ep0 descriptor : DmaBuffer) : xprog RootDevice :=
  let published := [input; output; ep0; descriptor] in
  or_release register slot published [] (publish_contexts register slot port speed input output ep0) ;!
  log_ep0_context output ;!
  '(producer, r) ←! read_device_descriptor register slot ep0 0 descriptor;
  p_when (negb (is_ok r)) (log_ep0_context output) ;!
  or_release register slot published [] (p_result r) ;!
  '(producer, config_header, configuration, config_bytes) ←! read_configuration register slot ep0 producer published;
  kind ←! device_kind register slot ep0 producer input config_bytes published [configuration; config_header];
  drop_buffer config_header ;!
  p_ret (mk_RootDevice port generation (PortAddressed slot speed (usb2_max_packet speed))
           input output ep0 descriptor configuration kind).

(** @ xhci/controller.rs:1199-1494 ControllerResources::address_port *)
Definition address_port register port (speed generation : Z) : xprog RootDevice :=
  slot ←! submit_command register (mk_Trb 0 0 TRB_TYPE_ENABLE_SLOT);
  if slot =? 0 then p_err (Command Invalid) else
  size ←! context_size;
  input ←! or_free register slot [] (dma_buffer (size * 33) 64 Allocation);
  output ←! or_free register slot [input] (dma_buffer (size * 32) 64 Allocation);
  ep0 ←! or_free register slot [output; input] (dma_buffer 4096 64 Allocation);
  descriptor ←! or_free register slot [ep0; output; input] (dma_buffer 18 64 Allocation);
  address_slot register slot port speed generation input output ep0 descriptor.

(** ** Attaching and removing devices *)

(** The buffers a device drops: its contexts, rings and transfer buffers. *)
Definition kind_buffers (k : DeviceKind) : list DmaBuffer :=
  match k with
  | KindHid hid => [hid_interrupt_ring hid; hid_report hid]
  | KindMsc msc => [ms_bulk_in_ring msc; ms_bulk_out_ring msc; ms_cbw msc; ms_csw msc; ms_data msc]
  end.
Definition device_buffers (d : RootDevice) : list DmaBuffer :=
  [rd_input_context d; rd_output_context d; rd_ep0_ring d; rd_device_descriptor d; rd_configuration_descriptor d]
  ++ kind_buffers (rd_kind d).

(** The block device of a mass-storage device is registered when it is attached. *)
(** @ xhci/controller.rs:1066-1069 ControllerResources::enumerate_port -- the registration *)
Definition attach (device : RootDevice) : xprog unit :=
  device ←! (match rd_kind device with
    | KindMsc msc =>
        fun s =>
          '(usb, id) ← register (x_usb s) (blocks (ms_capacity msc));
          Done (s <| x_usb := usb |>, Ok (device <| rd_kind := KindMsc (msc <| ms_usb_id := Some id |>) |>))
    | KindHid _ => p_ret device
    end);
  modify_self (fun c => c <| ports := ports c ++ [device] |>).

(** @ xhci/controller.rs:1108-1117 ControllerResources::port_is_current *)
Definition port_is_current port (generation : Z) : xprog bool :=
  c ←! self;
  offset ←! port_offset port;
  value ←! read32 (mk_RegisterBlock (mm_virtual_address (mapping c))) offset;
  p_ret (has_bit value PORTSC_CCS
         && existsb (fun record => (pr_port record =? port) && generation_matches record generation) (root_ports c)).

(** [if let Some(record) = ..find(port)]: the stage of a record whose generation
    still matches, or nothing and [false]. *)
Definition stage_current port (generation : Z) (stage : RootPortState) : xprog bool :=
  c ←! self;
  match find_record port (root_ports c) with
  | None => p_ret true
  | Some record =>
      if generation_matches record generation
      then modify_record port (fun record => mark_stage record stage) ;! p_ret true
      else p_ret false
  end.

(** @ xhci/controller.rs:1057-1105 ControllerResources::enumerate_port -- after the stages *)
Definition attach_or_release register port (generation : Z) (r : result RootDevice InitError) : xprog unit :=
  match r with
  | Err _ => fail_record port
  | Ok device =>
      current ←! port_is_current port generation;
      if current : bool then attach device ;! modify_record port mark_active
      else
        ok ←! disable_slot register (rd_slot device);
        if ok : bool then store_dcbaa (rd_slot device) 0 ;! drop_buffers (device_buffers device)
        else modify_self (fun c => c <| ports := ports c ++ [device] |>)
  end.

(** @ xhci/controller.rs:996-1106 ControllerResources::enumerate_port *)
Definition enumerate_port register port (generation : Z) : xprog unit :=
  offset ←! port_offset port;
  portsc ←! read32 register offset;
  if negb (has_bit portsc PORTSC_CCS) then observe_port register port else
  if 4 <=? port_speed portsc then fail_record port else
  current ←! stage_current port generation Resetting;
  if negb current then p_ret tt else
  reset ←! reset_port register offset;
  if negb reset then fail_record port else
  portsc ←! read32 register offset;
  if negb (has_bit portsc PORTSC_CCS) then observe_port register port else
  current ←! stage_current port generation Enumerating;
  if negb current then p_ret tt else
  r ←! p_try (address_port register port (port_speed portsc) generation);
  attach_or_release register port generation r.

(** [record.port == port && record.generation_matches(generation)]. *)
Fixpoint update_current (port generation : Z) (f : PortRecord -> PortRecord) (l : list PortRecord) : list PortRecord :=
  match l with
  | [] => []
  | r :: l => if (pr_port r =? port) && generation_matches r generation then f r :: l
              else r :: update_current port generation f l
  end.
Definition disconnect_record port (generation : Z) : xprog unit :=
  modify_self (fun c => c <| root_ports :=
    update_current port generation (fun record => mark_stage record Disconnected) (root_ports c) |>).

(** The registered block device of an attached device. *)
Definition device_usb_id (d : RootDevice) : option Z :=
  match rd_kind d with KindMsc msc => ms_usb_id msc | KindHid _ => None end.

(** @ xhci/controller.rs:1140-1180 ControllerResources::remove_port *)
Definition remove_port register port (generation : Z) : xprog unit :=
  c ←! self;
  match list_find (fun d => rd_port d = port) (ports c) with
  | None => disconnect_record port generation
  | Some (index, device) =>
      match device_usb_id device with
      | Some id => p_modify (fun s => s <| x_usb := offline (x_usb s) id |>)
      | None => p_ret tt
      end ;!
      ok ←! disable_slot register (rd_slot device);
      if negb ok then p_ret tt else
      store_dcbaa (rd_slot device) 0 ;!
      modify_self (fun c => c <| ports := delete index (ports c) |>) ;!
      drop_buffers (device_buffers device) ;!
      disconnect_record port generation
  end.

(** ** One poll *)

(** What a record asks for: nothing, a removal or an enumeration. *)
(** @ xhci/controller.rs:972-984 ControllerResources::service_root_ports -- the choice *)
Definition port_work (ticks : Z) (record : PortRecord) : option (Z * Z * bool) :=
  match pr_state record with
  | Removing => Some (pr_port record, pr_generation record, false)
  | Debouncing until => if until <=? ticks then Some (pr_port record, pr_generation record, true) else None
  | Failed _ _ => if retry_due record ticks then Some (pr_port record, pr_generation record, true) else None
  | _ => None
  end.
Fixpoint find_work (ticks : Z) (l : list PortRecord) : option (Z * Z * bool) :=
  match l with
  | [] => None
  | r :: l => match port_work ticks r with Some w => Some w | None => find_work ticks l end
  end.

(** @ xhci/controller.rs:962-994 ControllerResources::service_root_ports *)
Definition service_root_ports register : xprog unit :=
  c ←! self;
  p_when (is_multiple_of (poll_ticks c) ROOT_PORT_RESCAN_INTERVAL)
    (p_each (pr_port <$> root_ports c) (observe_port register)) ;!
  p_for ROOT_PORT_WORK_BUDGET
    (c ←! self;
     match find_work (poll_ticks c) (root_ports c) with
     | None => p_ret (Some tt)
     | Some (port, generation, connect) =>
         (if connect : bool then enumerate_port register port generation
          else remove_port register port generation) ;!
         p_ret None
     end)
    (p_ret tt).

(** [state.submit_report(report)]. *)
(** @ xhci/hid.rs:15-17 KeyboardState::submit_report *)
Definition keyboard_submit_report (state : KeyboardState) (report : list Z) : xprog KeyboardState :=
  let '(state, scancodes) := for_each_scancode state report in
  p_each scancodes (fun code s => i ← submit_keyboard_scancode (x_input s) code; Done (s <| x_input := i |>, Ok tt)) ;!
  p_ret state.
(** @ xhci/hid.rs:69-71 MouseState::submit_report *)
Definition mouse_submit_report (state : MouseState) (report : list Z) : xprog MouseState :=
  let '(state, events) := for_each_event state report in
  p_each events (fun event s => i ← submit_mouse_event (x_input s) event; Done (s <| x_input := i |>, Ok tt)) ;!
  p_ret state.

(** The generation of the active record of the device on a slot. *)
(** @ xhci/controller.rs:574-583 ControllerResources::poll -- the current generation *)
Definition active_generation (c : ControllerResources) slot : option Z :=
  '(_, device) ← list_find (fun d => rd_slot d = slot) (ports c);
  '(_, record) ← list_find (fun r => pr_port r = rd_port device /\ pr_state r = Active) (root_ports c);
  Some (pr_generation record).

(** The HID device a transfer event belongs to. *)
(** @ xhci/controller.rs:584-590 ControllerResources::poll -- the device *)
Definition is_event_source (c : ControllerResources) (slot endpoint : Z) (d : RootDevice) : bool :=
  (rd_slot d =? slot) && bool_decide (active_generation c slot = Some (rd_generation d))
  && match rd_kind d with
     | KindHid hid => endpoint_id (hid_endpoint_address (hid_endpoint hid)) =? endpoint
     | KindMsc _ => false
     end.

(** The report behind a completed transfer, given to the input sink. *)
(** @ xhci/controller.rs:608-618 ControllerResources::poll -- the report *)
Definition take_report (hid : HidResources) (residual : Z) : xprog HidResources :=
  let max_packet := hid_max_packet_size (hid_endpoint hid) in
  if residual <=? max_packet then
    report ←! load_bytes (as_ptr (hid_report hid)) (max_packet - residual);
    match hid_input hid with
    | InputKeyboard state => state ←! keyboard_submit_report state report; p_ret (hid <| hid_input := InputKeyboard state |>)
    | InputMouse state => state ←! mouse_submit_report state report; p_ret (hid <| hid_input := InputMouse state |>)
    end
  else p_ret hid.

(** @ xhci/controller.rs:572-619 ControllerResources::poll -- a transfer event *)
Definition transfer_event register (event : Trb) : xprog unit :=
  let slot := wrap 8 (Z.shiftr (control event) 24) in
  let endpoint := wrap 8 (Z.land (Z.shiftr (control event) 16) 0x1f) in
  c ←! self;
  match list_find (fun d => is_event_source c slot endpoint d = true) (ports c) with
  | Some (i, device) =>
      match rd_kind device with
      | KindHid hid =>
          let completion := from_status (status event) in
          hid ←! (if bool_decide (completion = Success) || bool_decide (completion = ShortPacket)
                  then take_report hid (Z.land (status event) 0x00ffffff) else p_ret hid);
          hid ←! queue_interrupt_in register (doorbell c) slot hid;
          modify_self (fun c => c <| ports := <[i := device <| rd_kind := KindHid hid |>]> (ports c) |>)
      | KindMsc _ => p_ret tt
      end
  | None => p_ret tt
  end.

(** One round of the event loop; [Some] leaves it. *)
(** @ xhci/controller.rs:555-620 ControllerResources::poll -- the event loop *)
Definition poll_event register : xprog (option unit) :=
  event ←! next_event;
  c ←! self;
  if negb (eqb (trb_cycle event) (event_cycle c)) then p_ret (Some tt) else
  acknowledge_event register ;!
  match port_status_change_event event with
  | Some port => handle_port_status_change register port ;! p_ret None
  | None =>
      if negb (Z.land (control event) TRB_TYPE_MASK =? TRB_TYPE_TRANSFER_EVENT) then p_ret None
      else transfer_event register event ;! p_ret None
  end.

(** @ xhci/controller.rs:538-622 ControllerResources::poll *)
Definition controller_poll (budget : positive) : xprog unit :=
  c ←! self;
  if negb (healthy c) then p_ret tt else
  let register := mk_RegisterBlock (mm_virtual_address (mapping c)) in
  modify_self (fun c => c <| poll_ticks := wrapping_add 64 (poll_ticks c) 1 |>) ;!
  modify_self (fun c =>
    if interrupt_pending c
    then c <| interrupt_pending := false |> <| logged_interrupt_count := interrupt_count c |> else c) ;!
  p_for budget (poll_event register) (p_ret tt) ;!
  service_root_ports register.
End Ports.
