(* ===== verification/XhcQuiet.v ===== *)
(** * The xHCI controller: what waiting for the hardware may change

    While the driver waits it takes events and records port changes; everything
    else it keeps stays as it was.  The relation [quiet n] says so (with at most
    [n] events taken), and every operation below [submit_command] and the transfer
    functions is shown to return, to access only memory of its live buffers and to
    be quiet, whatever the hardware does. *)

From S2P Require Import Prelude Words Dma Machine Trb UsbDesc PortRec Msc Bulk Input Hid UsbBlock XhcState XhcTransfer XhcPorts.

Lemma command_entries : COMMAND_RING_ENTRIES = 256.
Proof. reflexivity. Qed.
Lemma transfer_entries : TRANSFER_RING_ENTRIES = 255.
Proof. reflexivity. Qed.

(** ** Records *)

(** A record under observation: it never becomes active, and an active record
    that stays active keeps its generation. *)
Definition evolves (r r' : PortRecord) : Prop :=
  pr_port r' = pr_port r /\
  (pr_state r' = Active -> pr_state r = Active /\ pr_generation r' = pr_generation r).
#[global] Instance evolves_preorder : PreOrder evolves.
Proof. split; [done|]. unfold evolves. intros ??? [? Ha] [? Hb]. split; [congruence|]. intros [? ?]%Hb. destruct Ha; [done|]. split; congruence. Qed.

Lemma observe_evolves r v now : evolves r (observe r v now).1.
Proof.
  unfold observe, acknowledge_changes. cbn. destruct (_ || _); [destruct (has_bit v PORTSC_CCS)|]; by split.
Qed.

Lemma Forall2_update_record (R : PortRecord -> PortRecord -> Prop) port f l :
  Reflexive R -> (forall r, R r (f r)) -> Forall2 R l (update_record port f l).
Proof.
  intros Hr Hf. induction l as [|r l IH]; cbn [update_record]; [constructor|].
  case_match; constructor; auto. reflexivity.
Qed.

(** ** The registers *)

(** The mapping of the controller's BAR. *)
Class Bar := bar : MmioMapping.
(** Room for the operational registers with those of 255 ports, for the registers of
    interrupter 0 behind those of the runtime, and for 256 doorbells. *)
Definition OP_LEN : Z := 0x1400.
Definition RT_LEN : Z := 0x40.
Definition DB_LEN : Z := 0x400.

Section Registers.
Context {D : Type} `{MachineLaws D} {B : Bar}.

(** The register block of the mapping; all of it is registers. *)
Record BarRegister := mk_BarRegister {
  bar_block :> RegisterBlock;
  bar_base : base bar_block = mm_virtual_address bar;
  bar_window : window (mm_virtual_address bar) (mm_len bar);
}.
(** An access of [n] bytes at an offset inside the BAR. *)
Definition within (off n : Z) : Prop := 0 <= off /\ off + n <= mm_len bar.
Lemma within_registers (register : BarRegister) off n : 0 <= n -> within off n -> registers (base register + off) n.
Proof. intros Hn [Ho Hl]. rewrite bar_base. apply (bar_window register); lia. Qed.

(** What the controller has found at its offsets lies inside its BAR. *)
Record regs_ok (c : ControllerResources) : Prop := {
  ro_bar : mapping c = bar;
  ro_window : window (mm_virtual_address bar) (mm_len bar);
  ro_op : 0 <= op c /\ op c + OP_LEN <= mm_len bar;
  ro_runtime : 0 <= runtime c /\ runtime c + RT_LEN <= mm_len bar;
  ro_doorbell : 0 <= doorbell c /\ doorbell c + DB_LEN <= mm_len bar;
}.
Program Definition own_register (c : ControllerResources) (Hc : regs_ok c) : BarRegister :=
  {| bar_block := mk_RegisterBlock (mm_virtual_address (mapping c)) |}.
Next Obligation. intros c []. cbn. by rewrite ro_bar0. Qed.
Next Obligation. by intros c []. Qed.
End Registers.

Section Quiet.
Context {D I : Type} `{MachineLaws D} `{InputSink I} {B : Bar}.
Abbreviation St := (Xhc D I).
Implicit Types (s : St) (c : ControllerResources) (register : BarRegister) (b : DmaBuffer).

(** ** The invariant of the controller's own state *)

Record ctl_ok (L : list DmaBuffer) c : Prop := {
  co_consumer : 0 <= event_consumer c < 32;
  co_producer : 0 <= command_producer c < 255;
  co_dcbaa : dcbaa c ∈ L /\ 2048 <= dma_len (dcbaa c);
  co_command_ring : command_ring c ∈ L /\ 4096 <= dma_len (command_ring c);
  co_event_ring : event_ring c ∈ L /\ 512 <= dma_len (event_ring c);
  co_records : Forall (fun r => 1 <= pr_port r <= 255) (root_ports c);
  co_regs : regs_ok c;
}.
Definition inv s : Prop := machine_ok (x_hw s) /\ ctl_ok (live (x_hw s)) (x_ctl s).

(** Only the machine moved. *)
Record touch s s' : Prop := {
  to_inv : inv s';
  to_live : live (x_hw s') = live (x_hw s);
  to_usb : x_usb s' = x_usb s;
  to_input : x_input s' = x_input s;
  to_ctl : x_ctl s' = x_ctl s;
}.

(** The fields that taking events leaves alone. *)
Record same_ctl c c' : Prop := {
  sc_mapping : mapping c' = mapping c;
  sc_dcbaa : dcbaa c' = dcbaa c;
  sc_array : scratchpad_array c' = scratchpad_array c;
  sc_pads : scratchpads c' = scratchpads c;
  sc_command_ring : command_ring c' = command_ring c;
  sc_event_ring : event_ring c' = event_ring c;
  sc_erst : erst c' = erst c;
  sc_runtime : runtime c' = runtime c;
  sc_doorbell : doorbell c' = doorbell c;
  sc_op : op c' = op c;
  sc_context : context_64 c' = context_64 c;
  sc_ports : ports c' = ports c;
  sc_protocols : protocols c' = protocols c;
  sc_ticks : poll_ticks c' = poll_ticks c;
  sc_records : Forall2 evolves (root_ports c) (root_ports c');
}.
Lemma same_ctl_refl c : same_ctl c c.
Proof. by split. Qed.
Lemma same_ctl_trans c1 c2 c3 : same_ctl c1 c2 -> same_ctl c2 c3 -> same_ctl c1 c3.
Proof. intros [] []. split; try congruence. by etrans. Qed.

Record quiet (n : Z) s s' : Prop := {
  qu_inv : inv s';
  qu_live : live (x_hw s') = live (x_hw s);
  qu_usb : x_usb s' = x_usb s;
  qu_input : x_input s' = x_input s;
  qu_ctl : same_ctl (x_ctl s) (x_ctl s');
  qu_healthy : healthy (x_ctl s') = healthy (x_ctl s);
  qu_count : event_count (x_ctl s') <= event_count (x_ctl s) + n;
}.
(** Room for [n] more events in the counter. *)
Definition room (n : Z) s : Prop := event_count (x_ctl s) + n < 2 ^ 64.

Lemma quiet_refl s : inv s -> quiet 0 s s.
Proof. intros. split; try done; try apply same_ctl_refl; lia. Qed.
Lemma quiet_trans n m s1 s2 s3 : quiet n s1 s2 -> quiet m s2 s3 -> quiet (n + m) s1 s3.
Proof.
  intros [] []. split; [done|congruence..|by eapply same_ctl_trans|congruence|lia].
Qed.
Lemma quiet_le n m s s' : quiet n s s' -> n <= m -> quiet m s s'.
Proof. intros [] ?. split; try done. lia. Qed.
Lemma touch_refl s : inv s -> touch s s.
Proof. by split. Qed.
Lemma touch_trans s1 s2 s3 : touch s1 s2 -> touch s2 s3 -> touch s1 s3.
Proof. intros [] []. split; congruence || done. Qed.
Lemma touch_quiet s s' : touch s s' -> quiet 0 s s'.
Proof. intros []. split; rewrite ?to_ctl0; try done; try apply same_ctl_refl; lia. Qed.
Lemma touch_room n s s' : touch s s' -> room n s -> room n s'.
Proof. intros [] ?. unfold room. by rewrite to_ctl0. Qed.
Lemma quiet_room k n s s' : quiet k s s' -> room (k + n) s -> room n s'.
Proof. intros [] ?. unfold room in *. lia. Qed.
Lemma room_le n m s : room n s -> m <= n -> room m s.
Proof. unfold room. lia. Qed.

Lemma touch_machine d s : inv s -> touched (x_hw s) d -> touch s (set_machine d s).
Proof. intros [_ Hc] [Hd Hl]. split; try done. split; [done|]. cbn. by rewrite Hl. Qed.

(** ** Primitive accesses *)

Lemma q_read32 register off s (Q : St -> result Z InitError -> Prop) :
  inv s -> within off 4 -> (forall s' v, touch s s' -> fits 32 v -> Q s' (Ok v)) -> wp (read32 register off) s Q.
Proof. intros Hi Ho HQ. apply wp_read32; [apply Hi|by apply within_registers|]. intros d v Hd Hv. apply HQ; [by apply touch_machine|done]. Qed.
Lemma q_read32_value register off s (Q : St -> result Z InitError -> Prop) :
  inv s -> within off 4 ->
  (forall s' v, touch s s' -> fits 32 v -> machine_ok (x_hw s) -> v = (mmio_read (x_hw s) (mm_virtual_address bar + off) 4).2 -> Q s' (Ok v)) ->
  wp (read32 register off) s Q.
Proof.
  intros Hi Ho HQ. pose proof (within_registers register off 4 ltac:(lia) Ho) as Hr.
  destruct (mmio_read_law (x_hw s) (base register + off) 4 (proj1 Hi) ltac:(lia) Hr) as (H3 & H4 & H5).
  unfold wp, read32. rewrite bar_base in *. change (machine s) with (x_hw s).
  destruct (mmio_read (x_hw s) _ 4) as [d v] eqn:Er. eexists _, _. split; [reflexivity|].
  apply HQ; [by apply touch_machine|done|apply Hi|done].
Qed.
Lemma q_write32 register off v s (Q : St -> result unit InitError -> Prop) :
  inv s -> within off 4 -> (forall s', touch s s' -> Q s' (Ok tt)) -> wp (write32 register off v) s Q.
Proof. intros Hi Ho HQ. apply wp_write32; [apply Hi|by apply within_registers|]. intros d Hd. by apply HQ, touch_machine. Qed.
Lemma q_write64 register off v s (Q : St -> result unit InitError -> Prop) :
  inv s -> within off 8 -> (forall s', touch s s' -> Q s' (Ok tt)) -> wp (write64 register off v) s Q.
Proof. intros Hi Ho HQ. apply wp_write64; [apply Hi|by apply within_registers|]. intros d Hd. by apply HQ, touch_machine. Qed.
Lemma q_load_bytes b a n s (Q : St -> result (list Z) InitError -> Prop) :
  inv s -> b ∈ live (x_hw s) -> in_buffer b a n -> 0 <= n ->
  (forall s' bs, touch s s' -> llen bs = n -> bytes bs -> Q s' (Ok bs)) -> wp (load_bytes a n) s Q.
Proof.
  intros Hi Hb Hin Hn HQ. eapply wp_load_bytes; [apply Hi|done..|].
  intros d bs Hd Hl Hbs. apply HQ; [by apply touch_machine|done..].
Qed.
Lemma q_store_bytes b a bs s (Q : St -> result unit InitError -> Prop) :
  inv s -> b ∈ live (x_hw s) -> in_buffer b a (llen bs) ->
  (forall s', touch s s' -> Q s' (Ok tt)) -> wp (store_bytes a bs) s Q.
Proof. intros Hi Hb Hin HQ. eapply wp_store_bytes; [apply Hi|done..|]. intros d Hd. by apply HQ, touch_machine. Qed.
Lemma q_load32 b a s (Q : St -> result Z InitError -> Prop) :
  inv s -> b ∈ live (x_hw s) -> in_buffer b a 4 ->
  (forall s' v, touch s s' -> fits 32 v -> Q s' (Ok v)) -> wp (load32 a) s Q.
Proof. intros Hi Hb Hin HQ. eapply wp_load32; [apply Hi|done..|]. intros d v Hd Hv. apply HQ; [by apply touch_machine|done]. Qed.
Lemma q_load64 b a s (Q : St -> result Z InitError -> Prop) :
  inv s -> b ∈ live (x_hw s) -> in_buffer b a 8 ->
  (forall s' v, touch s s' -> fits 64 v -> Q s' (Ok v)) -> wp (load64 a) s Q.
Proof. intros Hi Hb Hin HQ. eapply wp_load64; [apply Hi|done..|]. intros d v Hd Hv. apply HQ; [by apply touch_machine|done]. Qed.
Lemma q_store32 b a v s (Q : St -> result unit InitError -> Prop) :
  inv s -> b ∈ live (x_hw s) -> in_buffer b a 4 -> (forall s', touch s s' -> Q s' (Ok tt)) -> wp (store32 a v) s Q.
Proof. intros Hi Hb Hin HQ. eapply wp_store32; [apply Hi|done..|]. intros d Hd. by apply HQ, touch_machine. Qed.
Lemma q_store64 b a v s (Q : St -> result unit InitError -> Prop) :
  inv s -> b ∈ live (x_hw s) -> in_buffer b a 8 -> (forall s', touch s s' -> Q s' (Ok tt)) -> wp (store64 a v) s Q.
Proof. intros Hi Hb Hin HQ. eapply wp_store64; [apply Hi|done..|]. intros d Hd. by apply HQ, touch_machine. Qed.

Lemma llen_trb_bytes t : llen (trb_bytes t) = 16.
Proof. unfold trb_bytes, llen. by rewrite !length_app, !length_to_le. Qed.
Lemma trb_of_bytes_wf bs : llen bs = 16 -> bytes bs -> trb_wf (trb_of_bytes bs).
Proof.
  intros Hl Hb. unfold llen in Hl. unfold trb_wf, trb_of_bytes. cbn [parameter status control].
  split_and!; [apply (from_le_fits _ 8)|apply (from_le_fits _ 4)|apply (from_le_fits _ 4)];
    unfold llen; rewrite ?length_take, ?length_drop; try lia; unfold bytes in *; auto using Forall_take, Forall_drop.
Qed.
Lemma q_load_trb b a s (Q : St -> result Trb InitError -> Prop) :
  inv s -> b ∈ live (x_hw s) -> in_buffer b a 16 ->
  (forall s' t, touch s s' -> trb_wf t -> Q s' (Ok t)) -> wp (load_trb a) s Q.
Proof.
  intros Hi Hb Hin HQ. apply wp_bind. eapply q_load_bytes; [done..|lia|].
  intros s' bs Ht Hl Hbs. apply wp_ret, HQ; [done|by apply trb_of_bytes_wf].
Qed.
Lemma q_store_trb b a t s (Q : St -> result unit InitError -> Prop) :
  inv s -> b ∈ live (x_hw s) -> in_buffer b a 16 -> (forall s', touch s s' -> Q s' (Ok tt)) -> wp (store_trb a t) s Q.
Proof. intros Hi Hb Hin HQ. eapply q_store_bytes; [done..| |done]. by rewrite llen_trb_bytes. Qed.

Lemma q_self s (Q : St -> result ControllerResources InitError -> Prop) : Q s (Ok (x_ctl s)) -> wp self s Q.
Proof. intros HQ. by exists s, (Ok (x_ctl s)). Qed.
Lemma q_modify_self f s (Q : St -> result unit InitError -> Prop) :
  Q (s <| x_ctl := f (x_ctl s) |>) (Ok tt) -> wp (modify_self f) s Q.
Proof. intros HQ. by apply wp_modify. Qed.

Lemma in_slots b n i w : 0 <= i -> i * w + w <= n -> n <= dma_len b -> 0 <= w -> in_buffer b (as_ptr b + i * w) w.
Proof. unfold in_buffer, as_ptr. intros. nia. Qed.
Lemma in_offset b i w : 0 <= i -> i + w <= dma_len b -> in_buffer b (as_ptr b + i) w.
Proof. unfold in_buffer, as_ptr. lia. Qed.
Lemma in_start b w : w <= dma_len b -> in_buffer b (as_ptr b) w.
Proof. unfold in_buffer, as_ptr. lia. Qed.

(** ** Symbolic steps *)

Lemma touch_inv s s' : touch s s' -> inv s'.
Proof. apply to_inv. Qed.
Lemma quiet_inv n s s' : quiet n s s' -> inv s'.
Proof. apply qu_inv. Qed.
End Quiet.

(** [inv] of the current state from the step that reached it. *)
Ltac invs := first [assumption | eapply touch_inv; eassumption | eapply quiet_inv; eassumption].
(** An offset the controller keeps lies inside the BAR. *)
Ltac inregs :=
  match goal with
  | H : within ?o _ |- within ?o _ => exact H
  | |- context [x_ctl ?s] =>
      let H := fresh in
      assert (inv s) as H by invs; destruct (co_regs _ _ (proj2 H)) as [_ _ ? ? ?];
      unfold within, fits, OP_LEN, RT_LEN, DB_LEN, RT_INTR0, ERDP, IMAN, USBCMD, USBSTS, PORTSC, DB_TARGET in *; lia
  end.
(** Compose the steps between two states. *)
Ltac touches :=
  lazymatch goal with
  | |- touch ?a ?a => apply touch_refl; invs
  | |- touch ?a ?b =>
      match goal with
      | H : touch a b |- _ => exact H
      | H : touch ?x b |- _ => refine (touch_trans _ _ _ _ H); touches
      end
  end.
Ltac quiets_raw :=
  lazymatch goal with
  | |- quiet _ ?a ?b =>
      match goal with
      | H : quiet _ a b |- _ => exact H
      | H : touch a b |- _ => exact (touch_quiet _ _ H)
      | H : quiet _ ?x b |- _ => refine (quiet_trans _ _ _ _ _ _ H); quiets_raw
      | H : touch ?x b |- _ => refine (quiet_trans _ _ _ _ _ _ (touch_quiet _ _ H)); quiets_raw
      | _ => apply quiet_refl; invs
      end
  end.
Ltac quiets := eapply quiet_le; [quiets_raw|lia].
Ltac q_pure :=
  repeat (first [wp_pure | match goal with |- wp self _ _ => apply q_self end]; cbv beta iota).

Section Events.
Context {D I : Type} `{MachineLaws D} `{InputSink I} {B : Bar}.
Abbreviation St := (Xhc D I).
Implicit Types (s : St) (c : ControllerResources) (register : BarRegister) (b : DmaBuffer).

Lemma ctl_ok_same L c c' :
  ctl_ok L c -> same_ctl c c' -> 0 <= event_consumer c' < 32 -> 0 <= command_producer c' < 255 -> ctl_ok L c'.
Proof.
  intros [] [] ? ?.
  split; [done|done|by rewrite sc_dcbaa0|by rewrite sc_command_ring0|by rewrite sc_event_ring0| |].
  2: { destruct co_regs0. split; rewrite ?sc_mapping0, ?sc_op0, ?sc_runtime0, ?sc_doorbell0; done. }
  clear -sc_records0 co_records0. induction sc_records0 as [|r r' l l' [Hp _] _ IH]; [constructor|].
    apply Forall_cons in co_records0 as [? ?]. constructor; [lia|auto].
Qed.

(** A step of the controller's own fields. *)
Lemma quiet_ctl n c s :
  inv s -> same_ctl (x_ctl s) c -> healthy c = healthy (x_ctl s) ->
  0 <= event_consumer c < 32 -> 0 <= command_producer c < 255 ->
  event_count c <= event_count (x_ctl s) + n ->
  quiet n s (s <| x_ctl := c |>).
Proof. intros [? ?] ? ? ? ? ?. split; try done. split; [done|]. cbn. by eapply ctl_ok_same. Qed.

Lemma quiet_observe_record port v s : inv s -> quiet 0 s (s <| x_ctl := observe_record port v (x_ctl s) |>).
Proof.
  intros Hi. apply quiet_ctl; cbn; try done; [|apply Hi..|lia].
  split; try done. cbn. apply Forall2_update_record; [apply _|]. intros r.
  destruct (_ && _ && _); [|apply observe_evolves]. by split.
Qed.

Lemma q_port_offset port s (Q : St -> result Z InitError -> Prop) :
  inv s -> 1 <= port <= 255 -> (forall off, within off 4 -> Q s (Ok off)) -> wp (port_offset port) s Q.
Proof.
  intros Hi Hp HQ. unfold port_offset. q_pure. apply wp_lift with (port - 1); [|apply wp_ret, HQ; inregs].
  unfold sub_ovf. by destruct (Z.leb_spec 1 port); [|lia].
Qed.

Lemma q_handle_port_status_change register port s (Q : St -> result unit InitError -> Prop) :
  inv s -> 0 <= port <= 255 -> (forall s', quiet 0 s s' -> Q s' (Ok tt)) -> wp (handle_port_status_change register port) s Q.
Proof.
  intros Hi Hp HQ. unfold handle_port_status_change. destruct (Z.eqb_spec port 0).
  { apply wp_ret, HQ. by apply quiet_refl. }
  apply wp_bind, q_port_offset; [done|lia|]. intros off Hoff. q_pure. apply q_read32; [done|inregs|]. intros s1 v T1 _.
  q_pure; [apply q_write32; [invs|inregs|]; intros s2 T2|]; apply q_modify_self, HQ;
    (eapply quiet_le; [eapply (quiet_trans _ 0); [|apply quiet_observe_record; invs]; quiets_raw|lia]).
Qed.

Lemma q_observe_port register port s (Q : St -> result unit InitError -> Prop) :
  inv s -> 1 <= port <= 255 -> (forall s', quiet 0 s s' -> Q s' (Ok tt)) -> wp (observe_port register port) s Q.
Proof.
  intros Hi Hp HQ. unfold observe_port. apply wp_bind, q_port_offset; [done|lia|]. intros off Hoff.
  q_pure. apply q_read32; [done|inregs|]. intros s1 v T1 _.
  q_pure; [apply q_port_offset; [invs|done|]; intros off2 Hoff2; apply q_write32; [invs|inregs|]; intros s2 T2|]; apply q_modify_self, HQ;
    (eapply quiet_le; [eapply (quiet_trans _ 0); [|apply quiet_observe_record; invs]; quiets_raw|lia]).
Qed.

(** ** Taking an event *)

Lemma q_next_event s (Q : St -> result Trb InitError -> Prop) :
  inv s -> (forall s' t, touch s s' -> trb_wf t -> Q s' (Ok t)) -> wp next_event s Q.
Proof.
  intros Hi HQ. unfold next_event. q_pure. destruct Hi as [Hm [? ? ? ? [Hin Hlen] ? ?]] eqn:E.
  apply (q_load_trb (event_ring (x_ctl s))); [by split|done| |done].
  apply (in_slots _ 512); lia.
Qed.

Lemma q_acknowledge_registers register s (Q : St -> result unit InitError -> Prop) :
  inv s -> (forall s', touch s s' -> Q s' (Ok tt)) -> wp (acknowledge_registers register) s Q.
Proof.
  intros Hi HQ. unfold acknowledge_registers. q_pure. apply q_write64; [done|inregs|]. intros s1 T1.
  q_pure. apply q_read32; [invs|inregs|]. intros s2 v T2 _. q_pure. apply q_write32; [invs|inregs|]. intros s3 T3.
  apply q_write32; [invs|inregs|]. intros s4 T4. apply HQ. touches.
Qed.

Lemma q_count_event s (Q : St -> result unit InitError -> Prop) :
  inv s -> room 1 s -> (forall s', quiet 1 s s' -> Q s' (Ok tt)) -> wp count_event s Q.
Proof.
  intros Hi Hr HQ. unfold count_event. q_pure.
  apply wp_lift with (event_count (x_ctl s) + 1).
  { unfold add_ovf, room in *. by destruct (Z.ltb_spec (event_count (x_ctl s) + 1) (2 ^ 64)); [|lia]. }
  apply q_modify_self, HQ. apply quiet_ctl; try done; try apply Hi; first [cbn; lia|by split].
Qed.

Lemma quiet_advance_consumer s : inv s -> quiet 0 s (s <| x_ctl := advance_consumer (x_ctl s) |>).
Proof.
  intros Hi. pose proof (Z.mod_pos_bound (event_consumer (x_ctl s) + 1) 32).
  unfold advance_consumer, EVENT_RING_ENTRIES.
  destruct (_ =? 0); apply quiet_ctl; try done; try apply Hi; cbn; first [lia|by split].
Qed.

Lemma quiet_advance_command_consumer s :
  inv s -> quiet 0 s (s <| x_ctl := advance_command_consumer (x_ctl s) |>).
Proof.
  intros Hi. pose proof (co_consumer _ _ (proj2 Hi)).
  unfold advance_command_consumer, EVENT_RING_ENTRIES.
  cbn [event_consumer update]. destruct (Z.eqb_spec (event_consumer (x_ctl s) + 1) 32);
    apply quiet_ctl; try done; try apply Hi; cbn; first [lia|by split].
Qed.

Lemma q_acknowledge_event register s (Q : St -> result unit InitError -> Prop) :
  inv s -> room 1 s -> (forall s', quiet 1 s s' -> Q s' (Ok tt)) -> wp (acknowledge_event register) s Q.
Proof.
  intros Hi Hr HQ. unfold acknowledge_event. q_pure. apply q_modify_self. q_pure.
  pose proof (quiet_advance_consumer s Hi) as Q0. set (s0 := s <| x_ctl := _ |>) in *.
  apply q_count_event; [invs|by eapply (quiet_room 0); [exact Q0|]|]. intros s1 Q1.
  apply q_acknowledge_registers; [invs|]. intros s2 T2. apply HQ. quiets.
Qed.
(** ** Waiting for a completion *)

Lemma port_event_range t port : port_status_change_event t = Some port -> 0 <= port <= 255.
Proof.
  unfold port_status_change_event. destruct (negb _); [done|]. destruct (negb _); [|done].
  intros [= <-]. pose proof (fits_wrap 8 (Z.land (parameter t) 0xff) ltac:(lia)) as Hf. unfold fits in Hf. lia.
Qed.

(** The read of the status register that lets an emulated controller advance. *)
Lemma q_yield (b : bool) register off s (Q : St -> result unit InitError -> Prop) :
  inv s -> within off 4 -> (forall s', touch s s' -> Q s' (Ok tt)) -> wp (p_when b (read32 register off ;! p_ret tt)) s Q.
Proof.
  intros Hi Ho HQ. q_pure; [apply q_read32; [done|done|]; intros s1 v T1 _; by apply wp_ret, HQ|]. by apply HQ, touch_refl.
Qed.

Lemma q_poll_command register addr s (Q : St -> result Z InitError -> Prop) :
  inv s -> room 100000 s ->
  (forall s' r, quiet 100000 s s' -> (forall slot, r = Ok slot -> fits 8 slot) -> Q s' r) ->
  wp (poll_command register addr) s Q.
Proof.
  intros Hi Hr HQ. unfold poll_command.
  eapply (wp_for _ _ _ (fun n s' => quiet (Z.of_nat n) s s')); [by apply quiet_refl| |].
  - intros n s1 Hn Q1.
    assert (Z.of_nat n < 100000) as Hn' by (unfold POLL_LIMIT in Hn; lia).
    q_pure. apply q_next_event; [invs|]. intros s2 t T2 Ht. q_pure.
    destruct (negb _); q_pure; [quiets|]. apply q_modify_self. q_pure.
    pose proof (quiet_advance_command_consumer s2 ltac:(invs)) as Q2. set (s3 := s2 <| x_ctl := _ |>) in *.
    assert (room 1 s3) as Hr3.
    { apply (quiet_room (Z.of_nat n) 1 s s3); [quiets|by eapply room_le; [exact Hr|lia]]. }
    apply q_count_event; [invs|done|]. intros s4 Q4. q_pure.
    apply q_acknowledge_registers; [invs|]. intros s5 T5.
    destruct (port_status_change_event t) as [port|] eqn:Ep; [|destruct (command_completion t addr) as [code|]].
    + q_pure. apply q_handle_port_status_change; [invs|by eapply port_event_range|]. intros s6 Q6.
      q_pure. quiets.
    + destruct code; q_pure; (apply HQ; [quiets|]); try done. intros slot [= <-]. apply fits_wrap. lia.
    + q_pure. quiets.
  - intros s1 Q1. q_pure. apply HQ; [|done]. by rewrite positive_nat_Z in Q1.
Qed.

Lemma q_poll_transfer register addr s (Q : St -> result unit InitError -> Prop) :
  inv s -> (forall s' r, quiet 0 s s' -> Q s' r) -> wp (poll_transfer register addr) s Q.
Proof.
  intros Hi HQ. unfold poll_transfer.
  eapply (wp_for_ix _ _ _ (fun _ s' => quiet 0 s s')); [by apply quiet_refl| |].
  - intros n s1 _ Q1. apply wp_bind, q_self, wp_bind, q_yield; [invs|inregs|]. intros s2 T2.
    q_pure. apply q_next_event; [invs|]. intros s3 t T3 Ht.
    destruct (negb _); q_pure; [quiets|]. apply q_modify_self. q_pure.
    pose proof (quiet_advance_consumer s3 ltac:(invs)) as Q3. set (s4 := s3 <| x_ctl := _ |>) in *.
    apply q_acknowledge_registers; [invs|]. intros s5 T5.
    destruct (port_status_change_event t) as [port|] eqn:Ep; q_pure.
    + apply q_handle_port_status_change; [invs|by eapply port_event_range|]. intros s6 Q6. q_pure. quiets.
    + destruct (_ && _); [destruct (from_status _)|]; q_pure; try (apply HQ); quiets.
  - intros s1 Q1. q_pure. apply q_read32; [invs|inregs|]. intros s2 v T2 _. q_pure. apply HQ. quiets.
Qed.

Lemma q_poll_bulk_completion register addr s (Q : St -> result (CompletionCode * Z) InitError -> Prop) :
  inv s -> room 100000000 s ->
  (forall s' r, quiet 100000000 s s' -> (forall code n, r = Ok (code, n) -> 0 <= n) -> Q s' r) ->
  wp (poll_bulk_completion register addr) s Q.
Proof.
  intros Hi Hr HQ. unfold poll_bulk_completion.
  eapply (wp_for_ix _ _ _ (fun n s' => quiet (Z.of_nat n) s s')); [by apply quiet_refl| |].
  - intros n s1 Hn Q1. assert (Z.of_nat n < 100000000) as Hn' by (unfold TRANSFER_POLL_LIMIT in Hn; lia).
    apply wp_bind, q_self, wp_bind, q_yield; [invs|inregs|]. intros s2 T2.
    q_pure. apply q_next_event; [invs|]. intros s3 t T3 Ht.
    destruct (negb _); q_pure; [quiets|].
    assert (room 1 s3) as Hr3.
    { apply (quiet_room (Z.of_nat n) 1 s s3); [quiets|by eapply room_le; [exact Hr|lia]]. }
    apply q_acknowledge_event; [invs|done|]. intros s4 Q4.
    destruct (port_status_change_event t) as [port|] eqn:Ep; q_pure.
    + apply q_handle_port_status_change; [invs|by eapply port_event_range|]. intros s5 Q5. q_pure. quiets.
    + destruct (_ && _); q_pure; [|quiets]. apply HQ; [quiets|]. intros code k [= _ <-]. apply Z.land_nonneg. lia.
  - intros s1 Q1. q_pure. apply HQ; [|done]. by rewrite positive_nat_Z in Q1.
Qed.

(** ** Commands *)

Lemma q_store_dcbaa slot v s (Q : St -> result unit InitError -> Prop) :
  inv s -> fits 8 slot -> (forall s', touch s s' -> Q s' (Ok tt)) -> wp (store_dcbaa slot v) s Q.
Proof.
  intros Hi Hs HQ. unfold store_dcbaa. q_pure. destruct (co_dcbaa _ _ (proj2 Hi)) as [Hin Hl].
  unfold fits in Hs. apply (q_store64 (dcbaa (x_ctl s))); [done..| |done]. apply (in_slots _ 2048); lia.
Qed.

(** The room every command needs. *)
Definition COMMAND_EVENTS : Z := 100000.

Lemma q_submit_command register cmd s (Q : St -> result Z InitError -> Prop) :
  inv s -> room COMMAND_EVENTS s ->
  (forall s' r, quiet COMMAND_EVENTS s s' -> (forall slot, r = Ok slot -> fits 8 slot) -> Q s' r) ->
  wp (submit_command register cmd) s Q.
Proof.
  intros Hi Hr HQ. unfold submit_command. q_pure.
  destruct (co_command_ring _ _ (proj2 Hi)) as [Hin Hl]. pose proof (co_producer _ _ (proj2 Hi)) as Hp.
  apply (q_store_trb (command_ring (x_ctl s))); [done..|apply (in_slots _ 4096); lia|]. intros s1 T1.
  q_pure. apply q_write32; [invs|inregs|]. intros s2 T2.
  apply wp_bind, q_modify_self, wp_bind, q_self. cbn [x_ctl update command_producer].
  assert (x_ctl s2 = x_ctl s) as Ec by (rewrite (to_ctl _ _ T2); apply T1).
  assert (forall c, same_ctl (x_ctl s) c -> healthy c = healthy (x_ctl s) -> event_consumer c = event_consumer (x_ctl s) ->
    0 <= command_producer c < 255 -> event_count c = event_count (x_ctl s) -> quiet 0 s2 (s2 <| x_ctl := c |>)) as Hq.
  { intros c ? ? He ? Hc. apply quiet_ctl; rewrite ?Ec, ?He, ?Hc; [invs|done|done|apply Hi|done|lia]. }
  rewrite Ec. apply wp_bind, wp_when; intros Hw.
  - apply wp_bind, q_modify_self, wp_bind, q_self. cbn [x_ctl update command_ring command_cycle].
    match goal with |- wp _ (?x) _ => set (s3 := x) end.
    assert (quiet 0 s2 s3) as Q3 by (by apply Hq).
    apply (q_store_trb (command_ring (x_ctl s))); [invs| |apply (in_slots _ 4096); rewrite ?command_entries; lia|].
    { rewrite (qu_live _ _ _ Q3), (to_live _ _ T2), (to_live _ _ T1). done. }
    intros s4 T4. q_pure. apply q_poll_command; [invs| |].
    { apply (quiet_room 0 _ s s4); [quiets|done]. }
    intros s5 r Q5 Hslot. apply HQ; [unfold COMMAND_EVENTS; quiets|done].
  - q_pure. match goal with |- wp _ (?x) _ => set (s3 := x) end.
    assert (quiet 0 s2 s3) as Q3.
    { apply Hq; try done; cbn. reflect_bools. rewrite command_entries in Hw. lia. }
    apply q_poll_command; [invs| |].
    { apply (quiet_room 0 _ s s3); [quiets|done]. }
    intros s5 r Q5 Hslot. apply HQ; [unfold COMMAND_EVENTS; quiets|done].
Qed.
Lemma q_wait_for p (ready : prog St InitError bool) s (Q : St -> result bool InitError -> Prop) :
  inv s ->
  (forall s1 (P : St -> result bool InitError -> Prop), inv s1 ->
    (forall s2 ok, touch s1 s2 -> P s2 (Ok ok)) -> wp ready s1 P) ->
  (forall s' ok, touch s s' -> Q s' (Ok ok)) -> wp (wait_for p ready) s Q.
Proof.
  intros Hi Hb HQ. unfold wait_for. eapply (wp_for _ _ _ (fun _ s' => touch s s')); [by apply touch_refl| |].
  - intros n s1 _ T1. apply wp_bind, Hb; [invs|]. intros s2 ok T2. destruct ok; q_pure; [apply HQ|]; touches.
  - intros s1 T1. q_pure. by apply HQ.
Qed.

Lemma q_reset_port register off s (Q : St -> result bool InitError -> Prop) :
  inv s -> within off 4 -> (forall s' ok, touch s s' -> Q s' (Ok ok)) -> wp (reset_port register off) s Q.
Proof.
  intros Hi Ho HQ. unfold reset_port. q_pure. apply q_read32; [done|done|]. intros s1 v T1 _.
  q_pure. apply q_write32; [invs|done|]. intros s2 T2. apply q_wait_for; [invs| |].
  - intros s3 P Hi3 HP. q_pure. apply q_read32; [invs|done|]. intros s4 v4 T4 _.
    destruct (negb _); q_pure; [by apply HP|]. apply q_read32; [invs|done|]. intros s5 v5 T5 _. q_pure. apply HP. touches.
  - intros s3 ok T3. apply HQ. touches.
Qed.

(** ** Transfers *)

Lemma q_ring_doorbell register slot v s (Q : St -> result unit InitError -> Prop) :
  inv s -> fits 8 slot -> (forall s', touch s s' -> Q s' (Ok tt)) -> wp (ring_doorbell register slot v) s Q.
Proof. intros Hi Hs HQ. unfold ring_doorbell. q_pure. apply q_write32; [done|inregs|done]. Qed.

Lemma touch_live s s' b : touch s s' -> b ∈ live (x_hw s) -> b ∈ live (x_hw s').
Proof. intros []. by rewrite to_live0. Qed.
Lemma quiet_live n s s' b : quiet n s s' -> b ∈ live (x_hw s) -> b ∈ live (x_hw s').
Proof. intros []. by rewrite qu_live0. Qed.
End Events.

(** A buffer is still live after the steps taken since it was known to be. *)
Ltac lives :=
  first [assumption | match goal with
    | H : touch ?x ?s |- _ ∈ live (x_hw ?s) => apply (touch_live x s _ H); lives
    | H : quiet _ ?x ?s |- _ ∈ live (x_hw ?s) => apply (quiet_live _ x s _ H); lives
    end].

Section Transfers.
Context {D I : Type} `{MachineLaws D} `{InputSink I} {B : Bar}.
Abbreviation St := (Xhc D I).
Implicit Types (s : St) (c : ControllerResources) (register : BarRegister) (b : DmaBuffer).

Definition is_ring b s : Prop := b ∈ live (x_hw s) /\ 4096 <= dma_len b.
Lemma touch_ring s s' b : touch s s' -> is_ring b s -> is_ring b s'.
Proof. intros ? []. split; [by eapply touch_live|done]. Qed.
Lemma quiet_ring n s s' b : quiet n s s' -> is_ring b s -> is_ring b s'.
Proof. intros ? []. split; [by eapply quiet_live|done]. Qed.

(** Storing a TRB in a ring. *)
Lemma q_store_ring b i t s (Q : St -> result unit InitError -> Prop) a :
  inv s -> is_ring b s -> 0 <= i < 256 -> a = as_ptr b + i * 16 ->
  (forall s', touch s s' -> Q s' (Ok tt)) -> wp (store_trb a t) s Q.
Proof. intros Hi [Hb Hl] Hr -> HQ. apply (q_store_trb b); [done..|apply (in_slots _ 4096); lia|done]. Qed.

Lemma q_control_transfer register slot ring producer request data s
    (Q : St -> result (Z * result unit InitError) InitError -> Prop) :
  inv s -> fits 8 slot -> is_ring ring s -> 0 <= producer ->
  (forall s' p r, quiet 0 s s' -> 0 <= p -> Q s' (Ok (p, r))) ->
  wp (control_transfer register slot ring producer request data) s Q.
Proof.
  intros Hi Hs Hr Hp HQ. unfold control_transfer. rewrite transfer_entries.
  destruct data as [buffer|]; case Z.ltb_spec; intros ?;
    try (apply wp_ret, HQ; [by apply quiet_refl|done]).
  - apply wp_bind, (q_store_ring ring producer); [done..|lia|done|]. intros s1 T1.
    apply wp_bind, (q_store_ring ring (producer + 1)); [invs|by eapply touch_ring|lia|lia|]. intros s2 T2.
    apply wp_bind, (q_store_ring ring (producer + 2)); [invs|eapply touch_ring; [|done]; touches|lia|lia|]. intros s3 T3.
    apply wp_bind, q_ring_doorbell; [invs|done|]. intros s4 T4. apply wp_bind, wp_try, q_poll_transfer; [invs|].
    intros s5 r Q5. apply wp_ret, HQ; [quiets|lia].
  - apply wp_bind, (q_store_ring ring producer); [done..|lia|done|]. intros s1 T1.
    apply wp_bind, (q_store_ring ring (producer + 1)); [invs|by eapply touch_ring|lia|lia|]. intros s2 T2.
    apply wp_bind, q_ring_doorbell; [invs|done|]. intros s4 T4. apply wp_bind, wp_try, q_poll_transfer; [invs|].
    intros s5 r Q5. apply wp_ret, HQ; [quiets|lia].
Qed.

Lemma q_advance_producer ring producer cycle s (Q : St -> result (Z * bool) InitError -> Prop) :
  inv s -> is_ring ring s -> 0 <= producer < 255 ->
  (forall s' p (cy : bool), touch s s' -> 0 <= p < 255 -> Q s' (Ok (p, cy))) ->
  wp (advance_producer ring producer cycle) s Q.
Proof.
  intros Hi Hr Hp HQ. unfold advance_producer. rewrite transfer_entries.
  destruct (Z.eqb_spec (producer + 1) 255); q_pure.
  - apply (q_store_ring ring 255); [done..|lia|done|]. intros s1 T1. q_pure. apply HQ; [done|lia].
  - apply HQ; [by apply touch_refl|lia].
Qed.

(** The room a bulk transfer needs. *)
Definition TRANSFER_EVENTS : Z := 100000000.

Lemma q_bulk_transfer register slot ep ring producer cycle buffer len s
    (Q : St -> result (Z * bool * result BulkCompletion InitError) InitError -> Prop) :
  inv s -> fits 8 slot -> room TRANSFER_EVENTS s -> is_ring ring s -> 0 <= producer < 255 ->
  (forall s' p (cy : bool) r, quiet TRANSFER_EVENTS s s' -> 0 <= p < 255 -> Q s' (Ok (p, cy, r))) ->
  wp (bulk_transfer register slot ep ring producer cycle buffer len) s Q.
Proof.
  intros Hi Hs Hro Hr Hp HQ. unfold bulk_transfer. rewrite transfer_entries.
  assert (quiet TRANSFER_EVENTS s s) as Q0 by (eapply quiet_le; [by apply quiet_refl|unfold TRANSFER_EVENTS; lia]).
  destruct (_ || _); [by apply wp_ret, HQ|].
  destruct (normal_trb _ _ _ _); [|by apply wp_ret, HQ]. clear Q0.
  apply wp_bind, (q_store_ring ring producer); [done..|lia|done|]. intros s1 T1.
  apply wp_bind, q_ring_doorbell; [invs|done|]. intros s2 T2.
  apply wp_bind, wp_try, q_poll_bulk_completion; [invs|eapply touch_room; [|exact Hro]; touches|].
  intros s3 r Q3 Hres. destruct r as [[code residual]|e]; q_pure; [|by apply HQ; [unfold TRANSFER_EVENTS; quiets|]].
  apply q_advance_producer; [invs|eapply quiet_ring; [|exact Hr]; quiets_raw|done|]. intros s4 p cy T4 Hp4.
  q_pure. apply HQ; [unfold TRANSFER_EVENTS; quiets|done].
Qed.
End Transfers.

(** [room] of a later state from [room] of the first. *)
Ltac rooms :=
  match goal with
  | H : room ?k ?a |- room ?n ?b =>
      first [ eapply room_le; [exact H|lia]
            | let T := fresh in eassert (quiet _ a b) as T by quiets_raw;
              eapply (quiet_room _ n _ _ T); eapply room_le; [exact H|lia] ]
  end.

Section Configure.
Context {D I : Type} `{MachineLaws D} `{InputSink I} {B : Bar}.
Abbreviation St := (Xhc D I).
Implicit Types (s : St) (c : ControllerResources) (register : BarRegister) (b : DmaBuffer).

(** ** Endpoints *)

Definition csize s : Z := if context_64 (x_ctl s) then 64 else 32.
Definition is_input b s : Prop := b ∈ live (x_hw s) /\ csize s * 33 <= dma_len b.
Lemma csize_same s s' : same_ctl (x_ctl s) (x_ctl s') -> csize s' = csize s.
Proof. intros []. unfold csize. by rewrite sc_context0. Qed.
Lemma csize_range s : 32 <= csize s <= 64.
Proof. unfold csize. destruct (context_64 _); lia. Qed.

Lemma q_context_size s (Q : St -> result Z InitError -> Prop) : Q s (Ok (csize s)) -> wp context_size s Q.
Proof. intros HQ. unfold context_size. q_pure. exact HQ. Qed.

(** Any word of an input context up to its last endpoint. *)
Lemma in_context b s off w :
  is_input b s -> 0 <= off -> off + w <= csize s * 33 -> in_buffer b (as_ptr b + off) w.
Proof. intros [_ ?] ? ?. apply in_offset; lia. Qed.

Lemma q_add_endpoint_context id input s (Q : St -> result unit InitError -> Prop) :
  inv s -> is_input input s -> (forall s', touch s s' -> Q s' (Ok tt)) ->
  wp (add_endpoint_context (csize s) id input) s Q.
Proof.
  intros Hi Hin HQ. unfold add_endpoint_context. pose proof (csize_range s).
  apply wp_bind, (q_store32 input); [done|apply Hin|apply (in_context _ s); [done|lia..]|]. intros s1 T1.
  apply wp_bind, (q_load32 input); [invs|eapply touch_live, Hin; done|apply (in_context _ s); [done|lia..]|]. intros s2 v T2 _.
  apply (q_store32 input); [invs|eapply touch_live, Hin; touches|apply (in_context _ s); [done|lia..]|].
  intros s3 T3. apply HQ. touches.
Qed.

Lemma q_configure_command register slot input s (Q : St -> result unit InitError -> Prop) :
  inv s -> room COMMAND_EVENTS s ->
  (forall s' r, quiet COMMAND_EVENTS s s' -> Q s' r) -> wp (configure_command register slot input) s Q.
Proof.
  intros Hi Hr HQ. unfold configure_command. apply wp_bind, q_submit_command; [done..|].
  intros s1 [v|e] Q1 _; [apply wp_ret|]; by apply HQ.
Qed.

Lemma endpoint_context_fits id s b w off :
  is_input b s -> 0 <= id < 32 -> 0 <= off -> off + w <= 32 ->
  in_buffer b (as_ptr b + csize s * (id + 1) + off) w.
Proof.
  intros Hin Hid Ho Hw. pose proof (csize_range s). rewrite <- Z.add_assoc. apply (in_context _ s); [done|nia|nia].
Qed.
Lemma endpoint_context_start id s b w :
  is_input b s -> 0 <= id < 32 -> w <= 32 -> in_buffer b (as_ptr b + csize s * (id + 1)) w.
Proof. intros. rewrite <- (Z.add_0_r (_ + _)). apply endpoint_context_fits; [done|lia..]. Qed.
Lemma endpoint_id_nonneg a : 0 <= endpoint_id a.
Proof. unfold endpoint_id. pose proof (Z.land_nonneg a 15). destruct (negb _); cbn; lia. Qed.

Lemma q_configure_endpoint register slot input ep ring s (Q : St -> result unit InitError -> Prop) :
  inv s -> room COMMAND_EVENTS s -> is_input input s -> is_ring ring s ->
  (forall s' r, quiet COMMAND_EVENTS s s' -> Q s' r) ->
  wp (configure_endpoint register slot input ep ring) s Q.
Proof.
  intros Hi Hro Hin Hr HQ. pose proof (proj1 Hin) as Hlin. unfold configure_endpoint. apply wp_bind, q_context_size.
  pose proof (csize_range s). set (id := endpoint_id _). pose proof (endpoint_id_nonneg _ : 0 <= id).
  destruct (Z.eqb_spec id 0); [|destruct (Z.leb_spec 32 id)]; cbn [orb].
  1,2: apply wp_err, HQ; eapply quiet_le; [by apply quiet_refl|unfold COMMAND_EVENTS; lia].
  apply wp_bind, q_add_endpoint_context; [done..|]. intros s1 T1.
  apply wp_bind, (q_store32 input); [invs|lives|apply endpoint_context_start; [done|lia..]|]. intros s2 T2.
  apply wp_bind, (q_store32 input); [invs|lives|apply endpoint_context_fits; [done|lia..]|]. intros s3 T3.
  apply wp_bind, (q_store64 input); [invs|lives|apply endpoint_context_fits; [done|lia..]|]. intros s4 T4.
  apply wp_bind, (q_store_ring ring 255); [invs|eapply touch_ring; [|done]; touches|lia|done|]. intros s5 T5.
  apply wp_bind, (q_load32 input); [invs|lives|apply (in_context _ s); [done|lia..]|]. intros s6 v6 T6 _.
  apply wp_bind, (q_load32 input); [invs|lives|apply (in_context _ s); [done|lia..]|]. intros s7 v7 T7 _.
  apply q_configure_command; [invs|rooms|]. intros s8 r Q8. apply HQ. quiets.
Qed.

Lemma q_configure_bulk_endpoint register slot input ep ring s (Q : St -> result unit InitError -> Prop) :
  inv s -> room COMMAND_EVENTS s -> is_input input s -> is_ring ring s ->
  (forall s' r, quiet COMMAND_EVENTS s s' -> Q s' r) ->
  wp (configure_bulk_endpoint register slot input ep ring) s Q.
Proof.
  intros Hi Hro Hin Hr HQ. pose proof (proj1 Hin) as Hlin. unfold configure_bulk_endpoint. apply wp_bind, q_context_size.
  pose proof (csize_range s). set (id := endpoint_id _). pose proof (endpoint_id_nonneg _ : 0 <= id).
  destruct (_ || _) eqn:E; [apply wp_err, HQ; eapply quiet_le; [by apply quiet_refl|unfold COMMAND_EVENTS; lia]|].
  reflect_bools.
  apply wp_bind, q_add_endpoint_context; [done..|]. intros s1 T1.
  apply wp_bind, (q_store32 input); [invs|lives|apply endpoint_context_start; [done|lia..]|]. intros s2 T2.
  apply wp_bind, (q_store32 input); [invs|lives|apply endpoint_context_fits; [done|lia..]|]. intros s3 T3.
  apply wp_bind, (q_store64 input); [invs|lives|apply endpoint_context_fits; [done|lia..]|]. intros s4 T4.
  apply wp_bind, (q_store_ring ring 255); [invs|eapply touch_ring; [|done]; touches|lia|done|]. intros s5 T5.
  apply q_configure_command; [invs|rooms|]. intros s6 r Q6. apply HQ. quiets.
Qed.

(** ** Mass-storage commands *)

Definition pipes_ok (p : Pipes) : Prop := 0 <= in_producer p < 255 /\ 0 <= out_producer p < 255.
(** The room a mass-storage command needs. *)
Definition MSC_EVENTS : Z := 300000000.

Lemma llen_cbw tag n d lun cdb : llen (cbw tag n d lun cdb) = 31.
Proof.
  unfold cbw, llen. rewrite !length_app, !length_to_le. cbn [length].
  rewrite length_take, length_replicate. lia.
Qed.

Lemma q_msc_command register slot ep rin rout p cb cs data len cdb s
    (Q : St -> result (Pipes * result unit InitError) InitError -> Prop) :
  inv s -> fits 8 slot -> room MSC_EVENTS s -> is_ring rin s -> is_ring rout s -> pipes_ok p ->
  cb ∈ live (x_hw s) -> 31 <= dma_len cb -> cs ∈ live (x_hw s) -> 13 <= dma_len cs ->
  (forall s' p r, quiet MSC_EVENTS s s' -> pipes_ok p -> Q s' (Ok (p, r))) ->
  wp (msc_command register slot ep rin rout p cb cs data len cdb) s Q.
Proof.
  unfold MSC_EVENTS. intros Hi Hs Hro Hri Hrout [Hp1 Hp2] Hcb Hcbl Hcs Hcsl HQ. unfold msc_command.
  apply wp_bind, (q_store_bytes cb); [done..|rewrite llen_cbw; by apply in_start|]. intros s1 T1.
  apply wp_bind, q_bulk_transfer; [invs|done|unfold TRANSFER_EVENTS; rooms|by eapply touch_ring|done|].
  intros s2 op oc r Q2 Hop. destruct r as [x|e]; [|apply wp_ret, HQ; [unfold TRANSFER_EVENTS in *; quiets|done]].
  apply wp_bind.
  assert (forall (P : St -> result (Pipes * result BulkCompletion InitError) InitError -> Prop),
    (forall s3 p r, quiet TRANSFER_EVENTS s2 s3 -> pipes_ok p -> P s3 (Ok (p, r))) ->
    wp (if negb (len =? 0) then
          '(ip, ic, r) ←! bulk_transfer register slot (ep_address (msc_bulk_in ep)) rin
             (in_producer p) (in_cycle p) data len;
          p_ret (p <| out_producer := op |> <| out_cycle := oc |> <| in_producer := ip |> <| in_cycle := ic |>, r)
        else p_ret (p <| out_producer := op |> <| out_cycle := oc |>, Ok (mk_BulkCompletion 0 false))) s2 P) as Hdata.
  { intros P HP. destruct (negb _).
    - apply wp_bind, q_bulk_transfer; [invs|done|unfold TRANSFER_EVENTS in *; rooms|eapply quiet_ring; [quiets_raw|done]|done|].
      intros s3 ip ic r Q3 Hip. by apply wp_ret, HP.
    - apply wp_ret, HP; [eapply quiet_le; [apply quiet_refl; invs|unfold TRANSFER_EVENTS; lia]|done]. }
  apply Hdata. clear Hdata. intros s3 p3 r Q3 [Hp31 Hp32]. unfold TRANSFER_EVENTS in *.
  destruct r as [y|e]; [|apply wp_ret, HQ; [quiets|done]].
  apply wp_bind, q_bulk_transfer; [invs|done|unfold TRANSFER_EVENTS; rooms|eapply quiet_ring; [quiets_raw|done]|done|].
  intros s4 ip ic r Q4 Hip. unfold TRANSFER_EVENTS in *.
  destruct r as [z|e]; [|apply wp_ret, HQ; [quiets|done]].
  apply wp_bind, (q_load_bytes cs); [invs|lives|by apply in_start|done|]. intros s5 bs T5 _ _.
  apply wp_ret, HQ; [quiets|done].
Qed.
End Configure.
