(* ===== verification/XhcOwn.v ===== *)
(** * The xHCI controller: who owns the DMA buffers

    Every buffer allocated while a device is brought up ends in the device, is
    released, or is deliberately kept when the controller could not disable the
    slot (it is then marked unhealthy).  [owns F s] says that the live buffers are
    the controller's rings and [F]. *)

From S2P Require Import Prelude Words Dma Machine Trb UsbDesc PortRec Msc Bulk Input Hid UsbBlock XhcState XhcTransfer XhcPorts XhcQuiet.

Section Own.
Context {D I : Type} `{MachineLaws D} `{InputSink I} {B : Bar}.
Abbreviation St := (Xhc D I).
Implicit Types (s : St) (c : ControllerResources) (register : BarRegister) (b : DmaBuffer) (F L : list DmaBuffer).

Definition own_ctl c : list DmaBuffer :=
  [dcbaa c; command_ring c; event_ring c; erst c] ++ option_list (scratchpad_array c) ++ scratchpads c.
Lemma own_ctl_same c c' : same_ctl c c' -> own_ctl c' = own_ctl c.
Proof. intros []. unfold own_ctl. congruence. Qed.
Definition owns F s : Prop := inv s /\ live (x_hw s) ≡ₚ own_ctl (x_ctl s) ++ F.

(** Steps that may also allocate, release and mark the controller unhealthy. *)
Record steps (n : Z) s s' : Prop := {
  st_usb : x_usb s' = x_usb s;
  st_input : x_input s' = x_input s;
  st_ctl : same_ctl (x_ctl s) (x_ctl s');
  st_healthy : healthy (x_ctl s') = true -> healthy (x_ctl s) = true;
  st_count : event_count (x_ctl s') <= event_count (x_ctl s) + n;
}.
Lemma steps_refl s : steps 0 s s.
Proof. split; try done; lia. Qed.
Lemma steps_machine d s : steps 0 s (set_machine d s).
Proof. split; try done; cbn; lia. Qed.
Lemma steps_trans n m s1 s2 s3 : steps n s1 s2 -> steps m s2 s3 -> steps (n + m) s1 s3.
Proof. intros [] []. split; [congruence..|by eapply same_ctl_trans|auto|lia]. Qed.
Lemma steps_le n m s s' : steps n s s' -> n <= m -> steps m s s'.
Proof. intros [] ?. split; try done. lia. Qed.
Lemma quiet_steps n s s' : quiet n s s' -> steps n s s'.
Proof. intros []. split; try done; congruence. Qed.
Lemma steps_room k n s s' : steps k s s' -> room (k + n) s -> room n s'.
Proof. intros [] ?. unfold room in *. lia. Qed.

Lemma owns_inv F s : owns F s -> inv s.
Proof. by intros []. Qed.
Lemma owns_perm F L s : F ≡ₚ L -> owns F s -> owns L s.
Proof. intros HF [Hi Hl]. split; [done|]. by rewrite <- HF. Qed.
Lemma owns_quiet n F s s' : quiet n s s' -> owns F s -> owns F s'.
Proof.
  intros Hq [Hi Hl]. split; [by eapply quiet_inv|]. rewrite (qu_live _ _ _ Hq), Hl.
  by rewrite (own_ctl_same _ _ (qu_ctl _ _ _ Hq)).
Qed.
Lemma owns_touch F s s' : touch s s' -> owns F s -> owns F s'.
Proof. intros Ht. by apply (owns_quiet 0), touch_quiet. Qed.
Lemma owns_in F s b : owns F s -> b ∈ F -> b ∈ live (x_hw s).
Proof. intros [_ ->] Hb. apply elem_of_app. by right. Qed.

(** The machine after an allocation or a release. *)
Lemma owns_machine d F L s :
  owns F s -> machine_ok d -> live d ≡ₚ own_ctl (x_ctl s) ++ L -> owns L (set_machine d s).
Proof.
  intros [[Hm Hc] _] Hd Hl. split; [|done]. split; [done|]. cbn. destruct Hc.
  assert (forall b, b ∈ own_ctl (x_ctl s) -> b ∈ live d) as Hin.
  { intros b Hb. rewrite Hl. apply elem_of_app. by left. }
  unfold own_ctl in Hin.
  split; try done; (split; [apply Hin|tauto]); rewrite !elem_of_app, !elem_of_cons; auto.
Qed.

Lemma o_dma_buffer len al e F s (Q : St -> result DmaBuffer InitError -> Prop) :
  owns F s -> 0 < len < 2 ^ 64 /\ al < 2 ^ 64 ->
  (forall s' b, owns (b :: F) s' -> steps 0 s s' -> len <= dma_len b -> Q s' (Ok b)) ->
  (forall s', owns F s' -> steps 0 s s' -> Q s' (Err e)) ->
  wp (dma_buffer len al e) s Q.
Proof.
  intros Ho [Hl Hal] HQ1 HQ2. pose proof Ho as [[Hm _] HF]. apply wp_dma_buffer; [done|done|done| |].
  - intros d b Hd Hlive Hlen. apply HQ1; [|apply steps_machine|done].
    eapply owns_machine; [done..|]. rewrite Hlive. change (machine s) with (x_hw s). perms.
  - intros d [Hd Hlive]. apply HQ2; [|apply steps_machine]. eapply owns_machine; [done..|]. by rewrite Hlive.
Qed.

Lemma o_drop_buffers bs F L s (Q : St -> result unit InitError -> Prop) :
  owns L s -> L ≡ₚ bs ++ F -> (forall s', owns F s' -> steps 0 s s' -> Q s' (Ok tt)) -> wp (drop_buffers bs) s Q.
Proof.
  intros Ho HL HQ. pose proof Ho as [[Hm _] HF].
  apply (wp_drop_buffers _ (own_ctl (x_ctl s) ++ F)); [done|change (machine s) with (x_hw s); perms|].
  intros d Hd Hlive. apply HQ; [by eapply owns_machine|apply steps_machine].
Qed.

Lemma o_drop_buffer b F L s (Q : St -> result unit InitError -> Prop) :
  owns L s -> L ≡ₚ b :: F -> (forall s', owns F s' -> steps 0 s s' -> Q s' (Ok tt)) -> wp (drop_buffer b) s Q.
Proof.
  intros Ho HL HQ. pose proof Ho as [[Hm _] HF]. apply wp_drop_buffer; [done| |].
  - change (x_hw s) with (machine s) in HF. rewrite HF, HL. set_solver.
  - intros d Hd Hlive. apply HQ; [|apply steps_machine]. eapply owns_machine; [done..|].
    change (x_hw s) with (machine s) in HF. apply (Permutation_cons_inv (a := b)). perms.
Qed.

(** Where a program has come to: from [s0], with at most [n] events, owning [F]. *)
Record reach (n : Z) F s0 s : Prop := { re_owns : owns F s; re_steps : steps n s0 s }.
Lemma reach_start F s : owns F s -> reach 0 F s s.
Proof. split; [done|]. apply steps_refl. Qed.
Lemma reach_le n m F s0 s : reach n F s0 s -> n <= m -> reach m F s0 s.
Proof. intros [] ?. split; [done|]. by eapply steps_le. Qed.
Lemma reach_perm n F L s0 s : reach n F s0 s -> F ≡ₚ L -> reach n L s0 s.
Proof. intros [] ?. split; [by eapply owns_perm|done]. Qed.
Lemma reach_inv n F s0 s : reach n F s0 s -> inv s.
Proof. intros []. by eapply owns_inv. Qed.
Lemma reach_quiet n k F s0 s s' : reach n F s0 s -> quiet k s s' -> reach (n + k) F s0 s'.
Proof. intros [] Hq. split; [by eapply owns_quiet|]. eapply steps_trans; [done|by apply quiet_steps]. Qed.
Lemma reach_touch n F s0 s s' : reach n F s0 s -> touch s s' -> reach n F s0 s'.
Proof. intros R T. eapply reach_le; [eapply reach_quiet; [done|by apply touch_quiet]|lia]. Qed.
Lemma reach_trans n k F L s0 s s' : reach n F s0 s -> reach k L s s' -> reach (n + k) L s0 s'.
Proof. intros [] []. split; [done|]. by eapply steps_trans. Qed.
Lemma reach_room N n k F s0 s : reach n F s0 s -> room N s0 -> n + k <= N -> room k s.
Proof. intros [] Hr ?. eapply steps_room; [done|]. by eapply room_le. Qed.
Lemma reach_in n F s0 s b : reach n F s0 s -> b ∈ F -> b ∈ live (x_hw s).
Proof. intros [] ?. by eapply owns_in. Qed.
Lemma reach_ring n F s0 s b : reach n F s0 s -> b ∈ F -> 4096 <= dma_len b -> is_ring b s.
Proof. intros [] ? ?. split; [by eapply owns_in|done]. Qed.

Lemma r_dma_buffer len al e n F s0 s (Q : St -> result DmaBuffer InitError -> Prop) :
  reach n F s0 s -> 0 < len < 2 ^ 64 /\ al < 2 ^ 64 ->
  (forall s' b, reach n (b :: F) s0 s' -> len <= dma_len b -> Q s' (Ok b)) ->
  (forall s', reach n F s0 s' -> Q s' (Err e)) ->
  wp (dma_buffer len al e) s Q.
Proof.
  intros [Ho Hs] Hl HQ1 HQ2. eapply o_dma_buffer; [done..| |].
  - intros s' b Ho' S'. apply HQ1. split; [done|]. eapply steps_le; [by eapply steps_trans|lia].
  - intros s' Ho' S'. apply HQ2. split; [done|]. eapply steps_le; [by eapply steps_trans|lia].
Qed.

Lemma r_drop_buffers bs F n L s0 s (Q : St -> result unit InitError -> Prop) :
  reach n L s0 s -> L ≡ₚ bs ++ F -> (forall s', reach n F s0 s' -> Q s' (Ok tt)) -> wp (drop_buffers bs) s Q.
Proof.
  intros [Ho Hs] HL HQ. eapply o_drop_buffers; [done..|]. intros s' Ho' S'. apply HQ. split; [done|].
  eapply steps_le; [by eapply steps_trans|lia].
Qed.
Lemma r_drop_buffer b F n L s0 s (Q : St -> result unit InitError -> Prop) :
  reach n L s0 s -> L ≡ₚ b :: F -> (forall s', reach n F s0 s' -> Q s' (Ok tt)) -> wp (drop_buffer b) s Q.
Proof.
  intros [Ho Hs] HL HQ. eapply o_drop_buffer; [done..|]. intros s' Ho' S'. apply HQ. split; [done|].
  eapply steps_le; [by eapply steps_trans|lia].
Qed.

(** [m?] in a scope that owns [bs]. *)
Lemma r_or_drop {A} bs (m : prog St InitError A) N F s0 s (Q : St -> result A InitError -> Prop) :
  (forall s' e, reach N F s0 s' -> Q s' (Err e)) ->
  wp m s (fun s' r => match r with Ok a => Q s' (Ok a) | Err e => reach N (bs ++ F) s0 s' end) ->
  wp (or_drop bs m) s Q.
Proof.
  intros HQ Hm. unfold or_drop. apply wp_bind, wp_try. eapply wp_mono; [exact Hm|].
  intros s1 [a|e]; [intros; by apply wp_ret|]. intros R.
  apply wp_bind. eapply r_drop_buffers; [done..|]. intros s2 R2. apply wp_err. auto.
Qed.
End Own.

(** What a program has reached in the current state. *)
Ltac reaches :=
  eapply reach_le; [first [eassumption | eapply reach_touch; [|eassumption]; eassumption
    | eapply reach_quiet; [|eassumption]; eassumption]|lia].
(** The step just taken joins the path; the state it started from is forgotten. *)
Ltac onward H :=
  match type of H with
  | quiet _ ?a ?b =>
      match goal with R : reach _ _ _ a |- _ =>
        let R' := fresh "R" in pose proof (reach_quiet _ _ _ _ _ _ R H) as R'; clear H; try clear R; try clear a end
  | touch ?a ?b =>
      match goal with R : reach _ _ _ a |- _ =>
        let R' := fresh "R" in pose proof (reach_touch _ _ _ _ _ R H) as R'; clear H; try clear R; try clear a end
  end.
(** The side conditions of an operation in a reached state. *)
Ltac member := first [assumption | apply list_elem_of_here | apply list_elem_of_further; member
                     | apply elem_of_app; first [left; member | right; member]].
Ltac from_reach :=
  match goal with
  | R : reach _ _ _ ?s |- inv ?s => exact (reach_inv _ _ _ _ R)
  | R : reach _ _ ?a ?s, Hr : room _ ?a |- room _ ?s => eapply (reach_room _ _ _ _ _ _ R Hr); lia
  | R : reach _ _ _ ?s |- _ ∈ live (x_hw ?s) => eapply (reach_in _ _ _ _ _ R); member
  | R : reach _ _ _ ?s |- is_ring _ ?s => eapply (reach_ring _ _ _ _ _ R); [member|lia]
  end.

Section Probe.
Context {D I : Type} `{MachineLaws D} `{InputSink I} {B : Bar}.
Abbreviation St := (Xhc D I).
Implicit Types (s : St) (c : ControllerResources) (register : BarRegister) (b : DmaBuffer) (F L : list DmaBuffer).

(** An input context allocated before. *)
Lemma reach_input n F s0 s b :
  reach n F s0 s -> b ∈ F -> csize s0 * 33 <= dma_len b -> is_input b s.
Proof. intros [Ho Hs] ? ?. split; [by eapply owns_in|]. by rewrite (csize_same s0 s) by apply Hs. Qed.

(** ** Probing a disk *)

(** The rings and buffers of a mass-storage device are large enough. *)
Definition msc_ok (m : MscResources) : Prop :=
  4096 <= dma_len (ms_bulk_in_ring m) /\ 4096 <= dma_len (ms_bulk_out_ring m) /\
  31 <= dma_len (ms_cbw m) /\ 13 <= dma_len (ms_csw m) /\ MAX_READ_BYTES <= dma_len (ms_data m) /\
  0 <= ms_in_producer m < 255 /\ 0 <= ms_out_producer m < 255.

Lemma r_msc_rings register slot input ep n F s0 s (Q : St -> result (DmaBuffer * DmaBuffer) InitError -> Prop) :
  reach n F s0 s -> room (n + 200000) s0 -> input ∈ F -> csize s0 * 33 <= dma_len input ->
  (forall s' rin rout, reach (n + 200000) (rout :: rin :: F) s0 s' -> 4096 <= dma_len rin -> 4096 <= dma_len rout ->
     Q s' (Ok (rin, rout))) ->
  (forall s' e, reach (n + 200000) F s0 s' -> Q s' (Err e)) ->
  wp (msc_rings register slot input ep) s Q.
Proof.
  intros R Hro Hin Hinl HQ1 HQ2. unfold msc_rings.
  apply wp_bind. eapply r_dma_buffer; [done|lia| |intros; apply HQ2; reaches]. intros s1 rin R1 Hrin.
  apply wp_bind, (r_or_drop _ _ (n + 200000) F s0); [done|].
  eapply r_dma_buffer; [done|lia| |intros; reaches]. clear R R1. intros s2 rout R2 Hrout.
  apply wp_bind, (r_or_drop _ _ (n + 200000) F s0); [done|].
  apply q_configure_bulk_endpoint; [from_reach|unfold COMMAND_EVENTS; from_reach
    |eapply reach_input; [done|member|done]|from_reach|].
  intros s3 r Q3. unfold COMMAND_EVENTS in Q3. onward Q3. destruct r as [[]|e]; [|reaches].
  apply wp_bind, (r_or_drop _ _ (n + 200000) F s0); [done|].
  apply q_configure_bulk_endpoint; [from_reach|unfold COMMAND_EVENTS; from_reach
    |eapply reach_input; [done|member|done]|from_reach|].
  intros s4 r Q4. unfold COMMAND_EVENTS in Q4. onward Q4. destruct r as [[]|e]; [|reaches].
  apply wp_ret, HQ1; [reaches|done..].
Qed.

Lemma r_msc_max_lun register slot ep0 prod ep n F s0 s (Q : St -> result DmaBuffer InitError -> Prop) :
  reach n F s0 s -> fits 8 slot -> ep0 ∈ F -> 4096 <= dma_len ep0 -> 0 <= prod ->
  (forall s' lun, reach n (lun :: F) s0 s' -> Q s' (Ok lun)) ->
  (forall s' e, reach n F s0 s' -> Q s' (Err e)) ->
  wp (msc_max_lun register slot ep0 prod ep) s Q.
Proof.
  intros R Hs He Hel Hp HQ1 HQ2. unfold msc_max_lun.
  apply wp_bind. eapply r_dma_buffer; [done|lia| |auto]. intros s1 lun R1 Hlun.
  apply wp_bind, q_control_transfer; [from_reach|done|from_reach|done|]. intros s2 p2 r Q2 _. onward Q2.
  apply wp_bind, (r_or_drop _ _ n F s0); [done|].
  destruct r as [[]|e].
  - apply wp_bind, (q_load_bytes lun); [from_reach|from_reach|apply in_start; lia|lia|].
    intros s3 bs T3 _ _. onward T3. destruct (negb _); q_pure; [reaches|]. apply HQ1. reaches.
  - destruct e as [| |[]]; q_pure; first [reaches|apply HQ1; reaches].
Qed.

Lemma r_msc_buffers n F s0 s (Q : St -> result (DmaBuffer * DmaBuffer * DmaBuffer) InitError -> Prop) :
  reach n F s0 s ->
  (forall s' cb cs data, reach n (data :: cs :: cb :: F) s0 s' -> CBW_LEN <= dma_len cb -> CSW_LEN <= dma_len cs ->
     MAX_READ_BYTES <= dma_len data -> Q s' (Ok (cb, cs, data))) ->
  (forall s' e, reach n F s0 s' -> Q s' (Err e)) ->
  wp msc_buffers s Q.
Proof.
  intros R HQ1 HQ2. unfold msc_buffers.
  apply wp_bind. eapply r_dma_buffer; [done|done| |auto]. intros s1 cb R1 Hcb.
  apply wp_bind, (r_or_drop _ _ n F s0); [done|]. eapply r_dma_buffer; [done|done| |auto]. intros s2 cs R2 Hcs.
  apply wp_bind, (r_or_drop _ _ n F s0); [done|]. eapply r_dma_buffer; [done|done| |auto]. intros s3 data R3 Hdata.
  apply wp_ret. by apply HQ1.
Qed.

Lemma q_probe_command register slot ep rin rout p cb cs data len cdb s (Q : St -> result Pipes InitError -> Prop) :
  inv s -> fits 8 slot -> room MSC_EVENTS s -> is_ring rin s -> is_ring rout s -> pipes_ok p ->
  cb ∈ live (x_hw s) -> 31 <= dma_len cb -> cs ∈ live (x_hw s) -> 13 <= dma_len cs ->
  (forall s' p, quiet MSC_EVENTS s s' -> pipes_ok p -> Q s' (Ok p)) ->
  (forall s' e, quiet MSC_EVENTS s s' -> Q s' (Err e)) ->
  wp (probe_command register slot ep rin rout p cb cs data len cdb) s Q.
Proof.
  intros ? ? ? ? ? ? ? ? ? ? HQ1 HQ2. unfold probe_command. apply wp_bind, q_msc_command; [done..|].
  intros s1 p1 [[]|e] Q1 Hp1; apply wp_bind, wp_result; [apply wp_ret, HQ1|apply HQ2]; done.
Qed.

(** The room for probing a disk. *)
Definition PROBE_EVENTS : Z := 900200000.

Lemma r_msc_probe register slot ep rin rout cb cs data n F s0 s (Q : St -> result (Pipes * Capacity) InitError -> Prop) :
  reach n F s0 s -> room (n + 900000000) s0 -> fits 8 slot ->
  rin ∈ F -> rout ∈ F -> cb ∈ F -> cs ∈ F -> data ∈ F -> 4096 <= dma_len rin -> 4096 <= dma_len rout ->
  31 <= dma_len cb -> 13 <= dma_len cs -> 36 <= dma_len data ->
  (forall s' p cap, reach (n + 900000000) F s0 s' -> pipes_ok p -> Q s' (Ok (p, cap))) ->
  (forall s' e, reach (n + 900000000) F s0 s' -> Q s' (Err e)) ->
  wp (msc_probe register slot ep rin rout cb cs data) s Q.
Proof.
  intros R Hro Hs ? ? ? ? ? ? ? ? ? ? HQ1 HQ2. unfold msc_probe.
  assert (pipes_ok (mk_Pipes 0 0 true true)) by (by split).
  apply wp_bind, q_probe_command; unfold MSC_EVENTS; [from_reach|done|from_reach..|done|from_reach|done|from_reach|done| |intros s1 e Q1; onward Q1; apply HQ2; reaches].
  intros s1 p1 Q1 Hp1. onward Q1.
  apply wp_bind, (q_load_bytes data); [from_reach|from_reach|apply in_start; lia|lia|]. intros s2 bs T2 _ _. onward T2.
  apply wp_bind, q_probe_command; unfold MSC_EVENTS; [from_reach|done|from_reach..|done|from_reach|done|from_reach|done| |intros s3 e Q3; onward Q3; apply HQ2; reaches].
  intros s3 p3 Q3 Hp3. onward Q3.
  apply wp_bind, q_probe_command; unfold MSC_EVENTS; [from_reach|done|from_reach..|done|from_reach|done|from_reach|done| |intros s4 e Q4; onward Q4; apply HQ2; reaches].
  intros s4 p4 Q4 Hp4. onward Q4.
  apply wp_bind, (q_load_bytes data); [from_reach|from_reach|apply in_start; lia|lia|]. intros s5 bs' T5 _ _. onward T5.
  apply wp_bind, wp_result. destruct (map_err _ _) as [cap|e]; [apply wp_ret, HQ1; [reaches|done]|apply HQ2; reaches].
Qed.

Lemma r_configure_and_probe_msc register slot ep0 prod input ep n F s0 s
    (Q : St -> result MscResources InitError -> Prop) :
  reach n F s0 s -> room (n + PROBE_EVENTS) s0 -> fits 8 slot -> ep0 ∈ F -> 4096 <= dma_len ep0 -> 0 <= prod ->
  input ∈ F -> csize s0 * 33 <= dma_len input ->
  (forall s' m, reach (n + PROBE_EVENTS) (kind_buffers (KindMsc m) ++ F) s0 s' -> msc_ok m ->
     ms_usb_id m = None -> Q s' (Ok m)) ->
  (forall s' e, reach (n + PROBE_EVENTS) F s0 s' -> Q s' (Err e)) ->
  wp (configure_and_probe_msc register slot ep0 prod input ep) s Q.
Proof.
  unfold PROBE_EVENTS. intros R Hro Hs He0 He0l Hp Hin Hinl HQ1 HQ2. unfold configure_and_probe_msc.
  apply wp_bind, q_control_transfer; [from_reach|done|from_reach|done|]. intros s1 p1 r Q1 Hp1. onward Q1.
  apply wp_bind, wp_result. destruct r as [[]|e]; [|apply HQ2; reaches].
  apply wp_bind. eapply r_msc_rings; [done|eapply room_le; [done|lia]|done|done| |intros; apply HQ2; reaches].
  clear R0. intros s2 rin rout R2 Hrin Hrout.
  apply wp_bind, (r_or_drop _ _ (n + 900200000) F s0); [done|].
  eapply r_msc_max_lun; [done|done|member|done|done| |intros; reaches]. clear R2. intros s3 lun R3.
  apply wp_bind, (r_or_drop _ _ (n + 900200000) F s0); [done|].
  eapply r_msc_buffers; [done| |intros; reaches]. clear R3. intros s4 cb cs data R4 Hcb Hcs Hdata.
  apply wp_bind, (r_or_drop _ _ (n + 900200000) F s0); [done|].
  unfold CBW_LEN, CSW_LEN, MAX_READ_BYTES in *.
  eapply r_msc_probe; [done|eapply room_le; [done|lia]|done|member..|lia|lia|lia|lia|lia| |intros; reaches].
  clear R4. intros s5 p cap R5 [Hp51 Hp52].
  apply wp_bind. eapply (r_drop_buffer lun ([rin; rout; cb; cs; data] ++ F)); [done|cbn [app]; perms|].
  intros s6 R6. apply wp_ret, HQ1; [reaches|by unfold msc_ok|done].
Qed.
End Probe.
