(* ===== verification/XhcDevice.v ===== *)
(** * The xHCI controller: bringing a device up

    The functions below [address_port] with the buffers they own: a device that
    comes up owns its contexts, rings and transfer buffers; on a failure every
    buffer is released, unless the controller refused to disable the slot: then
    the published ones are kept and the controller is marked unhealthy. *)

From S2P Require Import Prelude Words Dma Machine Trb UsbDesc PortRec Msc Bulk Input Hid UsbBlock XhcState XhcTransfer XhcPorts XhcQuiet XhcOwn.

Section Slots.
Context {D I : Type} `{MachineLaws D} `{InputSink I} {B : Bar}.
Abbreviation St := (Xhc D I).
Implicit Types (s : St) (c : ControllerResources) (register : BarRegister) (b : DmaBuffer) (F L : list DmaBuffer).

(** [reach] up to buffers that are kept for ever, of which a healthy controller
    has none. *)
Definition settles (n : Z) F s0 s : Prop :=
  exists leak, reach n (leak ++ F) s0 s /\ (healthy (x_ctl s) = true -> leak = []).
Lemma reach_settles n F s0 s : reach n F s0 s -> settles n F s0 s.
Proof. intros. by exists []. Qed.
Lemma settles_le n m F s0 s : settles n F s0 s -> n <= m -> settles m F s0 s.
Proof. intros (l & R & Hl) ?. exists l. split; [by eapply reach_le|done]. Qed.

Lemma reach_unhealthy n F s0 s :
  reach n F s0 s -> reach n F s0 (s <| x_ctl := (x_ctl s) <| healthy := false |> |>).
Proof.
  intros [[[Hm [? ? ? ? ? ? []]] Hl] [? ? [] ? ?]]. split; [|by split].
  split; [|exact Hl]. split; [exact Hm|by split].
Qed.

Lemma r_disable_slot register slot n F s0 s (Q : St -> result bool InitError -> Prop) :
  reach n F s0 s -> room (n + COMMAND_EVENTS) s0 ->
  (forall s', reach (n + COMMAND_EVENTS) F s0 s' -> healthy (x_ctl s') = healthy (x_ctl s) -> Q s' (Ok true)) ->
  (forall s', reach (n + COMMAND_EVENTS) F s0 s' -> healthy (x_ctl s') = false -> Q s' (Ok false)) ->
  wp (disable_slot register slot) s Q.
Proof.
  intros R Hro HQ1 HQ2. unfold disable_slot. apply wp_bind, wp_try, q_submit_command; [from_reach..|].
  intros s1 r Q1 _. pose proof (qu_healthy _ _ _ Q1) as Hh. onward Q1. destruct r as [v|e].
  - apply wp_ret. by apply HQ1.
  - apply wp_bind, q_modify_self, wp_ret, HQ2; [by apply reach_unhealthy|done].
Qed.

Lemma r_release_or_retain register slot bs n F s0 s (Q : St -> result unit InitError -> Prop) :
  reach n (bs ++ F) s0 s -> room (n + COMMAND_EVENTS) s0 -> fits 8 slot ->
  (forall s', settles (n + COMMAND_EVENTS) F s0 s' -> Q s' (Ok tt)) ->
  wp (release_or_retain_slot_resources register slot bs) s Q.
Proof.
  intros R Hro Hs HQ. unfold release_or_retain_slot_resources. apply wp_bind.
  eapply r_disable_slot; [done..| |].
  - intros s1 R1 _. apply wp_bind, q_store_dcbaa; [from_reach|done|]. intros s2 T2. onward T2.
    eapply r_drop_buffers; [done..|]. intros s3 R3. by apply HQ, reach_settles.
  - intros s1 R1 Hh. apply wp_ret, HQ. exists bs. split; [done|congruence].
Qed.

Lemma r_release_failed_slot register slot n F s0 s (Q : St -> result unit InitError -> Prop) :
  reach n F s0 s -> room (n + COMMAND_EVENTS) s0 -> fits 8 slot ->
  (forall s', reach (n + COMMAND_EVENTS) F s0 s' -> Q s' (Ok tt)) ->
  wp (release_failed_slot register slot) s Q.
Proof.
  intros R Hro Hs HQ. unfold release_failed_slot. apply wp_bind.
  eapply r_disable_slot; [done..| |].
  - intros s1 R1 _. apply q_store_dcbaa; [from_reach|done|]. intros s2 T2. onward T2. by apply HQ.
  - intros s1 R1 _. by apply wp_ret, HQ.
Qed.

Lemma settles_drop_buffers bs n F s0 s (Q : St -> result unit InitError -> Prop) :
  settles n (bs ++ F) s0 s -> (forall s', settles n F s0 s' -> Q s' (Ok tt)) -> wp (drop_buffers bs) s Q.
Proof.
  intros (l & R & Hl) HQ. eapply o_drop_buffers with (F := l ++ F); [apply R|perms|]. intros s1 Ho1 S1.
  apply HQ. exists l. split; [split; [done|]|].
  - eapply steps_le; [eapply steps_trans; [apply R|done]|lia].
  - intros Hh. apply Hl. by apply S1.
Qed.

(** An operation with published resources, and one before that. *)
Lemma r_or_release {A} register slot bs locals (m : prog St InitError A) N F s0 s (Q : St -> result A InitError -> Prop) :
  room N s0 -> fits 8 slot -> (forall s' e, settles N F s0 s' -> Q s' (Err e)) ->
  wp m s (fun s' r => match r with
    | Ok a => Q s' (Ok a)
    | Err e => reach (N - COMMAND_EVENTS) (locals ++ bs ++ F) s0 s'
    end) ->
  wp (or_release register slot bs locals m) s Q.
Proof.
  intros Hro Hs HQ Hm. unfold or_release. apply wp_bind, wp_try. eapply wp_mono; [exact Hm|].
  intros s1 [a|e]; [intros; by apply wp_ret|]. intros R. apply wp_bind.
  eapply (r_release_or_retain _ _ _ _ (locals ++ F)); [eapply reach_perm; [done|perms]| |done|].
  { eapply room_le; [done|lia]. }
  intros s2 S2. apply wp_bind. eapply settles_drop_buffers; [done|]. intros s3 S3. apply wp_err, HQ.
  eapply settles_le; [done|lia].
Qed.

Lemma r_or_free {A} register slot locals (m : prog St InitError A) N F s0 s (Q : St -> result A InitError -> Prop) :
  room N s0 -> fits 8 slot -> (forall s' e, settles N F s0 s' -> Q s' (Err e)) ->
  wp m s (fun s' r => match r with
    | Ok a => Q s' (Ok a)
    | Err e => reach (N - COMMAND_EVENTS) (locals ++ F) s0 s'
    end) ->
  wp (or_free register slot locals m) s Q.
Proof.
  intros Hro Hs HQ Hm. unfold or_free. apply wp_bind, wp_try. eapply wp_mono; [exact Hm|].
  intros s1 [a|e]; [intros; by apply wp_ret|]. intros R. apply wp_bind.
  eapply r_release_failed_slot; [done|eapply room_le; [done|lia]|done|].
  intros s2 R2. apply wp_bind. eapply r_drop_buffers; [done..|]. intros s3 R3. apply wp_err, HQ, reach_settles.
  eapply reach_le; [done|lia].
Qed.

(** ** Contexts *)

Lemma q_publish_contexts register slot port speed input output ep0 s (Q : St -> result unit InitError -> Prop) :
  inv s -> room COMMAND_EVENTS s -> fits 8 slot -> is_input input s -> is_ring ep0 s ->
  (forall s' r, quiet COMMAND_EVENTS s s' -> Q s' r) ->
  wp (publish_contexts register slot port speed input output ep0) s Q.
Proof.
  intros Hi Hro Hs Hin Hr HQ. pose proof (proj1 Hin) as Hlin. unfold publish_contexts.
  apply wp_bind, q_context_size. pose proof (csize_range s).
  apply wp_bind, q_store_dcbaa; [done..|]. intros s1 T1.
  apply wp_bind, (q_store32 input); [invs|lives|apply (in_context _ s); [done|lia..]|]. intros s2 T2.
  apply wp_bind, (q_store32 input); [invs|lives|apply (in_context _ s); [done|lia..]|]. intros s3 T3.
  apply wp_bind, (q_store32 input); [invs|lives|rewrite <- Z.add_assoc; apply (in_context _ s); [done|lia..]|]. intros s4 T4.
  apply wp_bind, (q_store32 input); [invs|lives|rewrite <- Z.add_assoc; apply (in_context _ s); [done|lia..]|]. intros s5 T5.
  apply wp_bind, (q_store64 input); [invs|lives|rewrite <- Z.add_assoc; apply (in_context _ s); [done|lia..]|]. intros s6 T6.
  apply wp_bind, (q_store_ring ep0 255); [invs|eapply touch_ring; [|done]; touches|lia|done|]. intros s7 T7.
  apply wp_bind, q_submit_command; [invs|rooms|]. intros s8 r Q8 _.
  destruct r; [apply wp_ret|]; apply HQ; quiets.
Qed.

Lemma q_log_ep0_context output s (Q : St -> result unit InitError -> Prop) :
  inv s -> output ∈ live (x_hw s) -> csize s * 32 <= dma_len output ->
  (forall s', touch s s' -> Q s' (Ok tt)) -> wp (log_ep0_context output) s Q.
Proof.
  intros Hi Hin Hl HQ. unfold log_ep0_context. apply wp_bind, q_context_size. pose proof (csize_range s).
  apply wp_bind, (q_load32 output); [done|done|apply in_offset; lia|]. intros s1 v1 T1 _.
  apply wp_bind, (q_load32 output); [invs|lives|rewrite <- Z.add_assoc; apply in_offset; lia|]. intros s2 v2 T2 _.
  apply wp_bind, (q_load64 output); [invs|lives|rewrite <- Z.add_assoc; apply in_offset; lia|]. intros s3 v3 T3 _.
  apply wp_ret, HQ. touches.
Qed.

Lemma q_control_step register slot ep0 prod request data s (Q : St -> result Z InitError -> Prop) :
  inv s -> fits 8 slot -> is_ring ep0 s -> 0 <= prod ->
  (forall s' p, quiet 0 s s' -> 0 <= p -> Q s' (Ok p)) -> (forall s' e, quiet 0 s s' -> Q s' (Err e)) ->
  wp (control_step register slot ep0 prod request data) s Q.
Proof.
  intros ? ? ? ? HQ1 HQ2. unfold control_step. apply wp_bind, q_control_transfer; [done..|].
  intros s1 p [[]|e] Q1 Hp; apply wp_bind, wp_result; [apply wp_ret, HQ1|apply HQ2]; done.
Qed.
End Slots.

Section Address.
Context {D I : Type} `{MachineLaws D} `{InputSink I} {B : Bar}.
Abbreviation St := (Xhc D I).
Implicit Types (s : St) (c : ControllerResources) (register : BarRegister) (b : DmaBuffer) (F L : list DmaBuffer).

(** ** Devices *)

Definition hid_ok (h : HidResources) : Prop :=
  4096 <= dma_len (hid_interrupt_ring h) /\ 0 <= hid_max_packet_size (hid_endpoint h) <= dma_len (hid_report h) /\
  0 <= hid_producer h < 255.
Definition device_ok (d : RootDevice) : Prop :=
  fits 8 (rd_slot d) /\ 18 <= dma_len (rd_device_descriptor d) /\ match rd_kind d with KindHid h => hid_ok h | KindMsc m => msc_ok m end.

Lemma r_read_configuration register slot ep0 prod published n F s0 s
    (Q : St -> result (Z * DmaBuffer * DmaBuffer * list Z) InitError -> Prop) :
  reach n (published ++ F) s0 s -> room (n + COMMAND_EVENTS) s0 -> fits 8 slot ->
  ep0 ∈ published -> 4096 <= dma_len ep0 -> 0 <= prod ->
  (forall s' p header conf bs, reach n ([conf; header] ++ published ++ F) s0 s' -> 0 <= p -> bytes bs ->
     llen bs < 2 ^ 63 -> Q s' (Ok (p, header, conf, bs))) ->
  (forall s' e, settles (n + COMMAND_EVENTS) F s0 s' -> Q s' (Err e)) ->
  wp (read_configuration register slot ep0 prod published) s Q.
Proof.
  intros R Hro Hs He Hel Hp HQ1 HQ2. unfold read_configuration.
  apply wp_bind, (r_or_release _ _ _ _ _ (n + COMMAND_EVENTS) F s0); [done..|].
  eapply r_dma_buffer; [done|lia| |intros; reaches]. intros s1 header R1 Hh.
  apply wp_bind, (r_or_release _ _ _ _ _ (n + COMMAND_EVENTS) F s0); [done..|].
  apply q_control_step; [from_reach|done|from_reach|done| |intros s2 e Q2; onward Q2; reaches].
  intros s2 p2 Q2 Hp2. onward Q2.
  apply wp_bind, (q_load_bytes header); [from_reach|from_reach|apply in_start; lia|lia|]. intros s3 hb T3 Hhb Hhb'. onward T3.
  assert (fits 16 (from_le (take 2 (drop 2 hb)))) as Htot.
  { apply (from_le_fits _ 2); [|by apply Forall_take, Forall_drop].
    unfold llen in *. rewrite length_take, length_drop. lia. }
  set (total := from_le _) in *.
  apply wp_bind, (r_or_release _ _ _ _ _ (n + COMMAND_EVENTS) F s0); [done..|].
  destruct ((9 <=? total) && (total <=? 4096)) eqn:Et; [|apply wp_err; reaches]. apply wp_ret. reflect_bools.
  apply wp_bind, (r_or_release _ _ _ _ _ (n + COMMAND_EVENTS) F s0); [done..|].
  eapply r_dma_buffer; [done|lia| |intros; reaches]. intros s4 conf R4 Hc.
  apply wp_bind, (r_or_release _ _ _ _ _ (n + COMMAND_EVENTS) F s0); [done..|].
  apply q_control_step; [from_reach|done|from_reach|done| |intros s5 e Q5; onward Q5; reaches].
  intros s5 p5 Q5 Hp5. onward Q5.
  apply wp_bind, (q_load_bytes conf); [from_reach|from_reach|apply in_start; lia|lia|]. intros s6 cb T6 Hcb Hcb'. onward T6.
  apply wp_ret, HQ1; [reaches|done|done|lia].
Qed.

Lemma r_configure_hid register slot ep0 prod input ep published locals n F s0 s
    (Q : St -> result HidResources InitError -> Prop) :
  reach n (locals ++ published ++ F) s0 s -> room (n + 2 * COMMAND_EVENTS) s0 -> fits 8 slot ->
  ep0 ∈ published -> 4096 <= dma_len ep0 -> 0 <= prod -> input ∈ published -> csize s0 * 33 <= dma_len input ->
  0 < hid_max_packet_size ep < 2048 ->
  (forall s' h, reach (n + COMMAND_EVENTS) (kind_buffers (KindHid h) ++ locals ++ published ++ F) s0 s' ->
     hid_ok h -> Q s' (Ok h)) ->
  (forall s' e, settles (n + 2 * COMMAND_EVENTS) F s0 s' -> Q s' (Err e)) ->
  wp (configure_hid register slot ep0 prod input ep published locals) s Q.
Proof.
  intros R Hro Hs He Hel Hp Hin Hinl Hmax HQ1 HQ2. unfold configure_hid.
  apply wp_bind, (r_or_release _ _ _ _ _ (n + 2 * COMMAND_EVENTS) F s0); [done..|]. unfold COMMAND_EVENTS in *.
  apply q_control_step; [from_reach|done|from_reach|done| |intros s2 e Q2; onward Q2; reaches].
  intros s2 p2 Q2 Hp2. onward Q2.
  apply wp_bind, (r_or_release _ _ _ _ _ (n + 2 * 100000) F s0); [done..|]. unfold COMMAND_EVENTS.
  apply q_control_step; [from_reach|done|from_reach|done| |intros s3 e Q3; onward Q3; reaches].
  intros s3 p3 Q3 Hp3. onward Q3.
  apply wp_bind, (r_or_release _ _ _ _ _ (n + 2 * 100000) F s0); [done..|]. unfold COMMAND_EVENTS.
  eapply r_dma_buffer; [done|lia| |intros; reaches]. intros s4 ring R4 Hring.
  apply wp_bind, (r_or_release _ _ _ _ _ (n + 2 * 100000) F s0); [done..|]. unfold COMMAND_EVENTS.
  assert (forall m s', reach m (ring :: locals ++ published ++ F) s0 s' ->
    reach m (locals ++ (published ++ [ring]) ++ F) s0 s') as Hperm.
  { intros. eapply reach_perm; [done|perms]. }
  apply q_configure_endpoint; [from_reach|unfold COMMAND_EVENTS; from_reach|eapply reach_input; [done|member|done]|from_reach|].
  unfold COMMAND_EVENTS. intros s5 r Q5. onward Q5. destruct r as [[]|e]; [|apply Hperm; reaches].
  apply wp_bind, (r_or_release _ _ _ _ _ (n + 2 * 100000) F s0); [done..|]. unfold COMMAND_EVENTS.
  eapply r_dma_buffer; [done|lia| |intros; apply Hperm; reaches]. intros s6 report R6 Hrep.
  apply wp_ret, HQ1; [|split_and!; cbn; lia]. eapply reach_perm; [reaches|]. cbn [kind_buffers hid_interrupt_ring hid_report].
  perms.
Qed.

Lemma r_queue_interrupt_in register slot h n F s0 s (Q : St -> result HidResources InitError -> Prop) :
  reach n F s0 s -> fits 8 slot -> hid_ok h -> hid_interrupt_ring h ∈ F ->
  (forall s' h', reach n F s0 s' -> touch s s' -> hid_ok h' -> kind_buffers (KindHid h') = kind_buffers (KindHid h) ->
     hid_endpoint h' = hid_endpoint h -> Q s' (Ok h')) ->
  wp (queue_interrupt_in register (doorbell (x_ctl s)) slot h) s Q.
Proof.
  intros R Hs (Hr & Hm & Hp) Hin HQ. pose proof (reach_inv _ _ _ _ R) as Hi. unfold queue_interrupt_in.
  assert (is_ring (hid_interrupt_ring h) s) as Hring by from_reach.
  apply wp_bind, (q_store_ring (hid_interrupt_ring h) (hid_producer h)); [done|done|lia|done|]. intros s1 T1.
  apply wp_bind, q_write32; [invs|inregs|]. intros s2 T2.
  apply wp_bind, q_advance_producer; [invs|eapply touch_ring; [|done]; touches|done|]. intros s3 p cy T3 Hp3.
  assert (touch s s3) as T by touches.
  apply wp_ret, HQ; [by eapply reach_touch|done|by unfold hid_ok|done|done].
Qed.
(** The room for bringing a device up. *)
Definition ADDRESS_EVENTS : Z := 900600000.
Definition is_device port generation (d : RootDevice) : Prop :=
  device_ok d /\ rd_port d = port /\ rd_generation d = generation /\ device_usb_id d = None.
Definition kind_ok (k : DeviceKind) : Prop :=
  match k with KindHid h => hid_ok h | KindMsc m => msc_ok m /\ ms_usb_id m = None end.

Lemma r_device_kind register slot ep0 prod input bs published locals n F s0 s
    (Q : St -> result DeviceKind InitError -> Prop) :
  reach n (locals ++ published ++ F) s0 s -> room (n + 900400000) s0 -> fits 8 slot ->
  ep0 ∈ published -> 4096 <= dma_len ep0 -> 0 <= prod -> input ∈ published -> csize s0 * 33 <= dma_len input ->
  bytes bs -> llen bs < 2 ^ 63 ->
  (forall s' k, reach (n + 900400000) (kind_buffers k ++ locals ++ published ++ F) s0 s' -> kind_ok k -> Q s' (Ok k)) ->
  (forall s' e, settles (n + 900400000) F s0 s' -> Q s' (Err e)) ->
  wp (device_kind register slot ep0 prod input bs published locals) s Q.
Proof.
  intros R Hro Hs He Hel Hp Hin Hinl Hb Hl HQ1 HQ2. unfold device_kind.
  destruct (parse_hid_returns bs Hb Hl) as [r Hr]. apply wp_bind, (wp_lift _ r); [exact Hr|].
  destruct r as [ep|e0].
  - pose proof (parse_hid_packet_size _ _ Hb Hl Hr) as Hmax.
    apply wp_bind. eapply r_configure_hid; [done|eapply room_le; [done|unfold COMMAND_EVENTS; lia]|done..| |].
    2: { intros s1 e S1. apply HQ2. eapply settles_le; [done|unfold COMMAND_EVENTS; lia]. }
    unfold COMMAND_EVENTS. intros s1 h R1 Hok. apply wp_bind, q_self.
    apply wp_bind. eapply r_queue_interrupt_in; [done|done|done|left|]. intros s2 h2 R2 _ Hok2 Hk _.
    apply wp_ret, HQ1; [|done]. rewrite Hk. reaches.
  - destruct (parse_msc_returns bs Hb Hl) as [m Hm].
    apply wp_bind, (r_or_release _ _ _ _ _ (n + 900400000) F s0); [done..|].
    unfold from_desc. apply wp_bind, (wp_lift _ m); [done|]. apply wp_result.
    destruct m as [ep|e]; cbn [map_err]; [|unfold COMMAND_EVENTS; reaches].
    apply wp_bind, (r_or_release _ _ _ _ _ (n + 900400000) F s0); [done..|].
    eapply r_configure_and_probe_msc; [done|eapply room_le; [done|unfold PROBE_EVENTS; lia]|done|member|done|done|member|done| |].
    2: { unfold PROBE_EVENTS, COMMAND_EVENTS. intros; reaches. }
    unfold PROBE_EVENTS. intros s1 msc R1 Hok Hid. apply wp_ret, HQ1; [reaches|done].
Qed.

Lemma r_address_slot register slot port speed generation input output ep0 descriptor n F s0 s
    (Q : St -> result RootDevice InitError -> Prop) :
  reach n ([input; output; ep0; descriptor] ++ F) s0 s -> room (n + 900500000) s0 -> fits 8 slot ->
  csize s0 * 33 <= dma_len input -> csize s0 * 32 <= dma_len output -> 4096 <= dma_len ep0 -> 18 <= dma_len descriptor ->
  (forall s' d, reach (n + 900500000) (device_buffers d ++ F) s0 s' -> is_device port generation d -> Q s' (Ok d)) ->
  (forall s' e, settles (n + 900500000) F s0 s' -> Q s' (Err e)) ->
  wp (address_slot register slot port speed generation input output ep0 descriptor) s Q.
Proof.
  intros R Hro Hs Hinl Houtl Hel Hdl HQ1 HQ2. unfold address_slot.
  apply wp_bind, (r_or_release _ _ _ _ _ (n + 900500000) F s0); [done..|].
  apply q_publish_contexts; [from_reach|unfold COMMAND_EVENTS; from_reach|done|eapply reach_input; [done|member|done]|from_reach|].
  unfold COMMAND_EVENTS. intros s1 r Q1. onward Q1. destruct r as [[]|e]; [|reaches].
  assert (forall m L s', reach m L s0 s' -> csize s' * 32 <= dma_len output) as Hcs.
  { intros m L s' R'. by rewrite (csize_same s0 s') by apply R'. }
  apply wp_bind, q_log_ep0_context; [from_reach|from_reach|by eapply Hcs|]. intros s2 T2. onward T2.
  apply wp_bind, q_control_transfer; [from_reach|done|from_reach|done|]. intros s3 p3 r Q3 Hp3. onward Q3.
  apply wp_bind. apply (wp_mono _ _ (fun s' r => r = Ok tt /\ reach (n + 100000 + 0) ([input; output; ep0; descriptor] ++ F) s0 s')).
  { apply wp_when; intros _; [|by split]. apply q_log_ep0_context; [from_reach|from_reach|by eapply Hcs|].
    intros s4 T4. onward T4. by split. }
  intros s4 ? [-> R4].
  apply wp_bind, (r_or_release _ _ _ _ _ (n + 900500000) F s0); [done..|]. apply wp_result.
  unfold COMMAND_EVENTS. destruct r as [[]|e]; [|reaches].
  apply wp_bind. eapply r_read_configuration; [exact R4|eapply room_le; [done|unfold COMMAND_EVENTS; lia]|done|member|done|done| |].
  2: { intros s5 e S5. eapply HQ2, settles_le; [done|unfold COMMAND_EVENTS; lia]. }
  intros s5 p5 header conf bs R5 Hp5 Hb Hl.
  apply wp_bind. eapply r_device_kind; [exact R5|eapply room_le; [done|lia]|done|member|done|done|member|done|done|done| |].
  2: { intros s6 e S6. eapply HQ2, settles_le; [done|lia]. }
  intros s6 k R6 Hk. apply wp_bind.
  eapply (r_drop_buffer header (kind_buffers k ++ [conf; input; output; ep0; descriptor] ++ F)); [exact R6|perms|].
  intros s7 R7. apply wp_ret, HQ1.
  - eapply reach_perm; [reaches|]. unfold device_buffers. cbn [rd_input_context rd_output_context rd_ep0_ring
      rd_device_descriptor rd_configuration_descriptor rd_kind]. perms.
  - unfold is_device, device_ok. cbn [rd_kind rd_port rd_generation rd_slot rd_state rd_device_descriptor device_usb_id].
    destruct k as [h|m]; cbn [kind_ok] in Hk; tauto.
Qed.

Lemma r_address_port register port speed generation n F s0 s (Q : St -> result RootDevice InitError -> Prop) :
  reach n F s0 s -> room (n + ADDRESS_EVENTS) s0 ->
  (forall s' d, reach (n + ADDRESS_EVENTS) (device_buffers d ++ F) s0 s' -> is_device port generation d -> Q s' (Ok d)) ->
  (forall s' e, settles (n + ADDRESS_EVENTS) F s0 s' -> Q s' (Err e)) ->
  wp (address_port register port speed generation) s Q.
Proof.
  unfold ADDRESS_EVENTS. intros R Hro HQ1 HQ2. unfold address_port.
  apply wp_bind, q_submit_command; [from_reach|unfold COMMAND_EVENTS; from_reach|]. unfold COMMAND_EVENTS.
  intros s1 r Q1 Hslot. onward Q1. destruct r as [slot|e]; [|apply HQ2, reach_settles; reaches].
  specialize (Hslot slot eq_refl). destruct (_ =? 0); [apply wp_err, HQ2, reach_settles; reaches|].
  apply wp_bind, q_context_size. pose proof (csize_range s1).
  assert (csize s1 = csize s0) as Hcs by (apply csize_same; apply R0).
  apply wp_bind, (r_or_free _ _ _ _ (n + 900600000) F s0); [done..|]. unfold COMMAND_EVENTS.
  eapply r_dma_buffer; [done|lia| |intros; reaches]. intros s2 input R2 Hinl.
  apply wp_bind, (r_or_free _ _ _ _ (n + 900600000) F s0); [done..|]. unfold COMMAND_EVENTS.
  eapply r_dma_buffer; [done|lia| |intros; reaches]. intros s3 output R3 Houtl.
  apply wp_bind, (r_or_free _ _ _ _ (n + 900600000) F s0); [done..|]. unfold COMMAND_EVENTS.
  eapply r_dma_buffer; [done|lia| |intros; reaches]. intros s4 ep0 R4 Hel.
  apply wp_bind, (r_or_free _ _ _ _ (n + 900600000) F s0); [done..|]. unfold COMMAND_EVENTS.
  eapply r_dma_buffer; [done|lia| |intros; reaches]. intros s5 descriptor R5 Hdl.
  eapply (r_address_slot _ _ _ _ _ _ _ _ _ _ F); [eapply reach_perm; [exact R5|perms]|eapply room_le; [done|lia]|done|lia|lia|done|done| |].
  - intros s6 d R6 Hd. apply HQ1; [reaches|done].
  - intros s6 e S6. eapply HQ2, settles_le; [done|lia].
Qed.
End Address.
