(* ===== verification/XhcSound.v ===== *)
(** * The xHCI controller: the invariant between two polls

    What holds whenever no method runs: the controller's rings are live, every
    live DMA buffer belongs to the controller, to an attached device or to someone
    else, the disks of the attached devices are the registry's online block
    devices, and an active root-port record has the device it was activated with. *)

From S2P Require Import Prelude Words Dma Machine Trb UsbDesc PortRec Msc Bulk Input Hid UsbBlock XhcState XhcTransfer XhcPorts XhcQuiet XhcOwn XhcDevice.

(** ** The registry of block devices *)

Definition usb_ids (l : list UsbRecord) : list Z := ur_id <$> l.
(** The identifier [register] will hand out. *)
Definition next_id (l : list UsbRecord) : Z :=
  match l with [] => 0 | d :: ds => foldl Z.max (ur_id d) (usb_ids ds) + 1 end.

Lemma foldl_max_ge l z : z <= foldl Z.max z l /\ Forall (fun x => x <= foldl Z.max z l) l.
Proof.
  revert z. induction l as [|x l IH]; intros z; cbn [foldl]; [split; [lia|constructor]|].
  destruct (IH (Z.max z x)) as [H1 H2]. split; [lia|]. constructor; [lia|done].
Qed.
Lemma usb_id_lt l id : id ∈ usb_ids l -> id < next_id l.
Proof.
  destruct l as [|d l]; cbn; [by intros ?%elem_of_nil|]. destruct (foldl_max_ge (usb_ids l) (ur_id d)) as [H1 H2].
  rewrite elem_of_cons. rewrite Forall_forall in H2. intros [->|Hin]; [lia|]. specialize (H2 _ Hin). lia.
Qed.
Lemma register_next l blocks :
  next_id l < 2 ^ 64 -> register l blocks = Done (l ++ [mk_Record (next_id l) blocks true], next_id l).
Proof.
  intros Hn. unfold register. destruct l as [|d l]; [done|]. cbn [next_id] in *. fold (usb_ids l). unfold add_ovf.
  by destruct (Z.ltb_spec (foldl Z.max (ur_id d) (usb_ids l) + 1) (2 ^ 64)); [|lia].
Qed.
Lemma next_id_register l blocks : next_id (l ++ [mk_Record (next_id l) blocks true]) = next_id l + 1.
Proof.
  destruct l as [|d l]; [done|]. cbn [app next_id]. unfold usb_ids. rewrite fmap_app, foldl_app. cbn. lia.
Qed.
Lemma register_ids l blocks : NoDup (usb_ids l) -> NoDup (usb_ids (l ++ [mk_Record (next_id l) blocks true])).
Proof.
  intros Hn. unfold usb_ids. rewrite fmap_app. apply NoDup_app. split; [done|]. split; [|apply NoDup_singleton].
  intros x Hx. cbn. rewrite list_elem_of_singleton. apply usb_id_lt in Hx. lia.
Qed.
Lemma register_online l id blocks : online_devices (l ++ [mk_Record id blocks true]) = online_devices l ++ [(id, blocks)].
Proof. unfold online_devices. by rewrite filter_app, fmap_app. Qed.

Lemma offline_ids l id : usb_ids (offline l id) = usb_ids l.
Proof. induction l as [|d l IH]; cbn; [done|]. destruct (_ =? _); cbn; [done|]. f_equal. exact IH. Qed.
Lemma offline_next_id l id : next_id (offline l id) = next_id l.
Proof.
  destruct l as [|d l]; [done|]. cbn. destruct (_ =? _); cbn; [done|]. by rewrite offline_ids.
Qed.
Lemma online_cons d l :
  online_devices (d :: l) = if ur_online d then (ur_id d, ur_blocks d) :: online_devices l else online_devices l.
Proof.
  unfold online_devices. rewrite filter_cons. destruct (ur_online d); [by rewrite decide_True|by rewrite decide_False].
Qed.
Lemma online_id l id blocks : (id, blocks) ∈ online_devices l -> id ∈ usb_ids l.
Proof.
  unfold online_devices. rewrite list_elem_of_fmap. intros (d & [= -> ->] & Hd).
  apply list_elem_of_filter in Hd as [_ Hd]. by apply list_elem_of_fmap_2.
Qed.
Lemma offline_online l id blocks :
  NoDup (usb_ids l) -> (id, blocks) ∈ online_devices l ->
  online_devices l ≡ₚ (id, blocks) :: online_devices (offline l id).
Proof.
  induction l as [|d l IH]; [by intros _ ?%elem_of_nil|]. cbn [usb_ids fmap list_fmap]. rewrite NoDup_cons. intros [Hd Hn].
  cbn [offline]. destruct (Z.eqb_spec (ur_id d) id) as [<-|Hne].
  - rewrite !online_cons. cbn [ur_online]. destruct (ur_online d).
    + rewrite elem_of_cons. intros [[= ->]|Hin%online_id]; [done|contradiction].
    + intros Hin%online_id. contradiction.
  - rewrite !online_cons. destruct (ur_online d); [|auto].
    rewrite elem_of_cons. intros [[= -> ->]|Hin]; [done|]. rewrite (IH Hn Hin). by constructor.
Qed.
Lemma offline_absent l id :
  (forall blocks, (id, blocks) ∉ online_devices l) -> online_devices (offline l id) = online_devices l.
Proof.
  induction l as [|d l IH]; [done|]. intros Hin. cbn [offline]. setoid_rewrite online_cons in Hin.
  destruct (Z.eqb_spec (ur_id d) id) as [<-|Hne]; rewrite !online_cons; cbn [ur_online]; destruct (ur_online d); [|done| |].
  - exfalso. eapply Hin. left.
  - f_equal. apply IH. intros b Hb. eapply Hin. right. exact Hb.
  - apply IH. exact Hin.
Qed.

(** ** The disks of the attached devices *)

Definition disk_of (d : RootDevice) : option (Z * Z) :=
  match rd_kind d with
  | KindMsc msc => (fun id => (id, blocks (ms_capacity msc))) <$> ms_usb_id msc
  | KindHid _ => None
  end.
Definition disks (l : list RootDevice) : list (Z * Z) := concat (map (fun d => option_list (disk_of d)) l).
Definition bufs (l : list RootDevice) : list DmaBuffer := concat (map device_buffers l).
(** The device an active record was activated with. *)
Definition device_key (d : RootDevice) : Z * Z := (rd_port d, rd_generation d).
Definition has_active (l : list RootDevice) (r : PortRecord) : Prop :=
  pr_state r = Active -> (pr_port r, pr_generation r) ∈ map device_key l.

Lemma device_usb_id_disk d : device_usb_id d = fst <$> disk_of d.
Proof. unfold device_usb_id, disk_of. destruct (rd_kind d); [done|]. by destruct (ms_usb_id msc). Qed.
Lemma bufs_app l1 l2 : bufs (l1 ++ l2) = bufs l1 ++ bufs l2.
Proof. unfold bufs. by rewrite map_app, concat_app. Qed.
Lemma disks_app l1 l2 : disks (l1 ++ l2) = disks l1 ++ disks l2.
Proof. unfold disks. by rewrite map_app, concat_app. Qed.
Lemma bufs_delete l i d : l !! i = Some d -> bufs l ≡ₚ device_buffers d ++ bufs (delete i l).
Proof.
  intros Hi. rewrite <- (take_drop_middle _ _ _ Hi) at 1. rewrite delete_take_drop, !bufs_app.
  unfold bufs at 2. cbn. fold (bufs (drop (S i) l)). perms.
Qed.
Lemma disks_delete l i d : l !! i = Some d -> disks l ≡ₚ option_list (disk_of d) ++ disks (delete i l).
Proof.
  intros Hi. rewrite <- (take_drop_middle _ _ _ Hi) at 1. rewrite delete_take_drop, !disks_app.
  unfold disks at 2. cbn. fold (disks (drop (S i) l)). rewrite !app_assoc. f_equiv. apply Permutation_app_comm.
Qed.
Lemma list_insert_same {A B} (f : A -> B) (l : list A) i x y : l !! i = Some x -> f y = f x -> map f (<[i:=y]> l) = map f l.
Proof. intros Hi Hf. change (f <$> <[i:=y]> l = f <$> l). rewrite list_fmap_insert, Hf. apply list_insert_id. by rewrite list_lookup_fmap, Hi. Qed.

Section Sound.
Context {D I : Type} `{MachineLaws D} `{InputSinkLaws I} {B : Bar}.
Abbreviation St := (Xhc D I).
Implicit Types (s : St) (c : ControllerResources) (register : BarRegister) (b : DmaBuffer) (F L : list DmaBuffer)
  (E : list (Z * Z)).

(** [F] are the live buffers of everyone else. *)
Record sound F s : Prop := {
  so_owns : exists leak, owns (bufs (ports (x_ctl s)) ++ leak ++ F) s /\ (healthy (x_ctl s) = true -> leak = []);
  so_ids : NoDup (usb_ids (x_usb s));
  so_input : sink_ok (x_input s);
  so_devices : Forall device_ok (ports (x_ctl s));
}.
(** The registry and the attached disks agree, up to the disks [E] of other
    controllers and, once the controller is unhealthy, disks that are gone. *)
Definition disks_ok E s : Prop :=
  exists gone, disks (ports (x_ctl s)) ++ E ≡ₚ gone ++ online_devices (x_usb s) /\
    (healthy (x_ctl s) = true -> gone = []).
(** Records of distinct ports: an active one has its device. *)
Definition active_ok c : Prop :=
  NoDup (pr_port <$> root_ports c) -> Forall (has_active (ports c)) (root_ports c).

(** From [s0], with at most [n] events taken and [k] disks registered; records that
    had their devices still have them. *)
Record goes n k F s0 s : Prop := {
  go_sound : sound F s;
  go_count : event_count (x_ctl s) <= event_count (x_ctl s0) + n;
  go_ids : next_id (x_usb s) <= next_id (x_usb s0) + k;
  go_healthy : healthy (x_ctl s) = true -> healthy (x_ctl s0) = true;
  go_active : active_ok (x_ctl s0) -> active_ok (x_ctl s);
  go_disks : forall E, disks_ok E s0 -> disks_ok E s;
}.
(** The same without the records: what the enumeration at boot promises. *)
Record comes n k F s0 s : Prop := {
  cm_sound : sound F s;
  cm_count : event_count (x_ctl s) <= event_count (x_ctl s0) + n;
  cm_ids : next_id (x_usb s) <= next_id (x_usb s0) + k;
  cm_healthy : healthy (x_ctl s) = true -> healthy (x_ctl s0) = true;
  cm_disks : forall E, disks_ok E s0 -> disks_ok E s;
}.
Lemma goes_comes n k F s0 s : goes n k F s0 s -> comes n k F s0 s.
Proof. by intros []. Qed.
Lemma comes_goes n k F s0 s : comes n k F s0 s -> (active_ok (x_ctl s0) -> active_ok (x_ctl s)) -> goes n k F s0 s.
Proof. by intros [] ?. Qed.
Lemma comes_trans n1 k1 n2 k2 F s0 s1 s2 :
  comes n1 k1 F s0 s1 -> comes n2 k2 F s1 s2 -> comes (n1 + n2) (k1 + k2) F s0 s2.
Proof. intros [] []. split; [done|lia|lia|auto|auto]. Qed.
Lemma comes_le n1 k1 n2 k2 F s0 s : comes n1 k1 F s0 s -> n1 <= n2 -> k1 <= k2 -> comes n2 k2 F s0 s.
Proof. intros [] ? ?. split; [done|lia|lia|auto|auto]. Qed.
Lemma goes_start F s : sound F s -> goes 0 0 F s s.
Proof. intros. split; try done; lia. Qed.
Lemma goes_trans n1 k1 n2 k2 F s0 s1 s2 :
  goes n1 k1 F s0 s1 -> goes n2 k2 F s1 s2 -> goes (n1 + n2) (k1 + k2) F s0 s2.
Proof. intros [] []. split; [done|lia|lia|auto|auto|auto]. Qed.
Lemma goes_le n1 k1 n2 k2 F s0 s : goes n1 k1 F s0 s -> n1 <= n2 -> k1 <= k2 -> goes n2 k2 F s0 s.
Proof. intros [] ? ?. split; [done|lia|lia|auto|auto|auto]. Qed.
Lemma sound_inv F s : sound F s -> inv s.
Proof. intros [(leak & Ho & _)]. by eapply owns_inv. Qed.

Lemma evolves_ports l l' : Forall2 evolves l l' -> pr_port <$> l' = pr_port <$> l.
Proof. induction 1 as [|r r' l l' [Hp _] _ IH]; cbn; [done|]. by rewrite Hp, IH. Qed.
Lemma evolves_active P l l' : Forall2 evolves l l' -> Forall (has_active P) l -> Forall (has_active P) l'.
Proof.
  induction 1 as [|r r' l l' [Hp Ha] _ IH]; [done|]. rewrite !Forall_cons. intros [Hr Hl]. split; [|auto].
  intros Hact. destruct (Ha Hact) as [Hact0 Hg]. rewrite Hp, Hg. by apply Hr.
Qed.

Lemma steps_active c c' : same_ctl c c' -> active_ok c -> active_ok c'.
Proof.
  intros Hc Ha. unfold active_ok. rewrite (evolves_ports _ _ (sc_records _ _ Hc)), (sc_ports _ _ Hc). intros Hn.
  eapply evolves_active; [apply Hc|by apply Ha].
Qed.

(** Programs that touch neither the devices nor the registry. *)
Lemma sound_settles n F leak s0 s :
  sound F s0 -> settles n (bufs (ports (x_ctl s0)) ++ leak ++ F) s0 s ->
  (healthy (x_ctl s0) = true -> leak = []) -> goes n 0 F s0 s.
Proof.
  intros [_ Hi Hk Hd] (leak' & [Ho [Hu Hin Hc Hh Hn]] & Hl') Hl.
  pose proof (sc_ports _ _ Hc) as Hp.
  split; [|done|rewrite Hu; lia|exact Hh|by apply steps_active|].
  2: { intros E (gone & Hg & Hgh). exists gone. rewrite Hp, Hu. auto. }
  split; rewrite ?Hp, ?Hu, ?Hin; try done.
  - exists (leak' ++ leak). split; [eapply owns_perm; [|exact Ho]; perms|]. intros Hht. by rewrite Hl', Hl by auto.
Qed.
Lemma sound_reach F s : sound F s ->
  exists leak, reach 0 (bufs (ports (x_ctl s)) ++ leak ++ F) s s /\ (healthy (x_ctl s) = true -> leak = []).
Proof. intros [(leak & Ho & Hl)]. exists leak. split; [by apply reach_start|done]. Qed.
Lemma goes_quiet n F s s' : sound F s -> quiet n s s' -> goes n 0 F s s'.
Proof.
  intros Hs Hq. destruct (sound_reach _ _ Hs) as (leak & R & Hl). eapply sound_settles; [done| |exact Hl].
  apply reach_settles. eapply reach_le; [by eapply reach_quiet|lia].
Qed.

(** A change of the input sink alone. *)
Lemma sound_input F s i : sound F s -> sink_ok i -> sound F (s <| x_input := i |>).
Proof. intros [? ? _ ?] ?. by split. Qed.

(** Records of ports on which nothing is activated. *)
Lemma quiet_records s l :
  inv s -> Forall2 evolves (root_ports (x_ctl s)) l ->
  quiet 0 s (s <| x_ctl := (x_ctl s) <| root_ports := l |> |>).
Proof. intros Hi Hl. apply quiet_ctl; try done; [apply Hi..|cbn; lia]. Qed.

Lemma evolves_stage r st : st <> Active -> evolves r (mark_stage r st).
Proof. intros Hst. split; [done|]. intros Ha. contradiction. Qed.
Lemma evolves_failed r now : evolves r (mark_failed r now).
Proof. by split. Qed.

Lemma q_modify_record port f s (Q : St -> result unit InitError -> Prop) :
  inv s -> (forall r, evolves r (f r)) -> (forall s', quiet 0 s s' -> Q s' (Ok tt)) -> wp (modify_record port f) s Q.
Proof.
  intros Hi Hf HQ. apply q_modify_self, HQ, quiet_records; [done|]. by apply Forall2_update_record; [apply _|].
Qed.
Lemma q_fail_record port s (Q : St -> result unit InitError -> Prop) :
  inv s -> (forall s', quiet 0 s s' -> Q s' (Ok tt)) -> wp (fail_record port) s Q.
Proof. intros Hi HQ. apply wp_bind, q_self, q_modify_record; [done| |done]. intros. apply evolves_failed. Qed.
Lemma update_current_evolves port g l :
  Forall2 evolves l (update_current port g (fun r => mark_stage r Disconnected) l).
Proof.
  induction l as [|r l IH]; cbn [update_current]; [constructor|].
  case_match; constructor; [by apply evolves_stage|reflexivity|reflexivity|done].
Qed.

(** The controller's own part of the invariant does not depend on the devices. *)
Lemma inv_ports s l : inv s -> inv (s <| x_ctl := (x_ctl s) <| ports := l |> |>).
Proof. intros [? [? ? ? ? ? ? []]]. by split. Qed.
End Sound.
