(* ===== verification/XhcPoll.v ===== *)
(** * The xHCI controller: one poll

    Every branch of [poll] and of a block read keeps the invariant of [XhcSound],
    whatever the hardware does. *)

From S2P Require Import Prelude Words Dma Machine Trb UsbDesc PortRec Msc Bulk Input Hid UsbBlock XhcState XhcTransfer XhcPorts XhcQuiet XhcOwn XhcDevice XhcSound.

Section Events.
Context {D I : Type} `{MachineLaws D} `{InputSinkLaws I} {B : Bar}.
Abbreviation St := (Xhc D I).
Implicit Types (s : St) (c : ControllerResources) (register : BarRegister) (b : DmaBuffer) (F L : list DmaBuffer)
  (E : list (Z * Z)).

(** ** Reports *)

(** The machine and the input sink moved. *)
Record mild F s s' : Prop := {
  mi_sound : sound F s';
  mi_ctl : x_ctl s' = x_ctl s;
  mi_usb : x_usb s' = x_usb s;
}.
Lemma mild_touch F s s1 s2 : mild F s s1 -> touch s1 s2 -> mild F s s2.
Proof.
  intros [Hs Hc Hu] T. split; [|rewrite (to_ctl _ _ T); done|rewrite (to_usb _ _ T); done].
  by eapply go_sound, goes_quiet, touch_quiet.
Qed.
Lemma mild_input F s s1 i : mild F s s1 -> sink_ok i -> mild F s (s1 <| x_input := i |>).
Proof. intros [? ? ?] ?. split; [by apply sound_input|done..]. Qed.
Lemma mild_goes F s s' : mild F s s' -> goes 0 0 F s s'.
Proof. intros [? Hc Hu]. split; unfold active_ok, disks_ok; rewrite ?Hc, ?Hu; try done; lia. Qed.

Lemma in_bufs l d b : d ∈ l -> b ∈ device_buffers d -> b ∈ bufs l.
Proof.
  intros Hd Hb. apply list_elem_of_In, in_concat. exists (device_buffers d).
  split; [apply in_map|]; by apply list_elem_of_In.
Qed.
Lemma sound_live F s d b : sound F s -> d ∈ ports (x_ctl s) -> b ∈ device_buffers d -> b ∈ live (x_hw s).
Proof.
  intros [(leak & Ho & _)] Hd Hb. eapply owns_in; [exact Ho|]. apply elem_of_app. left. by eapply in_bufs.
Qed.

Lemma w_submit {A} (f : I -> A -> outcome I) F s0 s (l : list A) (Q : St -> result unit InitError -> Prop) :
  (forall i a, sink_ok i -> exists i', f i a = Done i' /\ sink_ok i') ->
  mild F s0 s -> (forall s', mild F s0 s' -> Q s' (Ok tt)) ->
  wp (p_each l (fun a s => i ← f (x_input s) a; Done (s <| x_input := i |>, Ok tt))) s Q.
Proof.
  intros Hf Hs HQ. eapply (wp_each _ _ (fun _ s' => mild F s0 s')); [done| |done].
  intros a k s1 Hs1. destruct (Hf (x_input s1) a) as (i & Hi & Hok); [apply Hs1|].
  unfold wp. rewrite Hi. eexists _, _. split; [reflexivity|]. by apply mild_input.
Qed.

Lemma w_take_report h residual F s (Q : St -> result HidResources InitError -> Prop) :
  sound F s -> hid_ok h -> hid_report h ∈ live (x_hw s) -> 0 <= residual ->
  (forall s' h', mild F s s' -> hid_ok h' -> kind_buffers (KindHid h') = kind_buffers (KindHid h) -> Q s' (Ok h')) ->
  wp (take_report h residual) s Q.
Proof.
  intros Hs Hok Hin Hr HQ. unfold take_report. cbn zeta. destruct Hok as (? & Hmax & ?) eqn:E0. clear E0.
  destruct (Z.leb_spec residual (hid_max_packet_size (hid_endpoint h))).
  2: { apply wp_ret, HQ; [by split|done|done]. }
  apply wp_bind, (q_load_bytes (hid_report h)); [by eapply sound_inv|done|apply in_start; lia|lia|].
  intros s1 report T1 _ _. assert (mild F s s1) as M1 by (eapply mild_touch; [|done]; by split).
  destruct (hid_input h) as [st|st]; [unfold keyboard_submit_report; destruct (for_each_scancode st report) as [st' out]
    |unfold mouse_submit_report; destruct (for_each_event st report) as [st' out]]; do 2 apply wp_bind;
  (eapply w_submit; [apply keyboard_law || apply mouse_law|exact M1|]); intros s2 M2; do 2 apply wp_ret; by apply HQ.
Qed.

(** A device replaced by one that owns the same. *)
Lemma sound_update_device F s i d d' :
  sound F s -> ports (x_ctl s) !! i = Some d -> device_buffers d' = device_buffers d -> device_ok d' ->
  sound F (s <| x_ctl := (x_ctl s) <| ports := <[i := d']> (ports (x_ctl s)) |> |>).
Proof.
  intros [(leak & [Hi Ho] & Hl) Hids Hin Hd] Hlook Hbufs Hok.
  assert (bufs (<[i:=d']> (ports (x_ctl s))) = bufs (ports (x_ctl s))) as Eb.
  { unfold bufs. by rewrite (list_insert_same _ _ _ d). }
  split; cbn [x_ctl x_usb x_input x_hw update ports root_ports healthy]; try done.
  - exists leak. rewrite Eb. split; [|done]. split; [by apply inv_ports|done].
  - by apply Forall_insert.
Qed.
Lemma active_update_device c i d d' :
  ports c !! i = Some d -> device_key d' = device_key d -> active_ok c ->
  active_ok (c <| ports := <[i := d']> (ports c) |>).
Proof.
  intros Hi Hk Ha Hn. specialize (Ha Hn). unfold has_active. cbn [ports root_ports update].
  rewrite (list_insert_same _ _ _ d); [exact Ha|done..].
Qed.
Lemma disks_update_device E s i d d' :
  ports (x_ctl s) !! i = Some d -> disk_of d' = disk_of d -> disks_ok E s ->
  disks_ok E (s <| x_ctl := (x_ctl s) <| ports := <[i := d']> (ports (x_ctl s)) |> |>).
Proof.
  intros Hi Hk (gone & Hg & Hgh). exists gone. split; [|exact Hgh]. cbn [x_ctl x_usb update ports].
  unfold disks. rewrite (list_insert_same _ _ _ d); [exact Hg|done|by rewrite Hk].
Qed.

Lemma device_hid_ok s F i d h :
  sound F s -> ports (x_ctl s) !! i = Some d -> rd_kind d = KindHid h -> fits 8 (rd_slot d) /\ 18 <= dma_len (rd_device_descriptor d) /\ hid_ok h.
Proof.
  intros Hs Hi Hk. pose proof (so_devices _ _ Hs) as Hd. rewrite Forall_forall in Hd.
  specialize (Hd d (list_elem_of_lookup_2 _ _ _ Hi)). unfold device_ok in Hd. rewrite Hk in Hd. tauto.
Qed.

(** The report of a keyboard or mouse is taken and its transfer queued again. *)
Lemma g_transfer_event register event F s (Q : St -> result unit InitError -> Prop) :
  sound F s -> trb_wf event -> (forall s', goes 0 0 F s s' -> Q s' (Ok tt)) ->
  wp (transfer_event register event) s Q.
Proof.
  intros Hs Hev HQ. unfold transfer_event. apply wp_bind, q_self.
  destruct (list_find _ _) as [[i device]|] eqn:Ef; [|by apply wp_ret, HQ, goes_start].
  apply list_find_Some in Ef as (Hi & _ & _).
  destruct (rd_kind device) as [h|m] eqn:Ek; [|by apply wp_ret, HQ, goes_start].
  destruct (device_hid_ok _ _ _ _ _ Hs Hi Ek) as (Hslot & Hdl & Hh).
  assert (forall b, b ∈ kind_buffers (KindHid h) -> b ∈ device_buffers device) as Hb.
  { intros b Hb. unfold device_buffers. rewrite Ek. apply elem_of_app. by right. }
  apply wp_bind, (wp_mono _ _ (fun s1 r => exists h1, r = Ok h1 /\ mild F s s1 /\ hid_ok h1 /\
    kind_buffers (KindHid h1) = kind_buffers (KindHid h))).
  { destruct (_ || _).
    - apply (w_take_report _ _ F); [done|done| |apply Z.land_nonneg; lia|eauto].
      eapply sound_live; [done|by eapply list_elem_of_lookup_2|]. apply Hb. right. left.
    - apply wp_ret. exists h. by split_and!. }
  intros s1 ? (h1 & -> & M1 & Hh1 & Hk1). destruct (sound_reach _ _ (mi_sound _ _ _ M1)) as (leak & R & _).
  apply wp_bind. rewrite <- (mi_ctl _ _ _ M1). eapply r_queue_interrupt_in; [exact R|apply fits_wrap; lia|done| |].
  { apply elem_of_app. left. rewrite (mi_ctl _ _ _ M1). injection Hk1 as Hk1 _. rewrite Hk1.
    eapply in_bufs; [by eapply list_elem_of_lookup_2|apply Hb; left]. }
  intros s2 h2 _ T2 Hh2 Hk2 _. pose proof (mild_touch _ _ _ _ M1 T2) as M2.
  apply q_modify_self, HQ.
  assert (sound F (s2 <| x_ctl := (x_ctl s2) <| ports := <[i := device <| rd_kind := KindHid h2 |>]> (ports (x_ctl s2)) |> |>)) as Hs3.
  { apply (sound_update_device _ _ _ device); [apply M2|by rewrite (mi_ctl _ _ _ M2)| |done].
    unfold device_buffers. cbn [rd_input_context rd_output_context rd_ep0_ring rd_device_descriptor
      rd_configuration_descriptor rd_kind update]. by rewrite Ek, Hk2, Hk1. }
  destruct (mild_goes _ _ _ M2) as [? ? ? ? Ha2 He2]. split; try done.
  - intros Ha. apply (active_update_device _ _ device); [by rewrite (mi_ctl _ _ _ M2)|done|by apply Ha2].
  - intros E He. apply (disks_update_device _ _ _ device); [by rewrite (mi_ctl _ _ _ M2)| |by apply He2].
    unfold disk_of. cbn [rd_kind update]. by rewrite Ek.
Qed.

(** One event of the ring. *)
Lemma g_poll_event register F s (Q : St -> result (option unit) InitError -> Prop) :
  sound F s -> room 1 s -> (forall s' r, goes 1 0 F s s' -> Q s' (Ok r)) -> wp (poll_event register) s Q.
Proof.
  intros Hs Hr HQ. pose proof (sound_inv _ _ Hs) as Hi. unfold poll_event.
  apply wp_bind, q_next_event; [done|]. intros s1 ev T1 Hev. apply wp_bind, q_self.
  assert (forall s', quiet 0 s s' -> goes 1 0 F s s') as Hq.
  { intros s' Q'. eapply goes_le; [by apply goes_quiet|lia|lia]. }
  destruct (negb _); [apply wp_ret, HQ, Hq; by apply touch_quiet|].
  apply wp_bind, q_acknowledge_event; [invs|by eapply touch_room|]. intros s2 Q2.
  assert (goes 1 0 F s s2) as G2 by (apply goes_quiet; [done|quiets]).
  destruct (port_status_change_event ev) as [port|] eqn:Ep.
  - apply wp_bind, q_handle_port_status_change; [invs|by eapply port_event_range|]. intros s3 Q3.
    apply wp_ret, HQ, goes_quiet; [done|quiets].
  - destruct (negb _); [by apply wp_ret, HQ|]. apply wp_bind. eapply g_transfer_event; [apply G2|done|].
    intros s3 G3. apply wp_ret, HQ. eapply goes_le; [eapply goes_trans; [exact G2|exact G3]|lia|lia].
Qed.
End Events.

(** ** Records and devices *)

Lemma mark_active_active P P' port generation l :
  NoDup (pr_port <$> l) ->
  existsb (fun r => (pr_port r =? port) && generation_matches r generation) l = true ->
  Forall (has_active P) l -> (port, generation) ∈ map device_key P' ->
  (forall k, k ∈ map device_key P -> k ∈ map device_key P') ->
  Forall (has_active P') (update_record port mark_active l).
Proof.
  intros Hn Hex Hl Hin Hsub.
  assert (forall l, Forall (has_active P) l -> Forall (has_active P') l) as Hmono.
  { intros k Hk. eapply Forall_impl; [exact Hk|]. intros r Hr Ha. auto. }
  induction l as [|r l IH]; [done|]. cbn [update_record existsb] in *.
  rewrite fmap_cons, NoDup_cons in Hn. destruct Hn as [Hr Hn]. apply Forall_cons in Hl as [Hr1 Hl].
  destruct (Z.eqb_spec (pr_port r) port) as [<-|Hne]; cbn [andb orb] in Hex.
  - constructor; [|auto]. intros _. cbn. destruct (generation_matches r generation) eqn:Eg.
    + apply Z.eqb_eq in Eg. by rewrite Eg.
    + exfalso. apply Hr. cbn in Hex. apply existsb_exists in Hex as (r' & Hr' & Hm). reflect_bools.
      apply list_elem_of_fmap. exists r'. split; [done|by apply list_elem_of_In].
  - constructor; [intros Ha; auto|auto].
Qed.

Lemma update_record_ports port f l :
  (forall r, pr_port (f r) = pr_port r) -> pr_port <$> update_record port f l = pr_port <$> l.
Proof. intros Hf. induction l as [|r l IH]; cbn; [done|]. destruct (_ =? _); cbn; [by rewrite Hf|by f_equal]. Qed.

Lemma delete_active l i d port r :
  l !! i = Some d -> rd_port d = port -> pr_port r <> port -> has_active l r -> has_active (delete i l) r.
Proof.
  intros Hi Hd Hp Hr Ha. specialize (Hr Ha). rewrite <- (take_drop_middle _ _ _ Hi), map_app in Hr.
  rewrite delete_take_drop, map_app. rewrite elem_of_app in *. cbn in Hr. rewrite elem_of_cons in Hr.
  destruct Hr as [?|[[= ? ?]|?]]; [by left|congruence|by right].
Qed.

(** No record of a port is active. *)
Definition inactive port (l : list PortRecord) : Prop := Forall (fun r => pr_port r = port -> pr_state r <> Active) l.
Lemma evolves_inactive port l l' : Forall2 evolves l l' -> inactive port l -> inactive port l'.
Proof.
  unfold inactive. induction 1 as [|r r' l l' [Hp Ha] _ IH]; [done|]. rewrite !Forall_cons. intros [Hr Hl].
  split; [|auto]. intros Hp' Ha'. rewrite Hp in Hp'. destruct (Ha Ha'). by apply Hr.
Qed.

Section Work.
Context {D I : Type} `{MachineLaws D} `{InputSinkLaws I} {B : Bar}.
Abbreviation St := (Xhc D I).
Implicit Types (s : St) (c : ControllerResources) (register : BarRegister) (b : DmaBuffer) (F L : list DmaBuffer)
  (E : list (Z * Z)).

(** A new device joins the controller, with its disk in the registry. *)
Lemma sound_push n F leak s0 s d d' usb' l' :
  sound F s0 -> reach n (device_buffers d ++ bufs (ports (x_ctl s0)) ++ leak ++ F) s0 s ->
  (healthy (x_ctl s0) = true -> leak = []) ->
  device_ok d' -> device_buffers d' = device_buffers d -> NoDup (usb_ids usb') ->
  pr_port <$> l' = pr_port <$> root_ports (x_ctl s) ->
  sound F (s <| x_usb := usb' |> <| x_ctl := (x_ctl s) <| ports := ports (x_ctl s) ++ [d'] |> <| root_ports := l' |> |>).
Proof.
  intros [_ Hi Hk Hd] [[Hinv Ho] [Hu Hin Hc Hh Hn]] Hl Hok Hb Hids Hp.
  pose proof (sc_ports _ _ Hc) as Hps.
  split; cbn [x_ctl x_usb x_input x_hw update ports root_ports healthy]; rewrite ?Hps, ?Hin; try done.
  - exists leak. split; [|auto]. split.
    + destruct Hinv as [Hm [? ? ? ? ? ? []]]. split; [done|]. split; try done. cbn.
      apply (Forall_fmap pr_port (fun p => 1 <= p <= 255)). rewrite Hp. by apply Forall_fmap.
    + change (live (x_hw s) ≡ₚ own_ctl (x_ctl s) ++ bufs (ports (x_ctl s0) ++ [d']) ++ leak ++ F). rewrite Ho, bufs_app.
      change (bufs [d']) with (device_buffers d' ++ []). rewrite Hb. perms.
  - apply Forall_app. split; [done|]. by constructor.
Qed.

Lemma disks_push n E s0 s d' usb' c' :
  steps n s0 s -> online_devices usb' ≡ₚ option_list (disk_of d') ++ online_devices (x_usb s) ->
  ports c' = ports (x_ctl s) ++ [d'] -> (healthy c' = true -> healthy (x_ctl s) = true) -> disks_ok E s0 ->
  disks_ok E (s <| x_usb := usb' |> <| x_ctl := c' |>).
Proof.
  intros [Hu _ Hc Hh _] Hon Hp Hh' (gone & Hg & Hgh). exists gone. split; [|cbn; auto]. cbn [x_ctl x_usb update].
  rewrite Hp, (sc_ports _ _ Hc), disks_app, Hon, Hu. change (disks [d']) with (option_list (disk_of d') ++ []).
  rewrite app_nil_r, (Permutation_app_comm gone), <- !app_assoc, (Permutation_app_comm _ gone), <- Hg.
  rewrite (app_assoc (disks _)), (Permutation_app_comm (disks _)). by rewrite <- app_assoc.
Qed.

Lemma map_key_app l d k : k ∈ map device_key l -> k ∈ map device_key (l ++ [d]).
Proof. rewrite map_app, elem_of_app. by left. Qed.

Lemma g_attach n F leak s0 s d port generation (Q : St -> result unit InitError -> Prop) :
  sound F s0 -> reach n (device_buffers d ++ bufs (ports (x_ctl s0)) ++ leak ++ F) s0 s ->
  (healthy (x_ctl s0) = true -> leak = []) -> next_id (x_usb s0) < 2 ^ 64 -> is_device port generation d ->
  (forall s', comes n 1 F s0 s' ->
     (existsb (fun r => (pr_port r =? port) && generation_matches r generation) (root_ports (x_ctl s)) = true ->
      active_ok (x_ctl s0) -> active_ok (x_ctl s')) -> Q s' (Ok tt)) ->
  wp (attach d ;! modify_record port mark_active) s Q.
Proof.
  intros Hs R Hl Hid (Hok & Hport & Hgen & Hnone) HQ. pose proof R as [[Hinv Ho] [Hu Hin Hc Hh Hn]].
  assert (forall d' usb', device_ok d' -> device_buffers d' = device_buffers d -> device_key d' = device_key d ->
    NoDup (usb_ids usb') -> online_devices usb' ≡ₚ option_list (disk_of d') ++ online_devices (x_usb s) ->
    next_id usb' <= next_id (x_usb s0) + 1 ->
    Q (s <| x_usb := usb' |> <| x_ctl := (x_ctl s) <| ports := ports (x_ctl s) ++ [d'] |>
      <| root_ports := update_record port mark_active (root_ports (x_ctl s)) |> |>) (Ok tt)) as Hg.
  { intros d' usb' Hok' Hb' Hk' Hids Hon Hnext. apply HQ; [split; [|done|done|done|]|].
    2: { intros E He. eapply disks_push; [apply R|exact Hon|done|done|done]. }
    { eapply sound_push; [done|exact R|done..|by apply update_record_ports]. }
    intros Hex Ha Hnd. cbn [x_ctl update root_ports ports] in *. rewrite update_record_ports in Hnd by done.
    apply (mark_active_active (ports (x_ctl s)) _ _ generation); [done|done|by apply (steps_active _ _ Hc Ha)| |].
    - rewrite map_app, elem_of_app. right. cbn. rewrite Hk'. unfold device_key. rewrite Hport, Hgen. left.
    - intros k. apply map_key_app. }
  unfold attach. do 2 apply wp_bind. pose proof (so_ids _ _ Hs) as Hids. rewrite <- Hu in Hids, Hid.
  destruct (rd_kind d) as [h|m] eqn:Ek.
  - apply wp_ret, q_modify_self, q_modify_self. apply (Hg d (x_usb s)); try done; [|rewrite Hu; lia].
    unfold disk_of. by rewrite Ek.
  - unfold wp at 1. rewrite register_next by done. eexists _, _. split; [reflexivity|]. cbn beta iota.
    apply q_modify_self, q_modify_self.
    apply (Hg (d <| rd_kind := KindMsc (m <| ms_usb_id := Some (next_id (x_usb s)) |>) |>)
             (x_usb s ++ [mk_Record (next_id (x_usb s)) (blocks (ms_capacity m)) true])); try done.
    + destruct Hok as (? & ? & Hm). rewrite Ek in Hm. split; [done|]. split; [done|]. exact Hm.
    + unfold device_buffers. cbn. by rewrite Ek.
    + by apply register_ids.
    + rewrite register_online. unfold disk_of. cbn. apply Permutation_app_comm.
    + rewrite next_id_register, Hu. lia.
Qed.

Lemma q_stage_current port generation stage s (Q : St -> result bool InitError -> Prop) :
  inv s -> stage <> Active -> (forall s' ok, quiet 0 s s' -> Q s' (Ok ok)) -> wp (stage_current port generation stage) s Q.
Proof.
  intros Hi Hst HQ. unfold stage_current. apply wp_bind, q_self.
  destruct (find_record _ _) as [r|]; [|by apply wp_ret, HQ, quiet_refl].
  destruct (generation_matches _ _); [|by apply wp_ret, HQ, quiet_refl].
  apply wp_bind, q_modify_record; [done|intros; by apply evolves_stage|]. intros s1 Q1. by apply wp_ret, HQ.
Qed.

Lemma q_port_is_current port generation s (Q : St -> result bool InitError -> Prop) :
  inv s -> 1 <= port <= 255 ->
  (forall s' ok, touch s s' -> (ok = true -> existsb (fun r => (pr_port r =? port) && generation_matches r generation)
     (root_ports (x_ctl s')) = true) -> Q s' (Ok ok)) ->
  wp (port_is_current port generation) s Q.
Proof.
  intros Hi Hp HQ. unfold port_is_current. apply wp_bind, q_self, wp_bind, q_port_offset; [done|done|]. intros off Hoff.
  apply wp_bind. change (mk_RegisterBlock _) with (bar_block (own_register (x_ctl s) (co_regs _ _ (proj2 Hi)))).
  apply q_read32; [done|done|]. intros s1 v T1 _. apply wp_ret, HQ; [done|]. rewrite (to_ctl _ _ T1).
  by intros [_ ?]%andb_prop.
Qed.

(** What the outcome of [address_port] becomes. *)
Lemma g_attach_or_release register port generation r n F leak s0 s (Q : St -> result unit InitError -> Prop) :
  sound F s0 -> (healthy (x_ctl s0) = true -> leak = []) -> 1 <= port <= 255 -> next_id (x_usb s0) < 2 ^ 64 ->
  room (n + COMMAND_EVENTS) s0 ->
  match r with
  | Ok d => reach n (device_buffers d ++ bufs (ports (x_ctl s0)) ++ leak ++ F) s0 s /\ is_device port generation d
  | Err _ => settles n (bufs (ports (x_ctl s0)) ++ leak ++ F) s0 s
  end ->
  (forall s', goes (n + COMMAND_EVENTS) 1 F s0 s' -> Q s' (Ok tt)) ->
  wp (attach_or_release register port generation r) s Q.
Proof.
  intros Hs Hl Hp Hid Hro Hr HQ. unfold attach_or_release.
  assert (forall s' k, goes k 0 F s0 s' -> k <= n + COMMAND_EVENTS -> Q s' (Ok tt)) as HQ'.
  { intros s' k G ?. apply HQ. eapply goes_le; [exact G|done|lia]. }
  destruct r as [d|e].
  2: { destruct Hr as (leak' & R & Hl').
       apply q_fail_record; [by eapply reach_inv|]. intros s1 Q1. apply (HQ' _ (n + 0)); [|unfold COMMAND_EVENTS; lia].
       eapply sound_settles; [done| |exact Hl]. exists leak'. split; [by eapply reach_quiet|].
       by rewrite (qu_healthy _ _ _ Q1). }
  destruct Hr as [R Hd]. apply wp_bind, q_port_is_current; [by eapply reach_inv|done|]. intros s1 ok T1 Hok. onward T1.
  destruct ok.
  { eapply g_attach; [done|exact R0|done..|]. intros s2 G Ha. apply HQ.
    eapply goes_le; [apply comes_goes; [exact G|by apply Ha, Hok]|unfold COMMAND_EVENTS; lia|lia]. }
  apply wp_bind. eapply r_disable_slot; [exact R0|done| |].
  - intros s2 R2 _. apply wp_bind, q_store_dcbaa; [by eapply reach_inv|apply Hd|]. intros s3 T3. onward T3.
    eapply (r_drop_buffers _ (bufs (ports (x_ctl s0)) ++ leak ++ F)); [done..|]. intros s4 R4.
    eapply HQ'; [|reflexivity]. eapply sound_settles; [done|by apply reach_settles|done].
  - intros s2 R2 Hh. pose proof R2 as [_ [Hu _ Hc _ Hn]]. apply q_modify_self, HQ.
    destruct Hd as (Hdok & _ & _ & Hnone). split; [|done|cbn [x_usb update]; rewrite Hu; lia|by cbn; rewrite Hh| |].
    3: { intros E He. apply (disks_push (n + COMMAND_EVENTS) _ s0 s2 d (x_usb s2)); [apply R2| |done|done|done].
         rewrite device_usb_id_disk in Hnone. by destruct (disk_of d). }
    + eapply (sound_push _ _ _ _ s2 d d (x_usb s2) (root_ports (x_ctl s2))); [done|exact R2|done..| |done].
      rewrite Hu. apply Hs.
    + intros Ha Hnd. eapply Forall_impl; [by apply (steps_active _ _ Hc Ha)|]. intros r Hr Hact.
      apply map_key_app. by apply Hr.
Qed.

Definition ENUMERATE_EVENTS : Z := 900700000.

Lemma g_enumerate_port register port generation F s (Q : St -> result unit InitError -> Prop) :
  sound F s -> 1 <= port <= 255 -> next_id (x_usb s) < 2 ^ 64 -> room ENUMERATE_EVENTS s ->
  (forall s', goes ENUMERATE_EVENTS 1 F s s' -> Q s' (Ok tt)) ->
  wp (enumerate_port register port generation) s Q.
Proof.
  unfold ENUMERATE_EVENTS. intros Hs Hp Hid Hro HQ. pose proof (sound_inv _ _ Hs) as Hi.
  assert (forall s', quiet 0 s s' -> Q s' (Ok tt)) as HQ'.
  { intros s' Q'. apply HQ. eapply goes_le; [by eapply goes_quiet|lia|lia]. }
  unfold enumerate_port. apply wp_bind, q_port_offset; [done|done|]. intros off Hoff.
  apply wp_bind, q_read32; [done|done|]. intros s1 v1 T1 _.
  destruct (negb _); [apply q_observe_port; [invs|done|]; intros s2 Q2; apply HQ'; quiets|].
  destruct (4 <=? _); [apply q_fail_record; [invs|]; intros s2 Q2; apply HQ'; quiets|].
  apply wp_bind, q_stage_current; [invs|done|]. intros s2 ok2 Q2. destruct ok2; [|apply wp_ret, HQ'; quiets].
  apply wp_bind, q_reset_port; [invs|done|]. intros s3 ok3 T3.
  destruct ok3; [|apply q_fail_record; [invs|]; intros s4 Q4; apply HQ'; quiets].
  apply wp_bind, q_read32; [invs|done|]. intros s4 v4 T4 _.
  destruct (negb _); [apply q_observe_port; [invs|done|]; intros s5 Q5; apply HQ'; quiets|].
  apply wp_bind, q_stage_current; [invs|done|]. intros s5 ok5 Q5. destruct ok5; [|apply wp_ret, HQ'; quiets].
  destruct (sound_reach _ _ Hs) as (leak & R & Hl).
  assert (quiet 0 s s5) as Q05 by quiets. pose proof (reach_quiet _ _ _ _ _ _ R Q05) as R5.
  apply wp_bind, wp_try. eapply r_address_port; [exact R5|eapply room_le; [done|unfold ADDRESS_EVENTS; lia]| |].
  - unfold ADDRESS_EVENTS. intros s6 d R6 Hd.
    eapply g_attach_or_release; [done|exact Hl|done|done| |split; [exact R6|done]|].
    { eapply room_le; [done|unfold COMMAND_EVENTS; lia]. }
    intros s7 G. apply HQ. eapply goes_le; [exact G|unfold COMMAND_EVENTS; lia|lia].
  - unfold ADDRESS_EVENTS. intros s6 e S6.
    eapply g_attach_or_release; [done|exact Hl|done|done| |exact S6|].
    { eapply room_le; [done|unfold COMMAND_EVENTS; lia]. }
    intros s7 G. apply HQ. eapply goes_le; [exact G|unfold COMMAND_EVENTS; lia|lia].
Qed.

(** ** Removal *)

Lemma q_disconnect_record port generation s (Q : St -> result unit InitError -> Prop) :
  inv s -> (forall s', quiet 0 s s' -> Q s' (Ok tt)) -> wp (disconnect_record port generation) s Q.
Proof. intros Hi HQ. apply q_modify_self, HQ, quiet_records; [done|]. apply update_current_evolves. Qed.

(** The registry once the disk of a device is offline. *)
Lemma offline_gone E P i d usb gone id :
  disks P ++ E ≡ₚ gone ++ online_devices usb -> NoDup (usb_ids usb) -> P !! i = Some d -> device_usb_id d = Some id ->
  exists gone', disks (delete i P) ++ E ≡ₚ gone' ++ online_devices (offline usb id) /\ (gone = [] -> gone' = []).
Proof.
  intros Hg Hn Hi Hid. rewrite device_usb_id_disk in Hid. destruct (disk_of d) as [[id' blk]|] eqn:Ed; [|done].
  cbn in Hid. injection Hid as ->. rewrite (disks_delete _ _ _ Hi), Ed in Hg. cbn in Hg.
  destruct (decide ((id, blk) ∈ online_devices usb)) as [Hin|Hin].
  - exists gone. split; [|done]. rewrite (offline_online _ _ _ Hn Hin) in Hg.
    apply (Permutation_cons_inv (a := (id, blk))). rewrite Hg. symmetry. apply Permutation_middle.
  - assert ((id, blk) ∈ gone) as Hgo.
    { assert ((id, blk) ∈ gone ++ online_devices usb) as Hx by (rewrite <- Hg; left). apply elem_of_app in Hx. tauto. }
    apply list_elem_of_In, in_split in Hgo as (g1 & g2 & ->).
    rewrite <- Permutation_middle in Hg. cbn in Hg. apply Permutation_cons_inv in Hg.
    destruct (decide (id ∈ fst <$> online_devices usb)) as [Hon|Hon].
    + apply list_elem_of_fmap in Hon as ([id' blk'] & -> & Hon). exists ((id', blk') :: g1 ++ g2). split; [|by destruct g1].
      rewrite Hg. cbn [fst] in *. rewrite (offline_online _ _ _ Hn Hon) at 1. symmetry. apply Permutation_middle.
    + exists (g1 ++ g2). split; [|by destruct g1]. rewrite offline_absent; [done|].
      intros b Hb. apply Hon. apply list_elem_of_fmap. by exists (id, b).
Qed.

(** The invariant of a state with some of the devices. *)
Lemma sound_rebuild F s0 s P leak :
  sound F s0 -> ports (x_ctl s) = P -> owns (bufs P ++ leak ++ F) s -> (healthy (x_ctl s) = true -> leak = []) ->
  NoDup (usb_ids (x_usb s)) -> x_input s = x_input s0 -> Forall device_ok P -> sound F s.
Proof.
  intros [_ _ Hin _] <- Ho Hl Hids Hi Hd. split; [by exists leak|done| |done]. by rewrite Hi.
Qed.

Lemma inactive_delete P i d port l :
  P !! i = Some d -> rd_port d = port -> inactive port l -> Forall (has_active P) l -> Forall (has_active (delete i P)) l.
Proof.
  unfold inactive. rewrite !Forall_forall. intros Hi Hd Hin Ha r Hr Hact.
  eapply delete_active; [done|done| |by apply Ha|done]. intros Hp. by apply (Hin r Hr).
Qed.

(** The device is taken out once the controller has disabled its slot. *)
Lemma g_take_out register port generation i device usb F leak s (Q : St -> result unit InitError -> Prop) :
  let s1 := s <| x_usb := usb |> in
  sound F s -> (healthy (x_ctl s) = true -> leak = []) -> owns (bufs (ports (x_ctl s)) ++ leak ++ F) s1 ->
  ports (x_ctl s) !! i = Some device -> rd_port device = port ->
  (NoDup (pr_port <$> root_ports (x_ctl s)) -> inactive port (root_ports (x_ctl s))) ->
  (forall E, disks_ok E s -> exists gone, disks (delete i (ports (x_ctl s))) ++ E ≡ₚ gone ++ online_devices usb /\
     (healthy (x_ctl s) = true -> gone = [])) ->
  NoDup (usb_ids usb) -> next_id usb = next_id (x_usb s) -> room COMMAND_EVENTS s ->
  (forall s', goes COMMAND_EVENTS 0 F s s' -> Q s' (Ok tt)) ->
  wp (ok ←! disable_slot register (rd_slot device);
      if negb ok then p_ret tt else
      store_dcbaa (rd_slot device) 0 ;!
      modify_self (fun c => c <| ports := delete i (ports c) |>) ;!
      drop_buffers (device_buffers device) ;!
      disconnect_record port generation) s1 Q.
Proof.
  intros s1 Hs Hl Ho1 Hi Hport Hina Hg Hids Hnext Hro HQ. pose proof (reach_start _ _ Ho1) as R1.
  assert (fits 8 (rd_slot device)) as Hslot.
  { pose proof (so_devices _ _ Hs) as Hd. rewrite Forall_forall in Hd. apply Hd. by eapply list_elem_of_lookup_2. }
  apply wp_bind. eapply r_disable_slot; [exact R1|done| |].
  - intros s2 R2 Hh2. apply wp_bind, q_store_dcbaa; [by eapply reach_inv|done|]. intros s3 T3. onward T3.
    destruct R as [[Hi3 Hlive3] [Hu3 Hin3 Hc3 Hh3 Hn3]]. pose proof (sc_ports _ _ Hc3) as Hp3. cbn in Hp3, Hu3, Hin3, Hn3.
    apply wp_bind, q_modify_self. rewrite Hp3. set (s4 := s3 <| x_ctl := _ |>).
    assert (owns (bufs (ports (x_ctl s)) ++ leak ++ F) s4) as Ho4 by (split; [by apply inv_ports|exact Hlive3]).
    apply wp_bind. eapply (o_drop_buffers _ (bufs (delete i (ports (x_ctl s))) ++ leak ++ F)); [exact Ho4| |].
    { rewrite (bufs_delete _ _ _ Hi). perms. }
    intros s5 Ho5 [Hu5 Hin5 Hc5 Hh5 Hn5]. pose proof (sc_ports _ _ Hc5) as Hp5. cbn in Hp5, Hu5, Hin5, Hn5.
    assert (Forall2 evolves (root_ports (x_ctl s)) (root_ports (x_ctl s5))) as Hrec.
    { etrans; [apply Hc3|apply Hc5]. }
    apply q_disconnect_record; [by eapply owns_inv|]. intros s6 Q6. apply HQ.
    assert (goes COMMAND_EVENTS 0 F s s5) as G5.
    { split; [|cbn in *; lia|rewrite Hu5, Hu3, Hnext; lia|intros Hx; apply Hh3, Hh5, Hx| |].
      - eapply (sound_rebuild _ s s5 _ leak); [done|exact Hp5|exact Ho5| | | |].
        + intros Hx. apply Hl, Hh3, Hh5, Hx.
        + by rewrite Hu5, Hu3.
        + by rewrite Hin5, Hin3.
        + apply Forall_delete, Hs.
      - intros Ha. unfold active_ok. rewrite (evolves_ports _ _ Hrec), Hp5. intros Hn.
        eapply inactive_delete; [done|done|by eapply evolves_inactive, Hina|]. eapply evolves_active; [done|by apply Ha].
      - intros E He. destruct (Hg E He) as (gone & Hg' & Hgh). exists gone. rewrite Hp5, Hu5, Hu3. auto. }
    eapply goes_le; [eapply goes_trans; [exact G5|by eapply goes_quiet; [apply G5|]]|lia|lia].
  - intros s2 [[Hi2 Hlive2] [Hu2 Hin2 Hc2 Hh2 Hn2]] Hh. pose proof (sc_ports _ _ Hc2) as Hp2. cbn in Hp2, Hu2, Hin2, Hn2.
    apply wp_ret, HQ. split; [|lia|rewrite Hu2, Hnext; lia|by rewrite Hh|by apply steps_active|].
    + eapply (sound_rebuild _ s s2 _ leak); [done|exact Hp2|by split|by rewrite Hh|by rewrite Hu2|by rewrite Hin2|apply Hs].
    + intros E He. destruct (Hg E He) as (gone & Hg' & _). exists (option_list (disk_of device) ++ gone).
      rewrite Hp2, Hu2, (disks_delete _ _ _ Hi), <- !app_assoc, Hg', Hh. done.
Qed.

Lemma g_remove_port register port generation F s (Q : St -> result unit InitError -> Prop) :
  sound F s -> (NoDup (pr_port <$> root_ports (x_ctl s)) -> inactive port (root_ports (x_ctl s))) ->
  room COMMAND_EVENTS s ->
  (forall s', goes COMMAND_EVENTS 0 F s s' -> Q s' (Ok tt)) ->
  wp (remove_port register port generation) s Q.
Proof.
  intros Hs Hina Hro HQ. pose proof (sound_inv _ _ Hs) as Hi. unfold remove_port. apply wp_bind, q_self.
  destruct (list_find _ _) as [[i d]|] eqn:Ef.
  2: { apply q_disconnect_record; [done|]. intros s1 Q1. apply HQ. eapply goes_le; [by apply goes_quiet| |lia].
       unfold COMMAND_EVENTS. lia. }
  apply list_find_Some in Ef as (Hlook & Hport & _).
  pose proof Hs as [(leak & Ho & Hl) Hids _ _].
  destruct (device_usb_id d) as [id|] eqn:Eid.
  - apply wp_bind, wp_modify.
    apply (g_take_out register port generation i d (offline (x_usb s) id) F leak s Q); try done.
    + intros E (gone & Hg & Hgh). destruct (offline_gone _ _ _ _ _ _ _ Hg Hids Hlook Eid) as (gone' & Hg' & Hgh').
      exists gone'. auto.
    + by rewrite offline_ids.
    + apply offline_next_id.
  - apply wp_bind, wp_ret. pose proof (g_take_out register port generation i d (x_usb s) F leak s Q) as Hout.
    cbn zeta in Hout. replace (s <| x_usb := x_usb s |>) with s in Hout by (by destruct s). apply Hout; try done.
    intros E (gone & Hg & Hgh). exists gone. split; [|done].
    rewrite device_usb_id_disk in Eid. rewrite (disks_delete _ _ _ Hlook) in Hg. by destruct (disk_of d).
Qed.

(** ** The bounded work of a poll *)

Lemma find_work_record ticks l port generation connect :
  find_work ticks l = Some (port, generation, connect) ->
  exists r, r ∈ l /\ pr_port r = port /\ (connect = false -> pr_state r = Removing).
Proof.
  induction l as [|r l IH]; cbn [find_work]; [done|]. destruct (port_work ticks r) as [w|] eqn:Ew.
  - intros [= ->]. exists r. split; [left|]. unfold port_work in Ew. repeat case_match; by simplify_eq.
  - intros (r' & Hr' & ?)%IH. exists r'. split; [by right|done].
Qed.
Lemma removing_inactive r l : NoDup (pr_port <$> l) -> r ∈ l -> pr_state r <> Active -> inactive (pr_port r) l.
Proof.
  intros Hn Hr Hst. apply Forall_forall. intros r' Hr' Hp Ha.
  apply list_elem_of_lookup in Hr as [i Hi]. apply list_elem_of_lookup in Hr' as [j Hj].
  assert (i = j) as ->; [|congruence].
  eapply (NoDup_lookup _ i j (pr_port r) Hn); rewrite list_lookup_fmap; [by rewrite Hi|rewrite Hj; cbn; congruence].
Qed.

Lemma q_rescan l register s (Q : St -> result unit InitError -> Prop) :
  inv s -> Forall (fun p => 1 <= p <= 255) l -> (forall s', quiet 0 s s' -> Q s' (Ok tt)) ->
  wp (p_each l (observe_port register)) s Q.
Proof.
  intros Hi Hl HQ. apply (wp_each _ _ (fun l s' => Forall (fun p => 1 <= p <= 255) l /\ quiet 0 s s')).
  - split; [done|]. by apply quiet_refl.
  - intros p k s1 [Hk Q1]. apply Forall_cons in Hk as [Hp Hk]. apply q_observe_port; [invs|done|].
    intros s2 Q2. split; [done|quiets].
  - intros s1 [_ Q1]. by apply HQ.
Qed.

(** The room for the work on the root ports, and for a whole poll. *)
Definition SERVICE_EVENTS : Z := 2 * ENUMERATE_EVENTS.

Lemma g_service_root_ports register F s (Q : St -> result unit InitError -> Prop) :
  sound F s -> room SERVICE_EVENTS s -> next_id (x_usb s) + 2 <= 2 ^ 64 ->
  (forall s', goes SERVICE_EVENTS 2 F s s' -> Q s' (Ok tt)) ->
  wp (service_root_ports register) s Q.
Proof.
  unfold SERVICE_EVENTS. intros Hs Hro Hid HQ. pose proof (sound_inv _ _ Hs) as Hi. unfold service_root_ports.
  apply wp_bind, q_self.
  apply wp_bind, (wp_mono _ _ (fun s1 r => r = Ok tt /\ quiet 0 s s1)).
  { apply wp_when; intros _; [|split; [done|by apply quiet_refl]].
    apply q_rescan; [done| |by intros]. apply Forall_fmap. apply Hi. }
  intros s1 ? [-> Q1].
  eapply (wp_for _ _ _ (fun n s' => goes (Z.of_nat n * ENUMERATE_EVENTS) (Z.of_nat n) F s s')).
  - eapply goes_quiet; [done|]. eapply quiet_le; [exact Q1|lia].
  - intros n s2 Hn G2. apply wp_bind, q_self.
    assert (forall s3, goes ENUMERATE_EVENTS 1 F s2 s3 ->
      goes (Z.of_nat (S n) * ENUMERATE_EVENTS) (Z.of_nat (S n)) F s s3) as Hnext.
    { intros s3 G3. eapply goes_le; [eapply goes_trans; [exact G2|exact G3]|lia|lia]. }
    assert (Z.of_nat n <= 1) as Hn' by (unfold ROOT_PORT_WORK_BUDGET in Hn; lia).
    assert (room ENUMERATE_EVENTS s2) as Hro2.
    { unfold room in *. pose proof (go_count _ _ _ _ _ G2). unfold ENUMERATE_EVENTS in *. lia. }
    destruct (find_work _ _) as [[[port generation] connect]|] eqn:Ew.
    2: { apply wp_ret, HQ. eapply goes_le; [exact G2|unfold ENUMERATE_EVENTS; lia|lia]. }
    apply find_work_record in Ew as (r & Hr & Hp & Hst). pose proof (go_sound _ _ _ _ _ G2) as Hs2.
    destruct connect; apply wp_bind.
    + apply (g_enumerate_port _ _ _ F); [done| | |done|].
      * pose proof (co_records _ _ (proj2 (sound_inv _ _ Hs2))) as Hall. rewrite Forall_forall in Hall.
        rewrite <- Hp. by apply Hall.
      * pose proof (go_ids _ _ _ _ _ G2). lia.
      * intros s3 G3. apply wp_ret. by apply Hnext.
    + apply (g_remove_port _ _ _ F); [done| | |].
      * intros Hn2. rewrite <- Hp. apply removing_inactive; [done|done|]. by rewrite Hst.
      * eapply room_le; [exact Hro2|unfold COMMAND_EVENTS, ENUMERATE_EVENTS; lia].
      * intros s3 G3. apply wp_ret, Hnext. eapply goes_le; [exact G3|unfold COMMAND_EVENTS, ENUMERATE_EVENTS; lia|lia].
  - intros s2 G2. apply wp_ret, HQ. eapply goes_le; [exact G2|unfold ROOT_PORT_WORK_BUDGET, ENUMERATE_EVENTS; lia|].
    unfold ROOT_PORT_WORK_BUDGET. lia.
Qed.

(** A step of the counters of [poll]. *)
Lemma sound_counters F s c :
  sound F s -> same_ctl (x_ctl s) (c <| poll_ticks := poll_ticks (x_ctl s) |>) -> root_ports c = root_ports (x_ctl s) ->
  event_consumer c = event_consumer (x_ctl s) -> command_producer c = command_producer (x_ctl s) ->
  healthy c = healthy (x_ctl s) -> event_count c = event_count (x_ctl s) ->
  goes 0 0 F s (s <| x_ctl := c |>).
Proof.
  intros Hs Hc Hrec Hev Hcp Hh Hn.
  assert (quiet 0 s (s <| x_ctl := c <| poll_ticks := poll_ticks (x_ctl s) |> |>)) as Hq.
  { pose proof (sound_inv _ _ Hs) as Hi.
    apply quiet_ctl; [exact Hi|exact Hc|exact Hh|cbn; rewrite Hev; apply Hi|cbn; rewrite Hcp; apply Hi|cbn; rewrite Hn; lia]. }
  destruct (goes_quiet _ _ _ _ Hs Hq) as [[(leak & [[Hm [? ? ? ? ? ? []]] Hl] & ?) ? ? ?] ? ? ? ? ?].
  split; try done. split; try done. exists leak. split; [|done]. split; [|exact Hl]. by split.
Qed.

Definition POLL_EVENTS (budget : positive) : Z := Z.pos budget + SERVICE_EVENTS.

Lemma g_controller_poll budget F s (Q : St -> result unit InitError -> Prop) :
  sound F s -> room (POLL_EVENTS budget) s -> next_id (x_usb s) + 2 <= 2 ^ 64 ->
  (forall s', goes (POLL_EVENTS budget) 2 F s s' -> Q s' (Ok tt)) ->
  wp (controller_poll budget) s Q.
Proof.
  unfold POLL_EVENTS. intros Hs Hro Hid HQ. unfold controller_poll. apply wp_bind, q_self. cbv zeta.
  change (mk_RegisterBlock _) with (bar_block (own_register (x_ctl s) (co_regs _ _ (proj2 (sound_inv _ _ Hs))))).
  generalize (own_register (x_ctl s) (co_regs _ _ (proj2 (sound_inv _ _ Hs)))). intros register.
  destruct (negb _); [apply wp_ret, HQ; eapply goes_le; [by apply goes_start|unfold SERVICE_EVENTS, ENUMERATE_EVENTS; lia|lia]|].
  apply wp_bind, q_modify_self. set (s1 := s <| x_ctl := _ |>).
  assert (goes 0 0 F s s1) as G1 by (apply sound_counters; try done; by split).
  apply wp_bind, q_modify_self. match goal with |- wp _ ?x _ => set (s2 := x) end.
  assert (goes 0 0 F s1 s2) as G2.
  { unfold s2. apply sound_counters; try apply G1; try destruct (interrupt_pending _); try done; by split. }
  pose proof (goes_trans _ _ _ _ _ _ _ _ G1 G2) as G. clear G1 G2.
  apply wp_bind. eapply (wp_for _ _ _ (fun n s' => goes (Z.of_nat n) 0 F s s')).
  - eapply goes_le; [exact G|lia|lia].
  - intros n s3 Hn G3. apply (g_poll_event _ F); [apply G3| |].
    { unfold room in *. pose proof (go_count _ _ _ _ _ G3). unfold SERVICE_EVENTS, ENUMERATE_EVENTS in *. lia. }
    intros s4 r G4. assert (goes (Z.of_nat (S n)) 0 F s s4) as G5.
    { eapply goes_le; [eapply goes_trans; [exact G3|exact G4]|lia|lia]. }
    destruct r as [[]|]; [|done]. eapply (g_service_root_ports _ F); [apply G5| | |].
    + unfold room in *. pose proof (go_count _ _ _ _ _ G5). lia.
    + pose proof (go_ids _ _ _ _ _ G5). lia.
    + intros s5 G6. apply HQ. eapply goes_le; [eapply goes_trans; [exact G5|exact G6]|lia|lia].
  - intros s3 G3. rewrite positive_nat_Z in G3. apply wp_ret. eapply (g_service_root_ports _ F); [apply G3| | |].
    + unfold room in *. pose proof (go_count _ _ _ _ _ G3). lia.
    + pose proof (go_ids _ _ _ _ _ G3). lia.
    + intros s5 G6. apply HQ. eapply goes_le; [eapply goes_trans; [exact G3|exact G6]|lia|lia].
Qed.

(** ** Block reads *)

Lemma g_read_usb_blocks id lba output F s (Q : St -> result (list Z * bool) InitError -> Prop) :
  sound F s -> room MSC_EVENTS s ->
  (forall s' out ok, goes MSC_EVENTS 0 F s s' -> llen out = llen output -> (ok = false -> out = output) ->
     Q s' (Ok (out, ok))) ->
  wp (controller_read_usb_blocks id lba output) s Q.
Proof.
  intros Hs Hro HQ. pose proof (sound_inv _ _ Hs) as Hi. unfold controller_read_usb_blocks.
  assert (Q s (Ok (output, false))) as HQ0.
  { apply HQ; [|done|done]. eapply goes_le; [by apply goes_start|unfold MSC_EVENTS; lia|lia]. }
  destruct (_ || _) eqn:Eg; [by apply wp_ret|]. reflect_bools. apply wp_bind, q_self.
  destruct (list_find _ _) as [[i d]|] eqn:Ef; [|by apply wp_ret]. apply list_find_Some in Ef as (Hlook & _ & _).
  destruct (rd_kind d) as [h|m] eqn:Ek; [by apply wp_ret|]. cbn zeta.
  match goal with |- context [if ?b then p_ret (output, false) else _] => destruct b; [by apply wp_ret|] end.
  assert (device_ok d) as (Hslot & Hdl & Hm).
  { pose proof (so_devices _ _ Hs) as Hd. rewrite Forall_forall in Hd. apply Hd. by eapply list_elem_of_lookup_2. }
  rewrite Ek in Hm. destruct Hm as (Hri & Hrout & Hcb & Hcs & Hda & Hpi & Hpo).
  assert (forall b, b ∈ kind_buffers (KindMsc m) -> b ∈ live (x_hw s)) as Hlive.
  { intros b Hb. eapply sound_live; [done|by eapply list_elem_of_lookup_2|]. unfold device_buffers. rewrite Ek.
    apply elem_of_app. by right. }
  unfold kind_buffers in Hlive.
  apply wp_bind. change (mk_RegisterBlock _) with (bar_block (own_register (x_ctl s) (co_regs _ _ (proj2 Hi)))).
  apply q_msc_command; [done|done|done|split; [apply Hlive; member|done]|split; [apply Hlive; member|done]|done
    |apply Hlive; member|done|apply Hlive; member|done|].
  intros s1 p r Q1 Hp. apply wp_bind, q_modify_self.
  set (d' := d <| rd_kind := KindMsc (with_pipes p m) |>). set (s2 := s1 <| x_ctl := _ |>).
  assert (goes MSC_EVENTS 0 F s s1) as G1 by (by apply goes_quiet).
  assert (ports (x_ctl s1) = ports (x_ctl s)) as Hps by apply Q1.
  assert (goes MSC_EVENTS 0 F s s2) as G2.
  { destruct G1. split; try done.
    - apply (sound_update_device _ _ _ d); [done|by rewrite Hps| |].
      + unfold device_buffers. cbn. by rewrite Ek.
      + split; [done|]. split; [done|]. unfold d', msc_ok. cbn. by destruct Hp.
    - intros Ha; apply (active_update_device _ _ d); [by rewrite Hps|done|auto].
    - intros E He. apply (disks_update_device _ _ _ d); [by rewrite Hps| |auto]. unfold disk_of. cbn. by rewrite Ek. }
  destruct r as [[]|e]; [|by apply wp_ret, HQ].
  assert (ms_data m ∈ live (x_hw s2)) as Hdata.
  { change (x_hw s2) with (x_hw s1). eapply quiet_live; [exact Q1|]. apply Hlive. member. }
  apply wp_bind, (q_load_bytes (ms_data m)); [by eapply sound_inv, G2|done|apply in_start; lia|unfold llen; lia|].
  intros s3 bs T3 Hbl _. apply wp_ret, HQ; [|done|done].
  pose proof (goes_quiet _ _ _ _ (go_sound _ _ _ _ _ G2) (touch_quiet _ _ T3)) as G3.
  eapply goes_le; [eapply goes_trans; [exact G2|exact G3]|lia|lia].
Qed.
End Work.
