(* ===== verification/Pcie.v ===== *)
(** * PCI Express configuration space: [pcie/enumrate.rs]

    Typed accesses to a function's configuration space, the walk over its
    capability list, which hardware may make cyclic, and the enumeration of the
    functions of every region. *)

From S2P Require Import Prelude Words Bitmap PageAlloc Dma Machine Board.

(** @ pcie/enumrate.rs:4-8 Bdf *)
Record Bdf := mk_Bdf { bdf_bus : Z; bdf_device : Z; bdf_function : Z }.

(** @ pcie/enumrate.rs:11-21 Bdf::new *)
Definition bdf_new (bus device function : Z) : option Bdf :=
  if (device <? 32) && (function <? 8) then Some (mk_Bdf bus device function) else None.

(** @ pcie/enumrate.rs:23-32 Bdf::offset *)
Definition bdf_offset (b : Bdf) (bus_start : Z) : option Z :=
  if bdf_bus b <? bus_start then None else
  Some (Z.lor (Z.lor (Z.shiftl (bdf_bus b - bus_start) 20) (Z.shiftl (bdf_device b) 15)) (Z.shiftl (bdf_function b) 12)).

(** @ pcie/enumrate.rs:36-39 MemoryBar *)
Inductive MemoryBar := Bits32 (address : Z) | Bits64 (address : Z).

(** @ pcie/enumrate.rs:41-52 decode_memory_bar *)
Definition decode_memory_bar (low high : Z) : option MemoryBar :=
  if negb (Z.land low 1 =? 0) then None else
  let kind := Z.land (Z.shiftr low 1) 3 in
  let address := Z.lor (Z.land low 0xfffffff0) (Z.shiftl high 32) in
  if kind =? 0 then Some (Bits32 address)
  else if kind =? 2 then Some (Bits64 address)
  else None.

(** @ pcie/enumrate.rs:130-133 Capability *)
Record Capability := mk_Capability { cap_id : Z; cap_offset : Z }.

(** The iterator without its reference to the configuration space. *)
(** @ pcie/enumrate.rs:135-140 CapabilityIter *)
Record CapabilityIter := mk_CapabilityIter { ci_next : Z; ci_seen : list Z; ci_count : Z }.

Section Config.
Context {D St E : Type} `{Machine D} `{HasMachine St D}.
Implicit Types (config offset : Z).

(** A read or write of the configuration space mapped at [config]. *)
Definition config_read config offset (n : Z) : prog St E Z :=
  fun s => let '(d, v) := mmio_read (machine s) (config + offset) n in Done (set_machine d s, Ok v).
Definition config_write config offset (n v : Z) : prog St E unit :=
  fun s => Done (set_machine (mmio_write (machine s) (config + offset) n v) s, Ok tt).
Definition p_assert (b : bool) : prog St E unit := p_lift (assert! b; Done tt).

(** @ pcie/enumrate.rs:74-77 PCIConfigSpace::read_u8 *)
Definition read_u8 config offset : prog St E Z :=
  p_assert (offset <? 4096) ;! config_read config offset 1.
(** @ pcie/enumrate.rs:79-82 PCIConfigSpace::read_u16 *)
Definition read_u16 config offset : prog St E Z :=
  p_assert ((offset + 2 <=? 4096) && (Z.land offset 1 =? 0)) ;! config_read config (offset / 2 * 2) 2.
(** @ pcie/enumrate.rs:84-87 PCIConfigSpace::read_u32 *)
Definition read_u32 config offset : prog St E Z :=
  p_assert ((offset + 4 <=? 4096) && (Z.land offset 3 =? 0)) ;! config_read config (offset / 4 * 4) 4.
(** @ pcie/enumrate.rs:89-92 PCIConfigSpace::write_u8 *)
Definition write_u8 config offset v : prog St E unit :=
  p_assert (offset <? 4096) ;! config_write config offset 1 v.
(** @ pcie/enumrate.rs:94-97 PCIConfigSpace::write_u16 *)
Definition write_u16 config offset v : prog St E unit :=
  p_assert ((offset + 2 <=? 4096) && (Z.land offset 1 =? 0)) ;! config_write config (offset / 2 * 2) 2 v.
(** @ pcie/enumrate.rs:99-102 PCIConfigSpace::write_u32 *)
Definition write_u32 config offset v : prog St E unit :=
  p_assert ((offset + 4 <=? 4096) && (Z.land offset 3 =? 0)) ;! config_write config (offset / 4 * 4) 4 v.

(** @ pcie/enumrate.rs:104-106 PCIConfigSpace::command *)
Definition pci_command config : prog St E Z := read_u16 config 0x04.
(** @ pcie/enumrate.rs:108-113 PCIConfigSpace::update_command *)
Definition update_command config (set clear : Z) : prog St E unit :=
  v ←! pci_command config; write_u16 config 0x04 (clear_bits (Z.lor v set) clear).

(** The plain fields of [PCIConfigSpace]. *)
(** @ pcie/enumrate.rs:56-71 PCIConfigSpace -- the fields the drivers read *)
Definition vendor_id config : prog St E Z := config_read config 0 2.
Definition device_id config : prog St E Z := config_read config 2 2.
Definition prog_if config : prog St E Z := config_read config 9 1.
Definition subclass config : prog St E Z := config_read config 10 1.
Definition class_code config : prog St E Z := config_read config 11 1.
(** @ pcie/enumrate.rs:67-67 header_type *)
Definition header_type config : prog St E Z := config_read config 14 1.

(** @ pcie/enumrate.rs:115-126 PCIConfigSpace::capabilities *)
Definition capabilities config : prog St E CapabilityIter :=
  status ←! read_u16 config 0x06;
  next ←! (if negb (Z.land status (Z.shiftl 1 4) =? 0) then read_u8 config 0x34 else p_ret 0);
  p_ret (mk_CapabilityIter next (replicate 256 0) 0).

(** @ pcie/enumrate.rs:145-161 Iterator::CapabilityIter::next *)
Definition next_capability config (it : CapabilityIter) : prog St E (CapabilityIter * option Capability) :=
  let offset := ci_next it in
  let stop : CapabilityIter * option Capability := (mk_CapabilityIter 0 (ci_seen it) (ci_count it), None) in
  if (offset <? 0x40) || negb (Z.land offset 3 =? 0) || (llen (ci_seen it) <=? ci_count it) then p_ret stop else
  seen ←! p_lift (idx (ci_seen it) offset);
  if negb (seen =? 0) then p_ret stop else
  seen ←! p_lift (set_idx (ci_seen it) offset 1);
  id ←! read_u8 config offset;
  next ←! read_u8 config (offset + 1);
  p_ret (mk_CapabilityIter (if next =? 0 then 0 else next) seen (ci_count it + 1), Some (mk_Capability id offset)).

(** [capabilities().find(|cap| cap.id == id)]. *)
Fixpoint find_capability_loop (fuel : nat) config (id : Z) (it : CapabilityIter) : prog St E (option Capability) :=
  match fuel with
  | O => fun _ => OutOfFuel
  | S fuel =>
      '(it, cap) ←! next_capability config it;
      match cap with
      | None => p_ret None
      | Some cap => if cap_id cap =? id then p_ret (Some cap) else find_capability_loop fuel config id it
      end
  end.
Definition find_capability (fuel : nat) config (id : Z) : prog St E (option Capability) :=
  it ←! capabilities config; find_capability_loop fuel config id it.

(** ** Enumeration *)

(** A region of [PCI_CONFIG_REGIONS], which the [acpi] crate reads from the MCFG. *)
Record PciRegion := mk_Region { rg_address : Z; rg_first_bus : Z; rg_last_bus : Z }.

(** @ pcie/enumrate.rs:164-174 get_config_space *)
Definition get_config_space (mmio_base bus device function : Z) : outcome Z :=
  a ← add_ovf 64 mmio_base (Z.shiftl bus 20);
  a ← add_ovf 64 a (Z.shiftl device 15);
  add_ovf 64 a (Z.shiftl function 12).

(** @ pcie/enumrate.rs:187-197 check_at *)
Definition check_at (base : Z) (bdf : Bdf) (hook : Bdf -> Z -> prog St E unit) : prog St E bool :=
  config ←! p_lift (get_config_space base 0 (bdf_device bdf) (bdf_function bdf));
  vendor ←! vendor_id config;
  let present := negb (vendor =? 0xffff) && negb (vendor =? 0) in
  p_when present (hook bdf config) ;!
  if present then header ←! header_type config; p_ret (negb (Z.land header 0x80 =? 0)) else p_ret false.

(** [Bdf::new(..).unwrap()]. *)
Definition bdf_unwrap (bus device function : Z) : prog St E Bdf := p_lift (unwrap (bdf_new bus device function)).

(** One device: its function 0, and the others when it has several. *)
(** @ pcie/enumrate.rs:209-214 doit -- the body for a device *)
Definition check_device (base bus device : Z) (hook : Bdf -> Z -> prog St E unit) : prog St E unit :=
  bdf ←! bdf_unwrap bus device 0;
  multi ←! check_at base bdf hook;
  p_when multi (p_each (seqZ 1 7) (fun function =>
    bdf ←! bdf_unwrap bus device function; check_at base bdf hook ;! p_ret tt)).

(** @ pcie/enumrate.rs:199-218 doit *)
Definition doit (off : Z) (regions : list PciRegion) (hook : Bdf -> Z -> prog St E unit) : prog St E unit :=
  p_each regions (fun region =>
    p_each (seqZ (rg_first_bus region) (rg_last_bus region - rg_first_bus region + 1)) (fun bus =>
      p_each (seqZ 0 32) (fun device =>
        base ←! p_lift (phys_to_virt off (rg_address region));
        base ←! p_lift (add_ovf 64 base (Z.shiftl (bus - rg_first_bus region) 20));
        check_device base bus device hook))).
End Config.

(** ** What the accesses do *)

Section Specs.
Context {D St E : Type} `{MachineLaws D} `{HasMachineLaws St D}.
Implicit Types (s : St) (config : Z).

(** Only the machine moved. *)
Definition moved s s' : Prop := exists d, s' = set_machine d s /\ touched (machine s) d.
Definition ready s : Prop := machine_ok (machine s).

Lemma moved_refl s : ready s -> moved s s.
Proof. intros Hs. exists (machine s). by rewrite set_machine_machine. Qed.
Lemma moved_ready s s' : moved s s' -> ready s'.
Proof. intros (d & -> & ? & ?). unfold ready. by rewrite machine_set. Qed.
Lemma moved_trans s1 s2 s3 : moved s1 s2 -> moved s2 s3 -> moved s1 s3.
Proof.
  intros (d & -> & Hd & Hl) (d' & -> & Hd' & Hl'). exists d'. rewrite set_machine_set. rewrite machine_set in *.
  split; [done|]. split; [done|congruence].
Qed.

(** The 4096 bytes of a function are registers. *)
Record ConfigSpace := mk_ConfigSpace { config_at :> Z; config_window : window config_at 4096 }.

Lemma wp_config_read (config : ConfigSpace) off n s (Q : St -> result Z E -> Prop) :
  ready s -> 0 <= n /\ 0 <= off /\ off + n <= 4096 -> (forall s' v, moved s s' -> fits (8 * n) v -> Q s' (Ok v)) -> wp (config_read config off n) s Q.
Proof.
  intros Hs (Hn & Ho & Ho') HQ.
  destruct (mmio_read_law (machine s) (config + off) n Hs Hn (config_window config off n Ho Hn Ho')) as (Hok & Hl & Hf).
  unfold wp, config_read. destruct (mmio_read _ _ _) as [d v]. eexists _, _. split; [reflexivity|]. apply HQ; [|done].
  by exists d.
Qed.
Lemma wp_config_write (config : ConfigSpace) off n v s (Q : St -> result unit E -> Prop) :
  ready s -> 0 <= n /\ 0 <= off /\ off + n <= 4096 -> (forall s', moved s s' -> Q s' (Ok tt)) -> wp (config_write config off n v) s Q.
Proof.
  intros Hs (Hn & Ho & Ho') HQ. eexists _, _. split; [reflexivity|]. apply HQ. eexists. split; [reflexivity|].
  apply mmio_write_law; [done|]. by apply config_window.
Qed.
Lemma wp_assert (b : bool) s (Q : St -> result unit E -> Prop) : b = true -> Q s (Ok tt) -> wp (p_assert b) s Q.
Proof. intros -> HQ. by apply (wp_lift _ tt). Qed.

Lemma wp_read_u8 (config : ConfigSpace) off s (Q : St -> result Z E -> Prop) :
  ready s -> 0 <= off < 4096 -> (forall s' v, moved s s' -> fits 8 v -> Q s' (Ok v)) -> wp (read_u8 config off) s Q.
Proof. intros ? ? HQ. apply wp_bind, wp_assert; [apply Z.ltb_lt; lia|]. apply wp_config_read; [done|lia|done]. Qed.
Lemma wp_read_u16 (config : ConfigSpace) off s (Q : St -> result Z E -> Prop) :
  ready s -> 0 <= off /\ off + 2 <= 4096 -> Z.land off 1 = 0 -> (forall s' v, moved s s' -> fits 16 v -> Q s' (Ok v)) ->
  wp (read_u16 config off) s Q.
Proof.
  intros ? ? Ho HQ. apply wp_bind, wp_assert; [|apply wp_config_read; [done|Z.div_mod_to_equations; lia|done]]. rewrite Ho, andb_true_r. apply Z.leb_le. lia.
Qed.
Lemma wp_read_u32 (config : ConfigSpace) off s (Q : St -> result Z E -> Prop) :
  ready s -> 0 <= off /\ off + 4 <= 4096 -> Z.land off 3 = 0 -> (forall s' v, moved s s' -> fits 32 v -> Q s' (Ok v)) ->
  wp (read_u32 config off) s Q.
Proof.
  intros ? ? Ho HQ. apply wp_bind, wp_assert; [|apply wp_config_read; [done|Z.div_mod_to_equations; lia|done]]. rewrite Ho, andb_true_r. apply Z.leb_le. lia.
Qed.
Lemma wp_write_u16 (config : ConfigSpace) off v s (Q : St -> result unit E -> Prop) :
  ready s -> 0 <= off /\ off + 2 <= 4096 -> Z.land off 1 = 0 -> (forall s', moved s s' -> Q s' (Ok tt)) -> wp (write_u16 config off v) s Q.
Proof.
  intros ? ? Ho HQ. apply wp_bind, wp_assert; [|apply wp_config_write; [done|Z.div_mod_to_equations; lia|done]]. rewrite Ho, andb_true_r. apply Z.leb_le. lia.
Qed.
Lemma wp_write_u32 (config : ConfigSpace) off v s (Q : St -> result unit E -> Prop) :
  ready s -> 0 <= off /\ off + 4 <= 4096 -> Z.land off 3 = 0 -> (forall s', moved s s' -> Q s' (Ok tt)) -> wp (write_u32 config off v) s Q.
Proof.
  intros ? ? Ho HQ. apply wp_bind, wp_assert; [|apply wp_config_write; [done|Z.div_mod_to_equations; lia|done]]. rewrite Ho, andb_true_r. apply Z.leb_le. lia.
Qed.

(** ** The capability list *)

(** The offsets at which a capability may stand, and those not yet visited. *)
Definition cap_offsets : list Z := (fun k => 0x40 + 4 * k) <$> seqZ 0 48.
Definition unseen (seen : list Z) : nat := length (filter (fun o => seen !! Z.to_nat o = Some 0) cap_offsets).

Lemma cap_offset_in o : 0x40 <= o < 256 -> Z.land o 3 = 0 -> o ∈ cap_offsets.
Proof.
  intros Ho Hm. rewrite (Z.land_ones _ 2) in Hm by lia. change (2 ^ 2) with 4 in Hm.
  apply list_elem_of_fmap. exists ((o - 0x40) / 4). pose proof (Z.div_mod o 4 ltac:(lia)).
  replace (o - 64) with ((o / 4 - 16) * 4) by lia. rewrite Z.div_mul by lia.
  split; [lia|]. apply elem_of_seqZ. lia.
Qed.
Lemma filter_lt {A} (P P' : A -> Prop) `{!forall x, Decision (P x), !forall x, Decision (P' x)} (l : list A) x :
  (forall y, P' y -> P y) -> x ∈ l -> P x -> ~ P' x -> (length (filter P' l) < length (filter P l))%nat.
Proof.
  intros Hsub. assert (forall l, (length (filter P' l) <= length (filter P l))%nat) as Hle.
  { clear l. intros l. induction l as [|y l IH]; [done|]. rewrite !filter_cons.
    destruct (decide (P' y)), (decide (P y)); cbn; try lia. exfalso. auto. }
  induction l as [|y l IH]; [by intros ?%elem_of_nil|]. intros Hx HP HP'. rewrite !filter_cons.
  apply elem_of_cons in Hx as [<-|Hx].
  - rewrite (decide_True (P := P x)), (decide_False (P := P' x)) by done. cbn. specialize (Hle l). lia.
  - specialize (IH Hx HP HP'). destruct (decide (P' y)), (decide (P y)); cbn; try lia. exfalso. auto.
Qed.
Lemma unseen_visit seen o :
  o ∈ cap_offsets -> 0 <= o -> seen !! Z.to_nat o = Some 0 -> (unseen (<[Z.to_nat o := 1%Z]> seen) < unseen seen)%nat.
Proof.
  intros Ho Hnn Hs. apply (filter_lt _ _ _ o).
  - intros y. destruct (decide (Z.to_nat y = Z.to_nat o)) as [->|Hne]; [|by rewrite list_lookup_insert_ne].
    rewrite list_lookup_insert_eq by (by apply lookup_lt_Some in Hs). done.
  - done.
  - done.
  - rewrite list_lookup_insert_eq by (by apply lookup_lt_Some in Hs). done.
Qed.

(** A capability the walk may give. *)
Definition cap_ok (c : Capability) : Prop := 0x40 <= cap_offset c <= 252 /\ Z.land (cap_offset c) 3 = 0.
Definition iter_ok (it : CapabilityIter) : Prop := fits 8 (ci_next it) /\ length (ci_seen it) = 256%nat.

Lemma wp_next_capability (config : ConfigSpace) it s (Q : St -> result (CapabilityIter * option Capability) E -> Prop) :
  ready s -> iter_ok it ->
  (forall s' it', moved s s' -> Q s' (Ok (it', None))) ->
  (forall s' it' c, moved s s' -> iter_ok it' -> cap_ok c -> (unseen (ci_seen it') < unseen (ci_seen it))%nat ->
     Q s' (Ok (it', Some c))) ->
  wp (next_capability config it) s Q.
Proof.
  intros Hs [Hn Hl] HQ1 HQ2. unfold next_capability. set (o := ci_next it) in *. unfold fits in Hn.
  destruct (_ || _) eqn:Eg; [by apply wp_ret, HQ1, moved_refl|]. reflect_bools.
  destruct (lookup_lt_is_Some_2 (ci_seen it) (Z.to_nat o)) as [x Hx]; [lia|].
  assert (idx (ci_seen it) o = Done x) as Hidx.
  { unfold idx. rewrite bool_decide_true by lia. by rewrite Hx. }
  apply wp_bind, (wp_lift _ x); [done|]. destruct (Z.eqb_spec x 0) as [->|]; cbn [negb]; [|by apply wp_ret, HQ1, moved_refl].
  apply wp_bind, (wp_lift _ (<[Z.to_nat o := 1%Z]> (ci_seen it))).
  { unfold set_idx. rewrite bool_decide_true by (unfold llen; lia). done. }
  apply wp_bind, wp_read_u8; [done|lia|]. intros s1 id M1 _.
  apply wp_bind, wp_read_u8; [by eapply moved_ready|lia|]. intros s2 next M2 Hnext.
  apply wp_ret, HQ2; [by eapply moved_trans| | |].
  - split; cbn [ci_next ci_seen]; [by destruct (next =? 0)|by rewrite length_insert].
  - split; [|done]. cbn [cap_offset]. assert (o ∈ cap_offsets) as Hin by (apply cap_offset_in; lia).
    apply list_elem_of_fmap in Hin as (k & -> & Hk%elem_of_seqZ). lia.
  - apply unseen_visit; [apply cap_offset_in; lia|lia|done].
Qed.

Lemma wp_find_capability_loop (config : ConfigSpace) id fuel it s (Q : St -> result (option Capability) E -> Prop) :
  ready s -> iter_ok it -> (unseen (ci_seen it) < fuel)%nat ->
  (forall s' r, moved s s' -> (forall c, r = Some c -> cap_ok c /\ cap_id c = id) -> Q s' (Ok r)) ->
  wp (find_capability_loop fuel config id it) s Q.
Proof.
  revert it s. induction fuel as [|fuel IH]; intros it s Hs Hit Hf HQ; [lia|]. cbn [find_capability_loop].
  apply wp_bind, wp_next_capability; [done|done| |].
  - intros s1 it1 M1. by apply wp_ret, HQ.
  - intros s1 it1 c M1 Hit1 Hc Hlt. destruct (Z.eqb_spec (cap_id c) id).
    + apply wp_ret, HQ; [done|]. by intros ? [= <-].
    + apply IH; [by eapply moved_ready|done|lia|]. intros s2 r M2. apply HQ. by eapply moved_trans.
Qed.

(** Every offset is visited at most once: 48 of them, and a last call. *)
Definition CAP_FUEL : nat := 49.
Lemma wp_find_capability (config : ConfigSpace) id s (Q : St -> result (option Capability) E -> Prop) :
  ready s -> (forall s' r, moved s s' -> (forall c, r = Some c -> cap_ok c /\ cap_id c = id) -> Q s' (Ok r)) ->
  wp (find_capability CAP_FUEL config id) s Q.
Proof.
  intros Hs HQ. unfold find_capability, capabilities. do 2 apply wp_bind.
  apply wp_read_u16; [done|lia|done|]. intros s1 st M1 _.
  apply wp_bind, (wp_mono _ _ (fun s2 r => moved s s2 /\ exists v, r = Ok v /\ fits 8 v)).
  { destruct (negb _); [|apply wp_ret; split; [done|]; exists 0; by split].
    apply wp_read_u8; [by eapply moved_ready|lia|]. intros s2 v M2 Hv. split; [by eapply moved_trans|]. by exists v. }
  intros s2 ? (M2 & v & -> & Hv). apply wp_ret, wp_find_capability_loop; [by eapply moved_ready|by split| |].
  - cbn [ci_seen]. unfold unseen, CAP_FUEL. vm_compute. lia.
  - intros s3 r M3. apply HQ. by eapply moved_trans.
Qed.

(** ** The functions that are visited *)

Lemma lor_low k a b : 0 <= k -> 0 <= b < 2 ^ k -> Z.lor (a * 2 ^ k) b = a * 2 ^ k + b.
Proof.
  intros Hk Hb. symmetry. apply Z.add_nocarry_lor, Z.bits_inj'. intros i Hi. rewrite Z.land_spec, Z.bits_0.
  destruct (Z.lt_ge_cases i k); [by rewrite Z.mul_pow2_bits_low|]. rewrite (fits_testbit_high k b); [apply andb_false_r|done|lia].
Qed.

Lemma bdf_offset_sum bus device function first :
  first <= bus -> 0 <= device < 32 -> 0 <= function < 8 ->
  bdf_offset (mk_Bdf bus device function) first = Some ((bus - first) * 2 ^ 20 + device * 2 ^ 15 + function * 2 ^ 12).
Proof.
  intros Hb Hd Hf. unfold bdf_offset. cbn [bdf_bus bdf_device bdf_function].
  rewrite (proj2 (Z.ltb_ge _ _)) by done. f_equal. rewrite !Z.shiftl_mul_pow2 by lia.
  rewrite lor_low by lia. replace ((bus - first) * 2 ^ 20 + device * 2 ^ 15) with (((bus - first) * 32 + device) * 2 ^ 15) by lia.
  rewrite lor_low by lia. lia.
Qed.

(** A function of one of the regions, at its address in the direct map. *)
Definition ecam (off : Z) (regions : list PciRegion) (bdf : Bdf) config : Prop :=
  exists r o, r ∈ regions /\ rg_first_bus r <= bdf_bus bdf <= rg_last_bus r /\
    0 <= bdf_device bdf < 32 /\ 0 <= bdf_function bdf < 8 /\
    bdf_offset bdf (rg_first_bus r) = Some o /\ config = rg_address r + off + o.
(** The regions of the firmware lie below 2^64 in the direct map. *)
Definition region_ok (off : Z) (r : PciRegion) : Prop :=
  0 <= rg_address r + off /\ rg_address r + off + (rg_last_bus r - rg_first_bus r + 1) * 2 ^ 20 <= 2 ^ 64.

Definition region_window (off : Z) (r : PciRegion) : Prop :=
  window (rg_address r + off) ((rg_last_bus r - rg_first_bus r + 1) * 2 ^ 20).
Lemma region_config off r bus device function :
  region_window off r -> rg_first_bus r <= bus <= rg_last_bus r -> 0 <= device < 32 -> 0 <= function < 8 ->
  window (rg_address r + off + (bus - rg_first_bus r) * 2 ^ 20 + device * 2 ^ 15 + function * 2 ^ 12) 4096.
Proof.
  intros Hw Hb Hd Hf k n Hk Hn Hl.
  replace (rg_address r + off + (bus - rg_first_bus r) * 2 ^ 20 + device * 2 ^ 15 + function * 2 ^ 12 + k)
    with (rg_address r + off + ((bus - rg_first_bus r) * 2 ^ 20 + device * 2 ^ 15 + function * 2 ^ 12 + k)) by lia.
  apply Hw; lia.
Qed.

Section Visit.
(** The hook is called at most once per function; [I n] holds after [n] calls,
    and there are at most [limit]. *)
Context (limit off : Z) (regions : list PciRegion) (hook : Bdf -> Z -> prog St E unit) (I : Z -> St -> Prop).
Context (I_ready : forall n s, I n s -> ready s) (I_moved : forall n s s', I n s -> moved s s' -> I n s').
Context (I_le : forall n m s, I n s -> n <= m -> I m s).
Context (Hwin : Forall (region_window off) regions).
Context (hook_ok : forall n bdf (config : ConfigSpace) s, ecam off regions bdf config -> I n s -> n + 1 <= limit ->
  wp (hook bdf config) s (fun s' r => r = Ok tt /\ I (n + 1) s')).

Lemma wp_check_at n bdf region base s (Q : St -> result bool E -> Prop) :
  I n s -> n + 1 <= limit -> region_ok off region -> region ∈ regions -> rg_first_bus region <= bdf_bus bdf <= rg_last_bus region ->
  0 <= bdf_device bdf < 32 -> 0 <= bdf_function bdf < 8 ->
  base = rg_address region + off + (bdf_bus bdf - rg_first_bus region) * 2 ^ 20 ->
  (forall s' b, I (n + 1) s' -> Q s' (Ok b)) -> wp (check_at base bdf hook) s Q.
Proof.
  intros Hs Hlim [Hr0 Hr] Hreg Hb Hd Hf -> HQ. unfold check_at. destruct bdf as [bus device function]. cbn [bdf_bus bdf_device bdf_function] in *.
  set (config := rg_address region + off + (bus - rg_first_bus region) * 2 ^ 20 + device * 2 ^ 15 + function * 2 ^ 12).
  assert (window config 4096) as Hcs by (apply region_config; [by apply (proj1 (Forall_forall _ _) Hwin)|done..]).
  apply wp_bind, (wp_lift _ (config_at (mk_ConfigSpace config Hcs))).
  { unfold get_config_space, add_ovf. rewrite !Z.shiftl_mul_pow2 by lia.
    repeat (rewrite (proj2 (Z.ltb_lt _ _)) by lia; cbn [mbind outcome_bind]). f_equal. cbn [config_at]. unfold config. lia. }
  apply wp_bind, wp_config_read; [eauto|lia|]. intros s1 v M1 _. pose proof (I_moved _ _ _ Hs M1) as Hs1.
  apply wp_bind, (wp_mono _ _ (fun s2 r => r = Ok tt /\ I (n + 1) s2)).
  { apply wp_when; intros _; [|split; [done|by eapply I_le; [exact Hs1|lia]]]. apply hook_ok; [|done|done].
    exists region, ((bus - rg_first_bus region) * 2 ^ 20 + device * 2 ^ 15 + function * 2 ^ 12).
    refine (conj Hreg (conj Hb (conj Hd (conj Hf (conj _ _))))); [by apply bdf_offset_sum; [apply Hb|..]|cbn [config_at]; unfold config; lia]. }
  intros s2 ? [-> Hs2]. destruct (_ && _); [|by apply wp_ret, HQ].
  apply wp_bind, wp_config_read; [eauto|lia|]. intros s3 h M3 _. apply wp_ret, HQ. by eapply I_moved.
Qed.

Lemma wp_bdf_unwrap bus device function s (Q : St -> result Bdf E -> Prop) :
  device < 32 -> function < 8 -> Q s (Ok (mk_Bdf bus device function)) -> wp (bdf_unwrap bus device function) s Q.
Proof.
  intros Hd Hf HQ. apply (wp_lift _ (mk_Bdf bus device function)); [|done]. unfold bdf_new.
  by rewrite (proj2 (Z.ltb_lt _ _) Hd), (proj2 (Z.ltb_lt _ _) Hf).
Qed.

(** A loop whose rounds each make at most [k] calls. *)
Lemma wp_each_calls {A} (P : A -> Prop) (body : A -> prog St E unit) k (l : list A) n s (Q : St -> result unit E -> Prop) :
  (forall x m s1 (R : St -> result unit E -> Prop), P x -> I m s1 -> m + k <= limit -> (forall s2, I (m + k) s2 -> R s2 (Ok tt)) -> wp (body x) s1 R) ->
  0 <= k -> Forall P l -> I n s -> n + k * llen l <= limit -> (forall s', I (n + k * llen l) s' -> Q s' (Ok tt)) ->
  wp (p_each l body) s Q.
Proof.
  intros Hbody Hk. revert n s. induction l as [|x l IH]; intros n s Hl Hs Hlim HQ; cbn [p_each].
  - apply wp_ret, HQ. eapply I_le; [exact Hs|unfold llen; cbn; lia].
  - apply Forall_cons in Hl as [Hx Hl]. unfold llen in Hlim. cbn [length] in Hlim.
    apply wp_bind, (Hbody x n); [done|done|nia|]. intros s1 Hs1.
    apply (IH (n + k)); [done|done|unfold llen; nia|]. intros s2 Hs2. apply HQ. eapply I_le; [exact Hs2|]. unfold llen. cbn [length]. lia.
Qed.

Lemma wp_check_device n region bus device base s (Q : St -> result unit E -> Prop) :
  I n s -> n + 8 <= limit -> region_ok off region -> region ∈ regions -> rg_first_bus region <= bus <= rg_last_bus region -> 0 <= device < 32 ->
  base = rg_address region + off + (bus - rg_first_bus region) * 2 ^ 20 ->
  (forall s', I (n + 8) s' -> Q s' (Ok tt)) -> wp (check_device base bus device hook) s Q.
Proof.
  intros Hs Hlim Hr Hreg Hb Hd Hbase HQ. unfold check_device.
  apply wp_bind, wp_bdf_unwrap; [lia|lia|]. apply wp_bind, (wp_check_at n _ region); cbn; try done; [lia|].
  intros s1 multi Hs1. apply wp_when; intros _; [|apply HQ; by eapply I_le; [exact Hs1|lia]].
  apply (wp_each_calls (fun f => 0 <= f < 8) _ 1 _ (n + 1)); [|lia|apply Forall_forall; intros f Hf%elem_of_seqZ; lia|done| |].
  - intros f m s2 R Hf Hs2 Hlim2 HR. apply wp_bind, wp_bdf_unwrap; [lia|lia|].
    apply wp_bind, (wp_check_at m _ region); cbn; try done; []. intros s3 b Hs3. by apply wp_ret, HR.
  - unfold llen. rewrite length_seqZ. lia.
  - intros s2 Hs2. apply HQ. eapply I_le; [exact Hs2|]. unfold llen. rewrite length_seqZ. lia.
Qed.

(** The functions of a region. *)
Definition region_calls (r : PciRegion) : Z := 256 * Z.max 0 (rg_last_bus r - rg_first_bus r + 1).
Definition total_calls (l : list PciRegion) : Z := foldr (fun r n => region_calls r + n) 0 l.

Lemma total_calls_nonneg l : 0 <= total_calls l.
Proof.
  induction l as [|r l IH]; [done|]. change (0 <= region_calls r + total_calls l). unfold region_calls. lia.
Qed.

Lemma wp_check_region n region s (Q : St -> result unit E -> Prop) :
  I n s -> n + region_calls region <= limit -> region_ok off region -> region ∈ regions -> (forall s', I (n + region_calls region) s' -> Q s' (Ok tt)) ->
  wp (p_each (seqZ (rg_first_bus region) (rg_last_bus region - rg_first_bus region + 1)) (fun bus =>
      p_each (seqZ 0 32) (fun device =>
        base ←! p_lift (phys_to_virt off (rg_address region));
        base ←! p_lift (add_ovf 64 base (Z.shiftl (bus - rg_first_bus region) 20));
        check_device base bus device hook))) s Q.
Proof.
  intros Hs Hlim [Hr0 Hr] Hreg HQ. unfold region_calls in *.
  apply (wp_each_calls (fun bus => rg_first_bus region <= bus <= rg_last_bus region) _ 256 _ n);
    [|lia|apply Forall_forall; intros b Hb%elem_of_seqZ; lia|done|unfold llen; rewrite length_seqZ; lia|].
  - intros bus m s1 R Hbus Hs1 Hlim1 HR.
    apply (wp_each_calls (fun d => 0 <= d < 32) _ 8 _ m);
      [|lia|apply Forall_forall; intros d Hd%elem_of_seqZ; lia|done|unfold llen; rewrite length_seqZ; lia|].
    + intros device k s2 R' Hd Hs2 Hlim2 HR'.
      apply wp_bind, (wp_lift _ (rg_address region + off)).
      { unfold phys_to_virt, add_ovf. by rewrite (proj2 (Z.ltb_lt _ _)) by lia. }
      apply wp_bind, (wp_lift _ (rg_address region + off + (bus - rg_first_bus region) * 2 ^ 20)).
      { unfold add_ovf. rewrite Z.shiftl_mul_pow2 by lia. by rewrite (proj2 (Z.ltb_lt _ _)) by lia. }
      by apply (wp_check_device k region).
    + intros s2 Hs2. apply HR. eapply I_le; [exact Hs2|]. unfold llen. rewrite length_seqZ. lia.
  - intros s1 Hs1. apply HQ. eapply I_le; [exact Hs1|]. unfold llen. rewrite length_seqZ. lia.
Qed.

Lemma wp_doit n s (Q : St -> result unit E -> Prop) :
  Forall (region_ok off) regions -> I n s -> n + total_calls regions <= limit ->
  (forall s', I (n + total_calls regions) s' -> Q s' (Ok tt)) -> wp (doit off regions hook) s Q.
Proof.
  unfold doit. intros Hregs. rewrite Forall_forall in Hregs.
  enough (forall l, (forall r, r ∈ l -> r ∈ regions) -> forall n s (Q : St -> result unit E -> Prop), I n s ->
    n + total_calls l <= limit -> (forall s', I (n + total_calls l) s' -> Q s' (Ok tt)) ->
    wp (p_each l (fun region =>
      p_each (seqZ (rg_first_bus region) (rg_last_bus region - rg_first_bus region + 1)) (fun bus =>
      p_each (seqZ 0 32) (fun device =>
        base ←! p_lift (phys_to_virt off (rg_address region));
        base ←! p_lift (add_ovf 64 base (Z.shiftl (bus - rg_first_bus region) 20));
        check_device base bus device hook)))) s Q) as Hl by (by apply Hl).
  clear n s Q. intros l Hsub. induction l as [|r l IH]; intros n s Q Hs Hlim HQ; cbn [p_each].
  - apply wp_ret, HQ. eapply I_le; [exact Hs|cbn; lia].
  - assert (r ∈ regions) as Hr by (apply Hsub; left).
    pose proof (total_calls_nonneg l).
    unfold total_calls in Hlim. cbn [foldr] in Hlim. fold (total_calls l) in Hlim.
    apply wp_bind, (wp_check_region n); [done|lia|by apply Hregs|done|]. intros s1 Hs1.
    apply (IH ltac:(intros r' Hr'; apply Hsub; by right) (n + region_calls r)); [done|lia|].
    intros s2 Hs2. apply HQ. eapply I_le; [exact Hs2|unfold total_calls; cbn [foldr]; lia].
Qed.
End Visit.
End Specs.

(** ** Properties *)

(** C30: The walk over a capability list ends whatever list the hardware presents,
    cyclic ones included: in the configuration space of any function - 4096 bytes of
    registers, and not a byte beyond them - with fuel for 49 steps the search returns, no access
    fails an assertion, and a capability it finds has the wanted identifier and
    an aligned offset behind the standard header. *)
Theorem capability_search_terminates {D St E : Type} `{MachineLaws D} `{HasMachineLaws St D} (config id : Z) (s : St) :
  machine_ok (machine s) -> window config 4096 ->
  exists s' r, find_capability (E := E) CAP_FUEL config id s = Done (s', Ok r) /\ moved s s' /\
    forall c, r = Some c -> cap_id c = id /\ 0x40 <= cap_offset c <= 252 /\ cap_offset c mod 4 = 0.
Proof.
  intros Hs Hwin. destruct (wp_find_capability (E := E) (mk_ConfigSpace config Hwin) id s (fun s' r => exists o, r = Ok o /\ moved s s' /\
    forall c, o = Some c -> cap_ok c /\ cap_id c = id)) as (s' & r & Hf & o & -> & M & Ho); [done|eauto|].
  exists s', o. split; [exact Hf|]. split; [done|]. intros c Hc. destruct (Ho c Hc) as [[Hr Hm] Hid].
  rewrite (Z.land_ones _ 2) in Hm by lia. done.
Qed.

#[local] Instance board_alone : HasMachine (Board example_off Script) (Board example_off Script) := {
  machine d := d;
  set_machine d _ := d;
}.
#[local] Instance board_alone_laws : HasMachineLaws (Board example_off Script) (Board example_off Script).
Proof. by split. Qed.
#[local] Existing Instance z_bit_field.

(** A list of two capabilities that point at each other. *)
Definition cyclic_board : Board example_off Script :=
  example_board (fun _ => 0) ((fun v => (v, [])) <$> [0x10; 0x40; 1; 0x48; 5; 0x40]).
Lemma capability_search_terminates_witness :
  exists s' , find_capability (E := unit) CAP_FUEL 0xe0000000 9 cyclic_board = Done (s', Ok None) /\ moved cyclic_board s'.
Proof.
  destruct (capability_search_terminates (E := unit) 0xe0000000 9 cyclic_board)
    as (s' & r & Hf & M & _); [apply example_board_ok|intros k n Hk Hn Hl; left; unfold example_off; lia|].
  assert (r = None) as ->.
  { pose proof (f_equal (fun o => match o with Done (_, r) => Some r | _ => None end) Hf) as Hr.
    vm_compute in Hr. by injection Hr as ->. }
  exists s'. split; [exact Hf|exact M].
Defined.

(** ** Which functions are visited *)

Section Enumeration.
Context {D St E : Type} `{Machine D} `{HasMachine St D}.

(** The registers of a function that the enumeration reads: a vendor of all ones or
    zero stands for no function, bit 7 of the header type for several of them. *)
Record FunctionRegisters := mk_FunctionRegisters { fr_vendor : Z; fr_header : Z }.
Definition present (f : FunctionRegisters) : bool := negb (bool_decide (fr_vendor f = 0xffff \/ fr_vendor f = 0)).
Definition several (f : FunctionRegisters) : bool := Z.testbit (fr_header f) 7.

(** The 4096 bytes of a function in the memory of its region. *)
Definition function_at (off : Z) (r : PciRegion) (bus device function : Z) : Z :=
  off + rg_address r + 4096 * (256 * (bus - rg_first_bus r) + 8 * device + function).

(** The functions [regs] describes: every bus, every device; the functions beyond
    the first only of a device that has several. *)
Definition functions (regs : PciRegion -> Z -> Z -> Z -> FunctionRegisters) (off : Z) (regions : list PciRegion) : list (Bdf * Z) :=
  r ← regions;
  bus ← seqZ (rg_first_bus r) (rg_last_bus r - rg_first_bus r + 1);
  device ← seqZ 0 32;
  (fun f => (mk_Bdf bus device f, function_at off r bus device f)) <$>
    (if present (regs r bus device 0)
     then 0 :: if several (regs r bus device 0) then filter (fun f => present (regs r bus device f) = true) (seqZ 1 7) else []
     else []).

(** The hardware answers the reads of these registers, and nothing else happens. *)
Definition answers (regs : PciRegion -> Z -> Z -> Z -> FunctionRegisters) (off : Z) (regions : list PciRegion) : Prop :=
  forall r bus device f (d : D), r ∈ regions -> rg_first_bus r <= bus <= rg_last_bus r -> 0 <= device < 32 -> 0 <= f < 8 ->
    mmio_read d (function_at off r bus device f) 2 = (d, fr_vendor (regs r bus device f)) /\
    mmio_read d (function_at off r bus device f + 14) 1 = (d, fr_header (regs r bus device f)).
End Enumeration.

Section Equations.
Context {S E : Type}.
Lemma p_each_ext {A} (l : list A) (f g : A -> prog S E unit) s :
  (forall x s, x ∈ l -> f x s = g x s) -> p_each l f s = p_each l g s.
Proof.
  revert s. induction l as [|x l IH]; intros s He; cbn [p_each]; [done|]. unfold p_bind. rewrite He by left.
  destruct (g x s) as [[s1 [[]|e]]| |]; cbn; [|done..]. apply IH. intros. apply He. by right.
Qed.
Lemma p_each_app {A} (l k : list A) (f : A -> prog S E unit) s : p_each (l ++ k) f s = (p_each l f ;! p_each k f) s.
Proof.
  revert s. induction l as [|x l IH]; intros s; cbn [p_each app]; [done|]. unfold p_bind in *.
  destruct (f x s) as [[s1 [[]|e]]| |]; cbn; [|done..]. by rewrite IH.
Qed.
Lemma p_each_fmap {A B} (l : list A) (g : A -> B) (f : B -> prog S E unit) s : p_each (g <$> l) f s = p_each l (fun x => f (g x)) s.
Proof.
  revert s. induction l as [|x l IH]; intros s; cbn [p_each fmap list_fmap]; [done|]. unfold p_bind.
  destruct (f (g x) s) as [[s1 [[]|e]]| |]; cbn; [|done..]. apply IH.
Qed.
Lemma p_each_bind {A B} (l : list A) (g : A -> list B) (f : B -> prog S E unit) s :
  p_each (l ≫= g) f s = p_each l (fun x => p_each (g x) f) s.
Proof.
  revert s. induction l as [|x l IH]; intros s; [done|]. cbn [p_each mbind list_bind]. rewrite p_each_app. unfold p_bind.
  destruct (p_each (g x) f s) as [[s1 [[]|e]]| |]; cbn; [|done..]. apply IH.
Qed.
Lemma p_each_filter {A} (b : A -> bool) (l : list A) (f : A -> prog S E unit) s :
  p_each (filter (fun x => b x = true) l) f s = p_each l (fun x => p_when (b x) (f x)) s.
Proof.
  revert s. induction l as [|x l IH]; intros s; [done|]. rewrite filter_cons. cbn [p_each]. unfold p_bind at 1.
  destruct (b x) eqn:Hb; [rewrite decide_True by done|rewrite decide_False by (by rewrite ?Hb)]; cbn [p_when p_each].
  - unfold p_bind. destruct (f x s) as [[s1 [[]|e]]| |]; cbn; [|done..]. apply IH.
  - cbn. apply IH.
Qed.
End Equations.

Section Enumerates.
Context {D St E : Type} `{Machine D} `{HasMachine St D} `{!HasMachineLaws St D}.
Context (regs : PciRegion -> Z -> Z -> Z -> FunctionRegisters) (off : Z) (regions : list PciRegion) (Hregs : answers regs off regions).
Context (hook : Bdf -> Z -> prog St E unit) (Hok : Forall (region_ok off) regions).

Lemma present_vendor f : negb (fr_vendor f =? 0xffff) && negb (fr_vendor f =? 0) = present f.
Proof. unfold present. destruct (Z.eqb_spec (fr_vendor f) 0xffff), (Z.eqb_spec (fr_vendor f) 0); cbn; symmetry; try apply negb_false_iff; try apply negb_true_iff; case_bool_decide; tauto. Qed.
Lemma several_header f : negb (Z.land (fr_header f) 0x80 =? 0) = several f.
Proof.
  unfold several. change 0x80 with (2 ^ 7). by rewrite land_pow2_testbit by lia.
Qed.

Lemma check_at_eq r bus device f s :
  r ∈ regions -> rg_first_bus r <= bus <= rg_last_bus r -> 0 <= device < 32 -> 0 <= f < 8 ->
  check_at (rg_address r + off + (bus - rg_first_bus r) * 2 ^ 20) (mk_Bdf bus device f) hook s =
    (p_when (present (regs r bus device f)) (hook (mk_Bdf bus device f) (function_at off r bus device f)) ;!
     p_ret (present (regs r bus device f) && several (regs r bus device f))) s.
Proof.
  intros Hr Hb Hd Hf. pose proof (proj1 (Forall_forall _ _) Hok r Hr) as [Hr0 Hr1].
  unfold check_at. cbn [bdf_device bdf_function].
  assert (get_config_space (rg_address r + off + (bus - rg_first_bus r) * 2 ^ 20) 0 device f = Done (function_at off r bus device f)) as ->.
  { unfold get_config_space, add_ovf, function_at. rewrite !Z.shiftl_mul_pow2 by lia.
    repeat (rewrite (proj2 (Z.ltb_lt _ _)) by lia; cbn [mbind outcome_bind]). f_equal. lia. }
  unfold p_lift, vendor_id, header_type, config_read. unfold p_bind at 1. cbn [mbind outcome_bind]. unfold p_bind at 1. rewrite Z.add_0_r.
  rewrite (proj1 (Hregs r bus device f _ Hr Hb Hd Hf)). cbn [mbind outcome_bind]. rewrite set_machine_machine, present_vendor.
  destruct (present (regs r bus device f)); cbn [p_when andb]; [|done]. unfold p_bind.
  destruct (hook _ _ s) as [[s1 [[]|e]]| |]; cbn [mbind outcome_bind]; [|done..].
  rewrite (proj2 (Hregs r bus device f _ Hr Hb Hd Hf)). cbn [mbind outcome_bind].
  by rewrite set_machine_machine, several_header.
Qed.

Lemma check_device_eq r bus device s :
  r ∈ regions -> rg_first_bus r <= bus <= rg_last_bus r -> 0 <= device < 32 ->
  check_device (rg_address r + off + (bus - rg_first_bus r) * 2 ^ 20) bus device hook s =
    p_each (if present (regs r bus device 0)
      then 0 :: if several (regs r bus device 0) then filter (fun f => present (regs r bus device f) = true) (seqZ 1 7) else []
      else []) (fun f => hook (mk_Bdf bus device f) (function_at off r bus device f)) s.
Proof.
  intros Hr Hb Hd. unfold check_device, bdf_unwrap, bdf_new, p_lift.
  rewrite (proj2 (Z.ltb_lt device 32)) by lia. unfold p_bind at 1. cbn [andb Z.ltb Z.compare Pos.compare Pos.compare_cont mbind outcome_bind unwrap].
  unfold p_bind at 1. rewrite check_at_eq by (done || lia). destruct (present (regs r bus device 0)); cbn [p_when andb]; [|done].
  cbn [p_each]. unfold p_bind. destruct (hook _ _ s) as [[s1 [[]|e]]| |]; cbn [mbind outcome_bind p_ret]; [|done..].
  destruct (several (regs r bus device 0)); cbn [p_when]; [|done].
  rewrite (p_each_filter (fun f => present (regs r bus device f))). apply p_each_ext. intros f s2 Hf%elem_of_seqZ.
  rewrite (proj2 (Z.ltb_lt f 8)) by lia. cbn [mbind outcome_bind unwrap]. rewrite check_at_eq by (done || lia).
  destruct (present (regs r bus device f)); cbn [p_when]; [|done]. unfold p_bind.
  by destruct (hook _ _ s2) as [[s3 [[]|e]]| |].
Qed.

Lemma doit_eq s :
  doit off regions hook s = p_each (functions regs off regions) (fun f => hook f.1 f.2) s.
Proof.
  unfold doit, functions. rewrite p_each_bind. apply p_each_ext. intros r s1 Hr. rewrite p_each_bind. apply p_each_ext.
  intros bus s2 Hbus%elem_of_seqZ. rewrite p_each_bind. apply p_each_ext. intros device s3 Hd%elem_of_seqZ. rewrite p_each_fmap.
  pose proof (proj1 (Forall_forall _ _) Hok r Hr) as [Hr0 Hr1].
  unfold p_lift, phys_to_virt, add_ovf. rewrite Z.shiftl_mul_pow2 by lia. unfold p_bind at 1.
  rewrite (proj2 (Z.ltb_lt _ _)) by lia. cbn [mbind outcome_bind]. unfold p_bind at 1. rewrite (proj2 (Z.ltb_lt _ _)) by lia.
  cbn [mbind outcome_bind]. by apply check_device_eq; [|lia|lia].
Qed.
End Enumerates.

(** C31: The enumeration visits exactly the functions that are there, each at its own
    configuration space.  When the regions lie in the direct map and the hardware
    answers the reads of vendor and header type (and a read changes nothing), [doit] is
    the same program, for every hook, as calling the hook in order on the functions of
    the specification: function 0 of every device of every bus whose vendor is neither
    0 nor all ones, and its other functions when bit 7 of its header type is set; each
    with the address of its 4096 bytes, which is the one [Bdf::offset] names. *)
Theorem doit_visits_functions {D St E : Type} `{Machine D} `{HasMachine St D} `{!HasMachineLaws St D}
    (regs : PciRegion -> Z -> Z -> Z -> FunctionRegisters) (off : Z) (regions : list PciRegion) (hook : Bdf -> Z -> prog St E unit) (s : St) :
  answers regs off regions -> Forall (region_ok off) regions ->
  doit off regions hook s = p_each (functions regs off regions) (fun f => hook f.1 f.2) s /\
  forall bdf config, (bdf, config) ∈ functions regs off regions ->
    exists r, r ∈ regions /\ bdf_offset bdf (rg_first_bus r) = Some (config - (off + rg_address r)).
Proof.
  intros Ha Hok. split; [by apply doit_eq|]. intros bdf config Hin. unfold functions in Hin.
  apply list_elem_of_bind in Hin as (r & Hin & Hr). apply list_elem_of_bind in Hin as (bus & Hin & Hbus%elem_of_seqZ).
  apply list_elem_of_bind in Hin as (device & Hin & Hd%elem_of_seqZ). apply list_elem_of_fmap in Hin as (f & [= -> ->] & Hf).
  assert (0 <= f < 8) as Hf8.
  { destruct (present _); [|by apply elem_of_nil in Hf]. apply elem_of_cons in Hf as [->|Hf]; [lia|].
    destruct (several _); [|by apply elem_of_nil in Hf]. apply list_elem_of_filter in Hf as [_ Hf%elem_of_seqZ]. lia. }
  exists r. split; [done|]. rewrite bdf_offset_sum by lia. f_equal. unfold function_at. lia.
Qed.

(** A machine with one device of two functions, device 3 of bus 2. *)
Definition two_functions (r : PciRegion) (bus device f : Z) : FunctionRegisters :=
  if (bus =? 2) && (device =? 3) && ((f =? 0) || (f =? 5)) then mk_FunctionRegisters 0x8086 0x80 else mk_FunctionRegisters 0xffff 0.
#[local] Instance quiet_machine : Machine unit := {
  mmio_read _ a n :=
    let k := (a - 0xffff8000b0000000) / 4096 in
    let f := two_functions (mk_Region 0xb0000000 1 2) (k / 256 + 1) (k / 8 mod 32) (k mod 8) in
    (tt, if a mod 4096 =? 0 then fr_vendor f else fr_header f);
  mmio_write d _ _ _ := d;
  dma_load _ _ _ := Panic;
  dma_store _ _ _ := Panic;
  dma_alloc _ _ _ := Panic;
  dma_free _ _ := Panic;
}.
#[local] Instance logged_machine : HasMachine (unit * list (Bdf * Z)) unit := { machine := fst; set_machine d s := (d, s.2) }.
#[local] Instance logged_machine_laws : HasMachineLaws (unit * list (Bdf * Z)) unit.
Proof. split; [done|done|by intros []]. Qed.

Lemma doit_visits_functions_witness :
  doit (E := unit) 0xffff800000000000 [mk_Region 0xb0000000 1 2] (fun bdf config s => Done ((tt, s.2 ++ [(bdf, config)]), Ok tt)) (tt, [])
    = Done ((tt, [(mk_Bdf 2 3 0, 0xffff8000b0118000); (mk_Bdf 2 3 5, 0xffff8000b011d000)]), Ok tt).
Proof.
  refine (eq_trans (proj1 (doit_visits_functions two_functions _ _ _ _ _ _)) _).
  - intros r bus device f d ->%list_elem_of_singleton Hb Hd Hf. cbn [rg_first_bus rg_last_bus rg_address] in *. destruct d.
    assert (forall x, 0 <= x < 4096 -> (function_at 0xffff800000000000 (mk_Region 0xb0000000 1 2) bus device f + x - 0xffff8000b0000000) / 4096
      = 256 * (bus - 1) + 8 * device + f /\ (function_at 0xffff800000000000 (mk_Region 0xb0000000 1 2) bus device f + x) mod 4096 = x) as Hx.
    { intros x Hx. unfold function_at. cbn [rg_first_bus rg_address]. set (k := 256 * (bus - 1) + 8 * device + f).
      split; symmetry; [apply (Z.div_unique _ _ _ x)|apply (Z.mod_unique _ _ (0xffff8000b0000 + k))]; lia. }
    assert (two_functions (mk_Region 0xb0000000 1 2) ((256 * (bus - 1) + 8 * device + f) / 256 + 1) ((256 * (bus - 1) + 8 * device + f) / 8 mod 32)
       ((256 * (bus - 1) + 8 * device + f) mod 8) = two_functions (mk_Region 0xb0000000 1 2) bus device f) as Hk.
    { f_equal; Z.div_mod_to_equations; lia. }
    destruct (Hx 0 ltac:(lia)) as [Hx0 Hx0']. destruct (Hx 14 ltac:(lia)) as [Hx1 Hx1']. rewrite Z.add_0_r in Hx0, Hx0'.
    cbn [mmio_read quiet_machine]. cbv zeta. rewrite Hx0, Hx0', Hx1, Hx1', Hk. done.
  - constructor; [|constructor]. split; vm_compute; congruence.
  - vm_compute. reflexivity.
Defined.
