(* ===== verification/XhcInit.v ===== *)
(** * The xHCI controller: discovery, start and the kernel's entry points

    [xhci/controller.rs], last part: BAR sizing, the hand-over from the firmware,
    the reset sequence, the construction and start of a controller with the
    enumeration of the ports that are occupied at boot, MSI, and the functions the
    rest of the kernel calls. *)

From S2P Require Import Prelude Words Dma Machine Trb UsbDesc PortRec Msc Bulk Input Hid UsbBlock XhcState XhcTransfer XhcPorts Pcie.

(** @ xhci/controller.rs:33-33 PCI_CAP_ID_MSI *)
Definition PCI_CAP_ID_MSI : Z := 0x05.
(** @ xhci/controller.rs:34-34 MSI_CONTROL_ENABLE *)
Definition MSI_CONTROL_ENABLE : Z := 1.
(** @ xhci/controller.rs:35-35 MSI_CONTROL_MME_MASK *)
Definition MSI_CONTROL_MME_MASK : Z := Z.shiftl 7 4.
(** @ xhci/controller.rs:36-36 MSI_CONTROL_64BIT *)
Definition MSI_CONTROL_64BIT : Z := Z.shiftl 1 7.
(** @ xhci/controller.rs:38-38 MAX_CONTROLLERS *)
Definition MAX_CONTROLLERS : Z := 4.
(** @ int.rs:30-30 XHCI_MSI_VECTOR *)
Definition XHCI_MSI_VECTOR : Z := 0x50.

(** @ xhci/controller.rs:46-54 msi_data_offset *)
Definition msi_data_offset (capability_offset control : Z) : Z :=
  if negb (Z.land control MSI_CONTROL_64BIT =? 0) then capability_offset + 12 else capability_offset + 8.

(** The stage at which a reset got stuck. *)
(** @ xhci/controller.rs:159-161 ResetError *)
Inductive ResetError := ResetTimeout (stage : string).

(** [is_power_of_two] of a [u64]. *)
Definition u64_power_of_two (n : Z) : bool := (0 <? n) && (Z.land n (n - 1) =? 0).

Section Reset.
Context {D St E : Type} `{Machine D} `{HasMachine St D}.
Implicit Types (register : RegisterBlock) (config : Z).

(** ** The BAR *)

(** The sizing transaction; the registers are restored. *)
(** @ xhci/controller.rs:2133-2166 bar0 *)
Definition bar0 config : prog St E (option (Z * Z)) :=
  low ←! read_u32 config 0x10;
  high ←! read_u32 config 0x14;
  match decode_memory_bar low high with
  | None => p_ret None
  | Some decoded =>
      let '(address, wide) := match decoded with Bits32 address => (address, false) | Bits64 address => (address, true) end in
      write_u32 config 0x10 0xffffffff ;!
      mask_low ←! read_u32 config 0x10;
      mask_high ←! (if wide : bool then write_u32 config 0x14 0xffffffff ;! read_u32 config 0x14 else p_ret 0);
      write_u32 config 0x10 low ;!
      p_when wide (write_u32 config 0x14 high) ;!
      let mask := Z.lor (Z.land mask_low 0xfffffff0) (Z.shiftl mask_high 32) in
      let length := wrapping_add 64 (2 ^ 64 - 1 - mask) 1 in
      if (address =? 0) || (length <? MIN_BAR_LEN) || negb (u64_power_of_two length) then p_ret None
      else p_ret (Some (address, length))
  end.

(** ** Reset *)

(** The next extended capability, in bytes. *)
Definition xecap_next (header : Z) : Z := Z.shiftr (Z.land header XECAP_NEXT_MASK) XECAP_NEXT_SHIFT * 4.

(** The firmware gives the controller up. *)
(** @ xhci/controller.rs:2168-2193 ownership *)
Fixpoint ownership_loop (fuel : nat) register (offset : Z) : prog St E bool :=
  match fuel with
  | O => p_ret true
  | S fuel =>
      header ←! read32 register offset;
      let next := xecap_next header in
      if Z.land header XECAP_ID_MASK =? XECAP_USB_LEGACY_SUPPORT then
        v ←! read32 register offset;
        if negb (Z.land v USBLEGSUP_BIOS_OWNED =? 0) then
          write32 register offset (Z.lor v USBLEGSUP_OS_OWNED) ;!
          wait_for POLL_LIMIT (a ←! read32 register offset; p_ret (Z.land a USBLEGSUP_BIOS_OWNED =? 0))
        else p_ret true
      else if (next =? 0) || (next =? offset) then p_ret true
      else ownership_loop fuel register (saturating_add 64 offset next)
  end.
Definition ownership register (xecp : Z) : prog St E bool := ownership_loop 256 register xecp.

(** [regs.read32(op + reg) & mask == 0], or its negation. *)
Definition bit_clear register (reg mask : Z) : prog St E bool :=
  a ←! read32 register reg; p_ret (Z.land a mask =? 0).
Definition bit_set register (reg mask : Z) : prog St E bool :=
  a ←! read32 register reg; p_ret (negb (Z.land a mask =? 0)).
Definition set_command register (op : Z) (f : Z -> Z) : prog St E unit :=
  a ←! read32 register (op + USBCMD); write32 register (op + USBCMD) (f a).
(** [if !wait_for(..) { return Err(..) }]. *)
Definition require (m : prog St E bool) (stage : string) (k : prog St E (result (Z * Z * Z * bool * Z) ResetError))
    : prog St E (result (Z * Z * Z * bool * Z) ResetError) :=
  ok ←! m; if ok : bool then k else p_ret (Err (ResetTimeout stage)).

(** Version, ports, HCSPARAMS2, the context size and the operational offset. *)
(** @ xhci/controller.rs:2195-2241 reset_controller *)
Definition reset_controller register : prog St E (result (Z * Z * Z * bool * Z) ResetError) :=
  cap ←! read32 register CAPLENGTH;
  let cap_len := Z.land cap 0xff in
  version ←! read16 register HCIVERSION;
  hcs1 ←! read32 register HCSPARAMS1;
  hcs2 ←! read32 register (HCSPARAMS1 + 4);
  hcc1 ←! read32 register HCCPARAMS1;
  let port_count := wrap 8 (Z.shiftr hcs1 24) in
  let xecp := saturating_mul 64 (Z.shiftr (Z.land hcc1 HCCPARAMS1_XECP_MASK) HCCPARAMS1_XECP_SHIFT) 4 in
  require (if cap_len <? 0x20 then p_ret false else ownership register xecp) "BIOS ownership"
  (let op := cap_len in
   set_command register op (fun a => clear_bits a USBCMD_RUN) ;!
   require (wait_for POLL_LIMIT (bit_set register (op + USBSTS) USBSTS_HCHALTED)) "halt"
   (set_command register op (fun a => Z.lor a USBCMD_HCRST) ;!
    require (wait_for POLL_LIMIT (bit_clear register (op + USBCMD) USBCMD_HCRST)) "reset"
    (require (wait_for POLL_LIMIT (bit_clear register (op + USBSTS) USBSTS_CNR)) "CNR"
     (p_ret (Ok (version, port_count, hcs2, negb (Z.land hcc1 (Z.shiftl 1 2) =? 0), cap_len)))))).
End Reset.

(** ** Construction *)

(** The number of scratchpad pages, from HCSPARAMS2. *)
Definition scratch_count (hcs2 : Z) : Z :=
  Z.lor (Z.shiftl (Z.land (Z.shiftr hcs2 27) 0x1f) 5) (Z.land (Z.shiftr hcs2 21) 0x1f).

Section New.
Context {D St : Type} `{Machine D} `{HasMachine St D}.
Abbreviation iprog A := (prog St InitError A).

(** One page per entry of the array; [scope] is what an error drops besides. *)
(** @ xhci/controller.rs:225-235 ControllerResources::new -- the scratchpads *)
Fixpoint alloc_scratchpads (array : option DmaBuffer) (scope : list DmaBuffer) (indices : list Z) (pads : list DmaBuffer)
    : iprog (list DmaBuffer) :=
  match indices with
  | [] => p_ret pads
  | index :: indices =>
      page ←! or_drop (pads ++ scope) (dma_buffer 4096 4096 Allocation);
      a ←! p_lift (unwrap array);
      store64 (as_ptr a + index * 8) (dma_physical_address page) ;!
      alloc_scratchpads array scope indices (pads ++ [page])
  end.

(** @ xhci/controller.rs:216-291 ControllerResources::new *)
Definition ctl_new (mapping : MmioMapping) (hcs2 : Z) : iprog ControllerResources :=
  let count := scratch_count hcs2 in
  dcbaa ←! dma_buffer (256 * 8) 64 Allocation;
  array ←! (if count =? 0 then p_ret None
            else a ←! or_drop [dcbaa] (dma_buffer (count * 8) 64 Allocation); p_ret (Some a));
  let scope := option_list array ++ [dcbaa] in
  pads ←! alloc_scratchpads array scope (seqZ 0 count) [];
  let scope := pads ++ scope in
  command_ring ←! or_drop scope (dma_buffer 4096 64 Allocation);
  event_ring ←! or_drop (command_ring :: scope) (dma_buffer (EVENT_RING_ENTRIES * 16) 64 Allocation);
  erst ←! or_drop (event_ring :: command_ring :: scope) (dma_buffer 16 64 Allocation);
  store_bytes (as_ptr command_ring + (COMMAND_RING_ENTRIES - 1) * 16) (trb_bytes (initial_link command_ring)) ;!
  store_bytes (as_ptr erst)
    (to_le 8 (dma_physical_address event_ring) ++ to_le 2 EVENT_RING_ENTRIES ++ to_le 2 0 ++ to_le 4 0) ;!
  match array with
  | Some a => store64 (as_ptr dcbaa) (dma_physical_address a)
  | None => p_ret tt
  end ;!
  p_ret (mk_Ctl mapping dcbaa array pads command_ring event_ring erst 0 true 0 0 true 0 0 0 false [] [] []
           false 0 None 0 0 true).
End New.

(** ** Start *)

Section Start.
Context {D I : Type} `{Machine D} `{InputSink I}.
Abbreviation xprog A := (prog (Xhc D I) InitError A).
Implicit Types (register : RegisterBlock) (port : Z).

(** @ xhci/controller.rs:725-758 ControllerResources::supported_protocols *)
Fixpoint supported_protocols_loop (fuel : nat) register (offset : Z) (protocols : list SupportedProtocol)
    : xprog (list SupportedProtocol) :=
  match fuel with
  | O => p_ret protocols
  | S fuel =>
      if offset =? 0 then p_ret protocols else
      header ←! read32 register offset;
      protocols ←! (if Z.land header XECAP_ID_MASK =? 2 then
          ports ←! read32 register (offset + 8); p_ret (protocols ++ option_list (supported_protocol header ports))
        else p_ret protocols);
      let next := xecap_next header in
      if (next =? 0) || (next =? offset) then p_ret protocols
      else supported_protocols_loop fuel register (saturating_add 64 offset next) protocols
  end.
Definition supported_protocols register : xprog (list SupportedProtocol) :=
  hcc1 ←! read32 register HCCPARAMS1;
  supported_protocols_loop 256 register
    (Z.shiftr (Z.land hcc1 HCCPARAMS1_XECP_MASK) HCCPARAMS1_XECP_SHIFT * 4) [].

(** The ports of a protocol: [port_start..port_start.saturating_add(port_count)]. *)
Definition protocol_ports (p : SupportedProtocol) : list Z :=
  seqZ (port_start p) (saturating_add 8 (port_start p) (port_count p) - port_start p).

(** The protocols, with the fallback for controllers that list none. *)
(** @ xhci/controller.rs:768-789 ControllerResources::enumerate_root_ports -- the protocols *)
Definition root_protocols register : xprog (list SupportedProtocol) :=
  protocols ←! supported_protocols register;
  match protocols with
  | [] =>
      hcs1 ←! read32 register HCSPARAMS1;
      let port_count := wrap 8 (Z.shiftr hcs1 24) in
      p_ret (if negb (port_count =? 0) then [mk_SupportedProtocol 2 0 1 port_count true] else [])
  | _ => p_ret protocols
  end.

(** A port that is occupied at boot. *)
(** @ xhci/controller.rs:811-898 ControllerResources::enumerate_root_ports -- the body for a port *)
Definition boot_port register port : xprog unit :=
  c ←! self;
  if has_device port (ports c) then p_ret tt else
  offset ←! port_offset port;
  portsc ←! read32 register offset;
  modify_record port (fun record => mark_stage (set_portsc record (clear_bits portsc PORTSC_CHANGE_MASK)) Enumerating) ;!
  if negb (has_bit portsc PORTSC_CCS) then modify_record port (fun record => mark_stage record Disconnected) else
  if 4 <=? port_speed portsc then p_ret tt else
  reset ←! reset_port register offset;
  if negb reset then p_ret tt else
  portsc ←! read32 register offset;
  c ←! self;
  let generation := match find_record port (root_ports c) with Some record => pr_generation record | None => 0 end in
  r ←! p_try (address_port register port (port_speed portsc) generation);
  match r with
  | Ok device =>
      load_bytes (as_ptr (rd_device_descriptor device)) 18 ;!
      attach device ;! modify_record port mark_active
  | Err _ => modify_record port (fun record => mark_failed record 0)
  end.

(** @ xhci/controller.rs:760-901 ControllerResources::enumerate_root_ports *)
Definition enumerate_root_ports register : xprog unit :=
  found ←! root_protocols register;
  let usb2_protocols := filter (fun p => usb2 p = true) found in
  modify_self (fun c => c <| protocols := found |>
    <| root_ports := concat (map (fun p => (fun port => port_new port p 0) <$> protocol_ports p) usb2_protocols) |>) ;!
  p_each usb2_protocols (fun p => p_each (protocol_ports p) (boot_port register)).

(** The registers of a stopped controller. *)
(** @ xhci/controller.rs:307-330 ControllerResources::start -- the registers *)
Definition program_registers register (runtime op max_slots : Z) : xprog unit :=
  c ←! self;
  write64 register (op + DCBAAP) (dma_physical_address (dcbaa c)) ;!
  write64 register (op + CRCR) (Z.lor (dma_physical_address (command_ring c)) 1) ;!
  write32 register (op + CONFIG) max_slots ;!
  write32 register (runtime + RT_INTR0 + ERSTSZ) 1 ;!
  write64 register (runtime + RT_INTR0 + ERSTBA) (dma_physical_address (erst c)) ;!
  write64 register (runtime + RT_INTR0 + ERDP) (dma_physical_address (event_ring c)) ;!
  write32 register (runtime + RT_INTR0 + IMAN) (Z.lor IMAN_IP IMAN_IE) ;!
  set_command register op (fun a => Z.lor a USBCMD_RUN).

(** The buffers the object drops. *)
Definition ctl_buffers (c : ControllerResources) : list DmaBuffer :=
  [dcbaa c] ++ option_list (scratchpad_array c) ++ scratchpads c ++ [command_ring c; event_ring c; erst c].

(** The body; an error drops the object, the caller's [Err]. *)
(** @ xhci/controller.rs:293-358 ControllerResources::start *)
Definition start register (cap_len max_slots : Z) (wide : bool) : xprog unit :=
  rtsoff ←! read32 register RTSOFF;
  let rt := clear_bits rtsoff 0x1f in
  dboff ←! read32 register DBOFF;
  let db := clear_bits dboff 3 in
  program_registers register rt cap_len max_slots ;!
  running ←! wait_for POLL_LIMIT (bit_clear register (cap_len + USBSTS) USBSTS_HCHALTED);
  if negb running then p_err (Timeout "run") else
  modify_self (fun c => c <| runtime := rt |> <| doorbell := db |> <| op := cap_len |> <| context_64 := wide |>) ;!
  submit_command register (mk_Trb 0 0 TRB_TYPE_NOOP_COMMAND) ;!
  enumerate_root_ports register.

(** ** Interrupts *)

(** [lapic] is the identifier of the boot processor's local APIC. *)
(** @ xhci/controller.rs:624-668 ControllerResources::enable_msi *)
Definition enable_msi (lapic config : Z) : xprog unit :=
  capability ←! find_capability CAP_FUEL config PCI_CAP_ID_MSI;
  match capability with
  | None => p_ret tt
  | Some cap =>
      control ←! read_u16 config (cap_offset cap + 2);
      let data_offset := msi_data_offset (cap_offset cap) control in
      let address := Z.lor 0xfee00000 (Z.shiftl lapic 12) in
      write_u32 config (cap_offset cap + 4) (wrap 32 address) ;!
      p_when (negb (Z.land control MSI_CONTROL_64BIT =? 0))
        (write_u32 config (cap_offset cap + 8) (wrap 32 (Z.shiftr address 32))) ;!
      write_u16 config data_offset XHCI_MSI_VECTOR ;!
      write_u16 config (cap_offset cap + 2) (Z.lor (clear_bits control MSI_CONTROL_MME_MASK) MSI_CONTROL_ENABLE) ;!
      c ←! self;
      set_command (mk_RegisterBlock (mm_virtual_address (mapping c))) (op c) (fun a => Z.lor a USBCMD_INTE) ;!
      modify_self (fun c => c <| msi_vector := Some XHCI_MSI_VECTOR |>)
  end.

(** @ xhci/controller.rs:670-691 ControllerResources::acknowledge_interrupt *)
Definition acknowledge_interrupt : xprog bool :=
  c ←! self;
  let register := mk_RegisterBlock (mm_virtual_address (mapping c)) in
  status ←! read32 register (op c + USBSTS);
  iman ←! read32 register (runtime c + RT_INTR0 + IMAN);
  if (Z.land status USBSTS_EINT =? 0) && (Z.land iman IMAN_IP =? 0) then p_ret false else
  p_when (negb (Z.land status USBSTS_EINT =? 0)) (write32 register (op c + USBSTS) USBSTS_EINT) ;!
  p_when (negb (Z.land iman IMAN_IP =? 0))
    (write32 register (runtime c + RT_INTR0 + IMAN) (Z.lor (Z.land iman IMAN_IE) IMAN_IP)) ;!
  modify_self (fun c => c <| interrupt_count := wrapping_add 64 (interrupt_count c) 1 |> <| interrupt_pending := true |>) ;!
  p_ret true.
End Start.

(** ** The kernel's view *)

(** The machine, the page tables, the registry of block devices, the input sink and
    the controllers: [CONTROLLERS], filled from the front, and those for which
    there was no slot. *)
Record World (D I M : Type) := mk_World {
  w_hw : D;
  w_map : M;
  w_usb : list UsbRecord;
  w_input : I;
  w_slots : list ControllerResources;
  w_unregistered : list ControllerResources;
}.
Arguments mk_World {D I M}.
Arguments w_hw {D I M}.
Arguments w_map {D I M}.
Arguments w_usb {D I M}.
Arguments w_input {D I M}.
Arguments w_slots {D I M}.
Arguments w_unregistered {D I M}.
#[global] Instance World_fields D I M : Fields (World D I M) := fun w =>
  mk_World (w_hw w) (w_map w) (w_usb w) (w_input w) (w_slots w) (w_unregistered w).
#[global] Instance World_machine D I M : HasMachine (World D I M) D := {
  machine := w_hw;
  set_machine d w := w <| w_hw := d |>;
}.
#[global] Instance World_machine_laws D I M : HasMachineLaws (World D I M) D.
Proof. split; [done|done|by intros []]. Qed.

Section Kernel.
Context {D I M : Type} `{Machine D} `{InputSink I} `{Mapper M} (off lapic : Z).
Abbreviation W := (World D I M).
Abbreviation wprog A := (prog W InitError A).

(** A method on a controller, and the world and the controller after it. *)
Definition run_method {A E} (c : ControllerResources) (m : prog (Xhc D I) E A) (w : W)
    : outcome (W * ControllerResources * result A E) :=
  '(s, r) ← m (mk_Xhc (w_hw w) (w_usb w) (w_input w) c);
  Done (w <| w_hw := x_hw s |> <| w_usb := x_usb s |> <| w_input := x_input s |>, x_ctl s, r).
Definition with_controller {A} (c : ControllerResources) (m : prog (Xhc D I) InitError A)
    : wprog (ControllerResources * result A InitError) :=
  fun w => '(w, c, r) ← run_method c m w; Done (w, Ok (c, r)).
(** The same on the controller in a slot. *)
Definition on_slot {A} (i : nat) (m : prog (Xhc D I) InitError A) : wprog A :=
  fun w =>
    c ← unwrap (w_slots w !! i);
    '(w, c, r) ← run_method c m w;
    Done (w <| w_slots := <[i := c]> (w_slots w) |>, r).
Definition all_slots : wprog (list nat) := fun w => Done (w, Ok (seq 0 (length (w_slots w)))).

(** @ xhci/controller.rs:56-66 register_controller *)
Definition register_controller (c : ControllerResources) : wprog bool :=
  fun w => if llen (w_slots w) <? MAX_CONTROLLERS
           then Done (w <| w_slots := w_slots w ++ [c] |>, Ok true)
           else Done (w <| w_unregistered := w_unregistered w ++ [c] |>, Ok false).

(** [MmioMapping::map]. *)
Definition map_mmio (address len : Z) : wprog (result MmioMapping MmioError) :=
  fun w => '(m, r) ← mmio_map off (w_map w) address len; Done (w <| w_map := m |>, Ok r).

(** A started controller moves to its slot and gets its interrupt. *)
(** @ xhci/controller.rs:2292-2305 discover_one -- the registration *)
Definition install (config : Z) (c : ControllerResources) : wprog unit :=
  w ←! p_get;
  registered ←! register_controller c;
  if registered : bool then on_slot (length (w_slots w)) (enable_msi lapic config) else p_ret tt.

(** The BAR of an xHCI function; [None] for other functions and unusable BARs. *)
(** @ xhci/controller.rs:2243-2255 discover_one -- the probe *)
Definition xhci_bar (config : Z) : wprog (option (Z * Z)) :=
  class ←! class_code config;
  sub ←! subclass config;
  interface ←! prog_if config;
  if negb (class =? 0x0c) || negb (sub =? 0x03) || negb (interface =? 0x30) then p_ret None else bar0 config.

(** @ xhci/controller.rs:2243-2350 discover_one *)
Definition discover_one (config : Z) : wprog ControllerState :=
  bar ←! xhci_bar config;
  match bar with
  | None => p_ret CtlFailed
  | Some (address, length) =>
      update_command config (Z.lor (Z.shiftl 1 1) (Z.shiftl 1 2)) 0 ;!
      mapped ←! map_mmio address length;
      match mapped with
      | Err _ => p_ret CtlFailed
      | Ok mapping =>
          let register := mk_RegisterBlock (mm_virtual_address mapping) in
          reset ←! reset_controller register;
          match reset with
          | Err _ => p_ret CtlFailed
          | Ok (_, _, hcs2, wide, cap_len) =>
              hcs1 ←! read32 register HCSPARAMS1;
              let max_slots := Z.land hcs1 0xff in
              r ←! p_try (ctl_new mapping hcs2);
              match r with
              | Err _ => p_ret CtlFailed
              | Ok c =>
                  '(c, r) ←! with_controller c (start register cap_len max_slots wide);
                  match r with
                  | Err _ => drop_buffers (ctl_buffers c) ;! p_ret CtlFailed
                  | Ok _ => install config c ;! p_ret CtlReset
                  end
              end
          end
      end
  end.

(** @ xhci/controller.rs:2353-2369 init *)
Definition xhci_init (regions : list PciRegion) : wprog unit :=
  doit off regions (fun _ config =>
    class ←! class_code config;
    sub ←! subclass config;
    interface ←! prog_if config;
    p_when ((class =? 0x0c) && (sub =? 0x03) && (interface =? 0x30)) (discover_one config ;! p_ret tt)).

(** @ xhci/controller.rs:2375-2385 poll *)
Definition xhci_poll : wprog unit :=
  slots ←! all_slots; p_each slots (fun i => on_slot i (controller_poll POLL_EVENT_BUDGET)).

(** @ xhci/controller.rs:2394-2400 read_usb_blocks -- the loop *)
Fixpoint read_usb_blocks_loop (slots : list nat) (id lba : Z) (output : list Z) : wprog (list Z * bool) :=
  match slots with
  | [] => p_ret (output, false)
  | i :: slots =>
      '(output, ok) ←! on_slot i (controller_read_usb_blocks id lba output);
      if ok : bool then p_ret (output, true) else read_usb_blocks_loop slots id lba output
  end.
(** @ xhci/controller.rs:2390-2402 read_usb_blocks *)
Definition xhci_read_usb_blocks (id lba : Z) (output : list Z) : wprog (list Z * bool) :=
  slots ←! all_slots; read_usb_blocks_loop slots id lba output.

(** @ xhci/controller.rs:2406-2413 interrupt_handler *)
Definition xhci_interrupt_handler : wprog unit :=
  slots ←! all_slots; p_each slots (fun i => on_slot i acknowledge_interrupt ;! p_ret tt).
End Kernel.
