(* ===== verification/XhcBoot.v ===== *)
(** * The xHCI controller: from boot to the first poll

    BAR sizing, reset, construction and start return whatever the hardware does;
    a controller that comes up satisfies the invariant of [XhcSound], one that does
    not has given its memory back. *)

From S2P Require Import Prelude Words Dma Machine Trb UsbDesc PortRec Msc Bulk Input Hid UsbBlock XhcState XhcTransfer XhcPorts Pcie XhcQuiet XhcOwn XhcDevice XhcSound XhcPoll XhcInit.

(** ** A controller that follows the specification *)

(** The first extended capability, from HCCPARAMS1. *)
Definition first_capability (hcc1 : Z) : Z := 4 * (hcc1 / 2 ^ 16).
(** What the capability registers of a BAR of [len] bytes at [va] may say: whenever they
    are read, the register sets they point at lie inside the BAR, and the extended
    capabilities, at the offsets [caps], are linked inside the BAR.  The links are
    those the driver follows: 16 bits of the header, and from offset 0 where
    HCCPARAMS1 names no capability. *)
Record in_spec {D} `{MachineLaws D} (va len : Z) (caps : Z -> Prop) : Prop := {
  is_op d : machine_ok d -> (mmio_read d va 4).2 mod 256 + OP_LEN <= len;
  is_runtime d : machine_ok d -> (mmio_read d (va + 0x18) 4).2 / 32 * 32 + RT_LEN <= len;
  is_doorbell d : machine_ok d -> (mmio_read d (va + 0x14) 4).2 / 4 * 4 + DB_LEN <= len;
  is_first d : machine_ok d -> caps (first_capability (mmio_read d (va + 0x10) 4).2);
  is_next d o : machine_ok d -> caps o ->
    let next := 4 * ((mmio_read d (va + o) 4).2 / 2 ^ 8 mod 2 ^ 16) in next = 0 \/ caps (o + next);
  is_inside o : caps o -> 0 <= o /\ o + 12 <= len;
}.

(** ** Register sequences *)

Section Regs.
Context {D St E : Type} `{MachineLaws D} `{HasMachineLaws St D} {B : Bar}.
Implicit Types (s : St) (register : BarRegister).

Lemma m_read32 register off s (Q : St -> result Z E -> Prop) :
  ready s -> within off 4 -> (forall s' v, moved s s' -> fits 32 v -> Q s' (Ok v)) -> wp (read32 register off) s Q.
Proof. intros Hs Ho HQ. apply wp_read32; [done|by apply within_registers|]. intros d v Hd Hv. apply HQ; [by exists d|done]. Qed.
Lemma m_read32_value register off s (Q : St -> result Z E -> Prop) :
  ready s -> within off 4 ->
  (forall s' v, moved s s' -> fits 32 v -> machine_ok (machine s) ->
     v = (mmio_read (machine s) (mm_virtual_address bar + off) 4).2 -> Q s' (Ok v)) ->
  wp (read32 register off) s Q.
Proof.
  intros Hs Ho HQ. pose proof (within_registers register off 4 ltac:(lia) Ho) as Hr.
  destruct (mmio_read_law (machine s) (base register + off) 4 Hs ltac:(lia) Hr) as (H3 & H4 & H5).
  unfold wp, read32. rewrite bar_base in *. destruct (mmio_read (machine s) _ 4) as [d v] eqn:Er.
  eexists _, _. split; [reflexivity|]. apply HQ; [by exists d|done|done|done].
Qed.
Lemma m_read16 register off s (Q : St -> result Z E -> Prop) :
  ready s -> within off 2 -> (forall s' v, moved s s' -> fits 16 v -> Q s' (Ok v)) -> wp (read16 register off) s Q.
Proof. intros Hs Ho HQ. apply wp_read16; [done|by apply within_registers|]. intros d v Hd Hv. apply HQ; [by exists d|done]. Qed.
Lemma m_write32 register off v s (Q : St -> result unit E -> Prop) :
  ready s -> within off 4 -> (forall s', moved s s' -> Q s' (Ok tt)) -> wp (write32 register off v) s Q.
Proof. intros Hs Ho HQ. apply wp_write32; [done|by apply within_registers|]. intros d Hd. apply HQ. by exists d. Qed.
End Regs.

(** The steps taken so far end in the current state. *)
Ltac moves :=
  lazymatch goal with
  | |- ready ?s => first [assumption | match goal with M : moved _ s |- _ => exact (moved_ready _ _ M) end]
  | |- moved ?a ?a => apply moved_refl; moves
  | |- moved ?a ?b =>
      match goal with
      | M : moved a b |- _ => exact M
      | M : moved ?x b |- _ => refine (moved_trans _ _ _ _ M); moves
      end
  end.

Lemma xecap_next_spec h : xecap_next h = 4 * (h / 2 ^ 8 mod 2 ^ 16).
Proof.
  unfold xecap_next, XECAP_NEXT_MASK, XECAP_NEXT_SHIFT.
  rewrite Z.shiftr_land, Z.shiftr_shiftl_l by lia. change (Z.shiftl 65535 (8 - 8)) with (Z.ones 16).
  rewrite Z.land_ones, Z.shiftr_div_pow2 by lia. lia.
Qed.
Lemma first_capability_spec h : fits 32 h -> Z.shiftr (Z.land h HCCPARAMS1_XECP_MASK) HCCPARAMS1_XECP_SHIFT * 4 = first_capability h.
Proof.
  intros Hh. unfold first_capability, HCCPARAMS1_XECP_MASK, HCCPARAMS1_XECP_SHIFT. change 0xffff0000 with (Z.shiftl 0xffff 16).
  rewrite Z.shiftr_land, Z.shiftr_shiftl_l by lia. change (Z.shiftl 65535 (16 - 16)) with (Z.ones 16).
  rewrite Z.land_ones, Z.shiftr_div_pow2 by lia. rewrite Z.mod_small; [lia|]. unfold fits in Hh.
  split; [apply Z.div_pos; lia|apply Z.div_lt_upper_bound; lia].
Qed.

Section Reset.
Context {D St E : Type} `{MachineLaws D} `{HasMachineLaws St D}.
Context {B : Bar} (caps : Z -> Prop) (Hspec : in_spec (mm_virtual_address bar) (mm_len bar) caps)
  (Hlen : 0x1000 <= mm_len bar < 2 ^ 64).
Implicit Types (s : St) (register : BarRegister).

Lemma within_capability off n : 0 <= off -> off + n <= 0x20 -> within off n.
Proof. unfold within. lia. Qed.
Lemma within_extended o k : caps o -> 0 <= k <= 8 -> within (o + k) 4.
Proof. intros Ho Hk. destruct (is_inside _ _ _ Hspec o Ho). unfold within. lia. Qed.
Lemma within_extended_start o : caps o -> within o 4.
Proof. intros Ho. rewrite <- (Z.add_0_r o). by apply within_extended. Qed.
(** The link of a capability, as the walks follow it. *)
Lemma next_capability d o :
  machine_ok d -> caps o -> let next := xecap_next (mmio_read d (mm_virtual_address bar + o) 4).2 in
  next = 0 \/ caps (saturating_add 64 o next).
Proof.
  intros Hd Ho. cbn zeta. rewrite xecap_next_spec. destruct (is_next _ _ _ Hspec d o Hd Ho) as [Hn|Hn]; [by left|right].
  destruct (is_inside _ _ _ Hspec _ Hn). unfold saturating_add. by rewrite Z.min_l by lia.
Qed.

Lemma m_wait_for p (ready_ : prog St E bool) s (Q : St -> result bool E -> Prop) :
  ready s ->
  (forall s1 (P : St -> result bool E -> Prop), ready s1 ->
    (forall s2 ok, moved s1 s2 -> P s2 (Ok ok)) -> wp ready_ s1 P) ->
  (forall s' ok, moved s s' -> Q s' (Ok ok)) -> wp (wait_for p ready_) s Q.
Proof.
  intros Hi Hb HQ. unfold wait_for. eapply (wp_for _ _ _ (fun _ s' => moved s s')); [by apply moved_refl| |].
  - intros n s1 _ M1. apply wp_bind, Hb; [moves|]. intros s2 ok M2.
    destruct ok; apply wp_ret; [apply HQ|]; moves.
  - intros s1 M1. apply wp_ret. by apply HQ.
Qed.

Lemma m_bit_clear register reg mask s (Q : St -> result bool E -> Prop) :
  ready s -> within reg 4 -> (forall s' ok, moved s s' -> Q s' (Ok ok)) -> wp (bit_clear register reg mask) s Q.
Proof. intros Hs Hr HQ. apply wp_bind, m_read32; [done|done|]. intros s1 v M1 _. apply wp_ret. by apply HQ. Qed.
Lemma m_bit_set register reg mask s (Q : St -> result bool E -> Prop) :
  ready s -> within reg 4 -> (forall s' ok, moved s s' -> Q s' (Ok ok)) -> wp (bit_set register reg mask) s Q.
Proof. intros Hs Hr HQ. apply wp_bind, m_read32; [done|done|]. intros s1 v M1 _. apply wp_ret. by apply HQ. Qed.
Lemma m_set_command register op f s (Q : St -> result unit E -> Prop) :
  ready s -> within (op + USBCMD) 4 -> (forall s', moved s s' -> Q s' (Ok tt)) -> wp (set_command register op f) s Q.
Proof.
  intros Hs Hr HQ. apply wp_bind, m_read32; [done|done|]. intros s1 v M1 _.
  apply m_write32; [moves|done|]. intros s2 M2. apply HQ. moves.
Qed.

Lemma m_ownership_loop register fuel off s (Q : St -> result bool E -> Prop) :
  ready s -> caps off -> (forall s' ok, moved s s' -> Q s' (Ok ok)) -> wp (ownership_loop fuel register off) s Q.
Proof.
  revert off s. induction fuel as [|fuel IH]; intros off s Hs Hoff HQ; cbn [ownership_loop]; [apply wp_ret, HQ; moves|].
  pose proof (within_extended_start off Hoff) as Hin.
  apply wp_bind, m_read32_value; [done|done|]. intros s1 h M1 _ Hok Hh. destruct (_ =? _).
  - apply wp_bind, m_read32; [moves|done|]. intros s2 v M2 _. destruct (negb _); [|apply wp_ret, HQ; moves].
    apply wp_bind, m_write32; [moves|done|]. intros s3 M3. apply m_wait_for; [moves| |intros; apply HQ; moves].
    intros s4 P Hs4 HP. by apply m_bit_clear.
  - pose proof (next_capability _ off Hok Hoff) as Hn. cbn zeta in Hn. rewrite <- Hh in Hn.
    destruct (Z.eqb_spec (xecap_next h) 0) as [Hz|Hz]; [apply wp_ret, HQ; moves|].
    destruct (_ =? _); [apply wp_ret, HQ; moves|]. destruct Hn as [Hn|Hn]; [done|].
    apply IH; [moves|done|]. intros s2 ok M2. apply HQ. moves.
Qed.

(** [require] cuts the sequence short or lets it go on. *)
Lemma m_require (m : prog St E bool) stage k s (Q : St -> result (result (Z * Z * Z * bool * Z) ResetError) E -> Prop) :
  (forall P : St -> result bool E -> Prop, (forall s' ok, moved s s' -> P s' (Ok ok)) -> wp m s P) ->
  (forall s' e, moved s s' -> Q s' (Ok (Err e))) -> (forall s', moved s s' -> wp k s' Q) -> wp (require m stage k) s Q.
Proof. intros Hm HQ Hk. apply wp_bind, Hm. intros s1 ok M1. destruct ok; [by apply Hk|by apply wp_ret, HQ]. Qed.

Lemma m_reset_controller register s (Q : St -> result (result (Z * Z * Z * bool * Z) ResetError) E -> Prop) :
  ready s ->
  (forall s' e, moved s s' -> Q s' (Ok (Err e))) ->
  (forall s' version ports hcs2 wide cap_len, moved s s' -> 0x20 <= cap_len -> cap_len + OP_LEN <= mm_len bar ->
     Q s' (Ok (Ok (version, ports, hcs2, wide, cap_len)))) ->
  wp (reset_controller register) s Q.
Proof.
  intros Hs HQ1 HQ2. unfold reset_controller.
  apply wp_bind, m_read32_value; [done|by apply within_capability|]. intros s1 cap M1 _ Hok Hcap.
  apply wp_bind, m_read16; [moves|by apply within_capability|]. intros s2 version M2 _.
  apply wp_bind, m_read32; [moves|by apply within_capability|]. intros s3 hcs1 M3 _.
  apply wp_bind, m_read32; [moves|by apply within_capability|]. intros s4 hcs2 M4 Hhcs2.
  apply wp_bind, m_read32_value; [moves|by apply within_capability|]. intros s5 hcc1 M5 Hfits Hok5 Hhcc1.
  destruct (Z.ltb_spec (Z.land cap 255) 32) as [Hc|Hc].
  { apply wp_bind, wp_ret, wp_ret, HQ1. moves. }
  assert (Z.land cap 255 + OP_LEN <= mm_len bar) as Hop.
  { rewrite (Z.land_ones _ 8), Hcap by lia. unfold CAPLENGTH. rewrite Z.add_0_r. by apply (is_op _ _ _ Hspec). }
  assert (forall reg, 0 <= reg <= 4 -> within (Z.land cap 255 + reg) 4) as Hreg.
  { intros reg Hreg. unfold within, OP_LEN in *. lia. }
  apply m_require; [intros P HP; apply m_ownership_loop; [moves| |done]|intros; apply HQ1; moves|].
  { pose proof (is_first _ _ _ Hspec _ Hok5) as Hfirst. unfold HCCPARAMS1 in Hhcc1. rewrite <- Hhcc1, <- first_capability_spec in Hfirst by done.
    unfold saturating_mul. destruct (is_inside _ _ _ Hspec _ Hfirst). by rewrite Z.min_l by lia. }
  intros s6 M6.
  apply wp_bind, m_set_command; [moves|by apply Hreg|]. intros s7 M7.
  apply m_require; [intros P HP; apply m_wait_for; [moves| |done]; intros; by apply m_bit_set; [|apply Hreg|]|intros; apply HQ1; moves|].
  intros s8 M8. apply wp_bind, m_set_command; [moves|by apply Hreg|]. intros s9 M9.
  apply m_require; [intros P HP; apply m_wait_for; [moves| |done]; intros; by apply m_bit_clear; [|apply Hreg|]|intros; apply HQ1; moves|].
  intros s10 M10.
  apply m_require; [intros P HP; apply m_wait_for; [moves| |done]; intros; by apply m_bit_clear; [|apply Hreg|]|intros; apply HQ1; moves|].
  intros s11 M11. apply wp_ret, HQ2; [moves|done|done].
Qed.
End Reset.

Section Bar0.
Context {D St E : Type} `{MachineLaws D} `{HasMachineLaws St D}.
Implicit Types (s : St) (config : ConfigSpace).

(** ** The BAR *)

(** A negative of a number below 2^32 is no power of two in 64 bits. *)
Lemma small_mask_length mask :
  0 <= mask < 2 ^ 32 -> let length := wrapping_add 64 (2 ^ 64 - 1 - mask) 1 in
  (length <? MIN_BAR_LEN) || negb (u64_power_of_two length) = true.
Proof.
  intros Hm. cbn zeta. unfold wrapping_add, wrap. replace (2 ^ 64 - 1 - mask + 1) with (2 ^ 64 - mask) by lia.
  destruct (decide (mask = 0)) as [->|Hne]; [reflexivity|]. rewrite Z.mod_small by lia. set (n := 2 ^ 64 - mask).
  apply orb_true_iff. right. apply negb_true_iff. unfold u64_power_of_two. apply andb_false_iff. right.
  apply Z.eqb_neq. intros Hz. apply (f_equal (fun z => Z.testbit z 63)) in Hz. rewrite Z.land_spec, Z.bits_0 in Hz.
  assert (forall z, 2 ^ 63 <= z < 2 ^ 64 -> Z.testbit z 63 = true) as Hbit.
  { intros z Hz'. rewrite Z.testbit_eqb by lia. apply Z.eqb_eq. replace (z / 2 ^ 63) with 1; [done|].
    apply (Z.div_unique z (2 ^ 63) 1 (z - 2 ^ 63)); lia. }
  rewrite !Hbit in Hz by (unfold n; lia). done.
Qed.

Lemma m_bar0 config s (Q : St -> result (option (Z * Z)) E -> Prop) :
  ready s -> (forall s' r, moved s s' ->
    (forall a l, r = Some (a, l) -> 0 < a < 2 ^ 64 /\ MIN_BAR_LEN <= l < 2 ^ 64 /\ u64_power_of_two l = true) -> Q s' (Ok r)) ->
  wp (bar0 config) s Q.
Proof.
  intros Hs HQ. unfold bar0.
  apply wp_bind, wp_read_u32; [done|lia|done|]. intros s1 low M1 Hlow.
  apply wp_bind, wp_read_u32; [moves|lia|done|]. intros s2 high M2 Hhigh.
  destruct (decode_memory_bar low high) as [bar|] eqn:Ebar; [|apply wp_ret, HQ; [moves|done]].
  destruct (match bar with Bits32 a => (a, false) | Bits64 a => (a, true) end) as [address wide] eqn:Ew.
  apply wp_bind, wp_write_u32; [moves|lia|done|]. intros s3 M3.
  apply wp_bind, wp_read_u32; [moves|lia|done|]. intros s4 ml M4 Hml.
  apply wp_bind, (wp_mono _ _ (fun s' r => moved s4 s' /\ exists v, r = Ok v /\ fits 32 v)).
  { destruct wide; [|apply wp_ret; split; [moves|by exists 0]].
    apply wp_bind, wp_write_u32; [moves|lia|done|]. intros s5 M5.
    apply wp_read_u32; [moves|lia|done|]. intros s6 v M6 Hv. split; [moves|by exists v]. }
  intros s5 ? (M5 & mh & -> & Hmh).
  apply wp_bind, wp_write_u32; [moves|lia|done|]. intros s6 M6.
  apply wp_bind, (wp_mono _ _ (fun s' r => moved s6 s' /\ r = Ok tt)).
  { apply wp_when; intros _; [|split; [moves|done]]. apply wp_write_u32; [moves|lia|done|]. intros s7 M7. done. }
  intros s7 ? (M7 & ->). set (length := wrapping_add 64 _ _).
  destruct (_ || _) eqn:Eg; apply wp_ret, HQ; try moves; [done|]. intros a l [= <- <-]. reflect_bools.
  assert (0 <= address < 2 ^ 64) as Ha.
  { unfold decode_memory_bar in Ebar. destruct (negb _); [done|].
    assert (fits 64 (Z.lor (Z.land low 4294967280) (Z.shiftl high 32))) as Hf.
    { unfold fits in *. apply fits_lor; [lia| |].
      - pose proof (fits_land_l 32 low 4294967280 ltac:(lia) ltac:(lia) Hlow) as Hx. unfold fits in *. lia.
      - rewrite Z.shiftl_mul_pow2 by lia. unfold fits. lia. }
    unfold fits in Hf. destruct (_ =? 0); [|destruct (_ =? 2); [|done]]; injection Ebar as <-; by injection Ew as <- <-. }
  split; [lia|]. assert (fits 64 length) as Hlen by (apply fits_wrap; lia). unfold fits in Hlen. split; [lia|done].
Qed.

(** The first register read by the sizing transaction. *)
Lemma m_read_u32_value config off s (Q : St -> result Z E -> Prop) :
  ready s -> 0 <= off /\ off + 4 <= 4096 -> Z.land off 3 = 0 ->
  (forall s' v, moved s s' -> v = (mmio_read (machine s) (config + off / 4 * 4) 4).2 -> Q s' (Ok v)) ->
  wp (read_u32 config off) s Q.
Proof.
  intros Hs Hl Ho HQ. apply wp_bind, wp_assert; [rewrite Ho, andb_true_r; apply Z.leb_le; lia|].
  pose proof (Z.mul_div_le off 4 ltac:(lia)). pose proof (Z.div_pos off 4 ltac:(lia) ltac:(lia)).
  pose proof (config_window config (off / 4 * 4) 4 ltac:(lia) ltac:(lia) ltac:(lia)) as Hreg.
  destruct (mmio_read_law (machine s) (config + off / 4 * 4) 4 Hs ltac:(lia) Hreg) as (Hok & Hlive & _).
  unfold wp, config_read. destruct (mmio_read _ _ _) as [d v] eqn:Er. eexists _, _. split; [reflexivity|].
  apply HQ; [by exists d|first [by rewrite Er|done]].
Qed.

(** A 32-bit BAR never sizes: the upper half of its mask stays zero. *)
Lemma m_bar0_32 config s (Q : St -> result (option (Z * Z)) E -> Prop) :
  ready s -> Z.land (Z.shiftr (mmio_read (machine s) (config + 16) 4).2 1) 3 = 0 ->
  (forall s', moved s s' -> Q s' (Ok None)) -> wp (bar0 config) s Q.
Proof.
  intros Hs Hlow HQ. unfold bar0.
  apply wp_bind, m_read_u32_value; [done|lia|done|]. intros s1 low M1 ->. change (16 / 4 * 4) with 16.
  apply wp_bind, wp_read_u32; [moves|lia|done|]. intros s2 high M2 Hhigh.
  unfold decode_memory_bar. rewrite Hlow. cbn [Z.eqb]. destruct (negb _); [apply wp_ret, HQ; moves|].
  apply wp_bind, wp_write_u32; [moves|lia|done|]. intros s3 M3.
  apply wp_bind, wp_read_u32; [moves|lia|done|]. intros s4 ml M4 Hml.
  apply wp_bind, wp_ret, wp_bind, wp_write_u32; [moves|lia|done|]. intros s6 M6.
  apply wp_bind, wp_ret. rewrite Z.shiftl_0_l, Z.lor_0_r.
  pose proof (fits_land_l 32 ml 4294967280 ltac:(lia) ltac:(lia) Hml) as Hmask. unfold fits in Hmask.
  pose proof (small_mask_length _ Hmask) as Hbad. cbn zeta in Hbad. rewrite <- orb_assoc, Hbad, orb_true_r.
  apply wp_ret, HQ. moves.
Qed.
End Bar0.

(** ** Buffers of an object under construction *)

Section Holds.
Context {D St E : Type} `{MachineLaws D} `{HasMachineLaws St D}.
Implicit Types (s : St) (b : DmaBuffer) (F L : list DmaBuffer).

(** From [s0] only the machine moved, and [F] are the live buffers. *)
Record holds F s0 s : Prop := {
  ho_set : exists d, s = set_machine d s0;
  ho_ready : ready s;
  ho_live : live (machine s) ≡ₚ F;
}.
Lemma holds_step F L s0 s d :
  holds F s0 s -> machine_ok d -> live d ≡ₚ L -> holds L s0 (set_machine d s).
Proof.
  intros [(d0 & ->) _ _] Hd Hl. split; [exists d; by rewrite set_machine_set|unfold ready|]; by rewrite machine_set.
Qed.
Lemma holds_moved F s0 s s' : holds F s0 s -> moved s s' -> holds F s0 s'.
Proof. intros Hh (d & -> & Hd & Hl). eapply holds_step; [done|done|]. rewrite Hl. apply Hh. Qed.
Lemma holds_start s : ready s -> holds (live (machine s)) s s.
Proof. intros Hs. split; [exists (machine s); by rewrite set_machine_machine|done|done]. Qed.
Lemma holds_perm F L s0 s : holds F s0 s -> F ≡ₚ L -> holds L s0 s.
Proof. intros [] HL. split; [done|done|]. by rewrite <- HL. Qed.
Lemma holds_in F s0 s b : holds F s0 s -> b ∈ F -> b ∈ live (machine s).
Proof. intros [_ _ Hl] Hb. by rewrite Hl. Qed.

Lemma h_dma_buffer len al (e : E) F s0 s (Q : St -> result DmaBuffer E -> Prop) :
  holds F s0 s -> 0 < len < 2 ^ 64 /\ al < 2 ^ 64 ->
  (forall s' b, holds (b :: F) s0 s' -> len <= dma_len b -> Q s' (Ok b)) ->
  (forall s', holds F s0 s' -> Q s' (Err e)) ->
  wp (dma_buffer len al e) s Q.
Proof.
  intros Hh [Hl Ha] HQ1 HQ2. apply wp_dma_buffer; [apply Hh|done|done| |].
  - intros d b Hd Hlive Hlen. apply HQ1; [|done]. eapply holds_step; [done|done|]. rewrite Hlive. constructor. apply Hh.
  - intros d [Hd Hlive]. apply HQ2. eapply holds_step; [done|done|]. rewrite Hlive. apply Hh.
Qed.
Lemma h_drop_buffers bs F L s0 s (Q : St -> result unit E -> Prop) :
  holds L s0 s -> L ≡ₚ bs ++ F -> (forall s', holds F s0 s' -> Q s' (Ok tt)) -> wp (drop_buffers bs) s Q.
Proof.
  intros Hh HL HQ. apply (wp_drop_buffers _ F); [apply Hh|by rewrite (ho_live _ _ _ Hh)|].
  intros d Hd Hlive. apply HQ. by eapply holds_step.
Qed.
Lemma h_or_drop {A} bs (m : prog St E A) F s0 s (Q : St -> result A E -> Prop) :
  (forall s' e, holds F s0 s' -> Q s' (Err e)) ->
  wp m s (fun s' r => match r with Ok a => Q s' (Ok a) | Err e => holds (bs ++ F) s0 s' end) ->
  wp (or_drop bs m) s Q.
Proof.
  intros HQ Hm. unfold or_drop. apply wp_bind, wp_try. eapply wp_mono; [exact Hm|].
  intros s1 [a|e]; [intros; by apply wp_ret|]. intros Hh. apply wp_bind. eapply h_drop_buffers; [done..|].
  intros s2 Hh2. apply wp_err. auto.
Qed.
Lemma h_store_bytes b a bs F s0 s (Q : St -> result unit E -> Prop) :
  holds F s0 s -> b ∈ F -> in_buffer b a (llen bs) -> (forall s', holds F s0 s' -> Q s' (Ok tt)) ->
  wp (store_bytes a bs) s Q.
Proof.
  intros Hh Hb Hin HQ. apply (wp_store_bytes b); [apply Hh|by eapply holds_in|done|].
  intros d Hd. apply HQ. eapply holds_moved; [done|]. by exists d.
Qed.
Lemma h_store64 b a v F s0 s (Q : St -> result unit E -> Prop) :
  holds F s0 s -> b ∈ F -> in_buffer b a 8 -> (forall s', holds F s0 s' -> Q s' (Ok tt)) -> wp (store64 a v) s Q.
Proof. intros. eapply h_store_bytes; [done|done| |done]. unfold llen. by rewrite length_to_le. Qed.
End Holds.

(** ** Construction *)

Section New.
Context {D St : Type} `{MachineLaws D} `{HasMachineLaws St D} {B : Bar}.
Implicit Types (s : St) (b : DmaBuffer) (c : ControllerResources) (F L : list DmaBuffer).

Lemma scratch_count_range hcs2 : 0 <= scratch_count hcs2 <= 1023.
Proof.
  unfold scratch_count. rewrite !(Z.land_ones _ 5), Z.shiftl_mul_pow2 by lia.
  pose proof (Z.mod_pos_bound (Z.shiftr hcs2 27) (2 ^ 5) ltac:(lia)).
  pose proof (Z.mod_pos_bound (Z.shiftr hcs2 21) (2 ^ 5) ltac:(lia)).
  rewrite lor_low by lia. lia.
Qed.

Lemma h_alloc_scratchpads a scope indices pads F s0 s (Q : St -> result (list DmaBuffer) InitError -> Prop) :
  holds (pads ++ scope ++ F) s0 s -> a ∈ scope -> Forall (fun i => 0 <= i /\ i * 8 + 8 <= dma_len a) indices ->
  (forall s' pads', holds (pads' ++ scope ++ F) s0 s' -> Q s' (Ok pads')) ->
  (forall s' e, holds F s0 s' -> Q s' (Err e)) ->
  wp (alloc_scratchpads (Some a) scope indices pads) s Q.
Proof.
  intros Hh Ha Hi HQ1 HQ2. revert pads s Hh. induction indices as [|i indices IH]; intros pads s Hh; cbn [alloc_scratchpads].
  { by apply wp_ret, HQ1. }
  apply Forall_cons in Hi as [[Hi0 Hi1] Hi]. apply wp_bind, (h_or_drop _ _ F s0); [done|].
  eapply h_dma_buffer; [done|lia| |intros; by rewrite <- app_assoc]. intros s1 page G1 _.
  apply wp_bind, (wp_lift _ a); [done|].
  apply wp_bind. eapply h_store64; [done| |apply (in_slots _ (dma_len a)); [lia|lia|done|lia]|].
  { apply elem_of_cons. right. apply elem_of_app. right. apply elem_of_app. by left. }
  intros s2 G2. apply IH; [done|]. eapply holds_perm; [exact G2|perms].
Qed.

(** A controller as [new] makes it. *)
Record fresh L c : Prop := {
  fr_ok : ctl_ok L c;
  fr_ports : ports c = [];
  fr_records : root_ports c = [];
  fr_count : event_count c = 0;
  fr_healthy : healthy c = true;
  fr_erst : erst c ∈ L;
}.

Lemma h_ctl_new hcs2 F s0 s (Q : St -> result ControllerResources InitError -> Prop) :
  window (mm_virtual_address bar) (mm_len bar) -> OP_LEN <= mm_len bar -> holds F s0 s ->
  (forall s' c, holds (own_ctl c ++ F) s0 s' -> fresh (own_ctl c ++ F) c -> Q s' (Ok c)) ->
  (forall s' e, holds F s0 s' -> Q s' (Err e)) ->
  wp (ctl_new bar hcs2) s Q.
Proof.
  intros Hwin Hlen Hh HQ1 HQ2. unfold ctl_new. pose proof (scratch_count_range hcs2) as Hcount. set (count := scratch_count hcs2) in *.
  apply wp_bind. eapply h_dma_buffer; [done|lia| |auto]. intros s1 dc G1 Hdc.
  apply wp_bind, (wp_mono _ _ (fun s' r => match r with
    | Ok arr => holds (option_list arr ++ [dc] ++ F) s0 s' /\ (count = 0 /\ arr = None \/ exists a, arr = Some a /\ count * 8 <= dma_len a)
    | Err e => holds F s0 s' end)).
  { destruct (Z.eqb_spec count 0) as [->|Hne]; [apply wp_ret; split; [done|by left]|].
    apply wp_bind, (h_or_drop _ _ F s0); [done|]. eapply h_dma_buffer; [done|lia| |done].
    intros s2 a G2 Ha. apply wp_ret. split; [done|]. right. by exists a. }
  intros s2 [arr|e]; [|by apply HQ2]. intros [G2 Harr].
  apply wp_bind, (wp_mono _ _ (fun s' r => match r with
    | Ok pads => holds (pads ++ (option_list arr ++ [dc]) ++ F) s0 s'
    | Err e => holds F s0 s' end)).
  { destruct Harr as [[-> ->]|(a & -> & Ha)]; [by apply wp_ret|].
    apply (h_alloc_scratchpads _ _ _ _ F s0); [done|left| |done|done].
    apply Forall_forall. intros i Hi%elem_of_seqZ. lia. }
  intros s3 [pads|e]; [|by apply HQ2]. intros G3. set (scope := pads ++ option_list arr ++ [dc]).
  assert (holds (scope ++ F) s0 s3) as G3' by (eapply holds_perm; [exact G3|unfold scope; perms]). clear G3.
  apply wp_bind, (h_or_drop _ _ F s0); [done|]. eapply h_dma_buffer; [done|lia| |done]. intros s4 cr G4 Hcr.
  apply wp_bind, (h_or_drop _ _ F s0); [done|]. eapply h_dma_buffer; [done|unfold EVENT_RING_ENTRIES; lia| |done]. intros s5 er G5 Her.
  apply wp_bind, (h_or_drop _ _ F s0); [done|]. eapply h_dma_buffer; [done|lia| |done]. intros s6 es G6 Hes.
  apply wp_bind. eapply (h_store_bytes cr); [done|member| |].
  { rewrite llen_trb_bytes. apply (in_slots _ 4096); [rewrite command_entries; lia|rewrite command_entries; lia|lia|lia]. }
  intros s7 G7. apply wp_bind. eapply (h_store_bytes es); [done|member|apply in_start; by unfold llen; rewrite !length_app, !length_to_le|].
  intros s8 G8. apply wp_bind, (wp_mono _ _ (fun s' r => r = Ok tt /\ holds (es :: er :: cr :: scope ++ F) s0 s')).
  { destruct arr as [a|]; [|by apply wp_ret]. eapply (h_store64 dc); [done| |apply in_start; lia|done].
    unfold scope. rewrite !elem_of_cons, !elem_of_app. do 3 right. left. right. right. left. }
  intros s9 ? [-> G9]. apply wp_ret. set (c := mk_Ctl _ _ _ _ _ _ _ _ _ _ _ _ _ _ _ _ _ _ _ _ _ _ _ _ _).
  assert (es :: er :: cr :: scope ++ F ≡ₚ own_ctl c ++ F) as Hperm.
  { unfold own_ctl, c, scope. cbn [dcbaa command_ring event_ring erst scratchpad_array scratchpads]. perms. }
  apply HQ1; [by eapply holds_perm|]. split; try done.
  - split; cbn [c event_consumer command_producer dcbaa command_ring event_ring root_ports]; try lia; try done;
      [.. | by split; cbn; unfold OP_LEN, RT_LEN, DB_LEN in *; try lia];
      (split; [apply elem_of_app; left; unfold own_ctl; cbn; member|unfold EVENT_RING_ENTRIES in *; lia]).
  - apply elem_of_app. left. unfold own_ctl. cbn. member.
Qed.
End New.
