(* ===== verification/XhcWorld.v ===== *)
(** * The xHCI controllers of the kernel

    The start of a controller with the enumeration of the occupied ports, and the
    functions the kernel calls, for all controllers together. *)

From S2P Require Import Prelude Words Dma Machine Trb UsbDesc PortRec Msc Bulk Input Hid UsbBlock XhcState XhcTransfer XhcPorts Pcie XhcQuiet XhcOwn XhcDevice XhcSound XhcPoll XhcInit XhcBoot.

Section Start.
Context {D I : Type} `{MachineLaws D} `{InputSinkLaws I} {B : Bar}.
Abbreviation St := (Xhc D I).
Implicit Types (s : St) (c : ControllerResources) (register : BarRegister) (F L : list DmaBuffer).

(** The fields of the object that the invariant does not constrain. *)
Lemma comes_fields F s c :
  sound F s -> (forall L, ctl_ok L (x_ctl s) -> ctl_ok L c) -> own_ctl c = own_ctl (x_ctl s) -> ports c = ports (x_ctl s) ->
  healthy c = healthy (x_ctl s) -> event_count c = event_count (x_ctl s) -> comes 0 0 F s (s <| x_ctl := c |>).
Proof.
  intros [(leak & [[Hm Hc] Ho] & Hl) Hids Hin Hd] Hok Hown Hp Hh Hn.
  split; cbn [x_ctl x_usb update]; [|rewrite Hn; lia|lia|by rewrite Hh|].
  - split; cbn [x_ctl x_usb x_input update]; rewrite ?Hp; try done. exists leak. rewrite Hh. split; [|done].
    split; [split; [done|by apply Hok]|]. cbn [x_ctl x_hw update]. by rewrite Hown.
  - intros E (gone & Hg & Hgh). exists gone. cbn [x_ctl x_usb update]. by rewrite Hp, Hh.
Qed.

Lemma q_set_command register off f s (Q : St -> result unit InitError -> Prop) :
  inv s -> within (off + USBCMD) 4 -> (forall s', touch s s' -> Q s' (Ok tt)) -> wp (set_command register off f) s Q.
Proof.
  intros Hi Ho HQ. apply wp_bind, q_read32; [done|done|]. intros s1 v T1 _.
  apply q_write32; [invs|done|]. intros s2 T2. apply HQ. touches.
Qed.

(** ** The root ports *)

Definition protocol_ok (p : SupportedProtocol) : Prop := 1 <= port_start p <= 255 /\ 1 <= port_count p <= 255.
Lemma supported_protocol_ok header ports p : supported_protocol header ports = Some p -> protocol_ok p.
Proof.
  unfold supported_protocol. destruct (negb _); [done|]. destruct (_ || _) eqn:E; [done|]. intros <-%Some_inj. reflect_bools.
  unfold protocol_ok. cbn [port_start port_count]. rewrite !(Z.land_ones _ 8) in * by lia.
  pose proof (Z.mod_pos_bound ports (2 ^ 8) ltac:(lia)). pose proof (Z.mod_pos_bound (Z.shiftr ports 8) (2 ^ 8) ltac:(lia)). lia.
Qed.
Lemma protocol_ports_range p : protocol_ok p -> Forall (fun port => 1 <= port <= 255) (protocol_ports p) /\ llen (protocol_ports p) <= 254.
Proof.
  intros [Hs Hc]. unfold protocol_ports, saturating_add. split.
  - apply Forall_forall. intros port Hp%elem_of_seqZ. lia.
  - unfold llen. rewrite length_seqZ. lia.
Qed.

(** The capability registers. *)
Section Capabilities.
Context (caps : Z -> Prop) (Hspec : in_spec (mm_virtual_address bar) (mm_len bar) caps) (Hlen : 0x1000 <= mm_len bar < 2 ^ 64).

Lemma q_supported_protocols_loop register fuel off found s (Q : St -> result (list SupportedProtocol) InitError -> Prop) :
  inv s -> caps off -> Forall protocol_ok found ->
  (forall s' l, touch s s' -> Forall protocol_ok l -> (length l <= length found + fuel)%nat -> Q s' (Ok l)) ->
  wp (supported_protocols_loop fuel register off found) s Q.
Proof.
  revert off found s Q. induction fuel as [|fuel IH]; intros off found s Q Hi Hoff Hf HQ; cbn [supported_protocols_loop].
  { apply wp_ret, HQ; [by apply touch_refl|done|lia]. }
  destruct (_ =? 0); [apply wp_ret, HQ; [by apply touch_refl|done|lia]|].
  apply wp_bind, q_read32_value; [done|by apply (within_extended_start caps)|]. intros s1 h T1 _ Hok Hh.
  apply wp_bind, (wp_mono _ _ (fun s2 r => touch s1 s2 /\ exists l, r = Ok l /\ Forall protocol_ok l /\ (length l <= S (length found))%nat)).
  { destruct (_ =? 2); [|apply wp_ret; split; [apply touch_refl; invs|exists found; split; [done|split; [done|lia]]]].
    apply wp_bind, q_read32; [invs|by apply (within_extended caps)|]. intros s2 v T2 _. apply wp_ret. split; [done|].
    exists (found ++ option_list (supported_protocol h v)). split; [done|]. rewrite length_app.
    destruct (supported_protocol h v) eqn:Ep; cbn; (split; [|lia]); apply Forall_app; split; try done.
    constructor; [by eapply supported_protocol_ok|done]. }
  pose proof (next_capability caps Hspec Hlen _ off Hok Hoff) as Hn. cbn zeta in Hn. rewrite <- Hh in Hn.
  intros s2 ? (T2 & l & -> & Hl & Hfound).
  destruct (Z.eqb_spec (xecap_next h) 0) as [Hz|Hz]; [apply wp_ret, HQ; [touches|done|lia]|].
  destruct (_ =? _); [apply wp_ret, HQ; [touches|done|lia]|]. destruct Hn as [Hn|Hn]; [done|].
  apply IH; [invs|done|done|]. intros s3 l3 T3 Hl3 Hlen3. apply HQ; [touches|done|lia].
Qed.

Lemma q_root_protocols register s (Q : St -> result (list SupportedProtocol) InitError -> Prop) :
  inv s -> (forall s' l, touch s s' -> Forall protocol_ok l -> llen l <= 256 -> Q s' (Ok l)) ->
  wp (root_protocols register) s Q.
Proof.
  intros Hi HQ. unfold root_protocols, supported_protocols. do 2 apply wp_bind.
  apply q_read32_value; [done|by apply within_capability|]. intros s1 v T1 Hv Hok Hval.
  apply q_supported_protocols_loop; [invs| |constructor|].
  { pose proof (is_first _ _ _ Hspec _ Hok) as Hfirst. unfold HCCPARAMS1 in Hval. by rewrite <- Hval, <- first_capability_spec in Hfirst. }
  intros s2 l T2 Hl Hfound.
  destruct l as [|p l]; [|apply wp_ret, HQ; [touches|done|unfold llen; cbn in *; lia]].
  apply wp_bind, q_read32; [invs|by apply within_capability|]. intros s3 h T3 _. apply wp_ret.
  pose proof (fits_wrap 8 (Z.shiftr h 24) ltac:(lia)) as Hp. unfold fits in Hp.
  destruct (Z.eqb_spec (wrap 8 (Z.shiftr h 24)) 0); cbn [negb]; apply HQ; try touches; try constructor; try done.
  split; cbn [port_start port_count]; lia.
Qed.
End Capabilities.

Lemma c_boot_port register port F s (Q : St -> result unit InitError -> Prop) :
  sound F s -> 1 <= port <= 255 -> next_id (x_usb s) < 2 ^ 64 -> room ENUMERATE_EVENTS s ->
  (forall s', comes ENUMERATE_EVENTS 1 F s s' -> Q s' (Ok tt)) ->
  wp (boot_port register port) s Q.
Proof.
  unfold ENUMERATE_EVENTS. intros Hs Hp Hid Hro HQ. pose proof (sound_inv _ _ Hs) as Hi.
  assert (forall s', quiet 0 s s' -> Q s' (Ok tt)) as HQ'.
  { intros s' Q'. apply HQ, goes_comes. eapply goes_le; [by apply goes_quiet| |]; lia. }
  unfold boot_port. apply wp_bind, q_self. destruct (has_device _ _); [by apply wp_ret, HQ', quiet_refl|].
  apply wp_bind, q_port_offset; [done|done|]. intros off Hoff. apply wp_bind, q_read32; [done|done|]. intros s1 v1 T1 _.
  apply wp_bind, q_modify_record; [invs|by split|]. intros s2 Q2.
  destruct (negb _); [apply q_modify_record; [invs|intros; by apply evolves_stage|]; intros s3 Q3; apply HQ'; quiets|].
  destruct (4 <=? _); [apply wp_ret, HQ'; quiets|].
  apply wp_bind, q_reset_port; [invs|done|]. intros s3 ok T3. destruct ok; [|apply wp_ret, HQ'; quiets].
  apply wp_bind, q_read32; [invs|done|]. intros s4 v4 T4 _. apply wp_bind, q_self.
  set (generation := match find_record _ _ with Some r => _ | None => 0 end).
  destruct (sound_reach _ _ Hs) as (leak & R & Hl). assert (quiet 0 s s4) as Q04 by quiets.
  pose proof (reach_quiet _ _ _ _ _ _ R Q04) as R4.
  apply wp_bind, wp_try. eapply r_address_port; [exact R4|eapply room_le; [done|unfold ADDRESS_EVENTS; lia]| |].
  - unfold ADDRESS_EVENTS. intros s5 d R5 Hd. pose proof Hd as ((_ & Hdl & _) & _).
    apply wp_bind, (q_load_bytes (rd_device_descriptor d)); [by eapply reach_inv|eapply reach_in; [exact R5|]|by apply in_start|lia|].
    { apply elem_of_app. left. unfold device_buffers. cbn [app]. member. }
    intros s6 bs T6 _ _. onward T6. eapply g_attach; [done|exact R0|done..|]. intros s7 C _. apply HQ.
    eapply comes_le; [exact C|lia|lia].
  - unfold ADDRESS_EVENTS. intros s5 e (leak' & R5 & Hl').
    apply q_modify_record; [by eapply reach_inv|intros; apply evolves_failed|]. intros s6 Q6. apply HQ, goes_comes.
    apply (goes_le (0 + 0 + 900600000 + 0) 0); [|lia|lia]. apply (sound_settles _ _ leak); [done| |done].
    exists leak'. rewrite (qu_healthy _ _ _ Q6). split; [|done]. exact (reach_quiet _ _ _ _ _ _ R5 Q6).
Qed.

(** A loop whose rounds each bring up at most [k] disks. *)
Lemma c_each {A} (P : A -> Prop) (body : A -> prog St InitError unit) n k (l : list A) F s (Q : St -> result unit InitError -> Prop) :
  0 <= n -> 0 <= k ->
  (forall x s1 (R : St -> result unit InitError -> Prop), P x -> sound F s1 -> room n s1 -> next_id (x_usb s1) + k <= 2 ^ 64 ->
     (forall s2, comes n k F s1 s2 -> R s2 (Ok tt)) -> wp (body x) s1 R) ->
  Forall P l -> sound F s -> room (n * llen l) s -> next_id (x_usb s) + k * llen l <= 2 ^ 64 ->
  (forall s', comes (n * llen l) (k * llen l) F s s' -> Q s' (Ok tt)) -> wp (p_each l body) s Q.
Proof.
  intros Hn Hk Hbody. revert s. induction l as [|x l IH]; intros s Hl Hs Hro Hid HQ; cbn [p_each].
  - apply wp_ret, HQ. eapply comes_le; [apply goes_comes; by apply goes_start|unfold llen; cbn; lia|unfold llen; cbn; lia].
  - apply Forall_cons in Hl as [Hx Hl]. unfold llen, room in *. cbn [length] in *. rewrite Nat2Z.inj_succ in *.
    apply wp_bind, Hbody; [done|done|nia|nia|]. intros s1 C1.
    pose proof (cm_count _ _ _ _ _ C1). pose proof (cm_ids _ _ _ _ _ C1).
    apply IH; [done|apply C1|nia|nia|]. intros s2 C2. apply HQ. eapply comes_le; [by eapply comes_trans|nia|nia].
Qed.

(** 256 protocols of at most 254 ports. *)
Definition BOOT_PORTS : Z := 256 * 254.
Definition START_EVENTS : Z := COMMAND_EVENTS + ENUMERATE_EVENTS * BOOT_PORTS.

Section Boot.
Context (caps : Z -> Prop) (Hspec : in_spec (mm_virtual_address bar) (mm_len bar) caps) (Hlen : 0x1000 <= mm_len bar < 2 ^ 64).

Lemma c_enumerate_root_ports register F s (Q : St -> result unit InitError -> Prop) :
  sound F s -> room (ENUMERATE_EVENTS * BOOT_PORTS) s -> next_id (x_usb s) + BOOT_PORTS <= 2 ^ 64 ->
  (forall s', comes (ENUMERATE_EVENTS * BOOT_PORTS) BOOT_PORTS F s s' -> Q s' (Ok tt)) ->
  wp (enumerate_root_ports register) s Q.
Proof.
  intros Hs Hro Hid HQ. unfold enumerate_root_ports.
  apply wp_bind, (q_root_protocols caps Hspec Hlen); [by eapply sound_inv|]. intros s1 found T1 Hf Hfound.
  set (l := filter (fun p => usb2 p = true) found).
  assert (Forall protocol_ok l) as Hl.
  { apply Forall_forall. intros p [_ Hp]%list_elem_of_filter. rewrite Forall_forall in Hf. by apply Hf. }
  assert (llen l <= 256) as Hll by (unfold llen in *; pose proof (length_filter (fun p => usb2 p = true) found) as Hx; fold l in Hx; lia).
  pose proof (goes_quiet _ _ _ _ Hs (touch_quiet _ _ T1)) as G1.
  apply wp_bind, q_modify_self. set (s2 := s1 <| x_ctl := _ |>).
  assert (comes 0 0 F s1 s2) as C2.
  { apply comes_fields; try done; [apply G1|]. intros L [? ? ? ? ? _ []]. split; try done. cbn [root_ports update].
    apply Forall_concat, Forall_map. eapply Forall_impl; [exact Hl|]. intros p Hp. apply Forall_fmap. by apply protocol_ports_range. }
  pose proof (comes_trans _ _ _ _ _ _ _ _ (goes_comes _ _ _ _ _ G1) C2) as C. clear C2.
  pose proof (cm_count _ _ _ _ _ C). pose proof (cm_ids _ _ _ _ _ C).
  unfold room, BOOT_PORTS, ENUMERATE_EVENTS in *. assert (0 <= llen l) by (unfold llen; lia).
  apply (c_each protocol_ok _ (900700000 * 254) 254 _ F); [lia|lia| |done|apply C|unfold room; nia|nia|].
  - intros p s3 R Hp Hs3 Hro3 Hid3 HR. destruct (protocol_ports_range p Hp) as [Hpos Hpl].
    assert (0 <= llen (protocol_ports p)) by (unfold llen; lia). unfold room in Hro3.
    apply (c_each (fun port => 1 <= port <= 255) _ ENUMERATE_EVENTS 1 _ F); unfold ENUMERATE_EVENTS; [lia|lia| |done|done|unfold room; nia|nia|].
    + intros port s4 R' Hport Hs4 Hro4 Hid4 HR'. apply (c_boot_port _ _ F); [done|done|lia|done|done].
    + intros s4 C4. apply HR. eapply comes_le; [exact C4|nia|lia].
  - intros s3 C3. apply HQ. eapply comes_le; [by eapply comes_trans|nia|nia].
Qed.

Lemma own_ctl_buffers c : ctl_buffers c ≡ₚ own_ctl c.
Proof. unfold ctl_buffers, own_ctl. perms. Qed.

Lemma clear_low x k : 0 <= k -> clear_bits x (Z.ones k) = x / 2 ^ k * 2 ^ k.
Proof. intros Hk. unfold clear_bits. by rewrite Z.ldiff_ones_r, Z.shiftl_mul_pow2, Z.shiftr_div_pow2. Qed.
(** A register at a small offset from a register set inside the BAR. *)
Lemma within_set o size k n : 0 <= o -> o + size <= mm_len bar -> 0 <= k -> k + n <= size -> within (o + k) n.
Proof. unfold within. lia. Qed.

(** The registers of a halted controller. *)
Lemma q_program_registers register rt cap_len max_slots s (Q : St -> result unit InitError -> Prop) :
  inv s -> 0 <= cap_len -> cap_len + OP_LEN <= mm_len bar -> 0 <= rt -> rt + RT_LEN <= mm_len bar ->
  (forall s', touch s s' -> Q s' (Ok tt)) -> wp (program_registers register rt cap_len max_slots) s Q.
Proof.
  intros Hi Hc Hcl Hr Hrl HQ. unfold program_registers. apply wp_bind, q_self.
  do 2 (apply wp_bind, q_write64; [invs|by apply (within_set _ OP_LEN)|]; intros ? ?).
  apply wp_bind, q_write32; [invs|by apply (within_set _ OP_LEN)|]; intros ? ?.
  apply wp_bind, q_write32; [invs|rewrite <- Z.add_assoc; by apply (within_set _ RT_LEN)|]; intros ? ?.
  do 2 (apply wp_bind, q_write64; [invs|rewrite <- Z.add_assoc; by apply (within_set _ RT_LEN)|]; intros ? ?).
  apply wp_bind, q_write32; [invs|rewrite <- Z.add_assoc; by apply (within_set _ RT_LEN)|]; intros ? ?.
  apply q_set_command; [invs|by apply (within_set _ OP_LEN)|]. intros s3 T3. apply HQ. touches.
Qed.

(** A failed start has attached nothing: the buffers are the object's own. *)
Lemma c_start register cap_len max_slots wide F s (Q : St -> result unit InitError -> Prop) :
  0 <= cap_len /\ cap_len + OP_LEN <= mm_len bar ->
  sound F s -> healthy (x_ctl s) = true -> ports (x_ctl s) = [] -> room START_EVENTS s ->
  next_id (x_usb s) + BOOT_PORTS <= 2 ^ 64 ->
  (forall s', comes START_EVENTS BOOT_PORTS F s s' -> Q s' (Ok tt)) ->
  (forall s' e, owns F s' -> x_usb s' = x_usb s -> x_input s' = x_input s -> Q s' (Err e)) ->
  wp (start register cap_len max_slots wide) s Q.
Proof.
  unfold START_EVENTS. intros [Hcap0 Hcap] Hs Hh Hp Hro Hid HQ1 HQ2. pose proof (sound_inv _ _ Hs) as Hi.
  assert (0 <= COMMAND_EVENTS /\ 0 <= ENUMERATE_EVENTS * BOOT_PORTS) as [Hce Hee] by done.
  assert (owns F s) as Ho.
  { destruct Hs as [(leak & Ho & Hl) _ _ _]. by rewrite Hp, (Hl Hh) in Ho. }
  unfold start. apply wp_bind, q_read32_value; [done|by apply within_capability|]. intros s1 v1 T1 Hv1 Hok1 Hrt.
  apply wp_bind, q_read32_value; [invs|by apply within_capability|]. intros s2 v2 T2 Hv2 Hok2 Hdb.
  pose proof (is_runtime _ _ _ Hspec _ Hok1) as Hrtl. pose proof (is_doorbell _ _ _ Hspec _ Hok2) as Hdbl.
  unfold RTSOFF, DBOFF in *. rewrite <- Hrt in Hrtl. rewrite <- Hdb in Hdbl. clear Hrt Hdb Hok1 Hok2.
  rewrite (clear_low v1 5 ltac:(lia) : clear_bits v1 0x1f = v1 / 32 * 32), (clear_low v2 2 ltac:(lia) : clear_bits v2 3 = v2 / 4 * 4).
  assert (0 <= v1 / 32 * 32) as Hrt0 by (unfold fits in Hv1; apply Z.mul_nonneg_nonneg; [apply Z.div_pos; lia|lia]).
  assert (0 <= v2 / 4 * 4) as Hdb0 by (unfold fits in Hv2; apply Z.mul_nonneg_nonneg; [apply Z.div_pos; lia|lia]).
  apply wp_bind, q_program_registers; [invs|lia..|].
  intros s3 T3. apply wp_bind, q_wait_for; [invs| |].
  { intros s4 P Hi4 HP. apply wp_bind, q_read32; [done|by apply (within_set _ OP_LEN)|]. intros s5 v5 T5 _. by apply wp_ret, HP. }
  intros s4 running T4. assert (touch s s4) as T by touches. clear T1 T2 T3 T4.
  pose proof (owns_touch _ _ _ T Ho) as Ho4. pose proof (goes_quiet _ _ _ _ Hs (touch_quiet _ _ T)) as G4.
  destruct running; [|apply wp_err, HQ2; [done|apply T|apply T]].
  apply wp_bind, q_modify_self. set (s5 := s4 <| x_ctl := _ |>).
  assert (comes 0 0 F s4 s5) as C5.
  { apply comes_fields; try done; [apply G4|]. intros L [? ? ? ? ? ? []]. by split. }
  pose proof (comes_trans _ _ _ _ _ _ _ _ (goes_comes _ _ _ _ _ G4) C5) as C. clear C5.
  assert (owns F s5) as Ho5.
  { destruct Ho4 as [[Hm [? ? ? ? ? ? []]] Hl]. split; [|done]. split; [done|]. by split. }
  pose proof (cm_count _ _ _ _ _ C). pose proof (cm_ids _ _ _ _ _ C). unfold room in Hro.
  apply wp_bind, q_submit_command; [apply Ho5|unfold room; lia|]. intros s6 r Q6 _.
  destruct r as [slot|e]; [|apply HQ2; [by eapply owns_quiet|rewrite (qu_usb _ _ _ Q6); apply T|rewrite (qu_input _ _ _ Q6); apply T]].
  pose proof (comes_trans _ _ _ _ _ _ _ _ C (goes_comes _ _ _ _ _ (goes_quiet _ _ _ _ (cm_sound _ _ _ _ _ C) Q6))) as C6.
  pose proof (cm_count _ _ _ _ _ C6). pose proof (cm_ids _ _ _ _ _ C6).
  apply (c_enumerate_root_ports register F); [apply C6|unfold room; lia|lia|]. intros s7 C7. apply HQ1.
  eapply comes_le; [by eapply comes_trans|lia|lia].
Qed.
End Boot.
End Start.
