(* ===== verification/XhcKernel.v ===== *)
(** * The xHCI controllers together

    The invariant of the kernel's view - machine, registry, input sink, the
    controllers in their slots and those for which there was none - and the
    entry points of the kernel, which keep it whatever the hardware does. *)

From S2P Require Import Prelude Words Bitmap PageAlloc Dma Machine Trb UsbDesc PortRec Msc Bulk Input Hid UsbBlock XhcState XhcTransfer XhcPorts Pcie XhcQuiet XhcOwn XhcDevice XhcSound XhcPoll XhcInit XhcBoot XhcWorld.

(** What a controller and its devices own. *)
Definition owned (c : ControllerResources) : list DmaBuffer := own_ctl c ++ bufs (ports c).
Definition owned_all (l : list ControllerResources) : list DmaBuffer := concat (map owned l).
Definition disks_all (l : list ControllerResources) : list (Z * Z) := concat (map (fun c => disks (ports c)) l).
Definition all_healthy (l : list ControllerResources) : Prop := Forall (fun c => healthy c = true) l.

Lemma owned_all_app l1 l2 : owned_all (l1 ++ l2) = owned_all l1 ++ owned_all l2.
Proof. unfold owned_all. by rewrite map_app, concat_app. Qed.
Lemma disks_all_app l1 l2 : disks_all (l1 ++ l2) = disks_all l1 ++ disks_all l2.
Proof. unfold disks_all. by rewrite map_app, concat_app. Qed.
Lemma owned_all_cons c l : owned_all (c :: l) = owned c ++ owned_all l.
Proof. done. Qed.
Lemma disks_all_cons c l : disks_all (c :: l) = disks (ports c) ++ disks_all l.
Proof. done. Qed.

Section Kernel.
Context {D I M : Type} `{MachineLaws D} `{InputSinkLaws I}.
Abbreviation W := (World D I M).
Implicit Types (w : W) (c : ControllerResources) (R : list DmaBuffer).

Definition controllers w : list ControllerResources := w_slots w ++ w_unregistered w.
(** A controller's own part of the invariant. *)
Definition ctl_sound c : Prop := ctl_ok (B := mapping c) (own_ctl c) c /\ Forall device_ok (ports c).

(** [R] are the live buffers of the rest of the kernel. *)
Record wsound R w : Prop := {
  ws_machine : machine_ok (w_hw w);
  ws_live : exists leak, live (w_hw w) ≡ₚ owned_all (controllers w) ++ leak ++ R /\ (all_healthy (controllers w) -> leak = []);
  ws_ids : NoDup (usb_ids (w_usb w));
  ws_input : sink_ok (w_input w);
  ws_controllers : Forall ctl_sound (controllers w);
  ws_disks : all_healthy (controllers w) -> disks_all (controllers w) ≡ₚ online_devices (w_usb w);
}.

Lemma ctl_ok_own {B : Bar} L L' c : ctl_ok L c -> (forall b, b ∈ own_ctl c -> b ∈ L') -> ctl_ok L' c.
Proof.
  intros [] Hin. unfold own_ctl in Hin.
  split; try done; (split; [apply Hin|tauto]); rewrite !elem_of_app, !elem_of_cons; auto.
Qed.

(** The state in which the method of a controller runs, and the world after it. *)
Definition inside c w : Xhc D I := mk_Xhc (w_hw w) (w_usb w) (w_input w) c.
Definition outside (s : Xhc D I) (l1 l2 l3 : list ControllerResources) w : W :=
  mk_World (x_hw s) (w_map w) (x_usb s) (x_input s) (l1 ++ x_ctl s :: l2) l3.

(** A controller among the others. *)
Lemma inside_sound R w l1 c l2 :
  wsound R w -> controllers w = l1 ++ c :: l2 ->
  exists leak, sound (B := mapping c) (owned_all (l1 ++ l2) ++ leak ++ R) (inside c w) /\ (all_healthy (controllers w) -> leak = []).
Proof.
  intros [Hm (leak & Hl & Hlh) Hids Hin Hc Hd] Hw. exists leak. split; [|done]. rewrite Hw in *.
  apply Forall_app in Hc as [_ Hc]. apply Forall_cons in Hc as [[Hok Hdev] _].
  assert (live (w_hw w) ≡ₚ own_ctl c ++ bufs (ports c) ++ owned_all (l1 ++ l2) ++ leak ++ R) as Hl'.
  { rewrite Hl, !owned_all_app, owned_all_cons. unfold owned. perms. }
  split; try done. exists []. split; [|done]. split; [|by rewrite app_nil_l]. split; [done|].
  eapply ctl_ok_own; [exact Hok|]. intros b Hb. cbn [x_hw inside x_ctl]. rewrite Hl'. apply elem_of_app. by left.
Qed.
(** The order of the controllers does not matter. *)
Lemma concat_map_perm {A B} (f : A -> list B) l l' : l ≡ₚ l' -> concat (map f l) ≡ₚ concat (map f l').
Proof. intros Hl. rewrite <- !flat_map_concat_map. by apply Permutation_flat_map. Qed.

Lemma outside_sound n k R leak w w' s l1 c l2 :
  wsound R w -> controllers w = l1 ++ c :: l2 -> (all_healthy (controllers w) -> leak = []) ->
  comes (B := mapping c) n k (owned_all (l1 ++ l2) ++ leak ++ R) (inside c w) s ->
  controllers w' ≡ₚ l1 ++ x_ctl s :: l2 -> w_hw w' = x_hw s -> w_usb w' = x_usb s -> w_input w' = x_input s ->
  wsound R w'.
Proof.
  intros [Hm _ _ _ Hc Hd] Hw Hleak [[(leak' & [[Hm' Hok] Hl] & Hlh) Hids Hin Hdev] _ _ Hh Hdisks] Hw' Hhw Husb Hinp.
  rewrite Hw in *.
  assert (all_healthy (controllers w') -> healthy (x_ctl s) = true /\ all_healthy (l1 ++ c :: l2)) as Hall.
  { unfold all_healthy. rewrite Hw', !Forall_app, !Forall_cons. cbn [inside x_ctl] in Hh. intuition. }
  split; rewrite ?Hhw, ?Husb, ?Hinp; try done.
  - exists (leak' ++ leak). split.
    + rewrite Hl. unfold owned_all. rewrite (concat_map_perm owned _ _ Hw'). fold (owned_all (l1 ++ x_ctl s :: l2)).
      fold (owned_all (l1 ++ l2)). rewrite !owned_all_app, owned_all_cons. unfold owned. perms.
    + intros Ha. destruct (Hall Ha). by rewrite Hlh, Hleak.
  - rewrite Hw', Forall_app, Forall_cons. rewrite Forall_app, Forall_cons in Hc. destruct Hc as (Hc1 & _ & Hc2).
    split; [done|]. split; [|done]. split; [|done]. rewrite (ro_bar _ (co_regs _ _ Hok) : mapping (x_ctl s) = mapping c). by eapply ctl_ok_own.
  - intros Ha. destruct (Hall Ha) as [Hs Hb]. specialize (Hd Hb). destruct (Hdisks (disks_all (l1 ++ l2))) as (gone & Hg & Hgh).
    + exists []. split; [|done]. cbn [inside x_ctl x_usb]. rewrite app_nil_l, <- Hd.
      rewrite !disks_all_app, disks_all_cons. perms.
    + rewrite (Hgh Hs), app_nil_l in Hg. rewrite <- Hg. unfold disks_all at 1.
      rewrite (concat_map_perm (fun c => disks (ports c)) _ _ Hw'). fold (disks_all (l1 ++ x_ctl s :: l2)).
      rewrite !disks_all_app, disks_all_cons. perms.
Qed.

(** ** A method on a slot *)

(** The controllers have counted at most [N] events each. *)
Definition counts (N : Z) w : Prop := Forall (fun c => event_count c <= N) (w_slots w).
Lemma counts_le N N' w : counts N w -> N <= N' -> counts N' w.
Proof. intros Hn Hle. eapply Forall_impl; [exact Hn|]. cbn. lia. Qed.

(** From [w0]: at most [n] events for a controller and [k] disks registered. *)
Record along (n k : Z) R w0 w : Prop := {
  al_sound : wsound R w;
  al_ids : next_id (w_usb w) <= next_id (w_usb w0) + k;
  al_slots : length (w_slots w) = length (w_slots w0);
  al_unregistered : w_unregistered w = w_unregistered w0;
  al_counts : forall N, counts N w0 -> counts (N + n) w;
}.
Lemma along_start R w : wsound R w -> along 0 0 R w w.
Proof. intros. split; try done; [lia|]. intros N Hn. eapply counts_le; [done|lia]. Qed.
Lemma along_trans n1 n2 k1 k2 R w0 w1 w2 : along n1 k1 R w0 w1 -> along n2 k2 R w1 w2 -> along (n1 + n2) (k1 + k2) R w0 w2.
Proof. intros [] []. split; [done|lia|congruence|congruence|]. intros N Hn. eapply counts_le; [eauto|lia]. Qed.
Lemma along_le n1 n2 k1 k2 R w0 w : along n1 k1 R w0 w -> n1 <= n2 -> k1 <= k2 -> along n2 k2 R w0 w.
Proof. intros [] ? ?. split; try done; [lia|]. intros N Hn. eapply counts_le; [eauto|lia]. Qed.

Lemma k_on_slot {A} n k i (m : prog (Xhc D I) InitError A) (good : result A InitError -> Prop) R w c
    (Q : W -> result A InitError -> Prop) :
  wsound R w -> w_slots w !! i = Some c ->
  (forall F (P : Xhc D I -> result A InitError -> Prop), sound (B := mapping c) F (inside c w) ->
     (forall s r, comes (B := mapping c) n k F (inside c w) s -> good r -> P s r) -> wp m (inside c w) P) ->
  0 <= n ->
  (forall w' c' r, along n k R w w' -> w_slots w' = <[i := c']> (w_slots w) -> mapping c' = mapping c -> good r -> Q w' r) ->
  wp (on_slot i m) w Q.
Proof.
  intros Hw Hi Hm Hn HQ. pose proof (lookup_lt_Some _ _ _ Hi) as Hlt.
  set (l1 := take i (w_slots w)). set (l2 := drop (S i) (w_slots w)).
  assert (w_slots w = l1 ++ c :: l2) as Hs by (symmetry; by apply take_drop_middle).
  assert (controllers w = l1 ++ c :: (l2 ++ w_unregistered w)) as Hcs.
  { unfold controllers. rewrite Hs, <- app_assoc. done. }
  destruct (inside_sound R w l1 c (l2 ++ w_unregistered w) Hw Hcs) as (leak & Hin & Hleak).
  set (F := owned_all _ ++ leak ++ R) in Hin.
  destruct (Hm F (fun s r => comes (B := mapping c) n k F (inside c w) s /\ good r) Hin) as (s & r & Hrun & C & Hr); [done|].
  assert (<[i := x_ctl s]> (w_slots w) = l1 ++ x_ctl s :: l2) as Hins by (by apply insert_take_drop).
  exists (outside s l1 l2 (w_unregistered w) w), r. split.
  - unfold on_slot, run_method. rewrite Hi. cbn [unwrap mbind outcome_bind]. fold (inside c w). rewrite Hrun.
    cbn [mbind outcome_bind]. unfold outside. rewrite <- Hins. reflexivity.
  - apply (HQ _ (x_ctl s)); [|done|exact (ro_bar _ (co_regs _ _ (proj2 (sound_inv _ _ (cm_sound _ _ _ _ _ C)))))|done].
    split; [|apply C|cbn [outside w_slots]; rewrite Hs, !length_app; done|done|].
    + eapply outside_sound; [exact Hw|exact Hcs|exact Hleak|exact C| |done..].
      unfold controllers. cbn [outside w_slots w_unregistered]. by rewrite <- app_assoc.
    + intros N HN. unfold counts in *. cbn [outside w_slots]. rewrite Hs, Forall_app, Forall_cons in HN. destruct HN as (N1 & N2 & N3).
      pose proof (cm_count _ _ _ _ _ C) as Hc. cbn [inside x_ctl] in Hc.
      rewrite Forall_app, Forall_cons. split; [|split; [lia|]]; eapply Forall_impl; try done; cbn; lia.
Qed.

(** A method on every slot. *)
Lemma k_each_slot {A} n k (m : prog (Xhc D I) InitError A) (body : nat -> prog W InitError unit) l R w
    (Q : W -> result unit InitError -> Prop) :
  0 <= n -> 0 <= k -> NoDup l -> wsound R w ->
  (forall i w1 (P : W -> result unit InitError -> Prop),
     wp (on_slot i m) w1 (fun w2 r => match r with Ok _ => P w2 (Ok tt) | Err e => P w2 (Err e) end) -> wp (body i) w1 P) ->
  (forall c w1 F (P : Xhc D I -> result A InitError -> Prop), sound (B := mapping c) F (inside c w1) -> event_count c + n < 2 ^ 64 ->
     next_id (w_usb w1) + k <= 2 ^ 64 ->
     (forall s r, comes (B := mapping c) n k F (inside c w1) s -> (exists a, r = Ok a) -> P s r) -> wp m (inside c w1) P) ->
  (forall i, i ∈ l -> exists c, w_slots w !! i = Some c /\ event_count c + n < 2 ^ 64) ->
  next_id (w_usb w) + k * llen l <= 2 ^ 64 ->
  (forall w', along (n * llen l) (k * llen l) R w w' -> Q w' (Ok tt)) ->
  wp (p_each l body) w Q.
Proof.
  intros Hn0 Hk Hnd Hw Hbody Hm. revert w Hw. induction l as [|i l IH]; intros w Hw Hl Hid HQ; cbn [p_each].
  { apply wp_ret, HQ. eapply along_le; [by apply along_start|unfold llen; cbn; lia..]. }
  apply NoDup_cons in Hnd as [Hil Hnd]. destruct (Hl i ltac:(left)) as (c & Hi & Hn).
  unfold llen in *. cbn [length] in *. rewrite Nat2Z.inj_succ in *.
  apply wp_bind, Hbody, (k_on_slot n k i m (fun r => exists a, r = Ok a) R w c); [done|done| |done|].
  - intros F P HF HP. apply (Hm c w F P); [done|done|nia|done].
  - intros w1 c' r A1 Hs1 _ (a & ->). apply IH; [done|apply A1| | |].
    + intros j Hj. rewrite Hs1, list_lookup_insert_ne by (intros ->; contradiction). apply Hl. by right.
    + pose proof (al_ids _ _ _ _ _ A1). nia.
    + intros w2 A2. apply HQ. eapply along_le; [by eapply along_trans|nia..].
Qed.

Definition slots_room (n : Z) w : Prop := Forall (fun c => event_count c + n < 2 ^ 64) (w_slots w).
Lemma slots_room_seq n w : slots_room n w ->
  forall i, i ∈ seq 0 (length (w_slots w)) -> exists c, w_slots w !! i = Some c /\ event_count c + n < 2 ^ 64.
Proof.
  intros Hr i Hi%elem_of_seq. destruct (lookup_lt_is_Some_2 (w_slots w) i ltac:(lia)) as [c Hc]. exists c.
  split; [done|]. by eapply (Forall_lookup_1 _ _ _ _ Hr).
Qed.
Lemma llen_slots w : llen (seq 0 (length (w_slots w))) = llen (w_slots w).
Proof. unfold llen. by rewrite length_seq. Qed.

Lemma k_xhci_poll R w (Q : W -> result unit InitError -> Prop) :
  wsound R w -> slots_room (POLL_EVENTS POLL_EVENT_BUDGET) w -> next_id (w_usb w) + 2 * llen (w_slots w) <= 2 ^ 64 ->
  (forall w', along (POLL_EVENTS POLL_EVENT_BUDGET * llen (w_slots w)) (2 * llen (w_slots w)) R w w' -> Q w' (Ok tt)) -> wp xhci_poll w Q.
Proof.
  intros Hw Hro Hid HQ. unfold xhci_poll. apply wp_bind. eexists _, _. split; [reflexivity|].
  apply (k_each_slot (POLL_EVENTS POLL_EVENT_BUDGET) 2 (controller_poll POLL_EVENT_BUDGET) _ _ R); rewrite ?llen_slots.
  - done.
  - lia.
  - apply NoDup_seq.
  - done.
  - intros i w1 P HP. eapply wp_mono; [exact HP|]. by intros w2 [[]|e].
  - intros c w1 F P HF Hn Hi HP. apply (g_controller_poll (B := mapping c) _ F); [done|exact Hn|exact Hi|].
    intros s G. apply HP; [by apply goes_comes|by eexists].
  - by apply slots_room_seq.
  - done.
  - done.
Qed.

(** A block read on the slots from [i] on. *)
Lemma k_read_loop l id lba output R w (Q : W -> result (list Z * bool) InitError -> Prop) :
  NoDup l -> wsound R w ->
  (forall i, i ∈ l -> exists c, w_slots w !! i = Some c /\ event_count c + MSC_EVENTS < 2 ^ 64) ->
  (forall w' out ok, along (MSC_EVENTS * llen l) 0 R w w' -> llen out = llen output -> (ok = false -> out = output) -> Q w' (Ok (out, ok))) ->
  wp (read_usb_blocks_loop l id lba output) w Q.
Proof.
  intros Hnd. revert w. induction l as [|i l IH]; intros w Hw Hl HQ; cbn [read_usb_blocks_loop].
  { apply wp_ret, HQ; [eapply along_le; [by apply along_start|done|done]|done|done]. }
  apply NoDup_cons in Hnd as [Hil Hnd]. destruct (Hl i ltac:(left)) as (c & Hi & Hn).
  apply wp_bind, (k_on_slot MSC_EVENTS 0 i _
    (fun r => exists out ok, r = Ok (out, ok) /\ llen out = llen output /\ (ok = false -> out = output)) R w c); [done|done| |done|].
  - intros F P HF HP. apply (g_read_usb_blocks (B := mapping c) _ _ _ F); [done|exact Hn|]. intros s out ok G Ho Hok.
    apply HP; [by apply goes_comes|eauto].
  - assert (llen (i :: l) = llen l + 1 /\ 0 <= llen l) as [Hll Hln] by (unfold llen; cbn [length]; lia).
    intros w1 c' r A1 Hs1 _ (out & ok & -> & Ho & Hok).
    destruct ok; [apply wp_ret, HQ; [eapply along_le; [done|unfold MSC_EVENTS; lia|done]|done|done]|]. rewrite Hok in * by done.
    apply IH; [done|apply A1| |].
    + intros j Hj. rewrite Hs1, list_lookup_insert_ne by (intros ->; contradiction). apply Hl. by right.
    + intros w2 out2 ok2 A2 Ho2 Hok2. apply HQ; [|done|done]. eapply along_le; [by eapply along_trans|unfold MSC_EVENTS; lia|done].
Qed.

Lemma k_read_usb_blocks id lba output R w (Q : W -> result (list Z * bool) InitError -> Prop) :
  wsound R w -> slots_room MSC_EVENTS w ->
  (forall w' out ok, along (MSC_EVENTS * llen (w_slots w)) 0 R w w' -> llen out = llen output -> (ok = false -> out = output) -> Q w' (Ok (out, ok))) ->
  wp (xhci_read_usb_blocks id lba output) w Q.
Proof.
  intros Hw Hro HQ. apply wp_bind. eexists _, _. split; [reflexivity|].
  apply (k_read_loop _ _ _ _ R); [apply NoDup_seq|done|by apply slots_room_seq|by rewrite llen_slots].
Qed.

(** ** Interrupts *)

Lemma c_acknowledge_interrupt {B : Bar} F s (Q : Xhc D I -> result bool InitError -> Prop) :
  sound F s -> (forall s' ok, comes 0 0 F s s' -> Q s' (Ok ok)) -> wp acknowledge_interrupt s Q.
Proof.
  intros Hs HQ. pose proof (sound_inv _ _ Hs) as Hi. unfold acknowledge_interrupt. apply wp_bind, q_self.
  change (mk_RegisterBlock _) with (bar_block (own_register (x_ctl s) (co_regs _ _ (proj2 Hi)))).
  generalize (own_register (x_ctl s) (co_regs _ _ (proj2 Hi))). intros register.
  apply wp_bind, q_read32; [done|inregs|]. intros s1 v1 T1 _. apply wp_bind, q_read32; [invs|inregs|]. intros s2 v2 T2 _.
  destruct (_ && _); [apply wp_ret, HQ, goes_comes; apply goes_quiet; [done|quiets]|].
  assert (forall (b : bool) off v s3 (P : Xhc D I -> result unit InitError -> Prop), inv s3 -> within off 4 ->
    (forall s4, touch s3 s4 -> P s4 (Ok tt)) -> wp (p_when b (write32 register off v)) s3 P) as Hwhen.
  { intros. apply wp_when; intros _; [by apply q_write32|]. auto using touch_refl. }
  apply wp_bind, Hwhen; [invs|inregs|]. intros s3 T3. apply wp_bind, Hwhen; [invs|inregs|]. intros s4 T4.
  apply wp_bind, q_modify_self, wp_ret, HQ.
  assert (touch s s4) as T by touches. pose proof (goes_quiet _ _ _ _ Hs (touch_quiet _ _ T)) as G.
  apply (comes_le (0 + 0) (0 + 0)); [|lia|lia]. eapply comes_trans; [exact (goes_comes _ _ _ _ _ G)|].
  apply goes_comes, sound_counters; try done; apply G.
Qed.

Lemma k_interrupt_handler R w (Q : W -> result unit InitError -> Prop) :
  wsound R w -> slots_room 0 w -> next_id (w_usb w) <= 2 ^ 64 ->
  (forall w', along 0 0 R w w' -> Q w' (Ok tt)) -> wp xhci_interrupt_handler w Q.
Proof.
  intros Hw Hro Hid HQ. apply wp_bind. eexists _, _. split; [reflexivity|].
  apply (k_each_slot 0 0 acknowledge_interrupt _ _ R); [lia|lia|apply NoDup_seq|done| | |by apply slots_room_seq|lia|done].
  - intros i w1 P HP. apply wp_bind. eapply wp_mono; [exact HP|]. intros w2 [b|e]; [apply wp_ret|done].
  - intros c w1 F P HF _ _ HP. apply (c_acknowledge_interrupt (B := mapping c) F); [done|]. intros s ok C. apply HP; [done|by eexists].
Qed.

Lemma moved_touch {B : Bar} (s s' : Xhc D I) : inv s -> moved s s' -> touch s s'.
Proof. intros Hi (d & -> & Hd). by apply touch_machine. Qed.

Lemma c_enable_msi {B : Bar} lapic (config : ConfigSpace) F s (Q : Xhc D I -> result unit InitError -> Prop) :
  sound F s -> (forall s', comes 0 0 F s s' -> Q s' (Ok tt)) -> wp (enable_msi lapic config) s Q.
Proof.
  intros Hs HQ. pose proof (sound_inv _ _ Hs) as Hi. unfold enable_msi.
  assert (ready s) as Hr by apply Hi.
  apply wp_bind, wp_find_capability; [done|]. intros s1 cap M1 Hcap.
  assert (forall s' : Xhc D I, touch s s' -> comes 0 0 F s s') as Hquiet.
  { intros s' T. apply goes_comes, goes_quiet; [done|by apply touch_quiet]. }
  destruct cap as [cap|]; [|apply wp_ret, HQ, Hquiet; by apply moved_touch].
  destruct (Hcap cap eq_refl) as [[Hoff Hmod] _]. set (o := cap_offset cap) in *.
  rewrite (Z.land_ones _ 2) in Hmod by lia. change (2 ^ 2) with 4 in Hmod.
  assert (forall k, 0 <= k -> Z.land (o + 4 * k) 3 = 0) as H3.
  { intros k Hk. rewrite (Z.land_ones _ 2) by lia. change (2 ^ 2) with 4. pose proof (Z.div_mod o 4 ltac:(lia)).
    replace (o + 4 * k) with ((o / 4 + k) * 4) by lia. by rewrite Z.mod_mul. }
  assert (forall k, 0 <= k -> Z.land (o + 2 * k) 1 = 0) as H1'.
  { intros k Hk. rewrite (Z.land_ones _ 1) by lia. change (2 ^ 1) with 2. pose proof (Z.div_mod o 4 ltac:(lia)).
    replace (o + 2 * k) with ((o / 4 * 2 + k) * 2) by lia. by rewrite Z.mod_mul. }
  apply wp_bind, wp_read_u16; [moves|lia|apply (H1' 1); lia|]. intros s2 control M2 _.
  apply wp_bind, wp_write_u32; [moves|lia|apply (H3 1); lia|]. intros s3 M3.
  apply wp_bind, (wp_mono _ _ (fun s' r => r = Ok tt /\ moved s3 s')).
  { apply wp_when; intros _; [|split; [done|apply moved_refl; moves]].
    apply wp_write_u32; [moves|lia|apply (H3 2); lia|]. by intros. }
  intros s4 ? [-> M4]. apply wp_bind.
  assert (exists k, 0 <= k <= 6 /\ msi_data_offset o control = o + 2 * k) as (k & Hk & ->).
  { unfold msi_data_offset. destruct (negb _); [exists 6|exists 4]; lia. }
  apply wp_write_u16; [moves|lia|apply H1'; lia|]. intros s5 M5.
  apply wp_bind, wp_write_u16; [moves|lia|apply (H1' 1); lia|]. intros s6 M6.
  assert (touch s s6) as T6 by (apply moved_touch; [done|moves]).
  apply wp_bind, q_self. pose proof (touch_inv _ _ T6) as Hi6.
  change (mk_RegisterBlock _) with (bar_block (own_register (x_ctl s6) (co_regs _ _ (proj2 Hi6)))).
  apply wp_bind, q_set_command; [invs|inregs|]. intros s7 T7. assert (touch s s7) as T by touches.
  apply q_modify_self, HQ. apply (comes_le (0 + 0) (0 + 0)); [|lia|lia]. eapply comes_trans; [exact (Hquiet _ T)|].
  apply comes_fields; try done; [apply (Hquiet _ T)|]. intros L [? ? ? ? ? ? []]. by split.
Qed.

(** ** Discovery *)

Lemma wsound_moved R w w' : wsound R w -> moved w w' -> wsound R w'.
Proof. intros [Hm Hl ? ? ? ?] (d & -> & Hd & Hlive). split; try done. cbn [w_hw set_machine World_machine update]. by rewrite Hlive. Qed.
Lemma along_moved R w w' : wsound R w -> moved w w' -> along 0 0 R w w'.
Proof.
  intros Hw M1. split; [by eapply wsound_moved|..]; destruct M1 as (d & -> & _); [cbn; lia|done|done|].
  intros N HN. rewrite Z.add_0_r. exact HN.
Qed.

Lemma all_healthy_app l1 l2 : all_healthy (l1 ++ l2) <-> all_healthy l1 /\ all_healthy l2.
Proof. unfold all_healthy. apply Forall_app. Qed.

(** Nothing of the kernel's state changed, and no memory was taken or lost. *)
Record still w0 w : Prop := {
  sl_slots : w_slots w = w_slots w0;
  sl_unregistered : w_unregistered w = w_unregistered w0;
  sl_usb : w_usb w = w_usb w0;
  sl_input : w_input w = w_input w0;
  sl_live : live (w_hw w) ≡ₚ live (w_hw w0);
}.
Lemma still_trans w0 w1 w2 : still w0 w1 -> still w1 w2 -> still w0 w2.
Proof. intros [] []. split; [congruence..|by etrans]. Qed.
Lemma still_moved w w' : moved w w' -> still w w'.
Proof. intros (d & -> & _ & Hl). split; try done. cbn. by rewrite Hl. Qed.
Lemma still_hw w d : live d ≡ₚ live (w_hw w) -> still w (w <| w_hw := d |>).
Proof. by split. Qed.
Lemma still_sound R w0 w : wsound R w0 -> still w0 w -> machine_ok (w_hw w) -> wsound R w.
Proof.
  intros [Hm (leak & Hl & Hlh) ? ? ? ?] [Hs Hu Husb Hin Hlive] Hok.
  assert (controllers w = controllers w0) as Hc by (unfold controllers; congruence).
  split; rewrite ?Hc, ?Husb, ?Hin; try done. exists leak. by rewrite Hlive.
Qed.

(** The world while a controller is not yet in it. *)
Record carries {B : Bar} w0 c w : Prop := {
  ca_hw : exists d, w = set_machine d w0;
  ca_machine : machine_ok (w_hw w);
  ca_live : live (w_hw w) ≡ₚ own_ctl c ++ live (w_hw w0);
  ca_fresh : fresh (own_ctl c ++ live (w_hw w0)) c;
}.

Lemma carries_sound {B : Bar} R w0 c w :
  wsound R w0 -> carries w0 c w ->
  let w1 := w <| w_unregistered := w_unregistered w ++ [c] |> in
  wsound R w1 /\ w_usb w1 = w_usb w0 /\ w_slots w1 = w_slots w0 /\ w_unregistered w1 = w_unregistered w0 ++ [c].
Proof.
  intros [Hm (leak & Hl & Hlh) Hids Hin Hc Hd] [(d & ->) Hmd Hld [Hok Hp Hr Hn Hh He]]. cbn zeta.
  split; [|done]. unfold controllers in *.
  split; cbn [w_hw w_usb w_input w_slots w_unregistered update set_machine World_machine] in *; try done;
    unfold controllers; cbn [w_slots w_unregistered update]; rewrite app_assoc.
  - exists leak. split.
    + rewrite Hld, Hl, !owned_all_app, (owned_all_cons c []). unfold owned. rewrite Hp. cbn. perms.
    + rewrite all_healthy_app. intros [? _]. auto.
  - apply Forall_app. split; [done|]. constructor; [|constructor]. split; [|by rewrite Hp].
    rewrite (ro_bar _ (co_regs _ _ Hok) : mapping c = B). eapply ctl_ok_own; [exact Hok|done].
  - rewrite all_healthy_app, disks_all_app, (disks_all_cons c []), Hp. intros [Ha _]. cbn. rewrite app_nil_r. auto.
Qed.

Lemma k_ctl_new {B : Bar} hcs2 w (Q : W -> result ControllerResources InitError -> Prop) :
  window (mm_virtual_address bar) (mm_len bar) -> OP_LEN <= mm_len bar -> machine_ok (w_hw w) ->
  (forall w' c, carries w c w' -> Q w' (Ok c)) ->
  (forall w' e, still w w' -> machine_ok (w_hw w') -> Q w' (Err e)) ->
  wp (ctl_new bar hcs2) w Q.
Proof.
  intros Hwin Hlen Hw HQ1 HQ2. apply (h_ctl_new _ (live (machine w)) w w); [done|done|by apply holds_start| |].
  - intros w' c [Hs Hr Hl] Hf. apply HQ1. by split.
  - intros w' e [(d & ->) Hr Hl]. apply HQ2; [by apply still_hw|done].
Qed.

(** The start of the new controller, and its end if that fails. *)
Lemma k_start {B : Bar} caps (register : BarRegister) cap_len max_slots wide R w0 w c
    (Q : W -> result (ControllerResources * result unit InitError) InitError -> Prop) :
  in_spec (mm_virtual_address bar) (mm_len bar) caps -> 0x1000 <= mm_len bar < 2 ^ 64 ->
  0 <= cap_len /\ cap_len + OP_LEN <= mm_len bar ->
  wsound R w0 -> carries w0 c w -> next_id (w_usb w0) + BOOT_PORTS <= 2 ^ 64 ->
  (forall w' c', wsound R (w' <| w_unregistered := w_unregistered w' ++ [c'] |>) -> mapping c' = bar ->
     next_id (w_usb w') <= next_id (w_usb w0) + BOOT_PORTS -> event_count c' <= START_EVENTS -> w_slots w' = w_slots w0 -> w_unregistered w' = w_unregistered w0 ->
     Q w' (Ok (c', Ok tt))) ->
  (forall w' c' e, machine_ok (w_hw w') -> live (w_hw w') ≡ₚ ctl_buffers c' ++ live (w_hw w0) ->
     (exists d, w' = set_machine d w0) -> Q w' (Ok (c', Err e))) ->
  wp (with_controller c (start register cap_len max_slots wide)) w Q.
Proof.
  intros Hspec Hlen Hcap Hw Hca Hid HQ1 HQ2. destruct (carries_sound _ _ _ _ Hw Hca) as (Hw1 & Hu1 & Hs1 & Hn1). cbn zeta in *.
  set (w1 := w <| w_unregistered := _ |>) in *. pose proof Hca as [(d & Hd) Hmd Hld [Hok Hp Hr Hn Hh He]].
  assert (controllers w1 = (w_slots w ++ w_unregistered w) ++ c :: []) as Hcs.
  { unfold controllers, w1. cbn [w_slots w_unregistered update]. by rewrite app_assoc. }
  destruct (inside_sound R w1 _ c [] Hw1 Hcs) as (leak & Hin & Hleak). rewrite app_nil_r in Hin.
  pose proof (ro_bar _ (co_regs _ _ Hok)) as Hbar. rewrite Hbar in Hin. change (bar (Bar := B)) with B in Hin.
  set (F := owned_all _ ++ leak ++ R) in Hin. change (inside c w1) with (inside c w) in *.
  destruct (c_start caps Hspec Hlen register cap_len max_slots wide F (inside c w)
    (fun s r => match r with
       | Ok _ => comes START_EVENTS BOOT_PORTS F (inside c w) s
       | Err _ => owns F s /\ x_usb s = w_usb w /\ x_input s = w_input w end)) as (s & r & Hrun & Hsr).
  - done.
  - done.
  - exact Hh.
  - exact Hp.
  - unfold room. cbn [inside x_ctl]. rewrite Hn. reflexivity.
  - cbn [inside x_usb]. change (w_usb w) with (w_usb w1). by rewrite Hu1.
  - intros s C. exact C.
  - intros s e Ho Hu Hi. done.
  - set (w' := w <| w_hw := x_hw s |> <| w_usb := x_usb s |> <| w_input := x_input s |>).
    exists w', (Ok (x_ctl s, r)). split.
    { unfold with_controller, run_method. fold (inside c w). by rewrite Hrun. }
    destruct r as [[]|e].
    + assert (w_slots w = w_slots w0 /\ w_unregistered w = w_unregistered w0) as [Hws Hwu] by (by rewrite Hd).
      pose proof (cm_count _ _ _ _ _ Hsr) as Hcs'. pose proof (cm_ids _ _ _ _ _ Hsr) as His.
      cbn [inside x_ctl x_usb] in Hcs', His. change (w_usb w) with (w_usb w1) in His. rewrite Hu1 in His.
      apply HQ1; [|exact (ro_bar _ (co_regs _ _ (proj2 (sound_inv _ _ (cm_sound _ _ _ _ _ Hsr)))))|exact His|lia|done|done].
      eapply (outside_sound _ _ R leak w1 _ s (w_slots w ++ w_unregistered w) c []); [done|done|done| | |done..].
      * rewrite app_nil_r, Hbar. exact Hsr.
      * unfold controllers, w'. cbn [w_slots w_unregistered update]. by rewrite app_assoc.
    + destruct Hsr as ([[Hms _] Hls] & Hus & His). apply HQ2; [done| |].
      * change (w_hw w') with (x_hw s). rewrite Hls, own_ctl_buffers. apply Permutation_app_head.
        destruct Hin as [(leak' & [_ Hl0] & Hlh0) _ _ _]. cbn [inside x_hw x_ctl] in Hl0. rewrite Hp, (Hlh0 Hh) in Hl0.
        rewrite Hld in Hl0. symmetry. apply (Permutation_app_inv_l (own_ctl c)). etrans; [exact Hl0|]. cbn. perms.
      * exists (x_hw s). unfold w'. rewrite Hus, His. subst w. by destruct w0.
Qed.

Lemma wsound_perm R w w' :
  wsound R w -> controllers w' ≡ₚ controllers w -> w_hw w' = w_hw w -> w_usb w' = w_usb w -> w_input w' = w_input w ->
  wsound R w'.
Proof.
  intros [Hm (leak & Hl & Hlh) Hids Hin Hc Hd] Hp Hhw Husb Hinp.
  assert (all_healthy (controllers w') -> all_healthy (controllers w)) as Hall by (unfold all_healthy; by rewrite Hp).
  split; rewrite ?Hhw, ?Husb, ?Hinp; try done.
  - exists leak. split; [|auto]. rewrite Hl. unfold owned_all. by rewrite (concat_map_perm owned _ _ Hp).
  - by rewrite Hp.
  - intros Ha. rewrite <- Hd by auto. apply (concat_map_perm (fun c => disks (ports c)) _ _ Hp).
Qed.

(** What discovery promises of the world. *)
Record grows (k : Z) R w0 w : Prop := {
  gr_sound : wsound R w;
  gr_ids : next_id (w_usb w) <= next_id (w_usb w0) + k;
  gr_slots : llen (w_slots w0) <= MAX_CONTROLLERS -> llen (w_slots w) <= MAX_CONTROLLERS;
  gr_counts : forall N, START_EVENTS <= N -> counts N w0 -> counts N w;
}.

(** A controller joined the kernel's: in the next slot, or beyond the slots. *)
Definition joined w0 w c : Prop :=
  if llen (w_slots w0) <? MAX_CONTROLLERS
  then w_slots w = w_slots w0 ++ [c] /\ w_unregistered w = w_unregistered w0
  else w_slots w = w_slots w0 /\ w_unregistered w = w_unregistered w0 ++ [c].

Lemma k_install lapic (config : ConfigSpace) c R w (Q : W -> result unit InitError -> Prop) :
  wsound R (w <| w_unregistered := w_unregistered w ++ [c] |>) ->
  event_count c <= START_EVENTS ->
  (forall w' c', grows 0 R w w' -> joined w w' c' -> mapping c' = mapping c -> Q w' (Ok tt)) -> wp (install lapic config c) w Q.
Proof.
  intros Hw Hc HQ. unfold install. apply wp_bind, wp_get. apply wp_bind. unfold register_controller.
  destruct (llen (w_slots w) <? MAX_CONTROLLERS) eqn:El.
  - set (w1 := w <| w_slots := w_slots w ++ [c] |>). exists w1, (Ok true). split; [by rewrite El|].
    assert (wsound R w1) as Hw1.
    { eapply wsound_perm; [exact Hw| |done..]. unfold controllers, w1. cbn [w_slots w_unregistered update].
      rewrite <- app_assoc. apply Permutation_app_head, Permutation_app_comm. }
    apply (k_on_slot 0 0 _ _ (fun r => r = Ok tt) R w1 c); [done| | |done|].
    + cbn [w1 w_slots update]. by rewrite lookup_app_r, Nat.sub_diag by lia.
    + intros F P HF HP. apply (c_enable_msi (B := mapping c) _ _ F); [done|]. intros s C. by apply HP.
    + intros w2 c' r A Hsl Hmap ->. apply Z.ltb_lt in El as El'.
      assert (w_slots w2 = w_slots w ++ [c']) as Hjoin.
      { rewrite Hsl. unfold w1. cbn [w_slots update]. by rewrite insert_app_r_alt, Nat.sub_diag by lia. }
      apply (HQ _ c'); [|unfold joined; rewrite El; split; [done|apply A]|done]. split; [apply A|apply A| |].
      * intros _. rewrite Hjoin. unfold llen in *. rewrite length_app. cbn. lia.
      * intros N HN HcN. rewrite <- (Z.add_0_r N). apply (al_counts _ _ _ _ _ A). unfold counts, w1. cbn [w_slots update].
        apply Forall_app. split; [done|]. constructor; [lia|done].
  - set (w1 := w <| w_unregistered := w_unregistered w ++ [c] |>). exists w1, (Ok false). split; [by rewrite El|].
    apply wp_ret, (HQ _ c); [|unfold joined; by rewrite El|done]. split; [exact Hw|cbn; lia|done|done].
Qed.

(** The BAR of the function lies in the direct map; if it has the page an xHCI
    register space has at least, it is registers, and what they say is within the
    specification. *)
Definition bar_mapped off (config : Z) w : Prop :=
  forall w' a l, xhci_bar (M := M) config w = Done (w', Ok (Some (a, l))) ->
    off + a + l <= 2 ^ 64 /\ (0x1000 <= l -> window (off + a) l /\ exists caps, in_spec (off + a) l caps).

Lemma m_xhci_bar (config : ConfigSpace) w (Q : W -> result (option (Z * Z)) InitError -> Prop) :
  ready w -> (forall w' r, moved w w' ->
    (forall a l, r = Some (a, l) -> 0 < a /\ MIN_BAR_LEN <= l) -> Q w' (Ok r)) -> wp (xhci_bar config) w Q.
Proof.
  intros Hw HQ. unfold xhci_bar. do 3 (apply wp_bind, wp_config_read; [moves|lia|]; intros ? ? ? _).
  destruct (_ || _); [apply wp_ret, HQ; [moves|done]|].
  apply m_bar0; [moves|]. intros w' r M1 Hr. apply HQ; [moves|]. intros a l Ha. destruct (Hr a l Ha). lia.
Qed.

(** The same, with the equation of the run. *)
Lemma wp_eqn {St E A} (m : prog St E A) s (P : St -> result A E -> Prop) :
  wp m s P -> wp m s (fun s' r => m s = Done (s', r) /\ P s' r).
Proof. intros (s' & r & Hm & HP). by exists s', r. Qed.

Lemma grows_moved R w w' : wsound R w -> moved w w' -> grows 0 R w w'.
Proof.
  intros Hw Hm. destruct (along_moved _ _ _ Hw Hm) as [? ? Hs _ Hc]. split; [done|done|unfold llen; by rewrite Hs|].
  intros N _ HN. rewrite <- (Z.add_0_r N). auto.
Qed.
Lemma grows_trans k1 k2 R w0 w1 w2 : grows k1 R w0 w1 -> grows k2 R w1 w2 -> grows (k1 + k2) R w0 w2.
Proof. intros [] []. split; [done|lia|auto|auto]. Qed.
Lemma grows_le k1 k2 R w0 w : grows k1 R w0 w -> k1 <= k2 -> grows k2 R w0 w.
Proof. intros [] ?. split; [done|lia|auto|auto]. Qed.

(** What discovery did. *)
Definition discovered w0 w (state : ControllerState) : Prop :=
  match state with
  | CtlDiscovered => False
  | CtlReset => exists c, joined w0 w c
  | CtlFailed => still w0 w
  end.

Lemma discovered_still w0 w1 w st : still w0 w1 -> discovered w1 w st -> discovered w0 w st.
Proof.
  intros Hst. destruct st; [done| |by apply still_trans]. intros [c Hj]. exists c.
  unfold joined in *. by rewrite (sl_slots _ _ Hst), (sl_unregistered _ _ Hst) in Hj.
Qed.
Lemma still_grows R w0 w : wsound R w0 -> still w0 w -> machine_ok (w_hw w) -> grows 0 R w0 w.
Proof.
  intros Hw Hs Hok. pose proof Hs as [Hsl _ Hu _ _]. split; [by eapply still_sound|rewrite Hu; lia|by rewrite Hsl|].
  intros N _. unfold counts. by rewrite Hsl.
Qed.

(** The function has a usable BAR, which is mapped. *)
Lemma k_bring_up `{Mapper M} (B : Bar) caps (register : BarRegister) lapic (config : ConfigSpace) R w (Q : W -> result ControllerState InitError -> Prop) :
  in_spec (mm_virtual_address bar) (mm_len bar) caps -> 0x1000 <= mm_len bar < 2 ^ 64 ->
  wsound R w -> next_id (w_usb w) + BOOT_PORTS <= 2 ^ 64 ->
  (forall w' state, grows BOOT_PORTS R w w' -> discovered w w' state -> Q w' (Ok state)) ->
  wp (reset ←! reset_controller register;
      match reset with
      | Err _ => p_ret CtlFailed
      | Ok (_, _, hcs2, wide, cap_len) =>
          hcs1 ←! read32 register HCSPARAMS1;
          let max_slots := Z.land hcs1 0xff in
          r ←! p_try (ctl_new bar hcs2);
          match r with
          | Err _ => p_ret CtlFailed
          | Ok c =>
              '(c, r) ←! with_controller c (start register cap_len max_slots wide);
              match r with
              | Err _ => drop_buffers (ctl_buffers c) ;! p_ret CtlFailed
              | Ok _ => install lapic config c ;! p_ret CtlReset
              end
          end
      end) w Q.
Proof.
  intros Hspec Hlen Hw Hid HQ. pose proof (ws_machine _ _ Hw) as Hr. change (ready w) in Hr.
  assert (forall w', still w w' -> machine_ok (w_hw w') -> Q w' (Ok CtlFailed)) as HQ0.
  { intros w' Hs Hok. apply HQ; [|done]. apply (grows_le 0); [by apply still_grows|done]. }
  apply wp_bind, (m_reset_controller caps Hspec Hlen); [done| |].
  { intros w1 e M1. assert (ready w1) as Hr1 by moves. apply wp_ret, HQ0; [by apply still_moved|done]. }
  intros w1 version nports hcs2 context cap_len M1 Hc0 Hc1. assert (OP_LEN <= mm_len bar) as Hop by lia.
  apply wp_bind, m_read32; [moves|by apply (within_capability Hlen)|]. intros w2 hcs1 M2 _.
  assert (ready w2) as Hr2 by moves. assert (still w w2) as S2 by (apply still_moved; moves).
  assert (wsound R w2) as Hw2 by (by eapply still_sound). clear M1 M2.
  apply wp_bind, wp_try, k_ctl_new; [exact (bar_window register)|done|done| |].
  2: { intros w3 e S3 Hok3. apply wp_ret, HQ0; [by eapply still_trans|done]. }
  intros w3 c Hca. pose proof (sl_usb _ _ S2) as Hu2.
  apply wp_bind, (k_start caps _ _ _ _ R w2 w3 c); [done|done|lia|done|done|by rewrite Hu2| |].
  - intros w4 c' Hw4 Hmap Hid4 Hc4 Hs4 Hn4. apply wp_bind, (k_install _ _ _ R); [done|done|]. intros w5 c5 [Hw5 Hid5 Hsl5 Hc5] Hj _.
    apply wp_ret, HQ; [|apply (discovered_still _ w2); [done|exists c5; unfold joined in *; by rewrite <- Hs4, <- Hn4]].
    pose proof (still_grows _ _ _ Hw S2 Hr2) as [_ _ G3 G4]. unfold counts in *. rewrite Hs4 in *. rewrite Hu2 in Hid4.
    split; [done|lia|intros; by apply Hsl5, G3|intros; apply Hc5; [done|by apply G4]].
  - intros w4 c' e Hm4 Hl4 (d & Hd). apply wp_bind, (wp_drop_buffers _ (live (w_hw w2))); [done|exact Hl4|].
    intros d' Hd' Hld'. apply wp_ret, HQ0; [|done]. apply (still_trans _ w2); [done|]. rewrite Hd. by split.
Qed.

Lemma k_discover_one `{Mapper M} off lapic (config : ConfigSpace) R w (Q : W -> result ControllerState InitError -> Prop) :
  wsound R w -> 0 <= off -> bar_mapped off config w -> next_id (w_usb w) + BOOT_PORTS <= 2 ^ 64 ->
  (forall w' state, grows BOOT_PORTS R w w' -> discovered w w' state -> Q w' (Ok state)) ->
  wp (discover_one off lapic config) w Q.
Proof.
  intros Hw Hoff Hbar Hid HQ. pose proof (ws_machine _ _ Hw) as Hr. change (ready w) in Hr.
  assert (forall w', still w w' -> machine_ok (w_hw w') -> Q w' (Ok CtlFailed)) as HQ0.
  { intros w' Hs Hok. apply HQ; [|done]. apply (grows_le 0); [by apply still_grows|done]. }
  unfold discover_one. apply wp_bind. eapply wp_mono.
  { apply wp_eqn, (m_xhci_bar config w (fun w' r => exists o, r = Ok o /\ moved w w' /\
      forall a l, o = Some (a, l) -> 0 < a /\ MIN_BAR_LEN <= l)); eauto. }
  intros w1 ? [Hrun (found & -> & M1 & Hpos)]. assert (ready w1) as Hr1 by moves.
  destruct found as [[a l]|]; [|apply wp_ret, HQ0; [by apply still_moved|done]]. destruct (Hpos a l eq_refl) as [Ha Hl].
  destruct (Hbar _ _ _ Hrun) as [Hend Hregs]. unfold MIN_BAR_LEN in Hl. destruct (Hregs Hl) as (Hwin & caps & Hspec).
  apply wp_bind, wp_bind, wp_read_u16; [moves|lia|done|]. intros w2 v M2 _.
  apply wp_write_u16; [moves|lia|done|]. intros w3 M3.
  assert (ready w3) as Hr3 by moves. assert (still w w3) as S3 by (apply still_moved; moves). clear M1 M2 M3 Hrun.
  destruct (mmio_map_returns off (w_map w3) a l Ha ltac:(lia) Hoff Hend) as (m & r & Hm).
  apply wp_bind. exists (w3 <| w_map := m |>), (Ok r). split; [unfold map_mmio; by rewrite Hm|].
  set (w4 := w3 <| w_map := m |>). assert (still w w4) as S4 by (destruct S3; by split).
  destruct r as [mp|e]; [|by apply wp_ret, HQ0]. apply mmio_map_extent in Hm as [Hva Hlen].
  rewrite <- Hva, <- Hlen in Hwin, Hspec.
  apply (k_bring_up mp caps (mk_BarRegister (mk_RegisterBlock (mm_virtual_address mp)) eq_refl Hwin) lapic config R);
    [done|unfold bar; lia|by eapply still_sound|by rewrite (sl_usb _ _ S4)|].
  intros w' st G Hd. apply HQ; [|by eapply discovered_still].
  apply (grows_le (0 + BOOT_PORTS)); [|lia]. eapply grows_trans; [by apply still_grows|exact G].
Qed.

Lemma k_xhci_init `{Mapper M} off lapic regions R w (Q : W -> result unit InitError -> Prop) :
  wsound R w -> 0 <= off -> (forall config w, window config 4096 -> machine_ok (w_hw w) -> bar_mapped off config w) ->
  Forall (region_ok off) regions -> Forall (region_window off) regions -> next_id (w_usb w) + BOOT_PORTS * total_calls regions <= 2 ^ 64 ->
  (forall w', grows (BOOT_PORTS * total_calls regions) R w w' -> Q w' (Ok tt)) ->
  wp (xhci_init off lapic regions) w Q.
Proof.
  intros Hw Hoff Hbar Hregs Hwin Hid HQ. unfold xhci_init.
  apply (wp_doit (total_calls regions) off regions _ (fun n w' => grows (BOOT_PORTS * n) R w w')) with (n := 0);
    [| | |done| |done| |lia|intros w'; by rewrite Z.add_0_l; apply HQ].
  - intros n w' G. exact (ws_machine _ _ (gr_sound _ _ _ _ G)).
  - intros n w1 w2 G Hm. apply (grows_le (BOOT_PORTS * n + 0)); [|lia]. eapply grows_trans; [exact G|].
    apply grows_moved; [apply G|done].
  - intros n m w' G Hnm. eapply grows_le; [exact G|unfold BOOT_PORTS; lia].
  - intros n bdf config w' _ G Hn. pose proof (ws_machine _ _ (gr_sound _ _ _ _ G)) as Hr. change (ready w') in Hr.
    do 3 (apply wp_bind, wp_config_read; [moves|lia|]; intros ? ? ? _). apply wp_when; intros _.
    + match goal with |- wp _ ?w1 _ => assert (moved w' w1) as M1 by moves; set (w1' := w1) in * end.
      pose proof (grows_trans _ _ _ _ _ _ G (grows_moved _ _ _ (gr_sound _ _ _ _ G) M1)) as G1.
      pose proof (gr_ids _ _ _ _ G1). unfold BOOT_PORTS in *.
      apply wp_bind, (k_discover_one _ _ _ R); [apply G1|done|apply Hbar; [exact (config_window config)|apply (gr_sound _ _ _ _ G1)]|unfold BOOT_PORTS; lia|].
      intros w2 st G2 _. apply wp_ret. split; [done|].
      eapply grows_le; [eapply grows_trans; [exact G1|exact G2]|unfold BOOT_PORTS; lia].
    + split; [done|]. match goal with |- grows _ _ _ ?w1 => assert (moved w' w1) as M1 by moves end.
      eapply grows_le; [eapply grows_trans; [exact G|apply grows_moved; [apply G|exact M1]]|unfold BOOT_PORTS; lia].
  - eapply grows_le; [apply (grows_moved _ w w); [done|apply moved_refl; exact (ws_machine _ _ Hw)]|lia].
Qed.
End Kernel.
