(* ===== verification/Xhci.v ===== *)
(** * The xHCI controller: properties

    The theorems about the controller as a whole, with a board of [Board] whose
    hardware follows a script for the examples. *)

From S2P Require Import Prelude Words Bitmap PageAlloc Dma Machine Board Trb UsbDesc PortRec Msc Bulk Input Hid UsbBlock XhcState XhcTransfer XhcPorts Pcie XhcQuiet XhcOwn XhcDevice XhcSound XhcPoll XhcInit XhcBoot XhcWorld XhcKernel.

(** ** An example *)

(** A sink that remembers what it was given. *)
Definition InputLog : Type := list (Z + MouseEvent).
#[global] Instance log_sink : InputSink InputLog := {
  submit_keyboard_scancode log code := Done (log ++ [inl code]);
  submit_mouse_event log event := Done (log ++ [inr event]);
}.
#[global] Instance log_sink_laws : InputSinkLaws InputLog.
Proof. refine {| sink_ok _ := True |}; eauto. Defined.

(** The mapping of its registers. *)
#[local] Instance example_bar : Bar := mk_MmioMapping 0xfee00000 (0xfee00000 + example_off) 0x4000 0xfee00000 4.
(** A controller with one free root port and an event in its ring. *)
Definition example_ctl (record : PortRecord) : ControllerResources :=
  mk_Ctl example_bar
    (page_buffer 1) None [] (page_buffer 2) (page_buffer 3) (page_buffer 4)
    0 true 0 0 true 0x2000 0x3000 0x20 false [] [record] [] false 0 None 0 1 true.
Definition example_record : PortRecord := port_new 1 (mk_SupportedProtocol 2 0 1 1 true) 0.
Definition port_event : Trb := mk_Trb (Z.lor 1 (Z.shiftl 1 24)) 0 (Z.lor TRB_TYPE_PORT_STATUS_CHANGE TRB_CYCLE).
Definition example_state : Xhc (Board example_off Script) InputLog :=
  mk_Xhc (example_board (write_memory (fun _ => 0) 0x3000 (trb_bytes port_event))
            [(0, []); (0, []); (0, []); (0, []); (Z.lor PORTSC_CCS PORTSC_CSC, [])])
    [] [] (example_ctl example_record).

#[local] Existing Instance z_bit_field.
Lemma example_window {W} `{Hardware W} : (forall a n, outside_ram a n -> hw_registers a n) ->
  window (D := Board example_off W) (mm_virtual_address example_bar) (mm_len example_bar).
Proof.
  intros Ho k n Hk Hn Hl. apply Ho. right. cbn [example_bar mm_virtual_address mm_len] in *. unfold example_off. lia.
Qed.
Lemma example_inv m w (i : InputLog) u r : 1 <= pr_port r <= 255 -> inv (mk_Xhc (example_board m w) u i (example_ctl r)).
Proof.
  intros Hr. split; [apply example_board_ok|]. split; cbn [x_hw x_ctl live board_laws example_board bo_live example_ctl].
  - done.
  - done.
  - split; [member|done].
  - split; [member|done].
  - split; [member|done].
  - constructor; [exact Hr|constructor].
  - split; [done|by apply example_window|by vm_compute..].
Qed.
Lemma example_sound : sound [] example_state.
Proof.
  split; try done; try (by repeat constructor).
  exists []. split; [|done]. split; [by apply example_inv|done].
Qed.

(** The same controller as the first of the kernel's. *)
Definition example_world : World (Board example_off Script) InputLog unit :=
  mk_World (x_hw example_state) tt [] [] [x_ctl example_state] [].
Lemma example_wsound : wsound [] example_world.
Proof.
  split; try done; try (by repeat constructor).
  - apply example_board_ok.
  - by exists [].
  - constructor; [|constructor]. split; [|done]. exact (proj2 (example_inv _ _ [] [] example_record ltac:(done))).
Qed.

(** ** Runs of the kernel *)

(** Everything that happens to the controllers after the boot: the kernel polls,
    reads blocks and takes interrupts, and in between the hardware, or a driver of
    other hardware, does anything that leaves the live buffers alone. *)
Inductive kernel_step {D I M : Type} `{MachineLaws D} `{InputSink I} : relation (World D I M) :=
  | step_poll w w' r : xhci_poll w = Done (w', r) -> kernel_step w w'
  | step_read id lba output w w' r : xhci_read_usb_blocks id lba output w = Done (w', r) -> kernel_step w w'
  | step_interrupt w w' r : xhci_interrupt_handler w = Done (w', r) -> kernel_step w w'
  | step_hardware w w' : moved w w' -> kernel_step w w'.

(** What a step may add to an event counter, and to the registry. *)
Definition STEP_EVENTS : Z := 4 * POLL_EVENTS POLL_EVENT_BUDGET.
Definition STEP_DISKS : Z := 2 * MAX_CONTROLLERS.

(** The invariant of a run, after [n] steps. *)
Record runs {D I M : Type} `{MachineLaws D} `{InputSinkLaws I} (R : list DmaBuffer) (N K : Z) (w : World D I M) : Prop := {
  rn_sound : wsound R w;
  rn_slots : llen (w_slots w) <= MAX_CONTROLLERS;
  rn_counts : counts N w;
  rn_ids : next_id (w_usb w) <= K;
}.

Section Runs.
Context {D I M : Type} `{MachineLaws D} `{InputSinkLaws I}.
Abbreviation W := (World D I M).
Implicit Types (w : W) (R : list DmaBuffer).

Lemma runs_along n k R N K w w' :
  runs R N K w -> along n k R w w' -> n <= STEP_EVENTS -> k <= STEP_DISKS -> runs R (N + STEP_EVENTS) (K + STEP_DISKS) w'.
Proof.
  intros [Hw Hs Hc Hi] [Hw' Hi' Hs' _ Hc'] Hn Hk. split; [done|unfold llen; by rewrite Hs'| |lia].
  eapply counts_le; [by apply Hc'|lia].
Qed.
Lemma counts_room n N w : counts N w -> N + n < 2 ^ 64 -> slots_room n w.
Proof. intros Hc Hn. eapply Forall_impl; [exact Hc|]. cbn. lia. Qed.
Lemma step_events m l : 0 <= l <= MAX_CONTROLLERS -> m <= POLL_EVENTS POLL_EVENT_BUDGET -> 0 <= m -> m * l <= STEP_EVENTS.
Proof. unfold MAX_CONTROLLERS, STEP_EVENTS. nia. Qed.

(** From a state of the run every entry point returns to one. *)
Lemma runs_poll R N K w : runs R N K w -> N + STEP_EVENTS < 2 ^ 64 -> K + STEP_DISKS <= 2 ^ 64 ->
  exists w', xhci_poll w = Done (w', Ok tt) /\ runs R (N + STEP_EVENTS) (K + STEP_DISKS) w'.
Proof.
  intros Hr HN HK. pose proof Hr as [Hw Hs Hc Hi]. assert (0 <= llen (w_slots w)) by (unfold llen; lia).
  pose proof (step_events (POLL_EVENTS POLL_EVENT_BUDGET) (llen (w_slots w)) ltac:(lia) ltac:(lia) ltac:(done)).
  unfold STEP_DISKS, MAX_CONTROLLERS in *.
  destruct (k_xhci_poll R w (fun w' r => r = Ok tt /\ runs R (N + STEP_EVENTS) (K + STEP_DISKS) w')) as (w' & r & Hp & -> & Hr').
  - done.
  - eapply counts_room; [done|]. unfold STEP_EVENTS, POLL_EVENTS, SERVICE_EVENTS, ENUMERATE_EVENTS in *. lia.
  - lia.
  - intros w' A. split; [done|]. eapply runs_along; [done|exact A|done|]. unfold STEP_DISKS, MAX_CONTROLLERS. lia.
  - by exists w'.
Qed.
Lemma runs_read R N K w id lba output : runs R N K w -> N + STEP_EVENTS < 2 ^ 64 -> K + STEP_DISKS <= 2 ^ 64 ->
  exists w' out ok, xhci_read_usb_blocks id lba output w = Done (w', Ok (out, ok)) /\ llen out = llen output /\
    (ok = false -> out = output) /\ runs R (N + STEP_EVENTS) (K + STEP_DISKS) w'.
Proof.
  intros Hr HN HK. pose proof Hr as [Hw Hs Hc Hi]. assert (0 <= llen (w_slots w)) by (unfold llen; lia).
  destruct (k_read_usb_blocks id lba output R w (fun w' r => exists out ok, r = Ok (out, ok) /\ llen out = llen output /\
    (ok = false -> out = output) /\ runs R (N + STEP_EVENTS) (K + STEP_DISKS) w')) as (w' & r & Hp & out & ok & -> & Hr').
  - done.
  - eapply counts_room; [done|]. unfold STEP_EVENTS, POLL_EVENTS, SERVICE_EVENTS, ENUMERATE_EVENTS, MSC_EVENTS in *. lia.
  - intros w' out ok A Ho Hok. exists out, ok. split; [done|]. split; [done|]. split; [done|].
    eapply runs_along; [done|exact A|apply step_events; [lia|done|done]|done].
  - by exists w', out, ok.
Qed.
Lemma runs_interrupt R N K w : runs R N K w -> N + STEP_EVENTS < 2 ^ 64 -> K + STEP_DISKS <= 2 ^ 64 ->
  exists w', xhci_interrupt_handler w = Done (w', Ok tt) /\ runs R (N + STEP_EVENTS) (K + STEP_DISKS) w'.
Proof.
  intros Hr HN HK. pose proof Hr as [Hw Hs Hc Hi].
  destruct (k_interrupt_handler R w (fun w' r => r = Ok tt /\ runs R (N + STEP_EVENTS) (K + STEP_DISKS) w')) as (w' & r & Hp & -> & Hr').
  - done.
  - eapply counts_room; [done|]. unfold STEP_EVENTS, POLL_EVENTS, SERVICE_EVENTS, ENUMERATE_EVENTS in *. lia.
  - unfold STEP_DISKS, MAX_CONTROLLERS in *. lia.
  - intros w' A. split; [done|]. by eapply runs_along; [done|exact A|..].
  - by exists w'.
Qed.

Lemma runs_step R N K w w' : runs R N K w -> N + STEP_EVENTS < 2 ^ 64 -> K + STEP_DISKS <= 2 ^ 64 ->
  kernel_step w w' -> runs R (N + STEP_EVENTS) (K + STEP_DISKS) w'.
Proof.
  intros Hr HN HK Hs. revert Hr. destruct Hs as [w w' r Hp|id lba output w w' r Hp|w w' r Hp|w w' Hm]; intros Hr.
  - destruct (runs_poll R N K _ Hr HN HK) as (? & Hp' & ?). rewrite Hp' in Hp. by injection Hp as <- <-.
  - destruct (runs_read R N K _ id lba output Hr HN HK) as (? & ? & ? & Hp' & _ & _ & ?). rewrite Hp' in Hp. by injection Hp as <- <-.
  - destruct (runs_interrupt R N K _ Hr HN HK) as (? & Hp' & ?). rewrite Hp' in Hp. by injection Hp as <- <-.
  - eapply runs_along; [done|apply along_moved; [apply Hr|done]|done|done].
Qed.
Lemma runs_steps R N K n w w' : runs R N K w ->
  N + (Z.of_nat n + 1) * STEP_EVENTS < 2 ^ 64 -> K + (Z.of_nat n + 1) * STEP_DISKS <= 2 ^ 64 ->
  nsteps kernel_step n w w' -> runs R (N + Z.of_nat n * STEP_EVENTS) (K + Z.of_nat n * STEP_DISKS) w'.
Proof.
  intros Hr HN HK Hn. revert N K Hr HN HK. induction Hn as [w|n w1 w2 w3 Hs Hn IH]; intros N K Hr HN HK.
  { by rewrite !Z.mul_0_l, !Z.add_0_r. }
  assert (0 <= STEP_EVENTS /\ 0 <= STEP_DISKS) as [Hse Hsd] by done. rewrite Nat2Z.inj_succ in *.
  replace (N + Z.succ (Z.of_nat n) * STEP_EVENTS) with (N + STEP_EVENTS + Z.of_nat n * STEP_EVENTS) by lia.
  replace (K + Z.succ (Z.of_nat n) * STEP_DISKS) with (K + STEP_DISKS + Z.of_nat n * STEP_DISKS) by lia.
  apply IH; [|lia|lia]. eapply runs_step; [exact Hr|nia|nia|exact Hs].
Qed.
End Runs.

(** A function whose capability registers place the register sets and list no extended
    capability; everything else follows the script. *)
Inductive Probe := mk_Probe (rest : Script).
Definition probe_bar : Z := 0xfee00000 + example_off.
#[local] Instance probe_hardware : Hardware Probe := {
  hw_registers := outside_ram;
  hw_read '(mk_Probe w) m a n :=
    if a =? probe_bar then (mk_Probe w, m, 0x01000020)
    else if a =? probe_bar + HCCPARAMS1 then (mk_Probe w, m, 0)
    else if a =? probe_bar + DBOFF then (mk_Probe w, m, 0x3000)
    else if a =? probe_bar + RTSOFF then (mk_Probe w, m, 0x2000)
    else let '(w, m, v) := play w m in (mk_Probe w, m, v);
  hw_write '(mk_Probe w) m _ _ _ := let '(w, m, v) := play w m in (mk_Probe w, m);
  hw_run w m := (w, m);
}.
Definition fresh_world {W} `{Hardware W} (hw : W) : World (Board example_off W) InputLog (list Z) :=
  mk_World (mk_Board (example_pm 0) (fun _ => 0) [] hw) [] [] [] [] [].
Lemma fresh_wsound {W} `{Hardware W} (hw : W) : wsound [] (fresh_world hw).
Proof.
  split; [| |constructor|done|constructor|done].
  - split; [vm_compute; congruence|vm_compute; congruence|done|vm_compute; congruence|constructor..].
  - by exists [].
Qed.

(** Hardware that has an xHCI function everywhere, each with an I/O BAR. *)
Definition rom_hardware : Hardware unit := {|
  hw_registers := outside_ram;
  hw_read w m a n := (w, m, if n =? 4 then 1 else if n =? 2 then 0x1234
    else match a mod 4096 with 9 => 0x30 | 10 => 3 | 11 => 0x0c | _ => 0 end);
  hw_write w m _ _ _ := (w, m);
  hw_run w m := (w, m);
|}.

Lemma example_runs : runs [] 1 0 example_world.
Proof. split; [apply example_wsound|done|repeat constructor; done|done]. Qed.

(** A root port as one replugging leaves it. *)
Lemma find_update_record port f l r :
  find_record port l = Some r -> (forall r, pr_port (f r) = pr_port r) -> find_record port (update_record port f l) = Some (f r).
Proof.
  unfold find_record. intros Hl Hf. induction l as [|x l IH]; [done|]. cbn [list_find update_record] in *.
  destruct (Z.eqb_spec (pr_port x) port) as [He|Hne].
  - rewrite decide_True in Hl by done. cbn in Hl. injection Hl as <-. cbn [list_find]. by rewrite decide_True by (by rewrite Hf).
  - rewrite decide_False in Hl by done. cbn [list_find]. rewrite decide_False by done.
    destruct (list_find _ l) as [[i y]|] eqn:E; cbn in Hl |- *; [|done]. injection Hl as ->.
    specialize (IH eq_refl). destruct (list_find _ (update_record port f l)) as [[j z]|]; [|done]. exact IH.
Qed.
Lemma observe_port_number r v now : pr_port (observe r v now).1 = pr_port r.
Proof. apply observe_evolves. Qed.

(** ** Properties *)

(** C1: The kernel's xHCI code keeps track of its memory and of its disks, and
    returns, in every state a run of polls, block reads, interrupts and actions of the
    hardware reaches, whatever the hardware answers inside the BARs and writes to shared
    memory.  The run may be as long as the 64-bit event counters and disk identifiers
    last: after [n] steps [N + (n+1) * STEP_EVENTS] and [K + (n+1) * STEP_DISKS] must fit.
    Then the live DMA buffers are those of the controllers, of their attached devices and
    of the rest of the kernel, with, only if some controller is unhealthy, leaked ones
    besides; if all controllers are healthy, the online block devices are the disks of
    the attached devices; every register the driver keeps the offset of lies in its BAR.
    And the next poll, block read or interrupt returns without a panic; a read that fails
    leaves the caller's buffer as it was. *)
Theorem xhci_runs_safely {D I M : Type} `{MachineLaws D} `{InputSinkLaws I}
    (R : list DmaBuffer) (N K : Z) (n : nat) (w0 w : World D I M) :
  runs R N K w0 -> nsteps kernel_step n w0 w ->
  N + (Z.of_nat n + 1) * STEP_EVENTS < 2 ^ 64 -> K + (Z.of_nat n + 1) * STEP_DISKS <= 2 ^ 64 ->
  wsound R w /\
  (exists w', xhci_poll w = Done (w', Ok tt)) /\
  (forall id lba output, exists w' out ok, xhci_read_usb_blocks id lba output w = Done (w', Ok (out, ok)) /\
     llen out = llen output /\ (ok = false -> out = output)) /\
  exists w', xhci_interrupt_handler w = Done (w', Ok tt).
Proof.
  intros Hr Hn HN HK. pose proof (runs_steps R N K n w0 w Hr HN HK Hn) as Hw. split; [apply Hw|].
  split; [|split].
  - edestruct (runs_poll R _ _ w Hw) as (w' & Hp & _); [lia|lia|by exists w'].
  - intros id lba output. edestruct (runs_read R _ _ w id lba output Hw) as (w' & out & ok & Hp & Ho & Hok & _); [lia|lia|by exists w', out, ok].
  - edestruct (runs_interrupt R _ _ w Hw) as (w' & Hp & _); [lia|lia|by exists w'].
Qed.

Lemma xhci_runs_safely_witness : exists w w' : World (Board example_off Script) InputLog unit,
  nsteps kernel_step 1 example_world w /\ wsound [] w /\ xhci_poll w = Done (w', Ok tt).
Proof.
  destruct (xhci_runs_safely [] 1 0 0 example_world example_world example_runs (nsteps_O _ _)) as (_ & (w & Hp) & _);
    [vm_compute; reflexivity|vm_compute; congruence|].
  assert (nsteps kernel_step 1 example_world w) as Hs by (apply nsteps_once; exact (step_poll _ _ _ Hp)).
  destruct (xhci_runs_safely [] 1 0 1 example_world w example_runs Hs) as (Hw & (w' & Hp') & _);
    [vm_compute; reflexivity|vm_compute; congruence|].
  exists w, w'. split; [exact Hs|]. split; [exact Hw|exact Hp'].
Defined.

(** C3: One poll of one controller returns without a panic, whatever the hardware
    answers inside the controller's BAR and writes to shared memory, if the event counter
    has room for the events of the budget and of two enumerations, and the registry for
    two disks; it takes at most these.  It keeps the controller's own invariant: every
    live buffer is one of its rings, of an attached device's buffers or of someone else,
    or, only if the controller is unhealthy, one that was leaked; the disks of the
    attached devices and of the other controllers are the online block devices and, only
    if it is unhealthy, some that are gone; and if no port is listed by two protocols,
    a root-port record that is active has the device of its generation attached. *)
Theorem controller_poll_total {D I : Type} `{MachineLaws D} `{InputSinkLaws I} {B : Bar}
    (F : list DmaBuffer) (E : list (Z * Z)) (budget : positive) (s : Xhc D I) :
  sound F s -> active_ok (x_ctl s) -> disks_ok E s ->
  event_count (x_ctl s) + POLL_EVENTS budget < 2 ^ 64 -> next_id (x_usb s) + 2 <= 2 ^ 64 ->
  exists s', controller_poll budget s = Done (s', Ok tt) /\ sound F s' /\ active_ok (x_ctl s') /\ disks_ok E s' /\
    event_count (x_ctl s') <= event_count (x_ctl s) + POLL_EVENTS budget /\ next_id (x_usb s') <= next_id (x_usb s) + 2.
Proof.
  intros Hs Ha Hd Hro Hid. destruct (g_controller_poll budget F s
    (fun s' r => r = Ok tt /\ goes (POLL_EVENTS budget) 2 F s s')) as (s' & r & Hp & -> & G); [done|exact Hro|done|done|].
  exists s'. split; [exact Hp|]. destruct G as [G1 G2 G3 G4 G5 G6]. split; [exact G1|].
  split; [by apply G5|]. split; [by apply G6|]. by split.
Qed.

Lemma controller_poll_total_witness :
  exists s', controller_poll POLL_EVENT_BUDGET example_state = Done (s', Ok tt) /\ sound [] s' /\
    pr_state <$> root_ports (x_ctl s') = [Debouncing 10].
Proof.
  destruct (controller_poll_total [] [] POLL_EVENT_BUDGET example_state example_sound) as (s' & Hp & Hs & _);
    [repeat constructor; discriminate|by exists []|vm_compute; reflexivity|vm_compute; congruence|].
  exists s'. split; [exact Hp|]. split; [exact Hs|].
  pose proof (f_equal (fun o => match o with Done (s', _) => pr_state <$> root_ports (x_ctl s') | _ => [] end) Hp) as Hst.
  vm_compute in Hst. symmetry. exact Hst.
Defined.


#[local] Existing Instance list_mapper.

(** The boot returns: the enumeration of every function of every PCI region,
    with the discovery of each xHCI controller on the way, ends in a sound state of
    the kernel with at most four registered controllers, from which the kernel can
    run, as long as BARs and regions are registers in the direct map and the
    controllers' capability registers point inside their BARs. *)
Theorem xhci_init_total {D I M : Type} `{MachineLaws D} `{InputSinkLaws I} `{Mapper M}
    (R : list DmaBuffer) (off lapic : Z) (regions : list PciRegion) (w : World D I M) :
  wsound R w -> w_slots w = [] -> 0 <= off ->
  (forall config w', window config 4096 -> machine_ok (w_hw w') -> bar_mapped (D := D) (I := I) (M := M) off config w') ->
  Forall (region_ok off) regions -> Forall (region_window off) regions -> next_id (w_usb w) + BOOT_PORTS * total_calls regions <= 2 ^ 64 ->
  exists w', xhci_init off lapic regions w = Done (w', Ok tt) /\
    runs R START_EVENTS (next_id (w_usb w) + BOOT_PORTS * total_calls regions) w'.
Proof.
  intros Hw Hs Hoff Hbar Hreg Hwin Hid. destruct (k_xhci_init off lapic regions R w
    (fun w' r => r = Ok tt /\ grows (BOOT_PORTS * total_calls regions) R w w')) as (w' & r & Hr & -> & [G1 G2 G3 G4]); [done..|].
  exists w'. split; [exact Hr|]. split; [exact G1| |apply G4; [done|]|exact G2].
  - apply G3. by rewrite Hs.
  - unfold counts. by rewrite Hs.
Qed.

#[local] Existing Instance rom_hardware.
Lemma rom_bars config (w : World (Board example_off unit) InputLog (list Z)) : bar_mapped example_off config w.
Proof.
  intros w' a l. unfold xhci_bar, p_bind. destruct w as [[pm m lv []] mp us inp sl un]. set (w0 := mk_World _ _ _ _ _ _).
  assert (forall o, exists v, config_read (E := InitError) config o 1 w0 = Done (w0, Ok v)) as Hread by (intros; eexists; reflexivity).
  unfold class_code, subclass, prog_if. destruct (Hread 11) as [? ->]. cbn [mbind outcome_bind].
  destruct (Hread 10) as [? ->]. cbn [mbind outcome_bind]. destruct (Hread 9) as [? ->]. cbn [mbind outcome_bind].
  destruct (_ || _); [done|]. intros Hb. vm_compute in Hb. discriminate.
Qed.

Lemma xhci_init_total_witness :
  exists w', xhci_init example_off 0 [mk_Region 0xe0000000 0 0] (fresh_world tt) = Done (w', Ok tt) /\ wsound [] w'.
Proof.
  destruct (xhci_init_total [] example_off 0 [mk_Region 0xe0000000 0 0] (fresh_world tt)) as (w' & Hr & Hw).
  - apply fresh_wsound.
  - done.
  - done.
  - intros config w _ _. apply rom_bars.
  - repeat constructor; vm_compute; congruence.
  - constructor; [|constructor]. intros k n Hk Hn Hl. right. cbn [rg_address rg_first_bus rg_last_bus] in *. unfold example_off. lia.
  - vm_compute. congruence.
  - exists w'. split; [exact Hr|apply Hw].
Defined.

(** A 32-bit memory BAR is never accepted: whatever size the device reports,
    [bar0] gives [None], since the negated 32-bit mask, taken in 64 bits, is not a
    power of two.  A controller behind such a BAR is not driven. *)
Theorem bar0_rejects_32bit {D St E : Type} `{MachineLaws D} `{HasMachineLaws St D} (config : Z) (s : St) :
  machine_ok (machine s) -> window config 4096 -> Z.land (Z.shiftr (mmio_read (machine s) (config + 16) 4).2 1) 3 = 0 ->
  exists s', bar0 (E := E) config s = Done (s', Ok None) /\ live (machine s') = live (machine s).
Proof.
  intros Hs Hwin Hlow. destruct (m_bar0_32 (E := E) (mk_ConfigSpace config Hwin) s (fun s' r => r = Ok None /\ moved s s')) as (s' & r & Hr & -> & M1);
    [done|done|done|]. exists s'. split; [exact Hr|]. destruct M1 as (d & -> & _ & Hl). by rewrite machine_set.
Qed.

(** A 64 KiB device whose 32-bit BAR the firmware placed at 0xfee00000. *)
Lemma bar0_rejects_32bit_witness :
  let w := fresh_world (W := Script) ((fun v => (v, [])) <$> [0xfee00000; 0; 0; 0xffff0000; 0]) in
  exists w', bar0 (E := InitError) 0xe0000000 w = Done (w', Ok None) /\ live (machine w') = [].
Proof.
  cbn zeta. set (w := fresh_world _).
  destruct (bar0_rejects_32bit (E := InitError) 0xe0000000 w) as (w' & Hr & Hl).
  - apply (fresh_wsound (W := Script)).
  - intros k n Hk Hn Hl. left. unfold example_off. lia.
  - reflexivity.
  - exists w'. split; [exact Hr|exact Hl].
Defined.

(** A device that is unplugged and plugged in again before the next service of
    its port is never removed: the two samples take the record from [Active] over
    [Removing] to [Debouncing] while the device stays in the list, and what the
    service then finds to do is an enumeration, not a removal. *)
Theorem replug_skips_removal (port gone back : Z) (c : ControllerResources) (r : PortRecord) :
  find_record port (root_ports c) = Some r -> pr_state r = Active -> has_bit (pr_portsc r) PORTSC_CCS = true ->
  has_bit gone PORTSC_CCS = false -> has_bit back PORTSC_CCS = true ->
  let c' := observe_record port back (observe_record port gone c) in
  ports c' = ports c /\
  exists r' until, find_record port (root_ports c') = Some r' /\ pr_state r' = Debouncing until /\
    forall ticks, until <= ticks -> port_work ticks r' = Some (port, pr_generation r', true).
Proof.
  intros Hf Hact Hon Hgone Hback. cbn zeta. split; [done|]. pose proof Hf as Hp.
  unfold find_record in Hp. destruct (list_find _ _) as [[i x]|] eqn:Ef; [|done]. cbn in Hp. injection Hp as ->.
  apply list_find_Some in Ef as (_ & Hport & _).
  set (r1 := (observe r gone (poll_ticks c)).1). set (r2 := (observe r1 back (poll_ticks c)).1).
  assert (find_record port (root_ports (observe_record port gone c)) = Some r1) as Hf1.
  { unfold observe_record. cbn [root_ports update].
    rewrite (find_update_record _ _ _ _ Hf); [by rewrite Hgone|]. intros r0.
    destruct (_ && _); [done|apply observe_port_number]. }
  assert (pr_state r1 = Removing /\ has_bit (pr_portsc r1) PORTSC_CCS = false) as [Hst1 Hon1].
  { unfold r1, observe. destruct (acknowledge_changes r gone) as [r0 ch] eqn:Ea.
    assert (r0 = (acknowledge_changes r gone).1) as -> by (by rewrite Ea). rewrite Hgone, Hon. cbn [eqb negb].
    rewrite orb_true_r. cbn. split; [done|]. rewrite has_bit_ccs. rewrite has_bit_ccs in Hgone.
    unfold clear_bits. rewrite Z.ldiff_spec, Hgone. done. }
  exists r2, (saturating_add 64 (poll_ticks c) DEBOUNCE_TICKS). split; [|split].
  - unfold observe_record at 1. cbn [root_ports update]. rewrite (find_update_record _ _ _ _ Hf1).
    + rewrite Hst1, bool_decide_false, andb_false_r by done. done.
    + intros r0. destruct (_ && _); [done|apply observe_port_number].
  - unfold r2, observe. destruct (acknowledge_changes r1 back) as [r0 ch].
    rewrite Hback, Hon1. cbn [eqb negb]. rewrite orb_true_r. done.
  - intros ticks Hle.
    assert (pr_state r2 = Debouncing (saturating_add 64 (poll_ticks c) DEBOUNCE_TICKS)) as Hst2.
    { unfold r2, observe. destruct (acknowledge_changes r1 back) as [r0 ch].
      rewrite Hback, Hon1. cbn [eqb negb]. rewrite orb_true_r. done. }
    unfold port_work. rewrite Hst2, (proj2 (Z.leb_le _ _) Hle). do 3 f_equal.
    unfold r2, r1. by rewrite !observe_port_number.
Qed.

Lemma replug_skips_removal_witness :
  let r := mark_active (set_portsc example_record PORTSC_CCS) in
  let c' := observe_record 1 (Z.lor PORTSC_CCS PORTSC_CSC) (observe_record 1 PORTSC_CSC (example_ctl r)) in
  exists r' until, find_record 1 (root_ports c') = Some r' /\ pr_state r' = Debouncing until.
Proof.
  cbn zeta. set (r := mark_active _).
  destruct (replug_skips_removal 1 PORTSC_CSC (Z.lor PORTSC_CCS PORTSC_CSC) (example_ctl r) r)
    as (_ & r' & until & Hr & Hst & _); [reflexivity..|].
  exists r', until. split; [exact Hr|exact Hst].
Defined.
