(* ===== verification/SelfTest.v ===== *)
(** * The self-tests of the kernel, run at every boot

    [kmain] calls the [test] functions of the modules before it starts the drivers;
    an assertion that fails stops the boot.  Here they run on the definitions of this
    library: the pure ones evaluate, those of the allocators hold for any memory. *)

From S2P Require Import Prelude Words Trb Ring UsbDesc PortRec Msc Bulk Input Hid Bitmap PageAlloc Dma Machine Vfs Console Ps2 XhcState Pcie XhcInit.

(** ** Assertions *)

#[global] Instance RingError_eq_dec : EqDecision RingError. Proof. solve_decision. Defined.
#[global] Instance DescriptorError_eq_dec : EqDecision DescriptorError. Proof. solve_decision. Defined.
#[global] Instance HidBootEndpoint_eq_dec : EqDecision HidBootEndpoint. Proof. solve_decision. Defined.
#[global] Instance EndpointDescriptor_eq_dec : EqDecision EndpointDescriptor. Proof. solve_decision. Defined.
#[global] Instance MscBotInterface_eq_dec : EqDecision MscBotInterface. Proof. solve_decision. Defined.
#[global] Instance SupportedProtocol_eq_dec : EqDecision SupportedProtocol. Proof. solve_decision. Defined.
#[global] Instance PortState_eq_dec : EqDecision PortState. Proof. solve_decision. Defined.
#[global] Instance BotError_eq_dec : EqDecision BotError. Proof. solve_decision. Defined.
#[global] Instance Capacity_eq_dec : EqDecision Capacity. Proof. solve_decision. Defined.
#[global] Instance BulkError_eq_dec : EqDecision BulkError. Proof. solve_decision. Defined.
#[global] Instance BulkCompletion_eq_dec : EqDecision BulkCompletion. Proof. solve_decision. Defined.
#[global] Instance MmioError_eq_dec : EqDecision MmioError. Proof. solve_decision. Defined.
#[global] Instance PageRange_eq_dec : EqDecision PageRange. Proof. solve_decision. Defined.
#[global] Instance Capability_eq_dec : EqDecision Capability. Proof. solve_decision. Defined.
#[global] Instance MemoryBar_eq_dec : EqDecision MemoryBar. Proof. solve_decision. Defined.

Abbreviation is_eq a b := (bool_decide (a = b)).
(** [buffer[count] = x; count += 1] for every item handed to a closure. *)
Definition record_all {A} (items : list A) (buffer : list A) (count : Z) : outcome (list A * Z) :=
  fold_outcome (fun '(buffer, count) x => buffer ← set_idx buffer count x; count ← add_ovf 64 count 1; Done (buffer, count)) items (buffer, count).

(** ** Input devices *)

(** @ inputdev.rs:362-370 test *)
Definition inputdev_test : outcome unit :=
  assert! negb (is_break_scancode 0x1e);
  assert! is_break_scancode 0x9e;
  assert! ps2_scroll_delta 0x00 5 =? 5;
  assert! ps2_scroll_delta 0x20 0xfb =? -5;
  assert! negb (ps2_middle_button 0x01);
  assert! ps2_middle_button 0x02;
  Done tt.

(** ** PCIe: a configuration space in an array *)

(** The array is read-only memory at address 0. *)
Module ConfigBytes.
#[export] Instance config_machine : Machine (list Z) := {
  mmio_read d a n := (d, from_le (take (Z.to_nat n) (drop (Z.to_nat a) d)));
  mmio_write d _ _ _ := d;
  dma_load _ _ _ := Panic;
  dma_store _ _ _ := Panic;
  dma_alloc _ _ _ := Panic;
  dma_free _ _ := Panic;
}.
#[export] Instance config_state : HasMachine (list Z) (list Z) := { machine d := d; set_machine d _ := d }.
End ConfigBytes.
#[local] Existing Instances ConfigBytes.config_machine ConfigBytes.config_state.
Definition capability_walk : prog (list Z) Empty_set (list (option Capability)) :=
  caps ←! capabilities 0;
  '(caps, first) ←! next_capability 0 caps;
  '(caps, second) ←! next_capability 0 caps;
  '(_, third) ←! next_capability 0 caps;
  p_ret [first; second; third].
(** @ pcie/enumrate.rs:220-267 test *)
Definition pcie_test : outcome unit :=
  bdf ← unwrap (bdf_new 0x23 4 2);
  assert! is_eq (bdf_offset bdf 0x20) (Some (0x300000 + 4 * 0x8000 + 2 * 0x1000));
  assert! is_eq (bdf_offset bdf 0x24) None;
  assert! bool_decide (is_Some (bdf_new 32 0 0));
  assert! negb (bool_decide (is_Some (bdf_new 0 32 0)));
  assert! is_eq (decode_memory_bar 0x12345000 0) (Some (Bits32 0x12345000));
  assert! is_eq (decode_memory_bar 0x12345004 0xdeadbeef) (Some (Bits64 0xdeadbeef12345000));
  assert! is_eq (decode_memory_bar 1 0) None;
  assert! is_eq (decode_memory_bar 0x6 0) None;
  bytes ← fold_outcome (fun bytes '(i, b) => set_idx bytes i b)
    [(0x06, 0x10); (0x34, 0x40); (0x40, 1); (0x41, 0x48); (0x48, 5); (0x49, 0x40)] (replicate 4096 0);
  '(_, caps) ← capability_walk bytes;
  assert! is_eq caps (Ok [Some (mk_Capability 1 0x40); Some (mk_Capability 5 0x48); None]);
  Done tt.

(** ** xHCI *)

(** @ xhci/bulk.rs:78-105 test *)
Definition bulk_test : outcome unit :=
  trb ← unwrap_ok (normal_trb 0x2000 512 true true);
  assert! parameter trb =? 0x2000;
  assert! status trb =? 512;
  assert! negb (Z.land (control trb) TRB_IOC =? 0);
  assert! negb (Z.land (control trb) TRB_DIR_IN =? 0);
  assert! Z.land (control trb) TRB_CHAIN =? 0;
  assert! is_eq (normal_trb 0 0 false true) (Err BulkEmpty);
  assert! is_eq (normal_trb 0 (MAX_TD_TRANSFER + 1) false true) (Err BulkTooLarge);
  assert! is_eq (completion ShortPacket 512 64 true) (Ok (mk_BulkCompletion 448 true));
  assert! is_eq (completion ShortPacket 512 64 false) (Err BulkShortPacket);
  assert! is_eq (completion Success 512 513 true) (Err BulkInvalidResidual);
  Done tt.

(** The two assertions on the layout of [Trb] hold by its [repr(C, align(16))]. *)
(** @ xhci/trb.rs:88-116 test *)
Definition trb_test : outcome unit :=
  assert! llen (trb_bytes Trb_default) =? 16;
  let link := link_trb 0x12340000 true in
  assert! parameter link =? 0x12340000;
  assert! Z.land (control link) TRB_TYPE_MASK =? TRB_TYPE_LINK;
  assert! negb (Z.land (control link) TRB_TC =? 0);
  assert! negb (Z.land (control link) TRB_CYCLE =? 0);
  assert! is_eq (from_status (Z.shiftl 1 24)) Success;
  assert! is_eq (port_status_change_event (mk_Trb 7 0 (Z.lor TRB_TYPE_PORT_STATUS_CHANGE TRB_CYCLE))) (Some 7);
  assert! is_eq (port_status_change_event (mk_Trb 0 0 TRB_TYPE_PORT_STATUS_CHANGE)) None;
  Done tt.

(** @ xhci/ring.rs:125-139 test *)
Definition ring_test : outcome unit :=
  ring ← producer_new 3;
  let '(ring, r) := push ring Trb_default in
  assert! is_eq r (Ok 0%nat);
  let '(ring, r) := push ring Trb_default in
  assert! is_eq r (Ok 1%nat);
  let '(ring, r) := push ring Trb_default in
  assert! is_eq r (Ok 2%nat);
  let '(ring, r) := push ring Trb_default in
  assert! is_eq r (Err Full);
  assert! negb (pr_cycle ring);
  link ← unwrap (producer_get ring 3);
  assert! Z.land (control link) TRB_CYCLE =? 0;
  events ← event_new 2;
  '(events, r) ← pop events;
  assert! is_eq r (Err Empty);
  let '(events, r) := publish events Trb_default in
  _ ← unwrap_ok r;
  '(events, r) ← pop events;
  assert! is_ok r;
  assert! bool_decide (consumer_index events = 1%nat);
  Done tt.

(** @ xhci/usb.rs:457-589 test *)
Definition usb_test : outcome unit :=
  cap ← unwrap (supported_protocol (Z.lor 2 (Z.shiftl 2 24)) (Z.lor 2 (Z.shiftl 4 8)));
  assert! usb2 cap;
  assert! port_start cap =? 2;
  assert! port_count cap =? 4;
  assert! is_eq (supported_protocol (Z.lor 1 (Z.shiftl 3 24)) (Z.lor 1 (Z.shiftl 1 8))) None;
  assert! is_eq (supported_protocol (Z.lor 2 (Z.shiftl 2 24)) 0) None;
  assert! usb2_max_packet 3 =? 64;
  assert! usb2_max_packet 2 =? 8;
  let addressed := PortAddressed 1 3 64 in
  assert! is_eq (advance_port PortDisconnected true true true 1 3) addressed;
  assert! is_eq (advance_port PortDisconnected true false true 1 3) PortFailed;
  assert! is_eq (advance_port PortReset true true false 0 3) PortFailed;
  assert! is_eq (advance_port addressed true true true 2 3) addressed;
  let config := [9; 2; 25; 0; 1; 1; 0; 0x80; 50; 9; 4; 0; 0; 1; 3; 1; 1; 0; 7; 5; 0x81; 3; 8; 0; 10] in
  r ← parse_hid_boot_endpoint config;
  endpoint ← unwrap_ok r;
  assert! hid_interval endpoint =? 10;
  let zero_configuration_value := [9; 2; 25; 0; 1; 0; 0; 0x80; 50; 9; 4; 0; 0; 1; 3; 1; 1; 0; 7; 5; 0x81; 3; 8; 0; 10] in
  r ← parse_hid_boot_endpoint zero_configuration_value;
  assert! is_eq r (Err MissingConfiguration);
  let mixed := [9; 2; 48; 0; 2; 1; 0; 0x80; 50; 9; 4; 0; 0; 1; 3; 1; 1; 0; 7; 5; 0x81; 3; 8; 0; 10; 9; 4;
    1; 0; 2; 8; 6; 0x50; 0; 7; 5; 0x02; 2; 64; 0; 0; 7; 5; 0x83; 2; 64; 0; 0] in
  r ← parse_msc_bot_interface mixed;
  msc ← unwrap_ok r;
  assert! msc_interface_number msc =? 1;
  assert! ep_address (msc_bulk_out msc) =? 0x02;
  assert! ep_address (msc_bulk_in msc) =? 0x83;
  r ← parse_hid_boot_endpoint mixed;
  endpoint ← unwrap_ok r;
  assert! hid_interface_number endpoint =? 0;
  let alternate_only := [9; 2; 32; 0; 1; 1; 0; 0x80; 50; 9; 4; 0; 1; 2; 8; 6; 0x50; 0; 7; 5; 0x02; 2; 64; 0; 0; 7;
    5; 0x83; 2; 64; 0; 0] in
  r ← parse_msc_bot_interface alternate_only;
  assert! is_eq r (Err Unsupported);
  let missing_bulk_out := [9; 2; 25; 0; 1; 1; 0; 0x80; 50; 9; 4; 0; 0; 1; 8; 6; 0x50; 0; 7; 5; 0x81; 2; 64; 0; 0] in
  r ← parse_msc_bot_interface missing_bulk_out;
  assert! is_eq r (Err Unsupported);
  r ← parse_hid_boot_endpoint [0; 2];
  e ← unwrap_err r; assert! is_eq e ZeroLength;
  r ← parse_hid_boot_endpoint [1; 2];
  e ← unwrap_err r; assert! is_eq e InvalidLength;
  r ← parse_hid_boot_endpoint [10; 2; 10; 0; 0; 1; 0; 0x80; 50; 0];
  e ← unwrap_err r; assert! is_eq e InvalidLength;
  r ← parse_hid_boot_endpoint [9; 2; 0];
  e ← unwrap_err r; assert! is_eq e Truncated;
  r ← parse_hid_boot_endpoint [9; 2; 13; 0; 1; 1; 0; 0x80; 50; 4; 4; 0; 0];
  e ← unwrap_err r; assert! is_eq e InvalidLength;
  r ← parse_hid_boot_endpoint [9; 2; 25; 0; 1; 1; 0; 0x80; 50; 9; 4; 0; 0; 1; 3; 1; 1; 0; 5; 5; 0x81; 3; 8; 0];
  e ← unwrap_err r; assert! is_eq e Truncated;
  r ← parse_hid_boot_endpoint [9; 2; 18; 0; 1; 1; 0; 0x80; 50; 9; 4; 0; 0; 0; 3; 1; 1; 0];
  e ← unwrap_err r; assert! is_eq e Unsupported;
  assert! sr_value (get_descriptor 2 9) =? Z.shiftl 2 8;
  assert! sr_value (set_configuration 3) =? 3;
  let protocol := mk_SupportedProtocol 2 0 1 1 true in
  let record := port_new 1 protocol 0 in
  let '(record, changes) := observe record (Z.lor PORTSC_CCS PORTSC_CSC) 10 in
  assert! changes =? PORTSC_CSC;
  assert! is_eq (pr_state record) (Debouncing 18);
  let generation := pr_generation record in
  assert! generation_matches record generation;
  assert! negb (generation_matches record (wrap 64 (generation - 1)));
  let record := mark_failed record 20 in
  assert! negb (retry_due record 20);
  assert! retry_due record 84;
  let record := mark_failed record 84 in
  assert! negb (retry_due record 148);
  assert! retry_due record 212;
  let '(record, _) := observe record PORTSC_PEC 90 in
  let '(record, changes) := acknowledge_changes record PORTSC_PEC in
  assert! changes =? PORTSC_PEC;
  let record := mark_active record in
  let '(record, _) := observe record PORTSC_CSC 100 in
  assert! is_eq (pr_state record) Removing;
  Done tt.

(** @ xhci/hid.rs:182-218 test *)
Definition hid_test : outcome unit :=
  assert! is_eq (set1_usage 0x04) (Some 0x1e);
  assert! is_eq (set1_usage 0x28) (Some 0x1c);
  assert! is_eq (set1_usage 0xe1) (Some 0x2a);
  assert! is_eq (set1_usage 0x65) None;
  let '(keyboard, codes) := for_each_scancode keyboard_new [0; 0; 0x04; 0; 0; 0; 0; 0] in
  '(scancodes, count) ← record_all codes (replicate 4 0) 0;
  let '(_, codes) := for_each_scancode keyboard [0; 0; 0; 0; 0; 0; 0; 0] in
  '(scancodes, count) ← record_all codes scancodes count;
  seen ← slice scancodes 0 count;
  assert! is_eq seen [0x1e; 0x9e];
  let '(_, moved) := for_each_event mouse_new [1; 2; 0xfe; 1] in
  '(events, count) ← record_all (Some <$> moved) (replicate 3 None) 0;
  seen ← slice events 0 count;
  assert! is_eq seen [Some (MouseButton ButtonLeft true); Some (MouseMove 2 2); Some (MouseScroll 1)];
  Done tt.

(** @ xhci/msc.rs:362-413 test *)
Definition msc_test : outcome unit :=
  let packet := cbw 0x11223344 512 DirIn 0 (read10_cdb 0x01020304 1) in
  assert! llen packet =? CBW_LEN;
  signature ← slice packet 0 4;
  assert! is_eq signature (bytes_of "USBC");
  tag ← slice packet 4 8;
  assert! is_eq tag [0x44; 0x33; 0x22; 0x11];
  flag ← idx packet 12;
  assert! flag =? 0x80;
  block ← slice packet 15 25;
  assert! is_eq block [0x28; 0; 1; 2; 3; 4; 0; 0; 1; 0];
  assert! is_eq (read10_cdb 0x01020304 2) [0x28; 0; 1; 2; 3; 4; 0; 0; 2; 0];
  assert! is_eq (parse_capacity10 [0; 0; 0; 15; 0; 0; 2; 0]) (Ok (mk_Capacity 16 512));
  assert! is_eq (parse_capacity10 (replicate 8 0xff)) (Err Capacity16Required);
  let valid := [0x55; 0x53; 0x42; 0x53; 0x44; 0x33; 0x22; 0x11; 0; 0; 0; 0; 0] in
  csw ← unwrap_ok (csw_parse valid);
  assert! is_eq (csw_validate csw 0x11223344 0) (Ok tt);
  csw ← unwrap_ok (csw_parse valid);
  assert! is_eq (csw_validate csw 0 0) (Err InvalidCswTag);
  let residue := [0x55; 0x53; 0x42; 0x53; 0x44; 0x33; 0x22; 0x11; 1; 0; 0; 0; 0] in
  csw ← unwrap_ok (csw_parse residue);
  assert! is_eq (csw_validate csw 0x11223344 512) (Err InvalidResidue);
  let failed := [0x55; 0x53; 0x42; 0x53; 0x44; 0x33; 0x22; 0x11; 0; 0; 0; 0; 1] in
  csw ← unwrap_ok (csw_parse failed);
  assert! is_eq (csw_validate csw 0x11223344 0) (Err CommandFailed);
  assert! is_eq (recovery_for Stall) ResetAndClearHalts;
  assert! is_eq (recovery_for CommandFailed) Offline;
  assert! sr_index (get_max_lun 3) =? 3;
  assert! sr_request (bot_reset 3) =? 0xff;
  Done tt.

(** The second wait counts its calls in a variable of the test. *)
Definition second_call : prog Z Empty_set bool := p_modify (fun n => n + 1) ;! n ←! p_get; p_ret (n =? 2).
Definition finished {S A} (m : prog S Empty_set A) (s : S) : outcome A :=
  '(_, r) ← m s; match r with Ok a => Done a | Err e => match (e : Empty_set) with end end.
(** @ xhci/controller.rs:2416-2448 test *)
Definition controller_test : outcome unit :=
  ready ← finished (wait_for 3 (p_ret false)) tt;
  assert! negb ready;
  ready ← finished (wait_for 3 second_call) 0;
  assert! (ready : bool);
  let completion := mk_Trb 0x4000 (Z.shiftl 1 24) (Z.lor TRB_TYPE_COMMAND_COMPLETION TRB_CYCLE) in
  assert! is_eq (command_completion completion 0x4000) (Some Success);
  assert! is_eq (command_completion completion 0x4010) None;
  assert! is_eq (command_completion (mk_Trb (parameter completion) (status completion) TRB_CYCLE) 0x4000) None;
  assert! msi_data_offset 0x40 0 =? 0x48;
  assert! msi_data_offset 0x40 MSI_CONTROL_64BIT =? 0x4c;
  Done tt.

(** @ xhci/mod.rs:19-28 test *)
Definition xhci_test : outcome unit :=
  _ ← bulk_test; _ ← trb_test; _ ← ring_test; _ ← usb_test; _ ← hid_test; _ ← msc_test; controller_test.
Lemma xhci_test_passes : xhci_test = Done tt.
Proof. by vm_compute. Qed.
Lemma pcie_test_passes : pcie_test = Done tt.
Proof. by vm_compute. Qed.
Lemma inputdev_test_passes : inputdev_test = Done tt.
Proof. by vm_compute. Qed.

(** ** Memory *)

Section Allocators.
Context `{BitField} (off : Z).
Implicit Types (pm : PageMan) (m : memory).

Fixpoint alloc_each (n : nat) pm : outcome (PageMan * list Z) :=
  match n with
  | O => Done (pm, [])
  | S n =>
      '(pm, r) ← alloc_physical_page pm;
      itm ← unwrap r;
      '(pm, addresses) ← alloc_each n pm;
      Done (pm, itm :: addresses)
  end.
Definition dealloc_each (addresses : list Z) pm : outcome PageMan :=
  fold_outcome (fun pm itm => '(pm, _) ← dealloc_physical_page pm itm; Done pm) addresses pm.
(** @ mm/page_alloc.rs:191-207 test *)
Definition page_alloc_test pm : outcome PageMan :=
  '(pm, addresses) ← alloc_each 10 pm;
  pm ← dealloc_each addresses pm;
  '(pm, addresses) ← alloc_each 10 pm;
  dealloc_each addresses pm.

Definition is_dma_error (r : result DmaBuffer DmaError) (e : DmaError) : bool :=
  match r, e with
  | Err DmaEmpty, DmaEmpty | Err InvalidAlignment, InvalidAlignment | Err OutOfMemory, OutOfMemory => true
  | _, _ => false
  end.
(** Buffers are read through the direct map. *)
(** @ mm/dma.rs:219-258 test *)
Definition dma_test pm m : outcome (PageMan * memory) :=
  range ← unwrap_ok (page_range_new 0x1234 PAGE_SIZE);
  assert! is_eq range (mk_PageRange 0x1000 2 0x234);
  assert! is_eq (page_range_new 0 0) (Err MmioEmpty);
  assert! is_eq (page_range_new (2 ^ 64 - 1 - 1) PAGE_SIZE) (Err AddressOverflow);
  '(pm, m, r) ← dma_new off pm m 0 PAGE_SIZE;
  assert! is_dma_error r DmaEmpty;
  '(pm, m, r) ← dma_new off pm m PAGE_SIZE 3;
  assert! is_dma_error r InvalidAlignment;
  let alignment := PAGE_SIZE * 2 in
  '(pm, m, r) ← dma_new off pm m (PAGE_SIZE + 1) alignment;
  dma ← unwrap_ok r;
  assert! dma_pages dma =? 2;
  assert! dma_len dma =? 2 * PAGE_SIZE;
  assert! dma_physical_address dma mod alignment =? 0;
  assert! forallb (fun a => m a =? 0) (seqZ (dma_virtual_address dma - off) (dma_len dma));
  let physical_address := dma_physical_address dma in
  '(pm, _) ← dma_drop pm dma;
  '(pm, m, r) ← dma_new off pm m (PAGE_SIZE + 1) alignment;
  replacement ← unwrap_ok r;
  assert! dma_physical_address replacement =? physical_address;
  '(pm, _) ← dma_drop pm replacement;
  Done (pm, m).

(** The calls of [kmain]; that of the input devices comes a few lines earlier. *)
(** @ main.rs:65-68 kmain -- the self-tests *)
Definition self_tests pm m : outcome (PageMan * memory) :=
  _ ← inputdev_test;
  _ ← pcie_test;
  pm ← page_alloc_test pm;
  '(pm, m) ← dma_test pm m;
  _ ← xhci_test;
  Done (pm, m).

(** *** Equal allocators *)

Definition same_pages pm pm' : Prop := same_but pm pm' (fun _ => False).
Lemma same_pages_free pm pm' i : same_pages pm pm' -> 0 <= i -> free pm' i = free pm i.
Proof. intros Hs Hi. apply (sb_free _ _ _ Hs); [done|]. by intros []. Qed.
#[export] Instance same_pages_preorder : PreOrder same_pages.
Proof.
  split; [by split|]. intros a b c Hab Hbc. pose proof Hab as [Hl1 Hr1 _]. pose proof Hbc as [Hl2 Hr2 _].
  split; [congruence|congruence|]. intros i Hi _. by rewrite (same_pages_free b c), (same_pages_free a b).
Qed.
#[export] Instance pm_wf_same : Proper (same_pages ==> impl) pm_wf.
Proof. intros a b [Hl _ _] Hw. unfold pm_wf in *. by rewrite Hl. Qed.
#[export] Instance free_pages_same : Proper (same_pages ==> eq ==> impl) free_pages.
Proof.
  intros a b Hab n n' <- (ps & Hl & Hn & Hps). exists ps. split; [done|]. split; [done|]. intros p Hp.
  destruct (Hps p Hp) as [H0 Hf]. by rewrite (same_pages_free a b).
Qed.
(** What was taken and is given back leaves no trace. *)
Lemma same_undone pm pm1 pm2 (P : Z -> Prop) :
  same_but pm pm1 P -> same_but pm1 pm2 P -> (forall i, P i -> free pm i = true /\ free pm2 i = true) -> (forall i, P i \/ ~ P i) ->
  same_pages pm pm2.
Proof.
  intros [Hl1 Hr1 Hf1] [Hl2 Hr2 Hf2] HP Hd. split; [congruence|congruence|]. intros i Hi _. destruct (Hd i) as [Hp|Hp].
  - destruct (HP i Hp) as [-> ->]. done.
  - by rewrite Hf2, Hf1.
Qed.

(** *** Single pages *)

Lemma alloc_each_spec n : forall pm, pm_wf pm -> free_pages pm n ->
  exists pm' is_, alloc_each n pm = Done (pm', (fun i => i * PAGE_SIZE) <$> is_) /\ NoDup is_ /\
    (forall i, i ∈ is_ -> 0 <= i < pm_len pm /\ free pm i = true /\ free pm' i = false) /\ same_but pm pm' (fun i => i ∈ is_).
Proof.
  induction n as [|n IH]; intros pm Hwf Hfree; cbn [alloc_each].
  { exists pm, []. split; [done|]. split; [constructor|]. split; [by intros i ?%elem_of_nil|by split]. }
  destruct (alloc_page_spec pm Hwf) as (pm1 & r & -> & Hr). cbn [mbind outcome_bind].
  destruct r as [a|].
  2: { destruct Hr as [_ Hnone], Hfree as (ps & Hl & _ & Hps). destruct ps as [|p ps]; [done|]. destruct (Hps p) as [H0 Hf]; [by left|].
       by rewrite Hnone in Hf. }
  destruct Hr as (i & -> & Hi & Hfi & _ & Hfi' & Hs). cbn [unwrap mbind outcome_bind].
  destruct (IH pm1) as (pm2 & is_ & -> & Hnd & Hall & Hs2); [unfold pm_wf in *; by rewrite (sb_len _ _ _ Hs)|by eapply free_pages_take|].
  cbn [mbind outcome_bind]. pose proof Hs as [Hl1 Hr1 Hf1]. pose proof Hs2 as [Hl2 Hr2 Hf2].
  assert (i ∉ is_) as Hnin by (intros Hin; destruct (Hall i Hin) as (_ & Hft & _); congruence).
  exists pm2, (i :: is_). split; [done|]. split; [by constructor|]. split.
  - intros j [->|Hj]%elem_of_cons; [split_and!; [lia|lia|done|rewrite Hf2; [done|lia|done]]|].
    destruct (Hall j Hj) as (Hj1 & Hj2 & Hj3). split_and!; [lia|lia| |done]. rewrite <- Hf1; [done|lia|]. intros ->. done.
  - split; [congruence|congruence|]. intros j Hj Hn. rewrite elem_of_cons in Hn. rewrite Hf2, Hf1; [done|done|naive_solver|done|naive_solver].
Qed.
Lemma dealloc_each_spec is_ : forall pm, NoDup is_ -> (forall i, i ∈ is_ -> 0 <= i < pm_len pm) ->
  exists pm', dealloc_each ((fun i => i * PAGE_SIZE) <$> is_) pm = Done pm' /\ (forall i, i ∈ is_ -> free pm' i = true) /\ same_but pm pm' (fun i => i ∈ is_).
Proof.
  induction is_ as [|i is_ IH]; intros pm Hnd Hr.
  { exists pm. split; [done|]. split; [by intros i ?%elem_of_nil|by split]. }
  apply NoDup_cons in Hnd as [Hi Hnd]. unfold dealloc_each. cbn [fmap list_fmap fold_outcome].
  destruct (dealloc_page_spec pm i) as (pm1 & -> & Hfi & [Hl1 Hr1 Hf1]); [apply Hr; left|]. cbn [mbind outcome_bind].
  destruct (IH pm1) as (pm2 & Hd & Hall & [Hl2 Hr2 Hf2]); [done|intros j Hj; rewrite Hl1; apply Hr; by right|].
  exists pm2. split; [exact Hd|]. assert (0 <= i) by (apply Hr; left). split.
  - intros j [->|Hj]%elem_of_cons; [by rewrite Hf2|by apply Hall].
  - split; [congruence|congruence|]. intros j Hj Hn. rewrite elem_of_cons in Hn. rewrite Hf2, Hf1; [done|done|naive_solver|done|naive_solver].
Qed.
Lemma alloc_dealloc_each n pm : pm_wf pm -> free_pages pm n ->
  exists pm1 addresses pm2, alloc_each n pm = Done (pm1, addresses) /\ dealloc_each addresses pm1 = Done pm2 /\ same_pages pm pm2.
Proof.
  intros Hwf Hf. destruct (alloc_each_spec n pm Hwf Hf) as (pm1 & is_ & Ha & Hnd & Hall & Hs).
  destruct (dealloc_each_spec is_ pm1) as (pm2 & Hd & Hfree & Hs2); [done|intros i Hi; rewrite (sb_len _ _ _ Hs); by apply Hall|].
  eexists _, _, _. split; [exact Ha|]. split; [exact Hd|]. eapply same_undone; [exact Hs|exact Hs2| |].
  - intros i Hi. split; [by apply Hall|by apply Hfree].
  - intros i. destruct (decide (i ∈ is_)); auto.
Qed.
Lemma page_alloc_test_passes pm : pm_wf pm -> free_pages pm 10 -> exists pm', page_alloc_test pm = Done pm' /\ same_pages pm pm'.
Proof.
  intros Hwf Hf. unfold page_alloc_test. destruct (alloc_dealloc_each 10 pm Hwf Hf) as (pm1 & l & pm2 & -> & Hd & Hs).
  cbn [mbind outcome_bind]. rewrite Hd. cbn [mbind outcome_bind]. rewrite Hs in Hwf, Hf.
  destruct (alloc_dealloc_each 10 pm2 Hwf Hf) as (pm3 & l' & pm4 & -> & Hd' & Hs'). cbn [mbind outcome_bind].
  exists pm4. split; [exact Hd'|]. by rewrite Hs.
Qed.

(** *** A buffer of two aligned pages *)

Definition pair_at pm (s : Z) : Prop := run_at pm 2 2 s.
Definition first_pair pm (s : Z) : Prop := pair_at pm s /\ forall s', pair_at pm s' -> s <= s'.
Lemma pair_at_same pm pm' s : same_pages pm pm' -> pair_at pm s -> pair_at pm' s.
Proof. intros Hs (H0 & Hf & Hm). split; [done|]. split; [|done]. intros i Hi. rewrite (same_pages_free pm pm'); [by apply Hf|done|lia]. Qed.
Lemma first_pair_same pm pm' s s' : same_pages pm pm' -> first_pair pm s -> first_pair pm' s' -> s = s'.
Proof.
  intros Hs [Hp Hmin] [Hp' Hmin']. apply Z.le_antisymm; [apply Hmin|apply Hmin'; by eapply pair_at_same].
  destruct Hp' as (H0 & Hf & Hm). split; [done|]. split; [|done]. intros i Hi. rewrite <- (same_pages_free pm pm'); [by apply Hf|done|lia].
Qed.

Definition test_buffer (s : Z) : DmaBuffer := mk_DmaBuffer (s * PAGE_SIZE) (s * PAGE_SIZE + off) 2 (PAGE_SIZE * 2).
Lemma new_test_buffer pm m :
  pm_wf pm -> free pm 0 = false -> 0 < off -> off + pm_len pm * PAGE_SIZE <= 2 ^ 64 -> (exists s, pair_at pm s) ->
  exists pm1 s pm2, dma_new off pm m (PAGE_SIZE + 1) (PAGE_SIZE * 2) = Done (pm1, write_bytes m (s * PAGE_SIZE) 0 (2 * PAGE_SIZE), Ok (test_buffer s)) /\
    dma_drop pm1 (test_buffer s) = Done (pm2, []) /\ same_pages pm pm2 /\ first_pair pm s.
Proof.
  intros Hwf Hz Hoff Hoff2 [s0 Hs0].
  destruct (dma_new_spec off pm m (PAGE_SIZE + 1) (PAGE_SIZE * 2)) as (pm1 & m1 & r & Hnew & Hr); [done..|unfold PAGE_SIZE; lia|unfold PAGE_SIZE; lia|].
  pose proof Hnew as Hrun. unfold dma_new in Hrun.
  change (PAGE_SIZE + 1 =? 0) with false in Hrun. change (negb (is_power_of_two (PAGE_SIZE * 2))) with false in Hrun.
  change (checked_add 64 (PAGE_SIZE + 1) (PAGE_SIZE - 1)) with (Some 8192) in Hrun. change (Z.max (PAGE_SIZE * 2) PAGE_SIZE) with 8192 in Hrun.
  cbv beta zeta iota in Hrun. change (8192 / PAGE_SIZE) with 2 in Hrun.
  destruct (find_aligned_reserved pm 2 8192) as (pm1' & ra & Hfind & Hres); [done|done|lia|done|unfold PAGE_SIZE; lia|done|].
  rewrite Hfind in Hrun. cbn [mbind outcome_bind] in Hrun. change (8192 / PAGE_SIZE) with 2 in Hres.
  destruct ra as [a|]; [|by destruct Hres as [_ Hno]; destruct (Hno s0)].
  destruct Hres as (s & -> & Hp & Hmin & _ & _).
  assert (0 <= s /\ s + 2 <= pm_len pm) as [Hs1 Hs2].
  { destruct Hp as (H0 & Hf & _). split; [done|]. pose proof (free_range pm (s + 1) ltac:(lia) ltac:(apply Hf; lia)). lia. }
  unfold phys_to_virt, add_ovf, mul_ovf, pm_wf, PAGE_SIZE in *.
  rewrite (proj2 (Z.ltb_lt (s * 4096 + off) _)) in Hrun by lia. cbn [mbind outcome_bind] in Hrun.
  rewrite (proj2 (Z.eqb_neq (s * 4096 + off) 0)) in Hrun by lia. change (2 * 4096 <? 2 ^ 64) with true in Hrun. cbn [negb mbind outcome_bind] in Hrun.
  injection Hrun as <- <- <-. destruct Hr as (_ & pm2 & Hdrop & Hsame). by exists pm1', s, pm2.
Qed.
Lemma pair_aligned s : is_multiple_of s 2 = true -> (dma_physical_address (test_buffer s) mod (PAGE_SIZE * 2) =? 0) = true.
Proof.
  intros Hm. cbn in Hm. apply Z.eqb_eq, Z.div_exact in Hm; [|done]. apply Z.eqb_eq. cbn [dma_physical_address test_buffer]. unfold PAGE_SIZE.
  rewrite Hm. replace (2 * (s / 2) * 4096) with (s / 2 * (4096 * 2)) by lia. apply Z.mod_mul. lia.
Qed.
Lemma dma_test_passes pm m :
  pm_wf pm -> free pm 0 = false -> 0 < off -> off + pm_len pm * PAGE_SIZE <= 2 ^ 64 -> (exists s, pair_at pm s) ->
  exists pm' m' s, dma_test pm m = Done (pm', m') /\ same_pages pm pm' /\ pair_at pm s /\
    forall a, m' a = m a \/ m' a = 0 /\ s * PAGE_SIZE <= a < (s + 2) * PAGE_SIZE.
Proof.
  intros Hwf Hz Hoff Hoff2 Hp. destruct (new_test_buffer pm m) as (pm1 & s & pm2 & Hnew & Hdrop & Hs & Hfirst); [done..|].
  set (m1 := write_bytes m (s * PAGE_SIZE) 0 (2 * PAGE_SIZE)) in *.
  destruct (new_test_buffer pm2 m1) as (pm3 & s' & pm4 & Hnew2 & Hdrop2 & Hs2 & Hfirst2);
    [by rewrite <- Hs|by rewrite (same_pages_free pm pm2)|done|by rewrite (sb_len _ _ _ Hs)|destruct Hp as [s0 Hp]; exists s0; by eapply pair_at_same|].
  pose proof (first_pair_same _ _ _ _ Hs Hfirst Hfirst2) as <-.
  exists pm4, (write_bytes m1 (s * PAGE_SIZE) 0 (2 * PAGE_SIZE)), s. split; [|split; [by rewrite Hs|split; [apply Hfirst|]]].
  - unfold dma_test. change (unwrap_ok (page_range_new 0x1234 PAGE_SIZE)) with (@Done PageRange (mk_PageRange 0x1000 2 0x234)). cbn [mbind outcome_bind].
    rewrite !bool_decide_true by reflexivity.
    assert (dma_new off pm m 0 PAGE_SIZE = Done (pm, m, Err DmaEmpty)) as -> by done. cbn [mbind outcome_bind is_dma_error].
    assert (dma_new off pm m PAGE_SIZE 3 = Done (pm, m, Err InvalidAlignment)) as -> by done. cbn [mbind outcome_bind is_dma_error].
    rewrite Hnew. cbn [mbind outcome_bind unwrap_ok]. rewrite Hdrop. cbn [mbind outcome_bind]. rewrite Hnew2. cbn [mbind outcome_bind unwrap_ok]. rewrite Hdrop2.
    change (dma_pages (test_buffer s) =? 2) with true. change (dma_len (test_buffer s) =? 2 * PAGE_SIZE) with true.
    rewrite Z.eqb_refl. destruct Hfirst as [(_ & _ & Hmul) _]. rewrite pair_aligned by done.
    assert (forallb (fun a => m1 a =? 0) (seqZ (dma_virtual_address (test_buffer s) - off) (dma_len (test_buffer s))) = true) as ->; [|done].
    apply forallb_forall. intros a Ha%list_elem_of_In%elem_of_seqZ. change (dma_len (test_buffer s)) with (2 * PAGE_SIZE) in Ha. cbn [dma_virtual_address test_buffer] in Ha.
    unfold m1, write_bytes. by rewrite bool_decide_true by lia.
  - intros a. unfold m1, write_bytes. unfold PAGE_SIZE. case_bool_decide; [right; split; [done|lia]|]. by left.
Qed.
End Allocators.

(** ** The theorem *)

(** C11: The self-tests of a boot never stop it: every assertion of the modules holds,
    and on any allocator with ten free pages and an aligned pair of free pages the two
    tests of the allocators succeed as well - the second buffer is where the first
    was -, give back every page they took, leave every reference count, and write
    nothing but zeros into pages that were free. *)
Theorem boot_self_tests_pass `{BitField} (off : Z) (pm : PageMan) (m : memory) :
  pm_wf pm -> free pm 0 = false -> 0 < off -> off + pm_len pm * PAGE_SIZE <= 2 ^ 64 ->
  free_pages pm 10 -> (exists s, run_at pm 2 2 s) ->
  exists pm' m', self_tests off pm m = Done (pm', m') /\ same_but pm pm' (fun _ => False) /\
    forall a, m' a = m a \/ m' a = 0 /\ free pm (a / PAGE_SIZE) = true.
Proof.
  intros Hwf Hz Hoff Hoff2 Hfree [s0 Hs0]. unfold self_tests.
  rewrite inputdev_test_passes, pcie_test_passes, xhci_test_passes. cbn [mbind outcome_bind].
  destruct (page_alloc_test_passes pm Hwf Hfree) as (pm1 & -> & Hs1). cbn [mbind outcome_bind].
  destruct (dma_test_passes off pm1 m) as (pm2 & m2 & s & -> & Hs2 & (H0 & Hf & _) & Hm);
    [by rewrite <- Hs1|by rewrite (same_pages_free pm pm1)|done|by rewrite (sb_len _ _ _ Hs1)|exists s0; by eapply pair_at_same|].
  exists pm2, m2. split; [done|]. split; [change (same_pages pm pm2); by transitivity pm1|]. intros a. destruct (Hm a) as [->|[-> Ha]]; [by left|right]. split; [done|].
  unfold PAGE_SIZE in *. pose proof (Z.div_mod a 4096 ltac:(lia)). pose proof (Z.mod_pos_bound a 4096 ltac:(lia)).
  rewrite <- (same_pages_free pm pm1) by (done || lia). apply Hf. lia.
Qed.

Definition test_pm : PageMan := mk_PageMan [0xfffffe] (replicate 64 0).
Lemma boot_self_tests_pass_witness :
  exists pm' m', self_tests (H := z_bit_field) 0xffff800000000000 test_pm (fun _ => 7) = Done (pm', m') /\
    forall a, m' a = 7 \/ m' a = 0 /\ free (H := z_bit_field) test_pm (a / PAGE_SIZE) = true.
Proof.
  destruct (boot_self_tests_pass (H := z_bit_field) 0xffff800000000000 test_pm (fun _ => 7)) as (pm' & m' & Hr & _ & Hm).
  - by vm_compute.
  - reflexivity.
  - lia.
  - by vm_compute.
  - exists (seqZ 1 10). split; [reflexivity|]. split; [apply NoDup_seqZ|]. intros p Hp%elem_of_seqZ. split; [lia|].
    assert (p = 1 \/ p = 2 \/ p = 3 \/ p = 4 \/ p = 5 \/ p = 6 \/ p = 7 \/ p = 8 \/ p = 9 \/ p = 10) as Hin by lia.
    by destruct_or!; subst.
  - exists 2. split; [lia|]. split; [|reflexivity]. intros i Hi. assert (i = 2 \/ i = 3) as [->| ->] by lia; reflexivity.
  - exists pm', m'. split; [exact Hr|exact Hm].
Defined.
