(* ===== verification/Partition.v ===== *)
(** * GPT partitions: [blockdev/partition/mod.rs] *)

From S2P Require Import Prelude Words Vfs Block.

(** [gpt_disk_io]: reading the primary header and the entry array of a clone of
    the device; an entry is its first and last LBA. *)
Class Gpt (W T : Type) := {
  GptHeader : Type;
  GptLayout : Type;
  gpt_block_size : T -> option Z;
  gpt_disk_new : W -> T -> outcome (W * result unit unit);
  gpt_read_header : W -> T -> outcome (W * result GptHeader unit);
  gpt_signature_valid : GptHeader -> bool;
  gpt_entry_layout : GptHeader -> result GptLayout unit;
  gpt_nth_entry : W -> T -> GptLayout -> Z -> outcome (W * result (option (result (Z * Z) unit)) unit);
}.

(** @ blockdev/partition/mod.rs:25-31 PartitionError *)
Inductive PartitionError := InvalidGpt | PartitionNotFound | UnsupportedBlockSize | OffsetOverflow | SeekFailed.

(** @ blockdev/partition/mod.rs:17-22 Partition *)
Record Partition (T : Type) := mk_Partition { block_device : T; start : Z; stop : Z; position : Z }.
Arguments mk_Partition {T}.
Arguments block_device {T}.
Arguments start {T}.
Arguments stop {T}.
Arguments position {T}.

(** [fatfs::Error] of a partition over a device with errors [E]. *)
Inductive FatError (E : Type) := FatIoError (e : E) | InvalidInput.
Arguments FatIoError {E}.
Arguments InvalidInput {E}.

Section Partitions.
Context {W T E : Type} `{FatIo W T E}.
Implicit Types (w : W) (p : Partition T).

(** @ blockdev/partition/mod.rs:49-90 Partition::new *)
Definition partition_new `{Gpt W T} w (device : T) (part_number : Z) : outcome (W * result (Partition T) PartitionError) :=
  match gpt_block_size device with
  | None => Done (w, Err UnsupportedBlockSize)
  | Some block_size =>
      '(w, disk) ← gpt_disk_new w device;
      match disk with Err _ => Done (w, Err InvalidGpt) | Ok _ =>
      '(w, header) ← gpt_read_header w device;
      match header with Err _ => Done (w, Err InvalidGpt) | Ok header =>
      if negb (gpt_signature_valid header) then Done (w, Err InvalidGpt) else
      match gpt_entry_layout header with Err _ => Done (w, Err InvalidGpt) | Ok layout =>
      '(w, entry) ← gpt_nth_entry w device layout part_number;
      match entry with
      | Err _ => Done (w, Err InvalidGpt)
      | Ok None => Done (w, Err PartitionNotFound)
      | Ok (Some (Err _)) => Done (w, Err InvalidGpt)
      | Ok (Some (Ok (starting_lba, ending_lba))) =>
          match checked_mul 64 starting_lba block_size,
                (l ← checked_add 64 ending_lba 1; checked_mul 64 l block_size) with
          | Some start, Some stop =>
              '(w, device, r) ← fio_seek w device (SeekStart start);
              match r with
              | Err _ => Done (w, Err SeekFailed)
              | Ok _ => Done (w, Ok (mk_Partition device start stop 0))
              end
          | _, _ => Done (w, Err OffsetOverflow)
          end
      end end end end
  end.

(** @ blockdev/partition/mod.rs:106-115 Read::Partition::read *)
Definition partition_read w p (buf : list Z) : outcome (W * Partition T * list Z * result Z (FatError E)) :=
  let remaining := saturating_sub (stop p) (saturating_add 64 (start p) (position p)) in
  let read_len := Z.min (llen buf) remaining in
  part ← slice buf 0 read_len;
  '(w, device, part, r) ← fio_read w (block_device p) part;
  buf ← splice buf 0 part;
  match r with
  | Err e => Done (w, mk_Partition device (start p) (stop p) (position p), buf, Err (FatIoError e))
  | Ok read => Done (w, mk_Partition device (start p) (stop p) (saturating_add 64 (position p) read), buf, Ok read)
  end.

(** @ blockdev/partition/mod.rs:122-124 Write::Partition::write *)
Definition partition_write w p (buf : list Z) : outcome (W * Partition T * result Z (FatError E)) :=
  '(w, device, r) ← fio_write w (block_device p) buf;
  Done (w, mk_Partition device (start p) (stop p) (position p), map_err FatIoError r).

(** @ blockdev/partition/mod.rs:135-154 Seek::Partition::seek *)
Definition partition_seek w p (pos : SeekFrom) : outcome (W * Partition T * result Z (FatError E)) :=
  next ← match pos with
    | SeekStart offset => Done offset
    | SeekEnd offset => l ← sub_ovf (stop p) (start p); Done (l + offset)
    | SeekCurrent offset => Done (position p + offset)
    end;
  length ← sub_ovf (stop p) (start p);
  if (next <? 0) || (length <? next) then Done (w, p, Err InvalidInput) else
  match checked_add 64 (start p) next with
  | None => Done (w, p, Err InvalidInput)
  | Some absolute =>
      '(w, device, r) ← fio_seek w (block_device p) (SeekStart absolute);
      match r with
      | Err e => Done (w, mk_Partition device (start p) (stop p) (position p), Err (FatIoError e))
      | Ok _ => Done (w, mk_Partition device (start p) (stop p) next, Ok next)
      end
  end.

#[global] Instance partition_io : FatIo W (Partition T) (FatError E) := {
  fio_read := partition_read;
  fio_write := partition_write;
  fio_seek := partition_seek;
}.

(** ** A partition of a byte device is a byte device *)

Context `{!ByteDevice W T E}.

(** The device stands where the partition does. *)
Record part_inv w p : Prop := {
  pi_dev : bd_inv w (block_device p);
  pi_pos : bd_pos (block_device p) = start p + position p;
  pi_start : 0 <= start p;
  pi_range : 0 <= position p <= stop p - start p;
  pi_size : stop p < 2 ^ 64;
}.

Lemma image_bytes_shift (img : Z -> Z) a pos n :
  image_bytes img (a + pos) n = image_bytes (fun i => img (a + i)) pos n.
Proof.
  unfold image_bytes. apply list_eq. intros i. rewrite !list_lookup_fmap. destruct (decide (i < Z.to_nat n)%nat).
  - rewrite !lookup_seqZ_lt by lia. cbn. do 2 f_equal. lia.
  - rewrite !lookup_seqZ_ge by lia. done.
Qed.

(** A prefix of a buffer filled in part: only the filled bytes change. *)
Lemma part_prefix (buf part img : list Z) n len :
  part = img ++ drop (Z.to_nat n) (take (Z.to_nat len) buf) ->
  llen img = n -> 0 <= n <= len -> len <= llen buf -> llen part = len ->
  take (Z.to_nat 0) buf ++ part ++ drop (Z.to_nat 0 + length part) buf = img ++ drop (Z.to_nat n) buf.
Proof.
  intros -> Hi Hn Hl Hp. change (Z.to_nat 0) with 0%nat. rewrite take_0. cbn [app Nat.add].
  assert (length (img ++ drop (Z.to_nat n) (take (Z.to_nat len) buf)) = Z.to_nat len) as -> by (unfold llen in Hp; lia).
  rewrite <- app_assoc. f_equal. rewrite <- (take_drop (Z.to_nat len) buf) at 3.
  rewrite drop_app_le by (rewrite length_take; unfold llen in *; lia). done.
Qed.

(** C29: A read from a partition returns the bytes of the device at the
    partition's offset plus its position, never one outside the partition, and
    advances the position by as many; a successful seek goes to an offset inside
    the partition.  Both keep the position of the device in step. *)
Theorem partition_confined w p (buf : list Z) (pos : SeekFrom) :
  part_inv w p ->
  (forall w' p' buf' n, fio_read w p buf = Done (w', p', buf', Ok n) ->
     0 <= n <= llen buf /\ position p + n <= stop p - start p /\
     buf' = image_bytes (fun i => bd_image w (block_device p) (start p + i)) (position p) n ++ drop (Z.to_nat n) buf /\
     part_inv w' p' /\ position p' = position p + n /\ start p' = start p /\ stop p' = stop p) /\
  (forall w' p' n, fio_seek w p pos = Done (w', p', Ok n) ->
     part_inv w' p' /\ position p' = n /\ 0 <= n <= stop p - start p /\ start p' = start p /\ stop p' = stop p).
Proof.
  intros [Hdev Hpos Hstart Hrange Hsize]. pose proof (llen_nonneg buf). split.
  - intros w' p' buf' n. cbn [fio_read partition_io]. unfold partition_read, saturating_sub, saturating_add.
    rewrite (Z.min_l (start p + position p)) by lia.
    replace (Z.max (stop p - (start p + position p)) 0) with (stop p - (start p + position p)) by lia.
    set (len := Z.min (llen buf) (stop p - (start p + position p))).
    rewrite slice_in_range by lia. cbn [mbind outcome_bind]. rewrite drop_0, Z.sub_0_r.
    assert (llen (take (Z.to_nat len) buf) = len) as Hl by (unfold llen in *; rewrite length_take; lia).
    destruct (fio_read w (block_device p) (take (Z.to_nat len) buf)) as [[[[w1 dev1] part1] [read|e]]| |] eqn:Er;
      cbn [mbind outcome_bind]; [| |done..].
    + destruct (bd_read _ _ _ _ _ _ _ Hdev Er) as (Hn & Hend & Hpart & Hdev1 & Hpos1 & _ & _). rewrite Hl in Hn.
      assert (llen part1 = len) as Hpl.
      { rewrite Hpart, llen_app, image_bytes_len by lia. unfold llen in *. rewrite length_drop. lia. }
      rewrite splice_in_range by lia. cbn [mbind outcome_bind]. intros [= <- <- <- <-]. cbn [position start stop block_device].
      rewrite Z.min_l by lia. rewrite Hpos in Hpart. split; [lia|]. split; [lia|]. split; [|split; [|done]].
      * rewrite <- image_bytes_shift. by apply (part_prefix _ _ _ _ len Hpart); rewrite ?image_bytes_len; lia.
      * split; cbn; [done|lia|lia|lia|lia].
    + destruct (splice _ _ _) as [b| |]; cbn [mbind outcome_bind]; done.
  - intros w' p' n. cbn [fio_seek partition_io]. unfold partition_seek, sub_ovf, checked_add.
    rewrite (proj2 (Z.leb_le _ _)) by lia.
    assert (exists next, (match pos with SeekStart offset => Done offset | SeekEnd offset => l ← Done (stop p - start p); Done (l + offset)
      | SeekCurrent offset => Done (position p + offset) end) = Done next) as [next ->] by (destruct pos; eexists; reflexivity).
    cbn [mbind outcome_bind]. destruct (Z.ltb_spec next 0); cbn [orb]; [done|].
    destruct (Z.ltb_spec (stop p - start p) next); [done|].
    rewrite (proj2 (Z.ltb_lt _ _)) by lia.
    destruct (fio_seek w (block_device p) (SeekStart (start p + next))) as [[[w1 dev1] [r|e]]| |] eqn:Es; cbn [mbind outcome_bind]; [|done..].
    assert (0 <= start p + next < 2 ^ 64) as Hr by lia.
    destruct (bd_seek _ _ _ _ _ _ Hdev Hr Es) as (Hdev1 & Hpos1 & Hs1 & _). intros [= <- <- <-].
    cbn [position start stop]. split; [|repeat split; lia].
    split; cbn; [done|lia|lia|lia|lia].
Qed.

(** Nothing checks that a GPT entry ends after it starts: on a disk whose
    table has an entry that ends before it starts the partition is created, and
    the first seek in it (the FAT layer starts with one) panics. *)
Theorem partition_bad_gpt_panics `{Gpt W T} w w' (device device' : T) (bs number first last n : Z)
    (header : GptHeader) (layout : GptLayout) :
  gpt_block_size device = Some bs -> gpt_disk_new w device = Done (w, Ok tt) ->
  gpt_read_header w device = Done (w, Ok header) -> gpt_signature_valid header = true ->
  gpt_entry_layout header = Ok layout -> gpt_nth_entry w device layout number = Done (w, Ok (Some (Ok (first, last)))) ->
  0 < bs -> 0 <= last -> last + 1 < first -> first * bs < 2 ^ 64 ->
  fio_seek w device (SeekStart (first * bs)) = Done (w', device', Ok n) ->
  exists p, partition_new w device number = Done (w', Ok p) /\ forall pos, partition_seek w' p pos = Panic.
Proof.
  intros H1 H2 H3 H4 H5 H6 Hbs Hl Hlt Hf Hs. unfold partition_new. rewrite H1, H2. cbn [mbind outcome_bind].
  rewrite H3. cbn [mbind outcome_bind]. rewrite H4. cbn [negb]. rewrite H5, H6. cbn [mbind outcome_bind].
  assert (checked_mul 64 first bs = Some (first * bs)) as -> by (unfold checked_mul; by rewrite (proj2 (Z.ltb_lt _ _))).
  unfold checked_add. rewrite (proj2 (Z.ltb_lt (last + 1) _)) by nia. cbn [mbind option_bind].
  assert (checked_mul 64 (last + 1) bs = Some ((last + 1) * bs)) as ->
    by (unfold checked_mul; rewrite (proj2 (Z.ltb_lt _ _)) by nia; done).
  rewrite Hs. cbn [mbind outcome_bind]. eexists. split; [reflexivity|]. intros pos. unfold partition_seek, sub_ovf.
  cbn [start stop position]. rewrite (proj2 (Z.leb_gt _ _)) by nia. by destruct pos.
Qed.
End Partitions.

(** ** Witnesses: a disk held in memory *)

#[local] Instance mem_io : FatIo (list Z) Z unit := {
  fio_read w pos buf :=
    let n := Z.min (llen buf) (Z.max 0 (llen w - pos)) in
    Done (w, pos + n, image_bytes (fun i => w !!! Z.to_nat i) pos n ++ drop (Z.to_nat n) buf, Ok n);
  fio_write w pos _ := Done (w, pos, Err tt);
  fio_seek w pos p := match p with SeekStart q => if q <=? llen w then Done (w, q, Ok q) else Done (w, pos, Err tt) | _ => Done (w, pos, Err tt) end;
}.
Program Definition mem_device (size : Z) : ByteDevice (list Z) Z unit := {|
  bd_inv w pos := llen w = size /\ 0 <= pos <= size;
  bd_pos pos := pos;
  bd_size _ := size;
  bd_image w _ i := w !!! Z.to_nat i;
|}.
Next Obligation. intros size w t [? ?]. done. Qed.
Next Obligation.
  intros size w t buf w' t' buf' n [Hw Ht]. cbn. intros [= <- <- <- <-]. pose proof (llen_nonneg buf).
  repeat split; try lia.
Qed.
Next Obligation.
  intros size w t p w' t' n [Hw Ht] Hp. cbn. destruct (Z.leb_spec p (llen w)); [|done]. intros [= <- <- <-]. repeat split; lia.
Qed.

Definition demo_disk : list Z := replicate 512 1 ++ replicate 512 2 ++ replicate 512 3.
Lemma partition_confined_witness :
  exists p' buf', fio_read demo_disk (mk_Partition 1000 512 1024 488) (replicate 30 9) = Done (demo_disk, p', buf', Ok 24) /\
    position p' = 512 /\ drop 24 buf' = replicate 6 9.
Proof.
  destruct (fio_read demo_disk (mk_Partition 1000 512 1024 488) (replicate 30 9)) as [[[[w' p'] buf'] r]| |] eqn:E;
    [|vm_compute in E; discriminate..].
  assert (r = Ok 24) as -> by (vm_compute in E; by injection E).
  destruct (proj1 (partition_confined (ByteDevice0 := mem_device 1536) demo_disk (mk_Partition 1000 512 1024 488)
    (replicate 30 9) (SeekStart 0) ltac:(split; cbn; [split; [reflexivity|lia]|lia..])) w' p' buf' 24 E)
    as (_ & _ & Hb & _ & Hp & _).
  assert (w' = demo_disk) as -> by (vm_compute in E; injection E as <- _ _; reflexivity).
  exists p', buf'. split; [reflexivity|]. split; [exact Hp|]. rewrite Hb. vm_compute. reflexivity.
Defined.

(** A GPT whose only entry starts at block 2 and ends at block 0. *)
#[local] Instance bad_gpt : Gpt (list Z) Z := {|
  GptHeader := unit; GptLayout := unit;
  gpt_block_size _ := Some 512;
  gpt_disk_new w _ := Done (w, Ok tt);
  gpt_read_header w _ := Done (w, Ok tt);
  gpt_signature_valid _ := true;
  gpt_entry_layout _ := Ok tt;
  gpt_nth_entry w _ _ n := Done (w, Ok (if n =? 0 then Some (Ok (2, 0)) else None));
|}.
Lemma partition_bad_gpt_panics_witness :
  exists p, partition_new demo_disk 0 0 = Done (demo_disk, Ok p) /\ partition_seek demo_disk p (SeekStart 0) = Panic.
Proof.
  destruct (partition_bad_gpt_panics demo_disk demo_disk 0 1024 512 0 2 0 1024
    (tt : GptHeader (Gpt := bad_gpt)) (tt : GptLayout (Gpt := bad_gpt))) as (p & Hp & Hs);
    try reflexivity; try lia.
  exists p. split; [exact Hp|apply Hs].
Defined.
