(* ===== verification/Builder.v ===== *)
(** * The image builder: [builder/src/lib.rs], [build_img] of [builder/src/main.rs]

    The host program that puts the kernel, the boot loader and the programs into FAT
    file systems and the boot file system into the one partition of a GPT disk.  The
    host's files are a map from paths to contents; [fatfs], [gpt] and [tempfile] are
    interfaces.  What the builder writes is what the kernel's partition layer reads. *)

From S2P Require Import Prelude Words Vfs Block Partition.

(** ** [std::path] *)

Definition strip_trailing (p : str) : str := rev (trim_start SLASH (rev p)).
Fixpoint skip_name (r : str) : str := match r with [] => [] | b :: r' => if b =? SLASH then r else skip_name r' end.
(** [Path::parent] of a path without [.] components. *)
Definition parent (p : str) : option str :=
  match rev (strip_trailing p) with
  | [] => None
  | q => match skip_name q with
         | [] => Some []
         | dir => Some (match trim_start SLASH dir with [] => [SLASH] | d => rev d end)
         end
  end.
(** [Path::ancestors]: every parent is shorter. *)
Fixpoint ancestors_loop (fuel : nat) (p : str) : list str :=
  p :: match fuel, parent p with S fuel, Some d => ancestors_loop fuel d | _, _ => [] end.
Definition ancestors (p : str) : list str := ancestors_loop (length p) p.
(** [Path::join]. *)
Definition join (a b : str) : str :=
  if starts_with b [SLASH] then b
  else if bool_decide (a = []) || bool_decide (last a = Some SLASH) then a ++ b else a ++ SLASH :: b.

(** The names between the slashes. *)
Fixpoint names_loop (acc p : str) : list str :=
  match p with
  | [] => match acc with [] => [] | _ => [rev acc] end
  | b :: p => if b =? SLASH then match acc with [] => names_loop [] p | _ => rev acc :: names_loop [] p end
              else names_loop (b :: acc) p
  end.
Definition names (p : str) : list str := names_loop [] p.
(** An absolute or relative path of these names. *)
Fixpoint join_names (ks : list str) : str :=
  match ks with [] => [] | [k] => k | k :: ks => k ++ SLASH :: join_names ks end.
Definition path_of (absolute : bool) (ks : list str) : str := (if absolute then [SLASH] else []) ++ join_names ks.

(** ** FAT volumes *)

(** Names are compared without case; the long names [fatfs] accepts. *)
Definition upper (c : Z) : Z := if (97 <=? c) && (c <=? 122) then c - 32 else c.
Definition valid_char (c : Z) : bool :=
  is_digit c || ((65 <=? upper c) && (upper c <=? 90)) || (0x80 <=? c) || bool_decide (c ∈ bytes_of "$%'-_@~`!(){}. +,;=[]^#&").
Definition valid_name (n : str) : bool :=
  negb (bool_decide (n = [])) && (llen n <=? 255) && forallb valid_char n
  && negb (bool_decide (n = bytes_of ".")) && negb (bool_decide (n = bytes_of "..")).
Definition fold_names (ks : list str) : list str := map upper <$> ks.
Definition key (p : str) : list str := fold_names (names p).

(** What a volume holds: directories and files under their folded names. *)
Inductive Node := DirNode | FileNode (content : list Z).
Abbreviation Tree := (gmap (list str) Node).

Inductive FatErr := NoSpace | WriteZero | FatOther.
(** [fatfs]: formatting and opening a volume; creating directories and files; the
    volume is complete when the file system has been dropped. *)
Class FatVolume := {
  FatFs : Type;
  FatHandle : Type;
  format_volume : list Z -> result (list Z) FatErr;
  fs_open : list Z -> result FatFs FatErr;
  fs_drop : FatFs -> list Z;
  create_dir : FatFs -> str -> FatFs * result unit FatErr;
  create_file : FatFs -> str -> FatFs * result FatHandle FatErr;
  file_truncate : FatFs -> FatHandle -> FatFs * FatHandle * result unit FatErr;
  file_write : FatFs -> FatHandle -> list Z -> FatFs * FatHandle * result Z FatErr;
  file_drop : FatFs -> FatHandle -> FatFs;
}.

Definition dir_at (t : Tree) (k : list str) : Prop := k = [] \/ t !! k = Some DirNode.
Definition FAT_MIN : Z := 1024 * 128.
Definition FAT_MAX : Z := 2 ^ 40.
Definition FILE_MAX : Z := 2 ^ 32.

(** Its documentation: a directory or a file can be created where its parent is a
    directory and no node of the other kind is in the way, unless the volume is
    full; creating a directory that exists opens it; a write takes at least one
    byte.  [fat_contents] is what any reader finds on a volume, whose last
    sector counts when it is whole. *)
Class FatLaws `{FatVolume} := {
  fat_contents : list Z -> option Tree;
  fs_view : FatFs -> Tree;
  fs_size : FatFs -> Z;
  handle_at : FatFs -> FatHandle -> list str -> Z -> Prop;
  format_ok v : FAT_MIN <= llen v < FAT_MAX ->
    exists v', format_volume v = Ok v' /\ llen v' = llen v /\ fat_contents v' = Some ∅;
  open_ok v t : fat_contents v = Some t -> exists s, fs_open v = Ok s /\ fs_view s = t /\ fs_size s = llen v;
  drop_ok s : fat_contents (fs_drop s) = Some (fs_view s) /\ llen (fs_drop s) = fs_size s;
  create_dir_ok s p ks k : names p = ks ++ [k] -> forallb valid_name (names p) = true ->
    dir_at (fs_view s) (fold_names ks) -> (forall c, fs_view s !! key p <> Some (FileNode c)) ->
    exists s', fs_size s' = fs_size s /\
      ((create_dir s p = (s', Ok tt) /\ fs_view s' = <[key p := DirNode]> (fs_view s)) \/ create_dir s p = (s', Err NoSpace));
  create_file_ok s p ks k : names p = ks ++ [k] -> forallb valid_name (names p) = true ->
    dir_at (fs_view s) (fold_names ks) -> fs_view s !! key p = None ->
    exists s', fs_size s' = fs_size s /\
      ((exists h, create_file s p = (s', Ok h) /\ fs_view s' = <[key p := FileNode []]> (fs_view s) /\ handle_at s' h (key p) 0)
       \/ create_file s p = (s', Err NoSpace));
  truncate_ok s h k : handle_at s h k 0 -> fs_view s !! k = Some (FileNode []) ->
    exists s' h', file_truncate s h = (s', h', Ok tt) /\ fs_size s' = fs_size s /\ fs_view s' = fs_view s /\ handle_at s' h' k 0;
  write_ok s h k c buf : handle_at s h k (llen c) -> fs_view s !! k = Some (FileNode c) -> buf <> [] -> llen c + llen buf < FILE_MAX ->
    exists s' h', fs_size s' = fs_size s /\
      ((exists n, file_write s h buf = (s', h', Ok n) /\ 0 < n <= llen buf /\
          fs_view s' = <[k := FileNode (c ++ take (Z.to_nat n) buf)]> (fs_view s) /\ handle_at s' h' k (llen c + n))
       \/ file_write s h buf = (s', h', Err NoSpace));
  close_ok s h : fs_view (file_drop s h) = fs_view s /\ fs_size (file_drop s h) = fs_size s;
  sectors_ok v : fat_contents (take (Z.to_nat (llen v / 512 * 512)) v) = fat_contents v;
}.

(** ** GPT disks *)

(** [gpt] over the bytes of the disk it was lent, and [ProtectiveMBR]. *)
Class GptWriter := {
  GptDisk : Type;
  overwrite_lba0 : Z -> list Z -> result (list Z) unit;
  create_from_device : list Z -> result GptDisk unit;
  update_partitions : GptDisk -> GptDisk * result unit unit;
  add_partition : GptDisk -> Z -> GptDisk * result Z unit;
  partition_start : GptDisk -> Z -> option Z;
  gpt_write : GptDisk -> GptDisk * result unit unit;
  gpt_device : GptDisk -> list Z;
}.

(** A table of 128 entries: 34 sectors in front, 33 behind. *)
Definition FIRST_USABLE : Z := 34.
Definition GPT_SECTORS : Z := 67.
(** Its documentation: the first partition of an empty table starts at the first
    usable sector when it fits in the usable ones.  [gpt_entries] is the table any
    reader finds, in the sectors in front. *)
Class GptWriterLaws `{GptWriter} := {
  gpt_entries : list Z -> option (list (Z * Z));
  gpt_empty : GptDisk -> Z -> Prop;
  gpt_holds : GptDisk -> Z -> Z -> Z * Z -> Prop;
  overwrite_ok mbr d : 512 <= llen d -> exists d', overwrite_lba0 mbr d = Ok d' /\ llen d' = llen d;
  create_ok d : GPT_SECTORS < llen d / 512 -> exists g, create_from_device d = Ok g /\ gpt_empty g (llen d);
  update_ok g n : gpt_empty g n -> exists g', update_partitions g = (g', Ok tt) /\ gpt_empty g' n;
  add_ok g n size : gpt_empty g n -> 0 < size / 512 <= n / 512 - GPT_SECTORS ->
    exists g' id, add_partition g size = (g', Ok id) /\ gpt_holds g' n id (FIRST_USABLE, FIRST_USABLE + size / 512 - 1);
  start_ok g n id e : gpt_holds g n id e -> partition_start g id = Some (e.1 * 512);
  gpt_write_ok g n id e : gpt_holds g n id e ->
    exists g', gpt_write g = (g', Ok tt) /\ llen (gpt_device g') = n /\ gpt_entries (gpt_device g') = Some [e];
  entries_in_front d d' : llen d' = llen d -> take (Z.to_nat (FIRST_USABLE * 512)) d' = take (Z.to_nat (FIRST_USABLE * 512)) d ->
    gpt_entries d' = gpt_entries d;
}.

(** ** The builder *)

(** The files of the host. *)
Abbreviation Host := (gmap str (list Z)).
(** [tempfile]: a new name that is not in use, or an error. *)
Class TempFiles := { new_temp : Host -> option str; new_temp_fresh h p : new_temp h = Some p -> h !! p = None }.

(** [BTreeMap::from]: sorted by name, the last binding of a name counts. *)
Fixpoint str_compare (a b : str) : comparison :=
  match a, b with
  | [], [] => Eq | [], _ => Lt | _, [] => Gt
  | x :: a, y :: b => match Z.compare x y with Eq => str_compare a b | c => c end
  end.
Fixpoint btree_insert (e : str * str) (l : list (str * str)) : list (str * str) :=
  match l with
  | [] => [e]
  | f :: l' => match str_compare e.1 f.1 with Lt => e :: l | Eq => e :: l' | Gt => f :: btree_insert e l' end
  end.
Definition btree_from (l : list (str * str)) : list (str * str) := foldl (fun m e => btree_insert e m) [] l.

Inductive BuildError := HostError | FatFailed (e : FatErr) | GptFailed.

Section Builder.
Context `{FatVolume} `{GptWriter} `{TempFiles}.
(** Whether the host lets the builder create a file. *)
Context (openable : str -> bool).
Implicit Types (h : Host).

(** @ builder/src/lib.rs:14-14 Files *)
Definition Files : Type := list (str * str).

(** [write_all]; an empty write is an error.  [fuel] above the length is enough. *)
Fixpoint fat_write_all (fuel : nat) (s : FatFs) (f : FatHandle) (buf : list Z) : outcome (FatFs * FatHandle * result unit FatErr) :=
  match fuel with
  | O => OutOfFuel
  | S fuel =>
      match buf with
      | [] => Done (s, f, Ok tt)
      | _ =>
          let '(s, f, r) := file_write s f buf in
          match r with
          | Err e => Done (s, f, Err e)
          | Ok n => if n =? 0 then Done (s, f, Err WriteZero) else
              buf ← slice buf n (llen buf);
              fat_write_all fuel s f buf
          end
      end
  end.
(** [io::copy] from a file of the host, by pieces of 8 KiB. *)
Fixpoint copy_pieces (s : FatFs) (f : FatHandle) (pieces : list (list Z)) : outcome (FatFs * FatHandle * result unit FatErr) :=
  match pieces with
  | [] => Done (s, f, Ok tt)
  | piece :: pieces =>
      '(s, f, r) ← fat_write_all (S (length piece)) s f piece;
      match r with Err e => Done (s, f, Err e) | Ok _ => copy_pieces s f pieces end
  end.
Definition io_copy (s : FatFs) (f : FatHandle) (content : list Z) := copy_pieces s f (chunks (Z.to_nat 8192) content).

(** @ builder/src/lib.rs:90-92 FatBuilder::add_files -- the directories *)
Fixpoint make_dirs (s : FatFs) (dirs : list str) : FatFs * result unit FatErr :=
  match dirs with
  | [] => (s, Ok tt)
  | dir :: dirs =>
      let '(s, r) := create_dir s dir in
      match r with Err e => (s, Err e) | Ok _ => make_dirs s dirs end
  end.
(** @ builder/src/lib.rs:85-103 FatBuilder::add_files *)
Fixpoint add_files h (s : FatFs) (files : Files) : outcome (FatFs * result unit BuildError) :=
  match files with
  | [] => Done (s, Ok tt)
  | (target_path, source) :: files =>
      let ancestors := ancestors target_path in
      let '(s, r) := make_dirs s (tail (rev (tail ancestors))) in
      match r with Err e => Done (s, Err (FatFailed e)) | Ok _ =>
      let '(s, r) := create_file s target_path in
      match r with Err e => Done (s, Err (FatFailed e)) | Ok new_file =>
      let '(s, new_file, r) := file_truncate s new_file in
      _ ← unwrap_ok r;
      match h !! source with
      | None => Done (file_drop s new_file, Err HostError)
      | Some content =>
          '(s, new_file, r) ← io_copy s new_file content;
          let s := file_drop s new_file in
          match r with Err e => Done (s, Err (FatFailed e)) | Ok _ => add_files h s files end
      end end end
  end.

(** @ builder/src/lib.rs:72-72 FatBuilder::create ADDITIONAL_SPACE *)
Definition ADDITIONAL_SPACE : Z := 1024 * 128.
(** The sources are read from the host as it is when the volume has been made. *)
(** @ builder/src/lib.rs:57-83 FatBuilder::create *)
Definition fat_builder_create (files : Files) (out_path : str) h : outcome (Host * result unit BuildError) :=
  if negb (openable out_path) then Done (h, Err HostError) else
  let h := <[out_path := []]> h in
  match mapM (fun f => llen <$> h !! f.2) files with
  | None => Done (h, Err HostError)
  | Some files_size =>
      sum ← fold_outcome (add_ovf 64) files_size 0;
      fat_size ← add_ovf 64 sum ADDITIONAL_SPACE;
      let fat_file := replicate (Z.to_nat fat_size) 0 in
      match format_volume fat_file with
      | Err e => Done (<[out_path := fat_file]> h, Err (FatFailed e))
      | Ok fat_file =>
          let h := <[out_path := fat_file]> h in
          match fs_open fat_file with
          | Err e => Done (h, Err (FatFailed e))
          | Ok filesystem =>
              '(filesystem, r) ← add_files h filesystem files;
              Done (<[out_path := fs_drop filesystem]> h, r)
          end
      end
  end.

(** [io::copy] to a file of the host from its cursor on. *)
Definition write_at (d : list Z) (pos : Z) (data : list Z) : list Z :=
  take (Z.to_nat pos) d ++ data ++ drop (Z.to_nat (pos + llen data)) d.

(** @ builder/src/lib.rs:109-158 DiskCreator::create *)
Definition disk_creator_create (fat_image out_path : str) h : outcome (Host * result unit BuildError) :=
  if negb (openable out_path) then Done (h, Err HostError) else
  let h := <[out_path := []]> h in
  match h !! fat_image with
  | None => Done (h, Err HostError)
  | Some fat =>
      let partition_size := llen fat in
      disk_size ← add_ovf 64 partition_size (1024 * 64);
      let disk := replicate (Z.to_nat disk_size) 0 in
      lb_size ← sub_ovf (disk_size / 512) 1;
      match overwrite_lba0 (if lb_size <? 2 ^ 32 then lb_size else 0xffffffff) disk with
      | Err _ => Done (<[out_path := disk]> h, Err GptFailed)
      | Ok disk =>
          match create_from_device disk with
          | Err _ => Done (<[out_path := disk]> h, Err GptFailed)
          | Ok gpt =>
              let failed gpt := Done (<[out_path := gpt_device gpt]> h, Err GptFailed) in
              let '(gpt, r) := update_partitions gpt in
              match r with Err _ => failed gpt | Ok _ =>
              let '(gpt, r) := add_partition gpt partition_size in
              match r with Err _ => failed gpt | Ok partition_id =>
              match partition_start gpt partition_id with None => failed gpt | Some start_offset =>
              let '(gpt, r) := gpt_write gpt in
              match r with Err _ => failed gpt | Ok _ =>
              Done (<[out_path := write_at (gpt_device gpt) start_offset fat]> h, Ok tt)
              end end end end
          end
      end
  end.

(** The temporary file goes away on every path. *)
(** @ builder/src/lib.rs:38-51 ImageBuilder::build *)
Definition image_builder_build (files : Files) (image_path : str) h : outcome (Host * result unit BuildError) :=
  match new_temp h with
  | None => Done (h, Err HostError)
  | Some fat_partition =>
      let h := <[fat_partition := []]> h in
      '(h, r) ← fat_builder_create files fat_partition h;
      match r with
      | Err e => Done (delete fat_partition h, Err e)
      | Ok _ =>
          '(h, r) ← disk_creator_create fat_partition image_path h;
          Done (delete fat_partition h, r)
      end
  end.

(** The paths of the compiled programs and of the crate, from the environment of the build. *)
Context (doglinked_path t_path imgview_path ipc_demo_path upppd_path kernel_path manifest_dir : str).
Definition assets_dir : str := join manifest_dir (bytes_of "assets").
Definition asset (name : str) : str := join assets_dir name.

(** @ builder/src/lib.rs:21-33 build_usb_storage_image *)
Definition build_usb_storage_image (out_path : str) h : outcome (Host * result unit BuildError) :=
  image_builder_build (btree_from [(bytes_of "usb-hotplug.txt", asset (bytes_of "usb-hotplug.txt"))]) out_path h.

(** @ builder/src/main.rs:212-235 build_img initrd_files *)
Definition initrd_files : Files := btree_from [
  (bytes_of "/sbin/doglinked", doglinked_path);
  (bytes_of "/bin/exiter", t_path);
  (bytes_of "/bin/hello-std", asset (bytes_of "hello_std.elf"));
  (bytes_of "/bin/dins-empty", asset (bytes_of "empty.elf"));
  (bytes_of "/bin/dins-hello", asset (bytes_of "hello.elf"));
  (bytes_of "/bin/pl_editor", asset (bytes_of "pl_editor.elf"));
  (bytes_of "/bin/lua", asset (bytes_of "lua.elf"));
  (bytes_of "/bin/huge-alloc-test", asset (bytes_of "huge_alloc.elf"));
  (bytes_of "/bin/imgview", imgview_path);
  (bytes_of "/bin/ipc-demo", ipc_demo_path);
  (bytes_of "/bin/upppd", upppd_path);
  (bytes_of "/bin/videoplay", asset (bytes_of "videoplay.elf"));
  (bytes_of "/res/test.jpg", asset (bytes_of "test.jpg"));
  (bytes_of "/res/test2.jpg", asset (bytes_of "test2.jpg"));
  (bytes_of "/res/test2.png", asset (bytes_of "test2.png"));
  (bytes_of "/res/test2_16.png", asset (bytes_of "test2_16.png"));
  (bytes_of "/res/test2.ppm", asset (bytes_of "test2.ppm"));
  (bytes_of "/res/test2.qoi", asset (bytes_of "test2.qoi"));
  (bytes_of "/res/demo.dlv", asset (bytes_of "demo.dlv"));
  (bytes_of "/res/demo-dlv2.dlv", asset (bytes_of "demo-dlv2.dlv"));
  (bytes_of "/res/demo.avi", asset (bytes_of "demo-mjpeg.avi"));
  (bytes_of "/res/demo2.avi", asset (bytes_of "demo2.avi"))].
(** @ builder/src/main.rs:243-255 build_img files *)
Definition boot_files (serial_console : bool) (initrd_path : str) : Files := btree_from [
  (bytes_of "kernel", kernel_path);
  (bytes_of "efi/boot/bootx64.efi", asset (bytes_of "BOOTX64.EFI"));
  (bytes_of "limine.conf", asset (if serial_console then bytes_of "limine-serial.conf" else bytes_of "limine.conf"));
  (bytes_of "initrd.img", initrd_path)].
(** @ builder/src/main.rs:203-263 build_img *)
Definition build_img (serial_console : bool) h : outcome (Host * str) :=
  root ← unwrap (parent manifest_dir);
  let initrd_path := join root (bytes_of "initrd.img") in
  '(h, r) ← fat_builder_create initrd_files initrd_path h;
  _ ← unwrap_ok r;
  let img_path := join root (bytes_of "DoglinkOS-2nd.img") in
  '(h, r) ← image_builder_build (boot_files serial_console initrd_path) img_path h;
  _ ← unwrap_ok r;
  Done (h, img_path).
End Builder.

(** ** Paths of names *)

Section Paths.
Definition plain (n : str) : Prop := n <> [] /\ SLASH ∉ n.
Lemma valid_plain n : valid_name n = true -> plain n.
Proof.
  unfold valid_name. intros Hv. reflect_bools. split; [done|]. intros Hin.
  match goal with H : forallb valid_char n = true |- _ => rewrite forallb_forall in H; apply list_elem_of_In in Hin; apply H in Hin end.
  by vm_compute in Hin.
Qed.
Lemma valid_all_plain ks : forallb valid_name ks = true -> Forall plain ks.
Proof. rewrite forallb_forall, Forall_forall. intros Hv n Hn. apply valid_plain, Hv. by apply list_elem_of_In. Qed.

Lemma names_loop_word k acc p : SLASH ∉ k -> names_loop acc (k ++ p) = names_loop (rev k ++ acc) p.
Proof.
  revert acc. induction k as [|b k IH]; intros acc Hk; [done|]. rewrite not_elem_of_cons in Hk. destruct Hk as [Hb Hk].
  cbn [app names_loop rev]. rewrite (proj2 (Z.eqb_neq b SLASH)) by done. rewrite IH by done. by rewrite <- app_assoc.
Qed.
Lemma names_join ks : Forall plain ks -> names (join_names ks) = ks.
Proof.
  unfold names. induction 1 as [|k ks [Hne Hs] _ IH]; [done|]. destruct ks as [|k' ks]; cbn [join_names].
  - rewrite <- (app_nil_r k) at 1. rewrite names_loop_word, app_nil_r by done. cbn [names_loop].
    destruct (rev k) eqn:Er; [|by rewrite <- Er, rev_involutive]. by apply (f_equal (@rev Z)) in Er; rewrite rev_involutive in Er.
  - rewrite names_loop_word, app_nil_r by done. cbn [names_loop]. rewrite Z.eqb_refl.
    destruct (rev k) eqn:Er; [by apply (f_equal (@rev Z)) in Er; rewrite rev_involutive in Er|].
    rewrite <- Er, rev_involutive. f_equal. apply IH.
Qed.
Lemma names_path a ks : Forall plain ks -> names (path_of a ks) = ks.
Proof. intros Hp. destruct a; [|by apply names_join]. unfold path_of, names. cbn [app names_loop]. rewrite Z.eqb_refl. by apply names_join. Qed.

(** The directory part of a path, with its slash. *)
Definition base (a : bool) (ks : list str) : str :=
  match ks with [] => path_of a [] | _ => path_of a ks ++ [SLASH] end.
Lemma join_snoc ks k : join_names (ks ++ [k]) = (match ks with [] => [] | _ => join_names ks ++ [SLASH] end) ++ k.
Proof.
  induction ks as [|x ks IH]; [done|]. destruct ks as [|y ks]; [cbn; by rewrite <- app_assoc|].
  change (join_names ((x :: y :: ks) ++ [k])) with (x ++ SLASH :: join_names ((y :: ks) ++ [k])). rewrite IH.
  change (join_names (x :: y :: ks)) with (x ++ SLASH :: join_names (y :: ks)). by rewrite <- !app_assoc.
Qed.
Lemma path_snoc a ks k : path_of a (ks ++ [k]) = base a ks ++ k.
Proof. unfold base, path_of. rewrite join_snoc. destruct ks; [by destruct a|]. by rewrite <- !app_assoc. Qed.

Lemma skip_name_word r k : SLASH ∉ k -> skip_name (k ++ r) = skip_name r.
Proof.
  induction k as [|b k IH]; intros Hk; [done|]. rewrite not_elem_of_cons in Hk. destruct Hk as [Hb Hk].
  cbn [app skip_name]. rewrite (proj2 (Z.eqb_neq b SLASH)) by done. by apply IH.
Qed.
Lemma trim_word k r : plain k -> trim_start SLASH (rev k ++ r) = rev k ++ r.
Proof.
  intros [Hne Hs]. destruct (rev k) as [|b r'] eqn:Er; [by apply (f_equal (@rev Z)) in Er; rewrite rev_involutive in Er|].
  cbn [app trim_start]. rewrite (proj2 (Z.eqb_neq b SLASH)); [done|]. intros ->. apply Hs.
  rewrite <- (rev_involutive k), Er. cbn [rev]. set_solver.
Qed.
Lemma strip_path a ks k : plain k -> strip_trailing (path_of a (ks ++ [k])) = path_of a (ks ++ [k]).
Proof. intros Hk. unfold strip_trailing. rewrite path_snoc, rev_app_distr, trim_word, <- rev_app_distr, rev_involutive by done. done. Qed.
Lemma parent_snoc a ks k : Forall plain ks -> plain k -> parent (path_of a (ks ++ [k])) = Some (path_of a ks).
Proof.
  intros Hks Hk. unfold parent. rewrite strip_path, path_snoc, rev_app_distr by done.
  destruct (rev k ++ rev (base a ks)) as [|b q] eqn:Eq.
  { destruct Hk as [Hne _]. apply app_eq_nil in Eq. destruct Eq as [Eq _]. apply (f_equal (@rev Z)) in Eq. by rewrite rev_involutive in Eq. }
  rewrite <- Eq, skip_name_word by (rewrite list_elem_of_In, <- in_rev, <- list_elem_of_In; apply Hk).
  destruct ks as [|x ks _] using rev_ind; [by destruct a|].
  apply Forall_app in Hks as [Hks Hx]. rewrite Forall_singleton in Hx.
  assert (rev (base a (ks ++ [x])) = SLASH :: rev (path_of a (ks ++ [x]))) as ->
    by (unfold base; destruct (ks ++ [x]) eqn:E; [by apply app_eq_nil in E as [_ ?]|by rewrite rev_app_distr]).
  cbn [skip_name trim_start]. rewrite !Z.eqb_refl.
  cbn [trim_start]. rewrite ?Z.eqb_refl, path_snoc, rev_app_distr, trim_word, <- rev_app_distr, <- path_snoc by done.
  destruct (rev (path_of a (ks ++ [x]))) eqn:Er; [|by rewrite <- Er, rev_involutive].
  apply (f_equal (@rev Z)) in Er. rewrite rev_involutive, path_snoc in Er. apply app_eq_nil in Er as [_ ->]. by destruct Hx.
Qed.
Lemma parent_root a : parent (path_of a []) = None.
Proof. by destruct a. Qed.

Lemma ancestors_path a ks fuel : Forall plain ks -> (length ks <= fuel)%nat ->
  ancestors_loop fuel (path_of a ks) = (fun n => path_of a (take n ks)) <$> rev (seq 0 (S (length ks))).
Proof.
  revert fuel. induction ks as [|k ks IH] using rev_ind; intros fuel Hks Hf.
  - destruct fuel; [done|]. cbn [ancestors_loop]. by rewrite parent_root.
  - rewrite length_app in *. cbn [length] in *. destruct fuel as [|fuel]; [lia|]. cbn [ancestors_loop].
    apply Forall_app in Hks as [Hks Hk]. rewrite Forall_singleton in Hk. rewrite parent_snoc, IH by (done || lia).
    rewrite Nat.add_1_r, (seq_S (S (length ks))), rev_app_distr. cbn [rev app Nat.add fmap list_fmap].
    rewrite (take_ge (ks ++ [k])) by (rewrite length_app; cbn; lia).
    f_equal. apply list_fmap_ext. intros i n Hn. f_equal. rewrite take_app_le; [done|].
    apply list_elem_of_lookup_2 in Hn. apply list_elem_of_In, in_rev, in_seq in Hn. lia.
Qed.
Lemma rev_fmap {A B} (f : A -> B) l : rev (f <$> l) = f <$> rev l.
Proof. induction l as [|x l IH]; [done|]. cbn [fmap list_fmap rev]. by rewrite IH, fmap_app. Qed.
(** The directories the builder creates for a path: its parents from the root on. *)
Lemma parents_path a ks : Forall plain ks ->
  tail (rev (tail (ancestors (path_of a ks)))) = (fun n => path_of a (take n ks)) <$> seq 1 (length ks - 1).
Proof.
  intros Hks. unfold ancestors. rewrite ancestors_path; [|done|].
  - destruct (length ks) as [|m] eqn:Em; [done|]. rewrite (seq_S (S m)), rev_app_distr. cbn [rev app fmap list_fmap tail].
    rewrite rev_fmap, rev_involutive. cbn [seq fmap list_fmap tail]. by rewrite Nat.sub_succ, Nat.sub_0_r.
  - clear -Hks. enough (length ks <= length (join_names ks))%nat by (unfold path_of; destruct a; cbn; lia).
    induction Hks as [|k ks [Hne _] _ IH]; [done|]. destruct k as [|b k]; [done|]. destruct ks; cbn in *; [lia|]. rewrite length_app. cbn. lia.
Qed.
End Paths.

(** ** Filling a volume *)

(** What the builder means to make: a file under its name, its parents as directories. *)
Definition add_dirs (t : Tree) (ks : list (list str)) : Tree := foldl (fun t k => <[k := DirNode]> t) t ks.
Definition parents_of (k : list str) : list (list str) := (fun n => take n k) <$> seq 1 (length k - 1).
Definition put_file (t : Tree) (k : list str) (c : list Z) : Tree := <[k := FileNode c]> (add_dirs t (parents_of k)).
Definition tree_of (h : Host) (t : Tree) (files : Files) : Tree :=
  foldl (fun t e => put_file t (key e.1) (default [] (h !! e.2))) t files.

(** A volume holds the files, their parents, and nothing else. *)
Definition describes (h : Host) (t : Tree) (files : Files) : Prop :=
  forall k node, t !! k = Some node <->
    (exists p src c, (p, src) ∈ files /\ h !! src = Some c /\ k = key p /\ node = FileNode c)
    \/ (node = DirNode /\ exists p src, (p, src) ∈ files /\ k ∈ parents_of (key p)).

(** A name the builder can be asked for; no file is another file or its directory. *)
Definition target_ok (p : str) : Prop := exists a ks, p = path_of a ks /\ ks <> [] /\ forallb valid_name ks = true.
Definition prefix_free (files : Files) : Prop :=
  forall i j e1 e2, files !! i = Some e1 -> files !! j = Some e2 -> key e1.1 `prefix_of` key e2.1 -> i = j.
Definition source_ok (h : Host) (src : str) : Prop := exists c, h !! src = Some c /\ llen c < FILE_MAX.
Definition room_for (t : Tree) (k : list str) : Prop := t !! k = None /\ forall k' c, k' ∈ parents_of k -> t !! k' <> Some (FileNode c).

Lemma add_dirs_lookup t ks k : add_dirs t ks !! k = if bool_decide (k ∈ ks) then Some DirNode else t !! k.
Proof.
  unfold add_dirs. revert t. induction ks as [|k' ks IH]; intros t; [by rewrite bool_decide_false by set_solver|]. cbn [foldl]. rewrite IH.
  destruct (decide (k ∈ ks)); [by rewrite !bool_decide_true by set_solver|]. rewrite (bool_decide_false (k ∈ ks)) by done.
  destruct (decide (k = k')) as [->|]; [rewrite lookup_insert_eq, bool_decide_true by set_solver; done|].
  by rewrite lookup_insert_ne, bool_decide_false by set_solver.
Qed.
Lemma elem_of_parents k k' : k' ∈ parents_of k <-> exists n, (1 <= n < length k)%nat /\ k' = take n k.
Proof.
  unfold parents_of. rewrite list_elem_of_fmap. split.
  - intros (n & -> & Hn). apply elem_of_seq in Hn. exists n. split; [lia|done].
  - intros (n & Hn & ->). exists n. split; [done|]. apply elem_of_seq. lia.
Qed.
Lemma parents_prefix k k' : k' ∈ parents_of k -> k' `prefix_of` k /\ k' <> k.
Proof.
  rewrite elem_of_parents. intros (n & Hn & ->). split; [apply prefix_take|]. intros He. apply (f_equal length) in He. rewrite length_take in He. lia.
Qed.
Lemma put_file_lookup t k c k' :
  put_file t k c !! k' = if bool_decide (k' = k) then Some (FileNode c) else if bool_decide (k' ∈ parents_of k) then Some DirNode else t !! k'.
Proof.
  unfold put_file. destruct (decide (k' = k)) as [->|]; [by rewrite lookup_insert_eq, bool_decide_true|].
  rewrite lookup_insert_ne, add_dirs_lookup, (bool_decide_false (k' = k)) by done. done.
Qed.
(** Files of other names do not come in the way. *)
Lemma put_file_room t k k' c :
  ~ k `prefix_of` k' -> ~ k' `prefix_of` k -> room_for t k' -> room_for (put_file t k c) k'.
Proof.
  intros H1 H2 [Hn Hp]. split.
  - rewrite put_file_lookup, !bool_decide_false; [done| |by intros ->].
    intros [Hin _]%parents_prefix. done.
  - intros k2 c2 Hk2. rewrite put_file_lookup. rewrite bool_decide_false by (intros ->; by apply parents_prefix in Hk2 as [? _]).
    case_bool_decide; [done|]. by apply Hp.
Qed.

Lemma prefix_free_tail e files : prefix_free (e :: files) -> prefix_free files.
Proof. intros Hf i j e1 e2 H1 H2 Hp. specialize (Hf (S i) (S j) e1 e2 H1 H2 Hp). lia. Qed.
Lemma prefix_free_init e files : prefix_free (files ++ [e]) -> prefix_free files.
Proof. intros Hf i j e1 e2 H1 H2. apply Hf; by apply lookup_app_l_Some. Qed.
Lemma prefix_free_apart e1 e2 l1 l2 l3 : prefix_free (l1 ++ e1 :: l2 ++ e2 :: l3) ->
  ~ key e1.1 `prefix_of` key e2.1 /\ ~ key e2.1 `prefix_of` key e1.1.
Proof.
  intros Hf.
  assert (forall A (a b : list A) x, (a ++ x :: b) !! length a = Some x) as Hmid by (intros; by apply list_lookup_middle).
  pose proof (Hmid _ l1 (l2 ++ e2 :: l3) e1) as H1. pose proof (Hmid _ (l1 ++ e1 :: l2) l3 e2) as H2.
  rewrite <- app_assoc in H2. cbn [app] in H2. rewrite length_app in H2. cbn [length] in H2.
  split; intros Hp; [specialize (Hf _ _ _ _ H1 H2 Hp)|specialize (Hf _ _ _ _ H2 H1 Hp)]; lia.
Qed.

(** The description of the tree is what was meant. *)
Lemma tree_of_describes h files :
  prefix_free files -> Forall (fun e => is_Some (h !! e.2)) files -> describes h (tree_of h ∅ files) files.
Proof.
  induction files as [|[p src] files IH] using rev_ind; intros Hf Hs k node.
  - cbn. rewrite lookup_empty. split; [done|]. intros [(? & ? & ? & Hin & _)|(_ & ? & ? & Hin & _)]; by apply not_elem_of_nil in Hin.
  - apply Forall_app in Hs as [Hs Hsrc]. rewrite Forall_singleton in Hsrc. destruct Hsrc as [c Hc]. cbn in Hc.
    unfold tree_of. rewrite foldl_app. cbn [foldl fst snd]. rewrite Hc, put_file_lookup. cbn [default id].
    specialize (IH (prefix_free_init _ _ Hf) Hs k node).
    assert (forall q s, (q, s) ∈ files -> ~ key q `prefix_of` key p /\ ~ key p `prefix_of` key q) as Hap.
    { intros q s (l1 & l2 & ->)%list_elem_of_split. rewrite <- app_assoc in Hf. cbn [app] in Hf. apply (prefix_free_apart _ _ _ _ _ Hf). }
    destruct (decide (k = key p)) as [->|Hk].
    { rewrite bool_decide_true by done. split.
      - intros [= <-]. left. exists p, src, c. set_solver.
      - intros [(q & s & c' & Hin & Hc' & Hk & ->)|(_ & q & s & Hin & Hk)].
        + apply elem_of_app in Hin as [Hin|Hin]; [apply Hap in Hin as [Hin _]; by rewrite Hk in Hin|].
          apply list_elem_of_singleton in Hin as [= -> ->]. congruence.
        + apply parents_prefix in Hk as [Hk Hne]. apply elem_of_app in Hin as [Hin|Hin]; [by apply Hap in Hin as [_ Hin]|].
          apply list_elem_of_singleton in Hin as [= -> ->]. done. }
    rewrite bool_decide_false by done. destruct (decide (k ∈ parents_of (key p))) as [Hin|Hin].
    { rewrite bool_decide_true by done. split.
      - intros [= <-]. right. split; [done|]. exists p, src. set_solver.
      - intros [(q & s & c' & Hq & Hc' & -> & ->)|[-> _]]; [|done]. apply elem_of_app in Hq as [Hq|Hq].
        + apply parents_prefix in Hin as [Hin _]. by apply Hap in Hq as [Hq _].
        + by apply list_elem_of_singleton in Hq as [= -> ->]. }
    rewrite bool_decide_false by done. rewrite IH. split.
    + intros [(q & s & c' & Hq & R)|(Hd & q & s & Hq & R)]; [left; exists q, s, c'|right; split; [done|]; exists q, s]; (split; [set_solver|done]).
    + intros [(q & s & c' & Hq & Hc' & -> & Hn)|(Hd & q & s & Hq & R)]; [left; exists q, s, c'|right; split; [done|]; exists q, s];
        (split; [|done]); apply elem_of_app in Hq as [Hq|Hq]; try done; by apply list_elem_of_singleton in Hq as [= -> ->].
Qed.

Section Filling.
Context `{FatLaws}.
Implicit Types (s : FatFs) (t : Tree).

Lemma fold_take n ks : fold_names (take n ks) = take n (fold_names ks).
Proof. apply fmap_take. Qed.
Lemma key_path a ks : forallb valid_name ks = true -> key (path_of a ks) = fold_names ks.
Proof. intros Hv. unfold key. by rewrite names_path by by apply valid_all_plain. Qed.
Lemma forallb_take n ks : forallb valid_name ks = true -> forallb valid_name (take n ks) = true.
Proof. rewrite !forallb_forall. intros Hv x Hx. apply Hv. apply list_elem_of_In in Hx. apply list_elem_of_In. by apply (subseteq_take n). Qed.

(** Creating the parents from the root on: each finds its own parent. *)
Lemma make_dirs_spec a ks m : forall j s,
  forallb valid_name ks = true -> (1 <= j)%nat -> (j + m <= length ks)%nat ->
  dir_at (fs_view s) (take (j - 1) (fold_names ks)) ->
  (forall n c, (j <= n < j + m)%nat -> fs_view s !! take n (fold_names ks) <> Some (FileNode c)) ->
  exists s', fs_size s' = fs_size s /\
    ((make_dirs s ((fun n => path_of a (take n ks)) <$> seq j m) = (s', Ok tt) /\
      fs_view s' = add_dirs (fs_view s) ((fun n => take n (fold_names ks)) <$> seq j m))
     \/ make_dirs s ((fun n => path_of a (take n ks)) <$> seq j m) = (s', Err NoSpace)).
Proof.
  induction m as [|m IH]; intros j s Hv Hj Hm Hd Hn; [exists s; split; [done|by left]|]. cbn [seq fmap list_fmap make_dirs].
  destruct (lookup_lt_is_Some_2 ks (j - 1)) as [k Hk]; [lia|].
  assert (take j ks = take (j - 1) ks ++ [k]) as Ht by (rewrite <- take_S_r by done; f_equal; lia).
  assert (names (path_of a (take j ks)) = take j ks) as Hnames by (by apply names_path, valid_all_plain, forallb_take).
  destruct (create_dir_ok s (path_of a (take j ks)) (take (j - 1) ks) k) as (s1 & Hz & [[-> Hs1]| ->]).
  { by rewrite Hnames. } { rewrite Hnames. by apply forallb_take. } { by rewrite fold_take. }
  { intros c. rewrite key_path, fold_take by by apply forallb_take. apply Hn. lia. }
  2: { exists s1. split; [done|by right]. }
  rewrite key_path, fold_take in Hs1 by by apply forallb_take.
  assert (length (fold_names ks) = length ks) as Hl by apply length_fmap.
  destruct (IH (S j) s1) as (s2 & Hz2 & Hr); [done|lia|lia| | |].
  - right. rewrite Hs1. replace (S j - 1)%nat with j by lia. apply lookup_insert_eq.
  - intros n c Hin. rewrite Hs1, lookup_insert_ne; [apply Hn; lia|]. intros He. apply (f_equal length) in He.
    rewrite !length_take in He. lia.
  - exists s2. split; [congruence|]. unfold add_dirs in Hr |- *. cbn [fmap list_fmap foldl]. by rewrite <- Hs1.
Qed.

(** Writing a whole buffer, and a whole file. *)
Lemma write_all_spec fuel : forall s f k c buf, (length buf < fuel)%nat -> handle_at s f k (llen c) -> fs_view s !! k = Some (FileNode c) ->
  llen c + llen buf < FILE_MAX ->
  exists s' f', fs_size s' = fs_size s /\
    ((fat_write_all fuel s f buf = Done (s', f', Ok tt) /\ fs_view s' = <[k := FileNode (c ++ buf)]> (fs_view s) /\ handle_at s' f' k (llen (c ++ buf)))
     \/ fat_write_all fuel s f buf = Done (s', f', Err NoSpace)).
Proof.
  induction fuel as [|fuel IH]; intros s f k c buf Hf Hh Hk Hmax; [lia|]. cbn [fat_write_all].
  destruct buf as [|b buf]. { exists s, f. split; [done|]. left. by rewrite app_nil_r, insert_id. }
  set (l := b :: buf) in *. destruct (write_ok s f k c l) as (s1 & f1 & Hz & [(n & -> & Hn & Hv & Hh1)| ->]); [done|done|done|done| |].
  2: { exists s1, f1. split; [done|by right]. }
  rewrite (proj2 (Z.eqb_neq n 0)), slice_in_range by lia. cbn [mbind outcome_bind].
  assert (take (Z.to_nat (llen l - n)) (drop (Z.to_nat n) l) = drop (Z.to_nat n) l) as -> by (apply take_ge; rewrite length_drop; unfold llen in *; lia).
  assert (llen (take (Z.to_nat n) l) = n) as Hlt by (unfold llen in *; rewrite length_take; lia).
  assert (llen (drop (Z.to_nat n) l) = llen l - n) as Hld by (unfold llen in *; rewrite length_drop; lia).
  destruct (IH s1 f1 k (c ++ take (Z.to_nat n) l) (drop (Z.to_nat n) l)) as (s2 & f2 & Hz2 & Hr).
  { unfold llen in Hn. rewrite length_drop. lia. } { by rewrite llen_app, Hlt. } { by rewrite Hv, lookup_insert_eq. } { rewrite llen_app, Hlt, Hld. lia. }
  exists s2, f2. split; [congruence|]. rewrite <- app_assoc, take_drop, Hv, insert_insert_eq in Hr. done.
Qed.
Lemma copy_pieces_spec pieces : forall s f k c, handle_at s f k (llen c) -> fs_view s !! k = Some (FileNode c) ->
  llen c + llen (concat pieces) < FILE_MAX ->
  exists s' f', fs_size s' = fs_size s /\
    ((copy_pieces s f pieces = Done (s', f', Ok tt) /\ fs_view s' = <[k := FileNode (c ++ concat pieces)]> (fs_view s))
     \/ copy_pieces s f pieces = Done (s', f', Err NoSpace)).
Proof.
  induction pieces as [|p pieces IH]; intros s f k c Hh Hk Hmax.
  { exists s, f. split; [done|]. left. cbn. by rewrite app_nil_r, insert_id. }
  cbn [copy_pieces concat] in *. rewrite llen_app in Hmax. pose proof (llen_nonneg (concat pieces)).
  destruct (write_all_spec (S (length p)) s f k c p) as (s1 & f1 & Hz & [(-> & Hv & Hh1)| ->]); [lia|done|done|lia| |]; cbn [mbind outcome_bind].
  2: { exists s1, f1. split; [done|by right]. }
  destruct (IH s1 f1 k (c ++ p)) as (s2 & f2 & Hz2 & Hr); [done|by rewrite Hv, lookup_insert_eq|rewrite llen_app; lia|].
  exists s2, f2. split; [congruence|]. by rewrite <- app_assoc, Hv, insert_insert_eq in Hr.
Qed.

Lemma target_names p : target_ok p -> exists a ks k, p = path_of a (ks ++ [k]) /\ names p = ks ++ [k] /\
  forallb valid_name (ks ++ [k]) = true /\ key p = fold_names (ks ++ [k]).
Proof.
  intros (a & ks & -> & Hne & Hv). destruct (exists_last Hne) as (ks' & k & ->). exists a, ks', k. split; [done|].
  split; [by apply names_path, valid_all_plain|]. split; [done|by apply key_path].
Qed.

(** One file: its parents, its entry, its contents. *)
Lemma add_file_spec h s p src files :
  target_ok p -> source_ok h src -> room_for (fs_view s) (key p) ->
  exists s', fs_size s' = fs_size s /\
    ((fs_view s' = put_file (fs_view s) (key p) (default [] (h !! src)) /\ add_files h s ((p, src) :: files) = add_files h s' files)
     \/ add_files h s ((p, src) :: files) = Done (s', Err (FatFailed NoSpace))).
Proof.
  intros Hp (c & Hc & Hmax) [Hroom Hpar]. destruct (target_names p Hp) as (a & ks & k & He & Hn & Hv & Hk).
  pose proof (valid_all_plain _ Hv) as Hplain. cbn [add_files]. rewrite He, parents_path, <- He by done.
  assert (length (ks ++ [k]) = S (length ks)) as Hl by (rewrite length_app; cbn; lia).
  assert (length (fold_names (ks ++ [k])) = S (length ks)) as Hlf by (unfold fold_names; by rewrite length_fmap).
  destruct (make_dirs_spec a (ks ++ [k]) (length (ks ++ [k]) - 1) 1 s) as (s1 & Hz1 & [[-> Hs1]| ->]); [done|lia|lia|by left| | |].
  { intros n c' Hin. apply Hpar. rewrite elem_of_parents, Hk. exists n. split; [lia|done]. }
  2: { exists s1. split; [done|by right]. }
  assert (fs_view s1 = add_dirs (fs_view s) (parents_of (key p))) as Hd.
  { rewrite Hs1. unfold parents_of. rewrite Hk, Hl, Hlf. done. }
  assert (key p ∉ parents_of (key p)) as Hself by (intros Hin; by apply parents_prefix in Hin as [_ Hin]).
  destruct (create_file_ok s1 p ks k) as (s2 & Hz2 & [(f & -> & Hs2 & Hh)| ->]); [done|by rewrite Hn| | | |].
  { destruct ks as [|x ks]; [by left|]. right. rewrite Hd, add_dirs_lookup, bool_decide_true; [done|]. rewrite elem_of_parents, Hk.
    exists (length (x :: ks)). split; [cbn in *; lia|]. rewrite <- fold_take, take_app_length. done. }
  { rewrite Hd, add_dirs_lookup, bool_decide_false by done. done. }
  2: { exists s2. split; [congruence|by right]. }
  destruct (truncate_ok s2 f (key p)) as (s3 & f3 & -> & Hz3 & Hs3 & Hh3); [done|by rewrite Hs2, lookup_insert_eq|].
  cbn [unwrap_ok mbind outcome_bind]. rewrite Hc. unfold io_copy.
  assert (concat (chunks (Z.to_nat 8192) c) = c) as Hcc by (apply concat_chunks; lia).
  destruct (copy_pieces_spec (chunks (Z.to_nat 8192) c) s3 f3 (key p) []) as (s4 & f4 & Hz4 & [[-> Hs4]| ->]);
    [done|by rewrite Hs3, Hs2, lookup_insert_eq|rewrite Hcc; change (llen (@nil Z)) with 0; lia| |]; cbn [mbind outcome_bind];
    destruct (close_ok s4 f4) as [Hv4 Hz5]; exists (file_drop s4 f4); (split; [congruence|]).
  - left. split; [|done]. rewrite Hv4, Hs4, Hs3, Hs2, Hcc, insert_insert_eq, Hd. done.
  - by right.
Qed.

Lemma add_files_spec h files : forall s,
  Forall (fun e => target_ok e.1 /\ source_ok h e.2) files -> prefix_free files ->
  Forall (fun e => room_for (fs_view s) (key e.1)) files ->
  exists s', fs_size s' = fs_size s /\
    ((add_files h s files = Done (s', Ok tt) /\ fs_view s' = tree_of h (fs_view s) files)
     \/ add_files h s files = Done (s', Err (FatFailed NoSpace))).
Proof.
  induction files as [|[p src] files IH]; intros s Hok Hf Hroom; [exists s; split; [done|by left]|].
  inversion Hok as [|? ? [Hp Hsrc] Hok']; subst. inversion Hroom as [|? ? Hr Hroom']; subst. cbn [fst snd] in *.
  destruct (add_file_spec h s p src files Hp Hsrc Hr) as (s1 & Hz & [[Hv ->]| ->]); [|exists s1; split; [done|by right]].
  destruct (IH s1) as (s2 & Hz2 & Hres); [done|by apply prefix_free_tail in Hf| |].
  - rewrite Forall_forall in Hroom' |- *. intros [p' src'] Hin. specialize (Hroom' _ Hin). cbn [fst] in *. rewrite Hv.
    apply list_elem_of_split in Hin as (l1 & l2 & ->). destruct (prefix_free_apart (p, src) (p', src') [] l1 l2 Hf). by apply put_file_room.
  - exists s2. split; [congruence|]. cbn [tree_of foldl fst snd]. unfold tree_of in Hres. rewrite Hv in Hres. exact Hres.
Qed.

(** ** Making the volume *)

Context `{GptWriter} `{TempFiles} (openable : str -> bool).

Definition sizes_sum (h : Host) (files : Files) : Z := foldr (fun e n => llen (default [] (h !! e.2)) + n) 0 files.
Lemma sizes_sum_nonneg h files : 0 <= sizes_sum h files.
Proof. induction files as [|e files IH]; cbn; [lia|]. pose proof (llen_nonneg (default [] (h !! e.2))). unfold sizes_sum in IH. lia. Qed.
Lemma sizes_fold h files : forall n, 0 <= n -> Forall (fun e => source_ok h e.2) files -> n + sizes_sum h files < 2 ^ 64 ->
  exists sizes, mapM (fun f => llen <$> h !! f.2) files = Some sizes /\ fold_outcome (add_ovf 64) sizes n = Done (n + sizes_sum h files).
Proof.
  induction files as [|e files IH]; intros n Hn0 Hs Hn; [exists []; split; [done|]; cbn; by rewrite Z.add_0_r|].
  inversion Hs as [|? ? (c & Hc & _) Hs']; subst. cbn [sizes_sum foldr] in Hn |- *. rewrite Hc in Hn |- *. cbn [default id] in Hn |- *.
  pose proof (sizes_sum_nonneg h files). pose proof (llen_nonneg c). unfold sizes_sum in *.
  destruct (IH (n + llen c)) as (sizes & Hm & Hf); [lia|done|lia|]. exists (llen c :: sizes).
  cbn [mapM]. rewrite Hc. cbn [fmap option_fmap option_map mbind option_bind]. rewrite Hm. split; [done|].
  assert (add_ovf 64 n (llen c) = Done (n + llen c)) as Ha by (unfold add_ovf; by rewrite (proj2 (Z.ltb_lt _ _)) by lia).
  cbn [fold_outcome]. rewrite Ha. cbn [mbind outcome_bind]. rewrite Hf. f_equal. lia.
Qed.

(** The sources of the builder are not its output. *)
Record inputs_ok (h : Host) (files : Files) (out : str) : Prop := {
  io_files : Forall (fun e => target_ok e.1 /\ source_ok h e.2 /\ e.2 <> out) files;
  io_free : prefix_free files;
  io_size : sizes_sum h files + ADDITIONAL_SPACE < FAT_MAX;
}.
Lemma inputs_other h files out out' c : inputs_ok h files out -> Forall (fun e => e.2 <> out') files -> inputs_ok (<[out' := c]> h) files out.
Proof.
  intros [Hf Hp Hs] Hne. split; [|done|].
  - rewrite !Forall_forall in *. intros e He. destruct (Hf e He) as (Ht & (c' & Hc & Hm) & Ho). split; [done|]. split; [|done].
    exists c'. split; [|done]. rewrite lookup_insert_ne; [done|]. intros ->. by apply (Hne e).
  - enough (sizes_sum (<[out' := c]> h) files = sizes_sum h files) as -> by done.
    clear -Hne. induction files as [|e files IH]; [done|]. inversion Hne; subst. cbn [sizes_sum foldr]. unfold sizes_sum in IH.
    rewrite IH, lookup_insert_ne by done. done.
Qed.
Lemma tree_of_ext h h' t files : Forall (fun e => h !! e.2 = h' !! e.2) files -> tree_of h t files = tree_of h' t files.
Proof. unfold tree_of. intros Hf. revert t. induction Hf as [|e files He _ IH]; intros t; [done|]. cbn [foldl]. by rewrite IH, He. Qed.

(** The volume is made, or found too small while it is filled. *)
Lemma fat_builder_create_spec files out h :
  openable out = true -> inputs_ok h files out ->
  exists v, llen v = sizes_sum h files + ADDITIONAL_SPACE /\
    ((fat_builder_create openable files out h = Done (<[out := v]> h, Ok tt) /\ fat_contents v = Some (tree_of h ∅ files))
     \/ fat_builder_create openable files out h = Done (<[out := v]> h, Err (FatFailed NoSpace))).
Proof.
  intros Hopen Hin. pose proof (sizes_sum_nonneg h files) as Hnn.
  assert (forall c, inputs_ok (<[out := c]> h) files out /\ sizes_sum (<[out := c]> h) files = sizes_sum h files) as Hout.
  { intros c. split.
    - apply inputs_other; [done|]. eapply Forall_impl; [apply (io_files _ _ _ Hin)|]. by intros e (_ & _ & ?).
    - destruct Hin as [Hf _ _]. clear -Hf. induction Hf as [|e files (_ & _ & Ho) _ IH]; [done|]. cbn [sizes_sum foldr]. unfold sizes_sum in IH.
      rewrite IH, lookup_insert_ne by done. done. }
  unfold fat_builder_create. rewrite Hopen. cbn [negb]. set (h1 := <[out := []]> h).
  destruct (Hout []) as [Hin1 Hsz1]. fold h1 in Hin1, Hsz1. pose proof (io_size _ _ _ Hin) as Hmax. unfold ADDITIONAL_SPACE, FAT_MAX in *.
  destruct (sizes_fold h1 files 0) as (sizes & Hm & Hfold); [lia| |lia|].
  { eapply Forall_impl; [apply (io_files _ _ _ Hin1)|]. by intros e (_ & ? & _). }
  rewrite Hm, Hfold, Z.add_0_l, Hsz1. cbn [mbind outcome_bind]. unfold add_ovf. rewrite (proj2 (Z.ltb_lt _ _)) by lia. cbn [mbind outcome_bind].
  destruct (format_ok (replicate (Z.to_nat (sizes_sum h files + 1024 * 128)) 0)) as (v & -> & Hlv & Hv).
  { rewrite llen_replicate. unfold FAT_MIN, FAT_MAX. lia. }
  destruct (open_ok v ∅ Hv) as (s & -> & Hs & Hz). subst h1. rewrite insert_insert_eq.
  destruct (Hout v) as [Hin2 _].
  destruct (add_files_spec (<[out := v]> h) files s) as (s' & Hz' & Hr).
  { eapply Forall_impl; [apply (io_files _ _ _ Hin2)|]. by intros e (? & ? & _). }
  { apply (io_free _ _ _ Hin). }
  { apply Forall_true. intros e. rewrite Hs. split; [apply lookup_empty|]. intros. by rewrite lookup_empty. }
  exists (fs_drop s'). destruct (drop_ok s') as [Hd Hld]. rewrite llen_replicate in Hlv. split; [lia|].
  destruct Hr as [[-> Hv']| ->]; cbn [mbind outcome_bind]; rewrite insert_insert_eq; [left|by right]. split; [done|].
  rewrite Hd, Hv', Hs. f_equal. apply tree_of_ext. eapply Forall_impl; [apply (io_files _ _ _ Hin)|].
  intros e (_ & _ & Ho). by rewrite lookup_insert_ne.
Qed.
End Filling.

(** ** Making the disk *)

Section Disks.
Context `{GptWriterLaws} (openable : str -> bool).

(** The disk has one partition, where the file system lies in front of the second
    copy of the table. *)
Record holds_volume (disk fat : list Z) : Prop := {
  hv_table : gpt_entries disk = Some [(FIRST_USABLE, FIRST_USABLE + llen fat / 512 - 1)];
  hv_bytes : take (length fat) (drop (Z.to_nat (FIRST_USABLE * 512)) disk) = fat;
  hv_room : FIRST_USABLE * 512 + llen fat <= (llen disk / 512 - (GPT_SECTORS - FIRST_USABLE)) * 512;
}.

Lemma write_at_take d pos data : 0 <= pos <= llen d -> take (Z.to_nat pos) (write_at d pos data) = take (Z.to_nat pos) d.
Proof. intros Hp. unfold write_at. rewrite take_app_length'; [done|]. unfold llen in Hp. rewrite length_take. lia. Qed.
Lemma write_at_len d pos data : 0 <= pos -> pos + llen data <= llen d -> llen (write_at d pos data) = llen d.
Proof. intros. pose proof (llen_nonneg data). unfold write_at, llen in *. rewrite !length_app, length_take, length_drop. lia. Qed.
Lemma write_at_data d pos data : 0 <= pos <= llen d -> take (length data) (drop (Z.to_nat pos) (write_at d pos data)) = data.
Proof.
  intros Hp. unfold write_at. rewrite drop_app_length' by (unfold llen in Hp; rewrite length_take; lia). by rewrite take_app_length.
Qed.

Lemma disk_creator_spec fat_image out fat h :
  openable out = true -> h !! fat_image = Some fat -> fat_image <> out -> 512 <= llen fat < 2 ^ 63 ->
  exists disk, disk_creator_create openable fat_image out h = Done (<[out := disk]> h, Ok tt) /\
    llen disk = llen fat + 1024 * 64 /\ holds_volume disk fat.
Proof.
  intros Hopen Hfat Hne Hlen. unfold disk_creator_create. rewrite Hopen. cbn [negb]. rewrite lookup_insert_ne, Hfat by done.
  unfold add_ovf. rewrite (proj2 (Z.ltb_lt _ _)) by lia. cbn [mbind outcome_bind]. set (n := llen fat + 1024 * 64).
  assert (n / 512 = llen fat / 512 + 128) as Hn by (subst n; rewrite <- Z.div_add by lia; done).
  assert (1 <= llen fat / 512) as Hq by (apply (Z.div_le_mono 512 _ 512); lia).
  pose proof (Z.div_mod (llen fat) 512). pose proof (Z.mod_pos_bound (llen fat) 512).
  unfold sub_ovf. rewrite (proj2 (Z.leb_le _ _)) by lia. cbn [mbind outcome_bind].
  assert (llen (replicate (Z.to_nat n) 0) = n) as Hlr by (rewrite llen_replicate; lia).
  destruct (overwrite_ok (if n / 512 - 1 <? 2 ^ 32 then n / 512 - 1 else 0xffffffff) (replicate (Z.to_nat n) 0)) as (d & -> & Hd); [lia|].
  rewrite Hlr in Hd. destruct (create_ok d) as (g & -> & Hg); [rewrite Hd; unfold GPT_SECTORS; lia|]. rewrite Hd in Hg.
  destruct (update_ok g _ Hg) as (g1 & -> & Hg1). unfold GPT_SECTORS, FIRST_USABLE in *.
  destruct (add_ok g1 _ (llen fat) Hg1) as (g2 & id & -> & Hg2); [unfold GPT_SECTORS; lia|].
  rewrite (start_ok _ _ _ _ Hg2). destruct (gpt_write_ok _ _ _ _ Hg2) as (g3 & -> & Hl3 & He3). cbn [fst]. rewrite insert_insert_eq.
  exists (write_at (gpt_device g3) (FIRST_USABLE * 512) fat). split; [done|]. unfold FIRST_USABLE in *.
  rewrite write_at_len by lia. split; [lia|]. split.
  - etransitivity; [|exact He3]. apply entries_in_front; [rewrite write_at_len; lia|]. apply write_at_take. unfold FIRST_USABLE. lia.
  - apply write_at_data. unfold FIRST_USABLE. lia.
  - rewrite write_at_len, Hl3, Hn by lia. unfold FIRST_USABLE, GPT_SECTORS. lia.
Qed.

(** ** The kernel reads it *)

(** A device whose bytes are the disk; [gpt_disk_io] reads the table through a
    clone of it, and a seek inside it succeeds. *)
Record reads_disk {W T E} `{ByteDevice W T E} (w : W) (device : T) (disk : list Z) : Prop := {
  rd_inv : bd_inv w device;
  rd_size : bd_size device = llen disk;
  rd_image : image_bytes (bd_image w device) 0 (llen disk) = disk;
}.
Class GptReaderLaws (W T E : Type) `{ByteDevice W T E} `{Gpt W T} : Prop := {
  table_found w device disk es : reads_disk w device disk -> gpt_entries disk = Some es ->
    gpt_block_size device = Some 512 /\
    exists w1 w2 header layout, gpt_disk_new w device = Done (w1, Ok tt) /\ gpt_read_header w1 device = Done (w2, Ok header) /\
      gpt_signature_valid header = true /\ gpt_entry_layout header = Ok layout /\
      forall n, 0 <= n -> exists w3, gpt_nth_entry w2 device layout n = Done (w3, Ok (Ok <$> es !! Z.to_nat n)) /\ reads_disk w3 device disk;
  seek_inside w device p : bd_inv w device -> 0 <= p <= bd_size device ->
    exists w' device', fio_seek w device (SeekStart p) = Done (w', device', Ok p);
}.

Lemma partition_reads_volume {W T E} `{ByteDevice W T E} `{!Gpt W T} `{!GptReaderLaws W T E} (w : W) (device : T) (disk fat : list Z) :
  reads_disk w device disk -> holds_volume disk fat -> llen disk < 2 ^ 63 -> 512 <= llen fat ->
  exists w' p, partition_new w device 0 = Done (w', Ok p) /\ part_inv w' p /\ position p = 0 /\
    image_bytes (fun i => bd_image w' (block_device p) (start p + i)) 0 (stop p - start p) = take (Z.to_nat (llen fat / 512 * 512)) fat.
Proof.
  intros Hd [Ht Hb Hr] Hdl Hfl. unfold FIRST_USABLE, GPT_SECTORS in *.
  destruct (table_found w device disk _ Hd Ht) as (Hbs & w1 & w2 & header & layout & Hop1 & Hop2 & Hop3 & Hop4 & Hop5).
  destruct (Hop5 0) as (w3 & Hn & Hd3); [lia|]. change ([(34, 34 + llen fat / 512 - 1)] !! Z.to_nat 0) with (Some (34, 34 + llen fat / 512 - 1)) in Hn.
  cbn [fmap option_fmap option_map] in Hn.
  unfold partition_new. rewrite Hbs, Hop1. cbn [mbind outcome_bind]. rewrite Hop2. cbn [mbind outcome_bind]. rewrite Hop3. cbn [negb]. rewrite Hop4, Hn.
  cbn [mbind outcome_bind].
  pose proof (Z.div_mod (llen fat) 512). pose proof (Z.mod_pos_bound (llen fat) 512).
  assert (1 <= llen fat / 512) by (apply (Z.div_le_mono 512 _ 512); lia).
  assert (llen disk / 512 * 512 <= llen disk) by (rewrite Z.mul_comm; apply Z.mul_div_le; lia).
  unfold checked_mul, checked_add. assert ((34 * 512 <? 2 ^ 64) = true) as -> by done.
  assert ((34 + llen fat / 512 - 1 + 1 <? 2 ^ 64) = true) as -> by (apply Z.ltb_lt; lia). cbn [mbind option_bind].
  assert (((34 + llen fat / 512 - 1 + 1) * 512 <? 2 ^ 64) = true) as -> by (apply Z.ltb_lt; lia).
  destruct Hd3 as [Hinv Hsize Himg]. destruct (seek_inside w3 device (34 * 512) Hinv) as (w4 & device' & Hs); [lia|]. rewrite Hs.
  cbn [mbind outcome_bind]. destruct (bd_seek w3 device (34 * 512) w4 device' (34 * 512) Hinv ltac:(lia) Hs) as (Hinv4 & Hpos4 & _ & Himg4).
  eexists w4, _. split; [reflexivity|]. cbn [start stop position block_device]. split; [|split; [done|]].
  - split; cbn [start stop position block_device]; [done|lia|lia|lia|lia].
  - replace ((34 + llen fat / 512 - 1 + 1) * 512 - 34 * 512) with (llen fat / 512 * 512) by lia. set (len := llen fat / 512 * 512) in *.
    rewrite <- image_bytes_shift, Z.add_0_r.
    transitivity (image_bytes (bd_image w3 device) (34 * 512) len).
    { unfold image_bytes. apply list_fmap_ext. intros. apply Himg4. }
    rewrite <- Hb, take_take, Nat.min_l by (unfold llen in *; lia).
    rewrite <- Himg. rewrite (image_bytes_split _ 0 (llen disk) (34 * 512)) by lia.
    rewrite drop_app_length' by (pose proof (image_bytes_len (bd_image w3 device) 0 (34 * 512)); unfold llen in *; lia).
    rewrite (image_bytes_split _ _ (llen disk - 34 * 512) len) by lia.
    rewrite take_app_length'; [done|]. pose proof (image_bytes_len (bd_image w3 device) (0 + 34 * 512) len). unfold llen in *. lia.
Qed.
End Disks.

(** ** The lists of the builder *)

Definition target_check (p : str) : bool :=
  bool_decide (p = path_of (starts_with p [SLASH]) (names p)) && negb (bool_decide (names p = [])) && forallb valid_name (names p).
Lemma target_check_ok p : target_check p = true -> target_ok p.
Proof. unfold target_check. intros Hc. reflect_bools. by exists (starts_with p [SLASH]), (names p). Qed.
Fixpoint apart_check (ks : list (list str)) : bool :=
  match ks with
  | [] => true
  | k :: ks => forallb (fun k' => negb (bool_decide (k `prefix_of` k')) && negb (bool_decide (k' `prefix_of` k))) ks && apart_check ks
  end.
Lemma apart_check_ok (files : Files) : apart_check (key <$> files.*1) = true -> prefix_free files.
Proof.
  induction files as [|[p src] files IH]; cbn [fmap list_fmap apart_check fst]; intros Hc i j e1 e2 H1 H2 Hp; [done|].
  apply andb_prop in Hc as [Ha Hc]. rewrite forallb_forall in Ha.
  assert (forall e, e ∈ files -> ~ key p `prefix_of` key e.1 /\ ~ key e.1 `prefix_of` key p) as Hap.
  { intros e He. specialize (Ha (key e.1)). rewrite <- list_elem_of_In in Ha.
    assert (key e.1 ∈ key <$> files.*1) as Hk by (by apply list_elem_of_fmap_2, list_elem_of_fmap_2). specialize (Ha Hk).
    apply andb_prop in Ha as [Ha1 Ha2]. apply negb_true_iff, bool_decide_eq_false in Ha1, Ha2. done. }
  destruct i as [|i], j as [|j]; [done| | |].
  - injection H1 as <-. change (files !! j = Some e2) in H2. apply list_elem_of_lookup_2, Hap in H2 as [H2 _]. done.
  - injection H2 as <-. change (files !! i = Some e1) in H1. apply list_elem_of_lookup_2, Hap in H1 as [_ H1]. done.
  - f_equal. by apply (IH Hc i j e1 e2).
Qed.

(** The order of a [BTreeMap] is that of its keys. *)
Fixpoint insert_key (k : str) (l : list str) : list str :=
  match l with [] => [k] | k' :: l' => match str_compare k k' with Lt => k :: l | Eq => k :: l' | Gt => k' :: insert_key k l' end end.
Lemma btree_insert_keys e l : (btree_insert e l).*1 = insert_key e.1 l.*1.
Proof. induction l as [|f l IH]; [done|]. cbn [btree_insert insert_key fmap list_fmap]. destruct (str_compare e.1 f.1); cbn [fmap list_fmap]; by rewrite ?IH. Qed.
Lemma btree_insert_in e l : e ∈ btree_insert e l.
Proof. induction l as [|f l IH]; cbn [btree_insert]; [set_solver|]. destruct (str_compare e.1 f.1); set_solver. Qed.
Lemma btree_from_keys l : (btree_from l).*1 = foldl (fun m k => insert_key k m) [] l.*1.
Proof.
  unfold btree_from. assert (forall m, (foldl (fun m e => btree_insert e m) m l).*1 = foldl (fun m k => insert_key k m) m.*1 l.*1) as Hf; [|apply (Hf [])].
  induction l as [|e l IH]; intros m; [done|]. cbn [foldl fmap list_fmap]. by rewrite IH, btree_insert_keys.
Qed.
Definition list_check (ks : list str) : bool := forallb target_check ks && apart_check (key <$> ks).
Lemma list_check_ok (files : Files) : list_check files.*1 = true -> Forall (fun e => target_ok e.1) files /\ prefix_free files.
Proof.
  unfold list_check. intros [Ht Ha]%andb_prop. split; [|by apply apart_check_ok]. rewrite forallb_forall in Ht. apply Forall_forall.
  intros e He. apply target_check_ok, Ht, list_elem_of_In. by apply list_elem_of_fmap_2.
Qed.

Lemma join_inj a b c : b <> c -> starts_with b [SLASH] = false -> starts_with c [SLASH] = false -> join a b <> join a c.
Proof.
  unfold join. intros Hne -> ->. destruct (_ || _); intros He; apply app_inv_head in He; [done|]. by injection He as He.
Qed.

(** ** The boot image *)

Section Image.
Context `{FL : FatLaws} `{GL : GptWriterLaws} `{TempFiles} (openable : str -> bool).

(** The temporary volume leaves no trace on the host. *)
Lemma image_builder_spec files out h tp :
  openable out = true -> openable tp = true -> new_temp h = Some tp -> tp <> out -> inputs_ok h files out ->
  image_builder_build openable files out h = Done (h, Err (FatFailed NoSpace)) \/
  exists disk fat, image_builder_build openable files out h = Done (<[out := disk]> h, Ok tt) /\
    llen disk < 2 ^ 63 /\ 512 <= llen fat /\ holds_volume disk fat /\ fat_contents fat = Some (tree_of h ∅ files).
Proof.
  intros Hout Htp Hnew Hne Hin. pose proof (new_temp_fresh _ _ Hnew) as Hfresh. pose proof (sizes_sum_nonneg h files) as Hnn.
  unfold image_builder_build. rewrite Hnew. set (h1 := <[tp := []]> h).
  assert (Forall (fun e => e.2 <> tp) files) as Hsrc.
  { eapply Forall_impl; [apply (io_files _ _ _ Hin)|]. intros e (_ & (c & Hc & _) & _) He. congruence. }
  assert (inputs_ok h1 files tp) as Hin1.
  { destruct (inputs_other h files out tp [] Hin Hsrc) as [Hf1 Hf2 Hf3]. split; [|done|done].
    rewrite Forall_forall in *. intros e He. destruct (Hf1 e He) as (? & ? & _). by specialize (Hsrc e He). }
  assert (tree_of h1 ∅ files = tree_of h ∅ files) as Htree.
  { apply tree_of_ext. eapply Forall_impl; [apply Hsrc|]. intros e He. subst h1. by rewrite lookup_insert_ne. }
  destruct (fat_builder_create_spec openable files tp h1 Htp Hin1) as (v & Hv & Hr). subst h1. rewrite insert_insert_eq in Hr.
  pose proof (sizes_sum_nonneg (<[tp := []]> h) files). pose proof (io_size _ _ _ Hin1). unfold ADDITIONAL_SPACE, FAT_MAX in *.
  destruct Hr as [[-> Hc]| ->]; cbn [mbind outcome_bind].
  - destruct (disk_creator_spec openable tp out v (<[tp := v]> h)) as (disk & -> & Hld & Hd); [done|apply lookup_insert_eq|done|lia|].
    right. exists disk, v. cbn [mbind outcome_bind]. rewrite insert_insert_ne, delete_insert_id by (done || by rewrite lookup_insert_ne).
    rewrite <- Htree. split; [done|]. split; [lia|]. split; [lia|done].
  - left. by rewrite delete_insert_id.
Qed.

Context (doglinked_path t_path imgview_path ipc_demo_path upppd_path kernel_path manifest_dir : str).
Abbreviation initrd_list := (initrd_files doglinked_path t_path imgview_path ipc_demo_path upppd_path manifest_dir).
Abbreviation boot_list := (boot_files kernel_path manifest_dir).
Abbreviation build_image := (build_img openable doglinked_path t_path imgview_path ipc_demo_path upppd_path kernel_path manifest_dir).
Abbreviation INITRD root := (join root (bytes_of "initrd.img")).
Abbreviation IMAGE root := (join root (bytes_of "DoglinkOS-2nd.img")).

(** What the host must provide: the inputs, in files that are not the outputs and
    fit in a FAT file, and a place for the outputs. *)
Record host_ready (serial : bool) (h : Host) (root : str) : Prop := {
  hr_root : parent manifest_dir = Some root;
  hr_open : openable (INITRD root) = true /\ openable (IMAGE root) = true;
  hr_initrd : Forall (fun e => source_ok h e.2 /\ e.2 <> INITRD root) initrd_list;
  hr_size : sizes_sum h initrd_list + ADDITIONAL_SPACE < FILE_MAX;
  hr_boot : Forall (fun e => (e.2 = INITRD root \/ source_ok h e.2) /\ e.2 <> IMAGE root) (boot_list serial (INITRD root));
  hr_temp : forall c, exists tp, new_temp (<[INITRD root := c]> h) = Some tp /\ openable tp = true /\ tp <> IMAGE root;
}.

Lemma initrd_list_ok : Forall (fun e => target_ok e.1) initrd_list /\ prefix_free initrd_list.
Proof. apply list_check_ok. unfold initrd_files. rewrite btree_from_keys. cbn [fmap list_fmap fst]. vm_compute. reflexivity. Qed.
Lemma boot_list_ok serial p : Forall (fun e => target_ok e.1) (boot_list serial p) /\ prefix_free (boot_list serial p).
Proof. apply list_check_ok. unfold boot_files. rewrite btree_from_keys. cbn [fmap list_fmap fst]. vm_compute. reflexivity. Qed.
Lemma sizes_bound h files : Forall (fun e => source_ok h e.2) files -> sizes_sum h files <= llen files * FILE_MAX.
Proof.
  induction 1 as [|e files (c & Hc & Hm) _ IH]; [done|]. cbn [sizes_sum foldr]. rewrite Hc, llen_cons. cbn [default id]. unfold sizes_sum in IH. lia.
Qed.
Lemma boot_list_len serial p : llen (boot_list serial p) = 4.
Proof.
  assert (llen (boot_list serial p) = llen (boot_list serial p).*1) as -> by (unfold llen; by rewrite length_fmap).
  unfold boot_files. rewrite btree_from_keys. cbn [fmap list_fmap fst]. vm_compute. reflexivity.
Qed.
Lemma initrd_in_boot serial p : (bytes_of "initrd.img", p) ∈ boot_list serial p.
Proof. unfold boot_files, btree_from. cbn [foldl]. apply btree_insert_in. Qed.
Lemma initrd_not_image root : INITRD root <> IMAGE root.
Proof. by apply join_inj. Qed.
Lemma initrd_inputs serial h root : host_ready serial h root -> inputs_ok h initrd_list (INITRD root).
Proof.
  intros Hr. destruct initrd_list_ok as [Ht Hf]. split; [|done|].
  - pose proof (hr_initrd _ _ _ Hr) as Hs. rewrite Forall_forall in *. intros e He. destruct (Hs e He). by split; [apply Ht|].
  - pose proof (hr_size _ _ _ Hr). unfold FILE_MAX, FAT_MAX in *. lia.
Qed.
Lemma boot_inputs serial h root v : host_ready serial h root -> llen v < FILE_MAX ->
  inputs_ok (<[INITRD root := v]> h) (boot_list serial (INITRD root)) (IMAGE root).
Proof.
  intros Hr Hv. destruct (boot_list_ok serial (INITRD root)) as [Ht Hf].
  assert (Forall (fun e => source_ok (<[INITRD root := v]> h) e.2) (boot_list serial (INITRD root))) as Hs.
  { eapply Forall_impl; [apply (hr_boot _ _ _ Hr)|]. intros e [He _]. destruct (decide (e.2 = INITRD root)) as [->|Hn].
    - exists v. by rewrite lookup_insert_eq.
    - destruct He as [He|(c & Hc & Hm)]; [done|]. exists c. by rewrite lookup_insert_ne. }
  split; [|done|].
  - pose proof (hr_boot _ _ _ Hr) as Hb. rewrite Forall_forall in *. intros e He. split; [by apply Ht|]. split; [by apply Hs|by apply Hb].
  - pose proof (sizes_bound _ _ Hs) as Hb. rewrite boot_list_len in Hb. unfold ADDITIONAL_SPACE, FILE_MAX, FAT_MAX in *. lia.
Qed.

(** C14: The image the builder makes is the one the kernel finds: when its inputs are
    there, [build_img] either stops because a volume is too small, or leaves on the
    host, next to the initial RAM disk, a disk whose one partition lies in front of
    the second copy of the table; opened by the kernel's partition layer on any
    device that holds these bytes, partition 0 reads as a file system with exactly
    the kernel, the boot loader, its configuration and the RAM disk; and the RAM disk
    is a file system with exactly the programs and the resources, and the
    directories they are in. *)
Theorem built_image_boots {W T E : Type} `{ByteDevice W T E} `{!Gpt W T} `{!GptReaderLaws W T E} (serial : bool) (h : Host) (root : str) :
  host_ready serial h root ->
  exists ram, let h1 := <[INITRD root := ram]> h in
    (fat_builder_create openable initrd_list (INITRD root) h = Done (h1, Err (FatFailed NoSpace)) /\ build_image serial h = Panic) \/
    (exists t, fat_contents ram = Some t /\ describes h t initrd_list) /\
    ((image_builder_build openable (boot_list serial (INITRD root)) (IMAGE root) h1 = Done (h1, Err (FatFailed NoSpace)) /\
        build_image serial h = Panic) \/
     exists disk fat t, build_image serial h = Done (<[IMAGE root := disk]> h1, IMAGE root) /\ holds_volume disk fat /\
       describes h1 t (boot_list serial (INITRD root)) /\ t !! key (bytes_of "initrd.img") = Some (FileNode ram) /\
       forall (w : W) (device : T), reads_disk w device disk -> exists w' p, partition_new w device 0 = Done (w', Ok p) /\
         part_inv w' p /\ position p = 0 /\
         fat_contents (image_bytes (fun i => bd_image w' (block_device p) (start p + i)) 0 (stop p - start p)) = Some t).
Proof.
  intros Hr. pose proof (initrd_inputs _ _ _ Hr) as Hin. destruct (hr_open _ _ _ Hr) as [Ho1 Ho2]. unfold build_img.
  rewrite (hr_root _ _ _ Hr). cbn [unwrap mbind outcome_bind].
  destruct (fat_builder_create_spec openable _ _ _ Ho1 Hin) as (ram & Hl & [[-> Hc]| ->]); exists ram; [right|by left].
  cbn [unwrap_ok mbind outcome_bind]. split.
  { eexists. split; [exact Hc|]. apply tree_of_describes; [apply initrd_list_ok|].
    eapply Forall_impl; [apply (io_files _ _ _ Hin)|]. by intros e (_ & (c & Hc' & _) & _). }
  destruct (hr_temp _ _ _ Hr ram) as (tp & Hnew & Htp & Hne). pose proof (hr_size _ _ _ Hr) as Hsz.
  pose proof (boot_inputs serial h root ram Hr ltac:(lia)) as Hb.
  destruct (image_builder_spec _ _ _ tp Ho2 Htp Hnew Hne Hb) as [-> |(disk & fat & -> & Hld & Hlf & Hd & Hfat)]; [by left|right].
  cbn [unwrap_ok mbind outcome_bind].
  assert (describes (<[INITRD root := ram]> h) (tree_of (<[INITRD root := ram]> h) ∅ (boot_list serial (INITRD root))) (boot_list serial (INITRD root))) as Hdesc.
  { apply tree_of_describes; [apply boot_list_ok|]. eapply Forall_impl; [apply (io_files _ _ _ Hb)|]. by intros e (_ & (c & Hc' & _) & _). }
  exists disk, fat, (tree_of (<[INITRD root := ram]> h) ∅ (boot_list serial (INITRD root))).
  split; [done|]. split; [done|]. split; [exact Hdesc|]. split.
  { apply Hdesc. left. exists (bytes_of "initrd.img"), (INITRD root), ram. split; [|by rewrite lookup_insert_eq].
    apply initrd_in_boot. }
  intros w device Hrd. destruct (partition_reads_volume w device disk fat Hrd Hd Hld Hlf) as (w' & p & Hp & Hpi & Hpos & Hbytes).
  exists w', p. split; [done|]. split; [done|]. split; [done|]. by rewrite Hbytes, sectors_ok.
Qed.
End Image.

(** ** Witness: crates that keep their promises *)

Module Crates.
#[export] Instance Node_eq_dec : EqDecision Node. Proof. solve_decision. Defined.
#[export] Instance Node_countable : Countable Node.
Proof.
  refine (inj_countable' (fun n => match n with DirNode => None | FileNode c => Some c end)
    (fun o => match o with None => DirNode | Some c => FileNode c end) _). by intros [].
Defined.

(** A volume is a tree, encoded in its first number. *)
Definition volume (size : nat) (t : Tree) : list Z := Zpos (encode t) :: replicate (511 + size) 0.
Definition volume_tree (v : list Z) : option Tree :=
  if llen v <? 512 then None else match v with Zpos p :: _ => decode p | _ => None end.
Lemma volume_len n t : llen (volume n t) = 512 + Z.of_nat n.
Proof. unfold volume. rewrite llen_cons, llen_replicate. lia. Qed.
Lemma volume_tree_volume n t : volume_tree (volume n t) = Some t.
Proof. unfold volume_tree. rewrite volume_len, (proj2 (Z.ltb_ge _ _)) by lia. unfold volume. apply decode_encode. Qed.

#[export] Instance tree_volume : FatVolume := {|
  FatFs := nat * Tree; FatHandle := list str;
  format_volume v := if llen v <? 512 then Err FatOther else Ok (volume (length v - 512) ∅);
  fs_open v := match volume_tree v with Some t => Ok (length v - 512, t)%nat | None => Err FatOther end;
  fs_drop s := volume s.1 s.2;
  create_dir s p := ((s.1, <[key p := DirNode]> s.2), Ok tt);
  create_file s p := ((s.1, <[key p := FileNode []]> s.2), Ok (key p));
  file_truncate s h := (s, h, Ok tt);
  file_write s h buf :=
    match s.2 !! h with Some (FileNode c) => ((s.1, <[h := FileNode (c ++ buf)]> s.2), h, Ok (llen buf)) | _ => (s, h, Err FatOther) end;
  file_drop s _ := s;
|}.
#[export] Program Instance tree_laws : FatLaws := {|
  fat_contents := volume_tree;
  fs_view s := s.2;
  fs_size s := 512 + Z.of_nat s.1;
  handle_at _ h k _ := h = k;
|}.
Next Obligation.
  intros v Hv. cbn. unfold FAT_MIN in Hv. rewrite (proj2 (Z.ltb_ge _ _)) by lia. eexists. split; [done|].
  rewrite volume_len, volume_tree_volume. split; [|done]. unfold llen in *. lia.
Qed.
Next Obligation.
  intros v t Hv. cbn. rewrite Hv. eexists. split; [done|]. split; [done|]. unfold volume_tree in Hv.
  destruct (Z.ltb_spec (llen v) 512); [done|]. cbn. unfold llen in *. lia.
Qed.
Next Obligation. intros s. cbn. by rewrite volume_len, volume_tree_volume. Qed.
Next Obligation. intros s p ks k _ _ _ _. eexists. split; [|left; split; reflexivity]. done. Qed.
Next Obligation. intros s p ks k _ _ _ _. eexists. split; [|left; eexists; split; [reflexivity|done]]. done. Qed.
Next Obligation. intros s h k Hh _. by exists s, h. Qed.
Next Obligation.
  intros s h k c buf <- Hk Hb _. cbn. rewrite Hk. eexists _, _. split; [|left; eexists; split; [reflexivity|]]; [done|].
  pose proof (llen_nonneg buf). destruct buf as [|b buf]; [done|]. rewrite llen_cons in *. pose proof (llen_nonneg buf).
  split; [lia|]. split; [|done]. cbn. do 3 f_equal. symmetry. apply take_ge. unfold llen. cbn. lia.
Qed.
Next Obligation. done. Qed.
Next Obligation.
  intros v. unfold volume_tree. destruct (Z.ltb_spec (llen v) 512) as [Hv|Hv].
  - rewrite Z.div_small by (pose proof (llen_nonneg v); lia). done.
  - pose proof (Z.div_mod (llen v) 512). pose proof (Z.mod_pos_bound (llen v) 512).
    assert (1 <= llen v / 512) by (apply (Z.div_le_mono 512 _ 512); lia).
    rewrite (proj2 (Z.ltb_ge _ _)) by (unfold llen in *; rewrite length_take; lia).
    destruct v as [|x v]; [done|]. destruct (Z.to_nat (llen (x :: v) / 512 * 512)) eqn:En; [lia|]. done.
Qed.

(** A table is two numbers behind the first sector. *)
Definition entries (d : list Z) : option (list (Z * Z)) := f ← d !! 512%nat; l ← d !! 513%nat; Some [(f, l)].
#[export] Instance two_numbers : GptWriter := {|
  GptDisk := list Z * option (Z * Z);
  overwrite_lba0 _ d := Ok d;
  create_from_device d := Ok (d, None);
  update_partitions g := (g, Ok tt);
  add_partition g size := ((g.1, Some (FIRST_USABLE, FIRST_USABLE + size / 512 - 1)), Ok 0);
  partition_start g _ := (fun e => e.1 * 512) <$> g.2;
  gpt_write g := match g.2 with Some e => ((<[513%nat := e.2]> (<[512%nat := e.1]> g.1), g.2), Ok tt) | None => (g, Err tt) end;
  gpt_device g := g.1;
|}.
#[export] Program Instance two_numbers_laws : GptWriterLaws := {|
  gpt_entries := entries;
  gpt_empty g n := llen g.1 = n /\ GPT_SECTORS < n / 512;
  gpt_holds g n _ e := llen g.1 = n /\ GPT_SECTORS < n / 512 /\ g.2 = Some e;
|}.
Next Obligation. intros mbr d _. by eexists. Qed.
Next Obligation. intros d Hd. by eexists. Qed.
Next Obligation. intros g n Hg. by eexists. Qed.
Next Obligation. intros g n size [Hg Hn] _. eexists _, _. split; [reflexivity|]. done. Qed.
Next Obligation. intros g n id e (_ & _ & He). cbn. by rewrite He. Qed.
Next Obligation.
  intros [d o] n id e (Hd & Hn & He). cbn in *. subst o. eexists. split; [reflexivity|]. cbn. rewrite !llen_insert. split; [done|].
  unfold GPT_SECTORS in Hn. assert (513 < length d)%nat as Hl by (pose proof (Z.mul_div_le n 512); unfold llen in Hd; lia). unfold entries.
  rewrite (list_lookup_insert_ne _ 513 512), (list_lookup_insert_eq d 512) by lia. cbn [mbind option_bind].
  rewrite list_lookup_insert_eq by (rewrite length_insert; lia). cbn [mbind option_bind]. by destruct e.
Qed.
Next Obligation.
  intros d d' _ Ht. assert (forall i, (i < Z.to_nat (FIRST_USABLE * 512))%nat -> d' !! i = d !! i) as He.
  { intros i Hi. rewrite <- (lookup_take_lt d' _ _ Hi), <- (lookup_take_lt d _ _ Hi). by rewrite Ht. }
  unfold entries. rewrite !He by (unfold FIRST_USABLE; lia). done.
Qed.

Definition temp_path : str := bytes_of "/tmp/fat".
#[export] Program Instance one_temp : TempFiles := { new_temp h := match h !! temp_path with None => Some temp_path | Some _ => None end }.
Next Obligation. intros h p. cbn. case_match eqn:E; intros [= <-]. exact E. Qed.

(** A device is a cursor over the bytes, and knows their number. *)
#[export] Instance cursor_io : FatIo (list Z) (Z * Z) unit := {
  fio_read w d buf :=
    let n := Z.min (llen buf) (Z.max 0 (d.2 - d.1)) in
    Done (w, (d.1 + n, d.2), image_bytes (fun i => w !!! Z.to_nat i) d.1 n ++ drop (Z.to_nat n) buf, Ok n);
  fio_write w d _ := Done (w, d, Err tt);
  fio_seek w d p := match p with SeekStart q => if q <=? d.2 then Done (w, (q, d.2), Ok q) else Done (w, d, Err tt) | _ => Done (w, d, Err tt) end;
}.
#[export] Program Instance cursor_device : ByteDevice (list Z) (Z * Z) unit := {|
  bd_inv w d := d.2 = llen w /\ 0 <= d.1 <= d.2;
  bd_pos d := d.1;
  bd_size d := d.2;
  bd_image w _ i := w !!! Z.to_nat i;
|}.
Next Obligation. intros w t [? ?]. done. Qed.
Next Obligation.
  intros w [p n] buf w' t' buf' k [Hw Ht]. cbn in *. intros [= <- <- <- <-]. pose proof (llen_nonneg buf). cbn. repeat split; lia.
Qed.
Next Obligation.
  intros w [p n] q w' t' k [Hw Ht] Hq. cbn in *. destruct (Z.leb_spec q n); [|done]. intros [= <- <- <-]. cbn. repeat split; lia.
Qed.
#[export] Instance table_reader : Gpt (list Z) (Z * Z) := {|
  GptHeader := unit; GptLayout := unit;
  gpt_block_size _ := Some 512;
  gpt_disk_new w _ := Done (w, Ok tt);
  gpt_read_header w _ := Done (w, match entries w with Some _ => Ok tt | None => Err tt end);
  gpt_signature_valid _ := true;
  gpt_entry_layout _ := Ok tt;
  gpt_nth_entry w _ _ n := Done (w, match entries w with Some es => Ok (Ok <$> es !! Z.to_nat n) | None => Err tt end);
|}.
Lemma image_whole (w : list Z) : image_bytes (fun i => w !!! Z.to_nat i) 0 (llen w) = w.
Proof.
  unfold image_bytes. apply list_eq. intros i. rewrite list_lookup_fmap. destruct (decide (i < length w)%nat).
  - rewrite lookup_seqZ_lt by (unfold llen; lia). cbn. rewrite Z.add_0_l, Nat2Z.id. symmetry. by apply list_lookup_lookup_total_lt.
  - rewrite lookup_seqZ_ge by (unfold llen; lia). cbn. symmetry. apply lookup_ge_None_2. lia.
Qed.
#[export] Instance cursor_reader : GptReaderLaws (list Z) (Z * Z) unit.
Proof.
  split.
  - intros w d disk es [[Hd Hp] Hs Hi] He. cbn in *. assert (w = disk) as -> by (by rewrite <- Hi, <- Hs, Hd, image_whole).
    split; [done|]. exists disk, disk, tt, tt. cbn. rewrite He. do 4 (split; [done|]). intros n _. exists disk. split; [done|].
    split; cbn; [done|done|apply image_whole].
  - intros w [p n] q [Hd Hp] Hq. cbn in *. rewrite (proj2 (Z.leb_le _ _)) by lia. eauto.
Qed.

(** A host whose inputs all hold the byte 1. *)
Definition program (name : str) : str := bytes_of "/build/" ++ name.
Definition crate_dir : str := bytes_of "/repo/src/builder".
Definition repo : str := bytes_of "/repo/src".
Definition initrd_inputs : Files := initrd_files (program (bytes_of "init")) (program (bytes_of "exiter")) (program (bytes_of "imgview"))
  (program (bytes_of "demo")) (program (bytes_of "upppd")) crate_dir.
Definition boot_inputs : Files := boot_files (program (bytes_of "kernel")) crate_dir false (join repo (bytes_of "initrd.img")).
Definition host : Host := list_to_map ((fun e => (e.2, [1])) <$> (initrd_inputs ++ filter (fun e => e.2 <> join repo (bytes_of "initrd.img")) boot_inputs)).
Definition source_check (h : Host) (src : str) : bool := match h !! src with Some c => llen c <? FILE_MAX | None => false end.
Lemma source_check_ok h src : source_check h src = true -> source_ok h src.
Proof. unfold source_check, source_ok. destruct (h !! src) as [c|]; [|done]. intros Hc. exists c. split; [done|]. by apply Z.ltb_lt. Qed.
Definition ready := host_ready (fun _ => true) (program (bytes_of "init")) (program (bytes_of "exiter")) (program (bytes_of "imgview"))
  (program (bytes_of "demo")) (program (bytes_of "upppd")) (program (bytes_of "kernel")) crate_dir false host repo.
Lemma host_is_ready : ready.
Proof.
  split.
  - vm_compute. reflexivity.
  - done.
  - apply Forall_forall. intros e He.
    assert (forallb (fun e => source_check host e.2 && negb (bool_decide (e.2 = join repo (bytes_of "initrd.img")))) initrd_inputs = true) as Hc by (vm_compute; reflexivity).
    rewrite forallb_forall in Hc. apply list_elem_of_In, Hc in He. apply andb_prop in He as [H1 H2].
    split; [by apply source_check_ok|]. by apply negb_true_iff, bool_decide_eq_false in H2.
  - vm_compute. reflexivity.
  - apply Forall_forall. intros e He.
    assert (forallb (fun e => (bool_decide (e.2 = join repo (bytes_of "initrd.img")) || source_check host e.2) && negb (bool_decide (e.2 = join repo (bytes_of "DoglinkOS-2nd.img")))) boot_inputs = true) as Hc by (vm_compute; reflexivity).
    rewrite forallb_forall in Hc. apply list_elem_of_In, Hc in He. apply andb_prop in He as [H1 H2].
    split; [|by apply negb_true_iff, bool_decide_eq_false in H2].
    apply orb_prop in H1 as [H1|H1]; [left; by apply bool_decide_eq_true in H1|right; by apply source_check_ok].
  - intros c. exists temp_path. split; [|by split]. cbn [new_temp one_temp].
    rewrite lookup_insert_ne by done. vm_compute. reflexivity.
Qed.
End Crates.

#[local] Existing Instances Crates.tree_volume Crates.two_numbers Crates.one_temp Crates.cursor_io Crates.cursor_device Crates.table_reader Crates.cursor_reader.
Lemma built_image_boots_witness :
  Crates.ready /\ exists ram t, fat_contents (FatLaws := Crates.tree_laws) ram = Some t /\
    t !! key (bytes_of "/SBIN/doglinked") = Some (FileNode [1]) /\ t !! key (bytes_of "/sbin") = Some DirNode /\ t !! key (bytes_of "/sbin/lua") = None.
Proof.
  split; [exact Crates.host_is_ready|].
  destruct (built_image_boots (FL := Crates.tree_laws) (GL := Crates.two_numbers_laws) (fun _ => true) _ _ _ _ _ _ _ (W := list Z) (T := Z * Z) (E := unit)
    false Crates.host Crates.repo Crates.host_is_ready) as (ram & [[Hf _]|[(t & Hram & Hd) _]]).
  - exfalso. apply (f_equal (fun r => match r with Done (_, Ok _) => true | _ => false end)) in Hf. vm_compute in Hf. discriminate.
  - exists ram, t. split; [exact Hram|]. split; [|split].
    + apply Hd. left. exists (bytes_of "/sbin/doglinked"), (Crates.program (bytes_of "init")), [1].
      split; [|split; [vm_compute; reflexivity|split; reflexivity]]. apply (bool_decide_unpack _). vm_compute. exact I.
    + apply Hd. right. split; [reflexivity|]. exists (bytes_of "/sbin/doglinked"), (Crates.program (bytes_of "init")).
      split; apply (bool_decide_unpack _); vm_compute; exact I.
    + destruct (t !! key (bytes_of "/sbin/lua")) as [node|] eqn:E; [exfalso|reflexivity].
      apply Hd in E. assert (forallb (fun e => negb (bool_decide (key (bytes_of "/sbin/lua") = key e.1)) &&
        negb (bool_decide (key (bytes_of "/sbin/lua") ∈ parents_of (key e.1)))) Crates.initrd_inputs = true) as Hc by (vm_compute; reflexivity).
      rewrite forallb_forall in Hc.
      destruct E as [(p & src & c & Hin & _ & Hk & _)|(_ & p & src & Hin & Hk)]; apply list_elem_of_In, Hc, andb_prop in Hin as [H1 H2].
      * rewrite bool_decide_true in H1 by exact Hk. discriminate.
      * rewrite bool_decide_true in H2 by exact Hk. discriminate.
Defined.
