(* ===== verification/Qemu.v ===== *)
(** * Booting the image: [main] of [builder/src/main.rs]

    The options of the builder, what it builds for them, and the command line it
    starts the emulator with.  A device of the command line names the drive, the
    network, the sound card and the bus it uses; all of them are there. *)

From S2P Require Import Prelude Words Vfs Builder.

(** @ builder/src/main.rs:8-88 Args *)
Record Args := mk_Args {
  boot : bool; kvm : bool; whpx : bool; cores : Z; memory : option str; vnc : bool; debug : bool; nvme : bool; sound : bool;
  ps2_special : Z; serial : option str; usb_storage : bool; xhci : bool; xhci_usb2_only : bool; usb_storage_image : option str;
  qmp : option str; headless : bool; serial_console : bool; rtl_nic : bool;
}.

(** Two words of the command line, and words on a condition. *)
Definition option_of (flag : string) (value : str) : list str := [bytes_of flag; value].
Definition on (b : bool) (words : list str) : list str := if b then words else [].
Definition on_some (o : option str) (words : str -> list str) : list str := match o with Some v => words v | None => [] end.

(** [std::env::consts::OS] chooses the sound backend. *)
Definition sound_backend (os : str) : option str :=
  if bool_decide (os = bytes_of "linux") then Some (bytes_of "pa")
  else if bool_decide (os = bytes_of "macos") then Some (bytes_of "coreaudio")
  else if bool_decide (os = bytes_of "windows") then Some (bytes_of "dsound")
  else None.
(** @ builder/src/main.rs:160-163 main needs_xhci *)
Definition needs_xhci (args : Args) : bool :=
  xhci args || xhci_usb2_only args || usb_storage args || ((ps2_special args =? 2) || (ps2_special args =? 3)).

(** @ builder/src/main.rs:105-196 main -- the command *)
Definition qemu_command (os : str) (args : Args) (ovmf_path img_path usb_storage_path : str) : list str :=
  option_of "-machine" (bytes_of "q35") ++
  option_of "-drive" (bytes_of "if=pflash,format=raw,file=" ++ ovmf_path) ++
  option_of "-m" (unwrap_or (bytes_of "256m") (memory args)) ++
  option_of "-smp" (bytes_of "cores=" ++ decimal (cores args)) ++
  option_of "-cpu" (bytes_of "qemu64,+x2apic") ++
  on_some (if sound args then sound_backend os else None) (fun backend =>
    option_of "-audiodev" (backend ++ bytes_of ",id=sound") ++
    option_of "-machine" (bytes_of "pcspk-audiodev=sound") ++
    option_of "-device" (bytes_of "intel-hda") ++
    option_of "-device" (bytes_of "hda-output,audiodev=sound")) ++
  (if nvme args then option_of "-device" (bytes_of "nvme,drive=disk1,serial=deadbeef")
   else option_of "-device" (bytes_of "ahci,id=ahci") ++ option_of "-device" (bytes_of "ide-hd,drive=disk1,bus=ahci.0")) ++
  option_of "-drive" (bytes_of "if=none,format=raw,id=disk1,file=" ++ img_path) ++
  on (kvm args) [bytes_of "--enable-kvm"] ++
  on (whpx args) (option_of "-accel" (bytes_of "whpx")) ++
  on (vnc args) (option_of "-vnc" (bytes_of ":1")) ++
  on (headless args) (option_of "-display" (bytes_of "none")) ++
  on (debug args) [bytes_of "-s"; bytes_of "-S"] ++
  on_some (qmp args) (fun qmp => option_of "-qmp" (bytes_of "unix:" ++ qmp ++ bytes_of ",server=on,wait=off")) ++
  on (needs_xhci args) (option_of "-device"
    (if xhci_usb2_only args || usb_storage args then bytes_of "qemu-xhci,id=xhci,p3=0" else bytes_of "qemu-xhci,id=xhci")) ++
  on (usb_storage args) (
    option_of "-drive" (bytes_of "if=none,format=raw,readonly=on,id=usb-storage-drive,file=" ++ usb_storage_path) ++
    option_of "-device" (bytes_of "usb-storage,id=usb-storage-start,drive=usb-storage-drive,bus=xhci.0")) ++
  (if ps2_special args =? 1 then option_of "-machine" (bytes_of "i8042=off")
   else if ps2_special args =? 2 then option_of "-device" (bytes_of "usb-kbd,bus=xhci.0")
   else if ps2_special args =? 3 then option_of "-device" (bytes_of "usb-mouse,bus=xhci.0")
   else []) ++
  on_some (serial args) (fun opt => option_of "-serial" opt) ++
  on (rtl_nic args) (
    option_of "-device" (bytes_of "rtl8139,netdev=net0") ++
    option_of "-netdev" (bytes_of "user,id=net0")).

Section Main.
Context `{FatVolume} `{GptWriter} `{TempFiles} (openable : str -> bool).
Context (doglinked_path t_path imgview_path ipc_demo_path upppd_path kernel_path manifest_dir : str).
(** [Prebuilt::fetch] and [get_file]: the firmware, or an error; the system the builder runs on. *)
Context (fetch : Host -> option str) (os : str).

(** The command line of the emulator, when it is started. *)
(** @ builder/src/main.rs:90-201 main *)
Definition main (args : Args) (h : Host) : outcome (Host * option (list str)) :=
  '(h, img_path) ← build_img openable doglinked_path t_path imgview_path ipc_demo_path upppd_path kernel_path manifest_dir (serial_console args) h;
  usb_storage_path ← match usb_storage_image args with
    | Some path => Done path
    | None => root ← unwrap (parent manifest_dir); Done (join root (bytes_of "usb-hotplug-test.img"))
    end;
  h ← (if usb_storage args || bool_decide (is_Some (usb_storage_image args)) then
         '(h, r) ← build_usb_storage_image openable manifest_dir usb_storage_path h;
         _ ← unwrap_ok r; Done h
       else Done h);
  if boot args then
    ovmf_path ← unwrap (fetch h);
    Done (h, Some (qemu_command os args ovmf_path img_path usb_storage_path))
  else Done (h, None).
End Main.

(** ** How the emulator reads the command line *)

Definition COMMA : Z := 44.
Definition EQUALS : Z := 61.
Definition lone_flags : list str := [bytes_of "--enable-kvm"; bytes_of "-s"; bytes_of "-S"].
(** Flags with their values; three of them stand alone. *)
Fixpoint options (words : list str) : list (str * str) :=
  match words with
  | [] => []
  | flag :: words' =>
      if bool_decide (flag ∈ lone_flags) then (flag, []) :: options words'
      else match words' with [] => [(flag, [])] | value :: words'' => (flag, value) :: options words'' end
  end.
(** The value of a property in [driver,name=value,...]; [fuel] bounds the properties. *)
Fixpoint property_loop (fuel : nat) (name value : str) : option str :=
  match fuel with
  | O => None
  | S fuel =>
      let '(field, rest) := match split_once COMMA value with Some (f, r) => (f, Some r) | None => (value, None) end in
      match split_once EQUALS field with
      | Some (n, v) => if bool_decide (n = name) then Some v else match rest with Some r => property_loop fuel name r | None => None end
      | None => match rest with Some r => property_loop fuel name r | None => None end
      end
  end.
Definition property (name : string) (value : str) : option str := property_loop 8 (bytes_of name) value.

(** An option of this kind defines the name. *)
Definition defines (opts : list (str * str)) (flag : string) (x : str) : Prop :=
  exists v, (bytes_of flag, v) ∈ opts /\ property "id" v = Some x.
(** What a device refers to is defined; its bus by a device in front of it. *)
Definition device_resolves (before opts : list (str * str)) (d : str) : Prop :=
  (forall x, property "drive" d = Some x -> defines opts "-drive" x) /\
  (forall x, property "netdev" d = Some x -> defines opts "-netdev" x) /\
  (forall x, property "audiodev" d = Some x -> defines opts "-audiodev" x) /\
  (forall b, property "bus" d = Some b -> exists x, defines before "-device" x /\ b = x ++ bytes_of ".0").

(** ** A check, and the options it looks at *)

(** The last definition first: a path at the end of an earlier one is not looked at. *)
Definition defines_check (opts : list (str * str)) (flag : string) (x : str) : bool :=
  existsb (fun o => bool_decide (o.1 = bytes_of flag) && bool_decide (property "id" o.2 = Some x)) (rev opts).
Definition name_check (opts : list (str * str)) (name flag : string) (d : str) : bool :=
  match property name d with Some x => defines_check opts flag x | None => true end.
Definition device_check (before opts : list (str * str)) (d : str) : bool :=
  name_check opts "drive" "-drive" d && name_check opts "netdev" "-netdev" d && name_check opts "audiodev" "-audiodev" d &&
  match property "bus" d with
  | Some b => let x := take (length b - 2) b in bool_decide (b = x ++ bytes_of ".0") && defines_check before "-device" x
  | None => true
  end.
Fixpoint devices_check (before opts rest : list (str * str)) : bool :=
  match rest with
  | [] => true
  | o :: rest => (if bool_decide (o.1 = bytes_of "-device") then device_check before opts o.2 else true) && devices_check (before ++ [o]) opts rest
  end.

Lemma defines_check_ok opts flag x : defines_check opts flag x = true -> defines opts flag x.
Proof.
  unfold defines_check. rewrite existsb_exists. intros ([f v] & Hin & Ho). cbn [fst snd] in Ho. reflect_bools. subst. exists v.
  split; [by apply list_elem_of_In, in_rev|done].
Qed.
Lemma defines_mono opts opts' flag x : opts ⊆ opts' -> defines opts flag x -> defines opts' flag x.
Proof. intros Hs (v & Hin & Hp). exists v. split; [by apply Hs|done]. Qed.
Lemma name_check_ok opts name flag d x : name_check opts name flag d = true -> property name d = Some x -> defines opts flag x.
Proof. unfold name_check. intros Hc Hp. rewrite Hp in Hc. by apply defines_check_ok. Qed.
Lemma device_check_ok before opts d : device_check before opts d = true -> device_resolves before opts d.
Proof.
  unfold device_check. intros Hc. apply andb_prop in Hc as [Hc Hb]. apply andb_prop in Hc as [Hc Ha]. apply andb_prop in Hc as [Hd Hn].
  split; [by intros x; apply name_check_ok|]. split; [by intros x; apply name_check_ok|]. split; [by intros x; apply name_check_ok|].
  intros b Hp. rewrite Hp in Hb. apply andb_prop in Hb as [He Hb]. apply bool_decide_eq_true in He. eexists. split; [by apply defines_check_ok|exact He].
Qed.
Lemma devices_check_ok opts rest d after : forall before before', devices_check before opts rest = true ->
  rest = before' ++ (bytes_of "-device", d) :: after -> device_resolves (before ++ before') opts d.
Proof.
  induction rest as [|o rest IH]; intros before before' Hc He; [by destruct before'|]. cbn [devices_check] in Hc. apply andb_prop in Hc as [Ho Hc].
  destruct before' as [|o' before']; injection He as -> He.
  - rewrite bool_decide_true in Ho by done. rewrite app_nil_r. by apply device_check_ok.
  - specialize (IH (before ++ [o']) before' Hc He). by rewrite <- app_assoc in IH.
Qed.

(** Every device of a list resolves in it; lists can be put together. *)
Definition resolved (opts : list (str * str)) : Prop :=
  forall before d after, opts = before ++ (bytes_of "-device", d) :: after -> device_resolves before opts d.
Lemma resolves_mono before before' opts opts' d :
  before ⊆ before' -> opts ⊆ opts' -> device_resolves before opts d -> device_resolves before' opts' d.
Proof.
  intros Hb Ho (H1 & H2 & H3 & H4). split; [intros x Hx; eapply defines_mono; [apply Ho|by apply H1]|].
  split; [intros x Hx; eapply defines_mono; [apply Ho|by apply H2]|]. split; [intros x Hx; eapply defines_mono; [apply Ho|by apply H3]|].
  intros b Hp. destruct (H4 b Hp) as (x & Hx & He). exists x. split; [by eapply defines_mono|done].
Qed.
Lemma resolved_app a b : resolved a -> resolved b -> resolved (a ++ b).
Proof.
  intros Ha Hb before d after He. apply app_eq_inv in He as [(k & Hk1 & Hk2)|(k & Hk1 & Hk2)].
  - destruct k as [|o k].
    + rewrite app_nil_r in Hk1. subst. eapply resolves_mono; [| |apply (Hb [] d after); done]; set_solver.
    + injection Hk2 as <- ->. eapply resolves_mono; [| |by apply (Ha before d k)]; set_solver.
  - eapply resolves_mono; [| |apply (Hb k d after); done]; set_solver.
Qed.
Lemma resolved_check opts : devices_check [] opts opts = true -> resolved opts.
Proof. intros Hc before d after He. apply (devices_check_ok _ _ _ _ [] _ Hc He). Qed.

(** Words that end with an option are read by themselves. *)
Definition whole (words : list str) : Prop := forall rest, options (words ++ rest) = options words ++ options rest.
Lemma whole_nil : whole [].
Proof. done. Qed.
Lemma whole_app a b : whole a -> whole b -> whole (a ++ b).
Proof. intros Ha Hb rest. by rewrite <- app_assoc, !Ha, Hb, app_assoc. Qed.
Lemma whole_lone flag : flag ∈ lone_flags -> whole [flag].
Proof. intros Hf rest. cbn [app options]. by rewrite bool_decide_true. Qed.
Lemma whole_option flag v : bytes_of flag ∉ lone_flags -> whole (option_of flag v).
Proof. intros Hf rest. unfold option_of. cbn [app options]. by rewrite bool_decide_false. Qed.
Lemma whole_on b words : whole words -> whole (on b words).
Proof. destruct b; [done|intros _; apply whole_nil]. Qed.
Lemma whole_on_some o words : (forall v, whole (words v)) -> whole (on_some o words).
Proof. intros Hw. destruct o; [apply Hw|apply whole_nil]. Qed.
Lemma whole_if (b : bool) x y : whole x -> whole y -> whole (if b then x else y).
Proof. by destruct b. Qed.

(** Words that can be read and whose devices resolve. *)
Definition sound_words (words : list str) : Prop := whole words /\ resolved (options words).
Lemma words_app a b : sound_words a -> sound_words b -> sound_words (a ++ b).
Proof. intros [Wa Ra] [Wb Rb]. split; [by apply whole_app|]. rewrite Wa. by apply resolved_app. Qed.
Lemma words_check words : whole words -> devices_check [] (options words) (options words) = true -> sound_words words.
Proof. intros Hw Hc. split; [done|by apply resolved_check]. Qed.
Lemma words_option flag v : bytes_of flag ∉ lone_flags -> bytes_of flag <> bytes_of "-device" -> sound_words (option_of flag v).
Proof.
  intros Hf Hd. apply words_check; [by apply whole_option|]. unfold option_of. cbn [options]. rewrite bool_decide_false by done.
  cbn [devices_check fst]. by rewrite bool_decide_false.
Qed.
Create HintDb words.
#[export] Hint Resolve whole_nil whole_app whole_on whole_on_some whole_if : words.
#[export] Hint Extern 5 (whole (option_of _ _)) => apply whole_option; by apply (bool_decide_unpack _) : words.
#[export] Hint Extern 5 (whole (_ :: _)) => apply (whole_app [_]); [apply whole_lone; by apply (bool_decide_unpack _)|] : words.
#[export] Hint Extern 5 (sound_words (option_of _ _)) => apply words_option; by apply (bool_decide_unpack _) : words.
Ltac words_by_cases := apply words_check; [auto 10 with words|]; vm_compute; reflexivity.

Lemma sound_card_words (b : bool) os : sound_words (on_some (if b then sound_backend os else None) (fun backend =>
  option_of "-audiodev" (backend ++ bytes_of ",id=sound") ++ option_of "-machine" (bytes_of "pcspk-audiodev=sound") ++
  option_of "-device" (bytes_of "intel-hda") ++ option_of "-device" (bytes_of "hda-output,audiodev=sound"))).
Proof.
  destruct b; [|by apply words_check]. unfold sound_backend. case_bool_decide; [words_by_cases|]. case_bool_decide; [words_by_cases|].
  case_bool_decide; words_by_cases.
Qed.
Lemma disk_words (b : bool) path : sound_words (
  (if b then option_of "-device" (bytes_of "nvme,drive=disk1,serial=deadbeef")
   else option_of "-device" (bytes_of "ahci,id=ahci") ++ option_of "-device" (bytes_of "ide-hd,drive=disk1,bus=ahci.0")) ++
  option_of "-drive" (bytes_of "if=none,format=raw,id=disk1,file=" ++ path)).
Proof. destruct b; words_by_cases. Qed.
Lemma usb_words args path : sound_words (
  on (needs_xhci args) (option_of "-device"
    (if xhci_usb2_only args || usb_storage args then bytes_of "qemu-xhci,id=xhci,p3=0" else bytes_of "qemu-xhci,id=xhci")) ++
  on (usb_storage args) (
    option_of "-drive" (bytes_of "if=none,format=raw,readonly=on,id=usb-storage-drive,file=" ++ path) ++
    option_of "-device" (bytes_of "usb-storage,id=usb-storage-start,drive=usb-storage-drive,bus=xhci.0")) ++
  (if ps2_special args =? 1 then option_of "-machine" (bytes_of "i8042=off")
   else if ps2_special args =? 2 then option_of "-device" (bytes_of "usb-kbd,bus=xhci.0")
   else if ps2_special args =? 3 then option_of "-device" (bytes_of "usb-mouse,bus=xhci.0")
   else [])).
Proof.
  unfold needs_xhci. destruct (xhci args), (xhci_usb2_only args), (usb_storage args), (ps2_special args =? 1), (ps2_special args =? 2), (ps2_special args =? 3);
    words_by_cases.
Qed.

(** Every device of the command line can be made: whatever the options of the
    builder, the host and the paths, the drive, the network and the sound backend a
    device names are defined by an option of that kind, and its bus is the bus of a
    controller that stands in front of it. *)
Theorem qemu_devices_resolve (os : str) (args : Args) (ovmf_path img_path usb_storage_path : str) before d after :
  options (qemu_command os args ovmf_path img_path usb_storage_path) = before ++ (bytes_of "-device", d) :: after ->
  device_resolves before (options (qemu_command os args ovmf_path img_path usb_storage_path)) d.
Proof.
  revert before d after. change (resolved (options (qemu_command os args ovmf_path img_path usb_storage_path))).
  enough (sound_words (qemu_command os args ovmf_path img_path usb_storage_path)) as Hw by apply Hw.
  unfold qemu_command. do 5 (apply words_app; [auto with words|]). apply words_app; [apply sound_card_words|].
  rewrite app_assoc. apply words_app; [apply disk_words|].
  do 5 (apply words_app; [destruct (_ args); words_by_cases|]).
  apply words_app; [destruct (qmp args); words_by_cases|].
  do 2 rewrite app_assoc. apply words_app; [rewrite <- app_assoc; apply usb_words|].
  apply words_app; [destruct (serial args); words_by_cases|destruct (rtl_nic args); words_by_cases].
Qed.

(** A comma in the path of the image ends the value: the builder does not double it. *)
Lemma comma_cuts_path path rest : COMMA ∉ path ->
  property "file" (bytes_of "if=none,format=raw,id=disk1,file=" ++ path ++ COMMA :: rest) = Some path.
Proof.
  intros Hc. unfold property.
  assert (forall c (a b : str), c ∉ a -> split_once c (a ++ c :: b) = Some (a, b)) as Hsplit.
  { intros c a b Ha. induction a as [|x a IH]; [cbn; by rewrite Z.eqb_refl|]. rewrite not_elem_of_cons in Ha. destruct Ha as [Hx Ha].
    cbn [app split_once]. rewrite (proj2 (Z.eqb_neq x c)), (IH Ha) by done. done. }
  change (bytes_of "if=none,format=raw,id=disk1,file=") with
    (bytes_of "if=none" ++ COMMA :: bytes_of "format=raw" ++ COMMA :: bytes_of "id=disk1" ++ COMMA :: bytes_of "file" ++ [EQUALS]).
  rewrite <- !app_assoc. cbn [app]. rewrite <- !app_assoc. cbn [app]. rewrite <- !app_assoc. cbn [app]. rewrite <- !app_assoc. cbn [app].
  do 3 (cbn [property_loop]; rewrite Hsplit by (by apply (bool_decide_unpack _)); cbn [split_once]).
  assert (split_once EQUALS (bytes_of "if=none") = Some (bytes_of "if", bytes_of "none")) as -> by (vm_compute; reflexivity).
  assert (split_once EQUALS (bytes_of "format=raw") = Some (bytes_of "format", bytes_of "raw")) as -> by (vm_compute; reflexivity).
  assert (split_once EQUALS (bytes_of "id=disk1") = Some (bytes_of "id", bytes_of "disk1")) as -> by (vm_compute; reflexivity).
  rewrite !bool_decide_false by done.
  assert (COMMA ∉ bytes_of "file" ++ EQUALS :: path) as Hf.
  { rewrite not_elem_of_app, not_elem_of_cons. split; [by apply (bool_decide_unpack _)|]. by split. }
  assert (EQUALS ∉ bytes_of "file") as Hq by (by apply (bool_decide_unpack _)).
  change (bytes_of "file" ++ EQUALS :: path ++ COMMA :: rest) with (bytes_of "file" ++ (EQUALS :: path) ++ COMMA :: rest).
  rewrite app_assoc, Hsplit, Hsplit by done. by rewrite bool_decide_true.
Qed.
