(* ===== verification/Fat.v ===== *)
(** * FAT file systems: [vfs/fat.rs]

    The wrapper that presents a [fatfs] file system as a directory tree of the
    kernel, and a file of it as a [VfsFile].  The crate is an interface; its errors
    become empty results. *)

From S2P Require Import Prelude Words Vfs Block.

(** [fatfs]: a file system over a device [T]; directories and extents are iterators. *)
Class FatCrate (W T : Type) := {
  FileSystem : Type;
  Dir : Type;
  DirIter : Type;
  File : Type;
  fatfs_new : W -> T -> outcome (W * result FileSystem unit);
  root_dir : FileSystem -> Dir;
  open_file : W -> Dir -> str -> outcome (W * result File unit);
  open_dir : W -> Dir -> str -> outcome (W * result Dir unit);
  create_file : W -> Dir -> str -> outcome (W * result File unit);
  remove_entry : W -> Dir -> str -> outcome (W * result unit unit);
  dir_iter : Dir -> DirIter;
  dir_next : W -> DirIter -> outcome (W * DirIter * option (result (bool * str) unit));
  file_extents : W -> File -> outcome (W * File * list (result Z unit));
  file_read : W -> File -> list Z -> outcome (W * File * list Z * result Z unit);
  file_write : W -> File -> list Z -> outcome (W * File * result Z unit);
  file_seek : W -> File -> SeekFrom -> outcome (W * File * result Z unit);
}.

Section Fat.
Context {W T : Type} `{Cr : !FatCrate W T}.
Implicit Types (w : W).

(** @ vfs/fat.rs:16-16 WrappedFileSystem *)
Record WrappedFileSystem := mk_WrappedFileSystem { wf_fs : FileSystem }.
(** @ vfs/fat.rs:20-20 WrappedFile *)
Record WrappedFile := mk_WrappedFile { wf_file : File }.

(** @ vfs/fat.rs:7-14 get_fs *)
Definition fat_get_fs w (device : option T) : outcome (W * result WrappedFileSystem unit) :=
  match device with
  | None => Done (w, Err tt)
  | Some device =>
      '(w, r) ← fatfs_new w device;
      Done (w, match r with Ok fs => Ok (mk_WrappedFileSystem fs) | Err e => Err e end)
  end.

(** @ vfs/fat.rs:25-31 VfsDirectory::WrappedFileSystem::file *)
Definition fat_file w (fs : WrappedFileSystem) (path : str) : outcome (W * result WrappedFile unit) :=
  '(w, r) ← open_file w (root_dir (wf_fs fs)) path;
  Done (w, match r with Ok f => Ok (mk_WrappedFile f) | Err _ => Err tt end).

(** The loop over the entries; [fuel] bounds their number. *)
Fixpoint collect_entries (fuel : nat) w (it : DirIter) : outcome (W * result (list DirEntry) unit) :=
  match fuel with
  | O => OutOfFuel
  | S fuel =>
      '(w, it, e) ← dir_next w it;
      match e with
      | None => Done (w, Ok [])
      | Some (Err _) => Done (w, Err tt)
      | Some (Ok (is_dir, name)) =>
          '(w, rest) ← collect_entries fuel w it;
          Done (w, match rest with Ok es => Ok (dirent_new is_dir name :: es) | Err e => Err e end)
      end
  end.
(** @ vfs/fat.rs:33-45 VfsDirectory::WrappedFileSystem::directory *)
Definition fat_directory (fuel : nat) w (fs : WrappedFileSystem) (path : str) : outcome (W * result SnapshotDirectory unit) :=
  let root := root_dir (wf_fs fs) in
  '(w, dir) ← (if bool_decide (path = bytes_of "/") || bool_decide (path = []) then Done (w, Ok root) else open_dir w root path);
  match dir with
  | Err _ => Done (w, Err tt)
  | Ok dir =>
      '(w, entries) ← collect_entries fuel w (dir_iter dir);
      Done (w, match entries with Ok es => Ok (snapshot_new es) | Err e => Err e end)
  end.

(** @ vfs/fat.rs:47-53 VfsDirectory::WrappedFileSystem::create_file_or_open_existing *)
Definition fat_create w (fs : WrappedFileSystem) (path : str) : outcome (W * result WrappedFile unit) :=
  '(w, r) ← create_file w (root_dir (wf_fs fs)) path;
  Done (w, match r with Ok f => Ok (mk_WrappedFile f) | Err _ => Err tt end).
(** @ vfs/fat.rs:55-57 VfsDirectory::WrappedFileSystem::remove *)
Definition fat_remove w (fs : WrappedFileSystem) (path : str) : outcome (W * bool) :=
  '(w, r) ← remove_entry w (root_dir (wf_fs fs)) path; Done (w, is_ok r).
(** @ vfs/fat.rs:24-58 VfsDirectory for WrappedFileSystem *)
Definition fat_filesystem (fuel : nat) : VfsDirectory W WrappedFile SnapshotDirectory WrappedFileSystem := {|
  fs_file := fat_file;
  fs_directory := fat_directory fuel;
  fs_create := fat_create;
  fs_remove := fat_remove;
|}.

(** The extents of a file, in order; nothing behind one that cannot be read matters. *)
Fixpoint sum_extents (extents : list (result Z unit)) (res : Z) : Z :=
  match extents with
  | [] => res
  | Err _ :: _ => 0
  | Ok size :: extents => sum_extents extents (saturating_add 64 res size)
  end.
(** @ vfs/fat.rs:63-72 VfsFile::WrappedFile::size *)
Definition fat_size w (f : WrappedFile) : outcome (W * WrappedFile * Z) :=
  '(w, file, extents) ← file_extents w (wf_file f); Done (w, mk_WrappedFile file, sum_extents extents 0).
(** [Result::unwrap_or(0)]. *)
Definition or_zero (r : result Z unit) : Z := match r with Ok n => n | Err _ => 0 end.
(** The casts of the positions are between types of 64 bits. *)
(** @ vfs/fat.rs:60-94 VfsFile for WrappedFile *)
#[global] Instance fat_wrapped_file : VfsFile W WrappedFile := {
  vf_size := fat_size;
  vf_read w f buf := '(w, file, buf, r) ← file_read w (wf_file f) buf; Done (w, mk_WrappedFile file, buf, or_zero r);
  vf_write w f buf := '(w, file, r) ← file_write w (wf_file f) buf; Done (w, mk_WrappedFile file, or_zero r);
  vf_seek w f pos := '(w, file, r) ← file_seek w (wf_file f) pos; Done (w, mk_WrappedFile file, or_zero r);
}.

(** ** Properties *)

(** A directory whose iterator yields these entries, and ends. *)
Inductive yields : W -> DirIter -> list (bool * str) -> W -> Prop :=
  | yields_end w it w' it' : dir_next w it = Done (w', it', None) -> yields w it [] w'
  | yields_entry w it w1 it1 e es w' :
      dir_next w it = Done (w1, it1, Some (Ok e)) -> yields w1 it1 es w' -> yields w it (e :: es) w'.

Lemma collect_yields fuel w it es w' :
  yields w it es w' -> (length es < fuel)%nat ->
  collect_entries fuel w it = Done (w', Ok ((fun e => dirent_new e.1 e.2) <$> es)).
Proof.
  intros Hy. revert fuel. induction Hy as [w it w' it' Hn|w it w1 it1 [d n] es w' Hn _ IH]; intros [|fuel] Hf; cbn in Hf; try lia; cbn [collect_entries]; rewrite Hn; cbn [mbind outcome_bind]; [done|].
  by rewrite IH by lia.
Qed.

(** The whole directory, as a program reads it with a buffer large enough. *)
Lemma fat_listing fuel w fs path dir w1 es w2 (buf : list DirEntry) :
  (if bool_decide (path = bytes_of "/") || bool_decide (path = []) then Done (w, Ok (root_dir (wf_fs fs))) else open_dir w (root_dir (wf_fs fs)) path) = Done (w1, Ok dir) ->
  yields w1 (dir_iter dir) es w2 -> (length es < fuel)%nat -> llen es <= llen buf ->
  exists snap snap', fs_directory (VfsDirectory := fat_filesystem fuel) w fs path = Done (w2, Ok snap) /\
    getdents snap buf = Done (snap', ((fun e => dirent_new e.1 e.2) <$> es) ++ drop (length es) buf, llen es).
Proof.
  intros Hd Hy Hf Hb. cbn [fs_directory fat_filesystem]. unfold fat_directory. rewrite Hd. cbn [mbind outcome_bind].
  rewrite (collect_yields fuel _ _ es w2) by done. cbn [mbind outcome_bind].
  set (l := (fun e => dirent_new e.1 e.2) <$> es). assert (length l = length es) as Hl by apply length_fmap.
  destruct (getdents_spec (S (length buf)) (snapshot_new l) buf 0) as (buf' & Hg & Hb'); cbn [sd_offset sd_entries snapshot_new] in *;
    [unfold llen; lia|unfold llen; lia|unfold llen; lia|].
  eexists _, _. split; [reflexivity|]. cbn [getdents snapshot_dir]. unfold snapshot_getdents. rewrite Hg.
  assert (Z.min (llen buf - 0) (llen l - 0) = llen es) as -> by (unfold llen in *; lia).
  rewrite Hb', Z.min_r by (unfold llen in *; lia). cbn [Z.to_nat]. rewrite drop_0. change (Z.to_nat 0) with 0%nat.
  rewrite take_0, take_ge by (unfold llen in *; lia). by replace (Z.to_nat (0 + (llen l - 0))) with (length es) by (unfold llen in *; lia).
Qed.

(** The size of a file whose extents can all be read. *)
Lemma sum_extents_ok sizes res :
  Forall (fun n => 0 <= n) sizes -> 0 <= res -> foldr Z.add res sizes < 2 ^ 64 -> sum_extents (Ok <$> sizes) res = foldr Z.add res sizes.
Proof.
  revert res. induction sizes as [|n sizes IH]; intros res Hs Hr Hlt; [done|]. cbn [fmap list_fmap sum_extents foldr] in *.
  apply Forall_cons in Hs as [Hn Hs].
  assert (forall r, 0 <= r -> r <= foldr Z.add r sizes /\ foldr Z.add (r + n) sizes = n + foldr Z.add r sizes) as Hsum.
  { clear -Hs. induction Hs as [|m sizes Hm Hs IH]; intros r Hr; cbn; [lia|]. destruct (IH r Hr). lia. }
  destruct (Hsum res Hr) as [H1 H2]. unfold saturating_add. rewrite Z.min_l by lia. rewrite IH; [done|done|lia|lia].
Qed.
End Fat.
