(* ===== verification/Syscall.v ===== *)
(** * System calls: [task/syscall.rs]

    The dispatch table and every handler.  Open files and directory handles are
    objects in stores of their own; the tables of a process hold their indices,
    so [fork] shares them. *)

From S2P Require Import Prelude Words Bitmap PageAlloc PageTable Process Ipc Sched Lifecycle Vfs Procfs Dma.

(** What the calls read of the console. *)
Record Console := mk_Console {
  co_columns : Z; co_rows : Z;
  co_fb_width : Z; co_fb_height : Z; co_fb_addr : Z; co_fb_pitch : Z;
}.

(** [W] is the state of the devices behind the files, [F] a file, [D] a
    directory handle, [T] a mounted file system, [M] the mapper of the current
    address space. *)
Record sys_state (W F D T M : Type) := mk_sys {
  s_kernel : kernel;
  s_world : W;
  s_files : list F;
  s_dirs : list D;
  s_mounts : list (str * T);
  s_mapper : M;
  s_mem : user_memory;
  s_console : Console;
  s_echo : bool;
}.
Arguments mk_sys {W F D T M}.
Arguments s_kernel {W F D T M}.
Arguments s_world {W F D T M}.
Arguments s_files {W F D T M}.
Arguments s_dirs {W F D T M}.
Arguments s_mounts {W F D T M}.
Arguments s_mapper {W F D T M}.
Arguments s_mem {W F D T M}.
Arguments s_console {W F D T M}.
Arguments s_echo {W F D T M}.

(** What the handlers call outside this file: the byte of [stdio::read_stdin],
    and opening partition [number] of the n-th AHCI, NVMe or USB device (kind 0,
    1, 2) with its FAT file system. *)
Class SysDevices (W T : Type) := {
  read_stdin : W -> bool -> outcome (W * option Z);
  mount_fs : W -> Z -> Z -> Z -> outcome (W * option T);
}.

Definition U64_ERROR : Z := U64_MAX.

Section Syscalls.
Context `{BitField} `{PageTableEntry} {W F D T M : Type}.
Context `{VfsFile W F} `{VfsDirHandle D} `{VfsDirectory W F D T} `{UserMapper M} `{ElfParser} `{SysDevices W T}.
Abbreviation St := (sys_state W F D T M).
Implicit Types (st : St) (args : ProcessContext).

Definition with_kernel st k : St := mk_sys k (s_world st) (s_files st) (s_dirs st) (s_mounts st) (s_mapper st) (s_mem st) (s_console st) (s_echo st).
Definition with_world st w : St := mk_sys (s_kernel st) w (s_files st) (s_dirs st) (s_mounts st) (s_mapper st) (s_mem st) (s_console st) (s_echo st).
Definition with_files st fs : St := mk_sys (s_kernel st) (s_world st) fs (s_dirs st) (s_mounts st) (s_mapper st) (s_mem st) (s_console st) (s_echo st).
Definition with_dirs st ds : St := mk_sys (s_kernel st) (s_world st) (s_files st) ds (s_mounts st) (s_mapper st) (s_mem st) (s_console st) (s_echo st).
Definition with_mounts st ms : St := mk_sys (s_kernel st) (s_world st) (s_files st) (s_dirs st) ms (s_mapper st) (s_mem st) (s_console st) (s_echo st).
Definition with_mapper st m : St := mk_sys (s_kernel st) (s_world st) (s_files st) (s_dirs st) (s_mounts st) m (s_mem st) (s_console st) (s_echo st).
Definition with_mem st m : St := mk_sys (s_kernel st) (s_world st) (s_files st) (s_dirs st) (s_mounts st) (s_mapper st) m (s_console st) (s_echo st).
Definition with_echo st b : St := mk_sys (s_kernel st) (s_world st) (s_files st) (s_dirs st) (s_mounts st) (s_mapper st) (s_mem st) (s_console st) b.

(** [TASKS.lock()[current].as_mut().unwrap()] and writing the task back. *)
Definition current_task st : outcome Process := task_at (k_tasks (s_kernel st)) (k_current (s_kernel st)).
Definition put_task st (p : Process) : outcome St :=
  tasks ← set_task (k_tasks (s_kernel st)) (k_current (s_kernel st)) p;
  Done (with_kernel st (with_tasks (s_kernel st) tasks)).

Definition file_at st (i : nat) : outcome F := unwrap (s_files st !! i).
Definition put_file st (i : nat) (w : W) (f : F) : St := with_world (with_files st (<[i := f]> (s_files st))) w.

Definition sched_of (k : kernel) : Sched := mk_Sched (k_tasks k) (k_current k) (k_ticks k) (k_cpu k).
Definition put_sched (k : kernel) (sc : Sched) : kernel :=
  mk_kernel (k_pt k) (set_tasks (k_ipc k) (sc_tasks sc)) (sc_current sc) (sc_ticks sc) (sc_cpu sc) (k_next_tid k).

(** A string or buffer in user memory. *)
Definition user_str st (ptr len : Z) : str := user_slice (s_mem st) ptr len.

(** @ task/syscall.rs:101-103 sys_test *)
Definition sys_test st args : outcome (St * ProcessContext) := Done (st, args).

(** @ task/syscall.rs:105-115 sys_write *)
Definition sys_write st args : outcome (St * ProcessContext) :=
  let '(fd, ptr, size) := (rdi args, rsi args, rcx args) in
  task ← current_task st;
  slot ← idx (files task) fd;
  match slot with
  | Some i =>
      file ← file_at st i;
      '(w, file) ← write_all (s_world st) file (user_str st ptr size);
      Done (put_file st i w file, args)
  | None => Done (st, args)
  end.

(** @ task/syscall.rs:117-119 sys_fork *)
Definition sys_fork st args : outcome (St * ProcessContext) :=
  '(k, args) ← do_fork (s_kernel st) args;
  Done (with_kernel st k, args).

(** [do_exec] looks the file up, and reads [size] bytes of it. *)
Definition exec_file st (path : str) : outcome (W * option (list Z)) :=
  '(w, r) ← get_file (s_world st) (s_mounts st) path;
  match r with
  | Err _ => Done (w, None)
  | Ok file =>
      '(w, file, size) ← vf_size w file;
      '(w, file, buf) ← read_exact w file (replicate (Z.to_nat size) 0);
      Done (w, Some buf)
  end.
(** @ task/syscall.rs:121-123 sys_exec *)
Definition sys_exec st args : outcome (St * ProcessContext) :=
  let path := user_str st (rdi args) (rcx args) in
  assert! utf8_valid path;
  '(w, file) ← exec_file st path;
  '(k, m, mem, args) ← do_exec (s_kernel st) (s_mapper st) (s_mem st) args (fun _ => file);
  Done (with_world (with_mapper (with_mem (with_kernel st k) mem) m) w, args).

(** @ task/syscall.rs:125-127 sys_exit *)
Definition sys_exit st args : outcome (St * ProcessContext) :=
  '(k, args) ← do_exit (s_kernel st) args;
  Done (with_kernel st k, args).

(** @ task/syscall.rs:129-132 sys_read *)
Definition sys_read st args : outcome (St * ProcessContext) :=
  '(w, b) ← read_stdin (s_world st) (s_echo st);
  Done (with_world st w, set_rcx args (unwrap_or 0xff b)).

(** @ task/syscall.rs:134-137 sys_setfsbase *)
Definition sys_setfsbase st args : outcome (St * ProcessContext) :=
  assert! is_canonical (rdi args);
  let k := s_kernel st in
  Done (with_kernel st (mk_kernel (k_pt k) (k_ipc k) (k_current k) (k_ticks k)
    (mk_Cpu (cpu_cr3 (k_cpu k)) (rdi args) (cpu_fpu (k_cpu k))) (k_next_tid k)), args).

(** @ task/syscall.rs:139-148 sys_brk *)
Definition sys_brk st args : outcome (St * ProcessContext) :=
  task ← current_task st;
  let args := set_rsi args (brk task) in
  let tmp := rdi args in
  if negb (tmp =? 0) then st ← put_task st (set_brk task tmp); Done (st, args) else Done (st, args).

(** @ task/syscall.rs:150-155 sys_waitpid *)
Definition sys_waitpid st args : outcome (St * ProcessContext) :=
  '(sc, args) ← block_current (sched_of (s_kernel st)) args (WaitPid (rdi args));
  Done (with_kernel st (put_sched (s_kernel st) sc), args).

(** @ task/syscall.rs:157-159 sys_getpid *)
Definition sys_getpid st args : outcome (St * ProcessContext) := Done (st, set_rcx args (k_current (s_kernel st))).
(** @ task/syscall.rs:161-163 sys_getticks *)
Definition sys_getticks st args : outcome (St * ProcessContext) := Done (st, set_rcx args (k_ticks (s_kernel st))).

(** [SegmentSelector::new(1, Ring0)] and [(2, Ring0)]. *)
Definition KERNEL_CS : Z := 8.
Definition KERNEL_SS : Z := 16.
(** @ task/syscall.rs:165-196 sys_info *)
Definition sys_info st args : outcome (St * ProcessContext) :=
  let c := s_console st in
  let ret v := Done (st, set_rcx args v) in
  match rdi args with
  | 0 => ret (co_columns c)
  | 1 => ret (co_rows c)
  | 2 => ret (k_current (s_kernel st))
  | 3 => ret (k_ticks (s_kernel st))
  | 4 => Done (with_echo st false, set_rcx args 0)
  | 5 => Done (with_echo st true, set_rcx args 0)
  | 6 => ret (co_fb_width c)
  | 7 => ret (co_fb_height c)
  | 8 => ret (co_fb_addr c)
  | 9 => ret (co_fb_pitch c)
  | 10 =>
      if k_current (s_kernel st) =? 0 then Done (st, set_rcx (set_cs_ss args KERNEL_CS KERNEL_SS) 0)
      else ret U64_ERROR
  | _ => ret U64_ERROR
  end.

(** [iter().enumerate().find(is_none)]. *)
Definition first_free {A} (slots : list (option A)) : option nat := head (none_positions slots 0).

(** @ task/syscall.rs:198-219 sys_open *)
Definition sys_open st args : outcome (St * ProcessContext) :=
  let path := user_str st (rdi args) (rcx args) in
  let do_create := negb (r10 args =? 0) in
  '(w, tmp) ← (if do_create then create_file_or_open_existing (s_world st) (s_mounts st) path
               else get_file (s_world st) (s_mounts st) path);
  let st := with_world st w in
  match tmp with
  | Ok file =>
      task ← current_task st;
      match first_free (files task) with
      | Some res =>
          let st := with_files st (s_files st ++ [file]) in
          st ← put_task st (set_files task (<[res := Some (length (s_files st) - 1)%nat]> (files task)));
          Done (st, set_rsi args (Z.of_nat res))
      | None => Done (st, set_rsi args U64_ERROR)
      end
  | Err _ => Done (st, set_rsi args U64_ERROR)
  end.

(** @ task/syscall.rs:221-231 sys_read2 *)
Definition sys_read2 st args : outcome (St * ProcessContext) :=
  let buf := user_str st (rdi args) (rcx args) in
  task ← current_task st;
  slot ← idx (files task) (rsi args);
  i ← unwrap slot;
  file ← file_at st i;
  '(w, file, buf) ← read_exact (s_world st) file buf;
  Done (with_mem (put_file st i w file) (user_write (s_mem st) (rdi args) buf), args).

(** @ task/syscall.rs:233-243 sys_read3 *)
Definition sys_read3 st args : outcome (St * ProcessContext) :=
  let buf := user_str st (rdi args) (rcx args) in
  task ← current_task st;
  slot ← idx (files task) (rsi args);
  i ← unwrap slot;
  file ← file_at st i;
  '(w, file, buf, n) ← vf_read (s_world st) file buf;
  Done (with_mem (put_file st i w file) (user_write (s_mem st) (rdi args) buf), set_r10 args n).

(** @ task/syscall.rs:245-260 sys_seek *)
Definition sys_seek st args : outcome (St * ProcessContext) :=
  let pos := match rdi args with
    | 0 => Some (SeekCurrent (sext 64 (rcx args)))
    | 1 => Some (SeekEnd (sext 64 (rcx args)))
    | 2 => Some (SeekStart (rcx args))
    | _ => None
    end in
  match pos with
  | None => Done (st, args)
  | Some pos =>
      task ← current_task st;
      slot ← idx (files task) (rsi args);
      i ← unwrap slot;
      file ← file_at st i;
      '(w, file, n) ← vf_seek (s_world st) file pos;
      Done (put_file st i w file, set_r10 args n)
  end.

(** @ task/syscall.rs:262-267 sys_close *)
Definition sys_close st args : outcome (St * ProcessContext) :=
  task ← current_task st;
  fs ← set_idx (files task) (rsi args) None;
  st ← put_task st (set_files task fs);
  Done (st, args).

(** @ task/syscall.rs:269-272 sys_remove *)
Definition sys_remove st args : outcome (St * ProcessContext) :=
  w ← remove_file (s_world st) (s_mounts st) (user_str st (rdi args) (rcx args));
  Done (with_world st w, args).

(** @ task/syscall.rs:274-316 sys_mount *)
Definition sys_mount st args : outcome (St * ProcessContext) :=
  let mountpoint := user_str st (rdi args) (rcx args) in
  match rsi args with
  | 0 | 1 | 2 =>
      '(w, fs) ← mount_fs (s_world st) (rsi args) (rdx args) (r9 args);
      let st := with_world st w in
      let '(mounts, r) := mount (s_mounts st) fs mountpoint (fun d => ok_or d tt) in
      Done (with_mounts st mounts, set_r10 args (if is_ok r then 0 else U64_ERROR))
  | _ => Done (st, set_r10 args U64_ERROR)
  end.

(** @ task/syscall.rs:318-333 sys_opendir *)
Definition sys_opendir st args : outcome (St * ProcessContext) :=
  '(w, tmp) ← get_directory (s_world st) (s_mounts st) (user_str st (rdi args) (rcx args));
  let st := with_world st w in
  match tmp with
  | Ok directory =>
      task ← current_task st;
      match first_free (directories task) with
      | Some res =>
          let st := with_dirs st (s_dirs st ++ [directory]) in
          st ← put_task st (set_directories task (<[res := Some (length (s_dirs st) - 1)%nat]> (directories task)));
          Done (st, set_rsi args (Z.of_nat res))
      | None => Done (st, set_rsi args U64_ERROR)
      end
  | Err _ => Done (st, set_rsi args U64_ERROR)
  end.

(** @ task/syscall.rs:335-346 sys_getdents *)
Definition sys_getdents st args : outcome (St * ProcessContext) :=
  task ← current_task st;
  let buf := (fun i => dirent_of_bytes (user_str st (rdi args + 256 * i) 256)) <$> seqZ 0 (rcx args) in
  slot ← idx (directories task) (rsi args);
  match slot with
  | None => Done (st, set_r10 args U64_ERROR)
  | Some i =>
      dir ← unwrap (s_dirs st !! i);
      '(dir, buf, n) ← getdents dir buf;
      Done (with_mem (with_dirs st (<[i := dir]> (s_dirs st))) (user_write (s_mem st) (rdi args) (concat (dirent_bytes <$> buf))),
            set_r10 args n)
  end.

(** @ task/syscall.rs:348-353 sys_closedir *)
Definition sys_closedir st args : outcome (St * ProcessContext) :=
  task ← current_task st;
  ds ← set_idx (directories task) (rsi args) None;
  st ← put_task st (set_directories task ds);
  Done (st, args).

(** @ task/syscall.rs:355-357 sys_ipc *)
Definition sys_ipc st args : outcome (St * ProcessContext) :=
  '(ipc, args, mem) ← ipc_syscall (k_current (s_kernel st)) (k_ipc (s_kernel st)) args (s_mem st);
  Done (with_mem (with_kernel st (with_ipc (s_kernel st) ipc)) mem, args).

(** @ task/syscall.rs:54-54 NUM_SYSCALLS *)
Definition NUM_SYSCALLS : Z := 23.

(** @ task/syscall.rs:56-80 SYSCALL_TABLE *)
Definition SYSCALL_TABLE : list (St -> ProcessContext -> outcome (St * ProcessContext)) :=
  [sys_test; sys_write; sys_fork; sys_exec; sys_exit; sys_read; sys_setfsbase; sys_brk; sys_waitpid; sys_getpid;
   sys_getticks; sys_info; sys_open; sys_read2; sys_seek; sys_close; sys_remove; sys_mount; sys_opendir; sys_getdents;
   sys_closedir; sys_ipc; sys_read3].

(** The original page table is loaded before [sys_exit]; the switch to the next
    process loads another one. *)
(** @ task/syscall.rs:82-99 do_syscall *)
Definition do_syscall st args : outcome (St * ProcessContext) :=
  let call_num := rax args in
  if call_num <? NUM_SYSCALLS then
    handler ← idx SYSCALL_TABLE call_num;
    handler st args
  else Done (st, args).
End Syscalls.

(** Follow every bind and branch of a handler to its results. *)
Ltac outcome_cases :=
  repeat match goal with
  | |- context [mbind _ ?m] => destruct m eqn:?; cbn [mbind outcome_bind]; [|done..]
  | |- (let '(_, _) := ?p in _) = _ -> _ => destruct p
  | |- (if ?b then _ else _) = _ -> _ => destruct b eqn:?
  | |- match ?x with Some _ => _ | None => _ end = _ -> _ => destruct x
  | |- match ?x with Ok _ => _ | Err _ => _ end = _ -> _ => destruct x
  end.

(** ** Privilege *)

Section Privilege.
Context `{BitField} `{PageTableEntry} {W F D T M : Type}.
Context `{VfsFile W F} `{VfsDirHandle D} `{VfsDirectory W F D T} `{UserMapper M} `{ElfParser} `{SysDevices W T}.
Abbreviation St := (sys_state W F D T M).

(** The context keeps its code and stack segments. *)
Definition same_segments (a b : ProcessContext) : Prop := cs b = cs a /\ ss b = ss a.
(** A handler whose caller keeps its segments. *)
Definition keeps_segments (h : St -> ProcessContext -> outcome (St * ProcessContext)) (st : St) : Prop :=
  forall args st' args', h st args = Done (st', args') -> same_segments args args'.

Lemma create_keeps cur st args st' args' r : sys_create cur st args = Done (st', args', r) -> same_segments args args'.
Proof. unfold sys_create. outcome_cases; by intros [= <- <- <-]. Qed.

Lemma ipc_keeps cur st args m st' args' m' : ipc_syscall cur st args m = Done (st', args', m') -> same_segments args args'.
Proof.
  unfold ipc_syscall. outcome_cases; try (by intros [= <- <- <-]).
  intros [= <- <- <-]. match goal with Hc : sys_create _ _ _ = _ |- _ => by destruct (create_keeps _ _ _ _ _ _ Hc) end.
Qed.

Lemma copy_keeps pt ipc p args tid pt' ipc' p' args' :
  copy_process pt ipc p args tid = Done (pt', ipc', p', args') -> same_segments args args'.
Proof. unfold copy_process. outcome_cases. by intros [= <- <- <- <-]. Qed.

Lemma fork_keeps k args k' args' : do_fork k args = Done (k', args') -> same_segments args args'.
Proof.
  unfold do_fork. outcome_cases. intros [= <- <-].
  match goal with Hc : copy_process _ _ _ _ _ = _ |- _ => exact (copy_keeps _ _ _ _ _ _ _ _ _ Hc) end.
Qed.

Lemma exec_keeps k (pgt : M) mem args file k' pgt' mem' args' :
  do_exec k pgt mem args file = Done (k', pgt', mem', args') -> same_segments args args'.
Proof. unfold do_exec. outcome_cases; by intros [= <- <- <- <-]. Qed.

Lemma info_keeps (st : St) args st' args' :
  k_current (s_kernel st) <> 0 -> sys_info st args = Done (st', args') -> same_segments args args'.
Proof.
  intros Hc. unfold sys_info. rewrite (proj2 (Z.eqb_neq _ _)) by done.
  repeat match goal with |- match ?x with _ => _ end = _ -> _ => destruct x end; by intros [= <- <-].
Qed.

(** The handlers that return to their caller. *)
Lemma handler_keeps (st : St) h n :
  k_current (s_kernel st) <> 0 -> n <> 4%nat -> n <> 8%nat -> SYSCALL_TABLE !! n = Some h -> keeps_segments h st.
Proof.
  intros Hc Hn4 Hn8 Hh args st' args'. unfold SYSCALL_TABLE in Hh.
  do 23 (try (destruct n as [|n]; [cbn in Hh; injection Hh as <-; try done|])).
  22: done.
  - by intros [= <- <-].
  - unfold sys_write. outcome_cases; first [done|by intros [= <- <-]].
  - unfold sys_fork. outcome_cases. intros [= <- <-]. by eapply fork_keeps.
  - unfold sys_exec. outcome_cases; try done. intros [= <- <-]. by eapply exec_keeps.
  - unfold sys_read. outcome_cases; first [done|by intros [= <- <-]].
  - unfold sys_setfsbase. outcome_cases; first [done|by intros [= <- <-]].
  - unfold sys_brk. outcome_cases; first [done|by intros [= <- <-]].
  - by intros [= <- <-].
  - by intros [= <- <-].
  - by apply info_keeps.
  - unfold sys_open. outcome_cases; first [done|by intros [= <- <-]].
  - unfold sys_read2. outcome_cases; first [done|by intros [= <- <-]].
  - unfold sys_seek. outcome_cases; first [done|by intros [= <- <-]].
  - unfold sys_close. outcome_cases; first [done|by intros [= <- <-]].
  - unfold sys_remove. outcome_cases; first [done|by intros [= <- <-]].
  - unfold sys_mount. repeat match goal with |- match ?x with _ => _ end = _ -> _ => destruct x end; outcome_cases; first [done|by intros [= <- <-]].
  - unfold sys_opendir. outcome_cases; first [done|by intros [= <- <-]].
  - unfold sys_getdents. outcome_cases; first [done|by intros [= <- <-]].
  - unfold sys_closedir. outcome_cases; first [done|by intros [= <- <-]].
  - unfold sys_ipc. outcome_cases. intros [= <- <-]. by eapply ipc_keeps.
  - unfold sys_read3. outcome_cases; first [done|by intros [= <- <-]].
Qed.

(** C9: No system call raises the privilege of its caller: whatever the call
    number and the arguments, a process other than PID 0 returns from every call
    that comes back to it (all but [exit] and [waitpid], which may switch to
    another process) with the code and stack segments it had. *)
Theorem syscalls_keep_privilege (st st' : St) (args args' : ProcessContext) :
  k_current (s_kernel st) <> 0 -> 0 <= rax args -> rax args <> 4 -> rax args <> 8 ->
  do_syscall st args = Done (st', args') -> cs args' = cs args /\ ss args' = ss args.
Proof.
  intros Hc Hr Hn4 Hn8. unfold do_syscall. destruct (rax args <? NUM_SYSCALLS); [|by intros [= <- <-]].
  destruct (idx SYSCALL_TABLE (rax args)) as [h| |] eqn:Eh; cbn [mbind outcome_bind]; [|done..].
  apply idx_Done in Eh as [_ Eh]. intros Hd.
  exact (handler_keeps st h (Z.to_nat (rax args)) Hc ltac:(lia) ltac:(lia) Eh args st' args' Hd).
Qed.

Lemma dispatch (st : St) args n h :
  rax args = Z.of_nat n -> SYSCALL_TABLE !! n = Some h -> do_syscall st args = h st args.
Proof.
  intros Hr Hh. unfold do_syscall. rewrite Hr. pose proof (lookup_lt_Some _ _ _ Hh) as Hl.
  change (length SYSCALL_TABLE) with 23%nat in Hl. unfold NUM_SYSCALLS. rewrite (proj2 (Z.ltb_lt _ _)) by lia.
  assert (idx SYSCALL_TABLE (Z.of_nat n) = Done h) as ->; [|done]. apply idx_Done. split; [lia|]. by rewrite Nat2Z.id.
Qed.

(** The calls that take a descriptor trust it: a process brings the kernel
    down with one above the table of 64 entries (write, close, closedir,
    getdents and the reads and seek), or by reading or seeking a descriptor that
    is not open. *)
Theorem bad_descriptor_panics (st : St) (p : Process) (args : ProcessContext) (n : Z) :
  current_task st = Done p -> llen (files p) = 64 -> llen (directories p) = 64 ->
  (n = 1 /\ 64 <= rdi args \/ (n = 15 \/ n = 19 \/ n = 20) /\ 64 <= rsi args \/
   (n = 13 \/ n = 22 \/ n = 14 /\ 0 <= rdi args <= 2) /\ (64 <= rsi args \/ files p !! Z.to_nat (rsi args) = Some None)) ->
  0 <= rsi args -> rax args = n -> do_syscall st args = Panic.
Proof.
  intros Hp Hf Hd Hn Hr Hx.
  assert (forall (l : list (option nat)) i, llen l = 64 -> 64 <= i -> idx l i = Panic) as Hidx.
  { intros l i Hl Hi. unfold idx. destruct (bool_decide _); [|done]. rewrite lookup_ge_None_2; [done|]. unfold llen in Hl. lia. }
  assert (forall (l : list (option nat)) i x, llen l = 64 -> 64 <= i -> set_idx l i x = Panic) as Hset.
  { intros l i x Hl Hi. unfold set_idx. by rewrite bool_decide_false by lia. }
  assert (64 <= rsi args \/ files p !! Z.to_nat (rsi args) = Some None ->
    (slot ← idx (files p) (rsi args); unwrap slot) = Panic) as Hslot.
  { intros [Hi|Hi]; [by rewrite Hidx|]. unfold idx. rewrite bool_decide_true by done. by rewrite Hi. }
  assert (forall A (k : nat -> outcome A), 64 <= rsi args \/ files p !! Z.to_nat (rsi args) = Some None ->
    (slot ← idx (files p) (rsi args); i ← unwrap slot; k i) = Panic) as Hread.
  { intros A k Hi. specialize (Hslot Hi). destruct (idx (files p) (rsi args)) as [[x|]| |]; done. }
  destruct Hn as [[-> Hi]|[[[->|[->| ->]] Hi]|[[->|[->|[-> Hi2]]] Hi]]].
  - rewrite (dispatch st args 1 sys_write) by done. unfold sys_write. rewrite Hp. cbn [mbind outcome_bind]. by rewrite Hidx.
  - rewrite (dispatch st args 15 sys_close) by done. unfold sys_close. rewrite Hp. cbn [mbind outcome_bind]. by rewrite Hset.
  - rewrite (dispatch st args 19 sys_getdents) by done. unfold sys_getdents. rewrite Hp. cbn [mbind outcome_bind]. by rewrite Hidx.
  - rewrite (dispatch st args 20 sys_closedir) by done. unfold sys_closedir. rewrite Hp. cbn [mbind outcome_bind]. by rewrite Hset.
  - rewrite (dispatch st args 13 sys_read2) by done. unfold sys_read2. rewrite Hp. cbn [mbind outcome_bind]. by apply Hread.
  - rewrite (dispatch st args 22 sys_read3) by done. unfold sys_read3. rewrite Hp. cbn [mbind outcome_bind]. by apply Hread.
  - rewrite (dispatch st args 14 sys_seek) by done. unfold sys_seek.
    assert (rdi args = 0 \/ rdi args = 1 \/ rdi args = 2) as [->|[->| ->]] by lia; rewrite Hp; cbn [mbind outcome_bind]; by apply Hread.
Qed.
End Privilege.

(** ** Witnesses: a kernel whose only mount is [/proc/] *)

#[local] Instance no_elf : ElfParser := {| elf_parse _ := None |}.
#[local] Instance no_devices : SysDevices Tasks unit := {|
  read_stdin w _ := Done (w, None);
  mount_fs w _ _ _ := Done (w, None);
|}.
#[local] Existing Instance z_bit_field.
#[local] Existing Instance z_pte.
#[local] Instance demo_procfs : VfsDirectory Tasks ProcTextFile SnapshotDirectory unit := procfs [].

Definition demo_system (pid : Z) : sys_state Tasks ProcTextFile SnapshotDirectory unit (gmap Z (Z * Z)) :=
  mk_sys (mk_kernel demo_space (mk_ipc [Some demo_process; Some demo_process] [] [] []) pid 7 (mk_Cpu 0x3000 0 FPU_INIT) 1)
    [] [] [] [(bytes_of "/proc/", tt)] ∅ (fun _ => 0) (mk_Console 80 25 0 0 0 0) true.

Definition ring0_request : ProcessContext := mk_ProcessContext 11 0 0 0 0 0 10 0 0 0 0 0 0 0 0 0 0x1b 0 0 0x23.
(** PID 1 asks for ring 0 and is refused. *)
Lemma syscalls_keep_privilege_witness :
  exists st' args', do_syscall (demo_system 1) ring0_request = Done (st', args') /\
    rcx args' = U64_ERROR /\ cs args' = 0x1b /\ ss args' = 0x23.
Proof.
  destruct (do_syscall (demo_system 1) ring0_request) as [[st' args']| |] eqn:E;
    [|vm_compute in E; discriminate..].
  destruct (syscalls_keep_privilege (demo_system 1) st' ring0_request args' ltac:(cbn; lia) ltac:(cbn; lia) ltac:(cbn; lia) ltac:(cbn; lia) E) as [Hc Hs].
  exists st', args'. split; [reflexivity|]. split; [|split; [exact Hc|exact Hs]].
  vm_compute in E. injection E as _ <-. reflexivity.
Defined.

(** Closing descriptor 64. *)
Lemma bad_descriptor_panics_witness :
  do_syscall (demo_system 1) (mk_ProcessContext 15 0 0 0 64 0 0 0 0 0 0 0 0 0 0 0 0 0 0 0) = Panic.
Proof.
  apply (bad_descriptor_panics (demo_system 1) demo_process _ 15); try reflexivity.
  - right. left. split; [by left|cbn; lia].
  - cbn. lia.
Defined.
