(* ===== verification/Interrupt.v ===== *)
(** * Interrupts: [int.rs], [apic/io.rs], the entry of [task/syscall.rs]

    The registers around the two naked handlers, the interrupt table, the routing of
    the keyboard and the mouse, and the page faults by privilege. *)

From S2P Require Import Prelude Words XhcInit Bitmap PageAlloc PageTable Process Ipc Sched Lifecycle Vfs Procfs Dma Syscall.

(** ** Registers *)

Inductive Reg :=
  | RAX | RBX | RCX | RDX | RSI | RBP | RDI | R8 | R9 | R10 | R11 | R12 | R13 | R14 | R15
  | RIP | CS | RFLAGS | RSP | SS.
#[global] Instance Reg_eq_dec : EqDecision Reg.
Proof. solve_decision. Defined.

Definition get_reg (c : ProcessContext) (r : Reg) : Z :=
  match r with
  | RAX => rax c | RBX => rbx c | RCX => rcx c | RDX => rdx c | RSI => rsi c | RBP => rbp c | RDI => rdi c
  | R8 => r8 c | R9 => r9 c | R10 => r10 c | R11 => r11 c | R12 => r12 c | R13 => r13 c | R14 => r14 c | R15 => r15 c
  | RIP => rip c | CS => cs c | RFLAGS => rflags c | RSP => rsp c | SS => ss c
  end.
Definition set_reg (c : ProcessContext) (r : Reg) (v : Z) : ProcessContext :=
  let f r' := if decide (r' = r) then v else get_reg c r' in
  mk_ProcessContext (f RAX) (f RBX) (f RCX) (f RDX) (f RSI) (f RBP) (f RDI) (f R8) (f R9) (f R10) (f R11) (f R12)
    (f R13) (f R14) (f R15) (f RIP) (f CS) (f RFLAGS) (f RSP) (f SS).

Lemma get_set_reg c r v r' : get_reg (set_reg c r v) r' = if decide (r' = r) then v else get_reg c r'.
Proof. by destruct r'. Qed.

Lemma context_ext c c' : (forall r, get_reg c r = get_reg c' r) -> c = c'.
Proof.
  intros Hr. destruct c, c'.
  f_equal; [exact (Hr RAX)|exact (Hr RBX)|exact (Hr RCX)|exact (Hr RDX)|exact (Hr RSI)|exact (Hr RBP)|exact (Hr RDI)|exact (Hr R8)|exact (Hr R9)
    |exact (Hr R10)|exact (Hr R11)|exact (Hr R12)|exact (Hr R13)|exact (Hr R14)|exact (Hr R15)|exact (Hr RIP)|exact (Hr CS)|exact (Hr RFLAGS)
    |exact (Hr RSP)|exact (Hr SS)].
Qed.

(** ** The stack *)

(** 64-bit words by their address. *)
Definition words : Type := Z -> Z.
Definition store (m : words) (a v : Z) : words := fun b => if b =? a then v else m b.
(** [repr(C)]: the fields of [ProcessContext] from the lowest address. *)
Definition layout : list Reg :=
  [RAX; RBX; RCX; RDX; RSI; RBP; RDI; R8; R9; R10; R11; R12; R13; R14; R15; RIP; CS; RFLAGS; RSP; SS].
Definition frame_at (m : words) (p : Z) : ProcessContext :=
  let f i := m (p + 8 * i) in
  mk_ProcessContext (f 0) (f 1) (f 2) (f 3) (f 4) (f 5) (f 6) (f 7) (f 8) (f 9) (f 10) (f 11) (f 12) (f 13) (f 14)
    (f 15) (f 16) (f 17) (f 18) (f 19).
Definition store_frame (m : words) (p : Z) (c : ProcessContext) : words :=
  fun a => match layout !! Z.to_nat ((a - p) / 8) with
           | Some r => if (p <=? a) && ((a - p) mod 8 =? 0) then get_reg c r else m a
           | None => m a
           end.

(** ** The handlers in assembly *)

Inductive Instr := Push (r : Reg) | Pop (r : Reg) | MovRdiRsp | CallHandler | Iretq.

(** @ int.rs:39-76 handler1 *)
Definition handler1 : list Instr :=
  [Push R15; Push R14; Push R13; Push R12; Push R11; Push R10; Push R9; Push R8; Push RDI; Push RBP; Push RSI; Push RDX; Push RCX; Push RBX; Push RAX;
   MovRdiRsp; CallHandler;
   Pop RAX; Pop RBX; Pop RCX; Pop RDX; Pop RSI; Pop RBP; Pop RDI; Pop R8; Pop R9; Pop R10; Pop R11; Pop R12; Pop R13; Pop R14; Pop R15;
   Iretq].
(** @ task/syscall.rs:15-52 syscall_handler *)
Definition syscall_handler : list Instr :=
  [Push R15; Push R14; Push R13; Push R12; Push R11; Push R10; Push R9; Push R8; Push RDI; Push RBP; Push RSI; Push RDX; Push RCX; Push RBX; Push RAX;
   MovRdiRsp; CallHandler;
   Pop RAX; Pop RBX; Pop RCX; Pop RDX; Pop RSI; Pop RBP; Pop RDI; Pop R8; Pop R9; Pop R10; Pop R11; Pop R12; Pop R13; Pop R14; Pop R15;
   Iretq].

Record Cpu := mk_cpu { regs : ProcessContext; stack : words }.
Definition push (c : Cpu) (v : Z) : Cpu :=
  let sp := rsp (regs c) - 8 in mk_cpu (set_reg (regs c) RSP sp) (store (stack c) sp v).

(** What the processor does at an interrupt: a change of privilege takes the stack of
    the task state segment, the stack is aligned and the five registers pushed; an
    interrupt gate clears the interrupt flag. *)
Definition enter (rsp0 : Z) (c : Cpu) : Cpu :=
  let old := regs c in
  let user := negb (Z.land (cs old) 3 =? 0) in
  let top := (if user then rsp0 else rsp old) / 16 * 16 in
  let c := foldl push (mk_cpu (set_reg old RSP top) (stack c)) [ss old; rsp old; rflags old; cs old; rip old] in
  mk_cpu (set_reg (set_reg (set_reg (regs c) CS 8) SS (if user then 0 else ss old)) RFLAGS (clear_bits (rflags old) 0x200)) (stack c).

Section Execution.
Context {St : Type} (f : St -> ProcessContext -> outcome (St * ProcessContext)).
(** What the compiled function leaves in the registers and below the frame. *)
Context (junk : ProcessContext) (junk_stack : words).

(** The System V ABI: the stack is aligned at a call and its pointer is kept. *)
Definition call (st : St) (c : Cpu) : outcome (St * Cpu) :=
  assert! rsp (regs c) mod 16 =? 0;
  let p := rdi (regs c) in
  '(st, frame) ← f st (frame_at (stack c) p);
  Done (st, mk_cpu (set_reg junk RSP (rsp (regs c)))
              (store_frame (fun a => if a <? p then junk_stack a else stack c a) p frame)).
Definition step (st : St) (c : Cpu) (i : Instr) : outcome (St * Cpu) :=
  let r := regs c in
  match i with
  | Push x => Done (st, push c (get_reg r x))
  | Pop x => Done (st, mk_cpu (set_reg (set_reg r x (stack c (rsp r))) RSP (rsp r + 8)) (stack c))
  | MovRdiRsp => Done (st, mk_cpu (set_reg r RDI (rsp r)) (stack c))
  | CallHandler => call st c
  | Iretq =>
      let w i := stack c (rsp r + 8 * i) in
      Done (st, mk_cpu (set_reg (set_reg (set_reg (set_reg (set_reg r RIP (w 0)) CS (w 1)) RFLAGS (w 2)) RSP (w 3)) SS (w 4)) (stack c))
  end.
Fixpoint exec (l : list Instr) (st : St) (c : Cpu) : outcome (St * Cpu) :=
  match l with
  | [] => Done (st, c)
  | i :: l => '(st, c) ← step st c i; exec l st c
  end.
End Execution.

(** ** What a handler sees and what it leaves *)

Definition reg_index (r : Reg) : nat := match list_find (eq r) layout with Some (i, _) => i | None => 0 end.
Lemma layout_index r : layout !! reg_index r = Some r.
Proof. by destruct r. Qed.
Lemma frame_word m p r : get_reg (frame_at m p) r = m (p + 8 * Z.of_nat (reg_index r)).
Proof. by destruct r. Qed.
Lemma store_frame_word m p c r : store_frame m p c (p + 8 * Z.of_nat (reg_index r)) = get_reg c r.
Proof.
  unfold store_frame. replace (p + 8 * Z.of_nat (reg_index r) - p) with (Z.of_nat (reg_index r) * 8) by lia.
  rewrite Z.div_mul, Z.mod_mul, Nat2Z.id, layout_index by lia. by rewrite (proj2 (Z.leb_le _ _)) by lia.
Qed.

(** The pushes of a list of words, the last first. *)
Definition push_word (v : Z) (s : Z * words) : Z * words := (s.1 - 8, store s.2 (s.1 - 8) v).
Definition position (c : Cpu) : Z * words := (rsp (regs c), stack c).
Lemma pushed_words vs top m :
  let s := foldr push_word (top, m) vs in
  s.1 = top - 8 * llen vs /\ forall (k : nat) v, vs !! k = Some v -> s.2 (s.1 + 8 * Z.of_nat k) = v.
Proof.
  induction vs as [|v vs [Hsp IH]]; cbn [foldr]; [split; [unfold llen; cbn [length fst]; lia|done]|]. split; [cbn [push_word fst]; rewrite Hsp, llen_cons; lia|].
  intros [|k] u Hk; cbn in Hk; cbn [push_word fst snd]; unfold store.
  - injection Hk as ->. match goal with |- context [?a =? ?b] => destruct (Z.eqb_spec a b); [done|lia] end.
  - match goal with |- context [?a =? ?b] => destruct (Z.eqb_spec a b); [lia|] end. rewrite <- (IH k u Hk). f_equal. lia.
Qed.
Lemma push_position c v : position (push c v) = push_word v (position c).
Proof. reflexivity. Qed.
Lemma push_regs c v r : r <> RSP -> get_reg (regs (push c v)) r = get_reg (regs c) r.
Proof. intros Hr. cbn [push regs]. by rewrite get_set_reg, decide_False. Qed.

Section Runs.
Context {St : Type} (f : St -> ProcessContext -> outcome (St * ProcessContext)) (junk : ProcessContext) (junk_stack : words).
Abbreviation run := (exec f junk junk_stack).

Lemma exec_app l1 l2 st c : run (l1 ++ l2) st c = '(st, c) ← run l1 st c; run l2 st c.
Proof.
  revert st c. induction l1 as [|i l1 IH]; intros st c; cbn [app exec]; [done|].
  destruct (step f junk junk_stack st c i) as [[st1 c1]| |]; cbn [mbind outcome_bind]; [apply IH|done|done].
Qed.
Lemma exec_pushes rs : forall st c, RSP ∉ rs ->
  exists c', run (Push <$> rs) st c = Done (st, c') /\ position c' = foldl (fun s v => push_word v s) (position c) (get_reg (regs c) <$> rs) /\
    forall r, r <> RSP -> get_reg (regs c') r = get_reg (regs c) r.
Proof.
  induction rs as [|x rs IH]; intros st c Hn; cbn [fmap list_fmap exec foldl]; [by exists c|].
  apply not_elem_of_cons in Hn as [Hx Hn]. cbn [step mbind outcome_bind].
  destruct (IH st (push c (get_reg (regs c) x)) Hn) as (c' & Hr & Hp & Hk). exists c'. split; [exact Hr|]. split.
  - rewrite Hp, push_position. f_equal. apply list_fmap_ext. intros i r Hi. apply push_regs. intros ->. apply Hn. by eapply list_elem_of_lookup_2.
  - intros r Hne. by rewrite Hk, push_regs.
Qed.
Lemma exec_pops rs : forall st c, NoDup rs -> RSP ∉ rs ->
  exists c', run (Pop <$> rs) st c = Done (st, c') /\ stack c' = stack c /\ rsp (regs c') = rsp (regs c) + 8 * llen rs /\
    (forall (k : nat) r, rs !! k = Some r -> get_reg (regs c') r = stack c (rsp (regs c) + 8 * Z.of_nat k)) /\
    (forall r, r ∉ rs -> r <> RSP -> get_reg (regs c') r = get_reg (regs c) r).
Proof.
  induction rs as [|x rs IH]; intros st c Hnd Hn; cbn [fmap list_fmap exec].
  { exists c. split; [done|]. split; [done|]. split; [unfold llen; cbn [length]; lia|]. by split. }
  apply not_elem_of_cons in Hn as [Hx Hn]. apply NoDup_cons in Hnd as [Hxn Hnd]. cbn [step mbind outcome_bind].
  set (c1 := mk_cpu _ _). destruct (IH st c1 Hnd Hn) as (c' & Hr & Hs & Hsp & Hk & Ho).
  assert (rsp (regs c1) = rsp (regs c) + 8) as H1 by reflexivity.
  exists c'. split; [exact Hr|]. split; [done|]. split; [rewrite Hsp, H1, llen_cons; lia|]. split.
  - intros [|k] r Hkr; cbn in Hkr.
    + injection Hkr as <-. rewrite Ho by done. cbn [c1 regs]. rewrite !get_set_reg, decide_False, decide_True by done. f_equal. lia.
    + rewrite (Hk k r Hkr), H1. cbn [c1 stack]. f_equal. lia.
  - intros r [Hrx Hr2]%not_elem_of_cons Hne. rewrite Ho by done. cbn [c1 regs]. by rewrite !get_set_reg, !decide_False by done.
Qed.

(** The registers the handlers save, the code between. *)
Definition saved : list Reg := take 15 layout.
Definition handler : list Instr := (Push <$> rev saved) ++ [MovRdiRsp; CallHandler] ++ (Pop <$> saved) ++ [Iretq].

(** The frame at the call is the interrupted context. *)
Lemma entry_frame st rsp0 c : exists c' top,
  run (Push <$> rev saved) st (enter rsp0 c) = Done (st, c') /\ frame_at (stack c') (rsp (regs c')) = regs c /\ rsp (regs c') = top * 16 - 160.
Proof.
  set (top := (if negb (Z.land (cs (regs c)) 3 =? 0) then rsp0 else rsp (regs c)) / 16).
  destruct (exec_pushes (rev saved) st (enter rsp0 c)) as (c' & Hr & Hp & _); [by apply (bool_decide_unpack _)|].
  assert (position c' = foldr push_word (top * 16, stack c) (get_reg (regs c) <$> layout)) as Hp' by (rewrite Hp; reflexivity).
  destruct (pushed_words (get_reg (regs c) <$> layout) (top * 16) (stack c)) as [Hsp Hw]. rewrite <- Hp' in Hsp, Hw. cbn [position fst snd] in Hsp, Hw.
  exists c', top. split; [exact Hr|]. split; [|rewrite Hsp; reflexivity].
  apply context_ext. intros r. rewrite frame_word. apply Hw. by rewrite list_lookup_fmap, layout_index.
Qed.
(** What the frame holds after the call becomes the context. *)
Lemma exit_frame st c ctx m : stack c = store_frame m (rsp (regs c)) ctx ->
  exists c', run ((Pop <$> saved) ++ [Iretq]) st c = Done (st, c') /\ regs c' = ctx.
Proof.
  intros Hs. destruct (exec_pops saved st c) as (c1 & Hr & Hs1 & Hsp & Hk & _); [by apply (bool_decide_unpack _)|by apply (bool_decide_unpack _)|].
  rewrite exec_app, Hr. cbn [mbind outcome_bind exec step]. eexists. split; [reflexivity|]. cbn [regs]. rewrite Hs1, Hsp, Hs in *.
  apply context_ext. intros r. change (llen saved) with 15.
  pose proof (store_frame_word m (rsp (regs c)) ctx) as Hw.
  destruct (decide (reg_index r < 15)%nat) as [Hi|Hi].
  - rewrite !get_set_reg, !decide_False by (intros ->; vm_compute in Hi; lia).
    rewrite (Hk (reg_index r) r); [apply Hw|]. unfold saved. rewrite lookup_take_lt by done. apply layout_index.
  - destruct r; try (destruct Hi; vm_compute; lia); rewrite !get_set_reg; cbn [decide]; rewrite <- Hw; f_equal;
      match goal with |- context [Z.of_nat (reg_index ?r)] => let n := eval vm_compute in (Z.of_nat (reg_index r)) in change (Z.of_nat (reg_index r)) with n end; lia.
Qed.

(** Both handlers give the Rust function the interrupted context, and return to the
    one it leaves, whatever it does to the registers and to the stack below. *)
Lemma handler_runs st rsp0 c st' ctx : f st (regs c) = Done (st', ctx) ->
  exists c', run handler st (enter rsp0 c) = Done (st', c') /\ regs c' = ctx.
Proof.
  intros Hf. destruct (entry_frame st rsp0 c) as (c1 & top & Hr & Hframe & Hsp). unfold handler. rewrite exec_app, Hr. cbn [mbind outcome_bind].
  rewrite (exec_app [MovRdiRsp; CallHandler]). cbn [exec step mbind outcome_bind]. unfold call. cbn [regs stack].
  change (rsp (set_reg (regs c1) RDI (rsp (regs c1)))) with (rsp (regs c1)). change (rdi (set_reg (regs c1) RDI (rsp (regs c1)))) with (rsp (regs c1)).
  rewrite Hframe, Hf. assert (rsp (regs c1) mod 16 = 0) as -> by (rewrite Hsp; replace (top * 16 - 160) with ((top - 10) * 16) by lia; by apply Z.mod_mul).
  cbn [Z.eqb mbind outcome_bind]. by eapply exit_frame.
Qed.
Lemma handler_panics st rsp0 c : f st (regs c) = Panic -> run handler st (enter rsp0 c) = Panic.
Proof.
  intros Hf. destruct (entry_frame st rsp0 c) as (c1 & top & Hr & Hframe & Hsp). unfold handler. rewrite exec_app, Hr. cbn [mbind outcome_bind].
  rewrite (exec_app [MovRdiRsp; CallHandler]). cbn [exec step mbind outcome_bind]. unfold call. cbn [regs stack].
  change (rsp (set_reg (regs c1) RDI (rsp (regs c1)))) with (rsp (regs c1)). change (rdi (set_reg (regs c1) RDI (rsp (regs c1)))) with (rsp (regs c1)).
  rewrite Hframe, Hf. by destruct (_ =? 0).
Qed.
End Runs.

(** ** The interrupt table *)

(** The functions behind the vectors. *)
Inductive Handler := Handler1 | Handler2 | Handler3 | Handler4 | XhciHandler | SyscallHandler | Handler5 | Handler6.
(** A gate: its handler and the lowest privilege that may call it with [int]. *)
Record Gate := mk_gate { gate_handler : Handler; gate_dpl : Z }.
(** Vectors 13 and 14 are the general protection and the page fault. *)
(** @ int.rs:9-28 IDT *)
Definition IDT (ps2_poll : bool) : gmap Z Gate :=
  let temp : gmap Z Gate := ∅ in
  let temp := <[32 := mk_gate Handler1 0]> temp in
  let temp := <[33 := mk_gate Handler2 0]> temp in
  let temp := <[34 := mk_gate Handler3 0]> temp in
  let temp := if negb ps2_poll then <[47 := mk_gate Handler4 0]> (<[36 := mk_gate Handler4 0]> temp) else temp in
  let temp := <[XHCI_MSI_VECTOR := mk_gate XhciHandler 0]> temp in
  let temp := <[0x80 := mk_gate SyscallHandler 3]> temp in
  let temp := <[14 := mk_gate Handler5 0]> temp in
  <[13 := mk_gate Handler6 0]> temp.

(** Page faults by the privilege of the code segment; the kernel uses no other. *)
(** @ int.rs:96-107 handler5 *)
Definition handler5 `{BitField} `{PageTableEntry} {M : Type} `{UserMapper M} (s : Pt) (pgt : M) (task : Process) (f : ProcessContext) (addr code : Z) : outcome (Pt * M) :=
  let rpl := Z.land (cs f) 3 in
  if rpl =? 0 then do_kernel_page_fault s pgt addr code
  else if rpl =? 3 then do_user_page_fault s pgt task addr code
  else Panic.

(** ** The I/O APIC *)

(** [x2apic]: the driver and its hardware, with entries of the redirection table. *)
Class IoApic (A : Type) := {
  Entry : Type;
  ioapic_new : A -> Z -> A;
  ioapic_setup : A -> Z -> A;
  max_table_entry : A -> Z;
  disable_irq : A -> Z -> A;
  enable_irq : A -> Z -> A;
  table_entry : A -> Z -> Entry;
  set_table_entry : A -> Z -> Entry -> A;
  set_vector : Entry -> Z -> Entry;
  set_mode_fixed : Entry -> Entry;
  set_flags_empty : Entry -> Entry;
  set_dest : Entry -> Z -> Entry;
}.

Section Routing.
Context {A : Type} `{IoApic A}.
Definition route (tmp : A) (irq vector lapic_id : Z) : A :=
  let ent := set_dest (set_flags_empty (set_mode_fixed (set_vector (table_entry tmp irq) vector))) lapic_id in
  enable_irq (set_table_entry tmp irq ent) irq.
(** [phys_to_virt] of the address comes first. *)
(** @ apic/io.rs:9-39 init *)
Definition io_init (off : Z) (ps2_poll : bool) (a : A) (ioapic_phys_addr lapic_id : Z) : outcome A :=
  ioapic_virt_addr ← phys_to_virt off ioapic_phys_addr;
  let tmp := ioapic_new a ioapic_virt_addr in
  let tmp := ioapic_setup tmp 35 in
  Done (if negb ps2_poll then
          let tmp := foldl disable_irq tmp (seqZ 0 (max_table_entry tmp + 1)) in
          let tmp := route tmp 1 36 lapic_id in
          route tmp 12 47 lapic_id
        else tmp).
End Routing.

(** What the entries mean: the documented effect of each call is on its own entry. *)
Record Route := mk_route { rt_masked : bool; rt_fixed : bool; rt_vector : Z; rt_dest : Z }.
Class IoApicLaws (A : Type) `{IoApic A} := {
  view : A -> Z -> Route;
  entry_view : Entry -> Route;
  il_entry a i : entry_view (table_entry a i) = view a i;
  il_disable a i : max_table_entry (disable_irq a i) = max_table_entry a /\
    forall j, view (disable_irq a i) j = if j =? i then mk_route true (rt_fixed (view a j)) (rt_vector (view a j)) (rt_dest (view a j)) else view a j;
  il_enable a i : max_table_entry (enable_irq a i) = max_table_entry a /\
    forall j, view (enable_irq a i) j = if j =? i then mk_route false (rt_fixed (view a j)) (rt_vector (view a j)) (rt_dest (view a j)) else view a j;
  il_set a i e : max_table_entry (set_table_entry a i e) = max_table_entry a /\
    forall j, view (set_table_entry a i e) j = if j =? i then entry_view e else view a j;
  il_vector e v : entry_view (set_vector e v) = let r := entry_view e in mk_route (rt_masked r) (rt_fixed r) v (rt_dest r);
  il_fixed e : entry_view (set_mode_fixed e) = let r := entry_view e in mk_route (rt_masked r) true (rt_vector r) (rt_dest r);
  il_flags e : entry_view (set_flags_empty e) = let r := entry_view e in mk_route false (rt_fixed r) (rt_vector r) (rt_dest r);
  il_dest e d : entry_view (set_dest e d) = let r := entry_view e in mk_route (rt_masked r) (rt_fixed r) (rt_vector r) d;
}.

Section RoutingLemmas.
Context {A : Type} `{IoApicLaws A}.
Lemma route_view a irq v d : forall j, view (route a irq v d) j = if j =? irq then mk_route false true v d else view a j.
Proof.
  intros j. unfold route. destruct (il_enable (set_table_entry a irq (set_dest (set_flags_empty (set_mode_fixed (set_vector (table_entry a irq) v))) d)) irq) as [_ ->].
  destruct (il_set a irq (set_dest (set_flags_empty (set_mode_fixed (set_vector (table_entry a irq) v))) d)) as [_ ->].
  destruct (j =? irq); [|done]. by rewrite il_dest, il_flags, il_fixed, il_vector.
Qed.
Lemma disabled_view l : forall a j, rt_masked (view a j) = true \/ j ∈ l -> rt_masked (view (foldl disable_irq a l) j) = true.
Proof.
  induction l as [|i l IH]; intros a j Hj; cbn [foldl]; [destruct Hj as [Hj|Hj%elem_of_nil]; done|].
  apply IH. destruct (il_disable a i) as [_ ->]. destruct (Z.eqb_spec j i) as [->|Hne]; [by left|].
  rewrite elem_of_cons in Hj. naive_solver.
Qed.
End RoutingLemmas.

(** Of the interrupt lines only the keyboard and the mouse are let through, to the
    processor and to vectors whose gate is the input handler; with polling the table
    has no gate for them.  The vectors of the local timer and of the xHCI messages
    have their handlers, and only the system call can be called from user code. *)
Lemma interrupts_routed {A} `{IoApicLaws A} (off : Z) (a a' : A) (pa id : Z) :
  io_init off false a pa id = Done a' -> 12 <= max_table_entry (ioapic_setup (ioapic_new a (pa + off)) 35) ->
  (forall irq, 0 <= irq <= max_table_entry (ioapic_setup (ioapic_new a (pa + off)) 35) -> irq <> 1 -> irq <> 12 -> rt_masked (view a' irq) = true) /\
  view a' 1 = mk_route false true 36 id /\ view a' 12 = mk_route false true 47 id /\
  IDT false !! 36 = Some (mk_gate Handler4 0) /\ IDT false !! 47 = Some (mk_gate Handler4 0).
Proof.
  unfold io_init, phys_to_virt, add_ovf. destruct (_ <? _); [|done]. cbn [mbind outcome_bind negb]. intros [= <-] Hmax.
  split; [|rewrite !route_view; split_and!; done]. intros irq Hi H1 H12. rewrite !route_view.
  rewrite (proj2 (Z.eqb_neq irq 12)), (proj2 (Z.eqb_neq irq 1)) by done. apply disabled_view. right. apply elem_of_seqZ. lia.
Qed.
Lemma gates_of_the_drivers ps2_poll :
  IDT ps2_poll !! 32 = Some (mk_gate Handler1 0) /\ IDT ps2_poll !! XHCI_MSI_VECTOR = Some (mk_gate XhciHandler 0) /\
  IDT ps2_poll !! 14 = Some (mk_gate Handler5 0) /\ IDT ps2_poll !! 0x80 = Some (mk_gate SyscallHandler 3) /\
  forall v g, IDT ps2_poll !! v = Some g -> gate_dpl g = 3 -> v = 0x80.
Proof.
  split_and!; [by destruct ps2_poll..|]. intros v g. unfold IDT, XHCI_MSI_VECTOR.
  destruct ps2_poll; cbn [negb]; rewrite !lookup_insert_Some, lookup_empty; intros Hl Hd; naive_solver.
Qed.

(** ** The theorem *)

(** C12: The assembly around the timer and the system call is transparent: the Rust
    function sees the interrupted context, field by field, in the structure its
    pointer points to, with the stack aligned as the ABI wants it, on whichever stack
    the processor chose; after the return every register - general, instruction
    pointer, segments, flags and stack pointer - is what the function left in that
    structure, whatever the compiled code did to the registers and to the stack below
    it; and a panic of the function is the end of the handler. *)
Theorem interrupt_context_round_trip {St : Type} (f : St -> ProcessContext -> outcome (St * ProcessContext))
    (junk : ProcessContext) (junk_stack : words) (st : St) (rsp0 : Z) (c : Cpu) (asm : list Instr) :
  asm = handler1 \/ asm = syscall_handler ->
  match f st (regs c) with
  | Done (st', ctx) => exists c', exec f junk junk_stack asm st (enter rsp0 c) = Done (st', c') /\ regs c' = ctx
  | Panic => exec f junk junk_stack asm st (enter rsp0 c) = Panic
  | OutOfFuel => True
  end.
Proof.
  intros Hasm. assert (asm = handler) as -> by by destruct Hasm as [->| ->].
  destruct (f st (regs c)) as [[st' ctx]| |] eqn:Hf; [by apply handler_runs|by apply handler_panics|done].
Qed.

(** The timer interrupts task 0, and task 1 goes on. *)
Definition user_context : ProcessContext := mk_ProcessContext 1 2 3 4 5 6 7 8 9 10 11 12 13 14 15 0x400000 0x1b 0x202 0x7ffffffff000 0x23.
Lemma interrupt_context_round_trip_witness :
  exists sc' c', exec timer context_default (fun _ => 0) handler1 sample_sched (enter 0xffff800000210000 (mk_cpu user_context (fun _ => 0))) = Done (sc', c') /\
    (task ← (sc_tasks sc' !! 0%nat) ≫= id; Some (context task)) = Some user_context.
Proof.
  assert (exists sc' ctx, timer sample_sched user_context = Done (sc', ctx) /\
    (task ← (sc_tasks sc' !! 0%nat) ≫= id; Some (context task)) = Some user_context) as (sc' & ctx & Ht & Hs)
    by (eexists _, _; split; [vm_compute; reflexivity|reflexivity]).
  pose proof (interrupt_context_round_trip timer context_default (fun _ => 0) sample_sched 0xffff800000210000 (mk_cpu user_context (fun _ => 0)) handler1
    (or_introl eq_refl)) as Hrun. cbn [regs] in Hrun. rewrite Ht in Hrun. destruct Hrun as (c' & Hr & _). exists sc', c'. split; [exact Hr|exact Hs].
Defined.
