(* ===== verification/Ahci.v ===== *)
(** * AHCI disks: [blockdev/ahci/], [blockdev/partition/ahci.rs]

    The controller's registers and the command structures the driver builds in
    memory for the hardware to read, one command at a time, and the disk as a
    byte device over them.  The hardware is an interface, as in [Board]. *)

From S2P Require Import Prelude Words Bitmap PageAlloc Dma Machine Board Pcie Vfs Block.

(** ** Structures in memory: [cmd.rs] *)

(** @ blockdev/ahci/cmd.rs:4-10 CommandHeader *)
Record CommandHeader := mk_CommandHeader {
  flags : Z;
  prdt_length : Z;
  prd_byte_count : Z;
  command_table_base_address : Z;
  header_reserved : list Z;
}.
Definition header_zeroed : CommandHeader := mk_CommandHeader 0 0 0 0 [0; 0; 0; 0].
Definition header_bytes (h : CommandHeader) : list Z :=
  to_le 2 (flags h) ++ to_le 2 (prdt_length h) ++ to_le 4 (prd_byte_count h) ++
  to_le 8 (command_table_base_address h) ++ concat (to_le 4 <$> header_reserved h).
#[global] Instance CommandHeader_fields : Fields CommandHeader := fun h =>
  mk_CommandHeader (flags h) (prdt_length h) (prd_byte_count h) (command_table_base_address h) (header_reserved h).

(** @ blockdev/ahci/cmd.rs:21-25 PrdtEntry *)
Record PrdtEntry := mk_PrdtEntry { data_base_address : Z; prdt_reserved : Z; byte_count_i : Z }.
Definition prdt_bytes (e : PrdtEntry) : list Z := to_le 8 (data_base_address e) ++ to_le 4 (prdt_reserved e) ++ to_le 4 (byte_count_i e).

(** @ blockdev/ahci/cmd.rs:13-18 CommandTable *)
Record CommandTable := mk_CommandTable { cfis : list Z; acmd : list Z; table_reserved : list Z; prdt : PrdtEntry }.
Definition table_zeroed : CommandTable :=
  mk_CommandTable (replicate 64 0) (replicate 16 0) (replicate 48 0) (mk_PrdtEntry 0 0 0).
Definition table_bytes (t : CommandTable) : list Z := cfis t ++ acmd t ++ table_reserved t ++ prdt_bytes (prdt t).
#[global] Instance CommandTable_fields : Fields CommandTable := fun t =>
  mk_CommandTable (cfis t) (acmd t) (table_reserved t) (prdt t).

(** @ blockdev/ahci/cmd.rs:28-45 FisRegH2D *)
Record FisRegH2D := mk_Fis {
  fis_type : Z; cflags : Z; command : Z; feature_lo : Z;
  lba_0 : Z; lba_1 : Z; lba_2 : Z; fis_device : Z;
  lba_3 : Z; lba_4 : Z; lba_5 : Z; feature_hi : Z;
  sector_count : Z; icc : Z; fis_control : Z; fis_padding : list Z;
}.
Definition fis_zeroed : FisRegH2D := mk_Fis 0 0 0 0 0 0 0 0 0 0 0 0 0 0 0 [0; 0; 0; 0].
Definition fis_bytes (f : FisRegH2D) : list Z :=
  [fis_type f; cflags f; command f; feature_lo f; lba_0 f; lba_1 f; lba_2 f; fis_device f;
   lba_3 f; lba_4 f; lba_5 f; feature_hi f] ++ to_le 2 (sector_count f) ++ [icc f; fis_control f] ++ fis_padding f.
#[global] Instance FisRegH2D_fields : Fields FisRegH2D := fun f =>
  mk_Fis (fis_type f) (cflags f) (command f) (feature_lo f) (lba_0 f) (lba_1 f) (lba_2 f) (fis_device f)
    (lba_3 f) (lba_4 f) (lba_5 f) (feature_hi f) (sector_count f) (icc f) (fis_control f) (fis_padding f).

(** @ blockdev/ahci/cmd.rs:48-55 FisRegH2D::set_lba *)
Definition set_lba (f : FisRegH2D) (lba : Z) : FisRegH2D :=
  f <| lba_0 := wrap 8 lba |> <| lba_1 := wrap 8 (Z.shiftr lba 8) |> <| lba_2 := wrap 8 (Z.shiftr lba 16) |>
    <| lba_3 := wrap 8 (Z.shiftr lba 24) |> <| lba_4 := wrap 8 (Z.shiftr lba 32) |> <| lba_5 := wrap 8 (Z.shiftr lba 40) |>.

(** ** Registers: [hba.rs] *)

(** The fields the driver uses, with their offsets. *)
(** @ blockdev/ahci/hba.rs:20-32 HbaMemory *)
Inductive HbaMemory := capability | global_host_control | port_implemented.
Definition hba_offset (r : HbaMemory) : Z :=
  match r with capability => 0x00 | global_host_control => 0x04 | port_implemented => 0x0c end.
(** @ blockdev/ahci/hba.rs:63-79 HbaPort *)
Inductive HbaPort :=
  command_list_base_address | fis_base_address | port_command | signature | sata_status | sata_control | command_issue.
Definition port_offset (r : HbaPort) : Z :=
  match r with
  | command_list_base_address => 0x00 | fis_base_address => 0x08 | port_command => 0x18
  | signature => 0x24 | sata_status => 0x28 | sata_control => 0x2c | command_issue => 0x38
  end.

(** @ blockdev/ahci/hba.rs:15-15 SATA_SIG_ATAPI *)
Definition SATA_SIG_ATAPI : Z := 0xEB140101.
(** @ blockdev/ahci/hba.rs:16-16 SATA_SIG_SEMB *)
Definition SATA_SIG_SEMB : Z := 0xC33C0101.
(** @ blockdev/ahci/hba.rs:17-17 SATA_SIG_PM *)
Definition SATA_SIG_PM : Z := 0x96690101.
(** @ blockdev/ahci/driver.rs:11-11 BLOCK_SIZE *)
Definition BLOCK_SIZE : Z := 512.
(** @ blockdev/ahci/driver.rs:12-12 FIS_TYPE_REG_H2D *)
Definition FIS_TYPE_REG_H2D : Z := 0x27.
(** @ blockdev/ahci/driver.rs:13-13 CMD_READ_DMA_EXT *)
Definition CMD_READ_DMA_EXT : Z := 0x25.
(** @ blockdev/ahci/driver.rs:14-14 CMD_WRITE_DMA_EXT *)
Definition CMD_WRITE_DMA_EXT : Z := 0x35.
(** @ blockdev/ahci/driver.rs:15-15 CMD_IDENTIFY_DEVICE *)
Definition CMD_IDENTIFY_DEVICE : Z := 0xEC.

(** @ blockdev/ahci/driver.rs:66-79 Ahci::execute_command -- the FIS *)
Definition command_fis (cmd start_sector : Z) : FisRegH2D :=
  set_lba (fis_zeroed <| fis_type := FIS_TYPE_REG_H2D |> <| cflags := Z.shiftl 1 7 |> <| command := cmd |>
    <| fis_device := if (cmd =? CMD_READ_DMA_EXT) || (cmd =? CMD_WRITE_DMA_EXT) then Z.shiftl 1 6 else 0 |>
    <| sector_count := if cmd =? CMD_IDENTIFY_DEVICE then 0 else 1 |>) start_sector.

(** The addresses of what the driver works with: the references of the source. *)
(** @ blockdev/ahci/driver.rs:17-23 Ahci *)
Record Ahci := mk_Ahci { ah_data : Z; ah_port : Z; ah_cmd_list : Z; ah_cmd_table : Z; recieved_fis : Z }.

(** [bit_field]: [get_bit] and [set_bit]. *)
Definition set_bit (x i : Z) (b : bool) : Z := if b then Z.lor x (2 ^ i) else Z.ldiff x (2 ^ i).
Definition get_bits (x a b : Z) : Z := Z.land (Z.shiftr x a) (Z.ones (b - a)).

(** ** Identification: [identify.rs] *)

(** [String::from_utf8_lossy]: every maximal ill-formed part becomes U+FFFD. *)
Definition REPLACEMENT : str := [0xef; 0xbf; 0xbd].
Definition is_cont (b : Z) : bool := (0x80 <=? b) && (b <=? 0xbf).
Definition second_ok (b c : Z) : bool :=
  let lo := if b =? 0xe0 then 0xa0 else if b =? 0xf0 then 0x90 else 0x80 in
  let hi := if b =? 0xed then 0x9f else if b =? 0xf4 then 0x8f else 0xbf in
  (lo <=? c) && (c <=? hi).
(** The length of the sequence a first byte announces; 0 for none. *)
Definition sequence_len (b : Z) : nat :=
  if b <=? 0x7f then 1 else if (0xc2 <=? b) && (b <=? 0xdf) then 2
  else if (0xe0 <=? b) && (b <=? 0xef) then 3 else if (0xf0 <=? b) && (b <=? 0xf4) then 4 else 0.
(** How many of the following bytes continue it. *)
Fixpoint continuation (n : nat) (l : str) : nat :=
  match n, l with S n, c :: l => if is_cont c then S (continuation n l) else 0%nat | _, _ => 0%nat end.
Fixpoint lossy_loop (fuel : nat) (l : str) : str :=
  match fuel, l with
  | S fuel, b :: r =>
      match sequence_len b with
      | O => REPLACEMENT ++ lossy_loop fuel r
      | S n =>
          let k := match r with c :: r' => if second_ok b c then Nat.min n (S (continuation (n - 1) r')) else 0%nat | [] => 0%nat end in
          (if (k =? n)%nat then b :: take n r else REPLACEMENT) ++ lossy_loop fuel (drop k r)
      end
  | _, _ => []
  end.
Definition from_utf8_lossy (l : str) : str := lossy_loop (length l) l.

(** @ blockdev/ahci/identify.rs:16-21 IdentifyData *)
Record IdentifyData := mk_IdentifyData {
  serial_number : str; firmware_revision : str; model_number : str; block_count : Z }.
(** @ blockdev/ahci/identify.rs:25-31 From::IdentifyData::from -- the closure parse *)
Definition parse_identify_string (input : list Z) : str :=
  trim (from_utf8_lossy (flat_map (fun c => reverse c) (chunks 2 input))).
(** The packed structure: a field is a run of the 512 bytes. *)
(** @ blockdev/ahci/identify.rs:5-13 Identify *)
Definition identify_field (data : list Z) (offset len : nat) : list Z := take len (drop offset data).
(** @ blockdev/ahci/identify.rs:24-39 From::IdentifyData::from *)
Definition identify_from (data : list Z) : IdentifyData :=
  mk_IdentifyData (parse_identify_string (identify_field data 20 20)) (parse_identify_string (identify_field data 46 8))
    (parse_identify_string (identify_field data 54 40)) (from_le (identify_field data 200 8)).

(** @ blockdev/ahci/mod.rs:21-25 AhciBlockDevice *)
Record AhciBlockDevice := mk_AhciBlockDevice { ab_device : Ahci; ab_identify : IdentifyData; cur_pos : Z }.

(** ** State: the machine and the disks found so far *)

Record AhciKernel (off : Z) (W : Type) := mk_AhciKernel { ak_board : Board off W; connections : list Ahci }.
Arguments mk_AhciKernel {off W}.
Arguments ak_board {off W}.
Arguments connections {off W}.
#[global] Instance AhciKernel_machine off W : HasMachine (AhciKernel off W) (Board off W) := {
  machine := ak_board;
  set_machine d s := mk_AhciKernel d (connections s);
}.
#[global] Instance AhciKernel_machine_laws off W : HasMachineLaws (AhciKernel off W) (Board off W).
Proof. by split; [|..|intros []]. Qed.

Section Driver.
Context `{BitField} {off : Z} {W E : Type} `{Hardware W} (spins : nat).
Abbreviation aprog A := (prog (AhciKernel off W) E A).
Implicit Types (hba port : Z) (device : Ahci).

(** ** Accesses *)

Definition port_read port (r : HbaPort) : aprog Z := read32 (mk_RegisterBlock port) (port_offset r).
Definition port_write port (r : HbaPort) (v : Z) : aprog unit := write32 (mk_RegisterBlock port) (port_offset r) v.
Definition port_write64 port (r : HbaPort) (v : Z) : aprog unit := write64 (mk_RegisterBlock port) (port_offset r) v.
Definition hba_read hba (r : HbaMemory) : aprog Z := read32 (mk_RegisterBlock hba) (hba_offset r).
Definition hba_write hba (r : HbaMemory) (v : Z) : aprog unit := write32 (mk_RegisterBlock hba) (hba_offset r) v.

(** Plain loads and stores through a reference into the direct map. *)
Definition with_memory (s : AhciKernel off W) (m : memory) : AhciKernel off W :=
  let b := ak_board s in set_machine (mk_Board (bo_pm b) m (bo_live b) (bo_hw b)) s.
Definition mem_load (va n : Z) : aprog (list Z) := s ←! p_get; p_ret (read_memory (bo_mem (ak_board s)) (va - off) n).
Definition mem_store (va : Z) (bs : list Z) : aprog unit :=
  p_modify (fun s => with_memory s (write_memory (bo_mem (ak_board s)) (va - off) bs)).

(** [alloc_physical_page().unwrap()] and [dealloc_physical_page]. *)
Definition page_alloc : aprog Z := fun s =>
  let b := ak_board s in
  '(pm, r) ← alloc_physical_page (bo_pm b); pa ← unwrap r;
  Done (set_machine (mk_Board pm (bo_mem b) (bo_live b) (bo_hw b)) s, Ok pa).
Definition page_free (addr : Z) : aprog unit := fun s =>
  let b := ak_board s in
  '(pm, _) ← dealloc_physical_page (bo_pm b) addr;
  Done (set_machine (mk_Board pm (bo_mem b) (bo_live b) (bo_hw b)) s, Ok tt).

(** [update_flags(..containing_address(VirtAddr::new(va)), .. NO_CACHE)], the result
    of which is dropped: caching is not visible here, the check of the address is. *)
Definition uncache (va : Z) : aprog unit := p_lift (virt_addr_new va) ;! p_ret tt.

(** [while register.get() & mask != 0 {}]; [spins] bounds the model's wait. *)
Fixpoint wait_clear (n : nat) port (r : HbaPort) (mask : Z) : aprog unit :=
  match n with
  | O => fun _ => OutOfFuel
  | S n => v ←! port_read port r; if Z.land v mask =? 0 then p_ret tt else wait_clear n port r mask
  end.

(** [while command.get().get_bit(15) || command.get().get_bit(14) {}]. *)
Fixpoint wait_stopped (n : nat) port : aprog unit :=
  match n with
  | O => fun _ => OutOfFuel
  | S n =>
      v ←! port_read port port_command;
      busy ←! (if Z.testbit v 15 then p_ret true else v ←! port_read port port_command; p_ret (Z.testbit v 14));
      if busy : bool then wait_stopped n port else p_ret tt
  end.

(** ** The controller *)

(** @ blockdev/ahci/hba.rs:35-38 HbaMemory::enable_ahci *)
Definition enable_ahci hba : aprog unit :=
  v ←! hba_read hba global_host_control; hba_write hba global_host_control (Z.lor v (Z.shiftl 1 31)).
(** @ blockdev/ahci/hba.rs:40-43 HbaMemory::disable_interrupt *)
Definition disable_interrupt hba : aprog unit :=
  v ←! hba_read hba global_host_control; hba_write hba global_host_control (clear_bits v (Z.shiftl 1 1)).
(** @ blockdev/ahci/hba.rs:45-47 HbaMemory::port_active *)
Definition port_active hba (port_num : Z) : aprog bool :=
  v ←! hba_read hba port_implemented; p_ret (Z.testbit v port_num).
(** @ blockdev/ahci/hba.rs:49-51 HbaMemory::support_port_count *)
Definition support_port_count hba : aprog Z :=
  v ←! hba_read hba capability; p_ret (get_bits v 0 5 + 1).
(** @ blockdev/ahci/hba.rs:104-109 HbaPort::is_sata_device *)
Definition is_sata_device port : aprog bool :=
  v ←! port_read port signature; p_ret (negb ((v =? SATA_SIG_ATAPI) || (v =? SATA_SIG_SEMB) || (v =? SATA_SIG_PM))).
(** @ blockdev/ahci/hba.rs:111-114 HbaPort::device_connected *)
Definition device_connected port : aprog bool :=
  status ←! port_read port sata_status; p_ret ((get_bits status 8 12 =? 1) && (get_bits status 0 4 =? 3)).
(** @ blockdev/ahci/hba.rs:53-59 HbaMemory::get_port *)
Definition get_port hba (port_num : Z) : aprog (option Z) :=
  a ←! p_lift (add_ovf 64 hba 0x100);
  port ←! p_lift (add_ovf 64 a (0x80 * port_num));
  connected ←! device_connected port;
  if negb connected then p_ret None else
  sata ←! is_sata_device port;
  p_ret (if sata : bool then Some port else None).

(** @ blockdev/ahci/hba.rs:82-87 HbaPort::start_cmd *)
Definition start_cmd port : aprog unit :=
  wait_clear spins port port_command (2 ^ 15) ;!
  v ←! port_read port port_command; port_write port port_command (set_bit v 4 true) ;!
  v ←! port_read port port_command; port_write port port_command (set_bit v 0 true).

(** @ blockdev/ahci/hba.rs:89-102 HbaPort::stop_cmd_and_reset *)
Definition stop_cmd_and_reset port : aprog unit :=
  v ←! port_read port port_command; port_write port port_command (set_bit v 0 false) ;!
  v ←! port_read port port_command; port_write port port_command (set_bit v 4 false) ;!
  wait_stopped spins port ;!
  v ←! port_read port sata_control; port_write port sata_control (Z.lor (clear_bits v 0xf) 1) ;!
  v ←! port_read port sata_control; port_write port sata_control (clear_bits v 0xf).

(** @ blockdev/ahci/hba.rs:118-194 HbaPort::init_ahci *)
Definition init_ahci port : aprog Ahci :=
  stop_cmd_and_reset port ;!
  cmd_list_pa ←! page_alloc; cmd_list_va ←! p_lift (phys_to_virt off cmd_list_pa);
  cmd_table_pa ←! page_alloc; cmd_table_va ←! p_lift (phys_to_virt off cmd_table_pa);
  data_pa ←! page_alloc; data_va ←! p_lift (phys_to_virt off data_pa);
  fis_pa ←! page_alloc; fis_va ←! p_lift (phys_to_virt off fis_pa);
  uncache cmd_list_va ;! uncache cmd_table_va ;! uncache fis_va ;! uncache data_va ;!
  port_write64 port command_list_base_address cmd_list_pa ;!
  port_write64 port fis_base_address fis_pa ;!
  port_write port command_issue 0 ;!
  let cmd_header := header_zeroed <| command_table_base_address := cmd_table_pa |> <| flags := 20 / 4 |> <| prdt_length := 1 |> in
  mem_store cmd_list_va (header_bytes cmd_header) ;!
  let cmd_table := table_zeroed <| prdt := mk_PrdtEntry data_pa 0 (BLOCK_SIZE - 1) |> in
  mem_store cmd_table_va (table_bytes cmd_table) ;!
  mem_store data_va (replicate 512 0) ;!
  start_cmd port ;!
  p_ret (mk_Ahci data_va port cmd_list_va cmd_table_va fis_va).

(** The ports are filtered and brought up one after the other. *)
(** @ blockdev/ahci/driver.rs:34-38 Ahci::new -- the chain over the ports *)
Fixpoint init_ports hba (ports : list Z) : aprog (list Ahci) :=
  match ports with
  | [] => p_ret []
  | port_num :: ports =>
      active ←! port_active hba port_num;
      port ←! (if active : bool then get_port hba port_num else p_ret None);
      device ←! (match port with Some port => d ←! init_ahci port; p_ret [d] | None => p_ret [] end);
      devices ←! init_ports hba ports;
      p_ret (device ++ devices)
  end.
(** @ blockdev/ahci/driver.rs:28-39 Ahci::new *)
Definition ahci_new (address : Z) : aprog (list Ahci) :=
  enable_ahci address ;! disable_interrupt address ;!
  n ←! support_port_count address;
  init_ports address (seqZ 0 n).

(** The FIS is written at the start of the command table. *)
(** @ blockdev/ahci/driver.rs:62-86 Ahci::execute_command *)
Definition execute_command device (cmd start_sector : Z) : aprog unit :=
  mem_store (ah_cmd_table device) (fis_bytes (command_fis cmd start_sector)) ;!
  port_write (ah_port device) command_issue 1 ;!
  wait_clear spins (ah_port device) command_issue 1.

(** @ blockdev/ahci/driver.rs:41-48 Ahci::identity *)
Definition identity device : aprog IdentifyData :=
  execute_command device CMD_IDENTIFY_DEVICE 0 ;!
  data ←! mem_load (ah_data device) 512;
  p_ret (identify_from data).

(** [copy_from_slice] panics unless the lengths agree. *)
(** @ blockdev/ahci/driver.rs:50-54 Ahci::read_block *)
Definition read_block device (start_sector : Z) (buffer : list Z) : aprog (list Z) :=
  execute_command device CMD_READ_DMA_EXT start_sector ;!
  let length := Z.min (llen buffer) BLOCK_SIZE in
  data ←! mem_load (ah_data device) 512;
  part ←! p_lift (slice data 0 length);
  p_lift (assert! llen buffer =? llen part; Done part).

(** @ blockdev/ahci/driver.rs:56-60 Ahci::write_block *)
Definition write_block device (start_sector : Z) (buffer : list Z) : aprog unit :=
  let length := Z.min (llen buffer) BLOCK_SIZE in
  part ←! p_lift (slice buffer 0 length);
  mem_store (ah_data device) part ;!
  execute_command device CMD_WRITE_DMA_EXT start_sector.

(** The pages are given back by their virtual addresses. *)
(** @ blockdev/ahci/driver.rs:90-94 Drop::Ahci::drop *)
Definition ahci_drop device : aprog unit :=
  page_free (ah_cmd_list device) ;! page_free (ah_cmd_table device) ;! page_free (ah_data device).

(** ** Discovery: [mod.rs] *)

(** The hook of the enumeration. *)
(** @ blockdev/ahci/mod.rs:134-163 AHCI -- the closure *)
Definition ahci_hook (_ : Bdf) (config : Z) : aprog unit :=
  class ←! class_code config;
  sub ←! (if class =? 1 then subclass config else p_ret 0);
  p_when ((class =? 1) && (sub =? 6))
    (bar5 ←! config_read config 0x24 4;
     va ←! p_lift (phys_to_virt off (Z.land bar5 0xfffffff0));
     uncache va ;!
     next ←! p_lift (add_ovf 64 va 4096); uncache next ;!
     devices ←! ahci_new va;
     p_modify (fun s => mk_AhciKernel (ak_board s) (connections s ++ devices))).
(** @ blockdev/ahci/mod.rs:118-157 AHCI *)
Definition ahci_manager (regions : list PciRegion) : aprog unit := doit off regions ahci_hook.

(** @ blockdev/ahci/mod.rs:101-113 AhciManager::iter *)
Fixpoint manager_iter (devices : list Ahci) : aprog (list AhciBlockDevice) :=
  match devices with
  | [] => p_ret []
  | device :: devices =>
      identify ←! identity device;
      rest ←! manager_iter devices;
      p_ret (mk_AhciBlockDevice device identify 0 :: rest)
  end.

(** ** The byte device *)

(** @ blockdev/ahci/mod.rs:32-43 Read::AhciBlockDevice::read *)
Definition ahci_read (t : AhciBlockDevice) (buf : list Z) : aprog (AhciBlockDevice * list Z * Z) :=
  let size := llen buf in
  let sector := cur_pos t / BLOCK_SIZE in
  buf2 ←! read_block (ab_device t) sector (replicate 512 0);
  let t1 := cur_pos t mod BLOCK_SIZE in
  let will_read := Z.min size (BLOCK_SIZE - t1) in
  part ←! p_lift (slice buf2 t1 (t1 + will_read));
  buf ←! p_lift (splice buf 0 part);
  pos ←! p_lift (add_ovf 64 (cur_pos t) will_read);
  p_ret (mk_AhciBlockDevice (ab_device t) (ab_identify t) pos, buf, will_read).

(** @ blockdev/ahci/mod.rs:57-71 Seek::AhciBlockDevice::seek *)
Definition ahci_seek (t : AhciBlockDevice) (pos : SeekFrom) : outcome (AhciBlockDevice * result Z unit) :=
  new_pos ← seek_target (mul_ovf 64 (block_count (ab_identify t)) BLOCK_SIZE) (cur_pos t) pos;
  Done match new_pos with
    | None => (t, Err tt)
    | Some new_pos => (mk_AhciBlockDevice (ab_device t) (ab_identify t) new_pos, Ok new_pos)
    end.

(** [Write::write] always fails. *)
(** @ blockdev/ahci/mod.rs:47-49 Write::AhciBlockDevice::write *)
Definition ahci_write (t : AhciBlockDevice) (_ : list Z) : outcome (AhciBlockDevice * result Z unit) := Done (t, Err tt).

(** ** Blocks for [gpt_disk_io]: [partition/ahci.rs] *)

(** [(start_lba..).zip(chunks)]: the range is advanced before each chunk is asked for. *)
Fixpoint read_chunks device (sector : Z) (chunks : list (list Z)) : aprog (list (list Z)) :=
  next ←! p_lift (add_ovf 64 sector 1);
  match chunks with
  | [] => p_ret []
  | chunk :: chunks =>
      chunk ←! read_block device sector chunk;
      rest ←! read_chunks device next chunks;
      p_ret (chunk :: rest)
  end.
(** @ blockdev/partition/ahci.rs:19-36 BlockIo::AhciBlockDevice::read_blocks *)
Definition ahci_read_blocks (t : AhciBlockDevice) (start_lba : Z) (output : list Z) : aprog (list Z * result unit bool) :=
  if negb (is_multiple_of (llen output) BLOCK_SIZE) then p_ret (output, Err true) else
  out ←! read_chunks (ab_device t) start_lba (chunks 512 output);
  p_ret (concat out, Ok tt).
(** @ blockdev/partition/ahci.rs:15-17 BlockIo::AhciBlockDevice::num_blocks *)
Definition ahci_num_blocks (t : AhciBlockDevice) : result Z bool := Ok (block_count (ab_identify t)).
(** @ blockdev/partition/ahci.rs:38-40 BlockIo::AhciBlockDevice::write_blocks *)
Definition ahci_write_blocks (_ : AhciBlockDevice) (_ : Z) (_ : list Z) : result unit bool := Err true.
End Driver.

Section Files.
Context `{BitField} {off : Z} {W : Type} `{Hardware W} (spins : nat).
Abbreviation State := (AhciKernel off W).

Definition never {A} (e : Empty_set) : A := match e with end.
(** Programs of the driver never fail, whatever the error type. *)
Definition run {A} (m : prog State Empty_set A) (s : State) : outcome (State * A) :=
  '(s, r) ← m s; match r with Ok a => Done (s, a) | Err e => never e end.

(** @ blockdev/ahci/mod.rs:27-72 fatfs::IoBase for AhciBlockDevice -- with Read, Write, Seek *)
Definition ahci_io : FatIo State AhciBlockDevice unit := {|
  fio_read s t buf := '(s, (t, buf, n)) ← run (ahci_read spins t buf) s; Done (s, t, buf, Ok n);
  fio_write s t buf := '(t, r) ← ahci_write t buf; Done (s, t, r);
  fio_seek s t pos := '(t, r) ← ahci_seek t pos; Done (s, t, r);
|}.

(** @ blockdev/ahci/mod.rs:75-77 VfsFile::AhciBlockDevice::size *)
Definition ahci_size (t : AhciBlockDevice) : outcome Z := mul_ovf 64 (block_count (ab_identify t)) 512.
(** @ blockdev/ahci/mod.rs:74-98 crate::vfs::VfsFile for AhciBlockDevice *)
Definition ahci_file : VfsFile State AhciBlockDevice := {|
  vf_size s t := n ← ahci_size t; Done (s, t, n);
  vf_read s t buf := '(s, t, buf, r) ← @fio_read _ _ _ ahci_io s t buf; n ← unwrap_ok r; Done (s, t, buf, n);
  vf_write s t buf := '(s, t, r) ← @fio_write _ _ _ ahci_io s t buf; n ← unwrap_ok r; Done (s, t, n);
  vf_seek s t pos := '(s, t, r) ← @fio_seek _ _ _ ahci_io s t pos; n ← unwrap_ok r; Done (s, t, n);
|}.
End Files.
