(* ===== verification/AhciDisk.v ===== *)
(** * AHCI disks: what the driver achieves on a port

    What the driver relies on of a port, as laws over any hardware; that the
    bring-up builds the structures such a port reads; and that the block device
    reads as the image of the disk. *)

From S2P Require Import Prelude Words Bitmap PageAlloc Dma Machine Board Pcie Vfs Block Ahci.

Lemma p_bind_fuel {St E A B} (m : prog St E A) (k : A -> prog St E B) s : m s = OutOfFuel -> p_bind m k s = OutOfFuel.
Proof. intros Hm. unfold p_bind. by rewrite Hm. Qed.

Lemma p_bind_panic {St E A B} (m : prog St E A) (k : A -> prog St E B) s : m s = Panic -> p_bind m k s = Panic.
Proof. intros Hm. unfold p_bind. by rewrite Hm. Qed.

(** ** What a port promises *)

(** A little-endian number in memory. *)
Definition le (m : memory) (a n : Z) : Z := from_le (read_memory m a n).

(** A command as the hardware finds it in slot 0 of the command list at [clb]: a
    header without options and with one PRD, a host-to-device FIS with its command
    bit, and the data region of the PRD. *)
Record AhciCommand := mk_AhciCommand { ac_code : Z; ac_lba : Z; ac_count : Z; ac_device : Z; ac_buffer : Z; ac_bytes : Z }.
Definition decode_command (m : memory) (clb : Z) : option AhciCommand :=
  let table := le m (clb + 8) 8 in
  if (le m clb 2 =? 5) && (le m (clb + 2) 2 =? 1) && (le m table 2 =? 0x8027) then
    Some (mk_AhciCommand (le m (table + 2) 1) (le m (table + 4) 3 + 2 ^ 24 * le m (table + 8) 3)
      (le m (table + 12) 2) (le m (table + 7) 1) (le m (table + 128) 8) (Z.land (le m (table + 140) 4) 0x3fffff + 1))
  else None.

(** The registers of an idle port: command list, FIS area, [ST] and [FRE]. *)
Record PortRegs := mk_PortRegs { pr_clb : Z; pr_fb : Z; pr_st : bool; pr_fre : bool }.
#[global] Instance PortRegs_fields : Fields PortRegs := fun r => mk_PortRegs (pr_clb r) (pr_fb r) (pr_st r) (pr_fre r).
(** The port may write received FISes while [FRE] is set. *)
Definition fis_area (r : PortRegs) (i : Z) : Prop := pr_fre r = true /\ pr_fb r <= i < pr_fb r + 256.
Definition only_fis (r : PortRegs) (m m' : memory) : Prop := forall i, ~ fis_area r i -> m' i = m i.

(** What a command leaves: the data, the byte count of the header, received FISes. *)
Record transferred (r : PortRegs) (cmd : AhciCommand) (data : list Z) (m m' : memory) : Prop := {
  tr_data : read_memory m' (ac_buffer cmd) (llen data) = data;
  tr_rest i : ~ ac_buffer cmd <= i < ac_buffer cmd + llen data -> ~ pr_clb r + 4 <= i < pr_clb r + 8 -> ~ fis_area r i -> m' i = m i;
}.

(** [PxCI] read until bit 0 is clear. *)
Inductive ci_done {W} `{Hardware W} (port : Z) : nat -> W * memory -> W * memory -> Prop :=
  | ci_clear n w m w' m' v :
      hw_read w m (port + 0x38) 4 = (w', m', v) -> Z.testbit v 0 = false -> ci_done port (S n) (w, m) (w', m')
  | ci_wait n w m w' m' v x :
      hw_read w m (port + 0x38) 4 = (w', m', v) -> Z.testbit v 0 = true -> ci_done port n (w', m') x -> ci_done port (S n) (w, m) x.

(** A port with an ATA disk behind it, as the AHCI specification describes it: the
    command register settles after at most [ap_latency] reads, a command issued to
    a running port completes within as many, and one for a sector beyond the end
    fails, which stops the port with the command still marked as issued. *)
Class AhciPort (W : Type) `{Hardware W} (port : Z) := {
  ap_latency : nat;
  ap_idle : W -> PortRegs -> Prop;
  ap_busy : W -> nat;
  ap_sectors : Z;
  ap_sector : Z -> list Z;
  ap_identify : list Z;
  ap_sector_ok lba : 0 <= lba < ap_sectors -> llen (ap_sector lba) = 512;
  ap_identify_ok : llen ap_identify = 512 /\ identify_field ap_identify 200 8 = to_le 8 ap_sectors;
  ap_sectors_ok : 0 <= ap_sectors < 2 ^ 48;
  ap_busy_le w : (ap_busy w <= ap_latency)%nat;
  ap_read_command w m r w' m' v : ap_idle w r -> hw_read w m (port + 0x18) 4 = (w', m', v) ->
    ap_idle w' r /\ only_fis r m m' /\ (ap_busy w' <= Nat.pred (ap_busy w))%nat /\
    Z.testbit v 0 = pr_st r /\ Z.testbit v 4 = pr_fre r /\
    (ap_busy w = 0%nat -> (pr_st r = false -> Z.testbit v 15 = false) /\ (pr_fre r = false -> Z.testbit v 14 = false));
  ap_write_command w m r v w' m' : ap_idle w r -> hw_write w m (port + 0x18) 4 v = (w', m') ->
    let r' := r <| pr_st := Z.testbit v 0 |> <| pr_fre := Z.testbit v 4 |> in
    ap_idle w' r' /\ only_fis r' m m';
  ap_read_control w m r w' m' v : ap_idle w r -> hw_read w m (port + 0x2c) 4 = (w', m', v) -> ap_idle w' r /\ only_fis r m m';
  ap_write_control w m r v w' m' : ap_idle w r -> pr_st r = false -> hw_write w m (port + 0x2c) 4 v = (w', m') ->
    ap_idle w' r /\ only_fis r m m';
  ap_write_clb w m r v w' m' : ap_idle w r -> pr_st r = false -> hw_write w m (port + 0x00) 8 v = (w', m') ->
    ap_idle w' (r <| pr_clb := v |>) /\ only_fis r m m';
  ap_write_fb w m r v w' m' : ap_idle w r -> pr_fre r = false -> hw_write w m (port + 0x08) 8 v = (w', m') ->
    ap_idle w' (r <| pr_fb := v |>) /\ only_fis r m m';
  ap_write_no_command w m r w' m' : ap_idle w r -> hw_write w m (port + 0x38) 4 0 = (w', m') ->
    ap_idle w' r /\ only_fis r m m';
  ap_issue w m r cmd w1 m1 : ap_idle w r -> pr_st r = true -> pr_fre r = true ->
    decode_command m (pr_clb r) = Some cmd -> ac_bytes cmd = 512 ->
    hw_write w m (port + 0x38) 4 1 = (w1, m1) ->
    (ac_code cmd = CMD_IDENTIFY_DEVICE ->
       exists w2 m2, ci_done port ap_latency (w1, m1) (w2, m2) /\ ap_idle w2 r /\ transferred r cmd ap_identify m m2) /\
    (ac_code cmd = CMD_READ_DMA_EXT -> ac_count cmd = 1 -> Z.testbit (ac_device cmd) 6 = true ->
       if ac_lba cmd <? ap_sectors
       then exists w2 m2, ci_done port ap_latency (w1, m1) (w2, m2) /\ ap_idle w2 r /\ transferred r cmd (ap_sector (ac_lba cmd)) m m2
       else forall n x, ~ ci_done port n (w1, m1) x);
}.

Lemma le_ext m m' a n : (forall i, a <= i < a + n -> m' i = m i) -> le m' a n = le m a n.
Proof. intros He. unfold le. by rewrite (read_memory_ext m m'). Qed.

Lemma le_write_disjoint m a bs b n :
  b + n <= a \/ a + llen bs <= b -> le (write_memory m a bs) b n = le m b n.
Proof. intros Hd. unfold le. by rewrite read_write_disjoint. Qed.
Lemma le_write_part m a bs b n :
  bytes bs -> a <= b -> 0 <= n -> b + n <= a + llen bs ->
  le (write_memory m a bs) b n = from_le (take (Z.to_nat n) (drop (Z.to_nat (b - a)) bs)).
Proof. intros. unfold le. by rewrite read_write_part. Qed.
Lemma bytes_app l k : bytes l -> bytes k -> bytes (l ++ k).
Proof. apply Forall_app_2. Qed.
Lemma bytes_zeros n : bytes (replicate n 0).
Proof. apply Forall_replicate. unfold is_byte. lia. Qed.
(** The number written at offset [k] of a run of fields. *)
Lemma le_write_field m a bs pre n v post b :
  bytes bs -> bs = pre ++ to_le n v ++ post -> b = a + llen pre -> 0 <= v < 256 ^ Z.of_nat n ->
  le (write_memory m a bs) b (Z.of_nat n) = v.
Proof.
  intros Hb -> -> Hv. pose proof (llen_nonneg post). pose proof (llen_nonneg pre).
  assert (llen (to_le n v) = Z.of_nat n) as Hl by (unfold llen; by rewrite length_to_le).
  rewrite le_write_part; [|done|lia|lia|rewrite !llen_app; lia].
  replace (Z.to_nat (a + llen pre - a)) with (length pre) by (unfold llen; lia).
  rewrite drop_app_length, Nat2Z.id, take_app_length' by (by rewrite length_to_le).
  rewrite from_to_le. by apply Z.mod_small.
Qed.
Lemma bytes_header h : bytes (header_bytes h).
Proof.
  repeat apply bytes_app; auto with words. unfold bytes. rewrite Forall_concat, Forall_fmap.
  apply Forall_forall. intros x _. apply bytes_to_le.
Qed.
Lemma lba_bytes lba :
  fits 48 lba ->
  from_le [wrap 8 lba; wrap 8 (Z.shiftr lba 8); wrap 8 (Z.shiftr lba 16)] +
  2 ^ 24 * from_le [wrap 8 (Z.shiftr lba 24); wrap 8 (Z.shiftr lba 32); wrap 8 (Z.shiftr lba 40)] = lba.
Proof.
  intros Hl. assert (forall z, [wrap 8 z; wrap 8 (Z.shiftr z 8); wrap 8 (Z.shiftr z 16)] = to_le 3 z) as Hb.
  { intros z. unfold wrap. cbn [to_le]. rewrite !Z.shiftr_div_pow2, Z.div_div by lia. done. }
  pose proof (Hb (Z.shiftr lba 24)) as Hb2. rewrite !Z.shiftr_shiftr in Hb2 by lia.
  change (24 + 8) with 32 in Hb2. change (24 + 16) with 40 in Hb2. rewrite Hb, Hb2, !from_to_le, Z.shiftr_div_pow2 by lia.
  change (256 ^ Z.of_nat 3) with (2 ^ 24). unfold fits in Hl.
  rewrite (Z.mod_small (lba / 2 ^ 24)) by (split; [apply Z.div_pos|apply Z.div_lt_upper_bound]; lia).
  pose proof (Z.div_mod lba (2 ^ 24)). lia.
Qed.
Lemma bytes_fis cmd lba : cmd = CMD_READ_DMA_EXT \/ cmd = CMD_IDENTIFY_DEVICE -> bytes (fis_bytes (command_fis cmd lba)).
Proof.
  intros [-> | ->]; repeat (apply Forall_cons; split); try apply Forall_nil_2;
    first [by apply (fits_wrap 8)|unfold is_byte; vm_compute; split; congruence].
Qed.

Lemma testbit_wrap w v i : 0 <= i < w -> Z.testbit (wrap w v) i = Z.testbit v i.
Proof. intros Hi. unfold wrap. by rewrite Z.mod_pow2_bits_low by lia. Qed.
Lemma set_bit_spec x i b j : 0 <= i -> 0 <= j -> Z.testbit (set_bit x i b) j = if j =? i then b else Z.testbit x j.
Proof.
  intros Hi Hj. unfold set_bit. destruct b.
  - rewrite Z.lor_spec. destruct (Z.eqb_spec j i) as [->|Hne]; [by rewrite Z.pow2_bits_true, orb_true_r by lia|].
    by rewrite Z.pow2_bits_false, orb_false_r by lia.
  - rewrite Z.ldiff_spec. destruct (Z.eqb_spec j i) as [->|Hne]; [by rewrite Z.pow2_bits_true, andb_false_r by lia|].
    by rewrite Z.pow2_bits_false, andb_true_r by lia.
Qed.
Lemma land_bit_clear x k : 0 <= k -> (Z.land x (2 ^ k) =? 0) = negb (Z.testbit x k).
Proof. intros Hk. rewrite <- land_pow2_testbit by done. by rewrite negb_involutive. Qed.

(** ** The accesses, on a state *)

Section Access.
Context `{BitField} {off : Z} {W : Type} `{Hardware W} {E : Type}.
Abbreviation St := (AhciKernel off W).
Implicit Types (s : St) (w : W) (m : memory) (port : Z).

Definition hw s : W := bo_hw (ak_board s).
Definition mem s : memory := bo_mem (ak_board s).
(** The state after the hardware has run. *)
Definition with_hw s w m : St := set_machine (mk_Board (bo_pm (ak_board s)) m (bo_live (ak_board s)) w) s.

Lemma wp_port_read port r s (Q : St -> result Z E -> Prop) :
  (forall w m v, hw_read (hw s) (mem s) (port + port_offset r) 4 = (w, m, v) -> Q (with_hw s w m) (Ok (wrap 32 v))) ->
  wp (port_read port r) s Q.
Proof.
  intros HQ. unfold wp, port_read, read32. cbn [mmio_read board_machine machine AhciKernel_machine base].
  destruct (hw_read _ _ _ _) as [[w m] v] eqn:Er. eexists _, _. split; [reflexivity|]. by apply HQ.
Qed.

Lemma wp_port_write port r v s (Q : St -> result unit E -> Prop) :
  (forall w m, hw_write (hw s) (mem s) (port + port_offset r) 4 v = (w, m) -> Q (with_hw s w m) (Ok tt)) ->
  wp (port_write port r v) s Q.
Proof.
  intros HQ. eexists _, _. split; [reflexivity|]. cbn [mmio_write board_machine machine AhciKernel_machine base].
  destruct (hw_write _ _ _ _ _) as [w m] eqn:Er. by apply HQ.
Qed.

Lemma wp_port_write64 port r v s (Q : St -> result unit E -> Prop) :
  (forall w m, hw_write (hw s) (mem s) (port + port_offset r) 8 v = (w, m) -> Q (with_hw s w m) (Ok tt)) ->
  wp (port_write64 port r v) s Q.
Proof.
  intros HQ. eexists _, _. split; [reflexivity|]. cbn [mmio_write board_machine machine AhciKernel_machine base].
  destruct (hw_write _ _ _ _ _) as [w m] eqn:Er. by apply HQ.
Qed.

Lemma wp_mem_store va bs s (Q : St -> result unit E -> Prop) :
  (forall m, m = write_memory (mem s) (va - off) bs -> Q (with_hw s (hw s) m) (Ok tt)) -> wp (mem_store va bs) s Q.
Proof. intros HQ. apply wp_modify. by apply HQ. Qed.

End Access.

(** ** Waiting *)

Section Port.
Context `{BitField} {off : Z} {W : Type} `{Hardware W} {port : Z} `{!AhciPort W port} {E : Type}.
Abbreviation St := (AhciKernel off W).
Implicit Types (s : St) (w : W) (m : memory) (r : PortRegs).

Lemma only_fis_refl r m : only_fis r m m.
Proof. by intros i _. Qed.
Lemma only_fis_trans r m1 m2 m3 : only_fis r m1 m2 -> only_fis r m2 m3 -> only_fis r m1 m3.
Proof. intros H1 H2 i Hi. by rewrite H2, H1. Qed.

Lemma wp_wait_settled n r s (Q : St -> result unit E -> Prop) :
  ap_idle (hw s) r -> pr_st r = false -> (ap_busy (hw s) < n)%nat ->
  (forall w' m', ap_idle w' r -> only_fis r (mem s) m' -> Q (with_hw s w' m') (Ok tt)) ->
  wp (wait_clear n port port_command (2 ^ 15)) s Q.
Proof.
  revert s. induction n as [|n IH]; intros s Hi Hst Hb HQ; [lia|]. cbn [wait_clear].
  apply wp_bind, wp_port_read. intros w m v Hr.
  destruct (ap_read_command _ _ _ _ _ _ Hi Hr) as (Hi' & Hm & Hb' & _ & _ & Hs).
  rewrite land_bit_clear, testbit_wrap by lia. destruct (Z.testbit v 15) eqn:E15; cbn [negb]; [|apply wp_ret; by apply HQ].
  apply IH; [done|done| |].
  - cbn. destruct (ap_busy (hw s)) eqn:Eb; [|cbn in Hb'; lia]. exfalso. by pose proof (proj1 (Hs eq_refl) Hst).
  - intros w' m' Hi2 Hm2. apply HQ; [done|]. by eapply only_fis_trans.
Qed.

Lemma wp_wait_stopped n r s (Q : St -> result unit E -> Prop) :
  ap_idle (hw s) r -> pr_st r = false -> pr_fre r = false -> (ap_busy (hw s) < n)%nat ->
  (forall w' m', ap_idle w' r -> only_fis r (mem s) m' -> Q (with_hw s w' m') (Ok tt)) ->
  wp (wait_stopped n port) s Q.
Proof.
  revert s. induction n as [|n IH]; intros s Hi Hst Hfre Hb HQ; [lia|]. cbn [wait_stopped].
  apply wp_bind, wp_port_read. intros w m v Hr.
  destruct (ap_read_command _ _ _ _ _ _ Hi Hr) as (Hi' & Hm & Hb' & _ & _ & Hs).
  rewrite testbit_wrap by lia. apply wp_bind. destruct (Z.testbit v 15) eqn:E15.
  { apply wp_ret. apply IH; [done|done|done| |].
    - cbn. destruct (ap_busy (hw s)) eqn:Eb; [|cbn in Hb'; lia]. exfalso. by pose proof (proj1 (Hs eq_refl) Hst).
    - intros w' m' Hi2 Hm2. apply HQ; [done|]. by eapply only_fis_trans. }
  apply wp_bind, wp_port_read. intros w1 m1 v1 Hr1.
  destruct (ap_read_command _ _ _ _ _ _ Hi' Hr1) as (Hi1 & Hm1 & Hb1 & _ & _ & Hs1).
  rewrite testbit_wrap by lia. apply wp_ret. destruct (Z.testbit v1 14) eqn:E14.
  - apply IH; [done|done|done| |].
    + cbn. change (hw (with_hw s w m)) with w in *. destruct (ap_busy w) eqn:Eb; [|cbn in Hb1; lia].
      exfalso. by pose proof (proj2 (Hs1 eq_refl) Hfre).
    + intros w' m' Hi2 Hm2. apply HQ; [done|]. do 2 (eapply only_fis_trans; [done|]). done.
  - apply wp_ret. apply HQ; [done|]. by eapply only_fis_trans.
Qed.

Lemma wp_wait_command k n s w' m' (Q : St -> result unit E -> Prop) :
  ci_done port k (hw s, mem s) (w', m') -> (k <= n)%nat -> Q (with_hw s w' m') (Ok tt) ->
  wp (wait_clear n port command_issue 1) s Q.
Proof.
  revert s n. induction k as [|k IH]; intros s n Hd Hk HQ; [inversion Hd|].
  destruct n as [|n]; [lia|]. cbn [wait_clear]. apply wp_bind, wp_port_read. intros w m v Hr.
  change 1 with (2 ^ 0) at 1. rewrite land_bit_clear, testbit_wrap by lia.
  inversion Hd as [? ? ? ? ? v1 Hr1 Hv|? ? ? ? ? v1 ? Hr1 Hv Hd']; subst; cbn [port_offset] in Hr; rewrite Hr in Hr1; injection Hr1 as -> -> ->.
  - rewrite Hv. by apply wp_ret.
  - rewrite Hv. cbn [negb]. apply IH; [done|lia|done].
Qed.

(** A command that never completes. *)
Lemma wait_command_hangs n s :
  (forall k x, ~ ci_done port k (hw s, mem s) x) -> wait_clear (E := E) n port command_issue 1 s = OutOfFuel.
Proof.
  revert s. induction n as [|n IH]; intros s Hn; [done|]. cbn [wait_clear].
  destruct (wp_port_read (E := E) port command_issue s (fun s' a => exists w m v,
    hw_read (hw s) (mem s) (port + 0x38) 4 = (w, m, v) /\ s' = with_hw s w m /\ a = Ok (wrap 32 v))) as (s' & a & Hr & w & m & v & Hh & -> & ->).
  { intros w m v Hh. by exists w, m, v. }
  rewrite (p_bind_Ok _ _ _ _ _ Hr). change 1 with (2 ^ 0) at 1. rewrite land_bit_clear, testbit_wrap by lia.
  destruct (Z.testbit v 0) eqn:Ev; cbn [negb].
  - apply IH. intros k x Hk. apply (Hn (S k) x). by eapply ci_wait.
  - exfalso. apply (Hn 1%nat (w, m)). by eapply ci_clear.
Qed.
End Port.

(** ** Bringing a port up *)

(** Where the structures of a port lie, by physical address. *)
Record Layout := mk_Layout { ly_list : Z; ly_table : Z; ly_data : Z; ly_fis : Z }.
Definition apart (a n b k : Z) : Prop := a + n <= b \/ b + k <= a.
Record layout_ok (L : Layout) : Prop := {
  lo_range : fits 64 (ly_list L) /\ fits 64 (ly_table L) /\ fits 64 (ly_data L) /\ fits 64 (ly_fis L);
  lo_list : apart (ly_list L) 32 (ly_table L) 144 /\ apart (ly_list L) 32 (ly_data L) 512 /\ apart (ly_list L) 32 (ly_fis L) 256;
  lo_table : apart (ly_table L) 144 (ly_data L) 512 /\ apart (ly_table L) 144 (ly_fis L) 256;
  lo_data : apart (ly_data L) 512 (ly_fis L) 256;
}.

Section Bringup.
Context `{BitField} {off : Z} {W : Type} `{Hardware W} {port : Z} `{!AhciPort W port} {E : Type} (spins : nat).
Context (Hspins : (ap_latency (W := W) (port := port) < spins)%nat).
Abbreviation St := (AhciKernel off W).
Implicit Types (s : St) (w : W) (m : memory) (L : Layout).

Lemma busy_spins w : (ap_busy (port := port) w < spins)%nat.
Proof. pose proof (ap_busy_le (port := port) w). lia. Qed.

Lemma wp_stop r s (Q : St -> result unit E -> Prop) :
  ap_idle (hw s) r ->
  (forall w m, ap_idle w (mk_PortRegs (pr_clb r) (pr_fb r) false false) -> Q (with_hw s w m) (Ok tt)) ->
  wp (stop_cmd_and_reset spins port) s Q.
Proof.
  intros Hi HQ. unfold stop_cmd_and_reset.
  apply wp_bind, wp_port_read. intros w1 m1 v1 Hr1.
  destruct (ap_read_command _ _ _ _ _ _ Hi Hr1) as (Hi1 & _ & _ & Hst1 & Hfre1 & _).
  apply wp_bind, wp_port_write. intros w2 m2 Hr2.
  destruct (ap_write_command _ _ _ _ _ _ Hi1 Hr2) as [Hi2 _]. cbn [update] in Hi2.
  rewrite !set_bit_spec, !testbit_wrap, Hfre1 in Hi2 by lia. cbn [Z.eqb Pos.eqb pr_clb pr_fb] in Hi2.
  apply wp_bind, wp_port_read. intros w3 m3 v3 Hr3.
  destruct (ap_read_command _ _ _ _ _ _ Hi2 Hr3) as (Hi3 & _ & _ & Hst3 & Hfre3 & _). cbn [pr_st pr_fre] in Hst3, Hfre3.
  apply wp_bind, wp_port_write. intros w4 m4 Hr4.
  destruct (ap_write_command _ _ _ _ _ _ Hi3 Hr4) as [Hi4 _]. cbn [update] in Hi4.
  rewrite !set_bit_spec, !testbit_wrap, Hst3 in Hi4 by lia. cbn [Z.eqb Pos.eqb pr_clb pr_fb] in Hi4.
  apply wp_bind. eapply wp_wait_stopped; [exact Hi4|done|done|apply busy_spins|]. intros w5 m5 Hi5 _.
  apply wp_bind, wp_port_read. intros w6 m6 v6 Hr6.
  destruct (ap_read_control _ _ _ _ _ _ Hi5 Hr6) as [Hi6 _].
  apply wp_bind, wp_port_write. intros w7 m7 Hr7.
  destruct (ap_write_control _ _ _ _ _ _ Hi6 eq_refl Hr7) as [Hi7 _].
  apply wp_bind, wp_port_read. intros w8 m8 v8 Hr8.
  destruct (ap_read_control _ _ _ _ _ _ Hi7 Hr8) as [Hi8 _].
  apply wp_port_write. intros w9 m9 Hr9.
  destruct (ap_write_control _ _ _ _ _ _ Hi8 eq_refl Hr9) as [Hi9 _]. by apply HQ.
Qed.

Lemma wp_start clb fb s (Q : St -> result unit E -> Prop) :
  ap_idle (hw s) (mk_PortRegs clb fb false false) ->
  (forall w m, ap_idle w (mk_PortRegs clb fb true true) -> (forall i, ~ fb <= i < fb + 256 -> m i = mem s i) -> Q (with_hw s w m) (Ok tt)) ->
  wp (start_cmd spins port) s Q.
Proof.
  intros Hi HQ. unfold start_cmd.
  apply wp_bind. eapply wp_wait_settled; [exact Hi|done|apply busy_spins|]. intros w0 m0 Hi0 Hm0.
  apply wp_bind, wp_port_read. intros w1 m1 v1 Hr1.
  destruct (ap_read_command _ _ _ _ _ _ Hi0 Hr1) as (Hi1 & Hm1 & _ & Hst1 & Hfre1 & _).
  apply wp_bind, wp_port_write. intros w2 m2 Hr2.
  destruct (ap_write_command _ _ _ _ _ _ Hi1 Hr2) as [Hi2 Hm2]. cbn [update] in Hi2, Hm2.
  rewrite !set_bit_spec, !testbit_wrap, Hst1 in Hi2, Hm2 by lia. cbn [Z.eqb Pos.eqb pr_clb pr_fb] in Hi2, Hm2.
  apply wp_bind, wp_port_read. intros w3 m3 v3 Hr3.
  destruct (ap_read_command _ _ _ _ _ _ Hi2 Hr3) as (Hi3 & Hm3 & _ & Hst3 & Hfre3 & _). cbn [pr_st pr_fre] in Hst3, Hfre3.
  apply wp_port_write. intros w4 m4 Hr4.
  destruct (ap_write_command _ _ _ _ _ _ Hi3 Hr4) as [Hi4 Hm4]. cbn [update] in Hi4, Hm4.
  rewrite !set_bit_spec, !testbit_wrap, Hfre3 in Hi4, Hm4 by lia. cbn [Z.eqb Pos.eqb pr_clb pr_fb] in Hi4, Hm4.
  apply HQ; [done|]. intros i Ho.
  rewrite Hm4, Hm3, Hm2, Hm1, Hm0; [done|by intros [? ?]..].
Qed.

Definition with_pm s (pm : PageMan) : St := set_machine (mk_Board pm (bo_mem (ak_board s)) (bo_live (ak_board s)) (bo_hw (ak_board s))) s.
Definition pages s : PageMan := bo_pm (ak_board s).

Lemma wp_page_alloc n pm0 s (Q : St -> result Z E -> Prop) :
  pages s = pm0 -> pm_wf pm0 -> free_pages pm0 (S n) ->
  (forall pm i, 0 <= i < pm_len pm0 -> free pm0 i = true -> free pm i = false ->
     same_but pm0 pm (eq i) -> pm_wf pm /\ free_pages pm n -> Q (with_pm s pm) (Ok (i * PAGE_SIZE))) ->
  wp page_alloc s Q.
Proof.
  intros <- Hwf Hfree HQ. unfold wp, page_alloc. fold (pages s).
  destruct (alloc_page_spec (pages s) Hwf) as (pm & [a|] & -> & Hr); cbn [mbind outcome_bind unwrap].
  - destruct Hr as (i & -> & Hi & Hf & _ & Hf' & Hs). eexists _, _. split; [reflexivity|].
    apply HQ; [done..|]. split; [|by eapply free_pages_take]. unfold pm_wf. by rewrite (sb_len _ _ _ Hs).
  - destruct Hr as [_ Hno]. destruct Hfree as ([|p ps] & Hl & _ & Hps); [done|].
    destruct (Hps p) as [Hp Hf]; [by left|]. by rewrite (Hno p Hp) in Hf.
Qed.

(** ** The structures the port reads *)

Definition device_of L : Ahci := mk_Ahci (ly_data L + off) port (ly_list L + off) (ly_table L + off) (ly_fis L + off).
Definition regs_of L : PortRegs := mk_PortRegs (ly_list L) (ly_fis L) true true.

(** A port that is running on the structures of a layout. *)
Record port_ready L s : Prop := {
  rd_layout : layout_ok L;
  rd_idle : ap_idle (hw s) (regs_of L);
  rd_flags : le (mem s) (ly_list L) 2 = 5;
  rd_prdtl : le (mem s) (ly_list L + 2) 2 = 1;
  rd_table : le (mem s) (ly_list L + 8) 8 = ly_table L;
  rd_buffer : le (mem s) (ly_table L + 128) 8 = ly_data L;
  rd_count : le (mem s) (ly_table L + 140) 4 = 511;
}.

(** The memory between the header and the data of a layout. *)
Definition inside L (i : Z) : Prop :=
  ly_list L <= i < ly_list L + 32 \/ ly_table L <= i < ly_table L + 144 \/
  ly_data L <= i < ly_data L + 512 \/ ly_fis L <= i < ly_fis L + 256.

Definition built_header L : CommandHeader :=
  header_zeroed <| command_table_base_address := ly_table L |> <| flags := 20 / 4 |> <| prdt_length := 1 |>.
Definition built_table L : CommandTable := table_zeroed <| prdt := mk_PrdtEntry (ly_data L) 0 (BLOCK_SIZE - 1) |>.
Definition built L m : memory :=
  write_memory (write_memory (write_memory m (ly_list L) (header_bytes (built_header L)))
    (ly_table L) (table_bytes (built_table L))) (ly_data L) (replicate 512 0).

Lemma bytes_table L : bytes (table_bytes (built_table L)).
Proof.
  repeat apply bytes_app; first [apply (bytes_zeros 64)|apply (bytes_zeros 16)|apply (bytes_zeros 48)|apply bytes_to_le].
Qed.

Lemma built_ready L s m :
  layout_ok L -> ap_idle (hw s) (regs_of L) ->
  (forall i, ~ ly_fis L <= i < ly_fis L + 256 -> mem s i = built L m i) -> port_ready L s.
Proof.
  intros HL Hi Hm. pose proof HL as [[[R1 R1'] [[R2 R2'] [[R3 R3'] R4]]] [Hl1 [Hl2 Hl3]] [Ht1 Ht2] Hd].
  unfold apart in Hl1, Hl2, Hl3, Ht1, Ht2, Hd. change (2 ^ 64) with (256 ^ Z.of_nat 8) in *.
  assert (llen (header_bytes (built_header L)) = 32) as Elh by reflexivity.
  assert (llen (table_bytes (built_table L)) = 144) as Elt by reflexivity.
  assert (llen (replicate 512 0) = 512) as Eld by reflexivity.
  assert (forall a n, (ly_list L <= a /\ a + n <= ly_list L + 32) -> le (mem s) a n = le (write_memory m (ly_list L) (header_bytes (built_header L))) a n) as Hh.
  { intros a n Ha. rewrite (le_ext (built L m)) by (intros i Hi'; apply Hm; lia).
    unfold built. rewrite !le_write_disjoint by lia. done. }
  assert (forall a n, (ly_table L <= a /\ a + n <= ly_table L + 144) -> exists m1, le (mem s) a n = le (write_memory m1 (ly_table L) (table_bytes (built_table L))) a n) as Ht.
  { intros a n Ha. rewrite (le_ext (built L m)) by (intros i Hi'; apply Hm; lia).
    unfold built. rewrite le_write_disjoint by lia. by eexists. }
  split; [done|done|..].
  - rewrite Hh by lia. by apply (le_write_field _ _ _ [] 2 5 _ _ (bytes_header (built_header L)) eq_refl); [unfold llen; cbn; lia|].
  - rewrite Hh by lia. by apply (le_write_field _ _ _ (to_le 2 5) 2 1 _ _ (bytes_header (built_header L)) eq_refl); [unfold llen; cbn; lia|].
  - rewrite Hh by lia. by apply (le_write_field _ _ _ (to_le 2 5 ++ to_le 2 1 ++ to_le 4 0) 8 (ly_table L) _ _ (bytes_header (built_header L)) eq_refl); [unfold llen; cbn; lia|].
  - destruct (Ht (ly_table L + 128) 8) as [m1 ->]; [lia|].
    by apply (le_write_field _ _ _ (replicate 128 0) 8 (ly_data L) _ _ (bytes_table L) eq_refl); [unfold llen; cbn; lia|].
  - destruct (Ht (ly_table L + 140) 4) as [m1 ->]; [lia|].
    by apply (le_write_field _ _ _ (replicate 128 0 ++ to_le 8 (ly_data L) ++ to_le 4 0) 4 511 [] _ (bytes_table L) eq_refl); [unfold llen; cbn; lia|].
Qed.

(** [init_ahci]: whatever state the port was left in. *)
Lemma wp_init r s (Q : St -> result Ahci E -> Prop) :
  pm_wf (pages s) -> free_pages (pages s) 4 -> 2 ^ 64 - 2 ^ 47 <= off -> off + pm_len (pages s) * PAGE_SIZE <= 2 ^ 64 ->
  ap_idle (hw s) r ->
  (forall s' L, port_ready L s' -> Q s' (Ok (device_of L))) ->
  wp (init_ahci spins port) s Q.
Proof.
  intros Hwf Hfree Hoff Htop Hi HQ. unfold init_ahci.
  assert (forall i, 0 <= i < pm_len (pages s) -> phys_to_virt off (i * PAGE_SIZE) = Done (i * PAGE_SIZE + off) /\
    forall s0 (Q : St -> result unit E -> Prop), Q s0 (Ok tt) -> wp (uncache (i * PAGE_SIZE + off)) s0 Q) as Hva.
  { intros i Hi'. unfold PAGE_SIZE in *. split.
    - unfold phys_to_virt, add_ovf. by rewrite (proj2 (Z.ltb_lt _ _)) by lia.
    - intros s0 Q0 HQ0. unfold uncache, virt_addr_new, is_canonical. rewrite (proj2 (Z.leb_le (2 ^ 64 - 2 ^ 47) _)) by lia.
      rewrite orb_true_r. apply wp_bind. eapply wp_lift; [reflexivity|]. by apply wp_ret. }
  apply wp_bind. eapply wp_stop; [exact Hi|]. intros w0 m0 Hi0.
  apply wp_bind. eapply (wp_page_alloc _ (pages s)); [reflexivity|exact Hwf|exact Hfree|].
  intros p1 i1 H1 _ Hf1 S1 [Hwf1 Hfree1]. apply wp_bind. eapply wp_lift; [by apply Hva|].
  apply wp_bind. eapply (wp_page_alloc _ p1); [reflexivity|exact Hwf1|exact Hfree1|].
  intros p2 i2 H2 Hf12 Hf2 S2 [Hwf2 Hfree2]. rewrite (sb_len _ _ _ S1) in H2. apply wp_bind. eapply wp_lift; [by apply Hva|].
  apply wp_bind. eapply (wp_page_alloc _ p2); [reflexivity|exact Hwf2|exact Hfree2|].
  intros p3 i3 H3 Hf23 Hf3 S3 [Hwf3 Hfree3]. rewrite (sb_len _ _ _ S2), (sb_len _ _ _ S1) in H3. apply wp_bind. eapply wp_lift; [by apply Hva|].
  apply wp_bind. eapply (wp_page_alloc _ p3); [reflexivity|exact Hwf3|exact Hfree3|].
  intros p4 i4 H4 Hf34 Hf4 S4 _. rewrite (sb_len _ _ _ S3), (sb_len _ _ _ S2), (sb_len _ _ _ S1) in H4. apply wp_bind. eapply wp_lift; [by apply Hva|].
  do 4 (apply wp_bind, Hva; [done|]).
  set (L := mk_Layout (i1 * PAGE_SIZE) (i2 * PAGE_SIZE) (i3 * PAGE_SIZE) (i4 * PAGE_SIZE)).
  assert (layout_ok L) as HL.
  { assert (i1 <> i2) as N12 by congruence.
    assert (i2 <> i3) as N23 by congruence. assert (i3 <> i4) as N34 by congruence.
    assert (i1 <> i3) as N13.
    { intros ->. rewrite (sb_free _ _ _ S2) in Hf23 by (first [lia|congruence]). congruence. }
    assert (i2 <> i4) as N24.
    { intros ->. rewrite (sb_free _ _ _ S3) in Hf34 by (first [lia|congruence]). congruence. }
    assert (i1 <> i4) as N14.
    { intros ->. rewrite (sb_free _ _ _ S3), (sb_free _ _ _ S2) in Hf34 by (first [lia|congruence]). congruence. }
    unfold PAGE_SIZE in *. split; unfold apart, fits; cbn; lia. }
  apply wp_bind, wp_port_write64. intros w1 m1 Hr1. destruct (ap_write_clb _ _ _ _ _ _ Hi0 eq_refl Hr1) as [Hi1 _].
  apply wp_bind, wp_port_write64. intros w2 m2 Hr2. destruct (ap_write_fb _ _ _ _ _ _ Hi1 eq_refl Hr2) as [Hi2 _].
  apply wp_bind, wp_port_write. intros w3 m3 Hr3. destruct (ap_write_no_command _ _ _ _ _ Hi2 Hr3) as [Hi3 _].
  apply wp_bind, wp_mem_store. intros ma Hma. apply wp_bind, wp_mem_store. intros mb Hmb. apply wp_bind, wp_mem_store. intros mc Hmc.
  apply wp_bind. eapply (wp_start (ly_list L) (ly_fis L)); [exact Hi3|]. intros w4 m4 Hi4 Hm4.
  apply wp_ret. apply (HQ _ L). eapply (built_ready L _ m3); [done|exact Hi4|]. intros i Hi'. cbn [mem with_hw set_machine].
  change (mem (with_hw _ w4 m4)) with m4. rewrite Hm4 by done. unfold built.
  change (mem _) with mc. rewrite Hmc. change (mem _) with mb. rewrite Hmb. change (mem _) with ma. rewrite Hma.
  change (mem _) with m3. cbn [ly_list ly_table ly_data L]. by rewrite !Z.add_simpl_r.
Qed.

(** ** A command *)

Definition command_of L (cmd lba : Z) : AhciCommand :=
  mk_AhciCommand cmd lba (if cmd =? CMD_IDENTIFY_DEVICE then 0 else 1) (if cmd =? CMD_READ_DMA_EXT then 0x40 else 0) (ly_data L) 512.

Lemma decode_stored L s cmd lba :
  port_ready L s -> cmd = CMD_READ_DMA_EXT \/ cmd = CMD_IDENTIFY_DEVICE -> fits 48 lba ->
  decode_command (write_memory (mem s) (ly_table L) (fis_bytes (command_fis cmd lba))) (ly_list L) = Some (command_of L cmd lba).
Proof.
  intros [HL _ Hf Hp Ht Hb Hn] Hcmd Hlba. pose proof (lo_list L HL) as (Hl1 & _ & _). unfold apart in Hl1.
  assert (llen (fis_bytes (command_fis cmd lba)) = 20) as Elen by reflexivity.
  pose proof (bytes_fis cmd lba Hcmd) as Hbytes.
  unfold decode_command. rewrite !(le_write_disjoint _ _ _ (ly_list L + _)), (le_write_disjoint _ _ _ (ly_list L)) by lia.
  rewrite Hf, Hp, Ht. cbn [Z.eqb Pos.eqb andb].
  rewrite !(le_write_disjoint _ _ _ (ly_table L + 128)), !(le_write_disjoint _ _ _ (ly_table L + 140)), Hb, Hn by lia.
  assert (forall b n, ly_table L <= b -> 0 <= n -> b + n <= ly_table L + 20 ->
    le (write_memory (mem s) (ly_table L) (fis_bytes (command_fis cmd lba))) b n =
    from_le (take (Z.to_nat n) (drop (Z.to_nat (b - ly_table L)) (fis_bytes (command_fis cmd lba))))) as Hle
    by (intros; apply le_write_part; [done|lia|lia|lia]).
  rewrite !Hle by lia. rewrite !Z.add_simpl_l, Z.sub_diag.
  pose proof (lba_bytes lba Hlba) as Hl.
  change (from_le (take (Z.to_nat 3) (drop (Z.to_nat 4) (fis_bytes (command_fis cmd lba)))))
    with (from_le [wrap 8 lba; wrap 8 (Z.shiftr lba 8); wrap 8 (Z.shiftr lba 16)]).
  change (from_le (take (Z.to_nat 3) (drop (Z.to_nat 8) (fis_bytes (command_fis cmd lba)))))
    with (from_le [wrap 8 (Z.shiftr lba 24); wrap 8 (Z.shiftr lba 32); wrap 8 (Z.shiftr lba 40)]).
  rewrite Hl. by destruct Hcmd as [-> | ->].
Qed.

(** Every part of the structures but the data, the byte count and the FIS area. *)
Lemma transferred_ready L s w m cmd data :
  port_ready L s -> ap_idle w (regs_of L) -> ac_buffer cmd = ly_data L -> llen data = 512 ->
  (exists bs, llen bs = 20 /\ transferred (regs_of L) cmd data (write_memory (mem s) (ly_table L) bs) m) ->
  port_ready L (with_hw s w m) /\ read_memory m (ly_data L) 512 = data /\ (forall i, ~ inside L i -> m i = mem s i).
Proof.
  intros [HL _ Hf Hp Ht Hb Hn] Hi Hbuf Hlen (bs & Hbs & [Hd Hr]). rewrite Hbuf, Hlen in *.
  pose proof HL as [_ (L1 & L2 & L3) (T1 & T2) D]. unfold apart in *. cbn [pr_clb pr_fb regs_of] in Hr.
  assert (forall i, ~ ly_data L <= i < ly_data L + 512 -> ~ ly_list L + 4 <= i < ly_list L + 8 ->
    ~ ly_fis L <= i < ly_fis L + 256 -> ~ ly_table L <= i < ly_table L + 20 -> m i = mem s i) as Hm.
  { intros i H1 H2 H3 H4. rewrite Hr; [|done|done|by intros []].
    rewrite write_memory_at, decide_False by lia. done. }
  split; [|split; [done|intros i Hi'; unfold inside in Hi'; apply Hm; lia]].
  split; [done|exact Hi|..]; change (mem (with_hw s w m)) with m.
  all: rewrite (le_ext (mem s) m) by (intros j Hj; apply Hm; lia); done.
Qed.

Lemma wp_execute L cmd lba data s (Q : St -> result unit E -> Prop) :
  port_ready L s -> fits 48 lba -> llen data = 512 ->
  (cmd = CMD_READ_DMA_EXT /\ lba < ap_sectors (port := port) (W := W) /\ data = ap_sector (port := port) (W := W) lba \/
   cmd = CMD_IDENTIFY_DEVICE /\ data = ap_identify (port := port) (W := W)) ->
  (forall w m, port_ready L (with_hw s w m) -> read_memory m (ly_data L) 512 = data -> (forall i, ~ inside L i -> m i = mem s i) ->
     Q (with_hw s w m) (Ok tt)) ->
  wp (execute_command spins (device_of L) cmd lba) s Q.
Proof.
  intros HR Hlba Hlen Hcmd HQ. unfold execute_command.
  assert (cmd = CMD_READ_DMA_EXT \/ cmd = CMD_IDENTIFY_DEVICE) as Hc by tauto.
  pose proof (decode_stored L s cmd lba HR Hc Hlba) as Hdec.
  apply wp_bind, wp_mem_store. intros m0 Hm0. cbn [ah_cmd_table device_of] in Hm0. rewrite Z.add_simpl_r in Hm0. rewrite <- Hm0 in Hdec.
  apply wp_bind, wp_port_write. intros w1 m1 Hw. change (hw_write (hw s) m0 (port + 0x38) 4 1 = (w1, m1)) in Hw.
  destruct (ap_issue _ _ _ _ _ _ (rd_idle L s HR) eq_refl eq_refl Hdec eq_refl Hw) as [HI HRd].
  assert (exists w2 m2, ci_done port ap_latency (w1, m1) (w2, m2) /\ ap_idle w2 (regs_of L) /\
    transferred (regs_of L) (command_of L cmd lba) data m0 m2)
    as (w2 & m2 & Hdone & Hi2 & Htr).
  { destruct Hcmd as [(-> & Hin & ->)|(-> & ->)]; [|by apply HI].
    specialize (HRd eq_refl eq_refl eq_refl). cbn [ac_lba command_of] in HRd. by rewrite (proj2 (Z.ltb_lt _ _) Hin) in HRd. }
  destruct (transferred_ready L s w2 m2 (command_of L cmd lba) data HR Hi2 eq_refl Hlen) as (HR2 & Hdat & Hout).
  { exists (fis_bytes (command_fis cmd lba)). by rewrite <- Hm0. }
  eapply wp_wait_command; [exact Hdone|lia|]. by apply HQ.
Qed.

(** A sector beyond the end of the disk: the command never completes. *)
Lemma execute_hangs L lba s :
  port_ready L s -> fits 48 lba -> ap_sectors (port := port) (W := W) <= lba ->
  forall n, execute_command (E := E) n (device_of L) CMD_READ_DMA_EXT lba s = OutOfFuel.
Proof.
  intros HR Hlba Hend n. unfold execute_command.
  pose proof (decode_stored L s _ lba HR (or_introl eq_refl) Hlba) as Hdec.
  destruct (wp_mem_store (E := E) (ly_table L + off) (fis_bytes (command_fis CMD_READ_DMA_EXT lba)) s (fun s' a => exists m0,
    m0 = write_memory (mem s) (ly_table L + off - off) (fis_bytes (command_fis CMD_READ_DMA_EXT lba)) /\
    s' = with_hw s (hw s) m0 /\ a = Ok tt)) as (s1 & a1 & Hst & m0 & Hm0 & -> & ->).
  { intros m0 Hm0. by exists m0. }
  rewrite Z.add_simpl_r in Hm0. rewrite <- Hm0 in Hdec. rewrite (p_bind_Ok _ _ _ _ _ Hst).
  destruct (hw_write (hw s) m0 (port + 0x38) 4 1) as [w1 m1] eqn:Hw.
  destruct (ap_issue _ _ _ _ _ _ (rd_idle L s HR) eq_refl eq_refl Hdec eq_refl Hw) as [_ HRd].
  specialize (HRd eq_refl eq_refl eq_refl). cbn [ac_lba command_of] in HRd. rewrite (proj2 (Z.ltb_ge _ _) Hend) in HRd.
  destruct (wp_port_write (E := E) port command_issue 1 (with_hw s (hw s) m0) (fun s' a => s' = with_hw s w1 m1 /\ a = Ok tt)) as (s' & a & Hr & -> & ->).
  { intros w m Hw'. change (hw_write (hw s) m0 (port + 0x38) 4 1 = (w, m)) in Hw'. rewrite Hw in Hw'. by injection Hw' as -> ->. }
  rewrite (p_bind_Ok _ _ _ _ _ Hr). by apply wait_command_hangs.
Qed.

(** ** The block device *)

Lemma sectors_range lba : 0 <= lba < ap_sectors (port := port) (W := W) -> fits 48 lba.
Proof. pose proof (ap_sectors_ok (port := port) (W := W)). unfold fits. lia. Qed.

Lemma wp_read_block L lba buffer s (Q : St -> result (list Z) E -> Prop) :
  port_ready L s -> 0 <= lba < ap_sectors (port := port) (W := W) -> llen buffer = 512 ->
  (forall w m, port_ready L (with_hw s w m) -> (forall i, ~ inside L i -> m i = mem s i) ->
     Q (with_hw s w m) (Ok (ap_sector (port := port) (W := W) lba))) ->
  wp (read_block spins (device_of L) lba buffer) s Q.
Proof.
  intros HR Hlba Hbuf HQ. pose proof (ap_sector_ok (port := port) (W := W) lba Hlba) as Hlen.
  unfold read_block. apply wp_bind. eapply wp_execute; [exact HR|by apply sectors_range|exact Hlen|left; by destruct Hlba|].
  intros w m HR' Hdat Hout. unfold mem_load. apply wp_bind, wp_bind, wp_get, wp_ret.
  cbn [ah_data device_of]. rewrite Z.add_simpl_r. change (bo_mem _) with m. rewrite Hdat.
  rewrite Hbuf. change (Z.min 512 BLOCK_SIZE) with 512.
  apply wp_bind. eapply wp_lift; [rewrite slice_in_range by lia; reflexivity|].
  rewrite drop_0, take_ge by (unfold llen in Hlen; lia).
  eapply wp_lift; [|by apply HQ]. by rewrite Hlen.
Qed.

Lemma wp_ahci_read L t buf s (Q : St -> result (AhciBlockDevice * list Z * Z) E -> Prop) :
  port_ready L s -> ab_device t = device_of L -> 0 <= cur_pos t < ap_sectors (port := port) (W := W) * 512 ->
  (forall w m, port_ready L (with_hw s w m) -> (forall i, ~ inside L i -> m i = mem s i) ->
     let n := Z.min (llen buf) (512 - cur_pos t mod 512) in
     Q (with_hw s w m) (Ok (mk_AhciBlockDevice (ab_device t) (ab_identify t) (cur_pos t + n),
       image_bytes (sector_byte (ap_sector (port := port) (W := W))) (cur_pos t) n ++ drop (Z.to_nat n) buf, n))) ->
  wp (ahci_read spins t buf) s Q.
Proof.
  intros HR Hd Hp HQ. unfold ahci_read, BLOCK_SIZE. set (n := Z.min (llen buf) (512 - cur_pos t mod 512)) in *. rewrite Hd.
  pose proof (Z.mod_pos_bound (cur_pos t) 512). pose proof (llen_nonneg buf). pose proof (ap_sectors_ok (port := port) (W := W)).
  assert (0 <= cur_pos t / 512 < ap_sectors (port := port) (W := W)) as Hlba
    by (split; [apply Z.div_pos; lia|apply Z.div_lt_upper_bound; lia]).
  apply wp_bind. eapply wp_read_block; [exact HR|exact Hlba|done|]. intros w m HR' Hout.
  apply wp_bind. eapply wp_lift; [apply sector_piece; [by apply ap_sector_ok|lia|lia]|].
  assert (llen (image_bytes (sector_byte (ap_sector (port := port) (W := W))) (cur_pos t) n) = n) as Hn by (apply image_bytes_len; lia).
  apply wp_bind. eapply wp_lift; [rewrite splice_in_range by lia; reflexivity|]. cbn [Z.to_nat take app Nat.add].
  apply wp_bind. eapply wp_lift; [unfold add_ovf; rewrite (proj2 (Z.ltb_lt _ _)) by lia; reflexivity|].
  apply wp_ret. replace (length (image_bytes _ _ _)) with (Z.to_nat n) by (unfold llen in Hn; lia).
  rewrite <- Hd. by apply HQ.
Qed.

Lemma ahci_read_hangs L t buf s n :
  port_ready L s -> ab_device t = device_of L -> cur_pos t / 512 = ap_sectors (port := port) (W := W) ->
  ahci_read (E := E) n t buf s = OutOfFuel.
Proof.
  intros HR Hd Hp. pose proof (ap_sectors_ok (port := port) (W := W)).
  unfold ahci_read, read_block, BLOCK_SIZE. rewrite Hd, Hp.
  apply p_bind_fuel, p_bind_fuel, (execute_hangs L); [exact HR|unfold fits; lia|lia].
Qed.

Lemma wp_identity L s (Q : St -> result IdentifyData E -> Prop) :
  port_ready L s ->
  (forall w m, port_ready L (with_hw s w m) -> (forall i, ~ inside L i -> m i = mem s i) ->
     Q (with_hw s w m) (Ok (identify_from (ap_identify (port := port) (W := W))))) ->
  wp (identity spins (device_of L)) s Q.
Proof.
  intros HR HQ. destruct (ap_identify_ok (port := port) (W := W)) as [Hlen _].
  unfold identity. apply wp_bind. eapply wp_execute; [exact HR|done|exact Hlen|by right|].
  intros w m HR' Hdat Hout. unfold mem_load. apply wp_bind, wp_bind, wp_get, wp_ret.
  cbn [ah_data device_of]. rewrite Z.add_simpl_r. change (bo_mem _) with m. rewrite Hdat. by apply wp_ret, HQ.
Qed.

Lemma identify_sectors : block_count (identify_from (ap_identify (port := port) (W := W))) = ap_sectors (port := port) (W := W).
Proof.
  destruct (ap_identify_ok (port := port) (W := W)) as [_ He]. pose proof (ap_sectors_ok (port := port) (W := W)).
  cbn [block_count identify_from]. rewrite He, from_to_le. apply Z.mod_small. change (256 ^ Z.of_nat 8) with (2 ^ 64). lia.
Qed.
End Bringup.

(** ** A disk for the partition layer *)

Section Disk.
Context `{BitField} {off : Z} {W : Type} `{Hardware W} {port : Z} `{!AhciPort W port}.
Context (spins : nat) (Hspins : (ap_latency < spins)%nat) (L : Layout).

Program Definition ahci_byte_device : @ByteDevice (AhciKernel off W) AhciBlockDevice unit (ahci_io spins) := {|
  bd_inv s t := port_ready L s /\ ab_device t = device_of (off := off) (port := port) L /\
    block_count (ab_identify t) = ap_sectors /\ 0 <= cur_pos t <= ap_sectors * 512;
  bd_pos := cur_pos;
  bd_size t := block_count (ab_identify t) * 512;
  bd_image _ _ := sector_byte ap_sector;
|}.
Next Obligation. intros s t (_ & _ & Hn & Hp). by rewrite Hn. Qed.
Next Obligation.
  intros s t buf s' t' buf' n (HR & Hd & Hn & Hp) Hr. cbn [fio_read ahci_io] in Hr. rewrite Hn.
  destruct (decide (cur_pos t = ap_sectors * 512)) as [He|Hne].
  - unfold run in Hr. rewrite (ahci_read_hangs spins Hspins L) in Hr; [done|done|done|].
    symmetry. apply (Z.div_unique _ _ _ 0); lia.
  - pose proof (Z.mod_pos_bound (cur_pos t) 512). pose proof (llen_nonneg buf).
    set (k := Z.min (llen buf) (512 - cur_pos t mod 512)).
    assert (cur_pos t + k <= ap_sectors * 512) as Hend.
    { pose proof (block_rest 512 ap_sectors (cur_pos t)). lia. }
    destruct (wp_ahci_read (E := Empty_set) spins Hspins L t buf s (fun s' a => port_ready L s' /\
      a = Ok (mk_AhciBlockDevice (ab_device t) (ab_identify t) (cur_pos t + k),
          image_bytes (sector_byte ap_sector) (cur_pos t) k ++ drop (Z.to_nat k) buf, k))) as (s1 & a & Hrun & HR1 & ->);
      [done|done|lia|intros w m HR' _; by split|].
    unfold run in Hr. rewrite Hrun in Hr. cbn [mbind outcome_bind] in Hr. injection Hr as <- <- <- <-.
    cbn [cur_pos ab_device ab_identify]. split_and!; done || lia.
Qed.
Next Obligation.
  intros s t p s' t' n (HR & Hd & Hn & Hp) Hq Hs. cbn [fio_seek ahci_io] in Hs. pose proof ap_sectors_ok.
  unfold ahci_seek, mul_ovf, BLOCK_SIZE in Hs. rewrite Hn, (proj2 (Z.ltb_lt _ _)), seek_start in Hs by lia.
  cbn [mbind outcome_bind] in Hs. destruct (Z.leb_spec p (ap_sectors * 512)); [|done].
  injection Hs as <- <- <-. cbn [cur_pos ab_device ab_identify]. split_and!; done || lia.
Qed.

(** Any write to the device file panics; [Drop] hands the allocator virtual
    addresses, which lie beyond its last page. *)
Lemma ahci_write_panics s t buf : @vf_write _ _ (ahci_file (off := off) (W := W) spins) s t buf = Panic.
Proof. reflexivity. Qed.
Lemma ahci_drop_panics {E} (d : Ahci) (s : AhciKernel off W) :
  pm_len (pages s) * PAGE_SIZE <= ah_cmd_list d -> ahci_drop (E := E) d s = Panic.
Proof.
  intros Hl. pose proof (llen_nonneg (pm_words (pages s))) as H0'. unfold pm_len, PAGE_SIZE in Hl.
  assert (llen (pm_words (pages s)) <= ah_cmd_list d / 4096 / 64) as Hw by (do 2 (apply Z.div_le_lower_bound; [lia|]); lia).
  assert (dealloc_physical_page (pages s) (ah_cmd_list d) = Panic) as Hd.
  { unfold dealloc_physical_page, pm_get, idx, PAGE_SIZE. rewrite bool_decide_true by lia.
    by rewrite lookup_ge_None_2 by (unfold llen in Hw; lia). }
  apply p_bind_panic. unfold page_free. change (bo_pm (ak_board s)) with (pages s). by rewrite Hd.
Qed.
End Disk.

(** ** A port for the examples: it settles and completes at the second read. *)

Module Sample.
Record SamplePort := mk_SamplePort { sp_regs : PortRegs; sp_busy : bool; sp_left : option nat; sp_dead : bool }.
#[export] Instance SamplePort_fields : Fields SamplePort := fun p => mk_SamplePort (sp_regs p) (sp_busy p) (sp_left p) (sp_dead p).
Definition PORT : Z := 0xffff8000feb00100.
Definition SECTORS : Z := 2.
Definition sector (lba : Z) : list Z := replicate 512 (wrap 8 (lba + 1)).
Definition identify : list Z := replicate 200 0 ++ to_le 8 SECTORS ++ replicate 304 0.

Definition command_register (p : SamplePort) : Z :=
  b2z (pr_st (sp_regs p)) + 16 * b2z (pr_fre (sp_regs p)) + (if sp_busy p then 2 ^ 15 + 2 ^ 14 else 0).
Definition issue (p : SamplePort) (m : memory) : SamplePort * memory :=
  match decode_command m (pr_clb (sp_regs p)) with
  | None => (p, m)
  | Some cmd =>
      if ac_code cmd =? CMD_IDENTIFY_DEVICE then (p <| sp_left := Some 1%nat |>, write_memory m (ac_buffer cmd) identify)
      else if (ac_lba cmd <? SECTORS) then (p <| sp_left := Some 1%nat |>, write_memory m (ac_buffer cmd) (sector (ac_lba cmd)))
      else (p <| sp_dead := true |>, m)
  end.
#[export] Instance sample_hardware : Hardware SamplePort := {
  hw_registers := outside_ram;
  hw_read p m a _ :=
    if a =? PORT + 0x18 then (p <| sp_busy := false |>, m, command_register p)
    else if a =? PORT + 0x38 then
      if sp_dead p then (p, m, 1) else
      match sp_left p with
      | Some (S n) => (p <| sp_left := Some n |>, m, 1)
      | _ => (p <| sp_left := None |>, m, 0)
      end
    else (p, m, 0);
  hw_write p m a _ v :=
    if a =? PORT + 0x18
    then (p <| sp_regs := (sp_regs p) <| pr_st := Z.testbit v 0 |> <| pr_fre := Z.testbit v 4 |> |> <| sp_busy := true |>, m)
    else if a =? PORT + 0x00 then (p <| sp_regs := (sp_regs p) <| pr_clb := v |> |>, m)
    else if a =? PORT + 0x08 then (p <| sp_regs := (sp_regs p) <| pr_fb := v |> |>, m)
    else if (a =? PORT + 0x38) && (v =? 1) then issue p m
    else (p, m);
  hw_run p m := (p, m);
}.

Definition idle (p : SamplePort) (r : PortRegs) : Prop := sp_regs p = r /\ sp_left p = None /\ sp_dead p = false.

Lemma sector_bytes lba : bytes (sector lba).
Proof. apply Forall_replicate, (fits_wrap 8). lia. Qed.
Lemma identify_bytes : bytes identify.
Proof. repeat apply bytes_app; [apply (bytes_zeros 200)|apply bytes_to_le|apply (bytes_zeros 304)]. Qed.

Lemma issue_done p m r cmd data :
  idle p r -> bytes data -> issue p m = (p <| sp_left := Some 1%nat |>, write_memory m (ac_buffer cmd) data) ->
  forall w1 m1, issue p m = (w1, m1) ->
  exists w2 m2, ci_done PORT 2 (w1, m1) (w2, m2) /\ idle w2 r /\ transferred r cmd data m m2.
Proof.
  intros (Hr & Hl & Hd) Hb -> w1 m1 [= <- <-].
  eexists (p <| sp_left := None |>), _. split; [|split; [done|split]].
  - eapply ci_wait; [cbn; rewrite Hd; reflexivity|done|].
    eapply ci_clear; [cbn; rewrite Hd; reflexivity|done].
  - by apply read_write_all.
  - intros i Hi _ _. rewrite write_memory_at, decide_False by done. done.
Qed.

Lemma dead_sticks n p m x : sp_dead p = true -> ~ ci_done PORT n (p, m) x.
Proof.
  intros Hd Hc. remember (p, m) as y eqn:Hy. revert p m Hd Hy.
  induction Hc as [n w m w' m' v Hr Hv|n w m w' m' v x Hr Hv _ IH]; intros p m0 Hd [= -> ->]; cbn in Hr; rewrite Hd in Hr; injection Hr as <- <- <-.
  - done.
  - by eapply IH.
Qed.

#[export] Instance sample_port : AhciPort SamplePort PORT.
Proof.
  refine {| ap_latency := 2; ap_idle := idle; ap_busy p := if sp_busy p then 1%nat else 0%nat;
            ap_sectors := SECTORS; ap_sector := sector; ap_identify := identify |}.
  - intros lba _. reflexivity.
  - split; reflexivity.
  - unfold SECTORS. lia.
  - intros p. destruct (sp_busy p); lia.
  - intros p m r w' m' v (Hr & Hl & Hd) [= <- <- <-]. split; [done|]. split; [apply only_fis_refl|]. split; [cbn; lia|].
    destruct p as [[clb fb [] []] [] lf dd]; cbn in *; subst r; cbn; repeat split; try done; intros; try done; lia.
  - intros p m r v w' m' (Hr & Hl & Hd) [= <- <-]. rewrite Hr. split; [done|apply only_fis_refl].
  - intros p m r w' m' v Hi [= <- <- <-]. split; [done|apply only_fis_refl].
  - intros p m r v w' m' Hi _ [= <- <-]. split; [done|apply only_fis_refl].
  - intros p m r v w' m' (Hr & Hl & Hd) _ [= <- <-]. rewrite Hr. split; [done|apply only_fis_refl].
  - intros p m r v w' m' (Hr & Hl & Hd) _ [= <- <-]. rewrite Hr. split; [done|apply only_fis_refl].
  - intros p m r w' m' Hi [= <- <-]. split; [done|apply only_fis_refl].
  - intros p m r cmd w1 m1 Hi _ _ Hdec Hn Hw. change (issue p m = (w1, m1)) in Hw.
    pose proof Hi as (Hr & Hl & Hd). split.
    + intros Hc. eapply issue_done; [done|apply identify_bytes| |exact Hw].
      unfold issue. rewrite Hr, Hdec, Hc. done.
    + intros Hc Hct Hdv. destruct (ac_lba cmd <? SECTORS) eqn:El.
      * eapply issue_done; [done|apply sector_bytes| |exact Hw]. unfold issue. rewrite Hr, Hdec, Hc, El. done.
      * intros n x. unfold issue in Hw. rewrite Hr, Hdec, Hc, El in Hw. injection Hw as <- <-. by apply dead_sticks.
Defined.
End Sample.

(** ** The theorems *)

(** C27: Bringing up an AHCI port: whatever state the port was left in, stopping it,
    building the command list, the command table and the data buffer in four fresh
    pages, and starting it returns; the port then runs on structures it can decode -
    they do not overlap, and header, table and region point at each other - and the
    block device made for it has the number of sectors the disk identifies itself
    with. *)
Theorem ahci_bring_up `{BitField} {off : Z} {W : Type} `{Hardware W} {port : Z} `{!AhciPort W port}
    (spins : nat) (s : AhciKernel off W) (r : PortRegs) :
  (ap_latency < spins)%nat -> pm_wf (pages s) -> free_pages (pages s) 4 ->
  2 ^ 64 - 2 ^ 47 <= off -> off + pm_len (pages s) * PAGE_SIZE <= 2 ^ 64 -> ap_idle (hw s) r ->
  exists s' L t, run (device ←! init_ahci spins port; manager_iter spins [device]) s = Done (s', [t]) /\
    port_ready L s' /\ t = mk_AhciBlockDevice (device_of (off := off) (port := port) L) (ab_identify t) 0 /\
    block_count (ab_identify t) = ap_sectors.
Proof.
  intros Hsp Hwf Hfree Hoff Htop Hi.
  assert (wp (E := Empty_set) (device ←! init_ahci spins port; manager_iter spins [device]) s (fun s' a => exists L t, a = Ok [t] /\
    port_ready L s' /\ t = mk_AhciBlockDevice (device_of (off := off) (port := port) L) (ab_identify t) 0 /\
    block_count (ab_identify t) = ap_sectors)) as (s' & a & Hr & L & t & -> & Ht).
  { apply wp_bind. eapply (wp_init spins Hsp); [done..|exact Hi|]. intros s' L HR. cbn [manager_iter].
    apply wp_bind. apply (wp_identity spins Hsp); [done|]. intros w m HR' _. apply wp_bind, wp_ret, wp_ret.
    eexists L, _. split; [reflexivity|]. split; [done|]. split; [reflexivity|]. by apply (identify_sectors spins). }
  exists s', L, t. split; [|done]. unfold run. by rewrite Hr.
Qed.

#[local] Existing Instances z_bit_field Sample.sample_hardware Sample.sample_port.
Definition sample_kernel : AhciKernel example_off Sample.SamplePort :=
  mk_AhciKernel (mk_Board (example_pm 4) (fun _ => 0) [] (Sample.mk_SamplePort (mk_PortRegs 0 0 true true) true None false)) [].

Lemma sample_free : free_pages (pages sample_kernel) 4.
Proof.
  exists [5; 6; 7; 8]. split; [done|]. split; [by apply (bool_decide_eq_true_1 _)|].
  intros p Hp. repeat (apply elem_of_cons in Hp as [->|Hp]; [by vm_compute|]). by apply elem_of_nil in Hp.
Qed.

Lemma ahci_bring_up_witness :
  exists s' L t, run (device ←! init_ahci 3 Sample.PORT; manager_iter 3 [device]) sample_kernel = Done (s', [t]) /\
    port_ready (port := Sample.PORT) L s' /\ block_count (ab_identify t) = 2.
Proof.
  destruct (ahci_bring_up (port := Sample.PORT) 3 sample_kernel (mk_PortRegs 0 0 true true)) as (s' & L & t & Hr & HR & _ & Hn).
  - cbn. lia.
  - by vm_compute.
  - exact sample_free.
  - by vm_compute.
  - by vm_compute.
  - by split_and!.
  - exists s', L, t. split; [exact Hr|]. split; [exact HR|exact Hn].
Defined.

(** C24: A read of an AHCI disk returns the bytes of the disk at the current position,
    up to the end of the sector it lies in, moves the position by as many, changes
    no memory but the port's own structures and leaves the port ready; at the end of
    the disk the driver asks for a sector that does not exist, and waits for the
    command forever. *)
Theorem ahci_read_is_disk_image `{BitField} {off : Z} {W : Type} `{Hardware W} {port : Z} `{!AhciPort W port}
    (spins : nat) (L : Layout) (s : AhciKernel off W) (t : AhciBlockDevice) (buf : list Z) :
  (ap_latency < spins)%nat -> port_ready L s -> ab_device t = device_of (off := off) (port := port) L ->
  0 <= cur_pos t <= ap_sectors * 512 ->
  if cur_pos t <? ap_sectors * 512 then
    let n := Z.min (llen buf) (512 - cur_pos t mod 512) in
    exists s', @fio_read _ _ _ (ahci_io spins) s t buf =
        Done (s', mk_AhciBlockDevice (ab_device t) (ab_identify t) (cur_pos t + n),
          image_bytes (sector_byte ap_sector) (cur_pos t) n ++ drop (Z.to_nat n) buf, Ok n) /\
      port_ready L s' /\ (forall i, ~ inside L i -> mem s' i = mem s i)
  else forall fuel, @fio_read _ _ _ (ahci_io fuel) s t buf = OutOfFuel.
Proof.
  intros Hsp HR Hd Hp. destruct (Z.ltb_spec (cur_pos t) (ap_sectors * 512)) as [Hlt|Hge].
  - set (n := Z.min _ _). destruct (wp_ahci_read (E := Empty_set) spins Hsp L t buf s (fun s' a =>
      a = Ok (mk_AhciBlockDevice (ab_device t) (ab_identify t) (cur_pos t + n),
          image_bytes (sector_byte ap_sector) (cur_pos t) n ++ drop (Z.to_nat n) buf, n) /\
      port_ready L s' /\ (forall i, ~ inside L i -> mem s' i = mem s i))) as (s' & a & Hr & -> & Hs'); [done|done|lia|done|].
    exists s'. split; [|done]. cbn [fio_read ahci_io]. unfold run. by rewrite Hr.
  - intros fuel. cbn [fio_read ahci_io]. unfold run. rewrite (ahci_read_hangs spins Hsp L); [done..|].
    symmetry. apply (Z.div_unique _ _ _ 0); lia.
Qed.

Lemma sample_latency : (ap_latency (W := Sample.SamplePort) (port := Sample.PORT) < 3)%nat.
Proof. cbn. lia. Qed.

Lemma ahci_read_is_disk_image_witness :
  exists s L t s', port_ready (off := example_off) (port := Sample.PORT) L s /\ cur_pos t = 510 /\
    @fio_read _ _ _ (ahci_io 3) s t [0; 0; 0; 0] = Done (s', mk_AhciBlockDevice (ab_device t) (ab_identify t) 512, [1; 1; 0; 0], Ok 2).
Proof.
  destruct (wp_init (E := Empty_set) (port := Sample.PORT) 3 sample_latency (mk_PortRegs 0 0 true true) sample_kernel
    (fun s' a => exists L, port_ready L s' /\ a = Ok (device_of (off := example_off) (port := Sample.PORT) L))) as (s & a & _ & L & HR & ->).
  - by vm_compute.
  - exact sample_free.
  - by vm_compute.
  - by vm_compute.
  - by split_and!.
  - intros s' L HR. by exists L.
  - set (t := mk_AhciBlockDevice (device_of (off := example_off) (port := Sample.PORT) L) (identify_from Sample.identify) 510).
    destruct (ahci_read_is_disk_image (port := Sample.PORT) 3 L s t [0; 0; 0; 0]) as (s' & Hr & _);
      [exact sample_latency|done|done|vm_compute; split; discriminate|].
    exists s, L, t, s'. split; [done|]. split; [done|]. exact Hr.
Defined.
