(* ===== verification/Nvme.v ===== *)
(** * NVMe disks: [blockdev/nvme.rs], [blockdev/partition/nvme.rs]

    The driver proper is the [nvme] crate, an interface here; the kernel gives it
    memory ([NvmeAllocator]), finds the controllers, and turns its blocks into a
    byte device.  The buffers of the byte device come from the kernel's heap. *)

From S2P Require Import Prelude Words Bitmap PageAlloc Dma Machine Board Pcie Vfs Block.

(** ** What the kernel lends to the crate *)

(** [OffsetPageTable::translate_addr] on the current page table. *)
Class Translator (M : Type) := { translate_addr : M -> Z -> option Z }.

(** The memory the crate's allocator works on: pages, bytes, page table. *)
Record Memory (off : Z) (W M : Type) := mk_Memory { nm_board : Board off W; nm_table : M }.
Arguments mk_Memory {off W M}.
Arguments nm_board {off W M}.
Arguments nm_table {off W M}.

(** The trait [nvme::Allocator]. *)
Class Allocator (K : Type) := {
  allocate : K -> Z -> outcome (K * Z);
  deallocate : K -> Z -> outcome K;
  translate : K -> Z -> outcome Z;
}.

Section NvmeAllocator.
Context `{BitField} {off : Z} {W M : Type} `{Translator M}.
Abbreviation memory_of := (Memory off W M).
Implicit Types (k : memory_of).

Definition with_board k (pm : PageMan) (m : memory) : memory_of :=
  let b := nm_board k in mk_Memory (mk_Board pm m (bo_live b) (bo_hw b)) (nm_table k).

(** Only the first page is cleared, whatever the size. *)
(** @ blockdev/nvme.rs:25-32 Allocator::NvmeAllocator::allocate *)
Definition nvme_allocate k (size : Z) : outcome (memory_of * Z) :=
  '(pm, r) ← find_continuous_mem (bo_pm (nm_board k)) (div_ceil size 4096);
  pa ← unwrap r;
  res ← phys_to_virt off pa;
  Done (with_board k pm (write_bytes (bo_mem (nm_board k)) (res - off) 0 4096), res).
(** @ blockdev/nvme.rs:34-36 Allocator::NvmeAllocator::deallocate *)
Definition nvme_deallocate k (addr : Z) : outcome memory_of :=
  base ← phys_to_virt off 0;
  pa ← sub_ovf addr base;
  '(pm, _) ← dealloc_physical_page (bo_pm (nm_board k)) pa;
  Done (with_board k pm (bo_mem (nm_board k))).
(** @ blockdev/nvme.rs:38-48 Allocator::NvmeAllocator::translate *)
Definition nvme_translate k (addr : Z) : outcome Z :=
  va ← virt_addr_new addr;
  unwrap (translate_addr (nm_table k) va).
(** @ blockdev/nvme.rs:22-22 NvmeAllocator *)
#[global] Instance NvmeAllocator : Allocator memory_of := {
  allocate := nvme_allocate;
  deallocate := nvme_deallocate;
  translate := nvme_translate;
}.
End NvmeAllocator.

(** ** The crate and the heap *)

(** The [nvme] crate, generic in its allocator, over its own world [C]; devices and
    queue pairs are shared ([Arc<Mutex<_>>]), here handles.  Reads and flushes let
    the controller write to memory. *)
Class NvmeCrate (K C : Type) := {
  Namespace : Type;
  NvmeDevice : Type;
  ns_block_size : Namespace -> Z;
  ns_block_count : Namespace -> Z;
  device_init : Allocator K -> K -> C -> Z -> outcome (K * C * result NvmeDevice unit);
  identify_namespaces : Allocator K -> K -> C -> NvmeDevice -> Z -> outcome (K * C * result (list Namespace) unit);
  create_io_queue_pair : Allocator K -> K -> C -> NvmeDevice -> Namespace -> Z -> outcome (K * C * result (Z * Z) unit);
  device_model_number : C -> NvmeDevice -> str;
  qp_read : Allocator K -> K -> C -> Z -> Z -> Z -> Z -> outcome (K * C * result unit unit);
  qp_flush : Allocator K -> K -> C -> Z -> outcome (K * C * result unit unit);
  qp_drop : Allocator K -> K -> C -> Z -> outcome (K * C);
}.

(** The global allocator (a crate): a block of a size and an alignment, or null. *)
Class GlobalAlloc (H : Type) := {
  heap_alloc : H -> Z -> Z -> H * Z;
  heap_dealloc : H -> Z -> Z -> Z -> H;
}.
(** [Layout::from_size_align] succeeds. *)
Definition layout_ok (size align : Z) : bool := is_power_of_two align && (size <=? 2 ^ 63 - align).

(** ** The driver *)

Section Driver.
Context `{BitField} {off : Z} {W M C Heap : Type} `{Hardware W} `{Translator M} `{Mapper M}.
Context `{GlobalAlloc Heap} `{Cr : !NvmeCrate (Memory off W M) C}.

(** The queue pairs by identifier, each a handle. *)
(** @ blockdev/nvme.rs:52-57 NvmeBlockDevice *)
Record NvmeBlockDevice := mk_NvmeBlockDevice {
  namespace : Namespace (NvmeCrate := Cr);
  qpairs : list (Z * Z);
  model_number : str;
  cur_pos : Z;
}.

Record NvmeKernel := mk_NvmeKernel {
  nk_memory : Memory off W M;
  nk_crate : C;
  nk_heap : Heap;
  connections : list (NvmeDevice (NvmeCrate := Cr));
}.
#[global] Instance NvmeKernel_fields : Fields NvmeKernel := fun s =>
  mk_NvmeKernel (nk_memory s) (nk_crate s) (nk_heap s) (connections s).
#[global] Instance NvmeKernel_machine : HasMachine NvmeKernel (Board off W) := {
  machine s := nm_board (nk_memory s);
  set_machine d s := mk_NvmeKernel (mk_Memory d (nm_table (nk_memory s))) (nk_crate s) (nk_heap s) (connections s);
}.

Abbreviation nprog E A := (prog NvmeKernel E A).
Implicit Types (t : NvmeBlockDevice).

(** A call of the crate, with the kernel's allocator; [map_err] as the callers have it. *)
Definition crate_call {A E} (e : E) (f : Memory off W M -> C -> outcome (Memory off W M * C * result A unit)) : nprog E A :=
  fun s => '(k, c, r) ← f (nk_memory s) (nk_crate s);
           Done (s <| nk_memory := k |> <| nk_crate := c |>, map_err (fun _ => e) r).
Definition read_command {E} (e : E) (qp buffer bytes lba : Z) : nprog E unit :=
  crate_call e (fun k c => qp_read NvmeAllocator k c qp buffer bytes lba).
Definition flush_command {E} (e : E) (qp : Z) : nprog E unit :=
  crate_call e (fun k c => qp_flush NvmeAllocator k c qp).
Definition drop_queue {E} (qp : Z) : nprog E unit :=
  fun s => '(k, c) ← qp_drop NvmeAllocator (nk_memory s) (nk_crate s) qp;
           Done (s <| nk_memory := k |> <| nk_crate := c |>, Ok tt).

Definition heap_get {E} (size align : Z) : nprog E Z :=
  fun s => let '(h, p) := heap_alloc (nk_heap s) size align in Done (s <| nk_heap := h |>, Ok p).
Definition heap_put {E} (p size align : Z) : nprog E unit :=
  p_modify (fun s => s <| nk_heap := heap_dealloc (nk_heap s) p size align |>).
(** The bytes of a block of the heap, which lies in the direct map; a null pointer
    makes no slice. *)
Definition heap_bytes {E} (p n : Z) : nprog E (list Z) :=
  s ←! p_get;
  p_lift (assert! negb (p =? 0); Done (read_memory (bo_mem (nm_board (nk_memory s))) (p - off) n)).

(** ** The byte device *)

(** The block is given back at the end only: an error on the way keeps it. *)
(** @ blockdev/nvme.rs:64-86 Read::NvmeBlockDevice::read *)
Definition nvme_read t (buf : list Z) : nprog unit (NvmeBlockDevice * list Z * Z) :=
  match qpairs t with
  | [] => p_err tt
  | (_, qp) :: _ =>
      let block_size := ns_block_size (namespace t) in
      let size := llen buf in
      sector ←! p_lift (assert! negb (block_size =? 0); Done (cur_pos t / block_size));
      if negb (layout_ok block_size block_size) then p_err tt else
      buf2 ←! heap_get block_size block_size;
      read_command tt qp buf2 block_size sector ;!
      flush_command tt qp ;!
      let t1 := cur_pos t mod block_size in
      let will_read := Z.min size (block_size - t1) in
      buf2_slice ←! heap_bytes buf2 block_size;
      part ←! p_lift (slice buf2_slice t1 (t1 + will_read));
      buf ←! p_lift (splice buf 0 part);
      pos ←! p_lift (add_ovf 64 (cur_pos t) will_read);
      heap_put buf2 block_size block_size ;!
      p_ret (mk_NvmeBlockDevice (namespace t) (qpairs t) (model_number t) pos, buf, will_read)
  end.

(** @ blockdev/nvme.rs:90-92 Write::NvmeBlockDevice::write *)
Definition nvme_write t (_ : list Z) : outcome (NvmeBlockDevice * result Z unit) := Done (t, Err tt).

Definition nvme_bytes t : outcome Z := mul_ovf 64 (ns_block_count (namespace t)) (ns_block_size (namespace t)).
(** @ blockdev/nvme.rs:100-120 Seek::NvmeBlockDevice::seek *)
Definition nvme_seek t (pos : SeekFrom) : outcome (NvmeBlockDevice * result Z unit) :=
  new_pos ← seek_target (nvme_bytes t) (cur_pos t) pos;
  Done match new_pos with
    | None => (t, Err tt)
    | Some new_pos => (mk_NvmeBlockDevice (namespace t) (qpairs t) (model_number t) new_pos, Ok new_pos)
    end.

(** @ blockdev/nvme.rs:60-123 fatfs::IoBase for NvmeBlockDevice -- with Read, Write, Seek *)
Definition nvme_io : FatIo NvmeKernel NvmeBlockDevice unit := {|
  fio_read s t buf := '(s, r) ← nvme_read t buf s;
    Done match r with Ok (t, buf, n) => (s, t, buf, Ok n) | Err e => (s, t, buf, Err e) end;
  fio_write s t buf := '(t, r) ← nvme_write t buf; Done (s, t, r);
  fio_seek s t pos := '(t, r) ← nvme_seek t pos; Done (s, t, r);
|}.
(** @ blockdev/nvme.rs:125-149 crate::vfs::VfsFile for NvmeBlockDevice *)
Definition nvme_file : VfsFile NvmeKernel NvmeBlockDevice := {|
  vf_size s t := n ← nvme_bytes t; Done (s, t, n);
  vf_read s t buf := '(s, t, buf, r) ← @fio_read _ _ _ nvme_io s t buf; n ← unwrap_ok r; Done (s, t, buf, n);
  vf_write s t buf := '(s, t, r) ← @fio_write _ _ _ nvme_io s t buf; n ← unwrap_ok r; Done (s, t, n);
  vf_seek s t pos := '(s, t, r) ← @fio_seek _ _ _ nvme_io s t pos; n ← unwrap_ok r; Done (s, t, n);
|}.

(** ** Blocks for [gpt_disk_io] *)

(** [BlockSize::from_usize] is the crate's. *)
(** @ blockdev/partition/nvme.rs:13-15 BlockIo::NvmeBlockDevice::block_size *)
Definition nvme_block_size (from_usize : Z -> option Z) t : Z := unwrap_or 512 (from_usize (ns_block_size (namespace t))).
(** @ blockdev/partition/nvme.rs:17-19 BlockIo::NvmeBlockDevice::num_blocks *)
Definition nvme_num_blocks t : result Z bool := Ok (ns_block_count (namespace t)).
(** The chunks read before an error stay read. *)
(** @ blockdev/partition/nvme.rs:36-46 BlockIo::NvmeBlockDevice::read_blocks -- the closure *)
Fixpoint read_chunks (qp buffer block_size sector : Z) (cs : list (list Z)) : nprog Empty_set (list (list Z) * result unit bool) :=
  match cs with
  | [] => p_ret ([], Ok tt)
  | c :: cs =>
      r ←! p_try (read_command true qp buffer block_size sector ;! flush_command true qp);
      match r with
      | Err e => p_ret (c :: cs, Err e)
      | Ok _ =>
          chunk ←! heap_bytes buffer block_size;
          next ←! p_lift (add_ovf 64 sector 1);
          '(rest, r) ←! read_chunks qp buffer block_size next cs;
          p_ret (chunk :: rest, r)
      end
  end.
(** @ blockdev/partition/nvme.rs:21-51 BlockIo::NvmeBlockDevice::read_blocks *)
Definition nvme_read_blocks t (start_lba : Z) (output : list Z) : nprog Empty_set (list Z * result unit bool) :=
  let block_size := ns_block_size (namespace t) in
  if negb (is_multiple_of (llen output) block_size) then p_ret (output, Err true) else
  match qpairs t with
  | [] => p_ret (output, Err true)
  | (_, qp) :: _ =>
      if negb (layout_ok block_size block_size) then p_ret (output, Err true) else
      buffer ←! heap_get block_size block_size;
      if buffer =? 0 then p_ret (output, Err true) else
      '(out, result) ←! read_chunks qp buffer block_size start_lba (chunks (Z.to_nat block_size) output);
      heap_put buffer block_size block_size ;!
      p_ret (concat out, result)
  end.
(** @ blockdev/partition/nvme.rs:53-55 BlockIo::NvmeBlockDevice::write_blocks *)
Definition nvme_write_blocks t (_ : Z) (_ : list Z) : result unit bool := Err true.

(** ** Finding the disks *)

(** A namespace that a queue pair cannot be made for is skipped. *)
(** @ blockdev/nvme.rs:159-175 NvmeManager::iter -- the closure mapper *)
Fixpoint open_namespaces {E} (device : NvmeDevice) (l : list Namespace) : nprog E (list NvmeBlockDevice) :=
  match l with
  | [] => p_ret []
  | ns :: l =>
      r ←! p_try (crate_call tt (fun k c => create_io_queue_pair NvmeAllocator k c device ns 64));
      s ←! p_get;
      let this := match r with
        | Ok qpair => [mk_NvmeBlockDevice ns [qpair] (device_model_number (nk_crate s) device) 0]
        | Err _ => []
        end in
      rest ←! open_namespaces device l;
      p_ret (this ++ rest)
  end.
(** @ blockdev/nvme.rs:155-179 NvmeManager::iter -- one step *)
Definition open_device {E} (device : NvmeDevice) : nprog E (list NvmeBlockDevice) :=
  r ←! p_try (crate_call tt (fun k c => identify_namespaces NvmeAllocator k c device 0));
  namespaces ←! p_lift (unwrap_ok r);
  open_namespaces device namespaces.
(** The devices go out of scope, and with each its only queue pair. *)
Definition drop_devices {E} (l : list NvmeBlockDevice) : nprog E unit :=
  p_each l (fun t => p_each (qpairs t) (fun '(_, qp) => drop_queue qp)).

(** The 32 pages of the registers; what [map_to] returns is dropped. *)
(** @ blockdev/nvme.rs:198-216 NVME -- the loop over the pages *)
Definition map_registers {E} (virtual_address physical_address : Z) : nprog E unit :=
  p_each (seqZ 0 32) (fun pg =>
    va ←! p_lift (add_ovf 64 virtual_address (pg * 4096));
    va ←! p_lift (virt_addr_new va);
    pa ←! p_lift (add_ovf 64 physical_address (pg * 4096));
    pa ←! p_lift (assert! pa <? 2 ^ 52; Done pa);
    p_modify (fun s =>
      let '(table, _) := map_to (nm_table (nk_memory s)) (page_of va) (page_of pa) in
      s <| nk_memory := mk_Memory (nm_board (nk_memory s)) table |>)).
(** @ blockdev/nvme.rs:187-222 NVME -- the closure *)
Definition nvme_hook {E} (_ : Bdf) (config : Z) : nprog E unit :=
  class ←! class_code config;
  sub ←! (if class =? 1 then subclass config else p_ret 0);
  p_when ((class =? 1) && (sub =? 8))
    (bar0 ←! config_read config 0x10 4;
     bar1 ←! config_read config 0x14 4;
     let physical_address := Z.land bar0 0xfffffff0 + Z.shiftl bar1 32 in
     virtual_address ←! p_lift (phys_to_virt off physical_address);
     map_registers virtual_address physical_address ;!
     r ←! p_try (crate_call tt (fun k c => device_init NvmeAllocator k c virtual_address));
     device ←! p_lift (unwrap_ok r);
     p_modify (fun s => s <| connections := connections s ++ [device] |>)).
(** @ blockdev/nvme.rs:180-224 NVME *)
Definition nvme_manager {E} (regions : list PciRegion) : nprog E unit := doit off regions nvme_hook.

(** What [init] prints, up to the unit: the model and the size. *)
(** @ blockdev/nvme.rs:226-240 init *)
Definition nvme_init {E} : nprog E (list (str * Z)) :=
  s ←! p_get;
  (fix loop (devices : list NvmeDevice) : nprog E (list (str * Z)) :=
    match devices with
    | [] => p_ret []
    | device :: devices =>
        found ←! open_device device;
        lines ←! p_lift (fold_outcome (fun lines t => size ← nvme_bytes t; Done (lines ++ [(model_number t, size)])) found []);
        drop_devices found ;!
        rest ←! loop devices;
        p_ret (lines ++ rest)
    end) (connections s).
End Driver.
