(* ===== verification/NvmeDisk.v ===== *)
(** * NVMe disks: what the driver achieves

    What it relies on of a queue pair and of the heap, as laws; that the byte device
    and the block interface read the same image and give every block of the heap
    back; what an error leaves behind; and what the crate's allocator keeps. *)

From S2P Require Import Prelude Words Bitmap PageAlloc Dma Machine Board Pcie Vfs Block Nvme.

(** ** Laws *)

(** A heap: blocks that do not overlap, and room for a block given back. *)
Class HeapLaws (H : Type) `{GlobalAlloc H} := {
  heap_live : H -> list (Z * Z);
  heap_room : H -> Z -> Z -> Prop;
  hl_alloc h size align h' p : layout_ok size align = true -> heap_room h size align -> heap_alloc h size align = (h', p) ->
    p <> 0 /\ heap_live h' ≡ₚ (p, size) :: heap_live h /\ Forall (fun b => p + size <= b.1 \/ b.1 + b.2 <= p) (heap_live h);
  hl_dealloc h p size align : (p, size) ∈ heap_live h -> heap_live h ≡ₚ (p, size) :: heap_live (heap_dealloc h p size align);
  hl_room h size align h' p : heap_room h size align -> heap_alloc h size align = (h', p) -> heap_room (heap_dealloc h' p size align) size align;
}.

Section Disk.
Context `{BitField} {off : Z} {W M C Heap : Type} `{Hardware W} `{Translator M} `{Mapper M}.
Context `{HeapLaws Heap} `{Cr : !NvmeCrate (Memory off W M) C}.
Abbreviation nprog E A := (prog (NvmeKernel (off := off) (W := W) (M := M) (C := C) (Heap := Heap)) E A).
Abbreviation Kernel := (NvmeKernel (off := off) (W := W) (M := M) (C := C) (Heap := Heap)).
Implicit Types (s : Kernel) (t : NvmeBlockDevice (off := off) (W := W) (M := M) (C := C)).

Definition ram (k : Memory off W M) : memory := bo_mem (nm_board k).

(** A queue pair of a namespace of [count] blocks of [bs] bytes: a read of a block
    that exists followed by a flush delivers it, and writes nothing else but the
    queues at [queues]. *)
Class NvmeQueue (qp bs count : Z) (disk : Z -> list Z) (queues : Z -> Prop) := {
  nq_ready : Memory off W M -> C -> Prop;
  nq_sizes : is_power_of_two bs = true /\ bs <= 2 ^ 62 /\ 0 <= count /\ count * bs < 2 ^ 63;
  nq_block lba : 0 <= lba < count -> llen (disk lba) = bs;
  nq_read k c buffer lba : nq_ready k c -> 0 <= lba < count ->
    exists k1 c1 k2 c2, qp_read NvmeAllocator k c qp buffer bs lba = Done (k1, c1, Ok tt) /\
      qp_flush NvmeAllocator k1 c1 qp = Done (k2, c2, Ok tt) /\ nq_ready k2 c2 /\
      read_memory (ram k2) (buffer - off) bs = disk lba /\
      (forall i, ~ queues i -> ~ buffer - off <= i < buffer - off + bs -> ram k2 i = ram k i);
}.

Section Queue.
Context {qp bs count : Z} {disk : Z -> list Z} {queues : Z -> Prop} `{Q : !NvmeQueue qp bs count disk queues}.

(** The state a read starts in and ends in: live heap blocks and their bytes. *)
Definition held s (i : Z) : Prop := exists b, b ∈ heap_live (nk_heap s) /\ b.1 - off <= i < b.1 - off + b.2.
Record steady (s0 s : Kernel) : Prop := {
  sd_ready : nq_ready (NvmeQueue := Q) (nk_memory s) (nk_crate s);
  sd_room : heap_room (nk_heap s) bs bs;
  sd_live : heap_live (nk_heap s) ≡ₚ heap_live (nk_heap s0);
  sd_held i : held s0 i -> ~ queues i -> ram (nk_memory s) i = ram (nk_memory s0) i;
}.

Lemma bs_pos : 0 < bs /\ layout_ok bs bs = true.
Proof.
  destruct (nq_sizes (NvmeQueue := Q)) as (Hp2 & Hb & _). unfold layout_ok. rewrite Hp2, (proj2 (Z.leb_le _ _)) by lia.
  split; [|done]. unfold is_power_of_two in Hp2. apply andb_true_iff in Hp2 as [Hlt%Z.ltb_lt _]. done.
Qed.

Lemma wp_step {A B E} (m : nprog E A) (k : A -> nprog E B) s s' a (P : Kernel -> result B E -> Prop) :
  m s = Done (s', Ok a) -> wp (k a) s' P -> wp (p_bind m k) s P.
Proof. intros Hm Hk. unfold wp. by rewrite (p_bind_Ok _ _ _ _ _ Hm). Qed.

Lemma crate_call_ok {A E} (e : E) f s k c (a : A) :
  f (nk_memory s) (nk_crate s) = Done (k, c, Ok a) -> crate_call e f s = Done (s <| nk_memory := k |> <| nk_crate := c |>, Ok a).
Proof. intros Hf. unfold crate_call. by rewrite Hf. Qed.

(** A block of the heap, [p], is in use on top of what [s0] holds. *)
Record lent (s0 : Kernel) p s : Prop := {
  ln_ready : nq_ready (NvmeQueue := Q) (nk_memory s) (nk_crate s);
  ln_block : p <> 0 /\ heap_live (nk_heap s) ≡ₚ (p, bs) :: heap_live (nk_heap s0) /\
    Forall (fun b => p + bs <= b.1 \/ b.1 + b.2 <= p) (heap_live (nk_heap s0));
  ln_room : heap_room (heap_dealloc (nk_heap s) p bs bs) bs bs;
  ln_held i : held s0 i -> ~ queues i -> ram (nk_memory s) i = ram (nk_memory s0) i;
}.

Lemma lend {E} s0 s :
  steady s0 s -> exists p s', heap_get (E := E) bs bs s = Done (s', Ok p) /\ lent s0 p s'.
Proof.
  intros [Hr Hrm Hl Hh]. unfold heap_get. destruct (heap_alloc (nk_heap s) bs bs) as [h p] eqn:Ha.
  destruct (hl_alloc _ _ _ _ _ (proj2 bs_pos) Hrm Ha) as (Hp0 & Hlive & Hap).
  eexists p, _. split; [reflexivity|]. split; cbn; [done| |by eapply hl_room|done].
  split; [done|]. rewrite Hl in Hlive, Hap. by split.
Qed.

Lemma give_back {E} s0 p s :
  lent s0 p s -> exists s', heap_put (E := E) p bs bs s = Done (s', Ok tt) /\ steady s0 s'.
Proof.
  intros [Hr (Hp0 & Hl & _) Hrm Hh]. eexists. split; [reflexivity|]. split; cbn; [done|done| |done].
  assert ((p, bs) ∈ heap_live (nk_heap s)) as Hin by (rewrite Hl; left).
  pose proof (hl_dealloc _ _ _ bs Hin) as Hd. rewrite Hl in Hd. symmetry. by eapply Permutation.Permutation_cons_inv.
Qed.

(** One block: the command, the wait and the bytes. *)
Lemma transfer {E} (e : E) s0 p lba s :
  lent s0 p s -> 0 <= lba < count ->
  exists s1 s2, read_command e qp p bs lba s = Done (s1, Ok tt) /\ flush_command e qp s1 = Done (s2, Ok tt) /\
    lent s0 p s2 /\ (forall F, heap_bytes (E := F) p bs s2 = Done (s2, Ok (disk lba))).
Proof.
  intros [Hr (Hp0 & Hl & Hap) Hrm Hh] Hlba.
  destruct (nq_read _ _ p lba Hr Hlba) as (k1 & c1 & k2 & c2 & Hread & Hflush & Hr2 & Hdat & Hsame).
  eexists _, _. split; [by apply crate_call_ok|]. split; [by apply crate_call_ok|]. split.
  - split; cbn; [done|done|done|]. intros i Hi Hq. rewrite Hsame; [by apply Hh|done|].
    destruct Hi as ([b n] & Hb & Hi). rewrite Forall_forall in Hap. specialize (Hap _ Hb). cbn [fst snd] in *. lia.
  - intros F. unfold heap_bytes. erewrite p_bind_Ok; [|reflexivity]. unfold p_lift.
    rewrite (proj2 (Z.eqb_neq p 0)) by done. cbn [negb mbind outcome_bind]. do 3 f_equal. exact Hdat.
Qed.

(** A device on the queue. *)
Record on_queue t : Prop := {
  oq_pair : head (qpairs t) = Some (default 0 (fst <$> head (qpairs t)), qp);
  oq_bs : ns_block_size (namespace t) = bs;
  oq_count : ns_block_count (namespace t) = count;
  oq_pos : 0 <= cur_pos t <= count * bs;
}.
Lemma oq_cons t : on_queue t -> exists i l, qpairs t = (i, qp) :: l.
Proof. intros [Hq _ _ _]. destruct (qpairs t) as [|[i q] l]; [done|]. cbn in Hq. injection Hq as ->. by exists i, l. Qed.
Definition moved_to t (pos : Z) : NvmeBlockDevice := mk_NvmeBlockDevice (namespace t) (qpairs t) (model_number t) pos.
Lemma on_queue_moved t pos : on_queue t -> 0 <= pos <= count * bs -> on_queue (moved_to t pos).
Proof. intros [H1' H2' H3' H4'] Hp. by split. Qed.

(** The block that holds the current position, on the heap for as long. *)
Lemma wp_nvme_read t buf s0 s (P : Kernel -> result (NvmeBlockDevice * list Z * Z) unit -> Prop) :
  steady s0 s -> on_queue t -> cur_pos t < count * bs ->
  (forall s', steady s0 s' ->
     let n := Z.min (llen buf) (bs - cur_pos t mod bs) in
     P s' (Ok (moved_to t (cur_pos t + n), image_bytes (block_byte bs disk) (cur_pos t) n ++ drop (Z.to_nat n) buf, n))) ->
  wp (nvme_read t buf) s P.
Proof.
  intros Hs Ht Hlt HP. destruct (oq_cons t Ht) as (i & l & Hq). destruct Ht as [_ Hbs Hcnt Hpos].
  destruct bs_pos as [Hb0 Hlay]. destruct (nq_sizes (NvmeQueue := Q)) as (_ & _ & _ & Hsz).
  unfold nvme_read. rewrite Hq, Hbs, Hlay. cbn [negb]. set (n := Z.min (llen buf) (bs - cur_pos t mod bs)) in *.
  pose proof (Z.mod_pos_bound (cur_pos t) bs Hb0). pose proof (llen_nonneg buf).
  pose proof (block_index bs count (cur_pos t) Hb0 ltac:(lia)) as Hlba. pose proof (block_rest bs count (cur_pos t) Hb0 ltac:(lia)).
  assert (llen (image_bytes (block_byte bs disk) (cur_pos t) n) = n) as Hn by (apply image_bytes_len; lia).
  eapply wp_step; [unfold p_lift; rewrite (proj2 (Z.eqb_neq bs 0)) by lia; reflexivity|].
  destruct (lend (E := unit) s0 s Hs) as (p & s1 & Hget & Hs1). eapply wp_step; [exact Hget|].
  destruct (transfer tt s0 p (cur_pos t / bs) s1 Hs1 Hlba) as (s2 & s3 & Hrd & Hfl & Hs3 & Hby).
  eapply wp_step; [exact Hrd|]. eapply wp_step; [exact Hfl|]. eapply wp_step; [apply Hby|].
  apply wp_bind. eapply wp_lift; [apply block_piece; [lia|by apply nq_block|lia]|].
  apply wp_bind. eapply wp_lift; [rewrite splice_in_range by lia; reflexivity|]. cbn [Z.to_nat take app Nat.add].
  apply wp_bind. eapply wp_lift; [unfold add_ovf; rewrite (proj2 (Z.ltb_lt _ _)) by lia; reflexivity|].
  destruct (give_back (E := unit) s0 p s3 Hs3) as (s4 & Hput & Hs4). eapply wp_step; [exact Hput|].
  apply wp_ret. replace (length (image_bytes _ _ _)) with (Z.to_nat n) by (unfold llen in Hn; lia). unfold moved_to in HP. rewrite Hq in HP. by apply HP.
Qed.

(** ** The two interfaces *)

Lemma vf_read_piece s0 s t buf :
  steady s0 s -> on_queue t -> 0 < llen buf -> cur_pos t < count * bs ->
  exists s' t' n, @vf_read _ _ (nvme_file (off := off)) s t buf =
      Done (s', t', image_bytes (block_byte bs disk) (cur_pos t) n ++ drop (Z.to_nat n) buf, n) /\
    0 < n <= llen buf /\ cur_pos t' = cur_pos t + n /\ steady s0 s' /\ on_queue t' /\ t' = moved_to t (cur_pos t + n).
Proof.
  intros Hs Ht Hb Hlt. destruct bs_pos as [Hb0 _]. pose proof (Z.mod_pos_bound (cur_pos t) bs Hb0).
  set (n := Z.min (llen buf) (bs - cur_pos t mod bs)).
  destruct (wp_nvme_read t buf s0 s (fun s' r => steady s0 s' /\
    r = Ok (moved_to t (cur_pos t + n), image_bytes (block_byte bs disk) (cur_pos t) n ++ drop (Z.to_nat n) buf, n)))
    as (s' & r & Hr & Hs' & ->); [done..|intros s' Hs'; by split|].
  exists s', (moved_to t (cur_pos t + n)), n. cbn [vf_read fio_read nvme_file nvme_io]. rewrite Hr.
  split; [done|]. split; [lia|]. split; [done|]. split; [done|]. split; [|done].
  pose proof (block_rest bs count (cur_pos t) Hb0). destruct (oq_pos _ Ht). apply on_queue_moved; [done|lia].
Qed.

Lemma read_file s0 s t buf :
  steady s0 s -> on_queue t -> cur_pos t + llen buf <= count * bs ->
  exists s', @read_exact _ _ (nvme_file (off := off)) s t buf =
      Done (s', moved_to t (cur_pos t + llen buf), image_bytes (block_byte bs disk) (cur_pos t) (llen buf)) /\ steady s0 s'.
Proof.
  intros Hs Ht Hend.
  destruct (read_exact_image (H := nvme_file (off := off)) (fun s' t' => steady s0 s' /\ on_queue t' /\ t' = moved_to t (cur_pos t'))
    cur_pos (count * bs) (block_byte bs disk)) with (w := s) (f := t) (buf := buf) as (s' & t' & Hr & (Hs' & _ & Ht') & Hp).
  - intros s1 t1 b (Hs1 & Ht1 & Hm) Hb Hlt.
    destruct (vf_read_piece s0 s1 t1 b) as (s2 & t2 & n & Hr & Hn & Hp & Hs2 & Ht2 & ->); [done..|].
    exists s2, (moved_to t1 (cur_pos t1 + n)), n. split; [exact Hr|]. do 3 (split; [done|]). split; [done|]. by rewrite Hm.
  - split; [done|]. split; [done|]. by destruct t.
  - done.
  - exists s'. rewrite Hr, Ht', Hp. done.
Qed.

(** The blocks from a sector on. *)
Lemma wp_read_chunks s0 p cs : forall sector s (P : Kernel -> result (list (list Z) * result unit bool) Empty_set -> Prop),
  lent s0 p s -> 0 <= sector -> sector + llen cs <= count ->
  (forall s', lent s0 p s' -> P s' (Ok (disk <$> seqZ sector (llen cs), Ok tt))) ->
  wp (read_chunks qp p bs sector cs) s P.
Proof.
  induction cs as [|c cs IH]; intros sector s P Hs H0' Hle HP; cbn [read_chunks].
  { apply wp_ret. by apply HP. }
  rewrite llen_cons in Hle, HP. pose proof (llen_nonneg cs). pose proof bs_pos as [Hb0 _].
  destruct (nq_sizes (NvmeQueue := Q)) as (_ & _ & _ & Hsz).
  destruct (transfer true s0 p sector s Hs) as (s1 & s2 & Hrd & Hfl & Hs2 & Hby); [lia|].
  eapply wp_step; [apply p_try_Done; rewrite (p_bind_Ok _ _ _ _ _ Hrd); exact Hfl|].
  eapply wp_step; [apply Hby|]. apply wp_bind. eapply wp_lift; [unfold add_ovf; rewrite (proj2 (Z.ltb_lt _ _)) by nia; reflexivity|].
  apply wp_bind, IH; [done|lia|lia|]. intros s3 Hs3. apply wp_ret.
  rewrite seqZ_cons in HP by lia. replace (Z.pred (1 + llen cs)) with (llen cs) in HP by lia.
  rewrite fmap_cons in HP. by apply HP.
Qed.

Lemma blocks_image lba k :
  0 <= lba -> 0 <= k -> lba + k <= count ->
  concat (disk <$> seqZ lba k) = image_bytes (block_byte bs disk) (lba * bs) (k * bs).
Proof.
  intros Hl Hk. destruct bs_pos as [Hb0 _]. revert lba Hl. pattern k. apply natlike_ind; [|clear k Hk; intros k Hk IH|done]; intros lba Hl Hc.
  - done.
  - rewrite seqZ_cons, Z.pred_succ, fmap_cons by lia. cbn [concat]. rewrite IH by lia.
    rewrite (image_bytes_split _ _ (Z.succ k * bs) bs) by nia. f_equal; [|f_equal; lia].
    assert (llen (disk lba) = bs) as Hlen by (apply nq_block; lia).
    pose proof (block_piece bs disk (lba * bs) bs Hb0) as Hp.
    rewrite Z.div_mul, Z.mod_mul, Z.sub_0_r in Hp by lia. specialize (Hp Hlen ltac:(lia)).
    rewrite slice_in_range in Hp by lia. injection Hp as <-. rewrite drop_0, take_ge; [done|unfold llen in Hlen; lia].
Qed.

Lemma wp_read_blocks s0 s t lba (output : list Z) (P : Kernel -> result (list Z * result unit bool) Empty_set -> Prop) k :
  steady s0 s -> on_queue t -> 0 <= lba -> 0 <= k -> lba + k <= count -> llen output = k * bs ->
  (forall s', steady s0 s' -> P s' (Ok (image_bytes (block_byte bs disk) (lba * bs) (k * bs), Ok tt))) ->
  wp (nvme_read_blocks t lba output) s P.
Proof.
  intros Hs Ht Hl Hk Hc Hlen HP. destruct (oq_cons t Ht) as (i & l & Hq). destruct bs_pos as [Hb0 Hlay].
  unfold nvme_read_blocks. rewrite (oq_bs _ Ht), Hq, Hlay, Hlen. unfold is_multiple_of.
  rewrite (proj2 (Z.eqb_neq bs 0)), Z.mod_mul by lia. cbn [negb Z.eqb].
  destruct (lend (E := Empty_set) s0 s Hs) as (p & s1 & Hget & Hs1). eapply wp_step; [exact Hget|].
  rewrite (proj2 (Z.eqb_neq p 0)) by apply (ln_block _ _ _ Hs1).
  assert (llen (chunks (Z.to_nat bs) output) = k) as Hn by (unfold llen in *; rewrite (chunks_count _ _ (Z.to_nat k)); nia).
  apply wp_bind. eapply wp_read_chunks; [exact Hs1|done|lia|]. intros s2 Hs2.
  destruct (give_back (E := Empty_set) s0 p s2 Hs2) as (s3 & Hput & Hs3). eapply wp_step; [exact Hput|].
  apply wp_ret. rewrite Hn, blocks_image by done. by apply HP.
Qed.

(** *** A block that cannot be read *)

(** The command for block [lba] or the flush that completes it reports an error,
    whatever the state of the crate. *)
Definition command_fails (lba : Z) : Prop :=
  forall (k : Memory off W M) (c : C) buffer,
    (exists k1 c1, qp_read NvmeAllocator k c qp buffer bs lba = Done (k1, c1, Err tt)) \/
    (exists k1 c1 k2 c2, qp_read NvmeAllocator k c qp buffer bs lba = Done (k1, c1, Ok tt) /\
       qp_flush NvmeAllocator k1 c1 qp = Done (k2, c2, Err tt)).

(** The heap is untouched by the failed command. *)
Lemma transfer_fails {E} (e : E) p lba s :
  command_fails lba ->
  exists s', (read_command e qp p bs lba ;! flush_command e qp) s = Done (s', Err e) /\ nk_heap s' = nk_heap s.
Proof.
  intros Hf. unfold p_bind, read_command, flush_command, crate_call.
  destruct (Hf (nk_memory s) (nk_crate s) p) as [(k1 & c1 & Hr)|(k1 & c1 & k2 & c2 & Hr & Hfl)]; rewrite Hr; cbn [mbind outcome_bind map_err].
  - eexists. split; [reflexivity|done].
  - change (nk_memory (s <| nk_memory := k1 |> <| nk_crate := c1 |>)) with k1.
    change (nk_crate (s <| nk_memory := k1 |> <| nk_crate := c1 |>)) with c1. rewrite Hfl. cbn [mbind outcome_bind map_err].
    eexists. split; [reflexivity|done].
Qed.

(** The blocks before it are delivered, the others stay as they were. *)
Lemma read_chunks_until s0 p (cs : list (list Z)) : forall sector s,
  command_fails count -> lent s0 p s -> 0 <= sector <= count -> count < sector + llen cs ->
  exists s', read_chunks qp p bs sector cs s =
      Done (s', Ok ((disk <$> seqZ sector (count - sector)) ++ drop (Z.to_nat (count - sector)) cs, Err true)) /\
    heap_live (nk_heap s') ≡ₚ (p, bs) :: heap_live (nk_heap s0).
Proof.
  induction cs as [|c cs IH]; intros sector s Hf Hs Hsec Hlen; [unfold llen in Hlen; cbn in Hlen; lia|].
  rewrite llen_cons in Hlen. cbn [read_chunks]. destruct (decide (sector = count)) as [->|Hne].
  - destruct (transfer_fails true p count s Hf) as (s' & Hr & Hheap).
    rewrite (p_bind_Ok _ _ s s' (Err true)) by (by apply p_try_Done). exists s'. rewrite Z.sub_diag. split; [done|].
    rewrite Hheap. apply (ln_block _ _ _ Hs).
  - destruct (nq_sizes (NvmeQueue := Q)) as (_ & _ & _ & Hsz). pose proof bs_pos as [Hb0 _].
    assert (count <= count * bs) by nia.
    destruct (transfer true s0 p sector s Hs) as (s1 & s2 & Hrd & Hfl & Hs2 & Hby); [lia|].
    rewrite (p_bind_Ok _ _ s s2 (Ok tt)) by (apply p_try_Done; rewrite (p_bind_Ok _ _ _ _ _ Hrd); exact Hfl).
    rewrite (p_bind_Ok _ _ _ _ _ (Hby _)).
    rewrite (p_bind_Ok _ _ s2 s2 (sector + 1)) by (unfold p_lift, add_ovf; by rewrite (proj2 (Z.ltb_lt (sector + 1) (2 ^ 64))) by lia).
    destruct (IH (sector + 1) s2) as (s3 & Hr & Hl); [done|done|lia|lia|].
    rewrite (p_bind_Ok _ _ _ _ _ Hr). exists s3. split; [|done].
    replace (count - sector) with (Z.succ (count - (sector + 1))) by lia. rewrite (seqZ_cons sector), Z.pred_succ by lia.
    rewrite Z2Nat.inj_succ by lia. done.
Qed.

Lemma drop_concat_chunks n (l : list Z) k : (0 < n)%nat -> concat (drop k (chunks n l)) = drop (k * n) l.
Proof.
  intros Hn. revert l. induction k as [|k IH]; intros l; [by rewrite Nat.mul_0_l, !drop_0, concat_chunks|].
  destruct (decide (l = [])) as [->|Hl]; [by rewrite chunks_nil, !drop_nil|].
  rewrite chunks_unfold by done. cbn [drop]. rewrite IH, drop_drop. by rewrite Nat.mul_succ_l, Nat.add_comm.
Qed.
End Queue.
End Disk.

(** ** The allocator the crate is given *)

(** The page bitmap behind the allocator. *)
Definition pages_of {off : Z} {W M : Type} (k : Memory off W M) : PageMan := bo_pm (nm_board k).

Section Allocator.
Context `{BitField} {off : Z} {W M : Type} `{Translator M}.
Implicit Types (k : Memory off W M).

(** What an allocation takes: the first free run, of which one page is cleared. *)
Lemma nvme_allocate_spec k size k' a :
  pm_wf (pages_of k) -> free (pages_of k) 0 = false -> 0 < size -> nvme_allocate k size = Done (k', a) ->
  exists i, a = i * PAGE_SIZE + off /\ 0 <= i /\ i + div_ceil size 4096 <= pm_len (pages_of k) /\
    (forall p, i <= p < i + div_ceil size 4096 -> free (pages_of k) p = true /\ free (pages_of k') p = false) /\
    same_but (pages_of k) (pages_of k') (fun p => i <= p < i + div_ceil size 4096) /\
    ram k' = write_bytes (ram k) (i * PAGE_SIZE) 0 4096.
Proof.
  intros Hwf Hz Hs Ha. unfold nvme_allocate, find_continuous_mem in Ha. pose proof (div_ceil_bounds size 4096).
  destruct (find_aligned_reserved (bo_pm (nm_board k)) (div_ceil size 4096) PAGE_SIZE) as (pm & r & Hf & Hr); [done|done|lia|done|done|done|].
  rewrite Hf in Ha. cbn [mbind outcome_bind] in Ha. destruct r as [pa|]; [|done]. cbn [unwrap mbind outcome_bind] in Ha.
  destruct Hr as (i & -> & (Hi0 & Hrun & _) & _ & Ht & Hsame).
  unfold phys_to_virt, add_ovf in Ha. destruct (_ <? _); [|done]. cbn [mbind outcome_bind] in Ha. injection Ha as <- <-.
  exists i. split; [done|]. split; [done|]. split; [|split; [|split; [done|]]].
  - destruct (free_range (bo_pm (nm_board k)) (i + div_ceil size 4096 - 1)); [lia|apply Hrun; lia|unfold pages_of; lia].
  - intros p Hp. split; [by apply Hrun|by apply Ht].
  - cbn. by rewrite Z.add_simpl_r.
Qed.

(** What a release gives back: one page. *)
Lemma nvme_deallocate_spec k i :
  0 <= off < 2 ^ 64 -> 0 <= i < pm_len (pages_of k) ->
  exists k', nvme_deallocate k (i * PAGE_SIZE + off) = Done k' /\ free (pages_of k') i = true /\
    same_but (pages_of k) (pages_of k') (eq i) /\ ram k' = ram k.
Proof.
  intros Ho Hi. unfold nvme_deallocate, phys_to_virt, add_ovf, sub_ovf. unfold PAGE_SIZE in *.
  rewrite (proj2 (Z.ltb_lt _ _)) by lia. cbn [mbind outcome_bind]. rewrite (proj2 (Z.leb_le _ _)) by lia. cbn [mbind outcome_bind].
  replace (i * 4096 + off - (0 + off)) with (i * PAGE_SIZE) by (unfold PAGE_SIZE; lia).
  destruct (dealloc_page_spec (bo_pm (nm_board k)) i Hi) as (pm & -> & Hf & Hsame).
  eexists. split; [reflexivity|]. split; [exact Hf|]. by split.
Qed.
End Allocator.

(** ** A disk for the examples: four blocks of 512 bytes, delivered by the flush *)

Module Sample.
Definition heap : Type := Z * list (Z * Z).
#[export] Instance sample_heap : GlobalAlloc heap := {
  heap_alloc h size align := let p := div_ceil h.1 align * align in ((p + size, (p, size) :: h.2), p);
  heap_dealloc h p size _ := (h.1, remove_first (p, size) h.2);
}.
Definition room (h : heap) (size align : Z) : Prop := 0 < h.1 /\ 0 < size /\ 0 < align /\ Forall (fun b => b.1 + b.2 <= h.1) h.2.
Lemma align_up n a : 0 < n -> 0 < a -> n <= div_ceil n a * a.
Proof. intros. apply div_ceil_bounds; lia. Qed.
#[export] Instance sample_heap_laws : HeapLaws heap.
Proof.
  refine {| heap_live := snd; heap_room := room |}.
  - intros [n l] size align h' p _ (Hn & Hs & Ha & Hl) [= <- <-]. cbn in *. pose proof (align_up n align Hn Ha).
    split; [lia|]. split; [done|]. eapply Forall_impl; [exact Hl|]. intros b Hb. cbn in Hb. right. lia.
  - intros [n l] p size align Hin. cbn [snd heap_dealloc sample_heap fst].
    by apply remove_first_perm.
  - intros [n l] size align h' p (Hn & Hs & Ha & Hl) [= <- <-]. cbn in *. pose proof (align_up n align Hn Ha).
    rewrite decide_True by done. unfold room. cbn. split_and!; [lia|done|done|]. eapply Forall_impl; [exact Hl|]. intros b Hb. cbn. cbn in Hb. lia.
Defined.

#[export] Instance sample_hardware : Hardware unit := {
  hw_registers := outside_ram;
  hw_read w m _ _ := (w, m, 0); hw_write w m _ _ _ := (w, m); hw_run w m := (w, m) }.
#[export] Instance sample_translator : Translator unit := { translate_addr _ va := Some (va - example_off) }.
#[export] Instance sample_mapper : Mapper unit := {
  update_flags_4k m _ := (m, Ok tt); update_flags_2m m _ := (m, Ok tt); map_to m _ _ := (m, Ok tt) }.

Definition BS : Z := 512.
Definition COUNT : Z := 4.
Definition block (lba : Z) : list Z := replicate 512 (wrap 8 (lba + 1)).
(** The command that waits for the flush; blocks beyond the last fail. *)
Definition pending : Type := option (Z * Z).
Abbreviation mem_of := (Memory example_off unit unit).
Definition deliver (k : mem_of) (c : pending) : mem_of :=
  match c with
  | Some (buffer, lba) =>
      let b := nm_board k in
      mk_Memory (mk_Board (bo_pm b) (write_memory (bo_mem b) (buffer - example_off) (block lba)) (bo_live b) (bo_hw b)) tt
  | None => k
  end.
#[export] Instance sample_crate : NvmeCrate mem_of pending := {
  Namespace := unit; NvmeDevice := unit; ns_block_size _ := BS; ns_block_count _ := COUNT;
  device_init _ k c _ := Done (k, c, Ok tt);
  identify_namespaces _ k c _ _ := Done (k, c, Ok [tt]);
  create_io_queue_pair _ k c _ _ _ := Done (k, c, Ok (1, 7));
  device_model_number _ _ := bytes_of "sample";
  qp_read _ k c _ buffer _ lba := Done (k, Some (buffer, lba), if lba <? COUNT then Ok tt else Err tt);
  qp_flush _ k c _ := Done (deliver k c, None, Ok tt);
  qp_drop _ k c _ := Done (k, c);
}.
Lemma block_bytes lba : bytes (block lba).
Proof. apply Forall_replicate, (fits_wrap 8). lia. Qed.
Lemma block_len lba : llen (block lba) = BS.
Proof. unfold llen, block. by rewrite length_replicate. Qed.
#[export] Instance sample_queue `{BitField} :
  NvmeQueue (H := _) (off := example_off) 7 BS COUNT block (fun _ => False).
Proof.
  refine {| nq_ready _ _ := True |}.
  - unfold BS, COUNT. split; [done|lia].
  - intros lba _. reflexivity.
  - intros k c buffer lba _ Hlba. eexists _, _, _, _. split; [cbn; rewrite (proj2 (Z.ltb_lt _ _)) by lia; reflexivity|].
    split; [reflexivity|]. split; [done|]. split.
    + pose proof (read_write_all (ram k) (buffer - example_off) (block lba) (block_bytes lba)) as Hr.
      rewrite block_len in Hr. exact Hr.
    + intros i _ Hi. unfold ram, deliver, nm_board, bo_mem. rewrite write_memory_at, block_len, decide_False; done.
Defined.
End Sample.

(** ** The theorems *)

(** C25: The byte device and the block interface of an NVMe disk are two views of one
    image, whatever its block size: reading any buffer that ends inside the disk
    fills it with the bytes at the current position and moves the position past
    them, reading whole blocks returns the bytes of those blocks, and either gives
    every block of the heap back and changes no byte of one that was in use. *)
Theorem nvme_read_is_disk_image `{BitField} {off : Z} {W M C Heap : Type} `{Hardware W} `{Translator M} `{Mapper M}
    `{HeapLaws Heap} `{Cr : !NvmeCrate (Memory off W M) C} {qp bs count : Z} {disk : Z -> list Z} {queues : Z -> Prop}
    `{Q : !NvmeQueue qp bs count disk queues} (s : NvmeKernel (Cr := Cr) (Heap := Heap)) (t : NvmeBlockDevice (Cr := Cr)) (buf : list Z) :
  nq_ready (NvmeQueue := Q) (nk_memory s) (nk_crate s) -> heap_room (nk_heap s) bs bs -> on_queue (qp := qp) (bs := bs) (count := count) t ->
  (cur_pos t + llen buf <= count * bs ->
     exists s', @read_exact _ _ (nvme_file (off := off)) s t buf =
         Done (s', moved_to t (cur_pos t + llen buf), image_bytes (block_byte bs disk) (cur_pos t) (llen buf)) /\
       steady (Q := Q) s s') /\
  (forall lba k, 0 <= lba -> 0 <= k -> lba + k <= count -> llen buf = k * bs ->
     exists s', nvme_read_blocks t lba buf s =
         Done (s', Ok (image_bytes (block_byte bs disk) (lba * bs) (k * bs), Ok tt)) /\ steady (Q := Q) s s').
Proof.
  intros Hr Hrm Ht. assert (steady (Q := Q) s s) as Hs by by split.
  split; [intros Hend; by apply (read_file s s)|]. intros lba k Hl Hk Hc Hlen.
  destruct (wp_read_blocks s s t lba buf (fun s' r => steady (Q := Q) s s' /\
    r = Ok (image_bytes (block_byte bs disk) (lba * bs) (k * bs), Ok tt)) k) as (s' & r & Hrun & Hs' & ->); [done..|by intros s' Hs'; split|].
  by exists s'.
Qed.

#[local] Existing Instances z_bit_field Sample.sample_heap Sample.sample_heap_laws Sample.sample_hardware Sample.sample_translator
  Sample.sample_mapper Sample.sample_crate Sample.sample_queue.
Definition sample_nvme : NvmeKernel (Cr := Sample.sample_crate) (Heap := Sample.heap) :=
  mk_NvmeKernel (mk_Memory (mk_Board (example_pm 4) (fun _ => 0) [] tt) tt) None (example_off + 0x100000, []) [].
Definition sample_device (pos : Z) : NvmeBlockDevice (Cr := Sample.sample_crate) := mk_NvmeBlockDevice (Cr := Sample.sample_crate) tt [(1, 7)] [] pos.

Lemma sample_on_queue pos : 0 <= pos <= 2048 -> on_queue (qp := 7) (bs := Sample.BS) (count := Sample.COUNT) (sample_device pos).
Proof. intros Hp. split; [done|done|done|exact Hp]. Qed.
Lemma sample_room : heap_room (nk_heap sample_nvme) Sample.BS Sample.BS.
Proof. split_and!; [by vm_compute|by vm_compute|by vm_compute|by apply Forall_nil]. Qed.

Lemma nvme_read_is_disk_image_witness :
  exists s', @read_exact _ _ (nvme_file (off := example_off)) sample_nvme (sample_device 510) [0; 0; 0; 0] =
      Done (s', sample_device 514, [1; 1; 2; 2]) /\ heap_live (nk_heap s') ≡ₚ [].
Proof.
  destruct (nvme_read_is_disk_image (qp := 7) sample_nvme (sample_device 510) [0; 0; 0; 0]) as [Hf _];
    [exact I|exact sample_room|by apply sample_on_queue|].
  destruct Hf as (s' & Hr & Hs'); [by vm_compute|]. exists s'. split; [exact Hr|]. apply (sd_live _ _ Hs').
Defined.

(** C39: When a command fails - a block is bad, and its read or the flush after it
    reports an error - the two interfaces differ in what they leave behind.  The byte
    device at that block returns the error, with the buffer and the position as they
    were, but keeps its block of the heap forever, and the file over it turns the error
    into a kernel panic.  The block interface returns the error, with the blocks before
    the bad one delivered and the rest of the buffer as it was, and gives its block of
    the heap back. *)
Theorem nvme_error_keeps_block `{BitField} {off : Z} {W M C Heap : Type} `{Hardware W} `{Translator M} `{Mapper M}
    `{HeapLaws Heap} `{Cr : !NvmeCrate (Memory off W M) C} {qp bs bad : Z} {disk : Z -> list Z} {queues : Z -> Prop}
    `{Q : !NvmeQueue qp bs bad disk queues} (s : NvmeKernel (Cr := Cr) (Heap := Heap)) (t : NvmeBlockDevice (Cr := Cr))
    (i : Z) (rest : list (Z * Z)) (buf : list Z) :
  nq_ready (NvmeQueue := Q) (nk_memory s) (nk_crate s) -> heap_room (nk_heap s) bs bs ->
  qpairs t = (i, qp) :: rest -> ns_block_size (namespace t) = bs -> command_fails (Cr := Cr) (qp := qp) (bs := bs) bad ->
  (cur_pos t / bs = bad ->
     (exists s' p, @fio_read _ _ _ (nvme_io (off := off)) s t buf = Done (s', t, buf, Err tt) /\
        heap_live (nk_heap s') ≡ₚ (p, bs) :: heap_live (nk_heap s)) /\
     @vf_read _ _ (nvme_file (off := off)) s t buf = Panic) /\
  (forall lba n, 0 <= lba <= bad -> bad < lba + n -> llen buf = n * bs ->
     exists s', nvme_read_blocks t lba buf s =
         Done (s', Ok (image_bytes (block_byte bs disk) (lba * bs) ((bad - lba) * bs) ++ drop (Z.to_nat ((bad - lba) * bs)) buf, Err true)) /\
       heap_live (nk_heap s') ≡ₚ heap_live (nk_heap s)).
Proof.
  intros Hr Hrm Hq Hbs Hfail. destruct (bs_pos (Q := Q)) as [Hb0 Hlay].
  assert (steady (Q := Q) s s) as Hs by by split. split.
  - intros Hat. destruct (lend (Q := Q) (E := unit) s s Hs) as (p & s1 & Hget & Hs1).
    destruct (transfer_fails (off := off) tt p bad s1 Hfail) as (s2 & Hcmd & Hheap).
    assert (@fio_read _ _ _ (nvme_io (off := off)) s t buf = Done (s2, t, buf, Err tt)) as Hfio.
    { cbn [fio_read nvme_io]. unfold nvme_read. rewrite Hq, Hbs, Hlay. cbn [negb].
      erewrite p_bind_Ok by (unfold p_lift; rewrite (proj2 (Z.eqb_neq bs 0)) by lia; reflexivity).
      rewrite (p_bind_Ok _ _ _ _ _ Hget), Hat. unfold p_bind in Hcmd |- *.
      destruct (read_command tt qp p bs bad s1) as [[s1' [[]|[]]]| |]; cbn [mbind outcome_bind] in Hcmd |- *; try done.
      - by rewrite Hcmd.
      - by injection Hcmd as ->. }
    split; [|cbn [vf_read nvme_file]; by rewrite Hfio]. exists s2, p. split; [done|]. rewrite Hheap. apply (ln_block _ _ _ Hs1).
  - intros lba n Hlba Hbad Hlen. destruct (lend (Q := Q) (E := Empty_set) s s Hs) as (p & s1 & Hget & Hs1).
    assert (llen (chunks (Z.to_nat bs) buf) = n) as Hn by (unfold llen in *; rewrite (chunks_count _ _ (Z.to_nat n)); nia).
    destruct (read_chunks_until (Q := Q) s p (chunks (Z.to_nat bs) buf) lba s1) as (s2 & Hch & Hheap); [done|done|lia|lia|].
    eexists. split.
    + unfold nvme_read_blocks. rewrite Hbs, Hq, Hlay. unfold is_multiple_of. rewrite (proj2 (Z.eqb_neq bs 0)), Hlen, Z.mod_mul by lia.
      cbn [negb Z.eqb]. rewrite (p_bind_Ok _ _ _ _ _ Hget), (proj2 (Z.eqb_neq p 0)) by apply (ln_block _ _ _ Hs1).
      erewrite (p_bind_Ok _ _ s1 s2); [|exact Hch]. cbn beta iota. erewrite p_bind_Ok; [|reflexivity].
      rewrite concat_app, (blocks_image (Q := Q)), drop_concat_chunks by lia.
      replace (Z.to_nat (bad - lba) * Z.to_nat bs)%nat with (Z.to_nat ((bad - lba) * bs)) by nia. reflexivity.
    + cbn. assert ((p, bs) ∈ heap_live (nk_heap s2)) as Hin by (rewrite Hheap; left).
      pose proof (hl_dealloc _ _ _ bs Hin) as Hd. rewrite Hheap in Hd. symmetry. by eapply Permutation.Permutation_cons_inv.
Qed.

(** Block 4 of the sample disk cannot be read: the file panics there, and a read of the
    blocks 3 and 4 delivers the first of them. *)
Lemma nvme_error_keeps_block_witness :
  @vf_read _ _ (nvme_file (off := example_off)) sample_nvme (sample_device 2049) [0; 0] = Panic /\
  exists s', nvme_read_blocks (sample_device 0) 3 (replicate 1024 9) sample_nvme =
      Done (s', Ok (replicate 512 4 ++ replicate 512 9, Err true)) /\
    heap_live (nk_heap s') ≡ₚ [].
Proof.
  assert (command_fails (Cr := Sample.sample_crate) (qp := 7) (bs := Sample.BS) Sample.COUNT) as Hfail
    by (intros k c p; left; by eexists _, _).
  destruct (nvme_error_keeps_block (Q := Sample.sample_queue) sample_nvme (sample_device 2049) 1 [] [0; 0]) as [Hp _];
    [exact I|exact sample_room|reflexivity|reflexivity|exact Hfail|].
  destruct (nvme_error_keeps_block (Q := Sample.sample_queue) sample_nvme (sample_device 0) 1 [] (replicate 1024 9)) as [_ Hb];
    [exact I|exact sample_room|reflexivity|reflexivity|exact Hfail|].
  split; [exact (proj2 (Hp eq_refl))|].
  destruct (Hb 3 2) as (s' & Hrun & Hl); [unfold Sample.COUNT; lia|unfold Sample.COUNT; lia|vm_compute; reflexivity|].
  exists s'. split; [|exact Hl].
  assert (image_bytes (block_byte Sample.BS Sample.block) (3 * Sample.BS) ((Sample.COUNT - 3) * Sample.BS) ++
    drop (Z.to_nat ((Sample.COUNT - 3) * Sample.BS)) (replicate 1024 9) = replicate 512 4 ++ replicate 512 9) as Hbytes
    by (vm_compute; reflexivity).
  rewrite Hbytes in Hrun. exact Hrun.
Defined.

(** The allocator the crate is given is exact for one page and leaks the rest of
    anything larger: an allocation takes the first run of free pages that holds the
    size, clears its first page only, and the release of its address frees its
    first page only, so that the page bitmap is the one before exactly when the size
    is at most one page. *)
Theorem nvme_allocator_frees_one_page `{BitField} {off : Z} {W M : Type} `{Translator M} (k k1 : Memory off W M) (size a : Z) :
  pm_wf (pages_of k) -> free (pages_of k) 0 = false -> 0 <= off < 2 ^ 64 -> 0 < size ->
  allocate k size = Done (k1, a) ->
  exists k2, deallocate k1 a = Done k2 /\
    (forall i, ram k2 i = if decide (a - off <= i < a - off + 4096) then 0 else ram k i) /\
    (forall p, 0 <= p -> free (pages_of k2) p =
       if decide ((a - off) / PAGE_SIZE < p < (a - off) / PAGE_SIZE + div_ceil size 4096) then false else free (pages_of k) p) /\
    (forall p, (a - off) / PAGE_SIZE < p < (a - off) / PAGE_SIZE + div_ceil size 4096 -> free (pages_of k) p = true).
Proof.
  intros Hwf Hz Ho Hs Ha. cbn [allocate deallocate NvmeAllocator] in *. pose proof (div_ceil_bounds size 4096 ltac:(lia) ltac:(lia)).
  destruct (nvme_allocate_spec k size k1 a Hwf Hz Hs Ha) as (i & -> & Hi & Htop & Hrun & Hsame & Hram).
  assert ((i * PAGE_SIZE + off - off) / PAGE_SIZE = i) as -> by (unfold PAGE_SIZE; rewrite Z.add_simpl_r; apply Z.div_mul; lia).
  rewrite Z.add_simpl_r.
  destruct (nvme_deallocate_spec k1 i) as (k2 & -> & Hfree & Hsame2 & Hram2); [done|rewrite (sb_len _ _ _ Hsame); lia|].
  exists k2. split; [done|]. split; [|split].
  - intros j. rewrite Hram2, Hram. unfold write_bytes. by case_decide; [rewrite bool_decide_true|rewrite bool_decide_false].
  - intros p Hp. destruct (decide (p = i)) as [->|Hne].
    + rewrite decide_False by lia. rewrite Hfree. symmetry. apply Hrun. lia.
    + rewrite (sb_free _ _ _ Hsame2) by (first [lia|congruence]). case_decide; [apply Hrun; lia|]. apply (sb_free _ _ _ Hsame); lia.
  - intros p Hp. apply Hrun. lia.
Qed.

(** A request for two pages on the sample machine, whose pages 5 to 63 are free. *)
Lemma nvme_allocator_frees_one_page_witness :
  exists k1 a k2, allocate (nk_memory sample_nvme) 8192 = Done (k1, a) /\ deallocate k1 a = Done k2 /\
    free (pages_of k2) 5 = true /\ free (pages_of k2) 6 = false /\ free (pages_of (nk_memory sample_nvme)) 6 = true.
Proof.
  destruct (allocate (nk_memory sample_nvme) 8192) as [[k1 a]| |] eqn:Ha; [|by exfalso; vm_compute in Ha..].
  assert (a = 5 * 4096 + example_off) as Hea.
  { pose proof (f_equal (fun o => match o with Done (_, a) => a | _ => 0 end) Ha) as He. vm_compute in He. by rewrite <- He. }
  destruct (nvme_allocator_frees_one_page (nk_memory sample_nvme) k1 8192 a) as (k2 & Hd & _ & Hf & Ht);
    [by vm_compute|by vm_compute|by vm_compute|done|exact Ha|].
  exists k1, a, k2. split; [done|]. split; [exact Hd|]. rewrite Hea in Hf, Ht.
  split; [rewrite Hf by lia; by vm_compute|]. split; [rewrite Hf by lia; by vm_compute|]. apply Ht. by vm_compute.
Defined.
