(* ===== verification/Rtl8139.v ===== *)
(** * The network card: [net/rtl8139.rs], [net/mod.rs]

    Bring-up of a RealTek 8139 and the poll that takes one received frame out of its
    ring.  Registers are I/O ports; the ring is a DMA buffer the card writes to. *)

From S2P Require Import Prelude Words Bitmap PageAlloc Dma Machine Board Pcie Vfs Input Console.

(** @ net/rtl8139.rs:11-16 Rtl8139 *)
Record Rtl8139 := mk_Rtl8139 { io_base : Z; nic_mac : list Z; rx_buffer : DmaBuffer; cur_rx : Z }.

(** The machine, the ports, the cards of [NICS], and the frames printed so far. *)
Record NetKernel (D P : Type) := mk_NetKernel { nt_machine : D; nt_ports : P; NICS : list Rtl8139; nt_printed : list (list Z) }.
Arguments mk_NetKernel {D P}.
Arguments nt_machine {D P}.
Arguments nt_ports {D P}.
Arguments NICS {D P}.
Arguments nt_printed {D P}.
#[global] Instance NetKernel_fields D P : Fields (NetKernel D P) := fun s =>
  mk_NetKernel (nt_machine s) (nt_ports s) (NICS s) (nt_printed s).
#[global] Instance NetKernel_machine D P : HasMachine (NetKernel D P) D := {
  machine := nt_machine;
  set_machine d s := mk_NetKernel d (nt_ports s) (NICS s) (nt_printed s);
}.
#[global] Instance NetKernel_machine_laws D P : HasMachineLaws (NetKernel D P) D.
Proof. by split; [|..|intros []]. Qed.

(** ** MAC addresses *)

Definition hex_digit (d : Z) : Z := if d <? 10 then 48 + d else 87 + d.
(** [{:02x}] of a byte. *)
Definition hex_byte (b : Z) : str := [hex_digit (b / 16); hex_digit (b mod 16)].
(** @ net/mod.rs:12-18 Nic::format_mac *)
Definition format_mac (mac : list Z) : outcome str :=
  b0 ← idx mac 0; b1 ← idx mac 1; b2 ← idx mac 2; b3 ← idx mac 3; b4 ← idx mac 4; b5 ← idx mac 5;
  Done (hex_byte b0 ++ bytes_of ":" ++ hex_byte b1 ++ bytes_of ":" ++ hex_byte b2 ++ bytes_of ":" ++
        hex_byte b3 ++ bytes_of ":" ++ hex_byte b4 ++ bytes_of ":" ++ hex_byte b5).

Section Driver.
Context {D P : Type} `{Machine D} `{Ports P} `{WidePorts P}.
Abbreviation nprog A := (prog (NetKernel D P) Empty_set A).

Definition net_in8 (port : Z) : nprog Z :=
  fun s => let '(p, v) := inb (nt_ports s) port in Done (s <| nt_ports := p |>, Ok (wrap 8 v)).
Definition net_in16 (port : Z) : nprog Z :=
  fun s => let '(p, v) := inw (nt_ports s) port in Done (s <| nt_ports := p |>, Ok (wrap 16 v)).
Definition net_out (f : P -> P) : nprog unit := p_modify (fun s => s <| nt_ports := f (nt_ports s) |>).
(** A register: the sum of the port numbers may overflow. *)
Definition reg (base offset : Z) : nprog Z := p_lift (add_ovf 16 base offset).

(** [while read() & 0x10 != 0 {}]; [spins] bounds the model's wait. *)
Fixpoint wait_reset (spins : nat) (base : Z) : nprog unit :=
  match spins with
  | O => fun _ => OutOfFuel
  | S spins =>
      port ←! reg base 0x37; v ←! net_in8 port;
      if Z.land v 0x10 =? 0 then p_ret tt else wait_reset spins base
  end.

Fixpoint read_mac (base : Z) (offsets : list Z) : nprog (list Z) :=
  match offsets with
  | [] => p_ret []
  | i :: offsets => port ←! reg base i; b ←! net_in8 port; rest ←! read_mac base offsets; p_ret (b :: rest)
  end.

(** [DmaBuffer::new(..).unwrap()]. *)
Definition new_buffer (len alignment : Z) : nprog DmaBuffer :=
  r ←! p_try (dma_buffer len alignment tt); p_lift (match r with Ok b => Done b | Err _ => Panic end).

(** @ net/rtl8139.rs:29-70 Rtl8139::from_io_base *)
Definition from_io_base (spins : nat) (base : Z) : nprog Rtl8139 :=
  mac ←! read_mac base (seqZ 0 6);
  port ←! reg base 0x37; net_out (fun p => outb p port 0x10) ;!
  wait_reset spins base ;!
  buffer ←! new_buffer 8208 PAGE_SIZE;
  phys_addr ←! p_lift (assert! dma_physical_address buffer <? 2 ^ 32; Done (dma_physical_address buffer));
  port ←! reg base 0x30; net_out (fun p => outl p port phys_addr) ;!
  port ←! reg base 0x44; net_out (fun p => outb p port 0x0f) ;!
  port ←! reg base 0x37; net_out (fun p => outb p port 0x0c) ;!
  p_ret (mk_Rtl8139 base mac buffer 0).

(** @ net/rtl8139.rs:19-27 Rtl8139::new *)
Definition rtl8139_new (spins : nat) (config : Z) : nprog Rtl8139 :=
  command ←! read_u16 config 4;
  write_u16 config 4 (Z.lor command (Z.shiftl 1 2)) ;!
  bar0 ←! config_read config 0x10 4;
  from_io_base spins (wrap 16 (clear_bits bar0 3)).

(** @ net/rtl8139.rs:76-76 ROK *)
Definition ROK : Z := 0x0001.
(** The next frame's position in the ring. *)
(** @ net/rtl8139.rs:98-102 Nic::Rtl8139::poll -- the new index *)
Definition next_index (read_index rx_size : Z) : outcome Z :=
  step ← add_ovf 16 rx_size 7;
  read_index ← add_ovf 16 read_index step;
  let read_index := clear_bits read_index 3 in
  if 8192 <? read_index then sub_ovf read_index 8192 else Done read_index.

(** @ net/rtl8139.rs:80-114 Nic::Rtl8139::poll *)
Definition nic_poll (nic : Rtl8139) : nprog Rtl8139 :=
  port ←! reg (io_base nic) 0x3e; status ←! net_in16 port;
  port ←! reg (io_base nic) 0x3e; net_out (fun p => outw p port status) ;!
  if Z.land status ROK =? 0 then p_ret nic else
  let read_index := cur_rx nic in
  let rx_buffer_ptr := as_ptr (rx_buffer nic) in
  rx_header ←! load32 (rx_buffer_ptr + read_index);
  let rx_status := Z.land rx_header 0xffff in
  let rx_size := Z.shiftr rx_header 16 in
  p_when (negb (Z.land rx_status 1 =? 0))
    (len ←! p_lift (sub_ovf rx_size 4);
     packet ←! load_bytes (rx_buffer_ptr + (read_index + 4)) len;
     p_modify (fun s => s <| nt_printed := nt_printed s ++ [packet] |>)) ;!
  read_index ←! p_lift (next_index read_index rx_size);
  port ←! reg (io_base nic) 0x38;
  capr ←! p_lift (sub_ovf read_index 16);
  net_out (fun p => outw p port capr) ;!
  p_ret (mk_Rtl8139 (io_base nic) (nic_mac nic) (rx_buffer nic) read_index).

(** ** All cards *)

(** Every card is polled in turn and replaces itself. *)
Fixpoint poll_all (nics : list Rtl8139) : nprog (list Rtl8139) :=
  match nics with
  | [] => p_ret []
  | nic :: nics => nic ←! nic_poll nic; rest ←! poll_all nics; p_ret (nic :: rest)
  end.
(** @ net/mod.rs:27-32 poll *)
Definition net_poll : nprog unit :=
  s ←! p_get; nics ←! poll_all (NICS s); p_modify (fun s => s <| NICS := nics |>).

(** @ net/rtl8139.rs:117-124 init -- the closure *)
Definition rtl8139_hook (spins : nat) (_ : Bdf) (config : Z) : nprog unit :=
  vendor ←! vendor_id config;
  device ←! (if vendor =? 0x10ec then device_id config else p_ret 0);
  p_when ((vendor =? 0x10ec) && (device =? 0x8139))
    (nic ←! rtl8139_new spins config;
     p_lift (format_mac (nic_mac nic)) ;!
     p_modify (fun s => s <| NICS := NICS s ++ [nic] |>)).
(** @ net/rtl8139.rs:117-126 init *)
Definition rtl8139_init (spins : nat) (off : Z) (regions : list PciRegion) : nprog unit :=
  doit off regions (rtl8139_hook spins).
End Driver.

(** ** Properties *)

Section Specs.
Context {D P : Type} `{MachineLaws D} `{Ports P} `{WidePorts P}.
Implicit Types (s : NetKernel D P) (nic : Rtl8139).

(** Memory that the card leaves alone while the driver reads. *)
Definition reads_as (d : D) (at_ : Z -> Z) : Prop :=
  forall b a n, b ∈ live d -> in_buffer b a n -> 0 <= n -> dma_load d a n = Done (d, at_ <$> seqZ a n).

Lemma reg_ok base offset s : base + offset < 2 ^ 16 -> reg base offset s = Done (s, Ok (base + offset)).
Proof. intros Hb. unfold reg, p_lift, add_ovf. by rewrite (proj2 (Z.ltb_lt _ _)) by done. Qed.

(** A card whose ring is live, with its registers below the last ports. *)
Record nic_ok nic s : Prop := {
  no_buffer : rx_buffer nic ∈ live (nt_machine s);
  no_base : 0 <= io_base nic < 2 ^ 16 - 0x44;
  no_rx : 0 <= cur_rx nic <= 8192;
  no_len : dma_len (rx_buffer nic) <= 2 ^ 14;
}.

(** The end of a frame, rounded up to a word; beyond the ring it wraps around. *)
Definition frame_end (index len : Z) : Z := (index + len + 11) / 4 * 4.
Definition wrapped (index : Z) : Z := if 8192 <? index then index - 8192 else index.
Lemma next_index_spec index len :
  0 <= index -> 0 <= len -> index + len < 2 ^ 15 -> next_index index (len + 4) = Done (wrapped (frame_end index len)).
Proof.
  intros Hi Hl Hs. unfold next_index, wrapped, frame_end, add_ovf, sub_ovf.
  repeat (rewrite (proj2 (Z.ltb_lt _ _)) by lia; cbn [mbind outcome_bind]).
  unfold clear_bits. change 3 with (Z.ones 2). rewrite Z.ldiff_ones_r, Z.shiftl_mul_pow2, Z.shiftr_div_pow2 by lia.
  change (2 ^ 2) with 4. replace (index + (len + 4 + 7)) with (index + len + 11) by lia.
  destruct (Z.ltb_spec 8192 ((index + len + 11) / 4 * 4)); [|done]. by rewrite (proj2 (Z.leb_le _ _)) by lia.
Qed.

(** A frame in the ring: its status, its length with the checksum, its bytes. *)
Record frame_at (at_ : Z -> Z) (a status : Z) (frame : list Z) : Prop := {
  fa_header : at_ <$> seqZ a 4 = to_le 2 status ++ to_le 2 (llen frame + 4);
  fa_bytes : at_ <$> seqZ (a + 4) (llen frame) = frame;
  fa_ok : fits 16 status /\ Z.testbit status 0 = true;
}.

Lemma header_fields status len :
  fits 16 status -> fits 16 len ->
  Z.land (from_le (to_le 2 status ++ to_le 2 len)) 0xffff = status /\ Z.shiftr (from_le (to_le 2 status ++ to_le 2 len)) 16 = len.
Proof.
  intros Hs Hl. rewrite from_le_app, !from_to_le. unfold llen. rewrite length_to_le. change (256 ^ Z.of_nat 2) with (2 ^ 16). unfold fits in *.
  rewrite !Z.mod_small by lia. change 0xffff with (Z.ones 16). rewrite Z.land_ones, Z.shiftr_div_pow2 by lia.
  split; [|rewrite Z.mul_comm, Z.div_add by lia; rewrite Z.div_small; lia].
  rewrite Z.mul_comm, Z.mod_add, Z.mod_small; lia.
Qed.

Lemma poll_frame nic s at_ frame status irq p :
  nic_ok nic s -> reads_as (nt_machine s) at_ ->
  inw (nt_ports s) (io_base nic + 0x3e) = (p, irq) -> Z.testbit irq 0 = true ->
  frame_at at_ (as_ptr (rx_buffer nic) + cur_rx nic) status frame ->
  cur_rx nic + 4 + llen frame <= dma_len (rx_buffer nic) ->
  let next := wrapped (frame_end (cur_rx nic) (llen frame)) in
  nic_poll nic s =
    if 16 <=? next then
      Done (s <| nt_ports := outw (outw p (io_base nic + 0x3e) (wrap 16 irq)) (io_base nic + 0x38) (next - 16) |>
              <| nt_printed := nt_printed s ++ [frame] |>,
            Ok (mk_Rtl8139 (io_base nic) (nic_mac nic) (rx_buffer nic) next))
    else Panic.
Proof.
  intros [Hbuf Hbase Hrx Hlen] Hmem Hirq Hrok [Hh Hf [Hst Hok]] Hend next. pose proof (llen_nonneg frame).
  unfold nic_poll. rewrite (p_bind_Ok _ _ _ _ _ (reg_ok (io_base nic) 0x3e s ltac:(lia))).
  erewrite p_bind_Ok; [|unfold net_in16; rewrite Hirq; reflexivity].
  set (s1 := s <| nt_ports := p |>). rewrite (p_bind_Ok _ _ _ _ _ (reg_ok (io_base nic) 0x3e s1 ltac:(lia))).
  erewrite p_bind_Ok; [|reflexivity].
  set (s2 := update _ _ s1).
  assert ((Z.land (wrap 16 irq) ROK =? 0) = false) as ->.
  { apply negb_true_iff. rewrite (land_pow2_testbit _ 0) by lia. unfold wrap. by rewrite Z.mod_pow2_bits_low by lia. }
  assert (dma_load (nt_machine s2) (as_ptr (rx_buffer nic) + cur_rx nic) 4 = Done (nt_machine s2, to_le 2 status ++ to_le 2 (llen frame + 4))) as Hl1.
  { rewrite <- Hh. apply (Hmem (rx_buffer nic)); [done|unfold in_buffer, as_ptr; lia|lia]. }
  unfold load32. erewrite p_bind_Ok; [|erewrite p_bind_Ok; [reflexivity|unfold load_bytes; cbn [machine NetKernel_machine]; rewrite Hl1; reflexivity]].
  destruct (header_fields status (llen frame + 4)) as [-> ->]; [done|unfold fits; lia|].
  change (set_machine (nt_machine s2) s2) with s2.
  assert (negb (Z.land status 1 =? 0) = true) as -> by (rewrite <- Hok; apply (land_pow2_testbit status 0); lia).
  assert (dma_load (nt_machine s2) (as_ptr (rx_buffer nic) + (cur_rx nic + 4)) (llen frame) = Done (nt_machine s2, frame)) as Hl2.
  { rewrite <- Hf at 2. replace (as_ptr (rx_buffer nic) + cur_rx nic + 4) with (as_ptr (rx_buffer nic) + (cur_rx nic + 4)) by lia.
    apply (Hmem (rx_buffer nic)); [done|unfold in_buffer, as_ptr; lia|lia]. }
  unfold p_when. erewrite p_bind_Ok.
  2: { erewrite p_bind_Ok; [|unfold p_lift, sub_ovf; rewrite (proj2 (Z.leb_le _ _)) by lia; reflexivity].
       rewrite Z.add_simpl_r. erewrite p_bind_Ok; [reflexivity|]. unfold load_bytes. cbn [machine NetKernel_machine]. rewrite Hl2. reflexivity. }
  erewrite p_bind_Ok; [|unfold p_lift; rewrite next_index_spec by lia; reflexivity].
  fold next. erewrite p_bind_Ok; [|apply reg_ok; lia].
  unfold p_bind at 1, p_lift, sub_ovf. by destruct (Z.leb_spec 16 next).
Qed.
End Specs.

(** C26: One poll of a network card takes one frame: with the receive bit set, the
    frame at the read index is printed, byte for byte and without its checksum, the
    interrupt status is written back, and the index moves to the next word after
    the frame, less 8192 once it is beyond the ring, 16 bytes behind which the card
    is told to stop.  When the frame ends within the first 16 bytes of the ring that
    subtraction overflows, and the kernel panics. *)
Theorem rtl8139_poll_prints_frame {D P : Type} `{MachineLaws D} `{Ports P} `{WidePorts P}
    (nic : Rtl8139) (s : NetKernel D P) (at_ : Z -> Z) (frame : list Z) (status irq : Z) (p : P) :
  NICS s = [nic] -> nic_ok nic s -> reads_as (nt_machine s) at_ ->
  inw (nt_ports s) (io_base nic + 0x3e) = (p, irq) -> Z.testbit irq 0 = true ->
  frame_at at_ (as_ptr (rx_buffer nic) + cur_rx nic) status frame ->
  cur_rx nic + 4 + llen frame <= dma_len (rx_buffer nic) ->
  let next := wrapped (frame_end (cur_rx nic) (llen frame)) in
  if 16 <=? next then
    exists s', net_poll s = Done (s', Ok tt) /\ nt_printed s' = nt_printed s ++ [frame] /\ nt_machine s' = nt_machine s /\
      NICS s' = [mk_Rtl8139 (io_base nic) (nic_mac nic) (rx_buffer nic) next] /\ next mod 4 = 0 /\
      nt_ports s' = outw (outw p (io_base nic + 0x3e) (wrap 16 irq)) (io_base nic + 0x38) (next - 16)
  else net_poll s = Panic.
Proof.
  intros Hn Hok Hm Hi Hr Hf He next. pose proof (poll_frame nic s at_ frame status irq p Hok Hm Hi Hr Hf He) as Hp. cbv zeta in Hp. fold next in Hp.
  assert (next mod 4 = 0) as Hmod.
  { unfold next, wrapped, frame_end. destruct (_ <? _); [|by apply Z.mod_mul].
    replace ((cur_rx nic + llen frame + 11) / 4 * 4 - 8192) with (((cur_rx nic + llen frame + 11) / 4 - 2048) * 4) by lia. by apply Z.mod_mul. }
  unfold net_poll. erewrite p_bind_Ok by reflexivity. rewrite Hn. cbn [poll_all]. destruct (16 <=? next); cbn iota in Hp.
  - eexists. split; [erewrite p_bind_Ok; [reflexivity|]; rewrite (p_bind_Ok _ _ _ _ _ Hp); erewrite p_bind_Ok; reflexivity|]. by split_and!.
  - unfold p_bind at 1 2. by rewrite Hp.
Qed.

(** A card at port 0xc000 whose status register reads 1, and a frame of 60 bytes. *)
Module Sample.
#[export] Instance sample_ports : Ports (list (Z * Z)) := { inb p _ := (p, 0); outb p port v := p ++ [(port, v)] }.
#[export] Instance sample_wide : WidePorts (list (Z * Z)) := {
  inw p _ := (p, 1); outw p port v := p ++ [(port, v)]; outl p port v := p ++ [(port, v)] }.
Definition ring : DmaBuffer := mk_DmaBuffer 0x2000 (0x2000 + example_off) 3 4096.
Definition frame : list Z := replicate 60 7.
Definition memory_at (index : Z) : memory := write_memory (fun _ => 0) (0x2000 + index) (to_le 2 1 ++ to_le 2 64 ++ frame).
Definition card (index : Z) : Rtl8139 := mk_Rtl8139 0xc000 [0x52; 0x54; 0; 0x12; 0x34; 0x56] ring index.
Definition kernel (index : Z) : NetKernel (Board example_off Script) (list (Z * Z)) :=
  mk_NetKernel (mk_Board (example_pm 4) (memory_at index) [ring] []) [] [card index] [].
End Sample.
#[local] Existing Instances z_bit_field Sample.sample_ports Sample.sample_wide.

Lemma sample_reads index : reads_as (nt_machine (Sample.kernel index)) (fun a => wrap 8 (Sample.memory_at index (a - example_off))).
Proof.
  intros b a n Hb Hin Hn. cbn [dma_load board_machine nt_machine Sample.kernel run_hw hw_run script_hardware bo_hw bo_mem bo_pm bo_live].
  unfold run_hw. cbn [hw_run script_hardware bo_hw bo_mem bo_pm bo_live]. rewrite (in_live_intro _ b) by done. do 2 f_equal.
  unfold read_memory. generalize (Sample.memory_at index). intros m. apply list_eq. intros i. rewrite !list_lookup_fmap. destruct (decide (Z.of_nat i < n)).
  - rewrite !lookup_seqZ_lt by lia. cbn [fmap option_fmap option_map]. by replace (a - example_off + Z.of_nat i) with (a + Z.of_nat i - example_off) by lia.
  - rewrite !lookup_seqZ_ge by lia. done.
Qed.

Lemma rtl8139_poll_prints_frame_witness :
  (exists s', net_poll (Sample.kernel 0) = Done (s', Ok tt) /\ nt_printed s' = [Sample.frame] /\ nt_ports s' = [(0xc03e, 1); (0xc038, 52)]) /\
  net_poll (Sample.kernel 8128) = Panic.
Proof.
  assert (forall index, In index [0; 8128] -> frame_at (fun a => wrap 8 (Sample.memory_at index (a - example_off)))
    (as_ptr Sample.ring + index) 1 Sample.frame) as Hf.
  { intros index [<-|[<-|[]]]; split; by vm_compute. }
  assert (forall index, In index [0; 8128] -> nic_ok (Sample.card index) (Sample.kernel index)) as Hok.
  { intros index [<-|[<-|[]]]; split; first [by left|by vm_compute]. }
  split.
  - destruct (rtl8139_poll_prints_frame (Sample.card 0) (Sample.kernel 0) _ Sample.frame 1 1 [] eq_refl (Hok 0 ltac:(by left))
      (sample_reads 0) eq_refl eq_refl (Hf 0 ltac:(by left))) as (s' & Hr & Hp & _ & _ & _ & Ho); [by vm_compute|].
    exists s'. split; [exact Hr|]. split; [exact Hp|exact Ho].
  - apply (rtl8139_poll_prints_frame (Sample.card 8128) (Sample.kernel 8128) _ Sample.frame 1 1 [] eq_refl (Hok 8128 ltac:(right; by left))
      (sample_reads 8128) eq_refl eq_refl (Hf 8128 ltac:(right; by left))). by vm_compute.
Defined.
