(* ===== verification/Devfs.v ===== *)
(** * The device file system: [vfs/devfs/]

    Every device behind its name: disks of the three kinds, the initial RAM disk, the
    streams of the console, the command line, the speaker and the power switch.
    The state is that of all these drivers together. *)

From S2P Require Import Prelude Words Bitmap PageAlloc Dma Machine Board Vfs Procfs Block UsbBlock Process Input Console Platform Ahci Nvme.

Section Devfs.
Context `{BitField} {off : Z} {W M C Heap T P X V : Type} `{Hardware W} `{Translator M} `{Mapper M} `{GlobalAlloc Heap}
  `{Cr : !NvmeCrate (Memory off W M) C} `{Terminal T} `{Ports P} `{WidePorts P} `{UsbReader X} `{Firmware V}.
(** The command line; the modules of the boot loader, address and length; the
    bound of the model's waits. *)
Context (cmdline : str) (modules : option (list (Z * Z))) (spins : nat).

(** The AHCI disks share the board with the NVMe driver. *)
Record DevWorld := mk_DevWorld {
  dw_console : Console T P;
  dw_nvme : NvmeKernel (Cr := Cr) (Heap := Heap);
  dw_ahci : list Ahci;
  dw_usb : list UsbRecord * X;
}.
#[global] Instance DevWorld_fields : Fields DevWorld := fun w =>
  mk_DevWorld (dw_console w) (dw_nvme w) (dw_ahci w) (dw_usb w).
Definition dw_board (w : DevWorld) : Board off W := nm_board (nk_memory (dw_nvme w)).
Definition set_board (b : Board off W) (w : DevWorld) : DevWorld :=
  w <| dw_nvme := (dw_nvme w) <| nk_memory := mk_Memory b (nm_table (nk_memory (dw_nvme w))) |> |>.
Definition ahci_view (w : DevWorld) : AhciKernel off W := mk_AhciKernel (dw_board w) (dw_ahci w).
Definition set_ahci (s : AhciKernel off W) (w : DevWorld) : DevWorld := set_board (ak_board s) (w <| dw_ahci := Ahci.connections s |>).
(** The RAM disk addresses its bytes through the direct map. *)
Definition ram_view (w : DevWorld) : byte_memory := fun a => bo_mem (dw_board w) (a - off).
Definition set_ram (m : byte_memory) (w : DevWorld) : DevWorld :=
  let b := dw_board w in set_board (mk_Board (bo_pm b) (fun a => m (a + off)) (bo_live b) (bo_hw b)) w.

(** What a name opens. *)
Inductive DevFile :=
  | FDisk (t : AhciBlockDevice)
  | FNvme (t : NvmeBlockDevice (Cr := Cr))
  | FUsb (t : UsbBlockDevice)
  | FInitrd (t : RamDisk)
  | FStdout | FStderr | FTty | FSerial
  | FCmdline (pos : Z)
  | FPcspk | FPower.

Abbreviation dprog A := (prog DevWorld unit A).
(** Operations of a part of the state. *)
Definition on_part {S E A} (get : DevWorld -> S) (put : S -> DevWorld -> DevWorld) (m : prog S E A) : prog DevWorld E A :=
  fun w => '(s, r) ← m (get w); Done (put s w, r).
Definition on_ahci {E A} : prog (AhciKernel off W) E A -> prog DevWorld E A := on_part ahci_view set_ahci.
Definition on_nvme {E A} : prog (NvmeKernel (Cr := Cr) (Heap := Heap)) E A -> prog DevWorld E A :=
  on_part dw_nvme (fun s w => w <| dw_nvme := s |>).

(** ** Opening *)

(** [AHCI.iter().nth(n)]: the disks before are identified too. *)
Fixpoint ahci_nth (devices : list Ahci) (n : nat) : prog (AhciKernel off W) unit (option AhciBlockDevice) :=
  match devices with
  | [] => p_ret None
  | device :: devices =>
      identify ←! identity spins device;
      match n with O => p_ret (Some (mk_AhciBlockDevice device identify 0)) | S n => ahci_nth devices n end
  end.
(** @ vfs/devfs/disk.rs:6-17 open *)
Definition disk_open (path : str) : dprog DevFile :=
  match strip_prefix (bytes_of "/disk") path with
  | None => p_err tt
  | Some number =>
      n ←! p_result (parse_usize number);
      w ←! p_get;
      d ←! on_ahci (ahci_nth (dw_ahci w) (Z.to_nat n));
      p_result (match d with Some t => Ok (FDisk t) | None => Err tt end)
  end.

(** [NVME.iter().nth(n)]: the controllers before open their queues and drop them. *)
Fixpoint nvme_nth (devices : list NvmeDevice) (n : nat) : prog (NvmeKernel (Cr := Cr) (Heap := Heap)) unit (option (list NvmeBlockDevice)) :=
  match devices with
  | [] => p_ret None
  | device :: devices =>
      found ←! open_device device;
      match n with O => p_ret (Some found) | S n => drop_devices found ;! nvme_nth devices n end
  end.
(** The prefix holds no dash, so the first dash is behind it; a namespace that does
    not exist is an index out of range. *)
(** @ vfs/devfs/nvme.rs:6-18 open *)
Definition nvme_open (path : str) : dprog DevFile :=
  if negb (starts_with path (bytes_of "/nvme")) then p_err tt else
  match split_once 45 path with
  | None => p_err tt
  | Some (before, after) =>
      device ←! p_result (parse_usize (drop 5 before));
      namespace ←! p_result (parse_usize after);
      w ←! p_get;
      v ←! on_nvme (nvme_nth (connections (dw_nvme w)) (Z.to_nat device));
      match v with
      | None => p_err tt
      | Some v =>
          t ←! p_lift (idx v namespace);
          on_nvme (drop_devices (delete (Z.to_nat namespace) v)) ;!
          p_ret (FNvme t)
      end
  end.

Definition usb_file_open (path : str) : dprog DevFile :=
  w ←! p_get; p_result (match usb_open_path (dw_usb w).1 path with Ok t => Ok (FUsb t) | Err e => Err e end).
(** @ vfs/devfs/initrd.rs:6-19 open *)
Definition initrd_open (path : str) : dprog DevFile :=
  if negb (bool_decide (path = bytes_of "/initrd")) then p_err tt else
  files ←! p_lift (unwrap modules);
  file ←! p_lift (idx files 0);
  p_ret (FInitrd (ramdisk_new file.1 file.2)).

(** The devices behind fixed names. *)
Definition fixed (b : bool) (f : DevFile) : dprog DevFile := if b then p_ret f else p_err tt.
(** @ vfs/devfs/stdout.rs:27-33 open *)
Definition stdout_open (path : str) : dprog DevFile := fixed (bool_decide (path = bytes_of "/stdout")) FStdout.
(** @ vfs/devfs/stderr.rs:27-33 open *)
Definition stderr_open (path : str) : dprog DevFile := fixed (bool_decide (path = bytes_of "/stderr")) FStderr.
(** @ vfs/devfs/tty.rs:37-43 open *)
Definition tty_open (path : str) : dprog DevFile :=
  fixed (bool_decide (path = bytes_of "/tty") || bool_decide (path = bytes_of "/terminal")) FTty.
(** @ vfs/devfs/serial.rs:44-50 open *)
Definition serial_open (path : str) : dprog DevFile := fixed (bool_decide (path = bytes_of "/serial")) FSerial.
(** @ vfs/devfs/cmdline.rs:42-48 open *)
Definition cmdline_open (path : str) : dprog DevFile := fixed (bool_decide (path = bytes_of "/cmdline")) (FCmdline 0).
(** @ vfs/devfs/pcspk.rs:36-42 open *)
Definition pcspk_open (path : str) : dprog DevFile := fixed (bool_decide (path = bytes_of "/pcspk")) FPcspk.
(** @ vfs/devfs/power.rs:36-42 open *)
Definition power_open (path : str) : dprog DevFile := fixed (bool_decide (path = bytes_of "/power")) FPower.

(** [if let Ok(file) = open(path) { Ok(file) } else ..]. *)
Fixpoint first_open (opens : list (str -> dprog DevFile)) (path : str) : dprog DevFile :=
  match opens with
  | [] => p_err tt
  | open :: opens => r ←! p_try (open path); match r with Ok f => p_ret f | Err _ => first_open opens path end
  end.
(** @ vfs/devfs/filesystem.rs:10-36 VfsDirectory::DevFileSystem::file *)
Definition dev_file (path : str) : dprog DevFile :=
  first_open [disk_open; nvme_open; usb_file_open; initrd_open; stdout_open; stderr_open; tty_open; serial_open;
              cmdline_open; pcspk_open; power_open] path.

(** ** Listing *)

Definition disk_name (i : Z) : str := bytes_of "disk" ++ decimal i.
Definition nvme_name (device namespace : Z) : str := bytes_of "nvme" ++ decimal device ++ bytes_of "-" ++ decimal namespace.
Definition FIXED_NAMES : list str :=
  [bytes_of "initrd"; bytes_of "stdout"; bytes_of "stderr"; bytes_of "tty"; bytes_of "serial"; bytes_of "cmdline"; bytes_of "pcspk"; bytes_of "power"].
(** The names of the namespaces; the queues of each controller are dropped again. *)
Fixpoint nvme_names (devices : list NvmeDevice) (device_idx : Z) : prog (NvmeKernel (Cr := Cr) (Heap := Heap)) unit (list str) :=
  match devices with
  | [] => p_ret []
  | device :: devices =>
      found ←! open_device device;
      drop_devices found ;!
      rest ←! nvme_names devices (device_idx + 1);
      p_ret ((nvme_name device_idx <$> seqZ 0 (llen found)) ++ rest)
  end.
Definition listed_names : dprog (list str) :=
  w ←! p_get;
  disks ←! on_ahci (manager_iter spins (dw_ahci w));
  nvmes ←! on_nvme (nvme_names (connections (dw_nvme w)) 0);
  w ←! p_get;
  p_ret (FIXED_NAMES ++ (disk_name <$> seqZ 0 (llen disks)) ++ nvmes ++ ((fun d => usb_name d.1) <$> online_devices (dw_usb w).1)).
(** @ vfs/devfs/filesystem.rs:38-72 VfsDirectory::DevFileSystem::directory *)
Definition dev_directory (path : str) : dprog SnapshotDirectory :=
  if negb (bool_decide (path = bytes_of "/")) && negb (bool_decide (path = [])) then p_err tt else
  names ←! listed_names; p_ret (snapshot_new (dirent_new false <$> names)).

(** @ vfs/devfs/filesystem.rs:74-76 VfsDirectory::DevFileSystem::create_file_or_open_existing *)
Definition dev_create (path : str) : dprog DevFile := dev_file path.
(** @ vfs/devfs/filesystem.rs:78-80 VfsDirectory::DevFileSystem::remove *)
Definition dev_remove (_ : str) : bool := false.
(** @ vfs/devfs/filesystem.rs:10-81 VfsDirectory for DevFileSystem *)
#[global] Instance devfs : VfsDirectory DevWorld DevFile SnapshotDirectory unit := {
  fs_file w _ path := dev_file path w;
  fs_directory w _ path := dev_directory path w;
  fs_create w _ path := dev_create path w;
  fs_remove w _ path := Done (w, dev_remove path);
}.

(** ** The special files *)

Abbreviation cprog A := (prog (Console T P) Empty_set A).
(** Bytes until there are none, or enough. *)
Fixpoint take_bytes (get : cprog (option Z)) (n : nat) : cprog (list Z) :=
  match n with
  | O => p_ret []
  | S n => b ←! get; match b with Some b => rest ←! take_bytes get n; p_ret (b :: rest) | None => p_ret [] end
  end.
Definition filled (buf got : list Z) : list Z * Z := (got ++ drop (length got) buf, llen got).

(** @ vfs/devfs/tty.rs:13-25 VfsFile::TtyDevice::read *)
Definition tty_read (buf : list Z) : cprog (list Z * Z) := got ←! take_bytes pop_input (length buf); p_ret (filled buf got).
(** @ vfs/devfs/tty.rs:27-30 VfsFile::TtyDevice::write *)
Definition tty_write (buf : list Z) : cprog Z := on_terminal (fun t => process t buf) ;! p_ret (llen buf).
(** @ vfs/devfs/serial.rs:14-29 VfsFile::SerialDevice::read *)
Definition serial_dev_read (buf : list Z) : cprog (list Z * Z) :=
  c ←! p_get;
  if negb (co_serial_ok c) then p_ret (buf, 0) else got ←! take_bytes serial_read (length buf); p_ret (filled buf got).
(** @ vfs/devfs/serial.rs:31-37 VfsFile::SerialDevice::write *)
Definition serial_dev_write (buf : list Z) : cprog Z :=
  c ←! p_get;
  if negb (co_serial_ok c) then p_ret (llen buf) else serial_write_bytes spins buf ;! p_ret (llen buf).
(** @ vfs/devfs/stdout.rs:17-20 VfsFile::StdoutDevice::write *)
Definition stdout_write (buf : list Z) : cprog Z := write_stdout spins buf ;! p_ret (llen buf).
(** @ vfs/devfs/stderr.rs:17-20 VfsFile::StderrDevice::write *)
Definition stderr_write (buf : list Z) : cprog Z := write_stderr spins buf ;! p_ret (llen buf).
(** [str::parse::<u32>]. *)
Definition parse_u32 (s : str) : result Z unit :=
  match parse_usize s with Ok n => if n <? 2 ^ 32 then Ok n else Err tt | Err e => Err e end.
(** @ vfs/devfs/pcspk.rs:18-29 VfsFile::PcspkDevice::write *)
Definition pcspk_write (buf : list Z) : cprog Z :=
  if negb (utf8_valid buf) then p_ret 0 else
  (if bool_decide (trim buf = bytes_of "stop") then stop_sound
   else match parse_u32 (trim buf) with Ok freq => play_sound freq | Err _ => p_ret tt end) ;!
  p_ret (llen buf).
(** @ vfs/devfs/power.rs:18-29 VfsFile::PowerDevice::write *)
Definition power_write (buf : list Z) : cprog Z :=
  if negb (utf8_valid buf) then p_ret 0 else
  (if bool_decide (trim buf = bytes_of "poweroff") then poweroff spins
   else if bool_decide (trim buf = bytes_of "reboot") then reboot spins
   else p_ret tt) ;!
  p_ret (llen buf).

(** The command line is read as the text files of procfs are. *)
(** @ vfs/devfs/cmdline.rs:15-24 VfsFile::CmdlineDevice::read *)
Definition cmdline_read (pos : Z) (buf : list Z) : outcome (Z * list Z * Z) :=
  '(f, buf, n) ← text_read (mk_Text cmdline pos) buf; Done (pt_pos f, buf, n).
(** @ vfs/devfs/cmdline.rs:30-39 VfsFile::CmdlineDevice::seek *)
Definition cmdline_seek (pos : Z) (to : SeekFrom) : Z := pt_pos (text_seek (mk_Text cmdline pos) to).1.

(** ** Files of any kind *)

Definition on_console {A} (m : cprog A) (w : DevWorld) : outcome (DevWorld * A) :=
  '(c, r) ← m (dw_console w); match r with Ok a => Done (w <| dw_console := c |>, a) | Err e => never e end.
Definition via {S F R} (get : DevWorld -> S) (put : S -> DevWorld -> DevWorld) (inj : F -> DevFile)
    (m : S -> outcome (S * F * R)) (w : DevWorld) : outcome (DevWorld * DevFile * R) :=
  '(s, f, r) ← m (get w); Done (put s w, inj f, r).
Definition via_read {S F R} (get : DevWorld -> S) (put : S -> DevWorld -> DevWorld) (inj : F -> DevFile)
    (m : S -> outcome (S * F * list Z * R)) (w : DevWorld) : outcome (DevWorld * DevFile * list Z * R) :=
  '(s, f, b, r) ← m (get w); Done (put s w, inj f, b, r).
Definition console_read (f : DevFile) (m : cprog (list Z * Z)) (w : DevWorld) : outcome (DevWorld * DevFile * list Z * Z) :=
  '(w, (buf, n)) ← on_console m w; Done (w, f, buf, n).
Definition console_write (f : DevFile) (m : cprog Z) (w : DevWorld) : outcome (DevWorld * DevFile * Z) :=
  '(w, n) ← on_console m w; Done (w, f, n).
Definition put_nvme (s : NvmeKernel) (w : DevWorld) : DevWorld := w <| dw_nvme := s |>.
Definition put_usb (s : list UsbRecord * X) (w : DevWorld) : DevWorld := w <| dw_usb := s |>.

Definition dev_size (w : DevWorld) (f : DevFile) : outcome (DevWorld * DevFile * Z) :=
  match f with
  | FDisk t => via ahci_view set_ahci FDisk (fun s => @vf_size _ _ (ahci_file spins) s t) w
  | FNvme t => via dw_nvme put_nvme FNvme (fun s => @vf_size _ _ nvme_file s t) w
  | FUsb t => via dw_usb put_usb FUsb (fun s => vf_size s t) w
  | FInitrd t => via ram_view set_ram FInitrd (fun s => vf_size s t) w
  | FCmdline _ => Done (w, f, llen cmdline)
  | _ => Done (w, f, 0)
  end.
Definition dev_read (w : DevWorld) (f : DevFile) (buf : list Z) : outcome (DevWorld * DevFile * list Z * Z) :=
  match f with
  | FDisk t => via_read ahci_view set_ahci FDisk (fun s => @vf_read _ _ (ahci_file spins) s t buf) w
  | FNvme t => via_read dw_nvme put_nvme FNvme (fun s => @vf_read _ _ nvme_file s t buf) w
  | FUsb t => via_read dw_usb put_usb FUsb (fun s => vf_read s t buf) w
  | FInitrd t => via_read ram_view set_ram FInitrd (fun s => vf_read s t buf) w
  | FCmdline pos => '(pos, buf, n) ← cmdline_read pos buf; Done (w, FCmdline pos, buf, n)
  | FTty => console_read f (tty_read buf) w
  | FSerial => console_read f (serial_dev_read buf) w
  | _ => Done (w, f, buf, 0)
  end.
Definition dev_write (w : DevWorld) (f : DevFile) (buf : list Z) : outcome (DevWorld * DevFile * Z) :=
  match f with
  | FDisk t => via ahci_view set_ahci FDisk (fun s => @vf_write _ _ (ahci_file spins) s t buf) w
  | FNvme t => via dw_nvme put_nvme FNvme (fun s => @vf_write _ _ nvme_file s t buf) w
  | FUsb t => via dw_usb put_usb FUsb (fun s => vf_write s t buf) w
  | FInitrd t => via ram_view set_ram FInitrd (fun s => vf_write s t buf) w
  | FCmdline _ => Done (w, f, 0)
  | FTty => console_write f (tty_write buf) w
  | FSerial => console_write f (serial_dev_write buf) w
  | FStdout => console_write f (stdout_write buf) w
  | FStderr => console_write f (stderr_write buf) w
  | FPcspk => console_write f (pcspk_write buf) w
  | FPower => console_write f (power_write buf) w
  end.
Definition dev_seek (w : DevWorld) (f : DevFile) (pos : SeekFrom) : outcome (DevWorld * DevFile * Z) :=
  match f with
  | FDisk t => via ahci_view set_ahci FDisk (fun s => @vf_seek _ _ (ahci_file spins) s t pos) w
  | FNvme t => via dw_nvme put_nvme FNvme (fun s => @vf_seek _ _ nvme_file s t pos) w
  | FUsb t => via dw_usb put_usb FUsb (fun s => vf_seek s t pos) w
  | FInitrd t => via ram_view set_ram FInitrd (fun s => vf_seek s t pos) w
  | FCmdline p => let p := cmdline_seek p pos in Done (w, FCmdline p, p)
  | _ => Done (w, f, 0)
  end.
#[global] Instance dev_files : VfsFile DevWorld DevFile := {
  vf_size := dev_size; vf_read := dev_read; vf_write := dev_write; vf_seek := dev_seek;
}.
End Devfs.
