(* ===== verification/DevfsNames.v ===== *)
(** * The device file system: every name it lists opens

    Lenses into the state of the drivers, what the disks are relied on for, and that
    a listing of [/dev] and the search for a name agree; a namespace that does not
    exist, and a frequency of zero, panic. *)

From S2P Require Import Prelude Words Bitmap PageAlloc Dma Machine Board Vfs Procfs Block UsbBlock Process Input Console Platform Ahci AhciDisk Nvme NvmeDisk Devfs.

(** ** Prefixes *)

Lemma starts_with_app p s : starts_with (p ++ s) p = true.
Proof. apply starts_with_spec. by exists s. Qed.
Lemma strip_prefix_app p s : strip_prefix p (p ++ s) = Some s.
Proof. unfold strip_prefix. by rewrite starts_with_app, drop_app_length. Qed.
(** Two letters are enough to tell the kinds of disks apart. *)
Lemma starts_with_other p s : take 2 s <> take 2 p -> (2 <= length p)%nat -> starts_with s p = false.
Proof.
  intros Hne Hl. destruct (starts_with s p) eqn:Hs; [|done]. apply starts_with_spec in Hs as [r ->].
  destruct Hne. by rewrite take_app_le.
Qed.
Lemma strip_prefix_other p s : take 2 s <> take 2 p -> (2 <= length p)%nat -> strip_prefix p s = None.
Proof. intros. unfold strip_prefix. by rewrite starts_with_other. Qed.

(** ** Lenses *)

Section Lens.
Context {World S E : Type} (get : World -> S) (put : S -> World -> World).
Record lens : Prop := {
  lens_get s w : get (put s w) = s;
  lens_put s s' w : put s' (put s w) = put s' w;
  lens_id w : put (get w) w = w;
}.
End Lens.

Section Names.
Context `{BitField} {off : Z} {W M C Heap T P X V : Type} `{Hardware W} `{Translator M} `{Mapper M} `{GlobalAlloc Heap}
  `{Cr : !NvmeCrate (Memory off W M) C} `{Terminal T} `{Ports P} `{WidePorts P} `{UsbReader X} `{Firmware V}.
Context (modules : option (list (Z * Z))) (spins : nat).
Abbreviation World := (DevWorld (off := off) (W := W) (M := M) (C := C) (Heap := Heap) (T := T) (P := P) (X := X)).
Abbreviation File := (DevFile (off := off) (W := W) (M := M) (C := C)).
Abbreviation Controller := (NvmeDevice (NvmeCrate := Cr)).
Implicit Types (w : World) (f : File).

Lemma ahci_lens : lens (World := World) ahci_view set_ahci.
Proof. split; [by intros [[] ]|by intros [] [] []|]. intros [c [[b t] cr h conns] a u]. done. Qed.
Lemma nvme_lens : lens (World := World) dw_nvme (fun s w => w <| dw_nvme := s |>).
Proof. split; [done|done|by intros []]. Qed.

Lemma wp_part_bind {S E A B} (get : World -> S) put (m : prog S E A) (k : A -> prog S E B) w (Q : World -> result B E -> Prop) :
  lens get put -> wp (on_part get put m) w (fun w' r => match r with Ok a => wp (on_part get put (k a)) w' Q | Err e => Q w' (Err e) end) ->
  wp (on_part get put (p_bind m k)) w Q.
Proof.
  intros [Hg Hp Hi] (w' & r & Hm & HQ). unfold wp, on_part, p_bind in *.
  destruct (m (get w)) as [[s [a|e]]| |]; cbn [mbind outcome_bind] in *; [| |done|done].
  - injection Hm as <- <-. destruct HQ as (w2 & r2 & Hk & HQ). rewrite Hg in Hk.
    destruct (k a s) as [[s2 r3]| |]; cbn [mbind outcome_bind] in *; [|done|done]. injection Hk as <- <-.
    rewrite Hp in HQ. by eexists _, _.
  - injection Hm as <- <-. by eexists _, _.
Qed.
Lemma wp_part_ret {S E A} (get : World -> S) put (a : A) w (Q : World -> result A E -> Prop) :
  lens get put -> Q w (Ok a) -> wp (on_part get put (p_ret a)) w Q.
Proof. intros [_ _ Hi] HQ. eexists _, _. split; [reflexivity|]. by rewrite Hi. Qed.

(** ** What the disks are relied on for *)

Definition same_devices w w' : Prop :=
  dw_ahci w' = dw_ahci w /\ connections (dw_nvme w') = connections (dw_nvme w) /\ dw_usb w' = dw_usb w.
Lemma same_devices_refl w : same_devices w w.
Proof. done. Qed.
Lemma same_devices_trans w1 w2 w3 : same_devices w1 w2 -> same_devices w2 w3 -> same_devices w1 w3.
Proof. unfold same_devices. intuition congruence. Qed.

(** The world after the hardware behind an AHCI port, or the crate, has run. *)
Definition after_port w (hw : W) (m : memory) : World := set_ahci (with_hw (ahci_view w) hw m) w.
Definition after_crate w (k : Memory off W M) (c : C) : World := w <| dw_nvme := (dw_nvme w) <| nk_memory := k |> <| nk_crate := c |> |>.

(** Working devices, as the drivers meet them, in every state [ok] holds of: behind
    each AHCI device is a running port that obeys the laws of [AhciDisk]; the crate
    reports the same namespaces of a controller each time, makes a queue pair for
    each and takes it back; and what the port and the crate do leaves [ok]. *)
Record devices_work (ok : World -> Prop) (spaces : Controller -> list (Namespace (NvmeCrate := Cr))) : Prop := {
  dv_port w d : ok w -> d ∈ dw_ahci w ->
    exists (port : Z) (PL : AhciPort W port) (L : Layout), (ap_latency (port := port) < spins)%nat /\
      d = device_of (off := off) (port := port) L /\ port_ready L (ahci_view w) /\
      forall hw m, port_ready L (with_hw (ahci_view w) hw m) -> (forall i, ~ inside L i -> m i = mem (ahci_view w) i) -> ok (after_port w hw m);
  dv_identify w d : ok w -> d ∈ connections (dw_nvme w) ->
    exists k c, identify_namespaces NvmeAllocator (nk_memory (dw_nvme w)) (nk_crate (dw_nvme w)) d 0 = Done (k, c, Ok (spaces d)) /\ ok (after_crate w k c);
  dv_pair w d ns : ok w -> d ∈ connections (dw_nvme w) -> ns ∈ spaces d ->
    exists k c q, create_io_queue_pair NvmeAllocator (nk_memory (dw_nvme w)) (nk_crate (dw_nvme w)) d ns 64 = Done (k, c, Ok q) /\ ok (after_crate w k c);
  dv_drop w qp : ok w ->
    exists k c, qp_drop NvmeAllocator (nk_memory (dw_nvme w)) (nk_crate (dw_nvme w)) qp = Done (k, c) /\ ok (after_crate w k c);
}.

Context (ok : World -> Prop) (spaces : Controller -> list (Namespace (NvmeCrate := Cr))) (Hwork : devices_work ok spaces).

(** What the drivers make of it. *)
Lemma dk_identity w d : ok w -> d ∈ dw_ahci w ->
  forall E, exists w' i, on_ahci (E := E) (identity spins d) w = Done (w', Ok i) /\ ok w' /\ same_devices w w'.
Proof.
  intros Hw Hd E. destruct (dv_port _ _ Hwork w d Hw Hd) as (port & PL & L & Hsp & -> & HR & Hok).
  destruct (wp_identity (E := E) spins Hsp L (ahci_view w) (fun s r => exists i, r = Ok i /\ ok (set_ahci s w) /\ same_devices w (set_ahci s w)))
    as (s & r & Hrun & i & -> & Hok' & Hs); [done| |].
  - intros hw m HR' Hout. eexists. split; [reflexivity|]. split; [by apply Hok|]. done.
  - eexists _, i. split; [unfold on_ahci, on_part; rewrite Hrun; reflexivity|]. done.
Qed.

Lemma open_namespaces_ok {E} d (l : list Namespace) : forall w, ok w -> d ∈ connections (dw_nvme w) -> (forall ns, ns ∈ l -> ns ∈ spaces d) ->
  exists w' found, on_nvme (E := E) (open_namespaces d l) w = Done (w', Ok found) /\ namespace <$> found = l /\ ok w' /\ same_devices w w'.
Proof.
  induction l as [|ns l IH]; intros w Hw Hd Hl.
  { exists w, []. split; [unfold on_nvme, on_part; cbn; by destruct w|]. by split. }
  destruct (dv_pair _ _ Hwork w d ns Hw Hd) as (k & c & q & Hq & Hok); [apply Hl; left|].
  destruct (IH (after_crate w k c)) as (w' & found & Hrun & Hf & Hw' & Hs); [done|done|intros; apply Hl; by right|].
  unfold on_nvme, on_part in *. cbn [dw_nvme after_crate] in Hrun. cbn [open_namespaces].
  exists w', (mk_NvmeBlockDevice ns [q] (device_model_number c d) 0 :: found). split; [|split; [|split; [exact Hw'|exact Hs]]].
  - unfold p_bind at 1, p_try, crate_call. rewrite Hq. cbn [mbind outcome_bind map_err]. unfold p_bind at 1, p_get. cbn [mbind outcome_bind].
    change (dw_nvme (after_crate w k c)) with ((dw_nvme w) <| nk_memory := k |> <| nk_crate := c |>) in Hrun.
    unfold p_bind at 1. destruct (open_namespaces d l _) as [[s r]| |]; cbn [mbind outcome_bind] in *; [|done|done].
    injection Hrun as <- ->. reflexivity.
  - cbn. by f_equal.
Qed.
Lemma dk_open w d : ok w -> d ∈ connections (dw_nvme w) ->
  forall E, exists w' l, on_nvme (E := E) (open_device d) w = Done (w', Ok l) /\ namespace <$> l = spaces d /\ ok w' /\ same_devices w w'.
Proof.
  intros Hw Hd E. destruct (dv_identify _ _ Hwork w d Hw Hd) as (k & c & Hid & Hok).
  destruct (open_namespaces_ok (E := E) d (spaces d) (after_crate w k c)) as (w' & l & Hrun & Hrest); [done..|].
  exists w', l. split; [|exact Hrest]. unfold on_nvme, on_part in *.
  change (dw_nvme (after_crate w k c)) with ((dw_nvme w) <| nk_memory := k |> <| nk_crate := c |>) in Hrun.
  unfold open_device, p_bind, p_try, crate_call. rewrite Hid. cbn [mbind outcome_bind map_err p_lift unwrap_ok].
  destruct (open_namespaces d (spaces d) _) as [[s r]| |]; cbn [mbind outcome_bind] in *; [|done|done].
  injection Hrun as <- ->. reflexivity.
Qed.

Lemma wp_drop_queues {E} (l : list (Z * Z)) w (Q : World -> result unit E -> Prop) :
  ok w -> (forall w', ok w' -> same_devices w w' -> Q w' (Ok tt)) -> wp (on_nvme (p_each l (fun '(_, qp) => drop_queue qp))) w Q.
Proof.
  revert w Q. induction l as [|[i qp] l IH]; intros w Q Hw HQ; cbn [p_each]; [apply wp_part_ret; [apply nvme_lens|]; by apply HQ|].
  apply wp_part_bind; [apply nvme_lens|]. destruct (dv_drop _ _ Hwork w qp Hw) as (k & c & Hd & Hok).
  exists (after_crate w k c), (Ok tt). split; [unfold on_nvme, on_part, drop_queue; rewrite Hd; reflexivity|].
  apply IH; [done|]. intros w' Hw' Hs. by apply HQ.
Qed.
Lemma wp_drop_devices {E} (l : list NvmeBlockDevice) w (Q : World -> result unit E -> Prop) :
  ok w -> (forall w', ok w' -> same_devices w w' -> Q w' (Ok tt)) -> wp (on_nvme (drop_devices l)) w Q.
Proof.
  unfold drop_devices. revert w Q. induction l as [|t l IH]; intros w Q Hw HQ; cbn [p_each]; [apply wp_part_ret; [apply nvme_lens|]; by apply HQ|].
  apply wp_part_bind; [apply nvme_lens|]. apply wp_drop_queues; [done|]. intros w1 Hw1 Hs1.
  apply IH; [done|]. intros w' Hw' Hs. apply HQ; [done|]. by eapply same_devices_trans.
Qed.
Lemma dk_drop w l : ok w -> forall E, exists w', on_nvme (E := E) (drop_devices l) w = Done (w', Ok tt) /\ ok w' /\ same_devices w w'.
Proof.
  intros Hw E. destruct (wp_drop_devices (E := E) l w (fun w' r => r = Ok tt /\ ok w' /\ same_devices w w')) as (w' & r & Hr & -> & Ho & Hs); [done|done|].
  by exists w'.
Qed.
Definition count (d : Controller) : nat := length (spaces d).
Lemma count_length (l : list NvmeBlockDevice) d : namespace <$> l = spaces d -> length l = count d.
Proof. intros Hl. unfold count. by rewrite <- Hl, length_fmap. Qed.

Lemma wp_identify {E} d w (Q : World -> result IdentifyData E -> Prop) :
  ok w -> d ∈ dw_ahci w -> (forall w' i, ok w' -> same_devices w w' -> Q w' (Ok i)) -> wp (on_ahci (identity spins d)) w Q.
Proof. intros Hw Hd HQ. destruct (dk_identity w d Hw Hd E) as (w' & i & Hr & Ho & Hs). exists w', (Ok i). auto. Qed.
Lemma wp_open {E} d w (Q : World -> result (list NvmeBlockDevice) E -> Prop) :
  ok w -> d ∈ connections (dw_nvme w) -> (forall w' l, namespace <$> l = spaces d -> ok w' -> same_devices w w' -> Q w' (Ok l)) -> wp (on_nvme (open_device d)) w Q.
Proof. intros Hw Hd HQ. destruct (dk_open w d Hw Hd E) as (w' & l & Hr & Hl & Ho & Hs). exists w', (Ok l). auto. Qed.
Lemma wp_drop {E} l w (Q : World -> result unit E -> Prop) :
  ok w -> (forall w', ok w' -> same_devices w w' -> Q w' (Ok tt)) -> wp (on_nvme (drop_devices l)) w Q.
Proof. intros Hw HQ. destruct (dk_drop w l Hw E) as (w' & Hr & Ho & Hs). exists w', (Ok tt). auto. Qed.

(** The iterators over a part of the devices. *)
Lemma wp_manager_iter ds : forall w (Q : World -> result (list AhciBlockDevice) unit -> Prop),
  ok w -> (forall d, d ∈ ds -> d ∈ dw_ahci w) ->
  (forall w' l, length l = length ds -> ok w' -> same_devices w w' -> Q w' (Ok l)) -> wp (on_ahci (manager_iter spins ds)) w Q.
Proof.
  induction ds as [|d ds IH]; intros w Q Hw Hd HQ; cbn [manager_iter].
  { apply wp_part_ret; [apply ahci_lens|]. by apply HQ. }
  apply wp_part_bind; [apply ahci_lens|]. apply wp_identify; [done|apply Hd; left|]. intros w1 i Hw1 [Ha Hr].
  apply wp_part_bind; [apply ahci_lens|]. apply IH; [done|intros d' Hd'; rewrite Ha; apply Hd; by right|].
  intros w2 l Hl Hw2 Hs2. apply wp_part_ret; [apply ahci_lens|]. apply HQ; [cbn; lia|done|]. by eapply same_devices_trans.
Qed.

Lemma wp_ahci_nth ds : forall n d w (Q : World -> result (option AhciBlockDevice) unit -> Prop),
  ok w -> (forall d, d ∈ ds -> d ∈ dw_ahci w) -> ds !! n = Some d ->
  (forall w' t, ab_device t = d -> ok w' -> same_devices w w' -> Q w' (Ok (Some t))) -> wp (on_ahci (ahci_nth spins ds n)) w Q.
Proof.
  induction ds as [|d0 ds IH]; intros n d w Q Hw Hd Hn HQ; [done|]. cbn [ahci_nth].
  apply wp_part_bind; [apply ahci_lens|]. apply wp_identify; [done|apply Hd; left|]. intros w1 i Hw1 Hs1.
  destruct n as [|n]; cbn in Hn.
  - injection Hn as ->. apply wp_part_ret; [apply ahci_lens|]. by apply HQ.
  - apply (IH n d); [done|intros d' Hd'; destruct Hs1 as [-> _]; apply Hd; by right|done|].
    intros w2 t Ht Hw2 Hs2. apply HQ; [done|done|]. by eapply same_devices_trans.
Qed.

Lemma wp_nvme_nth ds : forall n d w (Q : World -> result (option (list NvmeBlockDevice)) unit -> Prop),
  ok w -> (forall d, d ∈ ds -> d ∈ connections (dw_nvme w)) -> ds !! n = Some d ->
  (forall w' l, namespace <$> l = spaces d -> ok w' -> same_devices w w' -> Q w' (Ok (Some l))) -> wp (on_nvme (nvme_nth ds n)) w Q.
Proof.
  induction ds as [|d0 ds IH]; intros n d w Q Hw Hd Hn HQ; [done|]. cbn [nvme_nth].
  apply wp_part_bind; [apply nvme_lens|]. apply wp_open; [done|apply Hd; left|]. intros w1 l Hl Hw1 Hs1.
  destruct n as [|n]; cbn in Hn.
  - injection Hn as ->. apply wp_part_ret; [apply nvme_lens|]. by apply HQ.
  - apply wp_part_bind; [apply nvme_lens|]. apply wp_drop; [done|]. intros w2 Hw2 Hs2.
    pose proof (same_devices_trans _ _ _ Hs1 Hs2) as Hs. apply (IH n d); [done|intros d' Hd'; destruct Hs as (_ & -> & _); apply Hd; by right|done|].
    intros w3 l' Hl' Hw3 Hs3. apply HQ; [done|done|]. by eapply same_devices_trans.
Qed.

(** The names of the namespaces, controllers numbered from [i]. *)
Fixpoint namespace_names (ds : list Controller) (i : Z) : list str :=
  match ds with [] => [] | d :: ds => (nvme_name i <$> seqZ 0 (Z.of_nat (count d))) ++ namespace_names ds (i + 1) end.
Lemma wp_nvme_names ds : forall i w (Q : World -> result (list str) unit -> Prop),
  ok w -> (forall d, d ∈ ds -> d ∈ connections (dw_nvme w)) ->
  (forall w', ok w' -> same_devices w w' -> Q w' (Ok (namespace_names ds i))) -> wp (on_nvme (nvme_names ds i)) w Q.
Proof.
  induction ds as [|d ds IH]; intros i w Q Hw Hd HQ; cbn [nvme_names].
  { apply wp_part_ret; [apply nvme_lens|]. by apply HQ. }
  apply wp_part_bind; [apply nvme_lens|]. apply wp_open; [done|apply Hd; left|]. intros w1 l Hl Hw1 Hs1.
  apply wp_part_bind; [apply nvme_lens|]. apply wp_drop; [done|]. intros w2 Hw2 Hs2.
  pose proof (same_devices_trans _ _ _ Hs1 Hs2) as Hs.
  apply wp_part_bind; [apply nvme_lens|]. apply IH; [done|intros d' Hd'; destruct Hs as (_ & -> & _); apply Hd; by right|].
  intros w3 Hw3 Hs3. apply wp_part_ret; [apply nvme_lens|]. unfold llen. rewrite (count_length _ _ Hl). apply HQ; [done|]. by eapply same_devices_trans.
Qed.

(** ** Opening by name *)

Lemma wp_done {A} (m : prog World unit A) w w' r : wp m w (fun w1 r1 => w1 = w' /\ r1 = r) -> m w = Done (w', r).
Proof. by intros (w1 & r1 & Hm & -> & ->). Qed.

Lemma wp_first_skip (open : str -> prog World unit File) opens path w (Q : World -> result File unit -> Prop) :
  open path w = Done (w, Err tt) -> wp (first_open opens path) w Q -> wp (first_open (open :: opens) path) w Q.
Proof. intros Ho Hw. cbn [first_open]. unfold wp. by rewrite (p_bind_Ok _ _ _ _ _ (p_try_Done _ _ _ _ Ho)). Qed.
Lemma wp_first_hit (open : str -> prog World unit File) opens path w (Q : World -> result File unit -> Prop) :
  wp (open path) w (fun w' r => exists f, r = Ok f /\ Q w' (Ok f)) -> wp (first_open (open :: opens) path) w Q.
Proof.
  intros Ho. cbn [first_open]. apply wp_bind, wp_try. eapply wp_mono; [exact Ho|]. intros w' r (f & -> & HQ). by apply wp_ret.
Qed.

Lemma disk_other path w : take 2 path <> bytes_of "/d" -> disk_open spins path w = Done (w, Err tt).
Proof. intros Hne. unfold disk_open. rewrite strip_prefix_other; [done|done|cbn; lia]. Qed.
Lemma nvme_other path w : take 2 path <> bytes_of "/n" -> nvme_open path w = Done (w, Err tt).
Proof. intros Hne. unfold nvme_open. rewrite starts_with_other; [done|done|cbn; lia]. Qed.
Lemma usb_other path w : take 2 path <> bytes_of "/u" -> usb_file_open path w = Done (w, Err tt).
Proof. intros Hne. unfold usb_file_open, usb_open_path. rewrite strip_prefix_other; [done|done|cbn; lia]. Qed.
Lemma initrd_other path w : path <> bytes_of "/initrd" -> initrd_open modules path w = Done (w, Err tt).
Proof. intros Hne. unfold initrd_open. by rewrite bool_decide_false. Qed.

(** The devices behind fixed names. *)
Definition fixed_file (name : str) (f : File) : Prop :=
  In (name, f) [(bytes_of "stdout", FStdout); (bytes_of "stderr", FStderr); (bytes_of "tty", FTty); (bytes_of "serial", FSerial);
    (bytes_of "cmdline", FCmdline 0); (bytes_of "pcspk", FPcspk); (bytes_of "power", FPower)] \/
  name = bytes_of "initrd" /\ exists m ms, modules = Some (m :: ms) /\ f = FInitrd (ramdisk_new m.1 m.2).
Lemma open_fixed name f w : fixed_file name f -> dev_file modules spins (SLASH :: name) w = Done (w, Ok f).
Proof.
  intros [Hin|(-> & m & ms & -> & ->)].
  - assert (take 2 (SLASH :: name) <> bytes_of "/d" /\ take 2 (SLASH :: name) <> bytes_of "/n" /\ take 2 (SLASH :: name) <> bytes_of "/u" /\
      SLASH :: name <> bytes_of "/initrd") as (Hd & Hn & Hu & Hi).
    { repeat (destruct Hin as [[= <- <-]|Hin]; [by split_and!|]). destruct Hin. }
    apply wp_done. unfold dev_file. apply wp_first_skip; [by apply disk_other|].
    apply wp_first_skip; [by apply nvme_other|]. apply wp_first_skip; [by apply usb_other|]. apply wp_first_skip; [by apply initrd_other|].
    repeat (destruct Hin as [[= <- <-]|Hin]; [eexists _, _; split; [reflexivity|by split]|]). destruct Hin.
  - apply wp_done. unfold dev_file. apply wp_first_skip; [by apply disk_other|].
    apply wp_first_skip; [by apply nvme_other|]. apply wp_first_skip; [by apply usb_other|].
    eexists _, _. split; [reflexivity|by split].
Qed.

(** A disk by its number. *)
Lemma open_disk i d w (Q : World -> result File unit -> Prop) :
  ok w -> dw_ahci w !! i = Some d -> Z.of_nat i < 2 ^ 64 ->
  (forall w' t, ab_device t = d -> ok w' -> same_devices w w' -> Q w' (Ok (FDisk t))) ->
  wp (dev_file modules spins (SLASH :: disk_name (Z.of_nat i))) w Q.
Proof.
  intros Hw Hi Hlt HQ. unfold dev_file. apply wp_first_hit. unfold disk_open.
  change (SLASH :: disk_name (Z.of_nat i)) with (bytes_of "/disk" ++ decimal (Z.of_nat i)). rewrite strip_prefix_app.
  destruct (decimal_spec (Z.of_nat i)) as (-> & _); [lia|]. apply wp_bind, wp_result, wp_bind, wp_get, wp_bind. rewrite Nat2Z.id.
  apply (wp_ahci_nth _ i d); [done|done|done|]. intros w' t Ht Hw' Hs. apply wp_result. eexists. split; [done|]. by apply HQ.
Qed.

Lemma split_nvme d n : 0 <= d < 2 ^ 64 -> split_once 45 (SLASH :: nvme_name d n) = Some (bytes_of "/nvme" ++ decimal d, decimal n).
Proof.
  intros Hd. unfold nvme_name. change (SLASH :: bytes_of "nvme" ++ decimal d ++ bytes_of "-" ++ decimal n)
    with (bytes_of "/nvme" ++ decimal d ++ 45 :: decimal n). rewrite app_assoc. apply split_once_spec.
  intros [Hin|Hin]%elem_of_app; [by apply (bool_decide_eq_false_1 (45 ∈ bytes_of "/nvme")) in Hin|].
  destruct (decimal_spec d Hd) as (_ & _ & Hb). specialize (Hb _ Hin). lia.
Qed.
(** A namespace by its controller and its number; a number too large is a panic. *)
Lemma open_namespace i (n : nat) d w :
  ok w -> connections (dw_nvme w) !! i = Some d -> Z.of_nat i < 2 ^ 64 -> Z.of_nat n < 2 ^ 64 ->
  if (n <? count d)%nat
  then exists w' t, dev_file modules spins (SLASH :: nvme_name (Z.of_nat i) (Z.of_nat n)) w = Done (w', Ok (FNvme t)) /\
    spaces d !! n = Some (namespace t) /\ ok w' /\ same_devices w w'
  else dev_file modules spins (SLASH :: nvme_name (Z.of_nat i) (Z.of_nat n)) w = Panic.
Proof.
  intros Hw Hi Hlti Hltn. set (path := SLASH :: nvme_name (Z.of_nat i) (Z.of_nat n)).
  assert (disk_open spins path w = Done (w, Err tt)) as Hdisk by by apply disk_other.
  destruct (wp_nvme_nth (connections (dw_nvme w)) i d w (fun w' r => exists l, r = Ok (Some l) /\ namespace <$> l = spaces d /\ ok w' /\ same_devices w w'))
    as (w1 & r & Hnth & l & -> & Hl & Hw1 & Hs1); [done|done|done|by intros w' l Hl Ho Hs; exists l|].
  pose proof (count_length _ _ Hl) as Hlen.
  assert (forall Q, wp (t ←! p_lift (idx l (Z.of_nat n)); on_nvme (drop_devices (delete n l)) ;! p_ret (FNvme t)) w1 Q -> wp (nvme_open path) w Q) as Hopen.
  { intros Q HQ. unfold nvme_open. change path with (bytes_of "/nvme" ++ (decimal (Z.of_nat i) ++ bytes_of "-" ++ decimal (Z.of_nat n))) at 1.
    rewrite starts_with_app. cbn [negb]. unfold path. rewrite split_nvme by lia.
    change (drop 5 (bytes_of "/nvme" ++ decimal (Z.of_nat i))) with (decimal (Z.of_nat i)).
    destruct (decimal_spec (Z.of_nat i)) as (-> & _); [lia|]. destruct (decimal_spec (Z.of_nat n)) as (-> & _); [lia|].
    apply wp_bind, wp_result, wp_bind, wp_result, wp_bind, wp_get. rewrite !Nat2Z.id. unfold wp. by rewrite (p_bind_Ok _ _ _ _ _ Hnth). }
  destruct (Nat.ltb_spec n (count d)) as [Hlt|Hge].
  - destruct (idx_in_range l (Z.of_nat n)) as (t & Ht & Hat); [unfold llen; lia|].
    destruct (dk_drop w1 (delete n l) Hw1 unit) as (w2 & Hdrop & Hw2 & Hs2).
    exists w2, t. split.
    + apply wp_done. apply wp_first_skip; [done|]. apply wp_first_hit, Hopen. apply wp_bind. eapply wp_lift; [exact Ht|].
      apply wp_bind. exists w2, (Ok tt). split; [exact Hdrop|]. apply wp_ret. by exists (FNvme t).
    + split; [|split; [done|]; by eapply same_devices_trans].
      rewrite <- Hl, list_lookup_fmap. rewrite Nat2Z.id in Hat. by rewrite Hat.
  - unfold dev_file. cbn [first_open]. rewrite (p_bind_Ok _ _ _ _ _ (p_try_Done _ _ _ _ Hdisk)).
    assert (nvme_open path w = Panic) as Hp.
    { unfold nvme_open. change path with (bytes_of "/nvme" ++ (decimal (Z.of_nat i) ++ bytes_of "-" ++ decimal (Z.of_nat n))) at 1.
      rewrite starts_with_app. cbn [negb]. unfold path. rewrite split_nvme by lia.
      change (drop 5 (bytes_of "/nvme" ++ decimal (Z.of_nat i))) with (decimal (Z.of_nat i)).
      destruct (decimal_spec (Z.of_nat i)) as (-> & _); [lia|]. destruct (decimal_spec (Z.of_nat n)) as (-> & _); [lia|].
      do 3 (erewrite p_bind_Ok; [|reflexivity]). rewrite !Nat2Z.id, (p_bind_Ok _ _ _ _ _ Hnth). unfold p_bind at 1, p_lift, idx.
      rewrite bool_decide_true by lia. cbn [mbind outcome_bind]. by rewrite lookup_ge_None_2 by lia. }
    unfold p_bind, p_try. by rewrite Hp.
Qed.
(** A USB disk by its number. *)
Lemma record_at l d : NoDup (ur_id <$> l) -> d ∈ l -> record l (ur_id d) = Some d.
Proof.
  induction l as [|d0 l IH]; [by intros _ ?%elem_of_nil|]. cbn [fmap list_fmap]. rewrite NoDup_cons. intros [Hd0 Hn] Hin.
  unfold record. cbn [list_find]. destruct (decide (ur_id d0 = ur_id d)) as [He|Hne].
  - apply elem_of_cons in Hin as [->|Hin]; [done|]. destruct Hd0. rewrite He. by apply list_elem_of_fmap_2.
  - apply elem_of_cons in Hin as [->|Hin]; [done|]. specialize (IH Hn Hin). unfold record in IH.
    destruct (list_find _ l) as [[j d']|]; [|done]. exact IH.
Qed.
Lemma open_usb id blocks w :
  NoDup (ur_id <$> (dw_usb w).1) -> (id, blocks) ∈ online_devices (dw_usb w).1 -> 0 <= id < 2 ^ 64 ->
  dev_file modules spins (SLASH :: usb_name id) w = Done (w, Ok (FUsb (mk_Usb id blocks 0))).
Proof.
  intros Hn Hin Hid. apply wp_done, wp_first_skip; [by apply disk_other|]. apply wp_first_skip; [by apply nvme_other|].
  apply wp_first_hit. apply wp_bind, wp_get, wp_result. change (SLASH :: usb_name id) with (bytes_of "/usb" ++ decimal id).
  unfold usb_open_path. rewrite strip_prefix_app. destruct (decimal_spec id Hid) as (-> & _).
  unfold online_devices in Hin. apply list_elem_of_fmap in Hin as (d & [= -> ->] & [Hon Hin]%list_elem_of_filter).
  unfold usb_open. rewrite record_at by done. cbn. rewrite Hon. by eexists.
Qed.

(** ** The listing *)

(** What a name of the listing stands for. *)
Definition names_device w (name : str) (f : File) : Prop :=
  fixed_file name f \/
  (exists (i : nat) t, dw_ahci w !! i = Some (ab_device t) /\ name = disk_name (Z.of_nat i) /\ f = FDisk t) \/
  (exists (i n : nat) d t, connections (dw_nvme w) !! i = Some d /\ spaces d !! n = Some (namespace t) /\
     name = nvme_name (Z.of_nat i) (Z.of_nat n) /\ f = FNvme t) \/
  (exists id blocks, (id, blocks) ∈ online_devices (dw_usb w).1 /\ name = usb_name id /\ f = FUsb (mk_Usb id blocks 0)).

(** Numbers that fit the name they are printed in, and USB disks told apart. *)
Record numbered w : Prop := {
  nb_ahci : Z.of_nat (length (dw_ahci w)) <= 2 ^ 64;
  nb_nvme : Z.of_nat (length (connections (dw_nvme w))) <= 2 ^ 64;
  nb_spaces d : d ∈ connections (dw_nvme w) -> Z.of_nat (count d) <= 2 ^ 64;
  nb_usb : NoDup (ur_id <$> (dw_usb w).1);
  nb_id : Forall (fun d => 0 <= ur_id d < 2 ^ 64) (dw_usb w).1;
}.
Lemma numbered_same w w' : same_devices w w' -> numbered w -> numbered w'.
Proof. intros (Ha & Hn & Hu) [H1' H2' H3' H4' H5']. split; rewrite ?Ha, ?Hn, ?Hu; done. Qed.

Lemma names_device_same w w' name f : same_devices w w' -> names_device w' name f -> names_device w name f.
Proof. intros (Ha & Hn & Hu). unfold names_device. by rewrite Ha, Hn, Hu. Qed.

Lemma elem_of_names (f : Z -> str) n name : name ∈ (f <$> seqZ 0 (Z.of_nat n)) -> exists i : nat, (i < n)%nat /\ name = f (Z.of_nat i).
Proof.
  intros (i & -> & Hi%elem_of_seqZ)%list_elem_of_fmap. exists (Z.to_nat i). split; [lia|]. f_equal. lia.
Qed.
Lemma elem_of_namespaces ds : forall i name, name ∈ namespace_names ds i ->
  exists (j n : nat) d, ds !! j = Some d /\ (n < count d)%nat /\ name = nvme_name (i + Z.of_nat j) (Z.of_nat n).
Proof.
  induction ds as [|d ds IH]; intros i name; cbn [namespace_names]; [by intros ?%elem_of_nil|].
  intros [(n & Hn & ->)%elem_of_names|Hin]%elem_of_app.
  - exists 0%nat, n, d. rewrite Z.add_0_r. done.
  - destruct (IH _ _ Hin) as (j & n & d' & Hj & Hn & ->). exists (S j), n, d'. split; [done|]. split; [done|]. f_equal. lia.
Qed.

Definition listing w : list str :=
  FIXED_NAMES ++ (disk_name <$> seqZ 0 (Z.of_nat (length (dw_ahci w)))) ++ namespace_names (connections (dw_nvme w)) 0 ++
  ((fun d => usb_name d.1) <$> online_devices (dw_usb w).1).
Lemma wp_listed w (Q : World -> result (list str) unit -> Prop) :
  ok w ->
  (forall w', ok w' -> same_devices w w' ->
     Q w' (Ok (listing w))) ->
  wp (listed_names spins) w Q.
Proof.
  intros Hw HQ. apply wp_bind, wp_get, wp_bind. apply (wp_manager_iter (dw_ahci w)); [done|done|]. intros w1 l Hl Hw1 Hs1.
  pose proof Hs1 as (_ & Hn1 & _). apply wp_bind. apply wp_nvme_names; [done|by rewrite Hn1|]. intros w2 Hw2 Hs2.
  pose proof (same_devices_trans _ _ _ Hs1 Hs2) as Hs. apply wp_bind, wp_get, wp_ret.
  unfold llen. rewrite Hl. destruct Hs as (Ha & Hn & Hu). rewrite Hu. apply HQ; [done|by split_and!].
Qed.

(** Every listed name opens. *)
Lemma listed_opens w w' name : ok w' -> numbered w' -> (exists m ms, modules = Some (m :: ms)) -> same_devices w w' ->
  name ∈ listing w ->
  exists w2 f, dev_file modules spins (SLASH :: name) w' = Done (w2, Ok f) /\ names_device w name f /\ same_devices w w2.
Proof.
  intros Hw' [Ha Hn Hsp Hu Hid] (m & ms & Hm) Hs Hin. pose proof Hs as (Hea & Hen & Heu).
  assert (forall f, fixed_file name f -> exists w2 f, dev_file modules spins (SLASH :: name) w' = Done (w2, Ok f) /\ names_device w name f /\ same_devices w w2) as Hfix.
  { intros f Hf. exists w', f. split; [by apply open_fixed|]. split; [by left|done]. }
  unfold listing in Hin. rewrite !elem_of_app in Hin. destruct Hin as [Hin|[Hin|[Hin|Hin]]].
  - unfold FIXED_NAMES in Hin. rewrite !elem_of_cons in Hin.
    destruct Hin as [->|Hin]; [apply (Hfix (FInitrd (ramdisk_new m.1 m.2))); right; eauto 10|].
    assert (exists f, fixed_file name f) as [f Hf]; [|by apply (Hfix f)].
    repeat (destruct Hin as [->|Hin]; [eexists; left; cbn; tauto|]). by apply elem_of_nil in Hin.
  - destruct (elem_of_names _ _ _ Hin) as (i & Hi & ->). rewrite <- Hea in Hi.
    destruct (lookup_lt_is_Some_2 (dw_ahci w') i Hi) as [d Hd].
    destruct (open_disk i d w' (fun w2 r => exists t, r = Ok (FDisk t) /\ ab_device t = d /\ same_devices w' w2)) as (w2 & r & Hr & t & -> & Ht & Hs2);
      [done|done|lia|by intros w2 t Ht _ Hs2; exists t|].
    exists w2, (FDisk t). split; [exact Hr|]. split; [|by eapply same_devices_trans]. right. left. exists i, t. by rewrite <- Hea, Ht.
  - destruct (elem_of_namespaces _ _ _ Hin) as (i & n & d & Hi & Hlt & ->). rewrite Z.add_0_l. rewrite <- Hen in Hi.
    pose proof (lookup_lt_Some _ _ _ Hi). pose proof (Hsp d (list_elem_of_lookup_2 _ _ _ Hi)).
    pose proof (open_namespace i n d w' Hw' Hi ltac:(lia) ltac:(lia)) as Ho. destruct (Nat.ltb_spec n (count d)); [|lia].
    destruct Ho as (w2 & t & Hr & Hat & _ & Hs2). exists w2, (FNvme t). split; [exact Hr|]. split; [|by eapply same_devices_trans].
    right. right. left. exists i, n, d, t. by rewrite <- Hen.
  - apply list_elem_of_fmap in Hin as ([id blocks] & -> & Hin). exists w', (FUsb (mk_Usb id blocks 0)). rewrite <- Heu in Hin.
    split; [|split; [|done]].
    + apply open_usb; [done|done|]. unfold online_devices in Hin. apply list_elem_of_fmap in Hin as (d & [= -> ->] & [_ Hd]%list_elem_of_filter).
      rewrite Forall_forall in Hid. by apply Hid.
    + right. right. right. exists id, blocks. by rewrite <- Heu.
Qed.

(** Every device has a listed name. *)
Lemma named_listed w name f : names_device w name f ->
  name ∈ listing w.
Proof.
  assert (forall ds i j n d, ds !! j = Some d -> (n < count d)%nat -> nvme_name (i + Z.of_nat j) (Z.of_nat n) ∈ namespace_names ds i) as Hns.
  { induction ds as [|d0 ds IH]; intros i j n d Hj Hn; [done|]. cbn [namespace_names]. apply elem_of_app. destruct j as [|j]; cbn in Hj.
    - injection Hj as ->. left. rewrite Z.add_0_r. apply list_elem_of_fmap_2, elem_of_seqZ. lia.
    - right. replace (i + Z.of_nat (S j)) with (i + 1 + Z.of_nat j) by lia. by apply (IH _ _ _ d). }
  intros [Hf|[(i & t & Hi & -> & _)|[(i & n & d & t & Hi & Hn & -> & _)|(id & blocks & Hin & -> & _)]]]; unfold listing; rewrite !elem_of_app.
  - left. unfold FIXED_NAMES. rewrite !elem_of_cons. destruct Hf as [Hf|[-> _]]; [|by left]. cbn in Hf. naive_solver.
  - right. left. apply (list_elem_of_fmap_2 disk_name), elem_of_seqZ. apply lookup_lt_Some in Hi. lia.
  - right. right. left. apply (Hns _ 0 _ _ d); [done|]. by apply lookup_lt_Some in Hn.
  - right. right. right. apply list_elem_of_fmap. by exists (id, blocks).
Qed.

Lemma dev_directory_lists w : ok w ->
  exists w', dev_directory spins (bytes_of "/") w = Done (w', Ok (snapshot_new (dirent_new false <$> listing w))) /\ ok w' /\ same_devices w w'.
Proof.
  intros Hw. destruct (wp_listed w (fun w' r => r = Ok (listing w) /\ ok w' /\ same_devices w w')) as (w' & r & Hr & -> & HQ); [done|done|].
  exists w'. split; [|exact HQ]. unfold dev_directory. rewrite (bool_decide_true (bytes_of "/" = bytes_of "/")) by done. cbn [negb andb].
  by rewrite (p_bind_Ok _ _ _ _ _ Hr).
Qed.

(** Zero as a frequency is a division by zero in the kernel. *)
Lemma pcspk_zero_panics w : dev_write spins w FPcspk (bytes_of "0") = Panic.
Proof. reflexivity. Qed.
End Names.

(** ** The theorem *)

(** The listing of [/dev] and the search for a name agree: on working drivers
    the listing returns, has a name for every device of every kind, and every name of
    it opens, to the device it was listed for (a numbered AHCI disk, a namespace of a
    numbered NVMe controller, an online USB disk, the RAM disk, a stream), at its
    start and without changing which devices there are. *)
Theorem devfs_listing_resolves `{BitField} {off : Z} {W M C Heap T P X V : Type} `{Hardware W} `{Translator M} `{Mapper M}
    `{GlobalAlloc Heap} `{Cr : !NvmeCrate (Memory off W M) C} `{Terminal T} `{Ports P} `{WidePorts P} `{UsbReader X} `{Firmware V}
    (m : Z * Z) (ms : list (Z * Z)) (spins : nat)
    (w : DevWorld (off := off) (W := W) (M := M) (C := C) (Heap := Heap) (T := T) (P := P) (X := X))
    (ok : DevWorld -> Prop) (spaces : NvmeDevice (NvmeCrate := Cr) -> list (Namespace (NvmeCrate := Cr))) :
  devices_work spins ok spaces -> ok w -> numbered spaces w ->
  exists w' names, dev_directory spins (bytes_of "/") w = Done (w', Ok (snapshot_new (dirent_new false <$> names))) /\ same_devices w w' /\
    (forall name f, names_device (Some (m :: ms)) spaces w name f -> name ∈ names) /\
    (forall name, name ∈ names -> exists w2 f, dev_file (Some (m :: ms)) spins (SLASH :: name) w' = Done (w2, Ok f) /\
       names_device (Some (m :: ms)) spaces w name f /\ same_devices w w2).
Proof.
  intros Hwork Hw Hn. destruct (dev_directory_lists spins ok spaces Hwork w Hw) as (w' & Hr & Hw' & Hs).
  exists w', (listing spaces w). split; [done|]. split; [done|]. split; [intros name f; apply named_listed|].
  intros name. apply (listed_opens (Some (m :: ms)) spins ok spaces Hwork); [done|by eapply numbered_same|by eexists _, _|done].
Qed.

(** One disk of each kind: the port of [AhciDisk], and a crate that knows one
    namespace of four blocks and does no command. *)
Module Sample.
#[export] Instance sample_terminal : Terminal unit := {
  process t _ := (t, []); handle_keyboard t _ := (t, []); terminal_mouse t _ := (t, []) }.
#[export] Instance sample_ports : Ports unit := { inb p _ := (p, 0x20); outb p _ _ := p }.
#[export] Instance sample_wide : WidePorts unit := { inw p _ := (p, 0); outw p _ _ := p; outl p _ _ := p }.
#[export] Instance sample_reader : UsbReader unit := { read_usb_blocks w _ _ buf := Done (w.1, w.2, buf, true) }.
#[export] Instance sample_firmware : Firmware unit := {
  s5_object := None; as_integer _ := None; pm1a_control_block := None; reset_register := None; reset_value := 0 }.
#[export] Instance sample_crate : NvmeCrate (Memory example_off AhciDisk.Sample.SamplePort unit) unit := {
  Namespace := unit; NvmeDevice := unit; ns_block_size _ := 512; ns_block_count _ := 4;
  device_init _ k c _ := Done (k, c, Ok tt);
  identify_namespaces _ k c _ _ := Done (k, c, Ok [tt]);
  create_io_queue_pair _ k c _ _ _ := Done (k, c, Ok (1, 7));
  device_model_number _ _ := bytes_of "sample";
  qp_read _ k c _ _ _ _ := Done (k, c, Err tt);
  qp_flush _ k c _ := Done (k, c, Err tt);
  qp_drop _ k c _ := Done (k, c);
}.
End Sample.
#[local] Existing Instances z_bit_field NvmeDisk.Sample.sample_heap AhciDisk.Sample.sample_hardware AhciDisk.Sample.sample_port NvmeDisk.Sample.sample_translator
  NvmeDisk.Sample.sample_mapper Sample.sample_crate Sample.sample_terminal Sample.sample_ports Sample.sample_wide Sample.sample_reader Sample.sample_firmware.

Abbreviation SampleWorld := (DevWorld (Cr := Sample.sample_crate) (Heap := NvmeDisk.Sample.heap) (T := unit) (P := unit) (X := unit)).
Definition sample_layout : Layout := mk_Layout 0x5000 0x6000 0x7000 0x8000.
Definition sample_ahci : Ahci := device_of (off := example_off) (port := AhciDisk.Sample.PORT) sample_layout.
Definition sample_console : Console unit unit := mk_Console tt tt [] [] true ModeSerialTty true 0 0 0.
Definition sample_board : Board example_off AhciDisk.Sample.SamplePort :=
  mk_Board (example_pm 4) (built sample_layout (fun _ => 0)) []
    (AhciDisk.Sample.mk_SamplePort (regs_of sample_layout) false None false).
Definition sample_world : SampleWorld :=
  mk_DevWorld sample_console (mk_NvmeKernel (Cr := Sample.sample_crate) (mk_Memory sample_board tt) tt (example_off + 0x100000, []) [tt : NvmeDevice])
    [sample_ahci] ([mk_Record 0 8 false; mk_Record 1 16 true], tt).
Definition sample_ok (w : SampleWorld) : Prop :=
  dw_ahci w = [sample_ahci] /\ port_ready (port := AhciDisk.Sample.PORT) sample_layout (ahci_view w).
Definition sample_spaces (d : NvmeDevice (NvmeCrate := Sample.sample_crate)) : list (Namespace (NvmeCrate := Sample.sample_crate)) := [tt].

Lemma sample_world_ok : sample_ok sample_world.
Proof.
  split; [done|]. eapply (built_ready (port := AhciDisk.Sample.PORT) 3 sample_latency sample_layout _ (fun _ => 0)).
  - split; vm_compute; intuition congruence.
  - by split.
  - intros i _. change (mem _) with (bo_mem sample_board). reflexivity.
Qed.

Lemma sample_works : devices_work 3 sample_ok sample_spaces.
Proof.
  split.
  - intros w d [Hw HR] Hd. rewrite Hw in Hd. apply list_elem_of_singleton in Hd as ->.
    exists AhciDisk.Sample.PORT, AhciDisk.Sample.sample_port, sample_layout. split; [cbn; lia|]. split; [done|]. split; [exact HR|].
    intros hw m HR' _. split; [exact Hw|exact HR'].
  - intros w d Hw Hd. eexists _, _. split; [reflexivity|]. exact Hw.
  - intros w d ns Hw Hd _. eexists _, _, _. split; [reflexivity|]. exact Hw.
  - intros w qp Hw. eexists _, _. split; [reflexivity|]. exact Hw.
Qed.

Lemma devfs_listing_resolves_witness :
  exists w' names, dev_directory 3 (bytes_of "/") sample_world = Done (w', Ok (snapshot_new (dirent_new false <$> names))) /\
    bytes_of "disk0" ∈ names /\ bytes_of "usb1" ∈ names /\
    exists w2 f, dev_file (Some [(example_off, 512)]) 3 (SLASH :: bytes_of "usb1") w' = Done (w2, Ok f).
Proof.
  destruct (devfs_listing_resolves (V := unit) (example_off, 512) [] 3 sample_world sample_ok sample_spaces) as (w' & names & Hr & _ & Hall & Hopen).
  - exact sample_works.
  - exact sample_world_ok.
  - split; [by vm_compute|by vm_compute| |by apply (bool_decide_unpack _)|].
    + intros d _. by vm_compute.
    + repeat constructor; by vm_compute.
  - assert (bytes_of "usb1" ∈ names) as Husb.
    { apply (Hall _ (FUsb (mk_Usb 1 16 0))). right. right. right. exists 1, 16. split; [by left|]. by split. }
    exists w', names. split; [exact Hr|]. split; [|split; [exact Husb|]].
    + apply (Hall _ (FDisk (mk_AhciBlockDevice sample_ahci (identify_from []) 0))). right. left. exists 0%nat, (mk_AhciBlockDevice sample_ahci (identify_from []) 0). by split_and!.
    + destruct (Hopen _ Husb) as (w2 & f & Hf & _). exists w2, f. exact Hf.
Defined.
