(* ===== verification/RootFs.v ===== *)
(** * The file system of a booted kernel

    [vfs::init] mounts three file systems: the FAT image of the initial RAM disk at
    [/], the devices at [/dev/] and the processes at [/proc/].  Together they are one
    tree, searched in this order; [Process::task_0] opens its first two files in it. *)

From S2P Require Import Prelude Words Bitmap PageAlloc PageTable Dma Machine Board Vfs Process Ipc Procfs Block UsbBlock Input Console Platform Fat Ahci AhciDisk Nvme NvmeDisk Devfs DevfsNames.

Section Root.
Context `{BitField} {off : Z} {W M C Heap T P X V : Type} `{Hardware W} `{Translator M} `{Mapper M} `{GlobalAlloc Heap}
  `{Cr : !NvmeCrate (Memory off W M) C} `{Terminal T} `{Ports P} `{WidePorts P} `{UsbReader X} `{Firmware V}.
Abbreviation Devices := (DevWorld (off := off) (W := W) (M := M) (C := C) (Heap := Heap) (T := T) (P := P) (X := X)).
Abbreviation Device := (DevFile (off := off) (W := W) (M := M) (C := C)).
(** The FAT crate works on the memory behind the RAM disk. *)
Context `{FC : !FatCrate Devices RamDisk}.
Context (cmdline : str) (modules : option (list (Z * Z))) (spins fuel : nat).

Record RootWorld := mk_RootWorld { rw_devices : Devices; rw_tasks : Tasks }.
Implicit Types (w : RootWorld) (d : Devices).

(** The objects behind [dyn VfsDirectory] and [dyn VfsFile]. *)
Inductive RootDir := RootFat (fs : WrappedFileSystem (Cr := FC)) | RootDev | RootProc.
Inductive RootFile := FileFat (f : WrappedFile (Cr := FC)) | FileDev (f : Device) | FileProc (f : ProcTextFile).
Abbreviation Table := (list (str * RootDir)).

Definition map_ok {A B E} (f : A -> B) (r : result A E) : result B E := match r with Ok a => Ok (f a) | Err e => Err e end.
Definition on_devices {A} (w : RootWorld) (m : Devices -> outcome (Devices * A)) : outcome (RootWorld * A) :=
  '(d, a) ← m (rw_devices w); Done (mk_RootWorld d (rw_tasks w), a).
Definition root_file w (fs : RootDir) (path : str) : outcome (RootWorld * result RootFile unit) :=
  match fs with
  | RootFat fs => on_devices w (fun d => '(d, r) ← fat_file d fs path; Done (d, map_ok FileFat r))
  | RootDev => on_devices w (fun d => '(d, r) ← dev_file modules spins path d; Done (d, map_ok FileDev r))
  | RootProc => Done (w, map_ok FileProc (proc_file cmdline (rw_tasks w) path))
  end.
Definition root_directory w (fs : RootDir) (path : str) : outcome (RootWorld * result SnapshotDirectory unit) :=
  match fs with
  | RootFat fs => on_devices w (fun d => fat_directory fuel d fs path)
  | RootDev => on_devices w (dev_directory spins path)
  | RootProc => Done (w, proc_directory (rw_tasks w) path)
  end.
Definition root_create w (fs : RootDir) (path : str) : outcome (RootWorld * result RootFile unit) :=
  match fs with
  | RootFat fs => on_devices w (fun d => '(d, r) ← fat_create d fs path; Done (d, map_ok FileFat r))
  | RootDev => on_devices w (fun d => '(d, r) ← dev_create modules spins path d; Done (d, map_ok FileDev r))
  | RootProc => Done (w, map_ok FileProc (proc_create path))
  end.
Definition root_remove w (fs : RootDir) (path : str) : outcome (RootWorld * bool) :=
  match fs with
  | RootFat fs => on_devices w (fun d => fat_remove d fs path)
  | RootDev => Done (w, dev_remove path)
  | RootProc => Done (w, proc_remove path)
  end.
#[global] Instance root_filesystem : VfsDirectory RootWorld RootFile SnapshotDirectory RootDir := {
  fs_file := root_file; fs_directory := root_directory; fs_create := root_create; fs_remove := root_remove;
}.

(** @ vfs/devfs/mod.rs:17-22 get_fs *)
Definition devfs_get_fs {Dev} (_ : option Dev) : result RootDir unit := Ok RootDev.
(** @ vfs/procfs/filesystem.rs:16-21 get_fs *)
Definition procfs_get_fs {Dev} (_ : option Dev) : result RootDir unit := Ok RootProc.

(** The FAT file system is opened on the way. *)
(** @ vfs/mod.rs:121-135 init *)
Definition vfs_init w : outcome (RootWorld * Table) :=
  files ← unwrap modules;
  file ← idx files 0;
  let disk := ramdisk_new file.1 file.2 in
  '(w, fs) ← on_devices w (fun d => '(d, r) ← fat_get_fs d (Some disk); Done (d, map_ok RootFat r));
  let '(table, r) := mount [] (Some disk) (bytes_of "/") (fun _ => fs) in
  _ ← unwrap_ok r;
  let '(table, r) := mount table (@None RamDisk) (bytes_of "/dev/") devfs_get_fs in
  _ ← unwrap_ok r;
  let '(table, r) := mount table (@None RamDisk) (bytes_of "/proc/") procfs_get_fs in
  _ ← unwrap_ok r;
  Done (w, table).

(** [.ok()] of a file, put behind an [Arc]. *)
Definition open_slot w (table : Table) (path : str) (store : list RootFile) : outcome (RootWorld * list RootFile * option nat) :=
  '(w, r) ← get_file w table path;
  Done (match r with Ok f => (w, store ++ [f], Some (length store)) | Err _ => (w, store, None) end).
(** @ task/process.rs:116-121 Process::task_0 -- the files *)
Definition task_0_files w (table : Table) (store : list RootFile) : outcome (RootWorld * list RootFile * list (option nat)) :=
  let files := replicate 64 None in
  '(w, store, f) ← open_slot w table (bytes_of "/dev/stderr") store;
  files ← set_idx files 0 f;
  '(w, store, f) ← open_slot w table (bytes_of "/dev/stdout") store;
  files ← set_idx files 1 f;
  Done (w, store, files).
(** The page table is the one of [t0_p4_table]. *)
(** @ task/process.rs:122-135 Process::task_0 -- the process *)
Definition task_0 (files : list (option nat)) (p4_table : Z) : Process :=
  mk_Process p4_table context_default FPU_INIT 10 0 0 None Runnable files (replicate 64 None) (replicate (Z.to_nat IPC_MAX_HANDLES) None).

(** The first task takes slot 0; its page table is loaded, and the boot goes on in
    user mode. *)
Definition put_first (tasks : Tasks) (p : Process) : Tasks := match tasks with [] => [Some p] | _ :: tasks => Some p :: tasks end.
(** @ task/mod.rs:50-87 init *)
Definition task_init `{PageTableEntry} w (table : Table) (store : list RootFile) (pt : Pt) (kernel_cr3 : Z)
    : outcome (RootWorld * list RootFile * Pt * Z) :=
  '(w, store, files) ← task_0_files w table store;
  '(pt, p4_table) ← t0_p4_table kernel_cr3 pt;
  base ← phys_to_virt off 0;
  new_cr3_va ← phys_to_virt off p4_table;
  new_cr3 ← sub_ovf new_cr3_va base;
  assert! new_cr3 mod 4096 =? 0;
  Done (mk_RootWorld (rw_devices w) (put_first (rw_tasks w) (task_0 files p4_table)), store, pt, new_cr3).

(** ** The search through the mounts *)

Lemma path_in_root path : path_in path (bytes_of "/") = Done path.
Proof.
  unfold path_in. change (sub_ovf (llen (bytes_of "/")) 1) with (Done 0). cbn [mbind outcome_bind]. unfold str_from, is_char_boundary.
  cbn [Z.eqb orb]. rewrite slice_in_range by (pose proof (llen_nonneg path); lia). f_equal. rewrite drop_0. apply take_ge. unfold llen. lia.
Qed.
(** Behind a mount point that ends in a slash, the path starts with this slash. *)
Lemma path_in_mount mp rest : path_in (mp ++ SLASH :: rest) (mp ++ [SLASH]) = Done (SLASH :: rest).
Proof.
  unfold path_in, sub_ovf. pose proof (llen_nonneg mp). rewrite llen_app. change (llen [SLASH]) with 1.
  rewrite (proj2 (Z.leb_le _ _)) by lia. cbn [mbind outcome_bind]. rewrite Z.add_simpl_r. unfold str_from, is_char_boundary, zget.
  rewrite bool_decide_true by done. assert (Z.to_nat (llen mp) = length mp) as Hn by (unfold llen; lia).
  rewrite Hn, lookup_app_r, Nat.sub_diag by done. cbn [lookup list_lookup]. change (negb ((0x80 <=? SLASH) && (SLASH <=? 0xbf))) with true.
  rewrite orb_true_r. rewrite slice_in_range by (rewrite ?llen_app, ?llen_cons; pose proof (llen_nonneg rest); lia).
  rewrite Hn, drop_app_length. f_equal. apply take_ge. unfold llen. rewrite length_app. lia.
Qed.

Definition boot_table (fs : WrappedFileSystem) : Table :=
  [(bytes_of "/", RootFat fs); (bytes_of "/dev/", RootDev); (bytes_of "/proc/", RootProc)].
Lemma vfs_init_table w w' table : vfs_init w = Done (w', table) -> exists fs, table = boot_table fs /\ rw_tasks w' = rw_tasks w.
Proof.
  unfold vfs_init, on_devices, fat_get_fs. intros Hi. destruct modules as [files|]; [|done]. cbn [unwrap mbind outcome_bind] in Hi.
  destruct (idx files 0) as [file| |]; [|done|done]. cbn [mbind outcome_bind] in Hi.
  destruct (fatfs_new _ _) as [[d [fs|e]]| |]; cbn in Hi; [|done|done|done]. injection Hi as <- <-. by eexists.
Qed.
Lemma vfs_init_mounts m ms w d fs :
  modules = Some (m :: ms) -> fatfs_new (rw_devices w) (ramdisk_new m.1 m.2) = Done (d, Ok fs) ->
  vfs_init w = Done (mk_RootWorld d (rw_tasks w), boot_table (mk_WrappedFileSystem fs)).
Proof.
  intros Hm Hf. unfold vfs_init, on_devices, fat_get_fs. rewrite Hm. cbn [unwrap mbind outcome_bind].
  change (idx (m :: ms) 0) with (Done m). cbn [mbind outcome_bind]. by rewrite Hf.
Qed.

(** The image of the RAM disk has nothing of a name below [prefix]; looking for one
    keeps the devices. *)
Record image_lacks (ok : Devices -> Prop) (fs : WrappedFileSystem) (prefix : str) : Prop := {
  il_file d path : ok d -> starts_with path prefix = true ->
    exists d', open_file d (root_dir (wf_fs fs)) path = Done (d', Err tt) /\ ok d' /\ same_devices d d';
  il_dir d path : ok d -> starts_with path prefix = true ->
    exists d', open_dir d (root_dir (wf_fs fs)) path = Done (d', Err tt) /\ ok d' /\ same_devices d d';
}.
Context (ok : Devices -> Prop) (fs : WrappedFileSystem).

Lemma get_file_below mp rest w : image_lacks ok fs (mp ++ [SLASH]) -> ok (rw_devices w) -> starts_with mp (bytes_of "/") = true ->
  exists d, ok d /\ same_devices (rw_devices w) d /\
    get_file w (boot_table fs) (mp ++ SLASH :: rest) = get_file (mk_RootWorld d (rw_tasks w)) (tail (boot_table fs)) (mp ++ SLASH :: rest).
Proof.
  intros [Hf _] Hw [r ->]%starts_with_spec. destruct (Hf (rw_devices w) ((bytes_of "/" ++ r) ++ SLASH :: rest) Hw) as (d & Ho & Hd & Hs).
  { apply starts_with_spec. exists rest. by rewrite <- (app_assoc _ [SLASH]). }
  exists d. split; [done|]. split; [done|]. unfold get_file. cbn [boot_table mount_lookup tail].
  rewrite <- (app_assoc (bytes_of "/")), starts_with_app, app_assoc, path_in_root. cbn [mbind outcome_bind fs_file root_filesystem root_file].
  unfold on_devices, fat_file. by rewrite Ho.
Qed.
Lemma get_directory_below mp w : image_lacks ok fs (mp ++ [SLASH]) -> ok (rw_devices w) -> starts_with mp (bytes_of "/") = true -> mp <> [SLASH] ->
  exists d, ok d /\ same_devices (rw_devices w) d /\
    get_directory w (boot_table fs) (mp ++ [SLASH]) = get_directory (mk_RootWorld d (rw_tasks w)) (tail (boot_table fs)) (mp ++ [SLASH]).
Proof.
  intros [_ Hf] Hw [r ->]%starts_with_spec Hne. destruct (Hf (rw_devices w) ((bytes_of "/" ++ r) ++ [SLASH]) Hw) as (d & Ho & Hd & Hs).
  { apply starts_with_spec. exists []. by rewrite app_nil_r. }
  exists d. split; [done|]. split; [done|]. unfold get_directory. cbn [boot_table mount_lookup tail].
  rewrite <- (app_assoc (bytes_of "/")), starts_with_app, app_assoc, path_in_root. cbn [mbind outcome_bind fs_directory root_filesystem root_directory].
  unfold on_devices, fat_directory. rewrite bool_decide_false; [|by destruct r]. rewrite bool_decide_false by done. cbn [orb].
  by rewrite Ho.
Qed.

(** Below [/dev/] and [/proc/] the other two answer. *)
Lemma tail_dev rest w :
  get_file w (tail (boot_table fs)) (bytes_of "/dev" ++ SLASH :: rest) =
  '(d, r) ← dev_file modules spins (SLASH :: rest) (rw_devices w);
  Done (mk_RootWorld d (rw_tasks w), map_ok FileDev r).
Proof.
  unfold get_file. cbn [boot_table mount_lookup tail]. change (bytes_of "/dev/") with (bytes_of "/dev" ++ [SLASH]).
  assert (starts_with (bytes_of "/dev" ++ SLASH :: rest) (bytes_of "/dev" ++ [SLASH]) = true) as ->
    by (apply starts_with_spec; exists rest; by rewrite <- app_assoc).
  rewrite path_in_mount. cbn [mbind outcome_bind fs_file root_filesystem root_file]. unfold on_devices.
  destruct (dev_file modules spins (SLASH :: rest) (rw_devices w)) as [[d [f|e]]| |]; cbn [mbind outcome_bind map_ok]; [done| |done|done].
  assert (starts_with (bytes_of "/dev" ++ SLASH :: rest) (bytes_of "/proc/") = false) as -> by done.
  by destruct e.
Qed.
Lemma tail_dev_directory w :
  get_directory w (tail (boot_table fs)) (bytes_of "/dev/") =
  '(d, r) ← dev_directory spins (bytes_of "/") (rw_devices w);
  match r with Ok dir => Done (mk_RootWorld d (rw_tasks w), Ok dir) | Err _ => Done (mk_RootWorld d (rw_tasks w), Err tt) end.
Proof.
  unfold get_directory. cbn [boot_table mount_lookup tail]. change (starts_with (bytes_of "/dev/") (bytes_of "/dev/")) with true.
  assert (path_in (bytes_of "/dev/") (bytes_of "/dev/") = Done (bytes_of "/")) as -> by done. cbn [mbind outcome_bind fs_directory root_filesystem root_directory]. unfold on_devices.
  by destruct (dev_directory spins (bytes_of "/") (rw_devices w)) as [[d [f|e]]| |].
Qed.
Lemma tail_proc rest w f :
  proc_file cmdline (rw_tasks w) (SLASH :: rest) = Ok f ->
  get_file w (tail (boot_table fs)) (bytes_of "/proc" ++ SLASH :: rest) = Done (w, Ok (FileProc f)).
Proof.
  intros Hf. unfold get_file. cbn [boot_table mount_lookup tail].
  change (starts_with (bytes_of "/proc" ++ SLASH :: rest) (bytes_of "/dev/")) with false.
  change (bytes_of "/proc/") with (bytes_of "/proc" ++ [SLASH]).
  assert (starts_with (bytes_of "/proc" ++ SLASH :: rest) (bytes_of "/proc" ++ [SLASH]) = true) as ->
    by (apply starts_with_spec; exists rest; by rewrite <- app_assoc).
  rewrite path_in_mount. cbn [mbind outcome_bind fs_file root_filesystem root_file]. by rewrite Hf.
Qed.

(** *** What the tree holds *)

Context (spaces : NvmeDevice (NvmeCrate := Cr) -> list (Namespace (NvmeCrate := Cr))).
Context (Hwork : devices_work spins ok spaces) (Hdev : image_lacks ok fs (bytes_of "/dev/")) (Hproc : image_lacks ok fs (bytes_of "/proc/")).
Abbreviation table := (boot_table fs).
Abbreviation ready d := (ok d /\ numbered spaces d).

Lemma dev_listed w : ready (rw_devices w) ->
  exists w', get_directory w table (bytes_of "/dev/") = Done (w', Ok (snapshot_new (dirent_new false <$> listing spaces (rw_devices w)))) /\
    ok (rw_devices w') /\ same_devices (rw_devices w) (rw_devices w').
Proof.
  intros [Hw Hn]. destruct (get_directory_below (bytes_of "/dev") w Hdev Hw eq_refl) as (d & Hd & Hs & Hg); [done|].
  change (bytes_of "/dev" ++ [SLASH]) with (bytes_of "/dev/") in Hg. rewrite Hg, tail_dev_directory. cbn [rw_devices rw_tasks]. destruct (dev_directory_lists spins ok spaces Hwork d Hd) as (d' & -> & Hd' & Hs').
  cbn [mbind outcome_bind]. exists (mk_RootWorld d' (rw_tasks w)). split; [|split; [exact Hd'|by eapply same_devices_trans]].
  unfold listing. pose proof Hs as (Ha & Hc & Hu). by rewrite Ha, Hc, Hu.
Qed.
Lemma dev_name_opens w d0 name : (exists m ms, modules = Some (m :: ms)) -> ready (rw_devices w) -> same_devices d0 (rw_devices w) ->
  name ∈ listing spaces d0 ->
  exists w' f, get_file w table (bytes_of "/dev/" ++ name) = Done (w', Ok (FileDev f)) /\ names_device modules spaces d0 name f.
Proof.
  intros Hm [Hw Hn] Hs0 Hin. change (bytes_of "/dev/" ++ name) with (bytes_of "/dev" ++ SLASH :: name).
  destruct (get_file_below (bytes_of "/dev") name w Hdev Hw eq_refl) as (d & Hd & Hs & ->). rewrite tail_dev. cbn [rw_devices rw_tasks].
  destruct (listed_opens modules spins ok spaces Hwork d0 d name) as (d2 & f & -> & Hf & _);
    [done|by eapply numbered_same|done|by eapply same_devices_trans|done|]. by eexists _, f.
Qed.
Lemma proc_exe_opens w pid p : ok (rw_devices w) -> 0 <= pid < 2 ^ 64 -> zget (rw_tasks w) pid = Some (Some p) ->
  exists w', get_file w table (bytes_of "/proc/" ++ decimal pid ++ bytes_of "/exe") = Done (w', Ok (FileProc (mk_Text (unwrap_or [] (exe_path p)) 0))).
Proof.
  intros Hw Hpid Hp. change (bytes_of "/proc/" ++ decimal pid ++ bytes_of "/exe") with (bytes_of "/proc" ++ SLASH :: (decimal pid ++ bytes_of "/exe")).
  destruct (get_file_below (bytes_of "/proc") (decimal pid ++ bytes_of "/exe") w Hproc Hw eq_refl) as (d & Hd & Hs & ->).
  pose proof (procfs_listing_resolves cmdline (rw_tasks w) pid Hpid) as Hl. rewrite Hp in Hl. destruct Hl as (_ & _ & Hl).
  eexists. by apply tail_proc.
Qed.

(** The first task's files. *)
Lemma stream_opens name f w store : fixed_file modules name f -> ok (rw_devices w) ->
  exists d, open_slot w table (bytes_of "/dev/" ++ name) store = Done (mk_RootWorld d (rw_tasks w), store ++ [FileDev f], Some (length store)) /\ ok d.
Proof.
  intros Hf Hw. unfold open_slot. change (bytes_of "/dev/" ++ name) with (bytes_of "/dev" ++ SLASH :: name).
  destruct (get_file_below (bytes_of "/dev") name w Hdev Hw eq_refl) as (d & Hd & Hs & ->). rewrite tail_dev. cbn [rw_devices rw_tasks].
  rewrite (open_fixed modules spins name f d Hf). cbn [mbind outcome_bind map_ok]. by exists d.
Qed.
Lemma first_files w store : ok (rw_devices w) ->
  exists w', task_0_files w table store =
    Done (w', store ++ [FileDev FStderr; FileDev FStdout], [Some (length store); Some (S (length store))] ++ replicate 62 None).
Proof.
  intros Hw. unfold task_0_files. destruct (stream_opens (bytes_of "stderr") FStderr w store) as (d & Ho & Hd); [left; cbn; tauto|done|].
  change (bytes_of "/dev/stderr") with (bytes_of "/dev/" ++ bytes_of "stderr"). rewrite Ho. cbn [mbind outcome_bind].
  change (set_idx (replicate 64 None) 0 (Some (length store))) with (Done (Some (length store) :: replicate 63 None)). cbn [mbind outcome_bind].
  destruct (stream_opens (bytes_of "stdout") FStdout (mk_RootWorld d (rw_tasks w)) (store ++ [FileDev FStderr])) as (d' & Ho' & _); [left; cbn; tauto|done|].
  change (bytes_of "/dev/stdout") with (bytes_of "/dev/" ++ bytes_of "stdout"). rewrite Ho'. cbn [mbind outcome_bind].
  rewrite <- app_assoc, length_app, Nat.add_comm. cbn [app length Nat.add].
  eexists. reflexivity.
Qed.
End Root.

(** ** The theorem *)

(** C13: A booted kernel has one tree that hangs together, when its devices work: a
    running port that obeys the AHCI laws behind every AHCI disk, an NVMe crate that
    reports the same namespaces of a controller each time and can always make another
    queue pair; fewer than 2^64 disks of a kind, with different USB identifiers; and a
    FAT image of the initial RAM disk that opens and answers not found below [/dev/]
    and [/proc/], leaving the devices alone.  Then [vfs::init] mounts the three file
    systems; [/dev/] lists a name for every device, and every name it lists opens
    through the mount table to that device; [/proc/<pid>/exe] of every live process
    holds the path of its program; and the first task gets the error stream as
    descriptor 0 and the output stream as descriptor 1. *)
Theorem booted_tree_resolves `{BitField} {off : Z} {W M C Heap T P X V : Type} `{Hardware W} `{Translator M} `{Mapper M}
    `{GlobalAlloc Heap} `{Cr : !NvmeCrate (Memory off W M) C} `{Terminal T} `{Ports P} `{WidePorts P} `{UsbReader X} `{Firmware V}
    `{FC : !FatCrate (DevWorld (off := off) (W := W) (M := M) (C := C) (Heap := Heap) (T := T) (P := P) (X := X)) RamDisk}
    (cmdline : str) (m : Z * Z) (ms : list (Z * Z)) (spins fuel : nat) (ok : DevWorld -> Prop)
    (spaces : NvmeDevice (NvmeCrate := Cr) -> list (Namespace (NvmeCrate := Cr))) (w0 : RootWorld) (d0 : DevWorld) (fs : FileSystem) :
  devices_work spins ok spaces -> fatfs_new (rw_devices w0) (ramdisk_new m.1 m.2) = Done (d0, Ok fs) -> ok d0 -> numbered spaces d0 ->
  image_lacks ok (mk_WrappedFileSystem fs) (bytes_of "/dev/") -> image_lacks ok (mk_WrappedFileSystem fs) (bytes_of "/proc/") ->
  exists w table, vfs_init (Some (m :: ms)) w0 = Done (w, table) /\
    let get_file := get_file (H := root_filesystem cmdline (Some (m :: ms)) spins fuel) in
    let get_directory := get_directory (H := root_filesystem cmdline (Some (m :: ms)) spins fuel) in
    (exists w1 names, get_directory w table (bytes_of "/dev/") = Done (w1, Ok (snapshot_new (dirent_new false <$> names))) /\
       (forall name f, names_device (Some (m :: ms)) spaces d0 name f -> name ∈ names) /\
       (forall name, name ∈ names -> exists w2 f, get_file w1 table (bytes_of "/dev/" ++ name) = Done (w2, Ok (FileDev f)) /\
          names_device (Some (m :: ms)) spaces d0 name f)) /\
    (forall pid p, 0 <= pid < 2 ^ 64 -> zget (rw_tasks w0) pid = Some (Some p) ->
       exists w2, get_file w table (bytes_of "/proc/" ++ decimal pid ++ bytes_of "/exe") = Done (w2, Ok (FileProc (mk_Text (unwrap_or [] (exe_path p)) 0)))) /\
    (forall store, exists w2, task_0_files cmdline (Some (m :: ms)) spins fuel w table store =
          Done (w2, store ++ [FileDev FStderr; FileDev FStdout], [Some (length store); Some (S (length store))] ++ replicate 62 None)).
Proof.
  intros Hwork Hfat Hd0 Hn Hdev Hproc. set (w := mk_RootWorld d0 (rw_tasks w0)). exists w, (boot_table (mk_WrappedFileSystem fs)).
  split; [by eapply vfs_init_mounts|]. cbv zeta. split; [|split].
  - destruct (dev_listed cmdline (Some (m :: ms)) spins fuel ok (mk_WrappedFileSystem fs) spaces Hwork Hdev w) as (w1 & Hl & Hw1 & Hs1); [done|].
    exists w1, (listing spaces d0). split; [exact Hl|]. split; [intros name f; apply named_listed|]. intros name Hin.
    eapply dev_name_opens; [done|done|by eexists _, _|split; [done|by eapply numbered_same]|done|done].
  - intros pid p Hpid Hp. by eapply proc_exe_opens.
  - intros store. by eapply first_files.
Qed.

(** An image without files, on the devices of [DevfsNames]. *)
Module Sample.
Definition devices : Type := DevWorld (Cr := DevfsNames.Sample.sample_crate) (off := example_off) (W := AhciDisk.Sample.SamplePort) (M := unit) (C := unit) (Heap := NvmeDisk.Sample.heap) (T := unit) (P := unit) (X := unit).
#[export] Instance sample_fat : FatCrate devices RamDisk := {
  FileSystem := unit; Dir := unit; DirIter := unit; File := Empty_set;
  fatfs_new w _ := Done (w, Ok tt);
  root_dir _ := tt;
  open_file w _ _ := Done (w, Err tt);
  open_dir w _ _ := Done (w, Err tt);
  create_file w _ _ := Done (w, Err tt);
  remove_entry w _ _ := Done (w, Err tt);
  dir_iter _ := tt;
  dir_next w _ := Done (w, tt, None);
  file_extents w f := match f with end;
  file_read w f _ := match f with end;
  file_write w f _ := match f with end;
  file_seek w f _ := match f with end;
}.
End Sample.
#[local] Existing Instances z_bit_field NvmeDisk.Sample.sample_heap AhciDisk.Sample.sample_hardware AhciDisk.Sample.sample_port NvmeDisk.Sample.sample_translator
  NvmeDisk.Sample.sample_mapper DevfsNames.Sample.sample_crate DevfsNames.Sample.sample_terminal DevfsNames.Sample.sample_ports
  DevfsNames.Sample.sample_wide DevfsNames.Sample.sample_reader DevfsNames.Sample.sample_firmware Sample.sample_fat.

Definition sample_root : RootWorld :=
  mk_RootWorld sample_world [None; Some (mk_Process 0 context_default [] 0 0 0 (Some (bytes_of "/sbin/doglinked")) Runnable [] [] [])].
Lemma sample_lacks prefix : image_lacks sample_ok (mk_WrappedFileSystem (Cr := Sample.sample_fat) tt) prefix.
Proof. split; intros d path Hd _; by exists d. Qed.
Lemma sample_numbered : numbered sample_spaces sample_world.
Proof.
  split; [by vm_compute|by vm_compute| |by apply (bool_decide_unpack _)|].
  - intros d _. by vm_compute.
  - repeat constructor; by vm_compute.
Qed.

Lemma booted_tree_resolves_witness :
  exists w table, vfs_init (Some [(example_off, 512)]) sample_root = Done (w, table) /\
    (exists w2, get_file (H := root_filesystem [] (Some [(example_off, 512)]) 3 1) w table (bytes_of "/proc/1/exe") =
       Done (w2, Ok (FileProc (mk_Text (bytes_of "/sbin/doglinked") 0)))) /\
    (exists w2, task_0_files [] (Some [(example_off, 512)]) 3 1 w table [] =
       Done (w2, [FileDev FStderr; FileDev FStdout], [Some 0%nat; Some 1%nat] ++ replicate 62 None)).
Proof.
  destruct (booted_tree_resolves (V := unit) (FC := Sample.sample_fat) [] (example_off, 512) [] 3 1 sample_ok sample_spaces sample_root sample_world tt) as (w & table & Hi & _ & Hp & Ht).
  - exact sample_works.
  - reflexivity.
  - exact sample_world_ok.
  - exact sample_numbered.
  - apply sample_lacks.
  - apply sample_lacks.
  - exists w, table. split; [exact Hi|]. split.
    + destruct (Hp 1 (mk_Process 0 context_default [] 0 0 0 (Some (bytes_of "/sbin/doglinked")) Runnable [] [] [])) as (w2 & Hf); [lia|reflexivity|].
      exists w2. exact Hf.
    + destruct (Ht []) as (w2 & Hf). exists w2. exact Hf.
Defined.
