(* ===== verification/App.v ===== *)
(** * User programs and what they see of the system

    A program is a sequence of system calls.  The kernel, the devices and the
    other processes are an environment that answers each call by any function
    of the calls before it, so that a theorem holds whatever they do; the log of
    calls and answers is the program's state.  A program ends by [exit] or by a
    successful [exec]. *)

From S2P Require Import Prelude Words Vfs Process.

(** ** Calls, answers and the log *)

(** The calls of [app-rt]; [Store] is a volatile store to the frame buffer. *)
Inductive Action :=
  | Write (fd : Z) (s : str) | Fork | Exec (path : str) | Exit | Read | Brk (addr : Z) | Waitpid (pid : Z)
  | Getticks | Info (tp : Z) | Open (name : str) (do_create : bool) | Read2 (fd cap : Z) | Read3 (fd cap : Z)
  | Seek (fd offset from : Z) | Close (fd : Z) | Remove (name : str) | Mount (typ disk part : Z) (mountpoint : str)
  | Opendir (path : str) | Getdents (fd cap : Z) | Closedir (fd : Z)
  | IpcCreate | Send (handle : Z) (buf : list Z) | Recv (handle cap : Z) | IpcClose (handle : Z)
  | Bind (name : str) | Connect (name : str) | Accept (handle : Z)
  | Store (addr value : Z).
(** The number in the result register, and the bytes written at the start of the buffer. *)
Record Answer := mk_Answer { a_val : Z; a_data : list Z }.
Definition Event : Type := Action * Answer.
Class Env := env : list Event -> Action -> Answer.
Inductive Stop := Exited | Replaced.
(** The log, its newest event first. *)
Abbreviation app A := (prog (list Event) Stop A).

(** [buf] after a call has written [data] at its start. *)
Definition fill (buf data : list Z) : list Z := take (length buf) (data ++ drop (length data) buf).
Definition SEEK_END : Z := 1.
Definition SEEK_SET : Z := 2.
Definition IPC_EAGAIN : Z := -11.

Section Calls.
Context `{Env}.

Definition call (a : Action) : app Answer := fun log => let ans := env log a in Done ((a, ans) :: log, Ok ans).
Definition call_ (a : Action) : app unit := _ ←! call a; p_ret tt.
Definition call_val (a : Action) : app Z := ans ←! call a; p_ret (a_val ans).
(** [usize::MAX], or a negative number, stands for [None]. *)
Definition call_opt (a : Action) : app (option Z) := v ←! call_val a; p_ret (if v =? U64_MAX then None else Some v).
Definition call_handle (a : Action) : app (option Z) := v ←! call_val a; p_ret (if v <? 0 then None else Some v).

Definition sys_write (fd : Z) (s : str) : app unit := call_ (Write fd s).
Definition sys_fork : app Z := call_val Fork.
(** [exec] comes back when it failed: a number other than 0. *)
Definition sys_exec (path : str) : app unit := v ←! call_val (Exec path); if v =? 0 then p_err Replaced else p_ret tt.
Definition sys_exit {A} : app A := _ ←! call Exit; p_err Exited.
Definition raw_sys_read : app Z := v ←! call_val Read; p_ret (wrap 8 v).
(** [fuel] bounds the number of polls of an empty queue. *)
Fixpoint sys_read (fuel : nat) : app Z :=
  match fuel with
  | O => fun _ => OutOfFuel
  | S fuel => ch ←! raw_sys_read; if ch =? 0xff then sys_read fuel else p_ret ch
  end.
Definition sys_open (name : str) (do_create : bool) : app (option Z) := call_opt (Open name do_create).
Definition sys_read2 (fd : Z) (buf : list Z) : app (list Z) := ans ←! call (Read2 fd (llen buf)); p_ret (fill buf (a_data ans)).
Definition sys_read3 (fd : Z) (buf : list Z) : app (list Z * Z) :=
  ans ←! call (Read3 fd (llen buf)); p_ret (fill buf (a_data ans), a_val ans).
Definition sys_ipc_recv (handle : Z) (buf : list Z) : app (list Z * Z) :=
  ans ←! call (Recv handle (llen buf)); p_ret (fill buf (a_data ans), a_val ans).
Definition sys_ipc_create : app (option (Z * Z)) :=
  ans ←! call IpcCreate; p_ret (if a_val ans <? 0 then None else Some (a_val ans, from_le (a_data ans))).

(** The formatted text reaches [sys_write] in pieces; here it is one write of
    their concatenation. *)
(** @ app-rt/src/lib.rs:414-417 _print *)
Definition print (s : str) : app unit := sys_write 1 s.
(** @ app-rt/src/lib.rs:439-442 _eprint *)
Definition eprint (s : str) : app unit := sys_write 0 s.
Definition println (s : str) : app unit := print (s ++ [10]).
Definition eprintln (s : str) : app unit := eprint (s ++ [10]).

(** [old_brk + (1 << 23)] is the heap the global allocator is given. *)
(** @ apps/upppd/src/main.rs:39-56 init_heap *)
Definition init_heap : app unit :=
  old_brk ←! call_val (Brk 0);
  new_brk ←! p_lift (add_ovf 64 old_brk (Z.shiftl 1 23));
  call_ (Brk new_brk).

(** ** Polling *)

(** @ apps/init/src/netdump.rs:5-13 recv_poll *)
Fixpoint recv_poll (fuel : nat) (handle : Z) (buf : list Z) : app (list Z * Z) :=
  match fuel with
  | O => fun _ => OutOfFuel
  | S fuel =>
      '(buf, recv_len) ←! sys_ipc_recv handle buf;
      if negb (recv_len =? IPC_EAGAIN) then p_ret (buf, recv_len) else recv_poll fuel handle buf
  end.
(** @ apps/init/src/netdump.rs:15-22 connect_poll *)
Fixpoint connect_poll (fuel : nat) (name : str) : app Z :=
  match fuel with
  | O => fun _ => OutOfFuel
  | S fuel => h ←! call_handle (Connect name); match h with Some handle => p_ret handle | None => connect_poll fuel name end
  end.
(** @ apps/ipc-demo/src/main.rs:28-35 accept_poll *)
Fixpoint accept_poll (fuel : nat) (listener : Z) : app Z :=
  match fuel with
  | O => fun _ => OutOfFuel
  | S fuel => h ←! call_handle (Accept listener); match h with Some handle => p_ret handle | None => accept_poll fuel listener end
  end.

(** ** A line from the keyboard *)

(** The bytes go into [buf] from [i] on. *)
Fixpoint read_line_loop (polls fuel : nat) (buf : list Z) (i : Z) : app (list Z * Z) :=
  match fuel with
  | O => p_ret (buf, llen buf)
  | S fuel =>
      c ←! sys_read polls;
      if c =? 10 then p_ret (buf, i) else
      buf ←! p_lift (set_idx buf i c);
      read_line_loop polls fuel buf (i + 1)
  end.
(** @ apps/init/src/main.rs:20-28 read_line *)
Definition read_line (polls : nat) (buf : list Z) : app (list Z * Z) := read_line_loop polls (length buf) buf 0.
End Calls.

(** ** Numbers in text *)

Definition hex_digit (d : Z) : Z := if d <? 10 then 48 + d else 55 + d.
(** [{:0nX}] of a number of at most [n] digits. *)
Fixpoint hex (n : nat) (z : Z) : str := match n with O => [] | S n => hex n (z / 16) ++ [hex_digit (z mod 16)] end.
(** [{:?}] of a byte array. *)
Fixpoint join (sep : str) (l : list str) : str :=
  match l with [] => [] | [x] => x | x :: l => x ++ sep ++ join sep l end.
Definition debug_bytes (l : list Z) : str := bytes_of "[" ++ join (bytes_of ", ") (decimal <$> l) ++ bytes_of "]".
(** A signed number. *)
Definition decimal_signed (z : Z) : str := if z <? 0 then bytes_of "-" ++ decimal (- z) else decimal z.

(** ** Reasoning about programs

    [safe m log Q]: from the log [log] the program does not panic, and if it comes
    back [Q] holds of the log and of what it returns.  The loops of a server have
    no bound of their own; whether the environment lets them come back is stated
    separately. *)
Definition safe {A} (m : app A) (log : list Event) (Q : list Event -> result A Stop -> Prop) : Prop :=
  match m log with Done (log', r) => Q log' r | Panic => False | OutOfFuel => True end.

Section Safe.
Context `{Env}.
Implicit Types (log : list Event).

Lemma safe_ret {A} (a : A) log Q : Q log (Ok a) -> safe (p_ret a) log Q.
Proof. done. Qed.
Lemma safe_err {A} e log (Q : list Event -> result A Stop -> Prop) : Q log (Err e) -> safe (p_err e) log Q.
Proof. done. Qed.
Lemma safe_lift {A} (m : outcome A) a log Q : m = Done a -> Q log (Ok a) -> safe (p_lift m) log Q.
Proof. intros -> HQ. done. Qed.
Lemma safe_bind {A B} (m : app A) (k : A -> app B) log Q :
  safe m log (fun log' r => match r with Ok a => safe (k a) log' Q | Err e => Q log' (Err e) end) -> safe (p_bind m k) log Q.
Proof.
  unfold safe, p_bind. destruct (m log) as [[log' [a|e]]| |]; cbn; auto.
Qed.
Lemma safe_mono {A} (m : app A) log (P Q : list Event -> result A Stop -> Prop) :
  safe m log P -> (forall log' r, P log' r -> Q log' r) -> safe m log Q.
Proof. unfold safe. intros HP HPQ. destruct (m log) as [[log' r]| |]; auto. Qed.
Lemma safe_call a log Q : Q ((a, env log a) :: log) (Ok (env log a)) -> safe (call a) log Q.
Proof. done. Qed.
Lemma safe_stuck {A} log (Q : list Event -> result A Stop -> Prop) : safe (fun _ => OutOfFuel) log Q.
Proof. done. Qed.
Lemma safe_wp {A} (m : app A) log Q : wp m log Q -> safe m log Q.
Proof. intros (log' & r & Hm & HQ). unfold safe. by rewrite Hm. Qed.
Lemma safe_no_panic {A} (m : app A) log Q : safe m log Q -> no_panic (m log).
Proof. unfold safe, no_panic. intros Hs E. by rewrite E in Hs. Qed.

Lemma safe_returns {A} (m : app A) log Q : safe m log Q -> returns (m log) -> wp m log Q.
Proof. unfold safe. intros Hs [[log' r] Hm]. rewrite Hm in Hs. by exists log', r. Qed.

Lemma wp_call a log Q : Q ((a, env log a) :: log) (Ok (env log a)) -> wp (call a) log Q.
Proof. intros HQ. by eexists _, _. Qed.
Lemma wp_call_ a log Q : Q ((a, env log a) :: log) (Ok tt) -> wp (call_ a) log Q.
Proof. intros HQ. by eexists _, _. Qed.
End Safe.

(** The text of the standard output, oldest first. *)
Definition text_of (fd : Z) (e : Event) : str := match e.1 with Write f s => if f =? fd then s else [] | _ => [] end.
Definition output (fd : Z) (log : list Event) : str := concat (text_of fd <$> reverse log).

Lemma output_cons fd e log : output fd (e :: log) = output fd log ++ text_of fd e.
Proof. unfold output. rewrite reverse_cons, fmap_app, concat_app. cbn. by rewrite app_nil_r. Qed.

(** ** Directory entries as programs see them *)

(** @ app-rt/src/lib.rs:243-250 DirEntry::name *)
Definition user_name (e : DirEntry) : str :=
  let n := match list_find (fun x => x = 0) (name e) with Some (i, _) => i | None => Z.to_nat DIRENT_NAME_CAP end in
  let bytes := take n (name e) in
  if utf8_valid bytes then bytes else [].
(** @ app-rt/src/lib.rs:252-254 DirEntry::is_dir *)
Definition user_is_dir (e : DirEntry) : bool := negb (is_dir e =? 0).

Lemma concat_piece {A} k (ls : list (list A)) i x :
  Forall (fun l => length l = k) ls -> ls !! i = Some x -> take k (drop (k * i) (concat ls)) = x.
Proof.
  intros Hl. revert i. induction Hl as [|y ls Hy Hl IH]; intros i Hi; [done|]. cbn [concat].
  destruct i as [|i]; cbn in Hi.
  - injection Hi as ->. rewrite Nat.mul_0_r, drop_0. by rewrite take_app_length' by done.
  - replace (k * S i)%nat with (length y + k * i)%nat by lia. rewrite <- drop_drop, drop_app_length. by apply IH.
Qed.

Lemma dirent_bytes_len d n : length (dirent_bytes (dirent_new d n)) = 256%nat.
Proof.
  unfold dirent_bytes, dirent_new, dirent_empty. cbn [name is_dir length].
  rewrite length_app, length_take, length_drop, length_replicate. unfold DIRENT_NAME_CAP, llen. lia.
Qed.

(** A name the kernel can store whole: valid UTF-8 without NUL, short enough. *)
Definition storable (n : str) : Prop := utf8_valid n = true /\ ~ (0 ∈ n) /\ llen n <= 254.

Lemma user_name_new d n : storable n -> user_name (dirent_new d n) = n.
Proof.
  intros (Hu & Hz & Hl). pose proof (llen_nonneg n). unfold user_name, dirent_new, DIRENT_NAME_CAP. cbn [name].
  replace (Z.min (llen n) (255 - 1)) with (llen n) by lia. unfold llen. rewrite Nat2Z.id, (take_ge n (length n)) by lia.
  unfold dirent_empty, DIRENT_NAME_CAP. cbn [name]. change (Z.to_nat 255) with 255%nat. rewrite drop_replicate.
  destruct (255 - length n)%nat as [|k] eqn:Ek; [unfold llen in Hl; lia|]. cbn [replicate].
  destruct (list_find (fun x => x = 0) (n ++ 0 :: replicate k 0)) as [[i x]|] eqn:Ef.
  - apply list_find_Some in Ef as (Hi & -> & Hmin).
    assert (i = length n) as ->.
    { destruct (Nat.lt_trichotomy i (length n)) as [Hlt|[He|Hgt]]; [|done|].
      - rewrite lookup_app_l in Hi by done. exfalso. apply Hz. by eapply list_elem_of_lookup_2.
      - exfalso. apply (Hmin (length n) 0); [by rewrite list_lookup_middle|done|done]. }
    by rewrite take_app_length, Hu.
  - exfalso. apply list_find_None in Ef. rewrite Forall_app, Forall_cons in Ef. by destruct Ef as (_ & Hne & _).
Qed.

