(* ===== verification/Rt.v ===== *)
(** * The user programs' runtime: [app-rt/src/lib.rs]

    Every wrapper is a piece of inline assembly: registers it sets, [int 0x80],
    and registers it declares as outputs.  The compiler relies on the rest being
    unchanged.  Here the wrappers call the kernel's own dispatcher. *)

From S2P Require Import Prelude Words Bitmap PageAlloc PageTable Process Ipc Sched Lifecycle Vfs Procfs Syscall Interrupt App.

(** ** Inline assembly *)

(** The operands of an [asm!] block around [int 0x80]: the inputs with their values,
    and the registers declared as outputs. *)
Record Asm := mk_Asm { asm_in : list (Reg * Z); asm_out : list Reg }.
Definition load_inputs (a : Asm) (c : ProcessContext) : ProcessContext :=
  foldl (fun c '(r, v) => set_reg c r v) c (asm_in a).

(** A [&str] or a slice, and the output that is [usize::MAX] for [None]. *)
Record Slice := mk_Slice { as_ptr : Z; len : Z }.
Definition non_max (v : Z) : option Z := if v =? U64_MAX then None else Some v.
Definition non_negative (v : Z) : option Z := if v <? 0 then None else Some v.

(** ** The [asm!] blocks *)

(** @ app-rt/src/lib.rs:5-8 sys_test -- the asm block *)
Definition asm_test : Asm := mk_Asm [(RAX, 0)] [].
(** @ app-rt/src/lib.rs:14-20 sys_write -- the asm block *)
Definition asm_write (fd : Z) (buf : Slice) : Asm := mk_Asm [(RAX, 1); (RDI, fd); (RSI, as_ptr buf); (RCX, len buf)] [].
(** @ app-rt/src/lib.rs:27-31 sys_fork -- the asm block *)
Definition asm_fork : Asm := mk_Asm [(RAX, 2)] [RCX].
(** @ app-rt/src/lib.rs:38-43 sys_exec -- the asm block *)
Definition asm_exec (path : Slice) : Asm := mk_Asm [(RAX, 3); (RDI, as_ptr path); (RCX, len path)] [].
(** @ app-rt/src/lib.rs:49-52 sys_exit -- the asm block *)
Definition asm_exit : Asm := mk_Asm [(RAX, 4)] [].
(** @ app-rt/src/lib.rs:60-64 raw_sys_read -- the asm block *)
Definition asm_read : Asm := mk_Asm [(RAX, 5)] [RCX].
(** @ app-rt/src/lib.rs:79-83 sys_waitpid -- the asm block *)
Definition asm_waitpid (pid : Z) : Asm := mk_Asm [(RAX, 8); (RDI, pid)] [].
(** @ app-rt/src/lib.rs:90-94 sys_getpid -- the asm block *)
Definition asm_getpid : Asm := mk_Asm [(RAX, 9)] [RCX].
(** @ app-rt/src/lib.rs:102-106 sys_getticks -- the asm block *)
Definition asm_getticks : Asm := mk_Asm [(RAX, 10)] [RCX].
(** @ app-rt/src/lib.rs:114-119 sys_info -- the asm block *)
Definition asm_info (tp : Z) : Asm := mk_Asm [(RAX, 11); (RDI, tp)] [RCX].
(** @ app-rt/src/lib.rs:130-137 sys_open -- the asm block *)
Definition asm_open (name : Slice) (do_create : bool) : Asm :=
  mk_Asm [(RAX, 12); (RDI, as_ptr name); (RCX, len name); (R10, b2z do_create)] [RSI].
(** @ app-rt/src/lib.rs:147-153 sys_read2 -- the asm block *)
Definition asm_read2 (fd : Z) (buf : Slice) : Asm := mk_Asm [(RAX, 13); (RSI, fd); (RDI, as_ptr buf); (RCX, len buf)] [].
(** @ app-rt/src/lib.rs:160-167 sys_read3 -- the asm block *)
Definition asm_read3 (fd : Z) (buf : Slice) : Asm := mk_Asm [(RAX, 22); (RSI, fd); (RDI, as_ptr buf); (RCX, len buf)] [R10].
(** @ app-rt/src/lib.rs:179-186 sys_seek -- the asm block *)
Definition asm_seek (fd offset from : Z) : Asm := mk_Asm [(RAX, 14); (RSI, fd); (RDI, from); (RCX, wrap 64 offset)] [R10].
(** @ app-rt/src/lib.rs:193-197 sys_close -- the asm block *)
Definition asm_close (fd : Z) : Asm := mk_Asm [(RAX, 15); (RSI, fd)] [].
(** @ app-rt/src/lib.rs:203-208 sys_remove -- the asm block *)
Definition asm_remove (name : Slice) : Asm := mk_Asm [(RAX, 16); (RDI, as_ptr name); (RCX, len name)] [].
(** @ app-rt/src/lib.rs:214-222 sys_mount -- the asm block *)
Definition asm_mount (typ disk part : Z) (mountpoint : Slice) : Asm :=
  mk_Asm [(RAX, 17); (RDI, as_ptr mountpoint); (RCX, len mountpoint); (RSI, typ); (RDX, disk); (R9, part)] [].
(** @ app-rt/src/lib.rs:260-266 sys_opendir -- the asm block *)
Definition asm_opendir (path : Slice) : Asm := mk_Asm [(RAX, 18); (RDI, as_ptr path); (RCX, len path)] [RSI].
(** @ app-rt/src/lib.rs:277-284 sys_getdents -- the asm block *)
Definition asm_getdents (fd : Z) (entries : Slice) : Asm :=
  mk_Asm [(RAX, 19); (RSI, fd); (RDI, as_ptr entries); (RCX, len entries)] [R10].
(** @ app-rt/src/lib.rs:294-298 sys_closedir -- the asm block *)
Definition asm_closedir (fd : Z) : Asm := mk_Asm [(RAX, 20); (RSI, fd)] [].
(** @ app-rt/src/lib.rs:321-331 sys_ipc -- the asm block *)
Definition asm_ipc (cmd arg0 arg1 arg2 arg3 arg4 : Z) : Asm :=
  mk_Asm [(RAX, 21); (RDI, cmd); (RSI, arg0); (RDX, arg1); (RCX, arg2); (R8, arg3); (R9, arg4)] [RAX].
(** @ app-rt/src/lib.rs:340-346 sys_ipc_create -- the asm block *)
Definition asm_ipc_create : Asm := mk_Asm [(RAX, 21); (RDI, IPC_CMD_CREATE)] [RAX; RDX].

(** ** The wrappers *)

Section Runtime.
Context `{BitField} `{PageTableEntry} {W F D T M : Type}.
Context `{VfsFile W F} `{VfsDirHandle D} `{VfsDirectory W F D T} `{UserMapper M} `{ElfParser} `{SysDevices W T}.

(** The system and the registers of the running program. *)
Abbreviation UserState := (sys_state W F D T M * ProcessContext)%type.
Context {E : Type}.
Abbreviation uprog A := (prog UserState E A).

(** [int 0x80]: the context the handler returns is restored. *)
Definition int80 (a : Asm) : uprog ProcessContext :=
  fun '(st, ctx) => '(st, ctx) ← do_syscall st (load_inputs a ctx); Done ((st, ctx), Ok ctx).

(** @ app-rt/src/lib.rs:3-10 sys_test *)
Definition sys_test : uprog unit := int80 asm_test ;! p_ret tt.
(** @ app-rt/src/lib.rs:12-22 sys_write *)
Definition sys_write (fd : Z) (buf : Slice) : uprog unit := int80 (asm_write fd buf) ;! p_ret tt.
(** @ app-rt/src/lib.rs:24-34 sys_fork *)
Definition sys_fork : uprog Z := c ←! int80 asm_fork; p_ret (rcx c).
(** @ app-rt/src/lib.rs:36-45 sys_exec *)
Definition sys_exec (path : Slice) : uprog unit := int80 (asm_exec path) ;! p_ret tt.
(** @ app-rt/src/lib.rs:57-67 raw_sys_read *)
Definition raw_sys_read : uprog Z := c ←! int80 asm_read; p_ret (wrap 8 (rcx c)).
(** The loop; [fuel] bounds the polls. *)
Fixpoint read_loop (fuel : nat) (ch : Z) : uprog Z :=
  match fuel with
  | O => fun _ => OutOfFuel
  | S fuel => if ch =? 0xff then ch ←! raw_sys_read; read_loop fuel ch else p_ret ch
  end.
(** @ app-rt/src/lib.rs:69-75 sys_read *)
Definition sys_read (fuel : nat) : uprog Z := ch ←! raw_sys_read; read_loop fuel ch.
(** @ app-rt/src/lib.rs:77-85 sys_waitpid *)
Definition sys_waitpid (pid : Z) : uprog unit := int80 (asm_waitpid pid) ;! p_ret tt.
(** @ app-rt/src/lib.rs:87-97 sys_getpid *)
Definition sys_getpid : uprog Z := c ←! int80 asm_getpid; p_ret (rcx c).
(** @ app-rt/src/lib.rs:99-109 sys_getticks *)
Definition sys_getticks : uprog Z := c ←! int80 asm_getticks; p_ret (rcx c).
(** @ app-rt/src/lib.rs:111-125 sys_info *)
Definition sys_info (tp : Z) : uprog (option Z) := c ←! int80 (asm_info tp); p_ret (non_max (rcx c)).
(** @ app-rt/src/lib.rs:127-143 sys_open *)
Definition sys_open (name : Slice) (do_create : bool) : uprog (option Z) :=
  c ←! int80 (asm_open name do_create); p_ret (non_max (rsi c)).
(** @ app-rt/src/lib.rs:145-155 sys_read2 *)
Definition sys_read2 (fd : Z) (buf : Slice) : uprog unit := int80 (asm_read2 fd buf) ;! p_ret tt.
(** @ app-rt/src/lib.rs:157-170 sys_read3 *)
Definition sys_read3 (fd : Z) (buf : Slice) : uprog Z := c ←! int80 (asm_read3 fd buf); p_ret (r10 c).
(** @ app-rt/src/lib.rs:176-189 sys_seek *)
Definition sys_seek (fd offset from : Z) : uprog Z := c ←! int80 (asm_seek fd offset from); p_ret (r10 c).
(** @ app-rt/src/lib.rs:191-199 sys_close *)
Definition sys_close (fd : Z) : uprog unit := int80 (asm_close fd) ;! p_ret tt.
(** @ app-rt/src/lib.rs:201-210 sys_remove *)
Definition sys_remove (name : Slice) : uprog unit := int80 (asm_remove name) ;! p_ret tt.
(** @ app-rt/src/lib.rs:212-224 sys_mount *)
Definition sys_mount (typ disk part : Z) (mountpoint : Slice) : uprog unit := int80 (asm_mount typ disk part mountpoint) ;! p_ret tt.
(** @ app-rt/src/lib.rs:257-272 sys_opendir *)
Definition sys_opendir (path : Slice) : uprog (option Z) := c ←! int80 (asm_opendir path); p_ret (non_max (rsi c)).
(** @ app-rt/src/lib.rs:274-290 sys_getdents *)
Definition sys_getdents (fd : Z) (entries : Slice) : uprog (option Z) :=
  c ←! int80 (asm_getdents fd entries); p_ret (non_max (r10 c)).
(** @ app-rt/src/lib.rs:292-300 sys_closedir *)
Definition sys_closedir (fd : Z) : uprog unit := int80 (asm_closedir fd) ;! p_ret tt.
(** @ app-rt/src/lib.rs:311-334 sys_ipc *)
Definition sys_ipc (cmd arg0 arg1 arg2 arg3 arg4 : Z) : uprog Z :=
  c ←! int80 (asm_ipc cmd arg0 arg1 arg2 arg3 arg4); p_ret (sext 64 (rax c)).
(** @ app-rt/src/lib.rs:336-353 sys_ipc_create *)
Definition sys_ipc_create : uprog (option (Z * Z)) :=
  c ←! int80 asm_ipc_create;
  let left := sext 64 (rax c) in
  if left <? 0 then p_ret None else p_ret (Some (left, rdx c)).
(** @ app-rt/src/lib.rs:355-357 sys_ipc_send *)
Definition sys_ipc_send (handle : Z) (buf : Slice) : uprog Z := sys_ipc IPC_CMD_SEND handle (as_ptr buf) (len buf) 0 0.
(** @ app-rt/src/lib.rs:359-368 sys_ipc_recv *)
Definition sys_ipc_recv (handle : Z) (buf : Slice) : uprog Z := sys_ipc IPC_CMD_RECV handle (as_ptr buf) (len buf) 0 0.
(** @ app-rt/src/lib.rs:370-372 sys_ipc_close *)
Definition sys_ipc_close (handle : Z) : uprog Z := sys_ipc IPC_CMD_CLOSE handle 0 0 0 0.
(** @ app-rt/src/lib.rs:374-377 sys_ipc_dup *)
Definition sys_ipc_dup (handle : Z) : uprog (option Z) := res ←! sys_ipc IPC_CMD_DUP handle 0 0 0 0; p_ret (non_negative res).
(** @ app-rt/src/lib.rs:379-382 sys_ipc_bind *)
Definition sys_ipc_bind (name : Slice) : uprog (option Z) :=
  res ←! sys_ipc IPC_CMD_BIND (as_ptr name) (len name) 0 0 0; p_ret (non_negative res).
(** @ app-rt/src/lib.rs:384-387 sys_ipc_connect *)
Definition sys_ipc_connect (name : Slice) : uprog (option Z) :=
  res ←! sys_ipc IPC_CMD_CONNECT (as_ptr name) (len name) 0 0 0; p_ret (non_negative res).
(** @ app-rt/src/lib.rs:389-392 sys_ipc_accept *)
Definition sys_ipc_accept (handle : Z) : uprog (option Z) := res ←! sys_ipc IPC_CMD_ACCEPT handle 0 0 0 0; p_ret (non_negative res).
End Runtime.

(** ** The registers a call changes *)

Definition agree (outs : list Reg) (a b : ProcessContext) : Prop := forall r, r ∉ outs -> get_reg b r = get_reg a r.

Section Clobbers.
Context `{BitField} `{PageTableEntry} {W F D T M : Type}.
Context `{VfsFile W F} `{VfsDirHandle D} `{VfsDirectory W F D T} `{UserMapper M} `{ElfParser} `{SysDevices W T}.
Abbreviation St := (sys_state W F D T M).
Implicit Types (st : St) (args ctx : ProcessContext).

(** The calls of the runtime that come back to the program - all but [exit] and
    [waitpid], which hand the processor to another one -, each with the registers it
    changes without declaring them: the answer of [mount], the second handle of a
    channel created through the general [sys_ipc], the segments that information 10
    gives to process 0, and the two pointers with which a successful [exec] starts the
    new program. *)
Inductive runtime_call (st : St) : Asm -> list Reg -> Prop :=
  | rc_test : runtime_call st asm_test []
  | rc_write fd buf : runtime_call st (asm_write fd buf) []
  | rc_fork : runtime_call st asm_fork []
  | rc_exec path : runtime_call st (asm_exec path) [RIP; RSP]
  | rc_read : runtime_call st asm_read []
  | rc_getpid : runtime_call st asm_getpid []
  | rc_getticks : runtime_call st asm_getticks []
  | rc_info tp : tp <> 10 \/ k_current (s_kernel st) <> 0 -> runtime_call st (asm_info tp) []
  | rc_info_kernel : k_current (s_kernel st) = 0 -> runtime_call st (asm_info 10) [CS; SS]
  | rc_open name c : runtime_call st (asm_open name c) []
  | rc_read2 fd buf : runtime_call st (asm_read2 fd buf) []
  | rc_read3 fd buf : runtime_call st (asm_read3 fd buf) []
  | rc_seek fd offset from : runtime_call st (asm_seek fd offset from) []
  | rc_close fd : runtime_call st (asm_close fd) []
  | rc_remove name : runtime_call st (asm_remove name) []
  | rc_mount typ disk part mountpoint : runtime_call st (asm_mount typ disk part mountpoint) [R10]
  | rc_opendir path : runtime_call st (asm_opendir path) []
  | rc_getdents fd entries : runtime_call st (asm_getdents fd entries) []
  | rc_closedir fd : runtime_call st (asm_closedir fd) []
  | rc_ipc cmd a0 a1 a2 a3 a4 : cmd <> IPC_CMD_CREATE -> runtime_call st (asm_ipc cmd a0 a1 a2 a3 a4) []
  | rc_ipc_general_create a0 a1 a2 a3 a4 : runtime_call st (asm_ipc IPC_CMD_CREATE a0 a1 a2 a3 a4) [RDX]
  | rc_ipc_create : runtime_call st asm_ipc_create [].

Lemma agree_refl outs c : agree outs c c.
Proof. by intros r _. Qed.
Lemma agree_trans outs a b c : agree outs a b -> agree outs b c -> agree outs a c.
Proof. intros Hab Hbc r Hr. by rewrite Hbc, Hab. Qed.

(** A context that differs in registers of the list. *)
Ltac agree_regs :=
  let r := fresh "r" in let Hr := fresh "Hr" in
  intros r Hr; destruct r; try reflexivity; exfalso; apply Hr; set_solver.
Ltac handler_agrees := outcome_cases; try done; intros [= <- <-]; agree_regs.

Lemma fork_agrees k args k' args' : do_fork k args = Done (k', args') -> agree [RCX] args args'.
Proof.
  unfold do_fork. outcome_cases. intros [= <- <-].
  match goal with Hc : copy_process _ _ _ _ _ = _ |- _ => revert Hc end. unfold copy_process. outcome_cases. intros [= <- <- <- <-]. agree_regs.
Qed.

Lemma ipc_agrees cur ipc args m ipc' args' m' :
  rdi args <> IPC_CMD_CREATE -> ipc_syscall cur ipc args m = Done (ipc', args', m') -> agree [RAX] args args'.
Proof.
  intros Hc. unfold ipc_syscall. rewrite (proj2 (Z.eqb_neq _ _) Hc). outcome_cases; intros [= <- <- <-]; agree_regs.
Qed.

Lemma create_agrees cur ipc args m ipc' args' m' :
  rdi args = IPC_CMD_CREATE -> ipc_syscall cur ipc args m = Done (ipc', args', m') -> agree [RAX; RDX] args args'.
Proof.
  intros Hc. unfold ipc_syscall, sys_create. rewrite Hc. cbn [Z.eqb IPC_CMD_CREATE].
  outcome_cases; intros [= <- <- <-]; match goal with He : _ = Done _ |- _ => revert He end; outcome_cases; intros [= <- <- <-]; agree_regs.
Qed.

(** The registers each handler changes. *)
Definition handler_outputs (n : nat) args : list Reg :=
  match n with
  | 2 | 5 | 9 | 10 | 11 => [RCX]
  | 12 | 18 => [RSI]
  | 14 | 17 | 19 | 22 => [R10]
  | 21 => if decide (rdi args = IPC_CMD_CREATE) then [RAX; RDX] else [RAX]
  | _ => []
  end%nat.

Lemma info_agrees (st : St) args st' args' :
  (rdi args = 10 -> k_current (s_kernel st) <> 0) -> Syscall.sys_info st args = Done (st', args') -> agree [RCX] args args'.
Proof.
  intros Hc. unfold Syscall.sys_info. destruct (decide (rdi args = 10)) as [He|Hne].
  - rewrite He, (proj2 (Z.eqb_neq _ _)) by auto. intros [= <- <-]. agree_regs.
  - repeat match goal with |- match ?x with _ => _ end = _ -> _ => destruct x end; first [done|intros [= <- <-]; agree_regs].
Qed.

Lemma handler_agrees (st : St) args n h st' args' :
  SYSCALL_TABLE !! n = Some h -> existsb (Nat.eqb n) [3; 4; 6; 7; 8]%nat = false -> (n = 11%nat -> rdi args = 10 -> k_current (s_kernel st) <> 0) ->
  h st args = Done (st', args') -> agree (handler_outputs n args) args args'.
Proof.
  unfold SYSCALL_TABLE. intros Hh Hn Hc.
  do 23 (try (destruct n as [|n]; [cbn in Hh; injection Hh as <-; try discriminate Hn|])).
  19: done.
  - intros [= <- <-]. apply agree_refl.
  - unfold Syscall.sys_write. handler_agrees.
  - unfold Syscall.sys_fork. outcome_cases. intros [= <- <-]. by eapply fork_agrees.
  - unfold Syscall.sys_read. handler_agrees.
  - intros [= <- <-]. agree_regs.
  - intros [= <- <-]. agree_regs.
  - by apply info_agrees, Hc.
  - unfold Syscall.sys_open. handler_agrees.
  - unfold Syscall.sys_read2. handler_agrees.
  - unfold Syscall.sys_seek. handler_agrees.
  - unfold Syscall.sys_close. handler_agrees.
  - unfold Syscall.sys_remove. handler_agrees.
  - unfold Syscall.sys_mount. repeat match goal with |- match ?x with _ => _ end = _ -> _ => destruct x end; handler_agrees.
  - unfold Syscall.sys_opendir. handler_agrees.
  - unfold Syscall.sys_getdents. handler_agrees.
  - unfold Syscall.sys_closedir. handler_agrees.
  - unfold Syscall.sys_ipc, handler_outputs. outcome_cases. intros [= <- <-]. destruct (decide _); [by eapply create_agrees|by eapply ipc_agrees].
  - unfold Syscall.sys_read3. handler_agrees.
Qed.

Lemma do_exec_agrees k pgt mem args file k' pgt' mem' args' :
  do_exec k (M := M) pgt mem args file = Done (k', pgt', mem', args') ->
  agree [RIP; RSP] args args' /\ (file (user_slice mem (rdi args) (rcx args)) = None -> args' = args).
Proof.
  unfold do_exec. destruct (utf8_valid _); cbn [mbind outcome_bind]; [|done]. destruct (file _) as [buf|].
  - destruct (task_at _ _) as [task| |]; cbn [mbind outcome_bind]; [|done..].
    destruct (free_page_tables _ _ _) as [s| |]; cbn [mbind outcome_bind]; [|done..].
    destruct (elf_parse buf) as [e|]; outcome_cases; intros [= <- <- <- <-]; (split; [agree_regs|done]).
  - intros [= <- <- <- <-]. split; [apply agree_refl|done].
Qed.
Lemma exec_agrees (st : St) args st' args' :
  Syscall.sys_exec st args = Done (st', args') ->
  agree [RIP; RSP] args args' /\
  (forall w, exec_file st (user_str st (rdi args) (rcx args)) = Done (w, None) -> args' = args).
Proof.
  unfold Syscall.sys_exec. destruct (utf8_valid _); cbn [mbind outcome_bind]; [|done].
  destruct (exec_file st _) as [[w file]| |]; cbn [mbind outcome_bind]; [|done..].
  destruct (do_exec _ _ _ _ _) as [[[[k m] mem] args1]| |] eqn:Hx; cbn [mbind outcome_bind]; [|done..].
  intros [= <- <-]. apply do_exec_agrees in Hx as [Hx Hn]. split; [done|]. intros w' [= <- ->]. by apply Hn.
Qed.

(** C36: The kernel and the runtime agree on the registers: for every call of the
    runtime that comes back to the program - whatever its arguments, the state of the
    system and the other registers - the kernel changes no register that the inline
    assembly of the wrapper does not declare as an output, with four exceptions: mount
    changes R10 (a bug, the wrapper does not declare it), the general sys_ipc with the
    command CREATE changes RDX (sys_ipc_create declares it), information 10 changes the
    segments of process 0, and an exec moves the instruction and stack pointers when it
    starts the new program; one whose file is not found changes nothing.  exit and
    waitpid hand the processor to another process. *)
Theorem wrappers_declare_outputs (st : St) ctx (a : Asm) (undeclared : list Reg) st' ctx' :
  runtime_call st a undeclared -> do_syscall st (load_inputs a ctx) = Done (st', ctx') ->
  agree (asm_out a ++ undeclared) (load_inputs a ctx) ctx' /\
  (forall path w, a = asm_exec path -> exec_file st (user_str st (as_ptr path) (len path)) = Done (w, None) -> ctx' = load_inputs a ctx).
Proof.
  intros Ha Hs.
  assert (forall n h, rax (load_inputs a ctx) = Z.of_nat n -> SYSCALL_TABLE !! n = Some h ->
    existsb (Nat.eqb n) [3; 4; 6; 7; 8]%nat = false -> (n = 11%nat -> rdi (load_inputs a ctx) = 10 -> k_current (s_kernel st) <> 0) ->
    handler_outputs n (load_inputs a ctx) = asm_out a ++ undeclared -> agree (asm_out a ++ undeclared) (load_inputs a ctx) ctx') as Hcall.
  { intros n h Hr Hh Hn Hc Ho. rewrite (dispatch st _ n h Hr Hh) in Hs. rewrite <- Ho. by eapply handler_agrees. }
  assert (forall path, a = asm_exec path -> agree [RIP; RSP] (load_inputs a ctx) ctx' /\
    (forall w, exec_file st (user_str st (as_ptr path) (len path)) = Done (w, None) -> ctx' = load_inputs a ctx)) as Hexec.
  { intros path ->. rewrite (dispatch st _ 3 Syscall.sys_exec) in Hs by done. exact (exec_agrees st _ st' ctx' Hs). }
  split; [|intros path w Hp; by apply (Hexec path Hp)].
  destruct Ha;
    [eapply (Hcall 0%nat)|eapply (Hcall 1%nat)|eapply (Hcall 2%nat)|by apply (Hexec path)|eapply (Hcall 5%nat)|eapply (Hcall 9%nat)|eapply (Hcall 10%nat)
    |eapply (Hcall 11%nat)| |eapply (Hcall 12%nat)|eapply (Hcall 13%nat)|eapply (Hcall 22%nat)|eapply (Hcall 14%nat)|eapply (Hcall 15%nat)
    |eapply (Hcall 16%nat)|eapply (Hcall 17%nat)|eapply (Hcall 18%nat)|eapply (Hcall 19%nat)|eapply (Hcall 20%nat)|eapply (Hcall 21%nat)|eapply (Hcall 21%nat)|eapply (Hcall 21%nat)];
    try reflexivity; try discriminate.
  - intros _ He. change (tp = 10) in He. tauto.
  - rewrite (dispatch st _ 11 Syscall.sys_info) in Hs by done. unfold Syscall.sys_info in Hs.
    change (rdi (load_inputs (asm_info 10) ctx)) with 10 in Hs. cbn beta iota zeta in Hs.
    match goal with He : k_current _ = 0 |- _ => rewrite He in Hs end. cbn [Z.eqb] in Hs. injection Hs as <- <-. agree_regs.
  - cbn [handler_outputs asm_out asm_ipc]. by rewrite decide_False.
Qed.

(** [mount] is the exception: the kernel answers in R10, which the wrapper
    neither reads nor declares. *)
Lemma mount_clobbers_r10 (st : St) ctx mountpoint :
  r10 ctx <> U64_ERROR ->
  exists ctx', do_syscall st (load_inputs (asm_mount 3 0 0 mountpoint) ctx) = Done (st, ctx') /\
    ~ agree (asm_out (asm_mount 3 0 0 mountpoint)) (load_inputs (asm_mount 3 0 0 mountpoint) ctx) ctx'.
Proof.
  intros Hr. eexists. split; [by rewrite (dispatch st _ 17 Syscall.sys_mount)|].
  intros Ha. apply Hr. symmetry. apply (Ha R10). apply not_elem_of_nil.
Qed.
End Clobbers.

#[local] Existing Instances Syscall.no_elf Syscall.no_devices z_bit_field z_pte Syscall.demo_procfs.

(** [getpid] with recognisable values in the other registers. *)
Lemma wrappers_declare_outputs_witness :
  exists st' ctx', do_syscall (demo_system 1) (load_inputs asm_getpid (mk_ProcessContext 0 1 2 3 4 5 6 7 8 9 10 11 12 13 14 15 16 17 18 19)) = Done (st', ctx') /\
    rcx ctx' = 1 /\ rsi ctx' = 4 /\ r10 ctx' = 9 /\ ss ctx' = 19.
Proof.
  destruct (do_syscall (demo_system 1) (load_inputs asm_getpid (mk_ProcessContext 0 1 2 3 4 5 6 7 8 9 10 11 12 13 14 15 16 17 18 19))) as [[st' ctx']| |] eqn:E;
    [|vm_compute in E; discriminate..].
  pose proof (wrappers_declare_outputs (demo_system 1) _ asm_getpid [] st' ctx' (rc_getpid _) E) as [Ha _].
  exists st', ctx'. split; [reflexivity|]. split; [vm_compute in E; injection E as _ <-; reflexivity|].
  split; [apply (Ha RSI)|split; [apply (Ha R10)|apply (Ha SS)]]; vm_compute; intros Hin; inversion Hin; subst; inversion H1.
Defined.

(** ** What [getdents] writes is what programs read *)

Lemma user_slice_part m ptr src k n :
  0 <= k -> 0 <= n -> k + n <= llen src -> user_slice (user_write m ptr src) (ptr + k) n = take (Z.to_nat n) (drop (Z.to_nat k) src).
Proof.
  intros Hk Hn Hl. apply list_eq. intros i. unfold user_slice. rewrite list_lookup_fmap.
  destruct (decide (Z.of_nat i < n)) as [Hi|Hi].
  - rewrite lookup_seqZ_lt, lookup_take_lt, lookup_drop by lia. cbn. unfold user_write.
    rewrite bool_decide_true by lia. replace (Z.to_nat (ptr + k + Z.of_nat i - ptr)) with (Z.to_nat k + i)%nat by lia.
    symmetry. apply list_lookup_lookup_total_lt. unfold llen in Hl. lia.
  - rewrite lookup_seqZ_ge, lookup_take_ge by lia. done.
Qed.

(** A directory listing survives the trip to the program: of the entries that
    [getdents] writes to a buffer, the i-th one read there by the program has the
    name and the kind that were listed, for names that are valid UTF-8, hold no NUL
    and have at most 254 bytes. *)
Theorem dirents_round_trip (m : user_memory) (ptr : Z) (l : list (bool * str)) (i : nat) (d : bool) (n : str) :
  l !! i = Some (d, n) -> storable n ->
  let written := user_write m ptr (concat (dirent_bytes <$> ((fun '(d, n) => dirent_new d n) <$> l))) in
  let e := dirent_of_bytes (user_slice written (ptr + 256 * Z.of_nat i) 256) in
  user_name e = n /\ user_is_dir e = d.
Proof.
  intros Hi Hn. cbn zeta. set (es := (fun '(d, n) => dirent_new d n) <$> l).
  assert (Forall (fun b => length b = 256%nat) (dirent_bytes <$> es)) as Hlen.
  { apply Forall_fmap, Forall_fmap, Forall_forall. intros [d' n'] _. apply dirent_bytes_len. }
  assert ((dirent_bytes <$> es) !! i = Some (dirent_bytes (dirent_new d n))) as Hpi
    by (unfold es; by rewrite !list_lookup_fmap, Hi).
  assert (take 256 (drop (256 * i) (concat (dirent_bytes <$> es))) = dirent_bytes (dirent_new d n)) as Hp by by apply concat_piece.
  assert (256 * Z.of_nat i + 256 <= llen (concat (dirent_bytes <$> es))) as Hb.
  { apply (f_equal length) in Hp. rewrite length_take, length_drop, dirent_bytes_len in Hp. unfold llen. lia. }
  rewrite user_slice_part by lia.
  replace (Z.to_nat (256 * Z.of_nat i)) with (256 * i)%nat by lia. change (Z.to_nat 256) with 256%nat. rewrite Hp.
  change (dirent_of_bytes _) with (dirent_new d n). split; [by apply user_name_new|]. by destruct d.
Qed.

Lemma dirents_round_trip_witness :
  let written := user_write (fun _ => 7) 0x4000 (concat (dirent_bytes <$> [dirent_new true (bytes_of "proc"); dirent_new false (bytes_of "motd")])) in
  user_name (dirent_of_bytes (user_slice written 0x4100 256)) = bytes_of "motd".
Proof.
  destruct (dirents_round_trip (fun _ => 7) 0x4000 [(true, bytes_of "proc"); (false, bytes_of "motd")] 1 false (bytes_of "motd")) as [Hn _].
  - reflexivity.
  - split; [reflexivity|]. split; [vm_compute; intros Hin; repeat (inversion Hin as [|? ? ? Hin']; subst; clear Hin; rename Hin' into Hin); inversion Hin|vm_compute; discriminate].
  - exact Hn.
Defined.

(** A name cut in the middle of a character is read as empty. *)
Lemma cut_name_is_lost : user_name (dirent_new false (replicate 253 97 ++ [0xc3; 0xa9])) = [].
Proof. vm_compute. reflexivity. Qed.

(** ** What programs rely on *)

(** A receive answers with at most the length of the buffer. *)
Lemma kernel_recv_fits cur st args m st' m' r : 0 <= rcx args -> Ipc.sys_recv cur st args m = Done (st', m', r) -> r <= rcx args.
Proof.
  intros Hl. unfold Ipc.sys_recv. outcome_cases; try (intros [= <- <- <-]; unfold IPC_EBADF, IPC_OK, IPC_EAGAIN in *; lia).
  destruct (ep_queue _) as [|message queue]; [destruct (_ || _)|]; intros [= <- <- <-]; unfold Ipc.IPC_EAGAIN, IPC_OK in *; lia.
Qed.
