(* ===== verification/Ping.v ===== *)
(** * Echo replies: [apps/init/src/icmp.rs]

    The internet checksum and the construction of the reply to a ping. *)

From S2P Require Import Prelude Words.

(** ** The checksum *)

(** The loop over the 16-bit words, and the odd byte at the end. *)
Fixpoint sum_words (data : list Z) (sum : Z) : outcome Z :=
  match data with
  | a :: b :: data => sum ← add_ovf 32 sum (from_be [a; b]); sum_words data sum
  | [a] => add_ovf 32 sum (Z.shiftl a 8)
  | [] => Done sum
  end.
(** [while (sum >> 16) != 0]. *)
Fixpoint fold_carries (fuel : nat) (sum : Z) : outcome Z :=
  match fuel with
  | O => OutOfFuel
  | S fuel => if Z.shiftr sum 16 =? 0 then Done sum else fold_carries fuel (Z.land sum 0xffff + Z.shiftr sum 16)
  end.
(** A [u32] is folded after at most two rounds. *)
Definition FOLD_FUEL : nat := 3.
(** @ apps/init/src/icmp.rs:1-20 compute_checksum *)
Definition compute_checksum (data : list Z) : outcome Z :=
  sum ← sum_words data 0;
  sum ← fold_carries FOLD_FUEL sum;
  Done (0xffff - wrap 16 sum).

(** ** The reply *)

(** The packet to send back, or nothing; the caller hands it to [send_ipv4]. *)
(** @ apps/init/src/icmp.rs:22-73 try_handle_ping *)
Definition ping_reply (packet : list Z) : outcome (option (list Z)) :=
  version_ihl ← idx packet 0;
  let ihl := Z.land version_ihl 0x0f in
  let payload_start := ihl * 4 in
  if llen packet <? payload_start + 8 then Done None else
  let version := Z.shiftr version_ihl 4 in
  if negb (version =? 4) then Done None else
  protocol ← idx packet 9;
  if negb (protocol =? 1) then Done None else
  src_ip ← slice packet 12 16;
  dst_ip ← slice packet 16 20;
  icmp_type ← idx packet payload_start;
  icmp_code ← idx packet (payload_start + 1);
  if negb (icmp_type =? 8) || negb (icmp_code =? 0) then Done None else
  let reply := replicate 1500 0 in
  let packet_len := llen packet in
  if llen reply <? packet_len then Done None else
  reply ← splice reply 0 packet;
  reply ← splice reply 12 dst_ip;
  reply ← splice reply 16 src_ip;
  reply ← set_idx reply payload_start 0;
  let icmp_checksum_off := payload_start + 2 in
  reply ← splice reply icmp_checksum_off [0; 0];
  icmp ← slice reply payload_start packet_len;
  icmp_checksum ← compute_checksum icmp;
  reply ← splice reply icmp_checksum_off (to_be 2 icmp_checksum);
  let ip_checksum_off := 10 in
  reply ← splice reply ip_checksum_off [0; 0];
  header ← slice reply 0 payload_start;
  ip_checksum ← compute_checksum header;
  reply ← splice reply ip_checksum_off (to_be 2 ip_checksum);
  reply ← slice reply 0 packet_len;
  Done (Some reply).

(** ** Properties of the checksum *)

(** The sum of the words, without bounds. *)
Fixpoint word_sum (data : list Z) : Z :=
  match data with a :: b :: data => (b + 256 * a) + word_sum data | [a] => 256 * a | [] => 0 end.

Lemma word_ind (P : list Z -> Prop) : P [] -> (forall a, P [a]) -> (forall a b l, P l -> P (a :: b :: l)) -> forall l, P l.
Proof.
  intros H0 H1 H2. fix IH 1. intros [|a [|b l]]; [exact H0|apply H1|apply H2, IH].
Qed.

Lemma word_sum_bound l : bytes l -> 0 <= word_sum l <= 65535 * ((llen l + 1) / 2).
Proof.
  induction l as [|a|a b l IH] using word_ind; intros Hb.
  - by vm_compute.
  - apply Forall_cons in Hb as [Ha _]. unfold is_byte in Ha. change ((llen [a] + 1) / 2) with 1. cbn [word_sum]. lia.
  - apply Forall_cons in Hb as [Ha [Hb Hl]%Forall_cons]. specialize (IH Hl). unfold is_byte in *. cbn [word_sum].
    rewrite !llen_cons. replace (1 + (1 + llen l) + 1) with (llen l + 1 + 1 * 2) by lia. rewrite Z.div_add by lia. lia.
Qed.

Lemma from_be_2 a b : from_be [a; b] = b + 256 * a.
Proof. change (from_be [a; b]) with (from_le [b; a]). cbn [from_le]. lia. Qed.

Lemma sum_words_spec l s :
  bytes l -> 0 <= s -> s + word_sum l < 2 ^ 32 -> sum_words l s = Done (s + word_sum l).
Proof.
  revert s. induction l as [|a|a b l IH] using word_ind; intros s Hb Hs Hl; cbn [sum_words word_sum] in *.
  - f_equal. lia.
  - unfold add_ovf. rewrite Z.shiftl_mul_pow2 by lia. rewrite (proj2 (Z.ltb_lt _ _)) by lia. f_equal. lia.
  - apply Forall_cons in Hb as [Ha [Hb Hbl]%Forall_cons]. unfold is_byte in Ha, Hb.
    pose proof (word_sum_bound l Hbl). unfold add_ovf. rewrite from_be_2, (proj2 (Z.ltb_lt _ _)) by lia.
    cbn [mbind outcome_bind]. rewrite IH by (first [done|lia]). f_equal. lia.
Qed.

(** Folding keeps the residue modulo 65535, and only 0 folds to 0. *)
Lemma fold_step s : 0 <= s -> Z.land s 0xffff + Z.shiftr s 16 = s mod 65536 + s / 65536.
Proof. intros Hs. change 0xffff with (Z.ones 16). by rewrite Z.land_ones, Z.shiftr_div_pow2 by lia. Qed.

Lemma fold_carries_S n s : 0 <= s ->
  fold_carries (S n) s = if s / 65536 =? 0 then Done s else fold_carries n (s mod 65536 + s / 65536).
Proof. intros Hs. cbn [fold_carries]. by rewrite fold_step, Z.shiftr_div_pow2 by lia. Qed.

Lemma fold_carries_spec s :
  0 <= s < 2 ^ 32 -> exists f, fold_carries FOLD_FUEL s = Done f /\ 0 <= f < 65536 /\ f mod 65535 = s mod 65535 /\ (f = 0 <-> s = 0).
Proof.
  assert (forall n s, 0 <= s -> s < 65536 \/ s <= 131070 /\ (1 <= n)%nat \/ s < 2 ^ 32 /\ (2 <= n)%nat ->
    exists f, fold_carries (S n) s = Done f /\ 0 <= f < 65536 /\ f mod 65535 = s mod 65535 /\ (f = 0 <-> s = 0)) as Hgen.
  { induction n as [|n IH]; intros x Hx Hb; rewrite fold_carries_S by done; pose proof (Z.div_mod x 65536); pose proof (Z.mod_pos_bound x 65536);
      destruct (Z.eqb_spec (x / 65536) 0) as [Hz|Hz].
    1, 3: (exists x; split; [done|]; lia).
    - exfalso. apply Hz, Z.div_small. lia.
    - assert (0 < x / 65536) by lia.
      destruct (IH (x mod 65536 + x / 65536)) as (f & Hf & Hr & Hm & Hf0).
      + lia.
      + destruct Hb as [Hb|[[Hb Hn]|[Hb Hn]]]; [lia|left; lia|]. destruct n as [|n]; [lia|]. right. left. lia.
      + exists f. split; [exact Hf|]. split; [done|]. split; [|lia].
        rewrite Hm. replace x with (x mod 65536 + x / 65536 + (x / 65536) * 65535) at 3 by lia. by rewrite Z.mod_add by lia. }
  intros Hs. apply (Hgen 2%nat s); lia.
Qed.

(** The checksum of a packet of at most 1500 bytes: the complement of the folded sum. *)
Lemma compute_checksum_spec l :
  bytes l -> llen l <= 1500 ->
  exists f, compute_checksum l = Done (65535 - f) /\ 0 <= f < 65536 /\ f mod 65535 = word_sum l mod 65535 /\ (f = 0 <-> word_sum l = 0).
Proof.
  intros Hb Hl. pose proof (word_sum_bound l Hb) as Hs.
  assert ((llen l + 1) / 2 < 751) by (apply Z.div_lt_upper_bound; lia).
  destruct (fold_carries_spec (word_sum l)) as (f & Hf & Hr & Hm & Hf0); [lia|].
  exists f. unfold compute_checksum. rewrite (sum_words_spec l 0) by (first [done|lia]). cbn [mbind outcome_bind].
  rewrite Z.add_0_l, Hf. cbn [mbind outcome_bind]. unfold wrap. rewrite Z.mod_small by lia. done.
Qed.

(** The receiver's test, as RFC 1071 has it: the one's complement sum of the 16-bit
    words, most significant byte first and an odd last byte followed by a zero, is all
    ones; that is, the sum is a positive multiple of 65535. *)
Definition receiver_accepts (l : list Z) : Prop := 0 < word_sum l /\ word_sum l mod 65535 = 0.

(** The code's own test agrees: its checksum over data with the checksum in it is 0. *)
Lemma checksum_verifies l :
  bytes l -> llen l <= 1500 -> receiver_accepts l -> compute_checksum l = Done 0.
Proof.
  intros Hb Hl [Hp Hz]. destruct (compute_checksum_spec l Hb Hl) as (f & -> & Hr & Hm & Hf0). f_equal.
  rewrite Hz in Hm. apply Z.mod_divide in Hm; [|done]. destruct Hm as [q Hq].
  assert (f <> 0) by (intros ->; pose proof (proj1 Hf0 eq_refl); lia). lia.
Qed.

Lemma word_sum_app a b : Nat.even (length a) = true -> word_sum (a ++ b) = word_sum a + word_sum b.
Proof.
  induction a as [|x|x y a IH] using word_ind; intros He; [done|done|].
  cbn [app word_sum]. rewrite IH by done. lia.
Qed.

Lemma word_sum_nonneg l : bytes l -> 0 <= word_sum l.
Proof. intros Hb. apply (word_sum_bound l Hb). Qed.

Lemma to_be_2 c : 0 <= c < 65536 -> exists x y, to_be 2 c = [x; y] /\ is_byte x /\ is_byte y /\ y + 256 * x = c.
Proof.
  intros Hc. exists (c / 256 mod 256), (c mod 256). split; [done|]. unfold is_byte.
  pose proof (Z.div_mod c 256). pose proof (Z.mod_pos_bound c 256).
  rewrite (Z.mod_small (c / 256)) by (split; [apply Z.div_pos|apply Z.div_lt_upper_bound]; lia).
  split; [split; [apply Z.div_pos|apply Z.div_lt_upper_bound]; lia|]. lia.
Qed.

(** Filling in the checksum of data in which its place held 0. *)
Lemma checksum_fills_in a b :
  bytes a -> bytes b -> Nat.even (length a) = true -> llen (a ++ [0; 0] ++ b) <= 1500 ->
  exists c, compute_checksum (a ++ [0; 0] ++ b) = Done c /\ 0 <= c < 65536 /\
    receiver_accepts (a ++ to_be 2 c ++ b).
Proof.
  intros Ha Hb He Hl.
  assert (bytes (a ++ [0; 0] ++ b)) as Hab by (apply Forall_app; split; [done|]; do 2 (constructor; [done|]); done).
  destruct (compute_checksum_spec _ Hab Hl) as (f & Hf & Hr & Hm & Hf0). exists (65535 - f). split; [done|]. split; [lia|].
  destruct (to_be_2 (65535 - f)) as (x & y & Ht & Hx & Hy & Hxy); [lia|]. rewrite Ht.
  pose proof (word_sum_nonneg a Ha). pose proof (word_sum_nonneg b Hb).
  assert (word_sum (a ++ [0; 0] ++ b) = word_sum a + word_sum b) as Hs0.
  { rewrite word_sum_app by done. cbn [app word_sum]. lia. }
  assert (word_sum (a ++ [x; y] ++ b) = word_sum a + word_sum b + (65535 - f)) as Hs1.
  { rewrite word_sum_app by done. cbn [app word_sum]. lia. }
  split.
  - rewrite Hs1. lia.
  - rewrite Hs1. rewrite Hs0 in Hm. rewrite Z.add_sub_assoc, <- Zminus_mod_idemp_r, Hm, Zminus_mod_idemp_r.
    replace (word_sum a + word_sum b + 65535 - (word_sum a + word_sum b)) with 65535 by lia. done.
Qed.

(** ** Properties of the reply *)

(** An IPv4 header of [ihl] words: version and length, eight bytes, the protocol,
    the checksum, the addresses, the options; and an ICMP message. *)
Definition ipv4 (ihl : Z) (fields : list Z) (protocol : Z) (ck src dst opts : list Z) : list Z :=
  (64 + ihl :: fields ++ [protocol]) ++ ck ++ src ++ dst ++ opts.
Definition icmp (typ code : Z) (ck rest : list Z) : list Z := [typ; code] ++ ck ++ rest.

Ltac parts :=
  unfold llen, ipv4, icmp in *;
  rewrite ?length_app, ?length_cons, ?length_app, ?length_replicate, ?length_to_be in *; cbn [length] in *; lia.
Ltac same_list := unfold ipv4, icmp; do 4 (rewrite <- ?app_assoc; cbn [app]); reflexivity.
(** Rewrite a slice operation on the list given by its parts. *)
Ltac at_parts a b c :=
  match goal with
  | |- context [slice ?l ?x ?y] => replace (slice l x y) with (Done b) by
      (symmetry; replace l with (a ++ b ++ c) by same_list; apply slice_at; parts)
  | |- context [splice ?l ?x ?y] => replace (splice l x y) with (Done (a ++ y ++ c)) by
      (symmetry; replace l with (a ++ b ++ c) by same_list; apply splice_at; parts)
  end; cbn [mbind outcome_bind].
Ltac idx_parts a x c :=
  match goal with
  | |- context [idx ?l ?n] => replace (idx l n) with (Done x) by
      (symmetry; replace l with (a ++ x :: c) by same_list; apply idx_at; parts)
  | |- context [set_idx ?l ?n ?y] => replace (set_idx l n y) with (Done (a ++ y :: c)) by
      (symmetry; replace l with (a ++ x :: c) by same_list; apply set_idx_at; parts)
  end; cbn [mbind outcome_bind].

Lemma copied_into_reply p : llen p <= 1500 -> exists pad, splice (replicate 1500 0) 0 p = Done (p ++ pad).
Proof.
  intros Hp. exists (drop (length p) (replicate 1500 0)). pose proof (llen_nonneg p).
  rewrite splice_in_range by (rewrite ?llen_replicate; lia). done.
Qed.

Section Reply.
Context (ihl protocol typ code : Z) (fields ck src dst opts ick rest : list Z).
Hypotheses (Hihl : 5 <= ihl < 16)
  (Hfields : length fields = 8%nat) (Hck : length ck = 2%nat) (Hsrc : length src = 4%nat) (Hdst : length dst = 4%nat)
  (Hopts : llen opts = 4 * ihl - 20) (Hick : length ick = 2%nat)
  (Bfields : bytes fields) (Bsrc : bytes src) (Bdst : bytes dst) (Bopts : bytes opts) (Brest : bytes rest).
Let header := ipv4 ihl fields protocol ck src dst opts.
Let message := icmp typ code ick rest.

Lemma version_and_length : Z.land (64 + ihl) 15 = ihl /\ Z.shiftr (64 + ihl) 4 = 4.
Proof.
  change 15 with (Z.ones 4). rewrite Z.land_ones, Z.shiftr_div_pow2 by lia. change (2 ^ 4) with 16.
  pose proof (Z.div_mod (64 + ihl) 16). pose proof (Z.mod_pos_bound (64 + ihl) 16). lia.
Qed.

Lemma llen_header : llen header = 4 * ihl.
Proof. unfold header. parts. Qed.
Lemma llen_message : llen message = 4 + llen rest.
Proof. unfold message. parts. Qed.

(** The tests up to the type and the code of the message. *)
Ltac echo_tests :=
  let Hl := fresh "Hl" in let Hv := fresh "Hv" in
  destruct version_and_length as [Hl Hv]; pose proof llen_header; unfold ping_reply, header, message in *;
  idx_parts (@nil Z) (64 + ihl) (fields ++ [protocol] ++ ck ++ src ++ dst ++ opts ++ icmp typ code ick rest);
  rewrite Hl, Hv, llen_app;
  destruct (Z.ltb_spec (llen (ipv4 ihl fields protocol ck src dst opts) + llen (icmp typ code ick rest)) (ihl * 4 + 8)) as [|_]; [lia|];
  cbn [negb Z.eqb Pos.eqb];
  idx_parts (64 + ihl :: fields) protocol (ck ++ src ++ dst ++ opts ++ icmp typ code ick rest).
Ltac echo_type :=
  at_parts (64 + ihl :: fields ++ [protocol] ++ ck) src (dst ++ opts ++ icmp typ code ick rest);
  at_parts (64 + ihl :: fields ++ [protocol] ++ ck ++ src) dst (opts ++ icmp typ code ick rest);
  idx_parts (ipv4 ihl fields protocol ck src dst opts) typ (code :: ick ++ rest);
  idx_parts (ipv4 ihl fields protocol ck src dst opts ++ [typ]) code (ick ++ rest).

Lemma other_packets_ignored :
  8 <= llen message -> ~ (protocol = 1 /\ typ = 8 /\ code = 0) -> ping_reply (header ++ message) = Done None.
Proof.
  intros Hm Hno. echo_tests. destruct (Z.eqb_spec protocol 1); [|done]. cbn [negb]. echo_type.
  destruct (Z.eqb_spec typ 8), (Z.eqb_spec code 0); cbn [negb orb]; [exfalso; auto|done..].
Qed.

Lemma echo_request_answered :
  protocol = 1 -> typ = 8 -> code = 0 -> 4 <= llen rest -> llen (header ++ message) <= 1500 ->
  exists ck' ick', length ck' = 2%nat /\ length ick' = 2%nat /\
    ping_reply (header ++ message) = Done (Some (ipv4 ihl fields protocol ck' dst src opts ++ icmp 0 code ick' rest)) /\
    receiver_accepts (ipv4 ihl fields protocol ck' dst src opts) /\ receiver_accepts (icmp 0 code ick' rest).
Proof.
  intros Hp Ht Hc Hr Hmax. assert (is_byte protocol) by (by rewrite Hp). assert (bytes [0; code]) by (rewrite Hc; by repeat constructor).
  destruct (checksum_fills_in [0; code] rest) as (ic & Hic & Hicr & Hic0).
  { done. }
  { done. }
  { done. }
  { revert Hmax. unfold header, message. parts. }
  destruct (checksum_fills_in (64 + ihl :: fields ++ [protocol]) (dst ++ src ++ opts)) as (hc & Hhc & Hhcr & Hhc0).
  { constructor; [unfold is_byte; lia|]. apply Forall_app. split; [done|]. constructor; [done|constructor]. }
  { by repeat (apply Forall_app; split). }
  { rewrite length_cons, length_app, Hfields. done. }
  { revert Hmax. unfold header, message. parts. }
  exists (to_be 2 hc), (to_be 2 ic). rewrite !length_to_be. split; [done|]. split; [done|].
  split; [|done].
  assert (8 <= llen message) by (unfold message; parts).
  echo_tests. rewrite (proj2 (Z.eqb_eq _ _) Hp). cbn [negb]. echo_type. rewrite (proj2 (Z.eqb_eq _ _) Ht), (proj2 (Z.eqb_eq _ _) Hc). cbn [negb orb].
  rewrite llen_replicate. rewrite llen_app in Hmax.
  destruct (Z.ltb_spec (Z.of_nat 1500) (llen (ipv4 ihl fields protocol ck src dst opts) + llen (icmp typ code ick rest))) as [|_]; [lia|].
  destruct (copied_into_reply (ipv4 ihl fields protocol ck src dst opts ++ icmp typ code ick rest)) as [pad Hpad]; [by rewrite llen_app|].
  rewrite Hpad. cbn [mbind outcome_bind].
  at_parts (64 + ihl :: fields ++ [protocol] ++ ck) src (dst ++ opts ++ icmp typ code ick rest ++ pad).
  at_parts (64 + ihl :: fields ++ [protocol] ++ ck ++ dst) dst (opts ++ icmp typ code ick rest ++ pad).
  idx_parts (ipv4 ihl fields protocol ck dst src opts) typ (code :: ick ++ rest ++ pad).
  at_parts (ipv4 ihl fields protocol ck dst src opts ++ [0; code]) ick (rest ++ pad).
  at_parts (ipv4 ihl fields protocol ck dst src opts) (icmp 0 code [0; 0] rest) pad.
  change (icmp 0 code [0; 0] rest) with ([0; code] ++ [0; 0] ++ rest). rewrite Hic. cbn [mbind outcome_bind].
  at_parts (ipv4 ihl fields protocol ck dst src opts ++ [0; code]) [0; 0] (rest ++ pad).
  at_parts (64 + ihl :: fields ++ [protocol]) ck (dst ++ src ++ opts ++ icmp 0 code (to_be 2 ic) rest ++ pad).
  at_parts (@nil Z) (ipv4 ihl fields protocol [0; 0] dst src opts) (icmp 0 code (to_be 2 ic) rest ++ pad).
  change (ipv4 ihl fields protocol [0; 0] dst src opts) with ((64 + ihl :: fields ++ [protocol]) ++ [0; 0] ++ dst ++ src ++ opts).
  rewrite Hhc. cbn [mbind outcome_bind].
  at_parts (64 + ihl :: fields ++ [protocol]) [0; 0] (dst ++ src ++ opts ++ icmp 0 code (to_be 2 ic) rest ++ pad).
  at_parts (@nil Z) (ipv4 ihl fields protocol (to_be 2 hc) dst src opts ++ icmp 0 code (to_be 2 ic) rest) pad.
  done.
Qed.
End Reply.

(** A version 4 packet too short for the addresses panics: the length test does not
    insist on a header of five words. *)
Lemma short_packet_panics v rest :
  Z.shiftr v 4 = 4 -> Z.land v 15 * 4 + 8 <= llen (v :: rest) -> llen (v :: rest) <= 9 -> ping_reply (v :: rest) = Panic.
Proof.
  intros Hv Hl H9. unfold ping_reply. change (idx (v :: rest) 0) with (Done v). cbn [mbind outcome_bind].
  destruct (Z.ltb_spec (llen (v :: rest)) (Z.land v 15 * 4 + 8)) as [|_]; [lia|]. rewrite Hv. cbn [negb Z.eqb Pos.eqb].
  assert (idx (v :: rest) 9 = Panic) as ->; [|done].
  unfold idx. rewrite bool_decide_true by lia. rewrite lookup_ge_None_2 by (unfold llen in *; lia). done.
Qed.

(** C38: a well-formed packet of at most 1500 bytes never makes the responder panic.  An
    echo request is answered with the addresses exchanged, the type of a reply, all the
    other bytes as they came, and two checksums that a receiver accepts by RFC 1071 (the
    16-bit words of the header, and those of the message with an odd last byte padded,
    sum to a positive multiple of 65535); any other packet is not answered. *)
Theorem echo_answered ihl protocol typ code fields ck src dst opts ick rest :
  5 <= ihl < 16 -> length fields = 8%nat -> length ck = 2%nat -> length src = 4%nat -> length dst = 4%nat ->
  llen opts = 4 * ihl - 20 -> length ick = 2%nat -> 4 <= llen rest ->
  bytes fields -> bytes src -> bytes dst -> bytes opts -> bytes rest ->
  let packet := ipv4 ihl fields protocol ck src dst opts ++ icmp typ code ick rest in
  llen packet <= 1500 ->
  (~ (protocol = 1 /\ typ = 8 /\ code = 0) -> ping_reply packet = Done None) /\
  (protocol = 1 /\ typ = 8 /\ code = 0 -> exists ck' ick', length ck' = 2%nat /\ length ick' = 2%nat /\
    ping_reply packet = Done (Some (ipv4 ihl fields 1 ck' dst src opts ++ icmp 0 0 ick' rest)) /\
    receiver_accepts (ipv4 ihl fields 1 ck' dst src opts) /\ receiver_accepts (icmp 0 0 ick' rest)).
Proof.
  intros Hihl Hf Hck Hsrc Hdst Hopts Hick Hrest Bf Bs Bd Bo Br packet Hmax. split.
  - apply other_packets_ignored; try done. parts.
  - intros (-> & -> & ->). by apply (echo_request_answered ihl 1 8 0).
Qed.

Lemma echo_answered_witness :
  exists ck' ick', length ck' = 2%nat /\ length ick' = 2%nat /\
    ping_reply (ipv4 5 (replicate 8 7) 1 [0; 0] [10; 0; 0; 1] [10; 0; 0; 2] [] ++ icmp 8 0 [1; 2] [9; 9; 9; 9; 9]) =
      Done (Some (ipv4 5 (replicate 8 7) 1 ck' [10; 0; 0; 2] [10; 0; 0; 1] [] ++ icmp 0 0 ick' [9; 9; 9; 9; 9])) /\
    receiver_accepts (ipv4 5 (replicate 8 7) 1 ck' [10; 0; 0; 2] [10; 0; 0; 1] []) /\
    receiver_accepts (icmp 0 0 ick' [9; 9; 9; 9; 9]).
Proof.
  refine (proj2 (echo_answered 5 1 8 0 (replicate 8 7) [0; 0] [10; 0; 0; 1] [10; 0; 0; 2] [] [1; 2] [9; 9; 9; 9; 9] _ _ _ _ _ _ _ _ _ _ _ _ _ _) _);
    first [done|unfold bytes, is_byte; repeat constructor; lia|vm_compute; done].
Defined.
