(* ===== verification/Netdump.v ===== *)
(** * The packet dump of the shell: [apps/init/src/netdump.rs]

    A client of [upppd]: it prints the packets and the status reports that come
    in, and answers pings. *)

From S2P Require Import Prelude Words Vfs Process App Ping.

Section Netdump.
Context `{Env}.

(** [{}.{}.{}.{}]. *)
Definition dotted (a b c d : Z) : str :=
  decimal a ++ bytes_of "." ++ decimal b ++ bytes_of "." ++ decimal c ++ bytes_of "." ++ decimal d.
(** @ apps/init/src/netdump.rs:143-149 print_ipv4_addr *)
Definition print_ipv4_addr (addr : list Z) : app unit :=
  if 4 <=? llen addr then
    a ←! p_lift (idx addr 0); b ←! p_lift (idx addr 1); c ←! p_lift (idx addr 2); d ←! p_lift (idx addr 3);
    print (dotted a b c d)
  else print (bytes_of "<invalid>").

(** [for i in 0..n { print!("{:02X} ", packet[start + i]) }]. *)
Fixpoint print_hex (packet : list Z) (start : Z) (n : nat) : app unit :=
  match n with
  | O => p_ret tt
  | S n => b ←! p_lift (idx packet start); print (hex 2 b ++ bytes_of " ") ;! print_hex packet (start + 1) n
  end.
Definition be16 (packet : list Z) (i : Z) : outcome Z := a ← idx packet i; b ← idx packet (i + 1); Done (from_be [a; b]).

(** @ apps/init/src/netdump.rs:42-141 print_ipv4_header *)
Definition print_ipv4_header (packet : list Z) : app (option Z) :=
  if llen packet <? 20 then println (bytes_of "Error: packet too short for IPv4 header") ;! p_ret None else
  version_ihl ←! p_lift (idx packet 0);
  let version := Z.shiftr version_ihl 4 in
  let ihl := Z.land version_ihl 0x0f in
  if negb (version =? 4) then println (bytes_of "Error: not IPv4 (version=" ++ decimal version ++ bytes_of ")") ;! p_ret None else
  if ihl <? 5 then println (bytes_of "Error: invalid IHL (" ++ decimal ihl ++ bytes_of ")") ;! p_ret None else
  let header_len := ihl * 4 in
  if llen packet <? header_len then println (bytes_of "Error: packet length less than header length") ;! p_ret None else
  println (bytes_of "Version: " ++ decimal version) ;!
  println (bytes_of "IHL: " ++ decimal ihl ++ bytes_of " (" ++ decimal header_len ++ bytes_of " bytes)") ;!
  dscp_ecn ←! p_lift (idx packet 1);
  println (bytes_of "DSCP: " ++ decimal (Z.shiftr dscp_ecn 2)) ;!
  println (bytes_of "ECN: " ++ decimal (Z.land dscp_ecn 0x03)) ;!
  total_len ←! p_lift (be16 packet 2);
  println (bytes_of "Total Length: " ++ decimal total_len) ;!
  id ←! p_lift (be16 packet 4);
  println (bytes_of "Identification: " ++ decimal id) ;!
  flags_frag ←! p_lift (be16 packet 6);
  let flags := wrap 8 (Z.shiftr flags_frag 13) in
  let frag_off := Z.land flags_frag 0x1fff in
  println (bytes_of "Flags: reserved=" ++ decimal (Z.land (Z.shiftr flags 2) 1) ++
    bytes_of ", DF=" ++ decimal (Z.land (Z.shiftr flags 1) 1) ++ bytes_of ", MF=" ++ decimal (Z.land flags 1)) ;!
  println (bytes_of "Fragment Offset: " ++ decimal frag_off) ;!
  ttl ←! p_lift (idx packet 8);
  println (bytes_of "TTL: " ++ decimal ttl) ;!
  protocol ←! p_lift (idx packet 9);
  println (bytes_of "Protocol: " ++ decimal protocol) ;!
  checksum ←! p_lift (be16 packet 10);
  println (bytes_of "Header Checksum: 0x" ++ hex 4 checksum) ;!
  print (bytes_of "Source Address: ") ;!
  src ←! p_lift (slice packet 12 16);
  print_ipv4_addr src ;!
  println [] ;!
  print (bytes_of "Destination Address: ") ;!
  dst ←! p_lift (slice packet 16 20);
  print_ipv4_addr dst ;!
  println [] ;!
  opt_len ←! p_lift (sub_ovf header_len 20);
  (if 0 <? opt_len then
     print (bytes_of "Options (" ++ decimal opt_len ++ bytes_of " bytes): ") ;!
     print_hex packet 20 (Z.to_nat opt_len) ;!
     println []
   else println (bytes_of "Options: (none)")) ;!
  let payload_start := header_len in
  (if payload_start <? llen packet then
     let payload_len := Z.min (llen packet - payload_start) 64 in
     print (bytes_of "Payload (first " ++ decimal payload_len ++ bytes_of " bytes): ") ;!
     print_hex packet payload_start (Z.to_nat payload_len) ;!
     println []
   else println (bytes_of "Payload: (none)")) ;!
  p_ret (Some payload_start).

(** @ apps/init/src/netdump.rs:151-156 send_ipv4 *)
Definition send_ipv4 (packet : list Z) (handle : Z) : app unit :=
  let buf := replicate 4096 0 in
  buf ←! p_lift (set_idx buf 0 1);
  buf ←! p_lift (splice buf 1 packet);
  msg ←! p_lift (slice buf 0 (llen packet + 1));
  call_ (Send handle msg).

(** The send at the end of [icmp::try_handle_ping]. *)
Definition try_handle_ping (packet : list Z) (handle : Z) : app unit :=
  reply ←! p_lift (ping_reply packet);
  match reply with Some reply => send_ipv4 reply handle | None => p_ret tt end.

(** @ apps/init/src/netdump.rs:158-163 handle_inbound_ipv4 *)
Definition handle_inbound_ipv4 (packet : list Z) (handle : Z) : app unit :=
  try_handle_ping packet handle ;!
  println (bytes_of "---------- BEGIN IPV4 PACKET ----------") ;!
  _ ←! print_ipv4_header packet;
  println (bytes_of "----------- END IPV4 PACKET -----------").

(** [core::net::Ipv4Addr::new] of four bytes of the report, displayed. *)
Definition ipv4_at (status : list Z) (i : Z) : outcome str :=
  a ← idx status i; b ← idx status (i + 1); c ← idx status (i + 2); d ← idx status (i + 3); Done (dotted a b c d).
(** @ apps/init/src/netdump.rs:165-178 handle_status *)
Definition handle_status (status : list Z) : app unit :=
  phase ←! p_lift (idx status 1);
  local_addr ←! p_lift (ipv4_at status 2);
  peer_addr ←! p_lift (ipv4_at status 6);
  dns1 ←! p_lift (ipv4_at status 10);
  dns2 ←! p_lift (ipv4_at status 14);
  println (bytes_of "--------- BEGIN STATUS REPORT ---------") ;!
  println (bytes_of "Phase: " ++ decimal phase) ;!
  println (bytes_of "Local Address: " ++ local_addr) ;!
  println (bytes_of "Peer Address: " ++ peer_addr) ;!
  println (bytes_of "DNS 1: " ++ dns1) ;!
  println (bytes_of "DNS 2: " ++ dns2) ;!
  println (bytes_of "---------- END STATUS REPORT ----------").

(** The [match] on a message and the count of what is left; nothing for [continue]. *)
Definition handle_message (msg : list Z) (handle cnt : Z) : app (option Z) :=
  kind ←! p_lift (idx msg 0);
  if kind =? 0x81 then
    packet ←! p_lift (slice msg 1 (llen msg)); handle_inbound_ipv4 packet handle ;! left ←! p_lift (sub_ovf cnt 1); p_ret (Some left)
  else if kind =? 0x82 then handle_status msg ;! left ←! p_lift (sub_ovf cnt 1); p_ret (Some left)
  else p_ret None.
Fixpoint main_loop (polls fuel : nat) (handle : Z) (buf : list Z) (cnt : Z) : app unit :=
  match fuel with
  | O => fun _ => OutOfFuel
  | S fuel =>
      '(buf, recv_len) ←! recv_poll polls handle buf;
      let msg_len := wrap 64 recv_len in
      msg ←! p_lift (slice buf 0 msg_len);
      left ←! handle_message msg handle cnt;
      match left with
      | None => main_loop polls fuel handle buf cnt
      | Some cnt => if cnt =? 0 then p_ret tt else main_loop polls fuel handle buf cnt
      end
  end.
(** @ apps/init/src/netdump.rs:24-40 main *)
Definition netdump_main (polls fuel : nat) (cnt : Z) : app unit :=
  handle ←! connect_poll polls (bytes_of "upppd");
  main_loop polls fuel handle (replicate 4096 0) cnt.
End Netdump.

(** ** Properties *)

Section NetdumpLemmas.
Context `{Env}.
Implicit Types (log : list Event) (packet msg : list Z).

Lemma idx_ok packet i : 0 <= i < llen packet -> exists b, idx packet i = Done b.
Proof. intros Hi. destruct (idx_in_range packet i Hi) as (b & Hb & _). by exists b. Qed.
Lemma be16_ok packet i : 0 <= i -> i + 1 < llen packet -> exists w, be16 packet i = Done w.
Proof.
  intros Hi Hl. unfold be16. destruct (idx_ok packet i) as [a ->]; [lia|]. destruct (idx_ok packet (i + 1)) as [b ->]; [lia|]. by eexists.
Qed.
Lemma ipv4_at_ok packet i : 0 <= i -> i + 3 < llen packet -> exists t, ipv4_at packet i = Done t.
Proof.
  intros Hi Hl. unfold ipv4_at. destruct (idx_ok packet i) as [a ->]; [lia|]. destruct (idx_ok packet (i + 1)) as [b ->]; [lia|].
  destruct (idx_ok packet (i + 2)) as [c ->]; [lia|]. destruct (idx_ok packet (i + 3)) as [d ->]; [lia|]. by eexists.
Qed.

(** What happens between two messages. *)
Definition message_of (e : Event) : option (list Z) :=
  match e.1 with Recv _ _ => if a_val e.2 =? IPC_EAGAIN then None else Some (a_data e.2) | _ => None end.
Definition quiet log log' : Prop := omap message_of log' = omap message_of log.

(** A read in range, and a call between two messages; [base] is the log of the last one. *)
Lemma wp_reads {A} (m : outcome A) log (Q : list Event -> result A Stop -> Prop) :
  (exists a, m = Done a) -> (forall a, Q log (Ok a)) -> wp (p_lift m) log Q.
Proof. intros [a Ha] HQ. by eapply wp_lift. Qed.
Lemma wp_print base s log (Q : list Event -> result unit Stop -> Prop) :
  quiet base log -> (forall log', quiet base log' -> Q log' (Ok tt)) -> wp (print s) log Q.
Proof. intros Hb HQ. by apply wp_call_, HQ. Qed.

Lemma print_hex_ok base n : forall packet start log (Q : list Event -> result unit Stop -> Prop), 0 <= start -> start + Z.of_nat n <= llen packet ->
  quiet base log -> (forall log', quiet base log' -> Q log' (Ok tt)) -> wp (print_hex packet start n) log Q.
Proof.
  induction n as [|n IH]; intros packet start log Q Hs Hl Hb HQ; cbn [print_hex]; [by apply wp_ret, HQ|].
  apply wp_bind, wp_reads; [apply idx_ok; lia|]. intros b. apply wp_bind. eapply wp_print; [exact Hb|]. intros log' Hb'. by apply IH; [lia|lia| |].
Qed.
Lemma print_ipv4_addr_ok base addr log (Q : list Event -> result unit Stop -> Prop) :
  quiet base log -> (forall log', quiet base log' -> Q log' (Ok tt)) -> wp (print_ipv4_addr addr) log Q.
Proof.
  intros Hb HQ. unfold print_ipv4_addr. destruct (Z.leb_spec 4 (llen addr)); [|by eapply wp_print].
  do 4 (apply wp_bind, wp_reads; [apply idx_ok; lia|intros ?]). by eapply wp_print.
Qed.
(** Steps through printing: what is read is in range. *)
Ltac prints :=
  repeat match goal with
  | |- forall _, _ => intros ?
  | |- wp (p_bind _ _) _ _ => apply wp_bind
  | |- wp (p_ret _) _ _ => apply wp_ret
  | |- wp (println _) _ _ => eapply wp_print; [eassumption|]
  | |- wp (print _) _ _ => eapply wp_print; [eassumption|]
  | |- wp (print_ipv4_addr _) _ _ => eapply print_ipv4_addr_ok; [eassumption|]
  | |- wp (print_hex _ _ _) _ _ => eapply print_hex_ok; [lia|lia|eassumption|]
  | |- wp (p_lift _) _ _ => apply wp_reads;
      [first [apply idx_ok; lia|apply be16_ok; lia|apply ipv4_at_ok; lia|eexists; apply slice_in_range; lia]|]
  end.

(** Whether a packet has a header that can be printed. *)
Definition printable packet : bool :=
  match packet with
  | v :: _ => (20 <=? llen packet) && (Z.shiftr v 4 =? 4) && (5 <=? Z.land v 15) && (Z.land v 15 * 4 <=? llen packet)
  | [] => false
  end.

Lemma print_ipv4_header_ok base packet log : quiet base log ->
  wp (print_ipv4_header packet) log (fun log' r => quiet base log' /\
    r = Ok (if printable packet then Some (Z.land (default 0 (head packet)) 15 * 4) else None)).
Proof.
  intros Hq.
  unfold print_ipv4_header, printable. destruct packet as [|v rest]; [change (llen [] <? 20) with true; cbv iota; by prints|].
  destruct (Z.ltb_spec (llen (v :: rest)) 20) as [Hs|Hs].
  { rewrite (proj2 (Z.leb_gt _ _)) by lia. by prints. }
  rewrite (proj2 (Z.leb_le 20 _)) by lia. apply wp_bind. eapply wp_lift; [reflexivity|]. cbn [andb].
  destruct (Z.shiftr v 4 =? 4); cbn [negb andb]; [|by prints].
  destruct (Z.ltb_spec (Z.land v 15) 5) as [Hi|Hi]; [rewrite (proj2 (Z.leb_gt _ _)) by lia; by prints|].
  rewrite (proj2 (Z.leb_le 5 _)) by lia. cbn [andb].
  destruct (Z.ltb_spec (llen (v :: rest)) (Z.land v 15 * 4)) as [Hl|Hl]; [rewrite (proj2 (Z.leb_gt _ _)) by lia; by prints|].
  rewrite (proj2 (Z.leb_le (Z.land v 15 * 4) _)) by lia. prints.
  unfold sub_ovf. rewrite (proj2 (Z.leb_le _ _)) by lia. eapply wp_lift; [done|].
  prints. destruct (Z.ltb_spec 0 (Z.land v 15 * 4 - 20)); prints;
    (destruct (Z.ltb_spec (Z.land v 15 * 4) (llen (v :: rest))); by prints).
Qed.

Lemma ping_reply_len packet reply : ping_reply packet = Done (Some reply) -> llen reply = llen packet /\ llen packet <= 1500.
Proof.
  unfold ping_reply. rewrite llen_replicate.
  repeat match goal with
  | |- (if ?b then _ else _) = _ -> _ => let E := fresh "E" in destruct b eqn:E; [done|]
  | |- (_ ← ?m; _) = _ -> _ => let E := fresh "E" in destruct m eqn:E; cbn [mbind outcome_bind]; [|done..]
  end.
  intros [= <-].
  match goal with Hs : slice _ 0 (llen packet) = Done _, Hm : (Z.of_nat 1500 <? _) = false |- _ =>
    destruct (slice_len _ _ _ _ Hs) as [-> _]; apply Z.ltb_ge in Hm; change (Z.of_nat 1500) with 1500 in Hm end. lia.
Qed.

(** The messages a server may send: packets the responder can take apart, reports of
    18 bytes or more, and anything else that is not empty. *)
Definition answerable msg : Prop :=
  exists kind rest, msg = kind :: rest /\ llen msg <= 4096 /\
    (kind = 0x81 -> exists r, ping_reply rest = Done r) /\ (kind = 0x82 -> 18 <= llen msg).
Definition counted msg : bool := match msg with kind :: _ => (kind =? 0x81) || (kind =? 0x82) | [] => false end.

Lemma send_ipv4_ok base packet handle log (Q : list Event -> result unit Stop -> Prop) :
  llen packet <= 1500 -> quiet base log -> (forall log', quiet base log' -> Q log' (Ok tt)) -> wp (send_ipv4 packet handle) log Q.
Proof.
  intros Hl Hq HQ. unfold send_ipv4. pose proof (llen_nonneg packet). set (buf := replicate 4096 0). assert (llen buf = 4096) as Hb by apply llen_replicate.
  apply wp_bind. eapply wp_lift; [apply set_idx_in_range; lia|]. set (buf1 := <[_ := _]> buf). assert (llen buf1 = 4096) as Hb1 by (unfold buf1; by rewrite llen_insert).
  apply wp_bind. eapply wp_lift; [apply splice_in_range; lia|]. set (buf2 := _ ++ _ ++ _).
  assert (llen buf2 = 4096) as Hb2.
  { unfold buf2, llen in *. rewrite !length_app, length_take, length_drop. change (Z.to_nat 1) with 1%nat. lia. }
  apply wp_bind. eapply wp_lift; [apply slice_in_range; lia|]. by apply wp_call_, HQ.
Qed.

Lemma handle_message_ok msg handle cnt log :
  answerable msg -> 0 < cnt ->
  wp (handle_message msg handle cnt) log (fun log' r => quiet log log' /\ r = Ok (if counted msg then Some (cnt - 1) else None)).
Proof.
  intros (kind & rest & -> & Hl & Hping & Hstat) Hc. unfold handle_message, counted.
  assert (sub_ovf cnt 1 = Done (cnt - 1)) as Hsub by (unfold sub_ovf; by rewrite (proj2 (Z.leb_le _ _)) by lia).
  apply wp_bind. eapply wp_lift; [reflexivity|]. destruct (Z.eqb_spec kind 0x81) as [->|H81]; cbn [orb].
  - apply wp_bind. eapply wp_lift.
    { pose proof (slice_at [0x81] rest [] 1 (llen (0x81 :: rest))) as Hs. rewrite app_nil_r in Hs. apply Hs; [done|by rewrite llen_cons]. }
    destruct (Hping eq_refl) as [r Hr]. unfold handle_inbound_ipv4, try_handle_ping.
    do 3 apply wp_bind. eapply wp_lift; [exact Hr|].
    assert (forall log1, quiet log log1 ->
      wp (println (bytes_of "---------- BEGIN IPV4 PACKET ----------") ;!
          _ ←! print_ipv4_header rest; println (bytes_of "----------- END IPV4 PACKET -----------")) log1
        (fun log' r => match r with Ok _ => wp (E := Stop) (left ←! p_lift (sub_ovf cnt 1); p_ret (Some left)) log'
            (fun log' r => quiet log log' /\ r = Ok (Some (cnt - 1))) | Err e => quiet log log' /\ (Err e : result (option Z) Stop) = Ok (Some (cnt - 1)) end)) as Hpr.
    { intros log1 Hq1. prints. eapply wp_mono; [by eapply print_ipv4_header_ok|]. intros log3 r3 [Hq3 ->]. prints.
      rewrite Hsub. eapply wp_lift; [done|]. by apply wp_ret. }
    destruct r as [reply|]; [|by apply wp_ret, Hpr].
    eapply send_ipv4_ok; [apply ping_reply_len in Hr; lia|by instantiate (1 := log)|]. exact Hpr.
  - destruct (Z.eqb_spec kind 0x82) as [->|H82]; [|by apply wp_ret].
    specialize (Hstat eq_refl). assert (quiet log log) as Hq by done. unfold handle_status. prints.
    rewrite Hsub. eapply wp_lift; [done|]. by apply wp_ret.
Qed.

(** Every message is one the server may send. *)
Definition server_messages : Prop := forall log handle cap, a_val (env log (Recv handle cap)) <> IPC_EAGAIN ->
  answerable (a_data (env log (Recv handle cap))) /\ a_val (env log (Recv handle cap)) = llen (a_data (env log (Recv handle cap))).
(** Nothing keeps the client waiting, and every message is a packet or a report. *)
Definition busy_server : Prop :=
  (forall log name, 0 <= a_val (env log (Connect name))) /\
  forall log handle cap, a_val (env log (Recv handle cap)) <> IPC_EAGAIN /\ counted (a_data (env log (Recv handle cap))) = true.
(** Packets and reports received so far. *)
Definition counted_messages log : Z := llen (filter (fun m => counted m = true) (omap message_of log)).

Hypothesis (Hserver : server_messages).

(** The buffer holds the message at its start. *)
Lemma received buf ans : answerable (a_data ans) -> a_val ans = llen (a_data ans) -> length buf = 4096%nat ->
  slice (fill buf (a_data ans)) 0 (wrap 64 (a_val ans)) = Done (a_data ans) /\ length (fill buf (a_data ans)) = 4096%nat.
Proof.
  intros (kind & rest & Hd & Hl & _) -> Hb. pose proof (llen_nonneg (a_data ans)).
  rewrite wrap_small by (unfold fits; change (2 ^ 64) with 18446744073709551616; lia). unfold fill.
  rewrite take_ge by (rewrite length_app, length_drop; unfold llen in *; lia). split.
  - by apply (slice_at [] (a_data ans) (drop (length (a_data ans)) buf)).
  - rewrite length_app, length_drop. unfold llen in *. lia.
Qed.

Lemma counted_messages_cons handle cap ans log log' :
  a_val ans <> IPC_EAGAIN -> quiet ((Recv handle cap, ans) :: log) log' ->
  counted_messages log' = counted_messages log + if counted (a_data ans) then 1 else 0.
Proof.
  intros Hv Hq. unfold counted_messages. rewrite Hq. cbn. rewrite (proj2 (Z.eqb_neq _ _) Hv), filter_cons.
  destruct (counted (a_data ans)); [rewrite decide_True by done; rewrite llen_cons|rewrite decide_False by done]; lia.
Qed.
Lemma counted_messages_quiet log log' : quiet log log' -> counted_messages log' = counted_messages log.
Proof. unfold counted_messages. by intros ->. Qed.

Lemma recv_poll_safe polls : forall handle buf log, length buf = 4096%nat ->
  safe (recv_poll polls handle buf) log (fun log' r => exists cap ans log0, quiet log log0 /\ log' = (Recv handle cap, ans) :: log0 /\
    a_val ans <> IPC_EAGAIN /\ answerable (a_data ans) /\ exists buf', r = Ok (buf', a_val ans) /\
    slice buf' 0 (wrap 64 (a_val ans)) = Done (a_data ans) /\ length buf' = 4096%nat).
Proof.
  induction polls as [|polls IH]; intros handle buf log Hb; cbn [recv_poll]; [apply safe_stuck|].
  apply safe_bind. unfold sys_ipc_recv. apply safe_bind, safe_call, safe_ret.
  pose proof (Hserver log handle (llen buf)) as Hm. set (ans := env log _) in *.
  destruct (Z.eqb_spec (a_val ans) IPC_EAGAIN) as [Hag|Hag]; cbn [negb].
  - eapply safe_mono; [apply IH|].
    + unfold fill. rewrite length_take, length_app, length_drop. lia.
    + intros log' r (cap & a & log0 & Hq & Hrest). exists cap, a, log0. split; [|exact Hrest].
      unfold quiet in *. rewrite Hq. cbn. by rewrite (proj2 (Z.eqb_eq _ _) Hag).
  - destruct (Hm Hag) as [Ha Hl]. destruct (received buf ans Ha Hl Hb) as [Hs Hlen].
    apply safe_ret. exists (llen buf), ans, log. split; [done|]. split; [done|]. split; [done|]. split; [done|]. by eexists.
Qed.

Lemma connect_poll_safe polls : forall name log, safe (connect_poll polls name) log (fun log' r => quiet log log' /\ exists h, r = Ok h).
Proof.
  induction polls as [|polls IH]; intros name log; cbn [connect_poll]; [apply safe_stuck|].
  unfold call_handle, call_val. do 3 apply safe_bind. apply safe_call, safe_ret, safe_ret. destruct (_ <? 0).
  - eapply safe_mono; [apply IH|]. done.
  - apply safe_ret. split; [done|by eexists].
Qed.

Lemma main_loop_safe polls fuel : forall handle buf cnt log, 0 < cnt -> length buf = 4096%nat ->
  safe (main_loop polls fuel handle buf cnt) log (fun log' r => r = Ok tt /\ counted_messages log' = counted_messages log + cnt).
Proof.
  induction fuel as [|fuel IH]; intros handle buf cnt log Hc Hb; cbn [main_loop]; [apply safe_stuck|].
  apply safe_bind. eapply safe_mono; [by apply recv_poll_safe|].
  intros log1 r (cap & ans & log0 & Hq0 & -> & Hag & Ha & buf' & -> & Hs & Hb'). apply safe_bind. eapply safe_lift; [exact Hs|].
  apply safe_bind, safe_wp. eapply wp_mono; [by apply handle_message_ok|]. intros log2 r [Hq ->].
  pose proof (counted_messages_cons _ _ _ _ _ Hag Hq) as Hn. rewrite (counted_messages_quiet _ _ Hq0) in Hn.
  destruct (counted (a_data ans)).
  - destruct (Z.eqb_spec (cnt - 1) 0); [apply safe_ret; split; [done|lia]|].
    eapply safe_mono; [apply IH; [lia|done]|]. intros log3 r [-> Hn3]. split; [done|lia].
  - eapply safe_mono; [apply IH; [lia|done]|]. intros log3 r [-> Hn3]. split; [done|lia].
Qed.

Lemma main_loop_returns polls fuel : forall handle buf cnt log, busy_server -> 0 < cnt <= Z.of_nat fuel -> (0 < polls)%nat -> length buf = 4096%nat ->
  returns (main_loop polls fuel handle buf cnt log).
Proof.
  intros handle buf cnt log [_ Hbusy]. revert handle buf cnt log. induction fuel as [|fuel IH]; intros handle buf cnt log Hc Hp Hb; [lia|].
  destruct polls as [|polls]; [lia|]. cbn [main_loop recv_poll]. unfold sys_ipc_recv, call, p_bind, p_ret. cbn [mbind outcome_bind].
  destruct (Hbusy log handle (llen buf)) as [Hag Hcn]. destruct (Hserver _ _ _ Hag) as [Ha Hl].
  set (ans := env log _) in *. rewrite (proj2 (Z.eqb_neq _ _) Hag). cbn [negb].
  destruct (received buf ans Ha Hl Hb) as [Hs Hlen]. unfold p_lift. cbn [mbind outcome_bind]. rewrite Hs. cbn [mbind outcome_bind].
  destruct (handle_message_ok (a_data ans) handle cnt ((Recv handle (llen buf), ans) :: log) Ha) as (log2 & r & Hm & _ & ->); [lia|].
  rewrite Hm, Hcn. cbn [mbind outcome_bind]. destruct (Z.eqb_spec (cnt - 1) 0); [by eexists|]. apply IH; [lia|done|done].
Qed.
End NetdumpLemmas.

(** the dump stops after the number of packets and reports it was asked for.  With a
    server that sends what the client can take apart, it never panics, whatever the
    messages in between, and when it comes back it has received exactly [cnt] packets and
    reports; when the server keeps sending them it does come back. *)
Theorem netdump_counts_messages `{Env} polls fuel cnt log :
  server_messages -> 0 < cnt ->
  safe (netdump_main polls fuel cnt) log (fun log' r => r = Ok tt /\ counted_messages log' = counted_messages log + cnt) /\
  (busy_server -> (0 < polls)%nat -> cnt <= Z.of_nat fuel -> returns (netdump_main polls fuel cnt log)).
Proof.
  intros Hserver Hc. split.
  - unfold netdump_main. apply safe_bind. eapply safe_mono; [apply connect_poll_safe|]. intros log1 r [Hq [h ->]].
    rewrite <- (counted_messages_quiet _ _ Hq). by apply main_loop_safe; [done|done|apply length_replicate].
  - intros Hbusy Hp Hf. destruct polls as [|polls]; [lia|]. unfold netdump_main. cbn [connect_poll].
    unfold p_bind at 1. unfold call_handle, call_val, call, p_bind at 1 2 3, p_ret. cbn [mbind outcome_bind].
    rewrite (proj2 (Z.ltb_ge _ 0)) by apply Hbusy. apply main_loop_returns; [done|done|lia|lia|apply length_replicate].
Qed.

(** The server going away is not one of its messages: a receive of 0 bytes panics. *)
Lemma netdump_panics_at_end `{Env} polls fuel handle buf cnt log :
  a_val (env log (Recv handle (llen buf))) = 0 -> main_loop (S polls) (S fuel) handle buf cnt log = Panic.
Proof.
  intros Hz. cbn [main_loop recv_poll]. unfold sys_ipc_recv, call, p_bind, p_ret. cbn [mbind outcome_bind]. rewrite Hz. cbn [negb Z.eqb IPC_EAGAIN].
  unfold p_lift. cbn [mbind outcome_bind]. change (wrap 64 0) with 0. rewrite slice_in_range by (first [done|apply llen_nonneg]). done.
Qed.

(** A server that sends the same report over and over. *)
#[local] Instance report_env : Env := fun _ a =>
  match a with Connect _ => mk_Answer 3 [] | Recv _ _ => mk_Answer 18 (0x82 :: replicate 17 1) | _ => mk_Answer 0 [] end.
Lemma netdump_counts_messages_witness : exists log', netdump_main 1 2 2 [] = Done (log', Ok tt) /\ counted_messages log' = 2.
Proof.
  assert (server_messages) as Hs.
  { intros log handle cap _. split; [|done]. exists 0x82, (replicate 17 1). repeat split; done. }
  assert (busy_server) as Hb by done.
  destruct (netdump_counts_messages 1 2 2 [] Hs ltac:(done)) as [Hsafe Hret].
  destruct (safe_returns _ _ _ Hsafe (Hret Hb ltac:(lia) ltac:(lia))) as (log' & r & Hm & -> & Hn).
  exists log'. split; [exact Hm|]. rewrite Hn. reflexivity.
Defined.
