(* ===== verification/Init.v ===== *)
(** * The shell: [apps/init/src/main.rs]

    Lines from the keyboard, built-in commands over the system calls, and external
    commands run by fork and exec. *)

From S2P Require Import Prelude Words Vfs Process App Ping Netdump.

Section Shell.
Context `{Env}.

(** ** Directories and files *)

(** [entries] is the buffer of 16 entries of 256 bytes. *)
Definition entry_at (entries : list Z) (i : nat) : DirEntry := dirent_of_bytes (take 256 (drop (256 * i) entries)).
Definition entry_text (e : DirEntry) : str := if user_is_dir e then user_name e ++ bytes_of "/" else user_name e.
(** @ apps/init/src/main.rs:41-48 list_dir -- the loop over the entries *)
Fixpoint print_entries (entries : list Z) (i n : nat) : app unit :=
  match n with
  | O => p_ret tt
  | S n => println (entry_text (entry_at entries i)) ;! print_entries entries (i + 1) n
  end.
(** @ apps/init/src/main.rs:33-49 list_dir -- the loop *)
Fixpoint list_loop (fuel : nat) (path : str) (fd : Z) (entries : list Z) : app unit :=
  match fuel with
  | O => fun _ => OutOfFuel
  | S fuel =>
      ans ←! call (Getdents fd 16);
      let entries := fill entries (a_data ans) in
      if a_val ans =? U64_MAX then println (bytes_of "error while reading directory " ++ path) else
      let count := a_val ans in
      if count =? 0 then p_ret tt else
      if 16 <? count then p_panic else
      print_entries entries 0 (Z.to_nat count) ;!
      list_loop fuel path fd entries
  end.
(** @ apps/init/src/main.rs:30-54 list_dir *)
Definition list_dir (fuel : nat) (path : str) : app unit :=
  d ←! call_opt (Opendir path);
  match d with
  | Some fd => list_loop fuel path fd (replicate 4096 0) ;! call_ (Closedir fd)
  | None => println (bytes_of "directory " ++ path ++ bytes_of " not found")
  end.

(** [str::from_utf8(..).unwrap()]. *)
Definition utf8_unwrap (s : list Z) : outcome str := if utf8_valid s then Done s else Panic.

(** The loop of [file-read]; a round for each 512 bytes. *)
(** @ apps/init/src/main.rs:207-212 shell_main_loop -- the loop of file-read *)
Fixpoint file_read_loop (rounds : nat) (fd remaining_size : Z) (buf : list Z) : app unit :=
  match rounds with
  | O => fun _ => OutOfFuel
  | S rounds =>
      if 0 <? remaining_size then
        let will_read := Z.min remaining_size 512 in
        part ←! p_lift (slice buf 0 will_read);
        part ←! sys_read2 fd part;
        buf ←! p_lift (splice buf 0 part);
        text ←! p_lift (utf8_unwrap part);
        sys_write 1 text ;!
        remaining_size ←! p_lift (sub_ovf remaining_size will_read);
        file_read_loop rounds fd remaining_size buf
      else p_ret tt
  end.
(** @ apps/init/src/main.rs:202-216 shell_main_loop -- file-read *)
Definition file_read (file_name : str) : app unit :=
  f ←! sys_open file_name false;
  match f with
  | Some fd =>
      remaining_size ←! call_val (Seek fd 0 SEEK_END);
      call_ (Seek fd 0 SEEK_SET) ;!
      file_read_loop (S (Z.to_nat (div_ceil remaining_size 512))) fd remaining_size (replicate 512 0) ;!
      call_ (Close fd)
  | None => println (bytes_of "file " ++ file_name ++ bytes_of " not found")
  end.

(** The loop of [file-write]: the test reads the line buffer, not the line. *)
(** @ apps/init/src/main.rs:220-224 shell_main_loop -- the loop of file-write *)
Fixpoint file_write_loop (polls fuel : nat) (fd : Z) (line_buf : list Z) : app unit :=
  match fuel with
  | O => fun _ => OutOfFuel
  | S fuel =>
      if bool_decide (take 3 line_buf = bytes_of "EOF") then p_ret tt else
      '(line_buf, len) ←! read_line polls line_buf;
      line ←! p_lift (slice line_buf 0 len);
      text ←! p_lift (utf8_unwrap line);
      sys_write fd text ;!
      sys_write fd [10] ;!
      file_write_loop polls fuel fd line_buf
  end.
(** @ apps/init/src/main.rs:217-228 shell_main_loop -- file-write *)
Definition file_write (polls fuel : nat) (file_name : str) : app unit :=
  f ←! sys_open file_name true;
  match f with
  | Some fd => file_write_loop polls fuel fd (replicate 128 0) ;! call_ (Close fd)
  | None => println (bytes_of "error while opening " ++ file_name)
  end.

(** ** Devices *)

(** A device that must open. *)
Definition with_device (name : str) (k : Z -> app unit) : app unit :=
  f ←! sys_open name false;
  match f with Some fd => k fd | None => println (bytes_of "error while opening " ++ name) end.
(** The first sector twice: at once, and in two pieces after a seek. *)
(** @ apps/init/src/main.rs:134-146 shell_main_loop -- disk-read *)
Definition read_twice (fd : Z) : app unit :=
  content ←! sys_read2 fd (replicate 512 0);
  println (debug_bytes content) ;!
  call_ (Seek fd 0 SEEK_SET) ;!
  first ←! p_lift (slice content 0 100);
  first ←! sys_read2 fd first;
  content ←! p_lift (splice content 0 first);
  second ←! p_lift (slice content 100 512);
  second ←! sys_read2 fd second;
  content ←! p_lift (splice content 100 second);
  println (debug_bytes content) ;!
  call_ (Close fd).
(** @ apps/init/src/main.rs:160-168 shell_main_loop -- usb-read *)
Definition read_once (fd : Z) : app unit :=
  content ←! sys_read2 fd (replicate 512 0);
  println (debug_bytes content) ;!
  call_ (Close fd).
(** @ apps/init/src/main.rs:169-176 shell_main_loop -- disk-size *)
Definition show_size (name : str) (fd : Z) : app unit :=
  sz ←! call_val (Seek fd 0 SEEK_END);
  println (name ++ bytes_of " is " ++ decimal sz ++ bytes_of " bytes") ;!
  call_ (Close fd).

(** [while sys_getticks() < start + 50 {}]. *)
Fixpoint wait_ticks (fuel : nat) (start : Z) : app unit :=
  match fuel with
  | O => fun _ => OutOfFuel
  | S fuel =>
      now ←! call_val Getticks;
      deadline ←! p_lift (add_ovf 64 start 50);
      if now <? deadline then wait_ticks fuel start else p_ret tt
  end.
(** @ apps/init/src/main.rs:255-264 shell_main_loop -- beep *)
Definition beep (fuel : nat) (freq : str) : app unit :=
  with_device (bytes_of "/dev/pcspk") (fun fd =>
    sys_write fd freq ;!
    start ←! call_val Getticks;
    wait_ticks fuel start ;!
    sys_write fd (bytes_of "stop") ;!
    call_ (Close fd)).

(** [params.split(' ')]. *)
Fixpoint split_space (word s : str) : list str :=
  match s with
  | [] => [word]
  | b :: s => if b =? 32 then word :: split_space [] s else split_space (word ++ [b]) s
  end.
(** [it.next().unwrap().parse::<usize>().unwrap()]. *)
Definition next_number (it : list str) : outcome (Z * list str) :=
  match it with
  | w :: it => match parse_usize w with Ok n => Done (n, it) | Err _ => Panic end
  | [] => Panic
  end.
(** @ apps/init/src/main.rs:233-252 shell_main_loop -- mount *)
Definition mount (params : str) : app unit :=
  let it := split_space [] params in
  let typs := default [] (head it) in
  let typ := if bool_decide (typs = bytes_of "ahci") then Some 0
             else if bool_decide (typs = bytes_of "nvme") then Some 1
             else if bool_decide (typs = bytes_of "usb") then Some 2 else None in
  match typ with
  | None => p_ret tt
  | Some typ =>
      '(disk, it) ←! p_lift (next_number (tail it));
      '(part, it) ←! p_lift (next_number it);
      mountpoint ←! p_lift (unwrap (head it));
      if negb (bool_decide (last mountpoint = Some SLASH)) then eprintln (bytes_of "a mount point must end with /")
      else call_ (Mount typ disk part mountpoint)
  end.

Definition info (tp : Z) : app Z := v ←! call_opt (Info tp); p_lift (unwrap v).
(** @ apps/init/src/main.rs:113-129 shell_main_loop -- sysinfo *)
Definition sysinfo : app unit :=
  println (bytes_of "DoglinkOS-2nd version 1.4.1") ;!
  println (bytes_of "DoglinkOS Shell version 1.4.1") ;!
  println (bytes_of "In user mode") ;!
  rows ←! info 1; cols ←! info 0;
  println (bytes_of "Console: " ++ decimal rows ++ bytes_of " rows, " ++ decimal cols ++ bytes_of " cols") ;!
  width ←! info 6; height ←! info 7; pitch ←! info 9;
  println (bytes_of "Framebuffer: " ++ decimal width ++ bytes_of " x " ++ decimal height ++ bytes_of ", pitch " ++ decimal pitch) ;!
  pid ←! info 2;
  println (bytes_of "Current shell PID: " ++ decimal pid) ;!
  ticks ←! info 3;
  println (bytes_of "Current kernel ticks: " ++ decimal ticks).

(** ** The commands *)

Definition HELP : list str :=
  [bytes_of "Builtin commands:";
   bytes_of "  help               Show this help text";
   bytes_of "  panic-test         Trigger a panic for testing";
   bytes_of "  exit               Exit the shell";
   bytes_of "  sysinfo            Show system information";
   bytes_of "  echo <text>        Print text";
   bytes_of "  clear              Clear the screen";
   bytes_of "  disk-read          Read from /dev/disk0";
   bytes_of "  nvme-read          Read from /dev/nvme0-0";
   bytes_of "  usb-read           Read the first sector from /dev/usb0";
   bytes_of "  disk-size          Show /dev/disk0 size";
   bytes_of "  nvme-size          Show /dev/nvme0-0 size";
   bytes_of "  usb-size           Show /dev/usb0 size";
   bytes_of "  initrd-read        Read from /dev/initrd";
   bytes_of "  file-read <path>   Print file contents";
   bytes_of "  file-write <path>  Write lines to a file until EOF";
   bytes_of "  ls [path]          List directory entries";
   bytes_of "  mount <ahci|nvme|usb> <disk> <partition> <path/>";
   bytes_of "  file-rm            Remove /test.txt";
   bytes_of "  beep <freq>        Play a beep";
   bytes_of "  poweroff           Power off the machine";
   bytes_of "  reboot             Reboot the machine";
   bytes_of "  netdump            Dump recieved packets from upppd";
   [];
   bytes_of "External commands:";
   bytes_of "  /bin/<name>        Execute a command from /bin";
   bytes_of "  exiter             Do nothing";
   bytes_of "  hello-std          A Rust std program that does not work properly";
   bytes_of "  dins-empty         Do nothing";
   bytes_of "  dins-hello         Print " ++ [34] ++ bytes_of "Hello, World!" ++ [34];
   bytes_of "  pl_editor          An editor that can easily port to any OSes";
   bytes_of "  lua                A powerful, efficient, lightweight, embeddable scripting language";
   bytes_of "  huge-alloc-test    Memory allocation tester (requires at least 5 GiB of memory)";
   bytes_of "  imgview            Draw an image on the framebuffer (can mess up the terminal and become hard to clear)";
   bytes_of "  ipc-demo           Fork + bidirectional anonymous IPC test";
   bytes_of "  upppd              PPPoS user-space network service over /dev/serial"].
(** @ apps/init/src/main.rs:56-97 print_help *)
Definition print_help : app unit := p_each HELP println.

(** The path handed to [exec]. *)
(** @ apps/init/src/main.rs:278-286 shell_main_loop -- the path of an external command *)
Definition command_path (buf : list Z) (len : Z) : outcome (list Z * Z) :=
  let buf2 := replicate 128 0 in
  first ← idx buf 0;
  if negb (first =? SLASH) then
    buf2 ← splice buf2 0 (bytes_of "/bin/");
    line ← slice buf 0 len;
    buf2 ← splice buf2 5 line;
    Done (buf2, len + 5)
  else
    line ← slice buf 0 len;
    buf2 ← splice buf2 0 line;
    Done (buf2, len).
(** @ apps/init/src/main.rs:277-296 shell_main_loop -- an external command *)
Definition external (buf : list Z) (len : Z) (cmd : str) : app unit :=
  '(buf2, len2) ←! p_lift (command_path buf len);
  fork_result ←! sys_fork;
  if fork_result =? 0 then
    path ←! p_lift (slice buf2 0 len2);
    sys_exec path ;!
    eprintln (bytes_of "unknown command") ;!
    sys_exit
  else if negb (bool_decide (cmd = bytes_of "upppd")) then call_ (Waitpid fork_result)
  else p_ret tt.

Definition is_cmd (cmd : str) (name : string) : bool := bool_decide (cmd = bytes_of name).
#[global] Arguments is_cmd _ _%_string.
(** One command; whether the shell goes on. *)
(** @ apps/init/src/main.rs:103-296 shell_main_loop -- one command *)
Definition run_command (polls fuel : nat) (buf : list Z) (len : Z) : app bool :=
  line ←! p_lift (slice buf 0 len);
  cmd ←! p_lift (utf8_unwrap line);
  let go (m : app unit) : app bool := m ;! p_ret true in
  if bool_decide (cmd = []) then p_ret true
  else if is_cmd cmd "help" then go print_help
  else if is_cmd cmd "panic-test" then p_panic
  else if is_cmd cmd "exit" then p_ret false
  else if is_cmd cmd "sysinfo" then go sysinfo
  else match strip_prefix (bytes_of "echo ") cmd with
  | Some content => go (println content)
  | None =>
  if is_cmd cmd "clear" then go (print ([27] ++ bytes_of "[H" ++ [27] ++ bytes_of "[2J" ++ [27] ++ bytes_of "[3J"))
  else if is_cmd cmd "disk-read" then go (with_device (bytes_of "/dev/disk0") read_twice)
  else if is_cmd cmd "nvme-read" then go (with_device (bytes_of "/dev/nvme0-0") read_twice)
  else if is_cmd cmd "usb-read" then go (with_device (bytes_of "/dev/usb0") read_once)
  else if is_cmd cmd "disk-size" then go (with_device (bytes_of "/dev/disk0") (show_size (bytes_of "/dev/disk0")))
  else if is_cmd cmd "nvme-size" then go (with_device (bytes_of "/dev/nvme0-0") (show_size (bytes_of "/dev/nvme0-0")))
  else if is_cmd cmd "usb-size" then go (with_device (bytes_of "/dev/usb0") (show_size (bytes_of "/dev/usb0")))
  else if is_cmd cmd "initrd-read" then go (with_device (bytes_of "/dev/initrd") read_once)
  else match strip_prefix (bytes_of "file-read ") cmd with
  | Some file_name => go (file_read file_name)
  | None =>
  match strip_prefix (bytes_of "file-write ") cmd with
  | Some file_name => go (file_write polls fuel file_name)
  | None =>
  if is_cmd cmd "ls" then go (list_dir fuel (bytes_of "/"))
  else match strip_prefix (bytes_of "ls ") cmd with
  | Some path => go (list_dir fuel path)
  | None =>
  match strip_prefix (bytes_of "mount ") cmd with
  | Some params => go (mount params)
  | None =>
  if starts_with cmd (bytes_of "file-rm") then go (call_ (Remove (bytes_of "/test.txt")))
  else match strip_prefix (bytes_of "beep ") cmd with
  | Some freq => go (beep fuel freq)
  | None =>
  if is_cmd cmd "poweroff" || is_cmd cmd "reboot" then
    go (with_device (bytes_of "/dev/power") (fun fd => sys_write fd cmd ;! call_ (Close fd)))
  else match strip_prefix (bytes_of "netdump") cmd with
  | Some x => go (netdump_main polls fuel (match parse_usize (trim x) with Ok n => n | Err _ => 4 end))
  | None => go (external buf len cmd)
  end end end end end end end.

(** @ apps/init/src/main.rs:99-297 shell_main_loop *)
Fixpoint shell_main_loop (polls fuel : nat) (buf : list Z) : app unit :=
  match fuel with
  | O => fun _ => OutOfFuel
  | S fuel' =>
      print (bytes_of "[User@DoglinkOS-2nd /]$ ") ;!
      '(buf, len) ←! read_line polls buf;
      go_on ←! run_command polls fuel buf len;
      if (go_on : bool) then shell_main_loop polls fuel' buf else p_ret tt
  end.

(** [TEST] is one word of the process's own memory. *)
(** @ apps/init/src/main.rs:300-313 _start *)
Definition init_start (polls fuel : nat) : app unit :=
  sys_write 0 ([10; 10] ++ bytes_of "DoglinkOS Shell v1.4.1" ++ [10]) ;!
  shell_main_loop polls fuel (replicate 128 0) ;!
  child ←! sys_fork;
  let t := if child =? 0 then 5 else 4 in
  println (bytes_of "Now TEST is " ++ decimal t ++ bytes_of "!") ;!
  sys_exec (bytes_of "/bin/exiter") ;!
  sys_exit.
End Shell.

(** ** Lines *)

(** The keyboard types [keys]; [typed] counts the keys already read. *)
Definition is_read (e : Event) : option unit := match e.1 with Read => Some tt | _ => None end.
Definition typed (log : list Event) : nat := length (omap is_read log).
Definition keyboard `{Env} (keys : list Z) : Prop := forall log k, keys !! typed log = Some k -> a_val (env log Read) = k.
(** A byte that is typed; 255 would be an empty queue. *)
Definition key (b : Z) : Prop := 0 <= b < 255.

Section Lines.
Context `{Env} (keys : list Z).
Hypotheses (Hkeys : keyboard keys) (Hkey : Forall key keys).

Lemma sys_read_key polls log k (Q : list Event -> result Z Stop -> Prop) :
  keys !! typed log = Some k -> (0 < polls)%nat -> (forall ans, typed ((Read, ans) :: log) = S (typed log) -> Q ((Read, ans) :: log) (Ok k)) ->
  wp (sys_read polls) log Q.
Proof.
  intros Hk Hp HQ. destruct polls as [|polls]; [lia|]. cbn [sys_read]. unfold raw_sys_read, call_val.
  do 3 apply wp_bind. apply wp_call, wp_ret, wp_ret. rewrite (Hkeys _ _ Hk).
  assert (key k) as Hr by by eapply Forall_lookup_1. unfold key in Hr.
  rewrite wrap_small by (unfold fits; change (2 ^ 8) with 256; lia). rewrite (proj2 (Z.eqb_neq _ _)) by lia. by apply wp_ret, HQ.
Qed.

(** From [i] on, [line] is what is typed before a newline. *)
Lemma read_line_loop_spec polls : forall line done_ rest log,
  (0 < polls)%nat -> 10 ∉ line -> drop (typed log) keys = line ++ 10 :: rest ->
  forall tail_, (length line < length tail_)%nat ->
  wp (read_line_loop polls (length tail_) (done_ ++ tail_) (llen done_)) log (fun log' r =>
    r = Ok (done_ ++ line ++ drop (length line) tail_, llen done_ + llen line) /\ drop (typed log') keys = rest /\ exists evs, log' = evs ++ log).
Proof.
  induction line as [|c line IH]; intros done_ rest log Hp Hn Hd tail_ Ht.
  - destruct tail_ as [|t tail_]; [cbn in Ht; lia|]. cbn [length read_line_loop app] in *. apply wp_bind.
    assert (keys !! typed log = Some 10) as Hk.
    { rewrite <- (Nat.add_0_r (typed log)), <- lookup_drop, Hd. done. }
    eapply sys_read_key; [done|done|]. intros ans Ht'. cbn [Z.eqb Pos.eqb]. apply wp_ret. rewrite drop_0. split; [by rewrite Z.add_0_r|].
    split; [|by eexists [_]]. rewrite Ht'. rewrite <- (Nat.add_1_r (typed log)), <- drop_drop, Hd. done.
  - destruct tail_ as [|t tail_]; [cbn in Ht; lia|]. cbn [length read_line_loop app] in *. apply wp_bind.
    assert (keys !! typed log = Some c) as Hk.
    { rewrite <- (Nat.add_0_r (typed log)), <- lookup_drop, Hd. done. }
    eapply sys_read_key; [done|done|]. intros ans Ht'. apply not_elem_of_cons in Hn as [Hc Hn].
    rewrite (proj2 (Z.eqb_neq _ _)) by done. apply wp_bind. eapply wp_lift; [by apply set_idx_at|].
    replace (llen done_ + 1) with (llen (done_ ++ [c])) by (rewrite llen_app; done).
    replace (done_ ++ c :: tail_) with ((done_ ++ [c]) ++ tail_) by by rewrite <- app_assoc.
    eapply wp_mono; [eapply (IH (done_ ++ [c]) rest); [done|done| |lia]|].
    + rewrite Ht', <- (Nat.add_1_r (typed log)), <- drop_drop, Hd. done.
    + intros log' r (-> & Hr & evs & ->). split; [|split; [done|exists (evs ++ [(Read, ans)]); by rewrite <- app_assoc]].
      replace (llen (done_ ++ [c]) + llen line) with (llen done_ + llen (c :: line)) by (rewrite llen_app, !llen_cons; change (llen (@nil Z)) with 0; lia).
      by rewrite <- !app_assoc.
Qed.
End Lines.

(** A line is what is typed.  [read_line] returns the bytes typed up to the newline and
    their number, and takes the newline with them; a line that fills the buffer comes back
    whole without its newline, and what is left of it is the beginning of the next line. *)
Theorem read_line_takes_typed `{Env} polls keys line rest buf log :
  keyboard keys -> Forall key keys -> (0 < polls)%nat -> 10 ∉ line -> drop (typed log) keys = line ++ rest ->
  (forall rest', rest = 10 :: rest' -> (length line < length buf)%nat ->
     wp (read_line polls buf) log (fun log' r => r = Ok (line ++ drop (length line) buf, llen line) /\ drop (typed log') keys = rest')) /\
  (length line = length buf ->
     wp (read_line polls buf) log (fun log' r => r = Ok (line, llen line) /\ drop (typed log') keys = rest)).
Proof.
  intros Hkeys Hkey Hp Hn Hd. unfold read_line. split.
  - intros rest' -> Hl. eapply wp_mono; [by apply (read_line_loop_spec keys Hkeys Hkey polls line [] rest')|].
    intros log' r (-> & Hr & _). split; [done|done].
  - intros Hl. assert (forall line done_ tail_ log, 10 ∉ line -> drop (typed log) keys = line ++ rest -> length line = length tail_ ->
      wp (read_line_loop polls (length tail_) (done_ ++ tail_) (llen done_)) log
        (fun log' r => r = Ok (done_ ++ line, llen done_ + llen line) /\ drop (typed log') keys = rest)) as Hgen.
    2: { eapply wp_mono; [by apply (Hgen line [] buf log)|]. done. }
    clear line Hn Hd Hl buf log. intros line. induction line as [|c line IH]; intros done_ tail_ log Hn Hd Ht.
    + destruct tail_; [|done]. cbn [length read_line_loop]. apply wp_ret. rewrite app_nil_r, Z.add_0_r. done.
    + destruct tail_ as [|t tail_]; [done|]. cbn [length read_line_loop app] in *. apply wp_bind.
      assert (keys !! typed log = Some c) as Hk by (rewrite <- (Nat.add_0_r (typed log)), <- lookup_drop, Hd; done).
      eapply sys_read_key; [done|done|done|done|]. intros ans Ht'. apply not_elem_of_cons in Hn as [Hc Hn].
      rewrite (proj2 (Z.eqb_neq _ _)) by done. apply wp_bind. eapply wp_lift; [by apply set_idx_at|].
      replace (llen done_ + 1) with (llen (done_ ++ [c])) by (rewrite llen_app; done).
      replace (done_ ++ c :: tail_) with ((done_ ++ [c]) ++ tail_) by by rewrite <- app_assoc.
      eapply wp_mono; [apply (IH (done_ ++ [c]) tail_); [done| |lia]|].
      * rewrite Ht', <- (Nat.add_1_r (typed log)), <- drop_drop, Hd. done.
      * intros log' r (-> & Hr). split; [|done].
        replace (llen (done_ ++ [c]) + llen line) with (llen done_ + llen (c :: line)) by (rewrite llen_app, !llen_cons; change (llen (@nil Z)) with 0; lia).
        by rewrite <- !app_assoc.
Qed.

(** ** Files and directories *)

(** The position of an open file: where the last seek to a start put it, and what was read since. *)
Fixpoint file_pos (fd : Z) (log : list Event) : Z :=
  match log with
  | [] => 0
  | (Seek f offset from, _) :: log => if (f =? fd) && (from =? SEEK_SET) then offset else file_pos fd log
  | (Read2 f _, ans) :: log => file_pos fd log + (if f =? fd then llen (a_data ans) else 0)
  | _ :: log => file_pos fd log
  end.
(** An open file: its size, and reads of what follows the position. *)
Definition serves_file `{Env} (fd : Z) (content : list Z) : Prop :=
  (forall log, a_val (env log (Seek fd 0 SEEK_END)) = llen content) /\
  forall log cap, 0 <= cap -> a_data (env log (Read2 fd cap)) = take (Z.to_nat cap) (drop (Z.to_nat (file_pos fd log)) content).

Section FileRead.
Context `{Env} (fd : Z) (content : list Z).
Hypothesis (Hfile : serves_file fd content).

Lemma file_read_loop_spec rounds : forall log buf,
  0 <= file_pos fd log <= llen content -> length buf = 512%nat ->
  let todo := drop (Z.to_nat (file_pos fd log)) content in
  (Z.to_nat (div_ceil (llen todo) 512) < rounds)%nat ->
  Forall (fun c => utf8_valid c = true) (chunks 512 todo) ->
  wp (file_read_loop rounds fd (llen todo) buf) log (fun log' r => r = Ok tt /\ output 1 log' = output 1 log ++ todo).
Proof.
  induction rounds as [|rounds IH]; intros log buf Hpos Hbuf todo Hr Hu; [lia|]. cbn [file_read_loop].
  destruct todo as [|b todo'] eqn:Et.
  { change (0 <? llen (@nil Z)) with false. apply wp_ret. by rewrite app_nil_r. }
  rewrite <- Et in *. assert (0 < llen todo) as Hlen by (rewrite Et, llen_cons; pose proof (llen_nonneg todo'); lia).
  rewrite (proj2 (Z.ltb_lt _ _)) by done. set (n := Z.min (llen todo) 512). assert (0 < n <= 512 /\ n <= llen todo) as Hn by lia.
  apply wp_bind. eapply wp_lift; [apply slice_in_range; unfold llen in *; lia|]. set (part := take _ _).
  assert (length part = Z.to_nat n) as Hpl by (unfold part; rewrite length_take, length_drop; lia).
  apply wp_bind. unfold sys_read2. apply wp_bind, wp_call, wp_ret.
  destruct Hfile as [_ Hread]. assert (llen part = n) as Hpn by (unfold llen; lia). rewrite Hpn. pose proof (Hread log n ltac:(lia)) as Hdata. fold todo in Hdata.
  set (ans := env log (Read2 fd n)) in *.
  assert (length (a_data ans) = Z.to_nat n) as Hdl by (rewrite Hdata, length_take; unfold llen in *; lia).
  assert (fill part (a_data ans) = take (Z.to_nat n) todo) as ->.
  { unfold fill. rewrite Hpl, take_app_length' by done. done. }
  apply wp_bind. assert (llen (take (Z.to_nat n) todo) = n) as Htn by (unfold llen in *; rewrite length_take; lia).
  eapply wp_lift; [apply splice_in_range; unfold llen in *; lia|]. set (buf' := _ ++ _ ++ _).
  assert (length buf' = 512%nat) as Hbuf'.
  { unfold buf'. rewrite !length_app, length_take, length_drop. unfold llen in Htn. change (Z.to_nat 0) with 0%nat. lia. }
  rewrite chunks_unfold in Hu by (first [lia|by rewrite Et]). apply Forall_cons in Hu as [Hu1 Hu2].
  assert (take (Z.to_nat n) todo = take 512 todo) as Htake.
  { destruct (Z.le_gt_cases 512 (llen todo)); [f_equal; lia|]. rewrite !take_ge by (unfold llen in *; lia). done. }
  assert (drop (Z.to_nat n) todo = drop 512 todo) as Hdrop.
  { destruct (Z.le_gt_cases 512 (llen todo)); [f_equal; lia|]. rewrite !drop_ge by (unfold llen in *; lia). done. }
  apply wp_bind. eapply wp_lift; [unfold utf8_unwrap; by rewrite Htake, Hu1|].
  apply wp_bind. unfold sys_write. apply wp_call_. match goal with |- wp _ ?l _ => set (log1 := l) end.
  assert (file_pos fd log1 = file_pos fd log + n) as Hpos1.
  { unfold log1. cbn [file_pos]. rewrite Z.eqb_refl. unfold llen. rewrite Hdl. lia. }
  assert (drop (Z.to_nat (file_pos fd log1)) content = drop (Z.to_nat n) todo) as Htodo1.
  { rewrite Hpos1. unfold todo. rewrite drop_drop. f_equal. lia. }
  assert (llen todo = llen content - file_pos fd log) as Htl by (unfold todo, llen in *; rewrite length_drop; lia).
  assert (llen (drop (Z.to_nat n) todo) = llen todo - n) as Hrest by (unfold llen in *; rewrite length_drop; lia).
  apply wp_bind. eapply wp_lift; [unfold sub_ovf; by rewrite (proj2 (Z.leb_le _ _)) by lia|].
  rewrite <- Hrest, <- Htodo1. eapply wp_mono; [apply IH|].
  - lia.
  - done.
  - rewrite Htodo1, Hrest. unfold div_ceil in *. pose proof (Z.div_pos (llen todo - n + 512 - 1) 512).
    destruct (Z.le_gt_cases 512 (llen todo)) as [Hbig|Hsmall].
    + replace (llen todo + 512 - 1) with (llen todo - n + 512 - 1 + 1 * 512) in Hr by lia. rewrite Z.div_add in Hr by lia. lia.
    + replace (llen todo - n + 512 - 1) with 511 by lia. change (511 / 512) with 0.
      assert (1 <= (llen todo + 512 - 1) / 512) by (apply Z.div_le_lower_bound; lia). lia.
  - by rewrite Htodo1, Hdrop.
  - intros log' r [-> Ho]. split; [done|]. rewrite Htodo1 in Ho. rewrite Ho. unfold log1. rewrite !output_cons. cbn [text_of fst snd Z.eqb Pos.eqb].
    rewrite app_nil_r, <- app_assoc, <- Htake. by rewrite take_drop.
Qed.
End FileRead.

(** [file-read] prints the file.  If every piece of 512 bytes of the file is valid
    UTF-8 - as it is when the file is ASCII - the command prints exactly its content, of
    whatever length, closes it and comes back. *)
Theorem file_read_prints `{Env} name fd content log :
  a_val (env log (Open name false)) = fd -> fd <> U64_MAX -> serves_file fd content ->
  Forall (fun c => utf8_valid c = true) (chunks 512 content) ->
  wp (file_read name) log (fun log' r => r = Ok tt /\ output 1 log' = output 1 log ++ content /\ exists ans log0, log' = (Close fd, ans) :: log0).
Proof.
  intros Hopen Hfd Hfile Hu. unfold file_read, sys_open, call_opt, call_val.
  do 3 apply wp_bind. apply wp_call, wp_ret, wp_ret. rewrite Hopen, (proj2 (Z.eqb_neq _ _) Hfd).
  do 2 apply wp_bind. apply wp_call, wp_ret. rewrite (proj1 Hfile). apply wp_bind, wp_call_.
  match goal with |- wp _ ?l _ => set (log1 := l) end.
  assert (file_pos fd log1 = 0) as Hpos by (unfold log1; cbn [file_pos]; by rewrite Z.eqb_refl).
  pose proof (file_read_loop_spec fd content Hfile (S (Z.to_nat (div_ceil (llen content) 512))) log1 (replicate 512 0)) as Hloop.
  rewrite Hpos, drop_0 in Hloop. apply wp_bind. eapply wp_mono; [apply Hloop; [pose proof (llen_nonneg content); lia|apply length_replicate|lia|done]|].
  intros log2 r [-> Ho]. apply wp_call_. split; [done|]. rewrite output_cons, Ho. unfold log1. rewrite !output_cons. cbn [text_of fst snd].
  rewrite !app_nil_r. split; [done|]. by eexists _, _.
Qed.

(** The entries of a directory already handed out. *)
Fixpoint dir_pos (fd : Z) (log : list Event) : Z :=
  match log with
  | [] => 0
  | (Getdents f _, ans) :: log => dir_pos fd log + (if f =? fd then a_val ans else 0)
  | _ :: log => dir_pos fd log
  end.
Definition kernel_entry (e : bool * str) : DirEntry := dirent_new (fst e) (snd e).
(** An open directory: at most 16 of the entries that follow. *)
Definition serves_dir `{Env} (fd : Z) (l : list (bool * str)) : Prop :=
  forall log, let rest := drop (Z.to_nat (dir_pos fd log)) l in
    a_val (env log (Getdents fd 16)) = Z.min 16 (llen rest) /\
    a_data (env log (Getdents fd 16)) = concat (dirent_bytes <$> (kernel_entry <$> take 16 rest)).
Definition entry_line (e : bool * str) : str := snd e ++ (if fst e then bytes_of "/" else []) ++ [10].

Section ListDir.
Context `{Env} (fd : Z) (l : list (bool * str)).
Hypotheses (Hdir : serves_dir fd l) (Hnames : Forall (fun e => storable (snd e)) l).

Lemma entry_lengths es : Forall (fun b => length b = 256%nat) (dirent_bytes <$> (kernel_entry <$> es)).
Proof. apply Forall_fmap, Forall_fmap, Forall_forall. intros [d n] _. apply dirent_bytes_len. Qed.

Lemma concat_length es : length (concat (dirent_bytes <$> (kernel_entry <$> es))) = (256 * length es)%nat.
Proof.
  induction es as [|[d n] es IH]; [done|]. rewrite !fmap_cons. cbn [concat length]. rewrite length_app, IH.
  change (kernel_entry (d, n)) with (dirent_new d n). rewrite dirent_bytes_len. lia.
Qed.

Lemma entry_at_spec (es : list (bool * str)) (junk : list Z) (i : nat) (d : bool) (n : str) : es !! i = Some (d, n) -> storable n ->
  entry_text (entry_at (concat (dirent_bytes <$> (kernel_entry <$> es)) ++ junk) i) = n ++ (if d then bytes_of "/" else []).
Proof.
  intros Hi Hn. pose proof (lookup_lt_Some _ _ _ Hi) as Hlt. pose proof (concat_length es) as Hl. unfold entry_at.
  rewrite drop_app_le by lia. rewrite take_app_le by (rewrite length_drop; lia).
  assert ((dirent_bytes <$> (kernel_entry <$> es)) !! i = Some (dirent_bytes (dirent_new d n))) as Hp by (by rewrite !list_lookup_fmap, Hi).
  rewrite (concat_piece 256 _ i _ (entry_lengths es) Hp).
  unfold entry_text. change (dirent_of_bytes _) with (dirent_new d n). rewrite user_name_new by done.
  destruct d; cbn; [done|by rewrite app_nil_r].
Qed.

Lemma print_entries_spec n : forall (es : list (bool * str)) (junk : list Z) i log, Forall (fun e => storable (snd e)) es -> (i + n <= length es)%nat ->
  wp (print_entries (concat (dirent_bytes <$> (kernel_entry <$> es)) ++ junk) i n) log (fun log' r => r = Ok tt /\
    output 1 log' = output 1 log ++ concat (entry_line <$> take n (drop i es)) /\ dir_pos fd log' = dir_pos fd log).
Proof.
  induction n as [|n IH]; intros es junk i log Hes Hi; cbn [print_entries].
  - apply wp_ret. by rewrite app_nil_r.
  - destruct (lookup_lt_is_Some_2 es i) as [[d nm] Hlook]; [lia|].
    apply wp_bind. rewrite (entry_at_spec es junk i d nm Hlook) by (by eapply (Forall_lookup_1 _ _ _ _ Hes Hlook)).
    unfold println, print, sys_write. apply wp_call_. eapply wp_mono; [apply IH; [done|lia]|].
    intros log' r (-> & Ho & Hp). split; [done|]. rewrite Ho, Hp, output_cons. cbn [text_of fst snd Z.eqb Pos.eqb dir_pos]. split; [|done].
    rewrite (drop_S _ _ _ Hlook). replace (i + 1)%nat with (S i) by lia. cbn [take fmap list_fmap concat]. unfold entry_line at 2. cbn [fst snd]. by rewrite <- !app_assoc.
Qed.

Lemma list_loop_spec fuel : forall path entries log,
  0 <= dir_pos fd log <= llen l -> length entries = 4096%nat -> (length (drop (Z.to_nat (dir_pos fd log)) l) < fuel)%nat ->
  wp (list_loop fuel path fd entries) log (fun log' r => r = Ok tt /\
    output 1 log' = output 1 log ++ concat (entry_line <$> drop (Z.to_nat (dir_pos fd log)) l)).
Proof.
  induction fuel as [|fuel IH]; intros path entries log Hpos Hent Hf; [lia|]. cbn [list_loop].
  apply wp_bind, wp_call. destruct (Hdir log) as [Hval Hdata]. set (rest := drop _ l) in *. set (ans := env log (Getdents fd 16)) in *.
  assert (llen rest = llen l - dir_pos fd log) as Hrl by (unfold rest, llen in *; rewrite length_drop; lia).
  rewrite Hval. pose proof (llen_nonneg rest). destruct (Z.eqb_spec (Z.min 16 (llen rest)) U64_MAX) as [He|_]; [unfold U64_MAX in He; lia|].
  destruct (Z.eqb_spec (Z.min 16 (llen rest)) 0) as [Hz|Hnz].
  { apply wp_ret. assert (rest = []) as -> by (apply nil_length_inv; unfold llen in *; lia). rewrite output_cons. cbn. by rewrite !app_nil_r. }
  destruct (Z.ltb_spec 16 (Z.min 16 (llen rest))) as [|_]; [lia|].
  assert (length (take 16 rest) = Z.to_nat (Z.min 16 (llen rest))) as Htl by (rewrite length_take; unfold llen; lia).
  assert (length (a_data ans) <= 4096)%nat as Hdl by (rewrite Hdata, concat_length, Htl; lia).
  unfold fill. rewrite take_ge by (rewrite length_app, length_drop; lia). rewrite Hdata at 1.
  apply wp_bind. eapply wp_mono; [apply print_entries_spec|].
  - apply Forall_take. unfold rest. by apply Forall_drop.
  - rewrite Htl. lia.
  - intros log1 r (-> & Ho & Hp). cbn [dir_pos] in Hp. rewrite Z.eqb_refl, Hval in Hp.
    assert (drop (Z.to_nat (dir_pos fd log1)) l = drop 16 rest) as Hrest.
    { rewrite Hp. destruct (Z.le_gt_cases 16 (llen rest)).
      - rewrite Z.min_l by lia. unfold rest. rewrite drop_drop. f_equal. lia.
      - rewrite Z.min_r by lia. rewrite (drop_ge rest) by (unfold llen in *; lia). apply drop_ge. unfold llen in *. lia. }
    eapply wp_mono; [apply IH|].
    + rewrite Hp. lia.
    + rewrite length_app, length_drop. lia.
    + rewrite Hrest, length_drop. unfold llen in Hnz. lia.
    + intros log2 r [-> Ho2]. split; [done|]. rewrite Ho2, Ho, Hrest, output_cons. cbn [text_of fst snd].
      rewrite app_nil_r, <- app_assoc, drop_0, <- Htl, firstn_all. f_equal. rewrite <- concat_app, <- fmap_app, take_drop. done.
Qed.
End ListDir.

(** [ls] prints the directory: every entry that the kernel lists, in order, one a
    line, the directories with a slash - however many there are, although they come in
    pieces of 16 - and the handle is closed. *)
Theorem list_dir_prints `{Env} fuel path fd l log :
  a_val (env log (Opendir path)) = fd -> fd <> U64_MAX -> serves_dir fd l -> dir_pos fd log = 0 ->
  Forall (fun e => storable (snd e)) l -> (length l < fuel)%nat ->
  wp (list_dir fuel path) log (fun log' r => r = Ok tt /\ output 1 log' = output 1 log ++ concat (entry_line <$> l) /\
    exists ans log0, log' = (Closedir fd, ans) :: log0).
Proof.
  intros Hopen Hfd Hdir Hpos Hnames Hf. unfold list_dir, call_opt, call_val.
  do 3 apply wp_bind. apply wp_call, wp_ret, wp_ret. rewrite Hopen, (proj2 (Z.eqb_neq _ _) Hfd). apply wp_bind.
  eapply wp_mono; [apply (list_loop_spec fd l Hdir Hnames); cbn [dir_pos]; rewrite ?Hpos|].
  - pose proof (llen_nonneg l). lia.
  - apply length_replicate.
  - rewrite drop_0. done.
  - intros log1 r [-> Ho]. apply wp_call_. split; [done|]. cbn [dir_pos] in Ho. rewrite Hpos, drop_0 in Ho.
    rewrite output_cons, Ho, output_cons. cbn [text_of fst snd]. rewrite !app_nil_r. split; [done|]. by eexists _, _.
Qed.

(** ** External commands *)

Lemma command_path_spec buf cmd first :
  length buf = 128%nat -> slice buf 0 (llen cmd) = Done cmd -> head cmd = Some first ->
  let path := if first =? SLASH then cmd else bytes_of "/bin/" ++ cmd in
  if llen path <=? 128 then exists buf2, command_path buf (llen cmd) = Done (buf2, llen path) /\ slice buf2 0 (llen path) = Done path
  else command_path buf (llen cmd) = Panic.
Proof.
  intros Hb Hs Hf path. destruct cmd as [|c rest]; [done|]. cbn in Hf. injection Hf as ->.
  assert (exists tl, buf = (first :: rest) ++ tl) as [tl Htl].
  { unfold slice in Hs. case_bool_decide; [|done]. injection Hs as Hs. rewrite Z.sub_0_r, drop_0 in Hs.
    exists (drop (Z.to_nat (llen (first :: rest))) buf). rewrite <- Hs at 1. by rewrite take_drop. }
  unfold command_path. rewrite Htl. change (idx ((first :: rest) ++ tl) 0) with (Done first). cbn [mbind outcome_bind].
  rewrite <- Htl, Hs. set (cmd := first :: rest) in *. unfold path. destruct (first =? SLASH); cbn [negb].
  - cbn [mbind outcome_bind]. assert (llen cmd <= 128) as Hl by (apply slice_len in Hs as (_ & _ & Hl); unfold llen in *; lia).
    rewrite (proj2 (Z.leb_le _ _) Hl). rewrite splice_in_range by (rewrite ?llen_replicate; lia). cbn [mbind outcome_bind].
    eexists. split; [done|]. change (take (Z.to_nat 0) (replicate 128 0)) with (@nil Z). rewrite app_nil_l.
    by apply (slice_at [] cmd).
  - change (splice (replicate 128 0) 0 (bytes_of "/bin/")) with (Done (bytes_of "/bin/" ++ replicate 123 0)). cbn [mbind outcome_bind].
    rewrite llen_app. change (llen (bytes_of "/bin/")) with 5.
    destruct (Z.leb_spec (5 + llen cmd) 128) as [Hl|Hl].
    + rewrite splice_in_range by (rewrite ?llen_app, ?llen_replicate; change (llen (bytes_of "/bin/")) with 5; lia). cbn [mbind outcome_bind].
      eexists. split; [by rewrite Z.add_comm|]. rewrite take_app_length' by done.
      pose proof (slice_at [] (bytes_of "/bin/" ++ cmd) (drop (Z.to_nat 5 + length cmd) (bytes_of "/bin/" ++ replicate 123 0)) 0 (5 + llen cmd)) as Hsl.
      rewrite <- app_assoc in Hsl. apply Hsl; [done|]. by rewrite llen_app.
    + unfold splice. rewrite bool_decide_false; [done|]. rewrite llen_app, llen_replicate. change (llen (bytes_of "/bin/")) with 5. lia.
Qed.

(** an external command runs the program it names: the word itself when it starts with
    a slash, and the word under [/bin/] otherwise.  The parent waits for the child, except
    for [upppd]; the child is replaced by the program, or says so and exits when there is
    none.  A command whose path has more than 128 bytes is the exception: it panics. *)
Theorem external_command_runs `{Env} buf cmd first log :
  length buf = 128%nat -> slice buf 0 (llen cmd) = Done cmd -> head cmd = Some first ->
  let path := if first =? SLASH then cmd else bytes_of "/bin/" ++ cmd in
  let pid := a_val (env log Fork) in
  let log1 := (Fork, env log Fork) :: log in
  let log2 := (Exec path, env log1 (Exec path)) :: log1 in
  (128 < llen path -> external buf (llen cmd) cmd log = Panic) /\
  (llen path <= 128 -> pid <> 0 -> exists waits, external buf (llen cmd) cmd log = Done (waits ++ log1, Ok tt) /\
     waits.*1 = if bool_decide (cmd = bytes_of "upppd") then [] else [Waitpid pid]) /\
  (llen path <= 128 -> pid = 0 -> a_val (env log1 (Exec path)) = 0 -> external buf (llen cmd) cmd log = Done (log2, Err Replaced)) /\
  (llen path <= 128 -> pid = 0 -> a_val (env log1 (Exec path)) <> 0 -> exists evs, external buf (llen cmd) cmd log = Done (evs ++ log2, Err Exited) /\
     evs.*1 = [Exit; Write 0 (bytes_of "unknown command" ++ [10])]).
Proof.
  intros Hb Hs Hf path pid log1 log2. pose proof (command_path_spec buf cmd first Hb Hs Hf) as Hpath. fold path in Hpath. cbn zeta in Hpath.
  destruct (Z.leb_spec (llen path) 128) as [Hl|Hl].
  2: { split; [|split; [lia|split; lia]]. intros _. unfold external, p_lift, p_bind at 1. by rewrite Hpath. }
  destruct Hpath as (buf2 & Hpath & Hslice). split; [lia|].
  assert (external buf (llen cmd) cmd log =
    (if pid =? 0 then (sys_exec path ;! eprintln (bytes_of "unknown command") ;! sys_exit)
     else if negb (bool_decide (cmd = bytes_of "upppd")) then call_ (Waitpid pid) else p_ret tt) log1) as ->.
  { unfold external. erewrite p_bind_Ok; [|by unfold p_lift; rewrite Hpath]. cbv beta iota.
    rewrite (p_bind_Ok sys_fork _ log log1 pid) by done. destruct (pid =? 0); [|done].
    erewrite p_bind_Ok; [|by unfold p_lift; rewrite Hslice]. done. }
  split; [|split].
  - intros _ Hp. rewrite (proj2 (Z.eqb_neq _ _) Hp). destruct (bool_decide (cmd = bytes_of "upppd")); cbn [negb]; [by exists []|].
    exists [(Waitpid pid, env log1 (Waitpid pid))]. by split.
  - intros _ Hp He. rewrite Hp. cbn [Z.eqb]. unfold sys_exec, call_val, call, p_bind, p_ret, p_err. cbn [mbind outcome_bind]. by rewrite He.
  - intros _ Hp He. rewrite Hp. cbn [Z.eqb]. unfold sys_exec, call_val, call, p_bind, p_ret, p_err. cbn [mbind outcome_bind].
    rewrite (proj2 (Z.eqb_neq _ _) He). eexists [_; _]. split; reflexivity.
Qed.

(** ** A small system *)

(** What is typed, one file and one directory; fork makes process 9. *)
Definition small_system (keys content : list Z) (l : list (bool * str)) : Env := fun log a =>
  match a with
  | Read => mk_Answer (default 255 (keys !! typed log)) []
  | Open _ _ => mk_Answer 5 []
  | Seek _ _ from => mk_Answer (if from =? SEEK_END then llen content else 0) []
  | Read2 fd cap => mk_Answer 0 (take (Z.to_nat cap) (drop (Z.to_nat (file_pos fd log)) content))
  | Opendir _ => mk_Answer 6 []
  | Getdents fd _ =>
      let rest := drop (Z.to_nat (dir_pos fd log)) l in
      mk_Answer (Z.min 16 (llen rest)) (concat (dirent_bytes <$> (kernel_entry <$> take 16 rest)))
  | Fork => mk_Answer 9 []
  | _ => mk_Answer 0 []
  end.

Lemma small_keyboard keys content l : keyboard (H := small_system keys content l) keys.
Proof. intros log k Hk. cbn. by rewrite Hk. Qed.
Lemma small_file keys content l fd : serves_file (H := small_system keys content l) fd content.
Proof. split; done. Qed.
Lemma small_dir keys content l fd : serves_dir (H := small_system keys content l) fd l.
Proof. intros log rest. done. Qed.

(** [ls] and the newline; one more key stays. *)
Lemma read_line_takes_typed_witness : let H := small_system [108; 115; 10; 120] [] [] in
  exists log', read_line 1 [0; 0; 0; 0] [] = Done (log', Ok ([108; 115; 0; 0], 2)) /\ drop (typed log') [108; 115; 10; 120] = [120].
Proof.
  intros H.
  destruct (read_line_takes_typed 1 [108; 115; 10; 120] [108; 115] [10; 120] [0; 0; 0; 0] []) as [Hl _].
  - exact (small_keyboard _ _ _).
  - unfold key. repeat constructor; lia.
  - lia.
  - intros Hin. repeat (apply elem_of_cons in Hin as [Hin|Hin]; [lia|]). by apply elem_of_nil in Hin.
  - reflexivity.
  - destruct (Hl [120] eq_refl ltac:(cbn; lia)) as (log' & r & Hm & -> & Hr). exists log'. split; [exact Hm|exact Hr].
Defined.

Lemma file_read_prints_witness : let H := small_system [] (replicate 600 65) [] in
  exists log', file_read (bytes_of "/motd") [] = Done (log', Ok tt) /\ output 1 log' = replicate 600 65.
Proof.
  intros H.
  destruct (file_read_prints (bytes_of "/motd") 5 (replicate 600 65) []) as (log' & r & Hm & -> & Ho & _).
  - reflexivity.
  - discriminate.
  - exact (small_file _ _ _ _).
  - vm_compute. repeat constructor.
  - exists log'. split; [exact Hm|exact Ho].
Defined.

Lemma list_dir_prints_witness : let H := small_system [] [] [(true, bytes_of "proc"); (false, bytes_of "motd")] in
  exists log', list_dir 3 (bytes_of "/") [] = Done (log', Ok tt) /\ output 1 log' = bytes_of "proc/" ++ [10] ++ bytes_of "motd" ++ [10].
Proof.
  intros H.
  assert (forall n : str, utf8_valid n = true -> forallb (fun b => negb (b =? 0)) n = true -> llen n <= 254 -> storable n) as Hst.
  { intros n Hu Hz Hl. split; [done|]. split; [|done]. intros Hin. rewrite forallb_forall in Hz. apply list_elem_of_In, Hz in Hin. done. }
  destruct (list_dir_prints 3 (bytes_of "/") 6 [(true, bytes_of "proc"); (false, bytes_of "motd")] []) as (log' & r & Hm & -> & Ho & _).
  - reflexivity.
  - discriminate.
  - exact (small_dir _ _ _ _).
  - reflexivity.
  - repeat constructor; apply Hst; vm_compute; congruence.
  - cbn. lia.
  - exists log'. split; [exact Hm|exact Ho].
Defined.

Lemma external_command_runs_witness : let H := small_system [] [] [] in
  let buf := bytes_of "lua" ++ replicate 125 0 in
  exists waits, external buf 3 (bytes_of "lua") [] = Done (waits ++ [(Fork, mk_Answer 9 [])], Ok tt) /\ waits.*1 = [Waitpid 9].
Proof.
  intros H buf.
  destruct (external_command_runs buf (bytes_of "lua") 108 [] eq_refl eq_refl eq_refl) as (_ & Hp & _).
  destruct (Hp ltac:(by vm_compute) ltac:(discriminate)) as (waits & He & Hw). exists waits. split; [exact He|exact Hw].
Defined.

(** ** What goes wrong *)

(** A line [xOF], then a line [E]: the buffer reads [EOF] and the editing ends there. *)
Lemma stale_line_ends_file_write : let H := small_system (bytes_of "xOF" ++ [10] ++ bytes_of "E" ++ [10] ++ bytes_of "more" ++ [10]) [] [] in
  exists log', file_write 1 9 (bytes_of "/f") [] = Done (log', Ok tt) /\ output 5 log' = bytes_of "xOF" ++ [10] ++ bytes_of "E" ++ [10].
Proof. intros H. eexists. split; vm_compute; reflexivity. Qed.

(** A character of two bytes across the boundary of a piece is not valid in either. *)
Lemma file_read_splits_characters : let H := small_system [] (replicate 511 97 ++ [0xc3; 0xa9]) [] in
  utf8_valid (replicate 511 97 ++ [0xc3; 0xa9]) = true /\ file_read (bytes_of "/motd") [] = Panic.
Proof. split; vm_compute; reflexivity. Qed.

(** [mount ahci]: the disk is missing. *)
Lemma mount_without_disk_panics : let H := small_system [] [] [] in mount (bytes_of "ahci") [] = Panic.
Proof. vm_compute. reflexivity. Qed.
