(* ===== verification/Upppd.v ===== *)
(** * The PPP service: [apps/upppd/src/main.rs]

    A server with many clients: it moves bytes between the serial line and the
    PPP stack of the [ppproto] crate, and packets, requests and status events
    between the stack and its clients. *)

From S2P Require Import Prelude Words Vfs Process App Ping Netdump.

(** ** The PPP stack: the [ppproto] crate *)

Inductive Phase := Dead | Establish | Auth | Network | Opened.
#[global] Instance Phase_eq_dec : EqDecision Phase.
Proof. solve_decision. Defined.
(** An address is its four octets. *)
Record Ipv4Status := mk_Ipv4Status { address : option (list Z); peer_address : option (list Z); dns_servers : option (list Z) * option (list Z) }.
Inductive PPPoSAction := ActNone | Transmit (len : Z) | Received (first last : Z).

(** [consume] and [poll] return the buffers they were lent. *)
Class PPPoS (S : Type) := {
  ppp_new : S;
  ppp_open : S -> S * bool;
  ppp_phase : S -> Phase;
  ppp_ipv4 : S -> option Ipv4Status;
  ppp_consume : S -> list Z -> list Z -> S * list Z * Z;
  ppp_poll : S -> list Z -> list Z -> S * list Z * list Z * PPPoSAction;
  ppp_send : S -> list Z -> list Z -> S * list Z * option Z;
}.

(** ** Constants *)

(** @ apps/upppd/src/main.rs:15-15 SERIAL_PATH *)
Definition SERIAL_PATH : str := bytes_of "/dev/serial".
(** @ apps/upppd/src/main.rs:16-16 SERVICE_NAME *)
Definition SERVICE_NAME : str := bytes_of "upppd".
(** @ apps/upppd/src/main.rs:20-20 OP_SEND_IPV4 *)
Definition OP_SEND_IPV4 : Z := 1.
(** @ apps/upppd/src/main.rs:21-21 OP_QUERY_STATUS *)
Definition OP_QUERY_STATUS : Z := 2.
(** @ apps/upppd/src/main.rs:23-23 EVT_ACK *)
Definition EVT_ACK : Z := 0x80.
(** @ apps/upppd/src/main.rs:24-24 EVT_RX_IPV4 *)
Definition EVT_RX_IPV4 : Z := 0x81.
(** @ apps/upppd/src/main.rs:25-25 EVT_STATUS *)
Definition EVT_STATUS : Z := 0x82.
(** @ apps/upppd/src/main.rs:26-26 EVT_ERROR *)
Definition EVT_ERROR : Z := 0xff.
(** @ apps/upppd/src/main.rs:28-28 SERIAL_RX_BUF_SIZE *)
Definition SERIAL_RX_BUF_SIZE : nat := 2048.
(** @ apps/upppd/src/main.rs:29-29 PPP_TX_BUF_SIZE *)
Definition PPP_TX_BUF_SIZE : nat := 2304.
(** @ apps/upppd/src/main.rs:30-30 IPC_BUF_SIZE *)
Definition IPC_BUF_SIZE : nat := 4096.

(** ** Events *)

(** @ apps/upppd/src/main.rs:236-241 build_ack *)
Definition build_ack (code : Z) : outcome (list Z) :=
  let buf := replicate 32 0 in
  buf ← set_idx buf 0 EVT_ACK;
  set_idx buf 1 code.
(** @ apps/upppd/src/main.rs:243-248 build_error *)
Definition build_error (code : Z) : outcome (list Z) :=
  let buf := replicate 32 0 in
  buf ← set_idx buf 0 EVT_ERROR;
  set_idx buf 1 code.
Definition phase_code (phase : Phase) : Z :=
  match phase with Dead => 0 | Establish => 1 | Auth => 2 | Network => 3 | Opened => 4 end.
Definition copy_address (buf : list Z) (at_ : Z) (addr : option (list Z)) : outcome (list Z) :=
  match addr with Some octets => splice buf at_ octets | None => Done buf end.
(** @ apps/upppd/src/main.rs:250-275 build_status_event *)
Definition build_status_event (phase : Phase) (ipv4 : option Ipv4Status) : outcome (list Z) :=
  let buf := replicate 32 0 in
  buf ← set_idx buf 0 EVT_STATUS;
  buf ← set_idx buf 1 (phase_code phase);
  match ipv4 with
  | None => Done buf
  | Some ipv4 =>
      buf ← copy_address buf 2 (address ipv4);
      buf ← copy_address buf 6 (peer_address ipv4);
      buf ← copy_address buf 10 (fst (dns_servers ipv4));
      copy_address buf 14 (snd (dns_servers ipv4))
  end.

(** ** The server *)

Section Server.
Context `{Env} {S : Type} `{PPPoS S}.

(** The bytes are passed to the kernel as they are: [from_utf8_unchecked]. *)
(** @ apps/upppd/src/main.rs:277-280 write_raw *)
Definition write_raw (fd : Z) (buf : list Z) : app unit := sys_write fd buf.

(** Each round either removes the client at [i] or moves past it. *)
Fixpoint broadcast_loop (fuel : nat) (clients : list Z) (i : nat) (payload : list Z) : app (list Z) :=
  match fuel with
  | O => p_ret clients
  | Datatypes.S fuel =>
      match clients !! i with
      | None => p_ret clients
      | Some handle =>
          ret ←! call_val (Send handle payload);
          if ret <? 0 then call_ (IpcClose handle) ;! broadcast_loop fuel (swap_remove clients i) i payload
          else broadcast_loop fuel clients (i + 1) payload
      end
  end.
(** @ apps/upppd/src/main.rs:223-234 broadcast *)
Definition broadcast (clients : list Z) (payload : list Z) : app (list Z) := broadcast_loop (length clients) clients 0 payload.

(** @ apps/upppd/src/main.rs:175-178 ClientReply *)
Inductive ClientReply := Immediate (buf : list Z) | TransmitReply (len : Z).

(** @ apps/upppd/src/main.rs:180-198 process_client_request *)
Definition process_client_request (ppp : S) (req tx_buf : list Z) : outcome (S * list Z * ClientReply) :=
  if bool_decide (req = []) then e ← build_error 1; Done (ppp, tx_buf, Immediate e) else
  op ← idx req 0;
  if op =? OP_SEND_IPV4 then
    payload ← slice req 1 (llen req);
    let '(ppp, tx_buf, r) := ppp_send ppp payload tx_buf in
    match r with
    | Some len => Done (ppp, tx_buf, TransmitReply len)
    | None => e ← build_error 2; Done (ppp, tx_buf, Immediate e)
    end
  else if op =? OP_QUERY_STATUS then
    e ← build_status_event (ppp_phase ppp) (ppp_ipv4 ppp); Done (ppp, tx_buf, Immediate e)
  else e ← build_error 3; Done (ppp, tx_buf, Immediate e).

(** The variables of [main]'s loop. *)
Record Server := mk_Server {
  sv_ppp : S; clients : list Z; serial_in : list Z; serial_rx_buf : list Z; tx_buf : list Z; ipc_buf : list Z; status_phase : Phase }.
#[global] Instance Server_fields : Fields Server := fun r =>
  mk_Server (sv_ppp r) (clients r) (serial_in r) (serial_rx_buf r) (tx_buf r) (ipc_buf r) (status_phase r).

(** @ apps/upppd/src/main.rs:200-221 handle_ppp_actions *)
Definition handle_ppp_actions (serial_fd : Z) (sv : Server) : app (Server * bool) :=
  let '(ppp, tx, rx, action) := ppp_poll (sv_ppp sv) (tx_buf sv) (serial_rx_buf sv) in
  let sv := sv <| sv_ppp := ppp |> <| tx_buf := tx |> <| serial_rx_buf := rx |> in
  match action with
  | ActNone => p_ret (sv, false)
  | Transmit len =>
      out ←! p_lift (slice tx 0 len);
      write_raw serial_fd out ;!
      p_ret (sv, true)
  | Received first last =>
      data ←! p_lift (slice rx first last);
      cs ←! broadcast (clients sv) (EVT_RX_IPV4 :: data);
      p_ret (sv <| clients := cs |>, true)
  end.
(** [while handle_ppp_actions(..) { progressed = true; }]. *)
Fixpoint drain_actions (fuel : nat) (serial_fd : Z) (sv : Server) (progressed : bool) : app (Server * bool) :=
  match fuel with
  | O => fun _ => OutOfFuel
  | Datatypes.S fuel =>
      '(sv, more) ←! handle_ppp_actions serial_fd sv;
      if (more : bool) then drain_actions fuel serial_fd sv true else p_ret (sv, progressed)
  end.

(** [while let Some(handle) = sys_ipc_accept(listener)]. *)
(** @ apps/upppd/src/main.rs:88-92 main -- the accept loop *)
Fixpoint accept_clients (fuel : nat) (listener : Z) (sv : Server) : app Server :=
  match fuel with
  | O => fun _ => OutOfFuel
  | Datatypes.S fuel =>
      h ←! call_handle (Accept listener);
      match h with
      | None => p_ret sv
      | Some handle =>
          status ←! p_lift (build_status_event (ppp_phase (sv_ppp sv)) (ppp_ipv4 (sv_ppp sv)));
          call_ (Send handle status) ;!
          accept_clients fuel listener (sv <| clients := clients sv ++ [handle] |>)
      end
  end.

(** @ apps/upppd/src/main.rs:97-116 main -- the bytes of the serial line *)
Fixpoint consume_serial (fuel : nat) (serial_fd : Z) (sv : Server) (consumed read_len : Z) : app Server :=
  match fuel with
  | O => fun _ => OutOfFuel
  | Datatypes.S fuel =>
      if consumed <? read_len then
        input ←! p_lift (slice (serial_in sv) consumed read_len);
        let '(ppp, rx, used) := ppp_consume (sv_ppp sv) input (serial_rx_buf sv) in
        let sv := sv <| sv_ppp := ppp |> <| serial_rx_buf := rx |> in
        if used =? 0 then
          '(sv, progressed) ←! drain_actions fuel serial_fd sv false;
          if (progressed : bool) then consume_serial fuel serial_fd sv consumed read_len else p_ret sv
        else
          consumed ←! p_lift (add_ovf 64 consumed used);
          consume_serial fuel serial_fd sv consumed read_len
      else p_ret sv
  end.

(** The client at [i] goes. *)
Definition drop_client (sv : Server) (i : nat) (handle : Z) : app Server :=
  call_ (IpcClose handle) ;! p_ret (sv <| clients := swap_remove (clients sv) i |>).

(** The reply to a request of [handle], the client at [i]; whether it is still there. *)
(** @ apps/upppd/src/main.rs:150-167 main -- the reply *)
Definition reply_to (serial_fd : Z) (sv : Server) (i : nat) (handle : Z) (reply : ClientReply) : app (Server * bool) :=
  match reply with
  | Immediate buf =>
      ret ←! call_val (Send handle buf);
      if ret <? 0 then sv ←! drop_client sv i handle; p_ret (sv, false) else p_ret (sv, true)
  | TransmitReply len =>
      out ←! p_lift (slice (tx_buf sv) 0 len);
      write_raw serial_fd out ;!
      ack ←! p_lift (build_ack 0);
      ret ←! call_val (Send handle ack);
      if ret <? 0 then sv ←! drop_client sv i handle; p_ret (sv, false) else p_ret (sv, true)
  end.

(** One client is asked; whether it is still there. *)
(** @ apps/upppd/src/main.rs:136-168 main -- the body of the loop over the clients *)
Definition serve_client (serial_fd : Z) (sv : Server) (i : nat) (handle : Z) : app (Server * bool) :=
  '(buf, recv_len) ←! sys_ipc_recv handle (ipc_buf sv);
  let sv := sv <| ipc_buf := buf |> in
  if recv_len =? IPC_EAGAIN then p_ret (sv, true) else
  if recv_len <=? 0 then sv ←! drop_client sv i handle; p_ret (sv, false) else
  req ←! p_lift (slice (ipc_buf sv) 0 (wrap 64 recv_len));
  '(ppp, tx, reply) ←! p_lift (process_client_request (sv_ppp sv) req (tx_buf sv));
  reply_to serial_fd (sv <| sv_ppp := ppp |> <| tx_buf := tx |>) i handle reply.

(** Each round either removes the client at [i] or moves past it. *)
(** @ apps/upppd/src/main.rs:134-169 main -- the requests of the clients *)
Fixpoint serve_clients (fuel : nat) (serial_fd : Z) (sv : Server) (i : nat) : app Server :=
  match fuel with
  | O => p_ret sv
  | Datatypes.S fuel =>
      match clients sv !! i with
      | None => p_ret sv
      | Some handle =>
          '(sv, there) ←! serve_client serial_fd sv i handle;
          serve_clients fuel serial_fd sv (if (there : bool) then i + 1 else i)
      end
  end.

(** One round of the loop of [main]. *)
(** @ apps/upppd/src/main.rs:87-172 main -- the body of the loop *)
Definition serve_round (fuel : nat) (serial_fd listener : Z) (sv : Server) : app Server :=
  sv ←! accept_clients fuel listener sv;
  '(input, read_len) ←! sys_read3 serial_fd (serial_in sv);
  let sv := sv <| serial_in := input |> in
  sv ←! (if negb (read_len =? 0) then consume_serial fuel serial_fd sv 0 read_len else p_ret sv);
  '(sv, _) ←! drain_actions fuel serial_fd sv false;
  sv ←! (if bool_decide (ppp_phase (sv_ppp sv) <> status_phase sv) then
           let sv := sv <| status_phase := ppp_phase (sv_ppp sv) |> in
           event ←! p_lift (build_status_event (ppp_phase (sv_ppp sv)) (ppp_ipv4 (sv_ppp sv)));
           cs ←! broadcast (clients sv) event;
           p_ret (sv <| clients := cs |>)
         else p_ret sv);
  serve_clients (length (clients sv)) serial_fd sv 0.

(** The loop has no end of its own: the state after [rounds] rounds. *)
Fixpoint serve (rounds fuel : nat) (serial_fd listener : Z) (sv : Server) : app Server :=
  match rounds with
  | O => p_ret sv
  | Datatypes.S rounds => sv ←! serve_round fuel serial_fd listener sv; serve rounds fuel serial_fd listener sv
  end.

(** The server after [rounds] rounds, or nothing when [main] has returned. *)
(** @ apps/upppd/src/main.rs:58-173 main *)
Definition main (rounds fuel : nat) : app (option Server) :=
  fd ←! sys_open SERIAL_PATH false;
  match fd with
  | None => eprintln (bytes_of "upppd: open /dev/serial failed") ;! p_ret None
  | Some serial_fd =>
      l ←! call_handle (Bind SERVICE_NAME);
      match l with
      | None => eprintln (bytes_of "upppd: bind upppd failed") ;! call_ (Close serial_fd) ;! p_ret None
      | Some listener =>
          let '(ppp, opened) := ppp_open ppp_new in
          if negb opened then
            eprintln (bytes_of "upppd: PPP open failed") ;! call_ (IpcClose listener) ;! call_ (Close serial_fd) ;! p_ret None
          else
            sv ←! serve rounds fuel serial_fd listener
              (mk_Server ppp [] (replicate 256 0) (replicate SERIAL_RX_BUF_SIZE 0) (replicate PPP_TX_BUF_SIZE 0) (replicate IPC_BUF_SIZE 0) Dead);
            p_ret (Some sv)
      end
  end.

(** @ apps/upppd/src/main.rs:33-37 _start *)
Definition upppd_start (rounds fuel : nat) : app (option Server) :=
  init_heap ;!
  sv ←! main rounds fuel;
  match sv with None => sys_exit | Some sv => p_ret (Some sv) end.
End Server.

(** ** What the log says *)

Definition closed_of (e : Event) : option Z := match e.1 with IpcClose h => Some h | _ => None end.
Definition accepted_of (e : Event) : option Z :=
  match e.1 with Accept _ => if a_val e.2 <? 0 then None else Some (a_val e.2) | _ => None end.
Definition sent_of (e : Event) : option Z := match e.1 with Send h _ => Some h | _ => None end.
(** The send was refused: the client is gone or does not keep up. *)
Definition refused_of (e : Event) : option Z := match e.1 with Send h _ => if a_val e.2 <? 0 then Some h else None | _ => None end.
Definition polled_of (e : Event) : option Z := match e.1 with Recv h _ => Some h | _ => None end.
(** The receive brought a request. *)
Definition asked_of (e : Event) : option Z := match e.1 with Recv h _ => if 0 <? a_val e.2 then Some h else None | _ => None end.
(** The receive brought the end of the stream or an error. *)
Definition ended_of (e : Event) : option Z :=
  match e.1 with Recv h _ => if (a_val e.2 <=? 0) && negb (a_val e.2 =? IPC_EAGAIN) then Some h else None | _ => None end.

Lemma swap_remove_take {A} (l : list A) i x : l !! i = Some x -> take i (swap_remove l i) = take i l.
Proof.
  intros Hi. pose proof (lookup_lt_Some _ _ _ Hi). unfold swap_remove. destruct (last l) as [y|] eqn:E.
  - rewrite take_take, Nat.min_l by lia. by apply take_insert_ge.
  - apply last_None in E. by subst.
Qed.
Lemma swap_remove_drop {A} (l : list A) i x : l !! i = Some x -> x :: drop i (swap_remove l i) ≡ₚ drop i l.
Proof.
  intros Hi. apply (Permutation_app_inv_l (take i l)). rewrite take_drop.
  rewrite <- (swap_remove_take l i x Hi) at 1. rewrite <- Permutation_middle, take_drop. by apply swap_remove_perm.
Qed.
Lemma swap_remove_length {A} (l : list A) i x : l !! i = Some x -> length l = S (length (swap_remove l i)).
Proof. intros Hi. symmetry. exact (Permutation_length (swap_remove_perm l i x Hi)). Qed.

Section BroadcastLemmas.
Context `{Env}.
Implicit Types (log evs : list Event).

(** A broadcast, its events newest first: every client from [i] on gets the payload
    once, those that refuse it are closed and leave, the others stay. *)
Lemma broadcast_loop_spec fuel : forall clients i payload log,
  (length clients <= fuel + i)%nat ->
  wp (broadcast_loop fuel clients i payload) log (fun log' r => exists cs evs, r = Ok cs /\ log' = evs ++ log /\
    omap sent_of evs ≡ₚ drop i clients /\ cs ++ omap closed_of evs ≡ₚ clients /\ omap closed_of evs = omap refused_of evs /\
    omap accepted_of evs = [] /\ omap polled_of evs = [] /\ forall e h p, e ∈ evs -> e.1 = Send h p -> p = payload).
Proof.
  induction fuel as [|fuel IH]; intros clients i payload log Hf; cbn [broadcast_loop].
  - apply wp_ret. exists clients, []. cbn. rewrite drop_ge by lia. rewrite app_nil_r. repeat split; try done. intros e h p He. by apply elem_of_nil in He.
  - destruct (clients !! i) as [handle|] eqn:Hi.
    2: { apply wp_ret. apply lookup_ge_None in Hi. exists clients, []. cbn. rewrite drop_ge by lia. rewrite app_nil_r. repeat split; try done.
         intros e h p He. by apply elem_of_nil in He. }
    pose proof (lookup_lt_Some _ _ _ Hi) as Hlt.
    apply wp_bind. unfold call_val. apply wp_bind, wp_call, wp_ret. cbn [mbind outcome_bind].
    set (ans := env log (Send handle payload)). destruct (Z.ltb_spec (a_val ans) 0) as [Hneg|Hpos].
    + apply wp_bind, wp_call_. pose proof (swap_remove_length _ _ _ Hi) as Hlen.
      eapply wp_mono; [apply IH; lia|]. intros log' r (cs & evs & -> & -> & Hs & Hc & Hr & Ha & Hp & Hpl).
      exists cs, (evs ++ [(IpcClose handle, env ((Send handle payload, ans) :: log) (IpcClose handle)); (Send handle payload, ans)]).
      split; [done|]. split; [by rewrite <- app_assoc|].
      rewrite !omap_app, Ha, Hp. cbn. rewrite (proj2 (Z.ltb_lt _ _) Hneg).
      split; [rewrite <- Permutation_cons_append, Hs; by apply swap_remove_drop|].
      split; [rewrite app_assoc, <- Permutation_cons_append, Hc; by apply swap_remove_perm|].
      split; [by rewrite Hr|]. split; [done|]. split; [done|].
      intros e h p [He|He]%elem_of_app Heq; [by eapply Hpl|]. apply elem_of_cons in He as [->|He]; [done|].
      apply list_elem_of_singleton in He as ->. by injection Heq as <-.
    + eapply wp_mono; [apply IH; lia|]. intros log' r (cs & evs & -> & -> & Hs & Hc & Hr & Ha & Hp & Hpl).
      exists cs, (evs ++ [(Send handle payload, ans)]).
      split; [done|]. split; [by rewrite <- app_assoc|].
      rewrite !omap_app, Ha, Hp. cbn. rewrite (proj2 (Z.ltb_ge _ _) Hpos), !app_nil_r.
      split; [rewrite <- Permutation_cons_append, Hs; replace (i + 1)%nat with (S i) by lia; by rewrite (drop_S _ _ _ Hi)|].
      repeat split; try done.
      intros e h p [He|He]%elem_of_app Heq; [by eapply Hpl|]. apply list_elem_of_singleton in He as ->. by injection Heq as <-.
Qed.
End BroadcastLemmas.

(** ** The messages of the protocol, as README.md lists them *)

Definition phase_value (phase : Phase) : Z :=
  match phase with Dead => 0 | Establish => 1 | Auth => 2 | Network => 3 | Opened => 4 end.
(** An address that is not known is 0.0.0.0. *)
Definition octets (o : option (list Z)) : list Z := match o with Some l => l | None => [0; 0; 0; 0] end.
Definition status_message (phase : Phase) (ipv4 : option Ipv4Status) : list Z :=
  let st := match ipv4 with Some st => st | None => mk_Ipv4Status None None (None, None) end in
  [0x82; phase_value phase] ++ octets (address st) ++ octets (peer_address st) ++
  octets (fst (dns_servers st)) ++ octets (snd (dns_servers st)) ++ replicate 14 0.
Definition ack_message : list Z := [0x80; 0] ++ replicate 30 0.
Definition error_message (code : Z) : list Z := [0xff; code] ++ replicate 30 0.

(** What a request other than the empty one is answered: a packet goes to the stack and,
    framed, to the serial line, and is acknowledged, or error 2 says that it cannot be
    sent; a query is answered with the status; anything else is error 3. *)
Definition answer {S} `{PPPoS S} (s : S) (tx req : list Z) : S * list Z * list Z * list (list Z) :=
  match req with
  | 1 :: packet =>
      let '(s, tx, r) := ppp_send s packet tx in
      match r with Some n => (s, tx, ack_message, [take (Z.to_nat n) tx]) | None => (s, tx, error_message 2, []) end
  | 2 :: _ => (s, tx, status_message (ppp_phase s) (ppp_ipv4 s), [])
  | _ => (s, tx, error_message 3, [])
  end.
(** The answers to requests in order, each to the client that asked, and the frames. *)
Fixpoint answers {S} `{PPPoS S} (s : S) (tx : list Z) (reqs : list (Z * list Z)) : S * list Z * list (Z * list Z) * list (list Z) :=
  match reqs with
  | [] => (s, tx, [], [])
  | (h, req) :: reqs =>
      let '(s, tx, payload, frames) := answer s tx req in
      let '(s, tx, payloads, frames') := answers s tx reqs in
      (s, tx, (h, payload) :: payloads, frames ++ frames')
  end.

(** A request as it arrived, an answer as it was sent, a write to the line. *)
Definition request_of (e : Event) : option (Z * list Z) :=
  match e.1 with Recv h _ => if 0 <? a_val e.2 then Some (h, a_data e.2) else None | _ => None end.
Definition answer_of (e : Event) : option (Z * list Z) := match e.1 with Send h p => Some (h, p) | _ => None end.
Definition line_of (e : Event) : option (list Z) := match e.1 with Write _ p => Some p | _ => None end.
(** A receive delivers as many bytes as it reports ([sys_recv] of the kernel). *)
Definition recv_delivers `{Env} : Prop :=
  forall log h cap, 0 < a_val (env log (Recv h cap)) -> llen (a_data (env log (Recv h cap))) = a_val (env log (Recv h cap)).

Lemma answers_app {S} `{PPPoS S} (s : S) tx reqs reqs' :
  answers s tx (reqs ++ reqs') =
    let '(s1, tx1, ps, fs) := answers s tx reqs in
    let '(s2, tx2, ps', fs') := answers s1 tx1 reqs' in (s2, tx2, ps ++ ps', fs ++ fs').
Proof.
  revert s tx. induction reqs as [|[h req] reqs IH]; intros s tx; cbn [answers Datatypes.app].
  { by destruct (answers s tx reqs') as [[[??]?]?]. }
  destruct (answer s tx req) as [[[s1 tx1] p] f]. rewrite IH.
  destruct (answers s1 tx1 reqs) as [[[s2 tx2] ps] fs]. destruct (answers s2 tx2 reqs') as [[[??]?]?].
  by rewrite app_assoc.
Qed.

(** ** What the server relies on *)

(** The documented behaviour of the PPP stack: it keeps to the buffers it is lent,
    and [poll] says [None] when the bounded work pending inside is done. *)
Class PppLaws (S : Type) `{PPPoS S} := {
  ppp_work : S -> nat;
  ppp_work_max : nat;
  ppp_work_bound s : (ppp_work s <= ppp_work_max)%nat;
  ppp_consume_law s input rx :
    let '(s', rx', used) := ppp_consume s input rx in
    length rx' = length rx /\ 0 <= used <= llen input /\ (used = 0 -> (ppp_work s' <= ppp_work s)%nat);
  ppp_poll_law s tx rx :
    let '(s', tx', rx', action) := ppp_poll s tx rx in
    length tx' = length tx /\ length rx' = length rx /\ (ppp_work s' <= ppp_work s)%nat /\
    match action with
    | ActNone => True
    | Transmit n => 0 <= n <= llen tx /\ (ppp_work s' < ppp_work s)%nat
    | Received a b => 0 <= a <= b /\ b <= llen rx /\ (ppp_work s' < ppp_work s)%nat
    end;
  ppp_send_law s payload tx :
    let '(_, tx', r) := ppp_send s payload tx in length tx' = length tx /\ (forall n, r = Some n -> 0 <= n <= llen tx);
  ppp_octets s st a : ppp_ipv4 s = Some st ->
    a ∈ [address st; peer_address st; fst (dns_servers st); snd (dns_servers st)] -> forall o, a = Some o -> length o = 4%nat;
}.

(** What the kernel promises: a read or a receive stays within the buffer, and a
    process has at most [IPC_MAX_HANDLES] handles ([sys_recv] and [sys_accept] of
    the kernel's IPC). *)
Class KernelAnswers `{Env} := {
  ka_recv log h cap : 0 < a_val (env log (Recv h cap)) -> a_val (env log (Recv h cap)) <= cap;
  ka_read3 log fd cap : 0 <= cap -> 0 <= a_val (env log (Read3 fd cap)) <= cap;
  ka_accept log l : 64 + llen (omap closed_of log) <= llen (omap accepted_of log) -> a_val (env log (Accept l)) < 0;
}.

Section Rounds.
Context `{Env} {S : Type} `{PPPoS S} `{!PppLaws S} `{!KernelAnswers}.
Implicit Types (log evs : list Event) (sv : Server (S := S)).

(** The buffers of [main]. *)
Record bufs_ok sv : Prop := {
  bo_in : length (serial_in sv) = 256%nat;
  bo_rx : length (serial_rx_buf sv) = SERIAL_RX_BUF_SIZE;
  bo_tx : length (tx_buf sv) = PPP_TX_BUF_SIZE;
  bo_ipc : length (ipc_buf sv) = IPC_BUF_SIZE }.

(** The events account for how the list of clients changed. *)
Definition handles_kept (cs : list Z) evs (cs' : list Z) : Prop := cs' ++ omap closed_of evs ≡ₚ cs ++ omap accepted_of evs.

Lemma handles_kept_refl cs : handles_kept cs [] cs.
Proof. by unfold handles_kept. Qed.
Lemma handles_kept_trans cs evs cs' evs' cs'' :
  handles_kept cs evs cs' -> handles_kept cs' evs' cs'' -> handles_kept cs (evs' ++ evs) cs''.
Proof.
  unfold handles_kept. intros Hk Hk'. rewrite !omap_app, app_assoc, Hk', <- app_assoc.
  rewrite (Permutation_app_comm (omap accepted_of evs')), app_assoc, Hk. by rewrite <- app_assoc, (Permutation_app_comm (omap accepted_of evs)).
Qed.
(** An event that opens and closes nothing. *)
Lemma handles_kept_other cs e : closed_of e = None -> accepted_of e = None -> handles_kept cs [e] cs.
Proof. intros Hc Ha. unfold handles_kept. cbn. by rewrite Hc, Ha. Qed.

(** The address at an offset that is still zero. *)
Lemma copy_address_at a o c : (forall x, o = Some x -> length x = 4%nat) -> 
  copy_address (a ++ [0; 0; 0; 0] ++ c) (llen a) o = Done (a ++ octets o ++ c).
Proof.
  intros Ho. destruct o as [x|]; [|done]. cbn [copy_address octets]. apply splice_at; [done|]. unfold llen. by rewrite Ho.
Qed.
Lemma octets_length o : (forall x, o = Some x -> length x = 4%nat) -> length (octets o) = 4%nat.
Proof. intros Ho. destruct o as [x|]; [by apply Ho|done]. Qed.

Lemma build_status_event_ok phase ipv4 :
  (forall st a, ipv4 = Some st -> a ∈ [address st; peer_address st; fst (dns_servers st); snd (dns_servers st)] -> forall o, a = Some o -> length o = 4%nat) ->
  build_status_event phase ipv4 = Done (status_message phase ipv4) /\ length (status_message phase ipv4) = 32%nat.
Proof.
  intros Hst. unfold build_status_event.
  assert (phase_code phase = phase_value phase) as -> by (by destruct phase).
  change (set_idx (replicate 32 0) 0 EVT_STATUS) with (Done (EVT_STATUS :: replicate 31 0)). cbn [mbind outcome_bind].
  rewrite set_idx_in_range by (unfold llen; cbn; lia). cbn [mbind outcome_bind].
  change (<[Z.to_nat 1:=phase_value phase]> (EVT_STATUS :: replicate 31 0)) with ([0x82; phase_value phase] ++ replicate 30 0).
  destruct ipv4 as [[o1 o2 [o3 o4]]|]; [|done]. cbn [address peer_address dns_servers fst snd].
  assert (forall a, a ∈ [o1; o2; o3; o4] -> forall o, a = Some o -> length o = 4%nat) as Ho by (intros a; by apply (Hst _ a eq_refl)).
  pose proof (Ho o1 ltac:(set_solver)) as H1'. pose proof (Ho o2 ltac:(set_solver)) as H2'.
  pose proof (Ho o3 ltac:(set_solver)) as H3'. pose proof (Ho o4 ltac:(set_solver)) as H4'.
  pose proof (octets_length o1 H1') as L1. pose proof (octets_length o2 H2') as L2. pose proof (octets_length o3 H3') as L3. pose proof (octets_length o4 H4') as L4.
  unfold status_message. cbn [address peer_address dns_servers fst snd].
  split; [|rewrite !length_app, L1, L2, L3, L4; done].
  pose proof (copy_address_at [0x82; phase_value phase] o1 (replicate 26 0) H1') as E1.
  change ([0; 0; 0; 0] ++ replicate 26 0) with (replicate 30 0) in E1. change (llen [0x82; phase_value phase]) with 2 in E1.
  rewrite E1. cbn [mbind outcome_bind].
  pose proof (copy_address_at ([0x82; phase_value phase] ++ octets o1) o2 (replicate 22 0) H2') as E2.
  replace (llen ([0x82; phase_value phase] ++ octets o1)) with 6 in E2 by (unfold llen; rewrite !length_app, L1; done).
  rewrite <- !app_assoc in E2.
  change ([0; 0; 0; 0] ++ replicate 22 0) with (replicate 26 0) in E2. rewrite E2. cbn [mbind outcome_bind].
  pose proof (copy_address_at ([0x82; phase_value phase] ++ octets o1 ++ octets o2) o3 (replicate 18 0) H3') as E3.
  replace (llen ([0x82; phase_value phase] ++ octets o1 ++ octets o2)) with 10 in E3 by (unfold llen; rewrite !length_app, L1, L2; done).
  rewrite <- !app_assoc in E3. change ([0; 0; 0; 0] ++ replicate 18 0) with (replicate 22 0) in E3. rewrite E3. cbn [mbind outcome_bind].
  pose proof (copy_address_at ([0x82; phase_value phase] ++ octets o1 ++ octets o2 ++ octets o3) o4 (replicate 14 0) H4') as E4.
  replace (llen ([0x82; phase_value phase] ++ octets o1 ++ octets o2 ++ octets o3)) with 14 in E4 by (unfold llen; rewrite !length_app, L1, L2, L3; done).
  rewrite <- !app_assoc in E4. change ([0; 0; 0; 0] ++ replicate 14 0) with (replicate 18 0) in E4. exact E4.
Qed.

Lemma status_event_ok s : exists event, build_status_event (ppp_phase s) (ppp_ipv4 s) = Done event /\ length event = 32%nat /\
  event = status_message (ppp_phase s) (ppp_ipv4 s).
Proof.
  destruct (build_status_event_ok (ppp_phase s) (ppp_ipv4 s)) as [He Hl]; [intros st a Hst; by apply (ppp_octets s)|].
  eexists. by split.
Qed.

Lemma build_error_ok code : build_error code = Done (EVT_ERROR :: code :: replicate 30 0).
Proof. reflexivity. Qed.
Lemma build_ack_ok code : build_ack code = Done (EVT_ACK :: code :: replicate 30 0).
Proof. reflexivity. Qed.

(** A request that is not empty is answered as the protocol says. *)
Lemma process_client_request_ok ppp req tx : req <> [] -> exists ppp' tx' reply,
  process_client_request ppp req tx = Done (ppp', tx', reply) /\ length tx' = length tx /\
  match reply with
  | Immediate buf => answer ppp tx req = (ppp', tx', buf, [])
  | TransmitReply n => 0 <= n <= llen tx /\ answer ppp tx req = (ppp', tx', ack_message, [take (Z.to_nat n) tx'])
  end.
Proof.
  unfold process_client_request. rewrite !build_error_ok. destruct req as [|op payload]; [done|]. intros _.
  rewrite bool_decide_false by done. change (idx (op :: payload) 0) with (Done op). cbn [mbind outcome_bind].
  unfold OP_SEND_IPV4, OP_QUERY_STATUS. destruct (Z.eqb_spec op 1) as [->|Hop1].
  { rewrite slice_in_range by (unfold llen; cbn; lia). cbn [mbind outcome_bind answer].
    assert (take (Z.to_nat (llen (1 :: payload) - 1)) (drop (Z.to_nat 1) (1 :: payload)) = payload) as ->
      by (apply take_ge; unfold llen; cbn; lia).
    pose proof (ppp_send_law ppp payload tx) as Hs.
    destruct (ppp_send _ _ tx) as [[ppp' tx'] [n|]]; destruct Hs as [Hl Hn]; eexists _, _, _; (split; [done|]); split; try done.
    split; [by apply Hn|done]. }
  destruct (Z.eqb_spec op 2) as [->|Hop2].
  { destruct (status_event_ok ppp) as (event & -> & _ & ->). by eexists _, _, _. }
  eexists _, _, _. split; [done|]. split; [done|]. cbn [answer]. destruct op as [|[p|[]|]|p]; done.
Qed.

(** What a part of a round leaves: the buffers, and clients the events account for. *)
Definition kept sv log (log' : list Event) sv' : Prop :=
  bufs_ok sv' /\ exists evs, log' = evs ++ log /\ handles_kept (clients sv) evs (clients sv').

Lemma kept_refl sv log : bufs_ok sv -> kept sv log log sv.
Proof. intros Hb. split; [done|]. exists []. split; [done|apply handles_kept_refl]. Qed.
Lemma kept_trans sv log log' sv' log'' sv'' : kept sv log log' sv' -> kept sv' log' log'' sv'' -> kept sv log log'' sv''.
Proof.
  intros (_ & evs & -> & Hk) (Hb & evs' & -> & Hk'). split; [done|]. exists (evs' ++ evs). split; [by rewrite app_assoc|].
  by eapply handles_kept_trans.
Qed.
(** The same after a change of the other variables. *)
Lemma kept_other sv log log' sv1 sv2 : clients sv1 = clients sv -> kept sv1 log log' sv2 -> kept sv log log' sv2.
Proof. unfold kept. by intros ->. Qed.
Lemma kept_event sv log e : bufs_ok sv -> closed_of e = None -> accepted_of e = None -> kept sv log (e :: log) sv.
Proof. intros Hb Hc Ha. split; [done|]. exists [e]. split; [done|by apply handles_kept_other]. Qed.

Lemma broadcast_kept sv log payload : bufs_ok sv ->
  wp (broadcast (clients sv) payload) log (fun log' r => exists cs, r = Ok cs /\ kept sv log log' (sv <| clients := cs |>)).
Proof.
  intros Hb. eapply wp_mono; [apply broadcast_loop_spec; lia|].
  intros log' r (cs & evs & -> & -> & _ & Hc & _ & Ha & _). exists cs. split; [done|]. split; [by destruct Hb; split|].
  exists evs. split; [done|]. unfold handles_kept. by rewrite Ha, app_nil_r.
Qed.

Lemma handle_ppp_actions_ok fd sv log : bufs_ok sv ->
  wp (handle_ppp_actions fd sv) log (fun log' r => exists sv' more, r = Ok (sv', more) /\ kept sv log log' sv' /\
    (ppp_work (sv_ppp sv') + (if more : bool then 1 else 0) <= ppp_work (sv_ppp sv))%nat).
Proof.
  intros Hb. unfold handle_ppp_actions. pose proof (ppp_poll_law (sv_ppp sv) (tx_buf sv) (serial_rx_buf sv)) as Hp.
  destruct (ppp_poll _ _ _) as [[[ppp tx] rx] action]. destruct Hp as (Htx & Hrx & Hw & Hact).
  assert (bufs_ok (sv <| sv_ppp := ppp |> <| tx_buf := tx |> <| serial_rx_buf := rx |>)) as Hb1.
  { destruct Hb. split; cbn; congruence. }
  destruct action as [|n|a b].
  - apply wp_ret. eexists _, _. split; [done|]. split; [by eapply kept_other, kept_refl|]. cbn. lia.
  - destruct Hact as [Hn Hlt]. apply wp_bind. eapply wp_lift; [apply slice_in_range; unfold llen in *; lia|].
    apply wp_bind. unfold write_raw, sys_write. apply wp_call_, wp_ret. eexists _, _. split; [done|]. split; [|cbn; lia].
    eapply kept_other; [|by apply kept_event]. done.
  - destruct Hact as (Ha & Hn & Hlt). apply wp_bind. eapply wp_lift; [apply slice_in_range; unfold llen in *; lia|].
    apply wp_bind. eapply wp_mono; [by apply (broadcast_kept _ log _ Hb1)|].
    intros log' r (cs & -> & Hk). apply wp_ret. eexists _, _. split; [done|]. split; [|cbn; lia].
    eapply kept_other; [|exact Hk]. done.
Qed.

Lemma drain_actions_ok fuel : forall fd sv b log, bufs_ok sv -> (ppp_work (sv_ppp sv) < fuel)%nat ->
  wp (drain_actions fuel fd sv b) log (fun log' r => exists sv' b', r = Ok (sv', b') /\ kept sv log log' sv' /\
    (ppp_work (sv_ppp sv') + (if b' && negb b then 1 else 0) <= ppp_work (sv_ppp sv))%nat).
Proof.
  induction fuel as [|fuel IH]; intros fd sv b log Hb Hf; [lia|]. cbn [drain_actions].
  apply wp_bind. eapply wp_mono; [by apply handle_ppp_actions_ok|].
  intros log1 r (sv1 & more & -> & Hk & Hw). destruct more.
  - eapply wp_mono; [apply IH; [apply Hk|lia]|]. intros log2 r (sv2 & b' & -> & Hk2 & Hw2).
    eexists _, _. split; [done|]. split; [by eapply kept_trans|]. destruct b', b; cbn in *; lia.
  - apply wp_ret. eexists _, _. split; [done|]. split; [done|]. destruct b; cbn; lia.
Qed.

Lemma accept_clients_ok fuel : forall listener sv log, bufs_ok sv ->
  Z.max 0 (64 + llen (omap closed_of log) - llen (omap accepted_of log)) < Z.of_nat fuel ->
  wp (accept_clients fuel listener sv) log (fun log' r => exists sv', r = Ok sv' /\ kept sv log log' sv').
Proof.
  induction fuel as [|fuel IH]; intros listener sv log Hb Hf; [lia|]. cbn [accept_clients].
  unfold call_handle, call_val. do 3 apply wp_bind. apply wp_call, wp_ret, wp_ret.
  pose proof (ka_accept log listener) as Hacc. set (ans := env log (Accept listener)) in *.
  destruct (Z.ltb_spec (a_val ans) 0) as [Hneg|Hpos].
  - apply wp_ret. eexists. split; [done|]. apply kept_event; [done|done|]. cbn. by rewrite (proj2 (Z.ltb_lt _ _) Hneg).
  - apply wp_bind. destruct (status_event_ok (sv_ppp sv)) as (event & He & _). eapply wp_lift; [exact He|].
    apply wp_bind, wp_call_. match goal with |- wp _ ?l _ => set (log1 := l) end.
    assert (omap accepted_of log1 = a_val ans :: omap accepted_of log) as Ha1.
    { unfold log1. cbn. by rewrite (proj2 (Z.ltb_ge _ _) Hpos). }
    assert (omap closed_of log1 = omap closed_of log) as Hc1 by done.
    eapply wp_mono.
    + apply IH; [by destruct Hb; split|]. rewrite Ha1, Hc1, llen_cons. lia.
    + intros log' r (sv' & -> & Hk). exists sv'. split; [done|].
      eapply kept_trans; [|exact Hk]. split; [by destruct Hb; split|]. exists [(Send (a_val ans) event, env ((Accept listener, ans) :: log) (Send (a_val ans) event)); (Accept listener, ans)].
      split; [done|]. unfold handles_kept. cbn. rewrite (proj2 (Z.ltb_ge _ _) Hpos). by rewrite app_nil_r.
Qed.

(** The measure of the loop over the serial bytes: what is left to consume, then the work pending. *)
Lemma consume_serial_ok fuel : forall fd sv consumed read_len log, bufs_ok sv -> 0 <= consumed -> read_len <= 256 ->
  (Z.to_nat (read_len - consumed) * Datatypes.S ppp_work_max + ppp_work (sv_ppp sv) < fuel)%nat ->
  wp (consume_serial fuel fd sv consumed read_len) log (fun log' r => exists sv', r = Ok sv' /\ kept sv log log' sv').
Proof.
  induction fuel as [|fuel IH]; intros fd sv consumed read_len log Hb Hc Hr Hf; [lia|]. cbn [consume_serial].
  destruct (Z.ltb_spec consumed read_len) as [Hlt|Hge].
  2: { apply wp_ret. eexists. split; [done|]. by apply kept_refl. }
  apply wp_bind. pose proof (bo_in sv Hb) as Hin.
  eapply wp_lift; [apply slice_in_range; unfold llen; lia|]. set (input := take _ _).
  assert (llen input = read_len - consumed) as Hil by (unfold input, llen; rewrite length_take, length_drop; lia).
  pose proof (ppp_consume_law (sv_ppp sv) input (serial_rx_buf sv)) as Hlaw.
  destruct (ppp_consume _ _ _) as [[ppp rx] used]. destruct Hlaw as (Hrx & Hused & Hw).
  set (sv1 := sv <| sv_ppp := ppp |> <| serial_rx_buf := rx |>).
  assert (bufs_ok sv1) as Hb1 by (destruct Hb; split; cbn; congruence).
  destruct (Z.eqb_spec used 0) as [->|Hne].
  - specialize (Hw eq_refl). apply wp_bind. eapply wp_mono; [apply drain_actions_ok; [done|cbn; nia]|].
    intros log1 r (sv2 & b & -> & Hk & Hw2). rewrite andb_true_r in Hw2. destruct b.
    + eapply wp_mono; [apply IH; [apply Hk|done|done|cbn in Hw2; lia]|].
      intros log2 r (sv3 & -> & Hk3). eexists. split; [done|]. eapply kept_other; [|by eapply kept_trans]. done.
    + apply wp_ret. eexists. split; [done|]. by eapply kept_other.
  - apply wp_bind. eapply wp_lift; [unfold add_ovf; rewrite (proj2 (Z.ltb_lt _ _)) by lia; done|].
    eapply wp_mono.
    + apply IH; [done|lia|done|]. pose proof (ppp_work_bound (sv_ppp sv1)).
      assert (Z.to_nat (read_len - (consumed + used)) + 1 <= Z.to_nat (read_len - consumed))%nat as Hm by lia.
      apply (Nat.mul_le_mono_r _ _ (Datatypes.S ppp_work_max)) in Hm. lia.
    + intros log1 r (sv2 & -> & Hk). eexists. split; [done|]. by eapply kept_other.
Qed.

(** What serving the clients [cs] does, its events newest first: each client is asked
    once; a request gets the answer of the protocol; a client whose stream has ended or
    that refuses its answer is closed and leaves. *)
Definition answered sv evs sv' : Prop :=
  recv_delivers ->
  answers (sv_ppp sv) (tx_buf sv) (omap request_of (reverse evs)) =
    (sv_ppp sv', tx_buf sv', omap answer_of (reverse evs), omap line_of (reverse evs)).
Record served (cs : list Z) sv evs sv' : Prop := {
  se_polled : omap polled_of evs ≡ₚ cs;
  se_answered : answered sv evs sv';
  se_closed : omap closed_of evs ≡ₚ omap ended_of evs ++ omap refused_of evs;
  se_accepted : omap accepted_of evs = [] }.

Lemma answered_trans sv evs1 sv1 evs2 sv2 : answered sv evs1 sv1 -> answered sv1 evs2 sv2 -> answered sv (evs2 ++ evs1) sv2.
Proof.
  intros Ha1 Ha2 Hd. rewrite reverse_app, !omap_app, answers_app, (Ha1 Hd). by rewrite (Ha2 Hd).
Qed.

Lemma served_cons handle cs sv sv1 sv2 evs evs1 cs1 :
  served cs sv1 evs sv2 ->
  omap polled_of evs1 = [handle] -> answered sv evs1 sv1 ->
  omap closed_of evs1 ≡ₚ omap ended_of evs1 ++ omap refused_of evs1 -> omap accepted_of evs1 = [] ->
  cs1 ≡ₚ handle :: cs -> served cs1 sv (evs ++ evs1) sv2.
Proof.
  intros [Hp Hs Hc Ha] Hp1 Hs1 Hc1 Ha1 Hcs. split; rewrite ?omap_app.
  - by rewrite Hp1, Hp, Hcs, <- Permutation_cons_append.
  - by eapply answered_trans.
  - rewrite Hc, Hc1. rewrite <- !app_assoc. apply Permutation_app_head. rewrite !app_assoc. apply Permutation_app_tail, Permutation_app_comm.
  - by rewrite Ha, Ha1.
Qed.

Lemma handles_kept_dropped cs i handle evs :
  cs !! i = Some handle -> omap accepted_of evs = [] -> omap closed_of evs = [handle] -> handles_kept cs evs (swap_remove cs i).
Proof.
  intros Hi Ha Hc. unfold handles_kept. rewrite Ha, Hc, app_nil_r, <- Permutation_cons_append. by apply swap_remove_perm.
Qed.

(** What asking the client at [i] leaves. *)
Definition served_one sv i handle log (log' : list Event) (r : result (Server (S := S) * bool) Stop) : Prop :=
  exists evs sv' (there : bool), r = Ok (sv', there) /\ log' = evs ++ log /\ bufs_ok sv' /\
    clients sv' = (if there then clients sv else swap_remove (clients sv) i) /\ handles_kept (clients sv) evs (clients sv') /\
    omap polled_of evs = [handle] /\ answered sv evs sv' /\
    omap closed_of evs ≡ₚ omap ended_of evs ++ omap refused_of evs /\ omap accepted_of evs = [].

(** The answer to a request: the events so far are the request and its frame. *)
Lemma send_answer sv i handle log buf evs0 sv0 :
  bufs_ok sv0 -> clients sv0 = clients sv -> clients sv !! i = Some handle ->
  omap polled_of evs0 = [handle] -> omap answer_of (reverse evs0) = [] ->
  (recv_delivers -> answers (sv_ppp sv) (tx_buf sv) (omap request_of (reverse evs0)) =
     (sv_ppp sv0, tx_buf sv0, [(handle, buf)], omap line_of (reverse evs0))) ->
  omap closed_of evs0 = [] -> omap ended_of evs0 = [] -> omap refused_of evs0 = [] -> omap accepted_of evs0 = [] ->
  wp (ret ←! call_val (Send handle buf);
      if ret <? 0 then sv ←! drop_client sv0 i handle; p_ret (sv, false) else p_ret (sv0, true)) (evs0 ++ log) (served_one sv i handle log).
Proof.
  intros Hb Hcl Hi Hp Hs Han Hc He Hr Ha. unfold call_val. do 2 apply wp_bind. apply wp_call, wp_ret.
  set (ans := env _ _). destruct (Z.ltb_spec (a_val ans) 0) as [Hneg|Hpos].
  - apply wp_bind. unfold drop_client. apply wp_bind, wp_call_, wp_ret, wp_ret.
    match goal with |- served_one _ _ _ _ (?e1 :: ?e2 :: _) _ => exists ([e1; e2] ++ evs0) end.
    eexists _, false. split; [done|]. split; [done|]. split; [by destruct Hb; split|]. cbn [clients update]. rewrite Hcl. split; [done|].
    rewrite !omap_app, Hp, Hc, He, Hr, Ha. cbn. rewrite (proj2 (Z.ltb_lt _ _) Hneg).
    split; [apply (handles_kept_dropped _ _ handle); [done| |]; cbn; by rewrite ?Ha, ?Hc|]. split; [done|]. split; [|done].
    intros Hd. specialize (Han Hd). rewrite !reverse_cons, !omap_app. cbn. rewrite Hs, !app_nil_r. exact Han.
  - apply wp_ret. match goal with |- served_one _ _ _ _ (?e1 :: _) _ => exists ([e1] ++ evs0) end.
    eexists _, true. split; [done|]. split; [done|]. split; [done|]. split; [done|].
    rewrite !omap_app, Hp, Hc, He, Hr, Ha. cbn. rewrite (proj2 (Z.ltb_ge _ _) Hpos).
    split; [unfold handles_kept; cbn; by rewrite Hc, Ha, Hcl|]. split; [done|]. split; [|done].
    intros Hd. specialize (Han Hd). rewrite !reverse_cons, !omap_app. cbn. rewrite Hs, !app_nil_r. exact Han.
Qed.

Lemma serve_client_ok fd sv i handle log :
  bufs_ok sv -> clients sv !! i = Some handle -> wp (serve_client fd sv i handle) log (served_one sv i handle log).
Proof.
  intros Hb Hi. unfold serve_client, sys_ipc_recv. do 2 apply wp_bind. apply wp_call, wp_ret.
  pose proof (ka_recv log handle (llen (ipc_buf sv))) as Hrecv. set (ans := env log (Recv handle (llen (ipc_buf sv)))) in *.
  set (sv0 := sv <| ipc_buf := fill (ipc_buf sv) (a_data ans) |>).
  assert (length (fill (ipc_buf sv) (a_data ans)) = IPC_BUF_SIZE) as Hfill.
  { unfold fill. rewrite length_take, length_app, length_drop. rewrite (bo_ipc sv Hb). lia. }
  assert (bufs_ok sv0) as Hb0 by (destruct Hb; split; cbn; congruence).
  destruct (Z.eqb_spec (a_val ans) IPC_EAGAIN) as [Hag|Hag].
  { apply wp_ret. exists [(Recv handle (llen (ipc_buf sv)), ans)], sv0, true. cbn. rewrite Hag. cbn.
    split; [done|]. split; [done|]. split; [done|]. split; [done|]. split; [by unfold handles_kept; rewrite !app_nil_r|].
    split; [done|]. split; [|done]. intros _. cbn. by rewrite Hag. }
  destruct (Z.leb_spec (a_val ans) 0) as [Hend|Hreq].
  { unfold drop_client. do 2 apply wp_bind. apply wp_call_, wp_ret, wp_ret.
    match goal with |- served_one _ _ _ _ (?e1 :: ?e2 :: _) _ => exists [e1; e2] end.
    eexists _, false. split; [done|]. split; [done|]. split; [by destruct Hb0; split|]. split; [done|].
    split; [by apply (handles_kept_dropped _ _ handle)|]. cbn.
    rewrite (proj2 (Z.leb_le _ _) Hend), (proj2 (Z.eqb_neq _ _) Hag).
    split; [done|]. split; [|done]. intros _. cbn. by rewrite (proj2 (Z.ltb_ge _ _) Hend). }
  assert (wrap 64 (a_val ans) = a_val ans) as Hwrap.
  { apply wrap_small. unfold fits, llen in *. rewrite (bo_ipc sv Hb) in Hrecv. change (2 ^ 64) with 18446744073709551616. unfold IPC_BUF_SIZE in Hrecv. specialize (Hrecv Hreq). lia. }
  rewrite Hwrap. apply wp_bind. eapply wp_lift.
  { apply slice_in_range; [lia|lia|]. change (ipc_buf sv0) with (fill (ipc_buf sv) (a_data ans)). unfold llen in *. rewrite Hfill. rewrite (bo_ipc sv Hb) in Hrecv. by apply Hrecv. }
  set (req := take (Z.to_nat (a_val ans - 0)) (drop (Z.to_nat 0) (ipc_buf sv0))).
  assert (length req = Z.to_nat (a_val ans)) as Hreql.
  { unfold req. cbn [Z.to_nat]. rewrite drop_0, length_take. change (ipc_buf sv0) with (fill (ipc_buf sv) (a_data ans)). rewrite Hfill.
    specialize (Hrecv Hreq). unfold llen in Hrecv. rewrite (bo_ipc sv Hb) in Hrecv. lia. }
  assert (recv_delivers -> req = a_data ans) as Hdata.
  { intros Hd. specialize (Hd log handle (llen (ipc_buf sv)) Hreq). fold ans in Hd. specialize (Hrecv Hreq). unfold req. cbn [Z.to_nat].
    rewrite drop_0. change (ipc_buf sv0) with (fill (ipc_buf sv) (a_data ans)). unfold fill, llen in *.
    rewrite take_take, Nat.min_l by lia. rewrite take_app_le by lia. apply take_ge. lia. }
  apply wp_bind. destruct (process_client_request_ok (sv_ppp sv0) req (tx_buf sv0)) as (ppp & tx & reply & Hpr & Htx & Hans);
    [intros Hnil; rewrite Hnil in Hreql; cbn in Hreql; lia|]. eapply wp_lift; [exact Hpr|].
  set (sv1 := sv0 <| sv_ppp := ppp |> <| tx_buf := tx |>).
  assert (bufs_ok sv1) as Hb1 by (destruct Hb0; split; [done|done|by rewrite <- bo_tx0, <- Htx|done]).
  unfold reply_to. destruct reply as [buf|n].
  - apply (send_answer sv i handle log buf [(Recv handle (llen (ipc_buf sv)), ans)]); try done.
    + intros Hd. cbn. rewrite (proj2 (Z.ltb_lt _ _) Hreq). cbn [answers]. rewrite <- (Hdata Hd).
      change (sv_ppp sv) with (sv_ppp sv0). change (tx_buf sv) with (tx_buf sv0). by rewrite Hans.
    + cbn. by rewrite (proj2 (Z.leb_gt _ _) Hreq).
  - destruct Hans as [Hlen Hans]. apply wp_bind. eapply wp_lift.
    { apply slice_in_range; [lia|lia|]. change (n <= llen tx). unfold llen in *. rewrite Htx. lia. }
    apply wp_bind. apply wp_call_. apply wp_bind. eapply wp_lift; [apply build_ack_ok|].
    match goal with |- wp _ (?e1 :: ?e2 :: log) _ => apply (send_answer sv i handle log _ [e1; e2]); try done end.
    + intros Hd. cbn. rewrite (proj2 (Z.ltb_lt _ _) Hreq). cbn [answers]. rewrite <- (Hdata Hd).
      change (sv_ppp sv) with (sv_ppp sv0). change (tx_buf sv) with (tx_buf sv0). rewrite Hans.
      by rewrite Z.sub_0_r, drop_0.
    + cbn. by rewrite (proj2 (Z.leb_gt _ _) Hreq).
Qed.

Lemma serve_clients_ok fuel : forall fd sv i log, bufs_ok sv -> (length (clients sv) <= fuel + i)%nat ->
  wp (serve_clients fuel fd sv i) log (fun log' r => exists sv' evs, r = Ok sv' /\ log' = evs ++ log /\
    bufs_ok sv' /\ handles_kept (clients sv) evs (clients sv') /\ served (drop i (clients sv)) sv evs sv').
Proof.
  assert (forall sv i log, bufs_ok sv -> (length (clients sv) <= i)%nat ->
    wp (p_ret (E := Stop) sv) log (fun log' r => exists sv' evs, r = Ok sv' /\ log' = evs ++ log /\
    bufs_ok sv' /\ handles_kept (clients sv) evs (clients sv') /\ served (drop i (clients sv)) sv evs sv')) as Hend.
  { intros sv i log Hb Hi. apply wp_ret. exists sv, []. split; [done|]. split; [done|]. split; [done|].
    split; [apply handles_kept_refl|]. rewrite drop_ge by lia. split; done. }
  induction fuel as [|fuel IH]; intros fd sv i log Hb Hf; cbn [serve_clients]; [by apply Hend|].
  destruct (clients sv !! i) as [handle|] eqn:Hi; [|apply Hend; [done|by apply lookup_ge_None]].
  pose proof (lookup_lt_Some _ _ _ Hi) as Hlt. apply wp_bind. eapply wp_mono; [by apply serve_client_ok|].
  intros log1 r (evs1 & sv1 & there & -> & -> & Hb1 & Hcl & Hk & Hone).
  eapply wp_mono.
  { apply IH; [done|]. rewrite Hcl. destruct there; [lia|]. pose proof (swap_remove_length _ _ _ Hi). lia. }
  intros log2 r (sv2 & evs2 & -> & -> & Hb2 & Hk2 & Hs2). exists sv2, (evs2 ++ evs1). split; [done|]. split; [by rewrite app_assoc|].
  split; [done|]. split; [by eapply handles_kept_trans|].
  destruct Hone as (Hp & Hs & Hc & Ha). eapply served_cons; [exact Hs2|done..|]. rewrite Hcl. destruct there.
  - replace (i + 1)%nat with (Datatypes.S i) by lia. by rewrite (drop_S _ _ _ Hi).
  - symmetry. by apply swap_remove_drop.
Qed.

(** Fuel for the inner loops of a round: the handles of a process, the bytes of a
    read of the serial line, and the work pending in the stack. *)
Definition ROUND_FUEL : nat := 257 * Datatypes.S ppp_work_max + 65.

Lemma counts_kept log log' cs cs' :
  handles_kept cs log' cs' -> cs ++ omap closed_of log ≡ₚ omap accepted_of log ->
  cs' ++ omap closed_of (log' ++ log) ≡ₚ omap accepted_of (log' ++ log).
Proof.
  intros Hk Hi. rewrite !omap_app, app_assoc, Hk, <- app_assoc, (Permutation_app_comm (omap accepted_of log')), app_assoc, Hi. apply Permutation_app_comm.
Qed.

Lemma serve_round_ok fuel fd listener sv log :
  bufs_ok sv -> clients sv ++ omap closed_of log ≡ₚ omap accepted_of log -> (ROUND_FUEL <= fuel)%nat ->
  wp (serve_round fuel fd listener sv) log (fun log' r => exists sv', r = Ok sv' /\ kept sv log log' sv').
Proof.
  intros Hb Hopen Hf. unfold ROUND_FUEL in Hf. unfold serve_round.
  apply wp_bind. eapply wp_mono.
  { apply accept_clients_ok; [done|]. apply Permutation_length in Hopen. rewrite length_app in Hopen. unfold llen. lia. }
  intros log1 r (sv1 & -> & Hk1). apply wp_bind. unfold sys_read3. apply wp_bind, wp_call, wp_ret.
  pose proof (ka_read3 log1 fd (llen (serial_in sv1)) ltac:(unfold llen; lia)) as Hread.
  set (ans := env log1 _) in *. match goal with |- wp _ ?l _ => set (log2 := l) end.
  set (sv2 := sv1 <| serial_in := fill (serial_in sv1) (a_data ans) |>).
  assert (bufs_ok sv1) as Hb1 by apply Hk1.
  assert (length (fill (serial_in sv1) (a_data ans)) = 256%nat) as Hfill.
  { unfold fill. rewrite length_take, length_app, length_drop, (bo_in sv1 Hb1). lia. }
  assert (bufs_ok sv2) as Hb2 by (destruct Hb1; split; [done|done|done|done]).
  assert (kept sv log log2 sv2) as Hk2 by (eapply kept_trans; [exact Hk1|]; eapply kept_other; [|by apply kept_event]; done).
  apply wp_bind. eapply wp_mono.
  { instantiate (1 := fun log' r => exists sv', r = Ok sv' /\ kept sv2 log2 log' sv').
    destruct (negb _); [|apply wp_ret; eexists; split; [done|by apply kept_refl]].
    apply consume_serial_ok; [done|done| |].
    - unfold llen in Hread. rewrite (bo_in sv1 Hb1) in Hread. lia.
    - unfold llen in Hread. rewrite (bo_in sv1 Hb1) in Hread. pose proof (ppp_work_bound (sv_ppp sv2)).
      assert (Z.to_nat (a_val ans - 0) <= 256)%nat as Hm by lia. apply (Nat.mul_le_mono_r _ _ (Datatypes.S ppp_work_max)) in Hm. lia. }
  intros log3 r (sv3 & -> & Hk3). apply wp_bind. eapply wp_mono.
  { apply drain_actions_ok; [apply Hk3|]. pose proof (ppp_work_bound (sv_ppp sv3)). lia. }
  intros log4 r (sv4 & b & -> & Hk4 & _). apply wp_bind. eapply wp_mono.
  { instantiate (1 := fun log' r => exists sv', r = Ok sv' /\ kept sv4 log4 log' sv').
    assert (bufs_ok sv4) as Hb4 by apply Hk4.
    case_bool_decide; [|apply wp_ret; eexists; split; [done|by apply kept_refl]].
    apply wp_bind. destruct (status_event_ok (sv_ppp sv4)) as (event & He & _). eapply wp_lift; [exact He|].
    apply wp_bind. eapply wp_mono; [apply (broadcast_kept (sv4 <| status_phase := ppp_phase (sv_ppp sv4) |>)); by destruct Hb4; split|].
    intros log' r (cs & -> & Hk). apply wp_ret. eexists. split; [done|]. by eapply kept_other. }
  intros log5 r (sv5 & -> & Hk5). eapply wp_mono; [apply serve_clients_ok; [apply Hk5|lia]|].
  intros log6 r (sv6 & evs & -> & -> & Hb6 & Hk6 & _). exists sv6. split; [done|].
  eapply kept_trans; [exact Hk2|]. eapply kept_trans; [exact Hk3|]. eapply kept_trans; [exact Hk4|]. eapply kept_trans; [exact Hk5|].
  split; [done|]. by exists evs.
Qed.

Lemma serve_ok rounds fuel fd listener : forall sv log,
  bufs_ok sv -> clients sv ++ omap closed_of log ≡ₚ omap accepted_of log -> (ROUND_FUEL <= fuel)%nat ->
  wp (serve rounds fuel fd listener sv) log (fun log' r => exists sv', r = Ok sv' /\ bufs_ok sv' /\
    clients sv' ++ omap closed_of log' ≡ₚ omap accepted_of log').
Proof.
  induction rounds as [|rounds IH]; intros sv log Hb Hi Hf; cbn [serve].
  - apply wp_ret. by exists sv.
  - apply wp_bind. eapply wp_mono; [by apply serve_round_ok|]. intros log1 r (sv1 & -> & Hb1 & evs & -> & Hk).
    apply IH; [done| |done]. by eapply counts_kept.
Qed.
End Rounds.

(** ** The properties *)

(** C34: the service runs forever without a leak.  Whatever the clients, the serial
    line and the PPP stack do, [main] neither panics nor gets stuck in an inner loop:
    after any number of rounds it is still serving, and the clients it serves are
    exactly the connections accepted and not yet closed, each of them once - so a
    connection is closed once, when it leaves the list, and no handle is lost. *)
Theorem upppd_serves_forever `{Env} {S} `{PPPoS S} `{!PppLaws S} `{!KernelAnswers} rounds fuel log :
  omap closed_of log = [] -> omap accepted_of log = [] -> (ROUND_FUEL (S := S) <= fuel)%nat ->
  exists log' r, main (S := S) rounds fuel log = Done (log', Ok r) /\
    forall sv, r = Some sv -> bufs_ok sv /\ clients sv ++ omap closed_of log' ≡ₚ omap accepted_of log'.
Proof.
  intros Hc Ha Hf.
  assert (wp (main (S := S) rounds fuel) log (fun log' r => exists o, r = Ok o /\
    forall sv, o = Some sv -> bufs_ok sv /\ clients sv ++ omap closed_of log' ≡ₚ omap accepted_of log')) as (log' & r & Hm & o & -> & Ho); [|by eauto].
  unfold main, sys_open, call_opt, call_handle, call_val, eprintln, eprint, sys_write.
  do 3 apply wp_bind. apply wp_call, wp_ret, wp_ret. destruct (_ =? U64_MAX).
  1: { apply wp_bind, wp_call_, wp_ret. by eexists. }
  do 3 apply wp_bind. apply wp_call, wp_ret, wp_ret. destruct (_ <? 0).
  1: { apply wp_bind, wp_call_, wp_bind, wp_call_, wp_ret. by eexists. }
  destruct (ppp_open ppp_new) as [ppp []]; cbn [negb].
  2: { apply wp_bind, wp_call_, wp_bind, wp_call_, wp_bind, wp_call_, wp_ret. by eexists. }
  apply wp_bind. eapply wp_mono.
  { apply serve_ok; [split; apply length_replicate| |done]. cbn. by rewrite Hc, Ha. }
  intros log' r (sv & -> & Hb & Hk). apply wp_ret. eexists. split; [done|]. by intros sv' [= <-].
Qed.

(** C35: a round asks each client once, and every request that is not empty gets exactly
    one answer, sent to the client that asked, in the order of the requests: the packet
    of a request 0x01 goes to the PPP stack, the frame is written to the line and
    acknowledged, or error 2 tells that it cannot be sent; 0x02 is answered with the 32
    bytes of the status; any other byte with error 3.  A receive that returns 0 bytes
    or an error other than "nothing there" - an empty request too, for which README.md
    promises error 1 - gets no answer: this client is closed and leaves the list, like
    one that refuses its answer; the others stay.  A receive delivers as many bytes as
    it reports and the stack keeps to its documentation. *)
Theorem upppd_answers_each_request `{Env} {S} `{PPPoS S} `{!PppLaws S} `{!KernelAnswers} (sv : Server (S := S)) serial_fd log :
  bufs_ok sv -> recv_delivers ->
  exists sv' evs, serve_clients (length (clients sv)) serial_fd sv 0 log = Done (evs ++ log, Ok sv') /\
    omap polled_of evs ≡ₚ clients sv /\
    answers (sv_ppp sv) (tx_buf sv) (omap request_of (reverse evs)) =
      (sv_ppp sv', tx_buf sv', omap answer_of (reverse evs), omap line_of (reverse evs)) /\
    omap closed_of evs ≡ₚ omap ended_of evs ++ omap refused_of evs /\
    clients sv' ++ omap closed_of evs ≡ₚ clients sv.
Proof.
  intros Hb Hd. destruct (serve_clients_ok (length (clients sv)) serial_fd sv 0 log Hb) as (log' & r & Hs & sv' & evs & -> & -> & _ & Hk & [Hp Ha Hc Hn]); [lia|].
  exists sv', evs. split; [done|]. rewrite drop_0 in Hp. split; [done|]. split; [by apply Ha|]. split; [done|].
  unfold handles_kept in Hk. by rewrite Hn, app_nil_r in Hk.
Qed.

(** A broadcast sends the payload to every client exactly once; the clients that
    refuse it are closed, each once, and leave the list, and nobody else does. *)
Theorem broadcast_reaches_each_client `{Env} clients payload log :
  exists clients' evs, broadcast clients payload log = Done (evs ++ log, Ok clients') /\
    omap sent_of evs ≡ₚ clients /\ (forall e h p, e ∈ evs -> e.1 = Send h p -> p = payload) /\
    omap closed_of evs = omap refused_of evs /\ clients' ++ omap closed_of evs ≡ₚ clients.
Proof.
  destruct (broadcast_loop_spec (length clients) clients 0 payload log) as (log' & r & Hb & cs & evs & -> & -> & Hs & Hc & Hr & _ & _ & Hpl); [lia|].
  by exists cs, evs.
Qed.

(** An address as the report shows it; one that is not known is all zeros. *)
Definition address_text (o : option (list Z)) : str := match o with Some [a; b; c; d] => dotted a b c d | _ => dotted 0 0 0 0 end.
Definition report_text (phase : Phase) (ipv4 : Ipv4Status) : str :=
  bytes_of "--------- BEGIN STATUS REPORT ---------" ++ [10] ++
  bytes_of "Phase: " ++ match phase with Dead => bytes_of "0" | Establish => bytes_of "1" | Auth => bytes_of "2"
                        | Network => bytes_of "3" | Opened => bytes_of "4" end ++ [10] ++
  bytes_of "Local Address: " ++ address_text (address ipv4) ++ [10] ++
  bytes_of "Peer Address: " ++ address_text (peer_address ipv4) ++ [10] ++
  bytes_of "DNS 1: " ++ address_text (fst (dns_servers ipv4)) ++ [10] ++
  bytes_of "DNS 2: " ++ address_text (snd (dns_servers ipv4)) ++ [10] ++
  bytes_of "---------- END STATUS REPORT ----------" ++ [10].

(** C37: the status event is understood by the client: what [upppd] builds is the 32
    bytes of README.md - 0x82, the phase from 0 for Dead to 4 for Open, the four
    addresses, zeros -, and from them [netdump] prints the number of the phase and the
    four addresses. *)
Theorem status_report_round_trip `{Env} phase ipv4 log :
  (forall a, a ∈ [address ipv4; peer_address ipv4; fst (dns_servers ipv4); snd (dns_servers ipv4)] -> forall o, a = Some o -> length o = 4%nat) ->
  exists event log', build_status_event phase (Some ipv4) = Done event /\ length event = 32%nat /\
    event = [0x82; match phase with Dead => 0 | Establish => 1 | Auth => 2 | Network => 3 | Opened => 4 end] ++
      octets (address ipv4) ++ octets (peer_address ipv4) ++
      octets (fst (dns_servers ipv4)) ++ octets (snd (dns_servers ipv4)) ++ replicate 14 0 /\
    handle_status event log = Done (log', Ok tt) /\ output 1 log' = output 1 log ++ report_text phase ipv4.
Proof.
  destruct ipv4 as [a1 a2 [a3 a4]]. cbn [address peer_address dns_servers fst snd]. intros Hl.
  assert (forall a : option (list Z), a ∈ [a1; a2; a3; a4] -> a = None \/ exists w x y z, a = Some [w; x; y; z]) as Hc.
  { intros [o|] Ha; [|by left]. right. specialize (Hl _ Ha o eq_refl). do 4 (destruct o as [|? o]; [done|]). destruct o; [|done]. by eexists _, _, _, _. }
  destruct (Hc a1 ltac:(set_solver)) as [->|(? & ? & ? & ? & ->)], (Hc a2 ltac:(set_solver)) as [->|(? & ? & ? & ? & ->)],
    (Hc a3 ltac:(set_solver)) as [->|(? & ? & ? & ? & ->)], (Hc a4 ltac:(set_solver)) as [->|(? & ? & ? & ? & ->)];
    destruct phase;
    (eexists _, _; split; [reflexivity|]; split; [reflexivity|]; split; [reflexivity|]; split; [reflexivity|]; rewrite !output_cons; unfold report_text;
     cbn [text_of fst snd Z.eqb Pos.eqb address_text address peer_address dns_servers]; by rewrite <- !app_assoc).
Qed.

(** ** A client that asks for the status and goes *)

(** A stack that swallows what comes in and frames what goes out as it is. *)
Definition loop_send (payload tx : list Z) : list Z * option Z :=
  if llen payload <=? llen tx then (fill tx payload, Some (llen payload)) else (tx, None).
#[local] Instance loop_ppp : PPPoS unit := {
  ppp_new := tt;
  ppp_open s := (s, true);
  ppp_phase _ := Opened;
  ppp_ipv4 _ := Some (mk_Ipv4Status (Some [10; 0; 0; 2]) None (None, None));
  ppp_consume s input rx := (s, rx, llen input);
  ppp_poll s tx rx := (s, tx, rx, ActNone);
  ppp_send s payload tx := let '(tx, r) := loop_send payload tx in (s, tx, r);
}.
#[local] Instance loop_ppp_laws : PppLaws unit.
Proof.
  refine {| ppp_work _ := 0%nat; ppp_work_max := 0 |}; cbn.
  - lia.
  - intros [] input rx. pose proof (llen_nonneg input). lia.
  - lia.
  - intros [] payload tx. unfold loop_send. pose proof (llen_nonneg payload).
    destruct (Z.leb_spec (llen payload) (llen tx)); (split; [|intros n [= <-]; lia]); [|done].
    unfold fill. rewrite length_take, length_app, length_drop. lia.
  - intros [] st a [= <-] Ha o ->. cbn in Ha. repeat (apply elem_of_cons in Ha as [Ha|Ha]; [by simplify_eq|]). by apply elem_of_nil in Ha.
Defined.

Definition has (f : Action -> bool) (log : list Event) : bool := existsb (fun e => f e.1) log.
(** One connection, handle 3; one request on it, a query of the status, then its end. *)
#[local] Instance demo_env : Env := fun log a =>
  match a with
  | Open _ _ => mk_Answer 5 []
  | Bind _ => mk_Answer 7 []
  | Accept _ => if has (fun a => match a with Accept _ => true | _ => false end) log then mk_Answer IPC_EAGAIN [] else mk_Answer 3 []
  | Recv _ cap => if (cap <? 1) || has (fun a => match a with Recv _ _ => true | _ => false end) log then mk_Answer 0 [] else mk_Answer 1 [OP_QUERY_STATUS]
  | Send _ buf => mk_Answer (llen buf) []
  | _ => mk_Answer 0 []
  end.
#[local] Instance demo_answers : KernelAnswers.
Proof.
  split.
  - intros log h cap. cbn. destruct (Z.ltb_spec cap 1); cbn; [lia|]. destruct (has _ log); cbn; lia.
  - intros log fd cap. cbn. lia.
  - intros log l. cbn. destruct (has _ log) eqn:E; cbn; [done|]. intros Hc. exfalso.
    assert (omap accepted_of log = []) as Ha.
    { revert E. clear. unfold has. induction log as [|[a ans] log IH]; [done|]. cbn [existsb fst]. intros [Hh Hl]%orb_false_iff.
      cbn. unfold accepted_of at 1. cbn. destruct a; try done; by apply IH. }
    rewrite Ha in Hc. change (llen (@nil Z)) with 0 in Hc. pose proof (llen_nonneg (omap closed_of log)). lia.
Defined.

(** After three rounds the client has been served and is gone. *)
Lemma upppd_serves_forever_witness :
  exists log' sv, main (S := unit) 3 322 [] = Done (log', Ok (Some sv)) /\ clients sv = [] /\ omap closed_of log' = [3] /\ omap accepted_of log' = [3].
Proof.
  destruct (upppd_serves_forever (S := unit) 3 322 [] eq_refl eq_refl ltac:(apply Nat.leb_le; vm_compute; reflexivity)) as (log' & r & Hm & Hr).
  assert (main (S := unit) 3 322 [] = Done (log', Ok r)) as Hm' by exact Hm. vm_compute in Hm'. injection Hm' as <- <-.
  eexists _, _. split; [exact Hm|]. repeat split.
Defined.

Definition demo_server : Server (S := unit) :=
  mk_Server tt [3] (replicate 256 0) (replicate SERIAL_RX_BUF_SIZE 0) (replicate PPP_TX_BUF_SIZE 0) (replicate IPC_BUF_SIZE 0) Dead.
(** The query of the client 3 is answered with the status, phase 4. *)
Lemma upppd_answers_each_request_witness :
  exists sv' evs, serve_clients 1 5 demo_server 0 [] = Done (evs ++ [], Ok sv') /\ clients sv' = [3] /\
    omap answer_of (reverse evs) = [(3, [0x82; 4; 10; 0; 0; 2] ++ replicate 26 0)] /\ omap line_of (reverse evs) = [].
Proof.
  assert (recv_delivers (H := demo_env)) as Hd.
  { intros log h cap. cbn. destruct (cap <? 1); cbn; [lia|]. destruct (has _ log); cbn; done. }
  destruct (upppd_answers_each_request demo_server 5 [] ltac:(by split) Hd) as (sv' & evs & Hs & Hp & Ha & Hc & Hk).
  assert (serve_clients 1 5 demo_server 0 [] = Done (evs ++ [], Ok sv')) as Hs' by exact Hs.
  rewrite app_nil_r in Hs'. vm_compute in Hs'. injection Hs' as <- <-.
  eexists _, _. split; [exact Hs|]. split; [reflexivity|]. split; reflexivity.
Defined.

Lemma status_report_round_trip_witness :
  exists event log', build_status_event Opened (Some (mk_Ipv4Status (Some [10; 0; 0; 2]) None (Some [9; 9; 9; 9], None))) = Done event /\
    handle_status event [] = Done (log', Ok tt) /\ output 1 log' = report_text Opened (mk_Ipv4Status (Some [10; 0; 0; 2]) None (Some [9; 9; 9; 9], None)).
Proof.
  destruct (status_report_round_trip Opened (mk_Ipv4Status (Some [10; 0; 0; 2]) None (Some [9; 9; 9; 9], None)) []) as (event & log' & He & _ & _ & Hh & Ho).
  - cbn [address peer_address dns_servers fst snd]. intros a Ha o ->. repeat (apply elem_of_cons in Ha as [Ha|Ha]; [by simplify_eq|]). by apply elem_of_nil in Ha.
  - by exists event, log'.
Defined.
