(* ===== verification/Demo.v ===== *)
(** * The small programs: [apps/ipc-demo], [apps/imgview], [apps/infinite-loop]

    A demonstration of channels between a parent, a child, a named server and three
    clients; and a viewer that decodes an image and draws it on the frame buffer. *)

From S2P Require Import Prelude Words Vfs Process App.

(** ** ipc-demo *)

(** @ apps/ipc-demo/src/main.rs:7-7 NAMED_CHANNEL *)
Definition NAMED_CHANNEL : str := bytes_of "ipc-demo.named".

Section IpcDemo.
Context `{Env}.

(** The loop is the one of the shell's client. *)
(** @ apps/ipc-demo/src/main.rs:9-17 recv_poll *)
Definition demo_recv_poll : nat -> Z -> list Z -> app (list Z * Z) := recv_poll.
(** @ apps/ipc-demo/src/main.rs:19-26 connect_poll *)
Definition demo_connect_poll : nat -> str -> app Z := connect_poll.

(** [from_utf8(&buf[..recv_len]).unwrap_or("<invalid utf8>")]. *)
Definition message_text (buf : list Z) (recv_len : Z) : outcome str :=
  msg ← slice buf 0 (wrap 64 recv_len);
  Done (if utf8_valid msg then msg else bytes_of "<invalid utf8>").
(** A fixed prefix and a digit in a buffer of 32 bytes. *)
Definition numbered (prefix : str) (client_id : Z) : outcome (list Z) :=
  let outbound := replicate 32 0 in
  outbound ← splice outbound 0 prefix;
  d ← add_ovf 8 48 (wrap 8 client_id);
  outbound ← set_idx outbound (llen prefix) d;
  slice outbound 0 (llen prefix + 1).

(** @ apps/ipc-demo/src/main.rs:37-64 run_named_client *)
Definition run_named_client (polls : nat) (client_id : Z) : app unit :=
  let me := bytes_of "ipc-demo client " ++ decimal client_id in
  handle ←! demo_connect_poll polls NAMED_CHANNEL;
  println (me ++ bytes_of " connected") ;!
  outbound ←! p_lift (numbered (bytes_of "hello from client ") client_id);
  send_len ←! call_val (Send handle outbound);
  p_when (send_len <? 0) (eprintln (me ++ bytes_of ": send failed " ++ decimal_signed send_len)) ;!
  '(buf, recv_len) ←! demo_recv_poll polls handle (replicate 128 0);
  (if recv_len <? 0 then eprintln (me ++ bytes_of ": recv failed " ++ decimal_signed recv_len)
   else msg ←! p_lift (message_text buf recv_len); println (me ++ bytes_of " received: " ++ msg)) ;!
  call_ (IpcClose handle) ;!
  sys_exit.

(** One client of the server. *)
(** @ apps/ipc-demo/src/main.rs:73-100 run_named_server -- one client *)
Definition serve_demo_client (polls : nat) (listener client_id : Z) : app unit :=
  conn ←! accept_poll polls listener;
  '(buf, recv_len) ←! demo_recv_poll polls conn (replicate 128 0);
  (if recv_len <? 0 then
     eprintln (bytes_of "ipc-demo server: recv from client " ++ decimal client_id ++ bytes_of " failed " ++ decimal_signed recv_len)
   else
     msg ←! p_lift (message_text buf recv_len);
     println (bytes_of "ipc-demo server accepted client " ++ decimal client_id ++ bytes_of ": " ++ msg) ;!
     reply ←! p_lift (numbered (bytes_of "ack ") client_id);
     send_len ←! call_val (Send conn reply);
     p_when (send_len <? 0)
       (eprintln (bytes_of "ipc-demo server: reply to client " ++ decimal client_id ++ bytes_of " failed " ++ decimal_signed send_len))) ;!
  call_ (IpcClose conn).
(** @ apps/ipc-demo/src/main.rs:66-104 run_named_server *)
Definition run_named_server (polls : nat) : app unit :=
  l ←! call_handle (Bind NAMED_CHANNEL);
  match l with
  | None => eprintln (bytes_of "ipc-demo server: bind failed") ;! sys_exit
  | Some listener =>
      println (bytes_of "ipc-demo server listening on " ++ NAMED_CHANNEL) ;!
      p_each [1; 2; 3] (serve_demo_client polls listener) ;!
      call_ (IpcClose listener) ;!
      sys_exit
  end.

(** The child's half of the anonymous channel. *)
(** @ apps/ipc-demo/src/main.rs:114-136 _start -- the child *)
Definition demo_child (polls : nat) (parent_end child_end : Z) : app unit :=
  call_ (IpcClose parent_end) ;!
  '(buf, recv_len) ←! demo_recv_poll polls child_end (replicate 128 0);
  (if recv_len <? 0 then eprintln (bytes_of "ipc-demo child: recv failed " ++ decimal_signed recv_len)
   else
     msg ←! p_lift (message_text buf recv_len);
     println (bytes_of "ipc-demo child received: " ++ msg) ;!
     send_len ←! call_val (Send child_end (bytes_of "hello from child"));
     if send_len <? 0 then eprintln (bytes_of "ipc-demo child: send failed " ++ decimal_signed send_len)
     else println (bytes_of "ipc-demo child sent " ++ decimal_signed send_len ++ bytes_of " bytes")) ;!
  call_ (IpcClose child_end) ;!
  sys_exit.
(** @ apps/ipc-demo/src/main.rs:138-158 _start -- the parent *)
Definition demo_parent (polls : nat) (parent_end child_end pid : Z) : app unit :=
  call_ (IpcClose child_end) ;!
  send_len ←! call_val (Send parent_end (bytes_of "hello from parent"));
  (if send_len <? 0 then eprintln (bytes_of "ipc-demo parent: send failed " ++ decimal_signed send_len)
   else println (bytes_of "ipc-demo parent sent " ++ decimal_signed send_len ++ bytes_of " bytes")) ;!
  '(buf, recv_len) ←! demo_recv_poll polls parent_end (replicate 128 0);
  (if recv_len <? 0 then eprintln (bytes_of "ipc-demo parent: recv failed " ++ decimal_signed recv_len)
   else msg ←! p_lift (message_text buf recv_len); println (bytes_of "ipc-demo parent received: " ++ msg)) ;!
  call_ (IpcClose parent_end) ;!
  call_ (Waitpid pid).
(** The three clients from [idx] on; their processes. *)
(** @ apps/ipc-demo/src/main.rs:165-172 _start -- the clients *)
Fixpoint fork_clients (polls n : nat) (idx : Z) : app (list Z) :=
  match n with
  | O => p_ret []
  | S n =>
      fork_pid ←! sys_fork;
      p_when (fork_pid =? 0) (run_named_client polls (idx + 1)) ;!
      pids ←! fork_clients polls n (idx + 1);
      p_ret (fork_pid :: pids)
  end.
(** @ apps/ipc-demo/src/main.rs:107-179 _start *)
Definition ipc_demo_start (polls : nat) : app unit :=
  ends ←! sys_ipc_create;
  match ends with
  | None => eprintln (bytes_of "ipc-demo: ipc_create failed") ;! sys_exit
  | Some (parent_end, child_end) =>
      pid ←! sys_fork;
      p_when (pid =? 0) (demo_child polls parent_end child_end) ;!
      demo_parent polls parent_end child_end pid ;!
      server_pid ←! sys_fork;
      p_when (server_pid =? 0) (run_named_server polls) ;!
      client_pids ←! fork_clients polls 3 0;
      p_each client_pids (fun pid => call_ (Waitpid pid)) ;!
      call_ (Waitpid server_pid) ;!
      sys_exit
  end.

(** @ apps/infinite-loop/src/main.rs:5-7 _start *)
Definition infinite_loop_start : app unit := sys_exit.
End IpcDemo.

(** ** The handles of ipc-demo *)

Definition opened_of (e : Event) : list Z :=
  match e.1 with
  | IpcCreate => if a_val e.2 <? 0 then [] else [a_val e.2; from_le (a_data e.2)]
  | Bind _ | Connect _ | Accept _ => if a_val e.2 <? 0 then [] else [a_val e.2]
  | _ => []
  end.
Definition closed_of (e : Event) : list Z := match e.1 with IpcClose h => [h] | _ => [] end.
Definition opened (log : list Event) : list Z := flat_map opened_of log.
Definition closed (log : list Event) : list Z := flat_map closed_of log.
(** What the kernel promises of a receive: at most the buffer. *)
Definition receives_fit `{Env} : Prop := forall log h cap, 0 < a_val (env log (Recv h cap)) -> a_val (env log (Recv h cap)) <= cap.

Section Handles.
Context `{Env}.
Hypothesis (Hfit : receives_fit).
Implicit Types (log : list Event) (held : list Z).

(** The handles that are open: [held] is what is left of those opened after the closes. *)
Definition holds held log : Prop := held ++ closed log ≡ₚ opened log.

Lemma holds_other held log e : opened_of e = [] -> closed_of e = [] -> holds held log -> holds held (e :: log).
Proof. unfold holds, opened, closed. cbn. by intros -> ->. Qed.
Lemma holds_close h held log ans : holds (h :: held) log -> holds held ((IpcClose h, ans) :: log).
Proof. unfold holds, opened, closed. cbn. intros <-. by rewrite <- Permutation_middle. Qed.
Lemma holds_swap h1 h2 held log : holds (h1 :: h2 :: held) log -> holds (h2 :: h1 :: held) log.
Proof. unfold holds. intros <-. cbn. apply Permutation_swap. Qed.

Lemma recv_poll_holds polls : forall held handle buf log (Q : list Event -> result (list Z * Z) Stop -> Prop), length buf = 128%nat -> holds held log ->
  (forall log' buf' n, holds held log' -> length buf' = 128%nat -> (0 <= n -> n <= 128) -> Q log' (Ok (buf', n))) ->
  safe (demo_recv_poll polls handle buf) log Q.
Proof.
  unfold demo_recv_poll. induction polls as [|polls IH]; intros held handle buf log Q Hb Hh HQ; cbn [recv_poll]; [apply safe_stuck|].
  apply safe_bind. unfold sys_ipc_recv. apply safe_bind, safe_call, safe_ret.
  pose proof (Hfit log handle (llen buf)) as Hf. set (ans := env log _) in *.
  assert (length (fill buf (a_data ans)) = 128%nat) as Hfill by (unfold fill; rewrite length_take, length_app, length_drop; lia).
  assert (holds held ((Recv handle (llen buf), ans) :: log)) as Hh' by by apply holds_other.
  destruct (negb _); [apply safe_ret, HQ; [done|done|unfold llen in Hf; lia]|]. by eapply IH.
Qed.
Lemma connect_poll_holds polls : forall held name log (Q : list Event -> result Z Stop -> Prop), holds held log ->
  (forall log' h, holds (h :: held) log' -> Q log' (Ok h)) -> safe (demo_connect_poll polls name) log Q.
Proof.
  unfold demo_connect_poll. induction polls as [|polls IH]; intros held name log Q Hh HQ; cbn [connect_poll]; [apply safe_stuck|].
  unfold call_handle, call_val. do 3 apply safe_bind. apply safe_call, safe_ret, safe_ret. set (ans := env log _).
  destruct (a_val ans <? 0) eqn:E; [eapply IH; [|done]|apply safe_ret, HQ]; revert Hh; unfold holds, opened, closed; cbn; rewrite E; [done|].
  intros <-. done.
Qed.
Lemma accept_poll_holds polls : forall held l log (Q : list Event -> result Z Stop -> Prop), holds held log ->
  (forall log' h, holds (h :: held) log' -> Q log' (Ok h)) -> safe (accept_poll polls l) log Q.
Proof.
  induction polls as [|polls IH]; intros held l log Q Hh HQ; cbn [accept_poll]; [apply safe_stuck|].
  unfold call_handle, call_val. do 3 apply safe_bind. apply safe_call, safe_ret, safe_ret. set (ans := env log _).
  destruct (a_val ans <? 0) eqn:E; [eapply IH; [|done]|apply safe_ret, HQ]; revert Hh; unfold holds, opened, closed; cbn; rewrite E; [done|].
  intros <-. done.
Qed.

Lemma message_text_ok buf n : length buf = 128%nat -> 0 <= n -> n <= 128 -> exists t, message_text buf n = Done t.
Proof.
  intros Hb Hn Hm. unfold message_text. rewrite wrap_small by (unfold fits; change (2 ^ 64) with 18446744073709551616; lia).
  rewrite slice_in_range by (unfold llen; lia). by eexists.
Qed.

(** Steps of a program that open nothing. *)
Ltac steps :=
  repeat match goal with
  | |- safe (p_bind _ _) _ _ => apply safe_bind
  | |- safe (p_ret _) _ _ => apply safe_ret
  | |- safe (p_err _) _ _ => apply safe_err
  | |- safe (call _) _ _ => apply safe_call
  | |- safe (call_ _) _ _ => unfold call_
  | |- safe (call_val _) _ _ => unfold call_val
  | |- safe (call_handle _) _ _ => unfold call_handle
  | |- safe (println _) _ _ => unfold println, print, sys_write
  | |- safe (eprintln _) _ _ => unfold eprintln, eprint, sys_write
  | |- safe (p_when ?b _) _ _ => destruct b; cbn [p_when]
  | |- safe sys_fork _ _ => unfold sys_fork
  | |- safe sys_exit _ _ => unfold sys_exit
  | |- safe (if ?b then _ else _) _ _ => destruct b eqn:?
  | |- safe (p_lift (numbered _ _)) _ _ => eapply safe_lift; [vm_compute; reflexivity|]
  | |- safe (p_lift (message_text ?buf ?n)) _ _ =>
      let t := fresh "t" in let Ht := fresh "Ht" in destruct (message_text_ok buf n) as [t Ht]; [done|lia|lia|]; eapply safe_lift; [exact Ht|]
  end.
(** The open handles, by the events since. *)
Ltac handles :=
  repeat first [assumption|apply holds_other; [reflexivity|reflexivity|]|apply holds_close|apply holds_swap, holds_close].

Lemma run_named_client_holds polls client_id log : client_id ∈ [1; 2; 3] -> holds [] log ->
  safe (run_named_client polls client_id) log (fun log' r => r = Err Exited /\ holds [] log').
Proof.
  intros Hid Hh. unfold run_named_client. apply safe_bind. eapply connect_poll_holds; [exact Hh|]. intros log1 h Hh1.
  repeat (apply elem_of_cons in Hid as [->|Hid]); [..|by apply elem_of_nil in Hid]; steps;
    (eapply recv_poll_holds; [apply length_replicate|by handles|]; intros log2 buf n Hh2 Hb Hn; steps; (split; [done|]; by handles)).
Qed.

Lemma serve_demo_client_holds polls l client_id log : client_id ∈ [1; 2; 3] -> holds [l] log ->
  safe (serve_demo_client polls l client_id) log (fun log' r => r = Ok tt /\ holds [l] log').
Proof.
  intros Hid Hh. unfold serve_demo_client. apply safe_bind. eapply accept_poll_holds; [exact Hh|]. intros log1 h Hh1.
  repeat (apply elem_of_cons in Hid as [->|Hid]); [..|by apply elem_of_nil in Hid]; steps;
    (eapply recv_poll_holds; [apply length_replicate|by handles|]; intros log2 buf n Hh2 Hb Hn; steps; (split; [done|]; by handles)).
Qed.

Lemma safe_each {A} (l : list A) (body : A -> app unit) (I : list Event -> Prop) log (Q : list Event -> result unit Stop -> Prop) :
  I log -> (forall x log, x ∈ l -> I log -> safe (body x) log (fun log' r => r = Ok tt /\ I log')) -> (forall log', I log' -> Q log' (Ok tt)) ->
  safe (p_each l body) log Q.
Proof.
  intros HI HS HQ. revert log HI. induction l as [|x l IH]; intros log HI; cbn [p_each]; [apply safe_ret; auto|].
  apply safe_bind. eapply safe_mono; [apply HS; [left|done]|]. intros log' r [-> HI']. apply IH; [|done]. intros y log'' Hy. apply HS. by right.
Qed.

Lemma run_named_server_holds polls log : holds [] log ->
  safe (run_named_server polls) log (fun log' r => r = Err Exited /\ holds [] log').
Proof.
  intros Hh. unfold run_named_server. steps. set (ans := env log _). destruct (a_val ans <? 0) eqn:E.
  - steps. split; [done|]. do 2 (apply holds_other; [done|done|]). revert Hh. unfold holds, opened, closed. cbn. by rewrite E.
  - assert (holds [a_val ans] ((Bind NAMED_CHANNEL, ans) :: log)) as Hh1.
    { revert Hh. unfold holds, opened, closed. cbn. rewrite E. intros <-. done. }
    steps. eapply (safe_each _ _ (holds [a_val ans])); [by apply holds_other| |].
    + intros id log1 Hid Hh2. by apply serve_demo_client_holds.
    + intros log1 Hh2. steps. split; [done|]. by handles.
Qed.

Lemma demo_child_holds polls p c log : holds [p; c] log -> safe (demo_child polls p c) log (fun log' r => r = Err Exited /\ holds [] log').
Proof.
  intros Hh. unfold demo_child. steps;
    (eapply recv_poll_holds; [apply length_replicate|by handles|]; intros log2 buf n Hh2 Hb Hn; steps; (split; [done|]; by handles)).
Qed.
Lemma demo_parent_holds polls p c pid log : holds [p; c] log -> safe (demo_parent polls p c pid) log (fun log' r => r = Ok tt /\ holds [] log').
Proof.
  intros Hh. assert (holds [c; p] log) as Hh' by (unfold holds in *; rewrite <- Hh; apply Permutation_swap). unfold demo_parent. steps;
    (eapply (recv_poll_holds _ [p]); [apply length_replicate|by handles|]; intros log2 buf n Hh2 Hb Hn; steps; (split; [done|]; by handles)).
Qed.

Lemma fork_clients_holds polls n : forall idx log, 0 <= idx -> idx + Z.of_nat n <= 3 -> holds [] log ->
  safe (fork_clients polls n idx) log (fun log' r => holds [] log' /\ (r = Err Exited \/ exists pids, r = Ok pids)).
Proof.
  induction n as [|n IH]; intros idx log Hi Hn Hh; cbn [fork_clients]; [steps; eauto|].
  assert (forall log' pid, holds [] log' -> safe (pids ←! fork_clients polls n (idx + 1); p_ret (pid :: pids)) log'
    (fun log' r => holds [] log' /\ (r = Err Exited \/ exists pids, r = Ok pids))) as Hrest.
  { intros log' pid Hh'. apply safe_bind. eapply safe_mono; [apply IH; [lia|lia|done]|].
    intros log2 r [Hh2 [->|[pids ->]]]; [by eauto|]. steps. eauto. }
  apply safe_bind. unfold sys_fork, call_val. apply safe_bind, safe_call, safe_ret, safe_bind.
  destruct (_ =? 0); cbn [p_when]; [|by apply safe_ret, Hrest, holds_other].
  eapply safe_mono; [apply run_named_client_holds; [|by apply holds_other]|].
  - assert (idx = 0 \/ idx = 1 \/ idx = 2) as [->|[->| ->]] by lia; set_solver.
  - intros log2 r [-> Hh2]. eauto.
Qed.
End Handles.

(** ipc-demo closes what it opens.  In every process of the demonstration - the parent,
    the child, the server and the clients - whatever the other processes do, the program
    does not panic, and when it exits every handle it created, bound, connected or accepted
    has been closed exactly once, and nothing else has. *)
Theorem ipc_demo_closes_its_handles `{Env} polls log :
  receives_fit -> opened log = [] -> closed log = [] ->
  safe (ipc_demo_start polls) log (fun log' r => r = Err Exited /\ closed log' ≡ₚ opened log').
Proof.
  intros Hfit Ho Hc. eapply (safe_mono _ _ (fun log' r => r = Err Exited /\ holds [] log')); [|done].
  assert (holds [] log) as Hh by (unfold holds; by rewrite Ho, Hc).
  unfold ipc_demo_start, sys_ipc_create. do 2 apply safe_bind. apply safe_call, safe_ret. set (ans := env log _).
  destruct (a_val ans <? 0) eqn:E.
  { apply safe_bind, safe_bind, safe_call, safe_ret, safe_bind, safe_call, safe_err. split; [done|]. do 2 (apply holds_other; [done|done|]).
    revert Hh. unfold holds, opened, closed. cbn. by rewrite E. }
  set (p := a_val ans). set (c := from_le (a_data ans)).
  assert (holds [p; c] ((IpcCreate, ans) :: log)) as Hh1 by (revert Hh; unfold holds, opened, closed; cbn; rewrite E; intros <-; done).
  apply safe_bind. unfold sys_fork, call_val. apply safe_bind, safe_call, safe_ret. apply safe_bind.
  apply (holds_other _ _ (Fork, env ((IpcCreate, ans) :: log) Fork)) in Hh1; [|done|done].
  destruct (_ =? 0); cbn [p_when].
  { eapply safe_mono; [by apply demo_child_holds|]. by intros log2 r [-> Hh2]. }
  apply safe_ret, safe_bind. eapply safe_mono; [by apply demo_parent_holds|]. intros log2 r [-> Hh2].
  apply safe_bind. apply safe_bind, safe_call, safe_ret, safe_bind.
  apply (holds_other _ _ (Fork, env log2 Fork)) in Hh2; [|done|done].
  destruct (_ =? 0); cbn [p_when].
  { eapply safe_mono; [by apply run_named_server_holds|]. by intros log3 r [-> Hh3]. }
  apply safe_ret, safe_bind. eapply safe_mono; [by apply fork_clients_holds|].
  intros log3 r [Hh3 [->|[pids ->]]]; [done|]. apply safe_bind.
  eapply (safe_each _ _ (holds [])); [done| |].
  - intros pid log4 _ Hh4. apply safe_bind, safe_call, safe_ret. split; [done|]. by apply holds_other.
  - intros log4 Hh4. apply safe_bind, safe_bind, safe_call, safe_ret, safe_bind, safe_call, safe_err. split; [done|]. by do 2 (apply holds_other; [done|done|]).
Qed.

(** A parent whose channel answers at once. *)
#[local] Instance parent_env : Env := fun _ a =>
  match a with
  | IpcCreate => mk_Answer 4 [5; 0; 0; 0; 0; 0; 0; 0]
  | Fork => mk_Answer 7 []
  | Recv _ cap => if cap <? 2 then mk_Answer 0 [] else mk_Answer 2 (bytes_of "ok")
  | _ => mk_Answer 0 []
  end.
Lemma ipc_demo_closes_its_handles_witness :
  exists log', ipc_demo_start 1 [] = Done (log', Err Exited) /\ closed log' ≡ₚ [4; 5].
Proof.
  assert (receives_fit) as Hf by (intros log h cap; cbn; destruct (Z.ltb_spec cap 2); cbn; lia).
  pose proof (ipc_demo_closes_its_handles 1 [] Hf eq_refl eq_refl) as Hs.
  assert (returns (ipc_demo_start 1 [])) as Hret by (eexists; vm_compute; reflexivity).
  destruct (safe_returns _ _ _ Hs Hret) as (log' & r & Hm & -> & Hp). exists log'. split; [exact Hm|].
  rewrite Hp. assert (ipc_demo_start 1 [] = Done (log', Err Exited)) as Hm' by exact Hm. vm_compute in Hm'. injection Hm' as <-. reflexivity.
Defined.
