(* ===== verification/Imgview.v ===== *)
(** * The image viewer: [apps/imgview/src/main.rs]

    It decodes a file with one of the [zune] decoders and stores the pixels in the
    frame buffer. *)

From S2P Require Import Prelude Words Vfs Process App.

(** ** The decoders *)

Inductive DecodingResult := ResU8 (data : list Z) | ResU16 (data : list Z) | ResOther.
(** What a decoder makes of a file: headers, dimensions, pixels. *)
Record Decoder (R : Type) := mk_Decoder {
  decode_headers : list Z -> bool; dimensions : list Z -> option (Z * Z); decode : list Z -> option R }.
Arguments decode_headers {R}. Arguments dimensions {R}. Arguments decode {R}.
Class Decoders := { jpeg : Decoder (list Z); png : Decoder DecodingResult; ppm : Decoder DecodingResult; qoi : Decoder (list Z) }.

Definition ends_with (s suffix : str) : bool := bool_decide (suffix `suffix_of` s).

Section Viewer.
Context `{Env} `{Decoders}.

(** @ apps/imgview/src/main.rs:23-40 init_heap *)
Definition viewer_init_heap : app unit := init_heap.
(** @ apps/imgview/src/main.rs:64-72 read_line *)
Definition viewer_read_line : nat -> list Z -> app (list Z * Z) := read_line.

Definition info (tp : Z) : app Z := v ←! call_opt (Info tp); p_lift (unwrap v).
(** @ apps/imgview/src/main.rs:42-49 get_framebuffer *)
Definition get_framebuffer : app (Z * Z * Z * Z) :=
  ptr ←! info 8; fb_width ←! info 6; fb_height ←! info 7; pitch ←! info 9; p_ret (ptr, fb_width, fb_height, pitch).

(** @ apps/imgview/src/main.rs:51-62 read_file *)
Definition read_file (path : str) : app (option (list Z)) :=
  f ←! sys_open path false;
  match f with
  | Some fd =>
      size ←! call_val (Seek fd 0 SEEK_END);
      call_ (Seek fd 0 SEEK_SET) ;!
      buf ←! sys_read2 fd (replicate (Z.to_nat size) 0);
      call_ (Close fd) ;!
      p_ret (Some buf)
  | None => p_ret None
  end.

(** Headers, dimensions and pixels, each unwrapped. *)
Definition decoded {R} (d : Decoder R) (file_content : list Z) : outcome (R * Z * Z) :=
  assert! decode_headers d file_content;
  '(width, height) ← unwrap (dimensions d file_content);
  res ← unwrap (decode d file_content);
  Done (res, width, height).
(** 16-bit samples lose their low byte. *)
Definition samples (res : DecodingResult) : outcome (list Z) :=
  match res with ResU8 data => Done data | ResU16 data => Done ((fun x => Z.shiftr x 8) <$> data) | ResOther => Panic end.
(** @ apps/imgview/src/main.rs:74-116 process_file *)
Definition process_file (path : list Z) : app (list Z * Z * Z) :=
  path ←! p_lift (if utf8_valid path then Done path else Panic);
  f ←! read_file path;
  file_content ←! p_lift (unwrap f);
  if ends_with path (bytes_of ".jpg") || ends_with path (bytes_of ".jpeg") then p_lift (decoded jpeg file_content)
  else if ends_with path (bytes_of ".png") then
    p_lift ('(res, width, height) ← decoded png file_content; data ← samples res; Done (data, width, height))
  else if ends_with path (bytes_of ".ppm") then
    p_lift ('(res, width, height) ← decoded ppm file_content; data ← samples res; Done (data, width, height))
  else if ends_with path (bytes_of ".qoi") then p_lift (decoded qoi file_content)
  else p_ret ([], 0, 0).

(** One pixel: the address and the value stored. *)
Definition pixel (buf : list Z) (width ptr pitch i j : Z) : outcome (Z * Z) :=
  iw ← mul_ovf 64 i width;
  px ← add_ovf 64 iw j;
  base ← mul_ovf 64 px 3;
  ip ← mul_ovf 64 i pitch;
  j4 ← mul_ovf 64 j 4;
  off ← add_ovf 64 ip j4;
  addr ← add_ovf 64 ptr off;
  r ← idx buf base;
  b1 ← add_ovf 64 base 1;
  g ← idx buf b1;
  b2 ← add_ovf 64 base 2;
  b ← idx buf b2;
  Done (addr, Z.shiftl r 16 + Z.shiftl g 8 + b).
Fixpoint draw_row (buf : list Z) (width ptr pitch i : Z) (n : nat) (j : Z) : app unit :=
  match n with
  | O => p_ret tt
  | S n =>
      '(addr, value) ←! p_lift (pixel buf width ptr pitch i j);
      call_ (Store addr value) ;!
      draw_row buf width ptr pitch i n (j + 1)
  end.
Fixpoint draw_rows (buf : list Z) (width ptr pitch cols : Z) (n : nat) (i : Z) : app unit :=
  match n with
  | O => p_ret tt
  | S n => draw_row buf width ptr pitch i (Z.to_nat cols) 0 ;! draw_rows buf width ptr pitch cols n (i + 1)
  end.
(** The two loops. *)
(** @ apps/imgview/src/main.rs:125-134 main -- the drawing *)
Definition draw (buf : list Z) (width height ptr fb_width fb_height pitch : Z) : app unit :=
  draw_rows buf width ptr pitch (Z.min width fb_width) (Z.to_nat (Z.min height fb_height)) 0.

(** @ apps/imgview/src/main.rs:118-136 main *)
Definition viewer_main (polls : nat) : app unit :=
  print (bytes_of "Image file path: ") ;!
  '(path_buf, len) ←! viewer_read_line polls (replicate 128 0);
  path ←! p_lift (slice path_buf 0 len);
  '(buf, width, height) ←! process_file path;
  '(ptr, fb_width, fb_height, pitch) ←! get_framebuffer;
  draw buf width height ptr fb_width fb_height pitch ;!
  _ ←! sys_read polls;
  p_ret tt.
(** @ apps/imgview/src/main.rs:17-21 _start *)
Definition viewer_start (polls : nat) : app unit := viewer_init_heap ;! viewer_main polls ;! sys_exit.
End Viewer.

(** ** What is drawn *)

Definition store_of (e : Event) : option (Z * Z) := match e.1 with Store addr value => Some (addr, value) | _ => None end.
(** The stores, oldest first. *)
Definition stores (log : list Event) : list (Z * Z) := reverse (omap store_of log).
(** Row [i], column [j] of the picture, in the frame buffer's 0x00RRGGBB. *)
Definition rgb (buf : list Z) (width i j : Z) : Z :=
  let base := (i * width + j) * 3 in
  Z.shiftl (buf !!! Z.to_nat base) 16 + Z.shiftl (buf !!! Z.to_nat (base + 1)) 8 + buf !!! Z.to_nat (base + 2).
Definition picture (buf : list Z) (width ptr pitch rows cols : Z) : list (Z * Z) :=
  flat_map (fun i => (fun j => (ptr + i * pitch + 4 * j, rgb buf width i j)) <$> seqZ 0 cols) (seqZ 0 rows).

Lemma stores_cons e log : stores (e :: log) = stores log ++ (match store_of e with Some s => [s] | None => [] end).
Proof.
  unfold stores. change (omap store_of (e :: log)) with (match store_of e with Some s => s :: omap store_of log | None => omap store_of log end).
  destruct (store_of e); [by rewrite reverse_cons|by rewrite app_nil_r].
Qed.

Section Draw.
Context `{Env} (buf : list Z) (width height ptr fb_width fb_height pitch : Z).
Hypotheses (Hw : 0 <= width) (Hh : 0 <= height) (Hptr : 0 <= ptr) (Hfw : 0 <= fb_width) (Hfh : 0 <= fb_height)
  (Hbuf : width * height * 3 <= llen buf) (Hsize : llen buf < 2 ^ 63) (Hpitch : 4 * fb_width <= pitch) (Hfb : ptr + pitch * fb_height < 2 ^ 63).
Let rows := Z.min height fb_height.
Let cols := Z.min width fb_width.

Lemma pixel_spec i j : 0 <= i < rows -> 0 <= j < cols -> pixel buf width ptr pitch i j = Done (ptr + i * pitch + 4 * j, rgb buf width i j).
Proof.
  unfold rows, cols. intros Hi Hj. change (2 ^ 63) with 9223372036854775808 in *.
  assert (0 <= i * width) by nia. assert (i * width + j + 1 <= width * height) by nia.
  assert (0 <= i * pitch) by nia. assert (i * pitch + 4 * j < pitch * fb_height) by nia.
  unfold pixel, mul_ovf, add_ovf. change (2 ^ 64) with 18446744073709551616.
  assert (forall k, 0 <= k < llen buf -> idx buf k = Done (buf !!! Z.to_nat k)) as Hidx.
  { intros k Hk. destruct (idx_in_range buf k Hk) as (x & -> & Hx). by rewrite (list_lookup_total_correct _ _ _ Hx). }
  repeat (first [rewrite (proj2 (Z.ltb_lt _ _)) by lia|rewrite Hidx by lia]; cbn [mbind outcome_bind]).
  f_equal. f_equal. lia.
Qed.

Lemma draw_row_spec i n : forall j log, 0 <= i < rows -> 0 <= j -> j + Z.of_nat n <= cols ->
  wp (draw_row buf width ptr pitch i n j) log (fun log' r => r = Ok tt /\
    stores log' = stores log ++ ((fun j => (ptr + i * pitch + 4 * j, rgb buf width i j)) <$> seqZ j (Z.of_nat n))).
Proof.
  induction n as [|n IH]; intros j log Hi Hj Hn; cbn [draw_row].
  - apply wp_ret. by rewrite app_nil_r.
  - apply wp_bind. eapply wp_lift; [apply pixel_spec; lia|]. apply wp_bind, wp_call_.
    eapply wp_mono; [apply IH; lia|]. intros log' r [-> Hs]. split; [done|]. rewrite Hs, stores_cons. cbn [store_of fst].
    rewrite (seqZ_cons j) by lia. rewrite fmap_cons, <- app_assoc. cbn [app].
    replace (Z.succ j) with (j + 1) by lia. by replace (Z.pred (Z.of_nat (S n))) with (Z.of_nat n) by lia.
Qed.

Lemma draw_rows_spec n : forall i log, 0 <= i -> i + Z.of_nat n <= rows ->
  wp (draw_rows buf width ptr pitch cols n i) log (fun log' r => r = Ok tt /\
    stores log' = stores log ++ flat_map (fun i => (fun j => (ptr + i * pitch + 4 * j, rgb buf width i j)) <$> seqZ 0 cols) (seqZ i (Z.of_nat n))).
Proof.
  induction n as [|n IH]; intros i log Hi Hn; cbn [draw_rows].
  - apply wp_ret. by rewrite app_nil_r.
  - apply wp_bind. eapply wp_mono; [apply draw_row_spec; [lia|lia|unfold cols; lia]|]. intros log1 r [-> Hs1].
    eapply wp_mono; [apply IH; lia|]. intros log2 r [-> Hs2]. split; [done|]. rewrite Hs2, Hs1.
    rewrite (seqZ_cons i) by lia. cbn [flat_map]. rewrite <- app_assoc.
    replace (Z.of_nat (Z.to_nat cols)) with cols by (unfold cols; lia).
    replace (Z.succ i) with (i + 1) by lia. by replace (Z.pred (Z.of_nat (S n))) with (Z.of_nat n) by lia.
Qed.
End Draw.

(** C40: drawing stays on the screen.  With three bytes of colour for each pixel of the
    image, the drawing does not panic, and stores exactly the pixels of the picture's
    part that fits the screen, row by row, each at its place: every store is a whole
    pixel inside its row of the frame buffer. *)
Theorem drawing_stays_on_screen `{Env} buf width height ptr fb_width fb_height pitch log :
  0 <= width -> 0 <= height -> 0 <= ptr -> 0 <= fb_width -> 0 <= fb_height ->
  width * height * 3 <= llen buf -> llen buf < 2 ^ 63 -> 4 * fb_width <= pitch -> ptr + pitch * fb_height < 2 ^ 63 ->
  wp (draw buf width height ptr fb_width fb_height pitch) log (fun log' r => r = Ok tt /\
    stores log' = stores log ++ picture buf width ptr pitch (Z.min height fb_height) (Z.min width fb_width)) /\
  forall addr value, (addr, value) ∈ picture buf width ptr pitch (Z.min height fb_height) (Z.min width fb_width) ->
    exists i j, 0 <= i < fb_height /\ 0 <= j < fb_width /\ addr = ptr + i * pitch + 4 * j /\
      ptr <= addr /\ addr + 4 <= ptr + i * pitch + pitch /\ addr + 4 <= ptr + pitch * fb_height.
Proof.
  intros Hw Hh Hptr Hfw Hfh Hbuf Hsize Hpitch Hfb. split.
  - unfold draw. eapply wp_mono; [apply (draw_rows_spec buf width height ptr fb_width fb_height pitch); first [done|lia]|].
    intros log' r [-> Hs]. split; [done|]. rewrite Hs. unfold picture. by replace (Z.of_nat (Z.to_nat (Z.min height fb_height))) with (Z.min height fb_height) by lia.
  - intros addr value Hin. unfold picture in Hin. apply list_elem_of_In, in_flat_map in Hin as (i & Hi & Hin).
    apply list_elem_of_In, elem_of_seqZ in Hi. apply list_elem_of_In, list_elem_of_fmap in Hin as (j & [= -> _] & Hj). apply elem_of_seqZ in Hj.
    exists i, j. split; [lia|]. split; [lia|]. split; [done|]. nia.
Qed.

(** Two by two pixels on a screen of one row. *)
#[local] Instance quiet_env : Env := fun _ _ => mk_Answer 0 [].
Lemma drawing_stays_on_screen_witness :
  exists log', draw [1; 2; 3; 4; 5; 6; 7; 8; 9; 10; 11; 12] 2 2 0x1000 5 1 64 [] = Done (log', Ok tt) /\
    stores log' = [(0x1000, 0x010203); (0x1004, 0x040506)].
Proof.
  destruct (drawing_stays_on_screen [1; 2; 3; 4; 5; 6; 7; 8; 9; 10; 11; 12] 2 2 0x1000 5 1 64 []
    ltac:(lia) ltac:(lia) ltac:(lia) ltac:(lia) ltac:(lia) ltac:(by vm_compute) ltac:(by vm_compute) ltac:(lia) ltac:(by vm_compute)) as [(log' & r & Hm & -> & Hs) _].
  exists log'. split; [exact Hm|]. rewrite Hs. vm_compute. reflexivity.
Defined.

(** A decoder that returns one byte for each pixel - a grey image - is not handled. *)
Lemma grey_image_panics : draw [1; 2; 3; 4] 2 2 0x1000 5 5 64 [] = Panic.
Proof. vm_compute. reflexivity. Qed.
